(* ===== verification/_CoqProject ===== *)
-Q . S2P
Prelude.v
GoStrings.v
NetAddr.v
GoUrl.v
GoHttp.v
GoEncode.v
Wire.v
WsFrame.v
WsRfc.v
Sni.v
Sanitize.v
DashboardAuth.v
DashboardProps.v
Csrf.v
HostMatch.v
Policy.v
Dispatch.v
Compile.v
CompileProps.v
ProfileProps.v
TunnelProps.v
PolicyWf.v
TunnelMgr.v
TunnelMgrProps.v
RelayDest.v
DnsVip.v
DnsVipProps.v
DnsVipRestart.v
Devices.v
DevicesProps.v
Peers.v
Onboard.v
OnboardProps.v
Routing.v
RoutingProps.v
PeersProps.v
HitlStore.v
HitlProps.v
Fingerprint.v
FingerprintProps.v
HitlRegistry.v
Approver.v
ApproverProps.v
ApproveChain.v
Llm.v
CelMatch.v
Facets.v
K8sPath.v
RequestLoop.v
Credentials.v
Secrets.v
SecretsProps.v
OAuth.v
OAuthConc.v
OAuthProps.v
OAuthTheorems.v
OAuthFlow.v
Notify.v
SlackHook.v
Discovery.v
Sampler.v
LoopProps.v
CredentialProps.v
WsBridge.v
PgSplit.v
PgSql.v
SqlConn.v
PgConn.v
PgProps.v
PgSqlProps.v
PgAuth.v
PgAuthProps.v
ChSql.v
ChConn.v
ChProps.v
CelProps.v
Ssh.v
SshProps.v
