(* ===== verification/Prelude.v ===== *)
(** * A verification development for Claw Patrol

    Claw Patrol is a gateway that stands between agents and the services they
    call. An operator writes a policy; the gateway identifies the device behind a
    connection, picks the endpoint a host belongs to, evaluates the endpoint's
    rules on each request, injects a credential the agent never sees, and holds
    some requests until a human approves them. This library translates the parts
    of the Go sources (under [src/]) that take those decisions into Rocq and
    proves what the gateway relies on.

    ** Parts and files

    - [Prelude]: results, tactics, stable sorting, finite maps, bit lemmas.
      [GoStrings], [NetAddr], [GoUrl], [GoHttp]: what the sources use of
      [strings], [strconv], [net/netip], [net/url], [net/http] and [mime].
      [Wire]: bytes, integers on the wire, reads, slices that can panic.
    - [WsFrame], [WsBridge]: frames, pumps and upgrade of [cmd/clawpatrol/ws.go]; [WsRfc]: what a
      frame is by RFC 6455, which both are related to.
      [Sni]: [peekSNI] of [main.go], the server name in a TLS hello.
    - [Sanitize]: [cmd/clawpatrol/response_sanitize.go], what an upstream's
      response loses on the way to the agent.
    - [DashboardAuth]: the gates, sessions, users and login of
      [cmd/clawpatrol/web.go], [dashboard_sessions.go], [dashboard_users.go] and
      [internal/config/operators.go]; [DashboardProps]. [Csrf]:
      [cmd/clawpatrol/web_csrf.go], composed with the gates.
    - [HostMatch]: [internal/config/hostmatch], host patterns of endpoints.
    - [Policy]: the request snapshot of [internal/config/match] and the compiled
      policy of [internal/config/compile.go]. Go maps are [gmap]s, nil pointers
      [None], interface values the record of what is called on them.
    - [Compile]: [config.Compile] with its passes, on decoded entities. Where the
      code ranges over a map, the order is an argument. [CompileProps] (rules and
      verdicts), [ProfileProps] (hosts and credentials of a profile),
      [TunnelProps] (chains of tunnels), [PolicyWf] (the type of the result).
    - [TunnelMgr]: [cmd/clawpatrol/tunnel.go], tunnels shared by connections, as
      interleaved critical sections; [TunnelMgrProps].
    - [Dispatch]: [internal/config/runtime/dispatch.go], the lookups the gateway
      makes per request, against an abstract specification of rule evaluation.
    - [RelayDest]: [cmd/clawpatrol/relay_dest.go], which addresses the relay may
      dial, with the ranges of the vendored [tsaddr].
    - [DnsVip]: [cmd/clawpatrol/dnsvip/dnsvip.go], virtual addresses for
      intercepted names. [DnsVipProps] (invariant), [DnsVipRestart] (reachable
      states, restarts, answers).
    - [Devices]: the registry of devices of [cmd/clawpatrol/onboard.go] and its
      table; [DevicesProps]. [Peers]: [profileFor] of [main.go] and the aliases it
      derives from the tailnet. [Onboard]: the sessions, handlers and background
      job of onboarding, bearer tokens; [OnboardProps].
    - [Routing]: which part of the gateway takes a connection ([handle] and its
      siblings in [main.go], [udp_dispatch.go], [runtime/conn_route.go]).
      [RoutingProps]; [PeersProps] joins it with [Peers].
    - [HitlStore]: [cmd/clawpatrol/hitl_operation_store.go] and its callers, the
      durable approvals. [HitlProps]: interleavings of committed statements.
    - [Fingerprint]: [cmd/clawpatrol/hitl_fingerprint.go], parking a request and
      spending its grant. [FingerprintProps]: which request a grant covers.
    - [HitlRegistry]: [HITLRegistry] of [cmd/clawpatrol/web.go], the pending
      prompts and their channels. [Approver]: the waiting side, in
      [internal/config/plugins/approvers]. [ApproverProps]: their interleavings.
      [ApproveChain]: [runApproveChain] and the buffering of bodies in [main.go].
      [Llm]: [approvers/llm.go], the language-model approver as a stage of it.
    - [CelMatch]: [internal/config/match/cel.go]. [Facets]:
      [internal/config/facet] and [internal/config/plugins/facets]. [K8sPath]:
      the path parser of the kubernetes facet. [CelProps]: verdicts on requests
      the gateway has only in part.
    - [RequestLoop]: the loop over the requests of an intercepted connection in
      [main.go], stage by stage, as a state monad with a trace of effects and
      early exits. [LoopProps]: a small program logic for it and what the loop
      guarantees.
    - [GoEncode]: base64 and form encoding. [Credentials]: what each plugin of
      [internal/config/plugins/credentials] does to a request;
      [CredentialProps]: its footprint, alone and in the loop. [Secrets]:
      [cmd/clawpatrol/secrets.go], [runtime/secrets.go] and the handlers that save
      and clear a credential, over statements that may fail; [SecretsProps].
    - [OAuth]: tokens, verdicts and critical sections of one credential of
      [cmd/clawpatrol/oauth.go]. [OAuthConc]: the registry's calls as jobs that
      interleave between lock, statement and provider. [OAuthProps]: exclusion and
      generations by induction on steps; [OAuthTheorems]: what follows. [OAuthFlow]:
      connecting a credential in the dashboard.
    - [Notify]: what the Slack and Signal credentials send to operators, with the
      templates of [approvers/template.go]. [SlackHook]: the
      webhook through which Slack decides, and the probe of its tokens.
    - [Discovery]: [cmd/clawpatrol/discovery.go], what a device is told about its
      profile. [Sampler]: [sample_redact.go] and the body
      sampler of [web.go], what is recorded of a body.
    - [SqlConn]: the connection handle of [internal/config/runtime] that the
      database frontends get. [PgSplit], [PgSql]: the statement splitter and the
      analysis of [endpoints/postgres_sql.go]; [PgSqlProps].
      [PgConn], [PgAuth]: the pump and the login of [endpoints/postgres.go];
      [PgProps], [PgAuthProps]. [ChSql], [ChConn]: the analysis, packet pump and
      handshake of [endpoints/clickhouse_native*.go]; [ChProps]. [Ssh]:
      [endpoints/ssh.go]; [SshProps].

    They interact as in the program: [Peers] gives a connection its profile,
    [Routing] its endpoint, with [DnsVip], [RelayDest] and the lookups of
    [Dispatch]; [RequestLoop] buffers, matches with [Dispatch] on the policy
    [Compile] builds, spends grants through [Fingerprint] and [HitlStore], asks
    the approvers of [ApproveChain] and forwards with [Sanitize]; the matchers
    are what [Facets] composes from [CelMatch]; [Approver] drives
    [HitlRegistry]; the credential [Dispatch] picks edits the request with
    [Credentials], from the material of [Secrets] or [OAuth]. A connection of a database or ssh endpoint goes to [PgAuth],
    [ChConn] or [Ssh] instead, which ask [Dispatch] for the credential and for a
    verdict on every statement or action.

    ** What the theorems show

    - From peer to upstream: a peer's profile is its own or that of a device of
      the same node (C19); its connections reach only endpoints of that profile
      (C2); a request is served only if its rule and its approvers
      permit it, is answered once, and is forwarded as judged (C1, C23, C24).
    - Credentials: a secret appears only where its plugin puts it (C25) and
      not in the bodies and request headers that are recorded, though response headers are recorded as
      they came (C26); a credential shown as connected was probed with what is stored (C20).
      OAuth tokens reach the table in the order of their generations, refreshes
      exclude each other (C15, C16).
    - Policy: rule evaluation refines "first applicable rule, unevaluable denies"
      (C3, C32); a compiled policy is well formed and its deciding rule is a
      highest-priority applicable rule of the configuration (C5, C27); a tunnel
      in use is open (C14).
    - Requests: a verdict reached without all the bytes is the verdict on the
      complete request (C12); the kubernetes facet reads what the upstream
      reads (C36); a websocket carries the frames it was given, up to one of
      more than 16 MiB (C28).
    - Databases: what reaches the server was judged, as far as the splitter of
      statements and the framing of data packets see it (C4, C7), nested ones
      included (C21), however the bytes arrive (C31); the agent learns
      nothing of the credential (C30).
    - ssh: only judged actions reach the upstream, and nothing after a refusal
      (C8); a command is judged with all of its input (C22).
    - Relay and hosts: the exact sets of addresses that may be dialled, and that
      nothing else is (C33, C34); no bytes of a TLS hello break the parser of
      its server name (C38).
    - Virtual addresses: names and addresses determine each other, and keep to
      each other across reloads and restarts (C37).
    - Devices and onboarding: key material follows an operator's approval and is
      delivered once, under every interleaving (C18).
    - Approvals: a grant is spent once, by the request it was given for, whatever
      else commits in between (C6, C9); Slack decides only what
      it signed (C11); what an operator is told and what the
      request gets agree (C10); every stage of a chain must allow, a
      language model included (C17, C29).
    - Dashboard: who is admitted, exactly (C13), and that other sites get nothing
      (C35).
    - Behaviour that departs from what comments or documents say, or that lets a
      statement pass unjudged (C39, C40).

    Each component has further theorems of the same kind beside these, such as
    the approvals store's maintenance, the longest wildcard, the operator
    allowlist, devices over a restart, ended sessions, the response filter, chains
    of tunnels without cycles, the splitting of a batch, the backoff of refreshes, or the verdicts a model's answer is read as.

    ** Conventions and bounds

    Byte strings are [string]; letter case and blanks are ASCII, as for host
    names, methods and header names. Times are nanoseconds in [Z]; the zero time
    is [None]. A [uint16] or [uint32] that the code parses or shifts is kept in
    its range by the operation that produces it. Loops over data are structural.
    The scan for a free virtual address has as fuel the number of ids left, the
    walk along a tunnel's [via] links one step more than there are tunnels, and
    the parameters of a media type the length of the text, so none runs out
    ([TunnelProps] proves the second exact, and [rebuild_stable] says that
    exhaustion means every id is used). The pumps and probes over a byte stream
    have its length and one more, and the analysis of nested DO blocks the length
    of the text; [pg_reads_do_not_matter], [ch_only_cleared_forwarded] and
    [ws_pump_faithful] include that this is enough. Concurrency is a relation over critical
    sections or committed statements, or an arbitrary change of shared state
    between them.

    ** Assumed

    [cel-go] (laws in [CelProps], with an instance), HMAC and SHA-256, bcrypt and
    base64 (nothing: collisions are a case of the conclusions), the SQL parsers
    (a DO body is shorter than its statement), the ClickHouse codec (a decoder
    leaves no more than it was given, with an instance), flate, the ssh library, the resolver, the
    dialer, TLS handshakes, the DNS exchange, the tailnet's WhoIs, the minting of
    keys, JSON, SigV4 signing, [golang.org/x/oauth2]'s own refresh,
    [time.ParseDuration] and what plugin bodies answer (arbitrary
    functions).

    ** Not modelled

    Decoding of HCL, SQL driver failures (except for the allocator's commits),
    failing writes to a connection, contexts and timeouts beyond the approvers'
    own and the clickhouse probe's, certificates, WireGuard and tailnet
    transports, the dashboard's reporting handlers, external plugins, telemetry, command line and set-up: they drive libraries, processes and the operating system, or only
    report. *)

From Stdlib Require Export ZArith Lia Bool Ascii.
From Stdlib Require String.
From stdpp Require Export base gmap strings list sorting fin_maps.

#[global] Open Scope string_scope.
#[global] Open Scope list_scope.
#[global] Open Scope Z_scope.
#[global] Arguments String.append : simpl nomatch.

(** ** Results

    A Go function returning [(T, error)] is a [result T E]: [Ok v] when the
    error is nil, [Err e] otherwise. *)

Inductive result (A E : Type) : Type :=
| Ok (a : A)
| Err (e : E).
Arguments Ok {A E} _.
Arguments Err {A E} _.

Declare Scope go_scope.
Delimit Scope go_scope with go.
#[global] Open Scope go_scope.

Notation "'let?' x ':=' c 'in' k" :=
  (match c with Ok x => k | Err e => Err e end)
  (at level 10, x pattern, c at level 100, k at level 200,
   format "'[v' 'let?'  x  ':='  c  'in' '/' k ']'") : go_scope.

Definition is_ok {A E} (r : result A E) : bool :=
  match r with Ok _ => true | Err _ => false end.

(** ** Tactics *)

(** Case analysis on the scrutinee of the first [match] or [if] found. *)
Ltac dcase :=
  match goal with
  | |- context [match ?x with _ => _ end] => destruct x eqn:?
  end.

Ltac dcase_in H :=
  match type of H with
  | context [match ?x with _ => _ end] => destruct x eqn:?
  end.

(** Turn boolean connectives and comparisons in the context into
    propositions. *)
Ltac bprop :=
  repeat match goal with
  | H : (_ && _)%bool = true |- _ => apply andb_true_iff in H as [? ?]
  | H : (_ || _)%bool = false |- _ => apply orb_false_iff in H as [? ?]
  | H : negb _ = true |- _ => apply negb_true_iff in H
  | H : negb _ = false |- _ => apply negb_false_iff in H
  | H : String.eqb _ _ = true |- _ => apply String.eqb_eq in H
  | H : String.eqb _ _ = false |- _ => apply String.eqb_neq in H
  | H : Ascii.eqb _ _ = true |- _ => apply Ascii.eqb_eq in H
  | H : Ascii.eqb _ _ = false |- _ => apply Ascii.eqb_neq in H
  | H : (_ =? _)%Z = true |- _ => apply Z.eqb_eq in H
  | H : (_ =? _)%Z = false |- _ => apply Z.eqb_neq in H
  | H : (_ <=? _)%Z = true |- _ => apply Z.leb_le in H
  | H : (_ <=? _)%Z = false |- _ => apply Z.leb_gt in H
  | H : (_ <? _)%Z = true |- _ => apply Z.ltb_lt in H
  | H : (_ <? _)%Z = false |- _ => apply Z.ltb_ge in H
  | H : (_ =? _)%nat = true |- _ => apply Nat.eqb_eq in H
  | H : (_ =? _)%nat = false |- _ => apply Nat.eqb_neq in H
  | H : (_ <=? _)%nat = true |- _ => apply Nat.leb_le in H
  | H : (_ <=? _)%nat = false |- _ => apply Nat.leb_gt in H
  | H : (_ <? _)%nat = true |- _ => apply Nat.ltb_lt in H
  | H : (_ <? _)%nat = false |- _ => apply Nat.ltb_ge in H
  end.

Create HintDb claw.

(** ** Stable sorting ([sort.SliceStable])

    Insertion sort by a strict [less] predicate. It is stable, and for a strict
    weak order the stable sorted permutation is unique, so this is the result
    of Go's [sort.SliceStable] with the same [less]. *)

Section StableSort.
Context {A : Type} (less : A -> A -> bool).

Fixpoint stable_insert (x : A) (l : list A) : list A :=
  match l with
  | [] => [x]
  | y :: l' => if less y x then y :: stable_insert x l' else x :: y :: l'
  end.

Fixpoint stable_sort (l : list A) : list A :=
  match l with
  | [] => []
  | x :: l' => stable_insert x (stable_sort l')
  end.

Lemma stable_insert_perm x l : stable_insert x l ≡ₚ x :: l.
Proof.
  induction l as [|y l IH]; simpl; [done|].
  destruct (less y x); [|done].
  rewrite IH. apply Permutation_swap.
Qed.

Lemma stable_sort_perm l : stable_sort l ≡ₚ l.
Proof. induction l as [|x l IH]; simpl; [done|]. by rewrite stable_insert_perm, IH. Qed.

Lemma elem_of_stable_sort x l : x ∈ stable_sort l ↔ x ∈ l.
Proof. by rewrite stable_sort_perm. Qed.

End StableSort.

Section Sortedness.
Context {A : Type} (less : A -> A -> bool) (R : A -> A -> Prop).
Hypothesis R_trans : ∀ x y z, R x y → R y z → R x z.
Hypothesis less_true : ∀ x y, less x y = true → R x y.
Hypothesis less_false : ∀ x y, less x y = false → R y x.

Lemma stable_insert_sorted x l :
  StronglySorted R l → StronglySorted R (stable_insert less x l).
Proof.
  induction 1 as [|y l Hl IH Hy]; simpl; [by repeat constructor|].
  destruct (less y x) eqn:E.
  - constructor; [done|]. rewrite Forall_forall in Hy |- *.
    intros z Hz. rewrite stable_insert_perm in Hz.
    apply elem_of_cons in Hz as [->|Hz]; auto.
  - constructor; [by constructor|]. constructor; [auto|].
    rewrite Forall_forall in Hy |- *. intros z Hz. eauto.
Qed.

(** The output is sorted by every preorder [R] the predicate decides. *)
Lemma stable_sort_sorted l : StronglySorted R (stable_sort less l).
Proof. induction l; simpl; [constructor|]. by apply stable_insert_sorted. Qed.
End Sortedness.

Section Stability.
Context {A : Type} (less : A -> A -> bool) (P : A -> bool).
(** Elements selected by [P] are pairwise incomparable. *)
Hypothesis P_tied : ∀ x y, P x = true → P y = true → less x y = false.

Lemma stable_insert_filter x l :
  List.filter P (stable_insert less x l) = List.filter P (x :: l).
Proof.
  induction l as [|y l IH]; simpl; [done|].
  destruct (less y x) eqn:E; [|done]. simpl in *. rewrite IH.
  destruct (P x) eqn:Hx, (P y) eqn:Hy; try done.
  rewrite (P_tied y x) in E; done.
Qed.

(** Stability: tied elements keep their input order. *)
Lemma stable_sort_filter l : List.filter P (stable_sort less l) = List.filter P l.
Proof.
  induction l as [|x l IH]; simpl; [done|].
  rewrite stable_insert_filter. simpl. by rewrite IH.
Qed.
End Stability.

Lemma StronglySorted_app_cons {A} (R : A -> A -> Prop) l1 x l2 :
  StronglySorted R (l1 ++ x :: l2) → Forall (R x) l2.
Proof.
  induction l1 as [|y l1 IH]; simpl; inversion 1; subst; auto.
Qed.

(** ** First match in a list *)

Section FindFirst.
Context {A : Type} (p : A -> bool).

Lemma find_Some_first (l : list A) x :
  List.find p l = Some x ↔
  ∃ l1 l2, l = l1 ++ x :: l2 ∧ p x = true ∧ Forall (λ y, p y = false) l1.
Proof.
  split.
  - induction l as [|y l IH]; simpl; [done|].
    destruct (p y) eqn:E; intros H.
    + injection H as ->. exists [], l. auto.
    + destruct (IH H) as (l1 & l2 & -> & ? & ?).
      exists (y :: l1), l2. auto.
  - intros (l1 & l2 & -> & Hx & Hl1).
    induction Hl1 as [|y l1 Hy _ IH]; simpl; [by rewrite Hx|by rewrite Hy].
Qed.
End FindFirst.

Lemma lookup_snoc_last {A} (l : list A) x : (l ++ [x]) !! length l = Some x.
Proof. apply lookup_snoc_Some. auto. Qed.

(** ** Machine-integer arithmetic *)

Lemma land_mask_low v n : 0 <= n → Z.land v (2 ^ n - 1) = v mod 2 ^ n.
Proof. intros. rewrite <- Z.land_ones by lia. by rewrite Z.ones_equiv, Z.sub_1_r. Qed.

(** Clearing the low [k] bits of an [n]-bit integer. *)
Lemma land_mask_high v n k : 0 <= k <= n → 0 <= v < 2 ^ n → Z.land v (2 ^ n - 2 ^ k) = v / 2 ^ k * 2 ^ k.
Proof.
  intros Hk Hv.
  replace (v / 2 ^ k * 2 ^ k) with (Z.shiftl (Z.shiftr v k) k)
    by (rewrite Z.shiftl_mul_pow2, Z.shiftr_div_pow2 by lia; done).
  replace (2 ^ n - 2 ^ k) with (Z.shiftl (Z.ones (n - k)) k).
  2:{ rewrite Z.shiftl_mul_pow2, Z.ones_equiv by lia. unfold Z.pred.
      rewrite Z.mul_add_distr_r, <- Z.pow_add_r by lia. replace (n - k + k) with n by lia. lia. }
  apply Z.bits_inj'. intros i Hi. rewrite Z.land_spec, !Z.shiftl_spec by lia.
  destruct (Z.ltb_spec i k).
  - rewrite !(Z.testbit_neg_r _ (i - k)) by lia. apply andb_false_r.
  - rewrite Z.shiftr_spec by lia. replace (i - k + k) with i by lia.
    destruct (Z.ltb_spec i n).
    + rewrite Z.ones_spec_low by lia. apply andb_true_r.
    + rewrite Z.ones_spec_high by lia. rewrite andb_false_r. symmetry.
      rewrite <- (Z.mod_small v (2 ^ n)) by lia. apply Z.mod_pow2_bits_high. lia.
Qed.

Lemma lor_shiftl_add a b k : 0 <= k → 0 <= b < 2 ^ k → Z.lor (Z.shiftl a k) b = a * 2 ^ k + b.
Proof.
  intros Hk Hb. rewrite <- Z.shiftl_mul_pow2 by done. rewrite <- Z.lxor_lor, <- Z.add_nocarry_lxor; [done| |].
  all: apply Z.bits_inj'; intros i Hi; rewrite Z.land_spec, Z.bits_0, Z.shiftl_spec by lia;
    destruct (Z.ltb_spec i k); [by rewrite Z.testbit_neg_r by lia|];
    rewrite <- (Z.mod_small b (2 ^ k)) by lia; rewrite (Z.mod_pow2_bits_high b) by lia; apply andb_false_r.
Qed.

(** ** Iterating over a Go map

    A [range] over a Go map visits every key once, in an order the runtime
    chooses anew for each loop. A loop over a map therefore takes the visiting
    order as an argument: a list of keys [ord] with [range_order ord m]. *)

Definition range_order {A} (ord : list string) (m : gmap string A) : Prop :=
  NoDup ord ∧ ∀ k, k ∈ ord ↔ is_Some (m !! k).

Definition range_over {A} (ord : list string) (m : gmap string A) : list (string * A) :=
  omap (λ k, pair k <$> m !! k) ord.

(** A visiting order always exists; it is the one the witnesses use. *)
Definition default_order {A} (m : gmap string A) : list string := (map_to_list m).*1.

Lemma default_order_ok {A} (m : gmap string A) : range_order (default_order m) m.
Proof.
  split; [apply NoDup_fst_map_to_list|].
  intros k. unfold default_order. rewrite list_elem_of_fmap. split.
  - intros ([k' v] & -> & Hin). apply elem_of_map_to_list in Hin. eauto.
  - intros [v Hv]. exists (k, v). by rewrite elem_of_map_to_list.
Qed.

Lemma elem_of_range_over {A} ord (m : gmap string A) k v :
  (k, v) ∈ range_over ord m ↔ k ∈ ord ∧ m !! k = Some v.
Proof.
  unfold range_over. rewrite list_elem_of_omap. split.
  - intros (k' & Hin & H). destruct (m !! k') eqn:E; simplify_eq/=. auto.
  - intros [Hin H]. exists k. by rewrite H.
Qed.

Lemma range_over_complete {A} ord (m : gmap string A) k v :
  range_order ord m → m !! k = Some v → (k, v) ∈ range_over ord m.
Proof. intros [_ H] Hk. apply elem_of_range_over. split; [apply H; eauto|done]. Qed.

Lemma range_over_fst {A} ord (m : gmap string A) k : k ∈ (range_over ord m).*1 ↔ k ∈ ord ∧ is_Some (m !! k).
Proof.
  rewrite list_elem_of_fmap. split.
  - intros ([k' v] & -> & [? ?]%elem_of_range_over). eauto.
  - intros [? [v ?]]. exists (k, v). rewrite elem_of_range_over. auto.
Qed.

Lemma NoDup_range_over {A} ord (m : gmap string A) : NoDup ord → NoDup (range_over ord m).*1.
Proof.
  induction 1 as [|k ord Hk _ IH]; simpl; [constructor|].
  unfold range_over. simpl. destruct (m !! k) as [v|]; simpl; [|done].
  constructor; [|done]. by intros [? _]%range_over_fst.
Qed.

#[export] Hint Resolve default_order_ok range_over_complete : claw.
