(* ===== verification/GoStrings.v ===== *)
(** * Go's [strings] and [strconv] on byte strings

    A Go string is a sequence of bytes, here a [string] of [ascii] bytes. The
    functions below are the ones the modelled sources call, under Go's names
    and argument orders. [ToLower], [ToUpper], [EqualFold] and [TrimSpace] act
    on the ASCII range: a byte of a multi-byte UTF-8 character is a letter of
    no case and not a space. *)
From S2P Require Import Prelude.
From Stdlib Require DecimalString DecimalNat.

(** ** Slices *)

(** [s[n:]] and [s[:n]] for [n] in range. *)
Fixpoint str_drop (n : nat) (s : string) : string :=
  match n, s with
  | O, _ => s
  | _, EmptyString => EmptyString
  | S n', String _ s' => str_drop n' s'
  end.

Fixpoint str_take (n : nat) (s : string) : string :=
  match n, s with
  | O, _ => EmptyString
  | _, EmptyString => EmptyString
  | S n', String c s' => String c (str_take n' s')
  end.

(** [s[i:j]]. *)
Definition str_slice (i j : nat) (s : string) : string := str_take (j - i) (str_drop i s).

Lemma str_app_nil_r s : s +:+ "" = s.
Proof. induction s; simpl; congruence. Qed.

Lemma str_app_assoc a b c : (a +:+ b) +:+ c = a +:+ (b +:+ c).
Proof. induction a; simpl; congruence. Qed.

Lemma str_length_app a b : String.length (a +:+ b) = (String.length a + String.length b)%nat.
Proof. induction a; simpl; lia. Qed.

Lemma str_app_inj_l a b c : a +:+ b = a +:+ c → b = c.
Proof. induction a; simpl; [done|]. intros [= H]. auto. Qed.

Lemma str_length_drop n s : String.length (str_drop n s) = (String.length s - n)%nat.
Proof. revert n. induction s; intros [|n]; simpl; auto. Qed.

Lemma str_take_drop n s : str_take n s +:+ str_drop n s = s.
Proof. revert n. induction s; intros [|n]; simpl; auto. by rewrite IHs. Qed.

Lemma str_length_take n s : (n <= String.length s)%nat → String.length (str_take n s) = n.
Proof. revert n. induction s; intros [|n]; simpl; try lia. intros. rewrite IHs; lia. Qed.

Lemma str_drop_app a b : str_drop (String.length a) (a +:+ b) = b.
Proof. induction a; simpl; auto. Qed.

Lemma str_take_app a b : str_take (String.length a) (a +:+ b) = a.
Proof. induction a; simpl; [by destruct b|]. by rewrite IHa. Qed.

Lemma str_drop_all n s : (String.length s <= n)%nat → str_drop n s = "".
Proof. revert n. induction s; intros [|n]; simpl; try done; try lia. intros. apply IHs. lia. Qed.

Lemma str_take_all n s : (String.length s <= n)%nat → str_take n s = s.
Proof. revert n. induction s; intros [|n]; simpl; try done; try lia. intros. rewrite IHs; [done|lia]. Qed.

Lemma str_drop_drop n m s : str_drop n (str_drop m s) = str_drop (m + n) s.
Proof.
  revert m. induction s as [|c s IH]; intros [|m]; simpl; try done.
  by destruct n.
Qed.

Lemma str_app_nil_inv a b : a +:+ b = "" → a = "" ∧ b = "".
Proof. destruct a; simpl; [auto|done]. Qed.

(** ** Prefixes and suffixes *)

Fixpoint HasPrefix (s prefix : string) {struct prefix} : bool :=
  match prefix, s with
  | EmptyString, _ => true
  | String a p', String b s' => Ascii.eqb a b && HasPrefix s' p'
  | String _ _, EmptyString => false
  end.

Definition HasSuffix (s suffix : string) : bool :=
  (String.length suffix <=? String.length s)%nat &&
  String.eqb (str_drop (String.length s - String.length suffix) s) suffix.

Lemma HasPrefix_spec s p : HasPrefix s p = true ↔ ∃ r, s = p +:+ r.
Proof.
  revert s. induction p as [|a p IH]; intros s.
  - destruct s; simpl; (split; [intros _; by eexists|done]).
  - destruct s as [|b s]; simpl; [split; [done|by intros [r [=]]]|].
    rewrite andb_true_iff, Ascii.eqb_eq, IH. split.
    + intros [-> [r ->]]. by exists r.
    + intros [r [= -> ->]]. eauto.
Qed.

Lemma HasPrefix_app p r : HasPrefix (p +:+ r) p = true.
Proof. apply HasPrefix_spec. by exists r. Qed.

Lemma HasSuffix_spec s q : HasSuffix s q = true ↔ ∃ l, s = l +:+ q.
Proof.
  unfold HasSuffix. rewrite andb_true_iff, Nat.leb_le, String.eqb_eq. split.
  - intros [_ H]. exists (str_take (String.length s - String.length q) s).
    rewrite <- H at 2. by rewrite str_take_drop.
  - intros [l ->]. rewrite str_length_app. split; [lia|].
    replace (_ + _ - _)%nat with (String.length l) by lia. apply str_drop_app.
Qed.

Lemma HasSuffix_app l q : HasSuffix (l +:+ q) q = true.
Proof. apply HasSuffix_spec. by exists l. Qed.

Definition TrimPrefix (s p : string) : string :=
  if HasPrefix s p then str_drop (String.length p) s else s.

Definition TrimSuffix (s q : string) : string :=
  if HasSuffix s q then str_take (String.length s - String.length q) s else s.

(** [rest, ok := strings.CutPrefix(s, p)]. *)
Definition CutPrefix (s p : string) : option string :=
  if HasPrefix s p then Some (str_drop (String.length p) s) else None.

(** ** Searching *)

Fixpoint IndexByte (s : string) (c : ascii) : option nat :=
  match s with
  | EmptyString => None
  | String b s' => if Ascii.eqb b c then Some O else S <$> IndexByte s' c
  end.

Fixpoint LastIndexByte (s : string) (c : ascii) : option nat :=
  match s with
  | EmptyString => None
  | String b s' =>
      match LastIndexByte s' c with
      | Some i => Some (S i)
      | None => if Ascii.eqb b c then Some O else None
      end
  end.

(** [strings.Index]. *)
Fixpoint Index (s sub : string) : option nat :=
  if HasPrefix s sub then Some O
  else match s with
       | EmptyString => None
       | String _ s' => S <$> Index s' sub
       end.

Definition Contains (s sub : string) : bool :=
  match Index s sub with Some _ => true | None => false end.

Definition ContainsByte (s : string) (c : ascii) : bool :=
  match IndexByte s c with Some _ => true | None => false end.

(** [strings.Count(s, c)] for a one-byte separator. *)
Fixpoint CountByte (s : string) (c : ascii) : nat :=
  match s with
  | EmptyString => O
  | String b s' => (if Ascii.eqb b c then 1 else 0) + CountByte s' c
  end.

Lemma IndexByte_Some s c i :
  IndexByte s c = Some i →
  ∃ a b, s = a +:+ String c b ∧ String.length a = i ∧ IndexByte a c = None.
Proof.
  revert i. induction s as [|x s IH]; simpl; intros i; [done|].
  destruct (Ascii.eqb x c) eqn:E; intros H.
  - bprop. simplify_eq. by exists "", s.
  - destruct (IndexByte s c) as [j|]; simplify_eq/=.
    destruct (IH j eq_refl) as (a & b & -> & <- & Ha).
    exists (String x a), b. simpl. by rewrite E, Ha.
Qed.

Lemma IndexByte_None_app a b c :
  IndexByte (a +:+ b) c = None ↔ IndexByte a c = None ∧ IndexByte b c = None.
Proof.
  induction a as [|x a IH]; simpl; [naive_solver|].
  destruct (Ascii.eqb x c); [naive_solver|].
  rewrite !fmap_None, IH. naive_solver.
Qed.

Lemma IndexByte_app_first a b c :
  IndexByte a c = None → IndexByte (a +:+ String c b) c = Some (String.length a).
Proof.
  induction a as [|x a IH]; simpl; [by rewrite Ascii.eqb_refl|].
  destruct (Ascii.eqb x c); [done|]. rewrite fmap_None. intros H. by rewrite (IH H).
Qed.

Lemma LastIndexByte_Some s c i :
  LastIndexByte s c = Some i →
  ∃ a b, s = a +:+ String c b ∧ String.length a = i ∧ IndexByte b c = None.
Proof.
  revert i. induction s as [|x s IH]; simpl; intros i; [done|].
  destruct (LastIndexByte s c) as [j|] eqn:El; intros H; simplify_eq.
  - destruct (IH j eq_refl) as (a & b & -> & <- & Hb). exists (String x a), b. auto.
  - destruct (Ascii.eqb x c) eqn:E; simplify_eq. bprop. subst.
    exists "", s. repeat split; try done.
    clear -El. induction s as [|y s IH]; simpl in *; [done|].
    destruct (LastIndexByte s c); [done|]. destruct (Ascii.eqb y c); [done|].
    by rewrite (IH eq_refl).
Qed.

Lemma LastIndexByte_None s c : LastIndexByte s c = None ↔ IndexByte s c = None.
Proof.
  induction s as [|x s IH]; simpl; [done|].
  destruct (LastIndexByte s c), (IndexByte s c), (Ascii.eqb x c); naive_solver.
Qed.

Lemma LastIndexByte_app_last a b c :
  IndexByte b c = None → LastIndexByte (a +:+ String c b) c = Some (String.length a).
Proof.
  intros Hb. induction a as [|x a IH]; simpl.
  - apply LastIndexByte_None in Hb. rewrite Hb. by rewrite Ascii.eqb_refl.
  - by rewrite IH.
Qed.

Lemma CountByte_0 s c : CountByte s c = 0%nat ↔ IndexByte s c = None.
Proof.
  induction s as [|x s IH]; simpl; [done|].
  destruct (Ascii.eqb x c); [naive_solver lia|]. rewrite fmap_None. simpl. apply IH.
Qed.

Lemma CountByte_app a b c : CountByte (a +:+ b) c = (CountByte a c + CountByte b c)%nat.
Proof. induction a as [|x a IH]; simpl; [done|]. rewrite IH. lia. Qed.

Lemma Index_Some s sub i :
  Index s sub = Some i → ∃ a b, s = a +:+ (sub +:+ b) ∧ String.length a = i.
Proof.
  revert i. induction s as [|x s IH]; intros i; simpl;
    match goal with |- context [HasPrefix ?t sub] => destruct (HasPrefix t sub) eqn:E end;
    intros H; simplify_eq.
  - apply HasPrefix_spec in E as [r E]. by exists "", r.
  - apply HasPrefix_spec in E as [r E]. by exists "", r.
  - destruct (Index s sub) as [j|]; simplify_eq/=.
    destruct (IH j eq_refl) as (a & b & -> & <-). by exists (String x a), b.
Qed.

Lemma Contains_app a sub b : Contains (a +:+ (sub +:+ b)) sub = true.
Proof.
  unfold Contains. induction a as [|x a IH]; simpl.
  - destruct (sub +:+ b) eqn:E; simpl; rewrite <- E, HasPrefix_app; done.
  - destruct (HasPrefix _ sub); [done|]. by destruct (Index (a +:+ _) sub).
Qed.

Lemma Contains_spec s sub : Contains s sub = true ↔ ∃ a b, s = a +:+ (sub +:+ b).
Proof.
  split; [|intros (a & b & ->); apply Contains_app].
  unfold Contains. destruct (Index s sub) eqn:E; [|done].
  apply Index_Some in E as (a & b & ? & _). eauto.
Qed.

(** ** Case folding *)

Definition lower_byte (c : ascii) : ascii :=
  let n := N_of_ascii c in
  if ((65 <=? n) && (n <=? 90))%N then ascii_of_N (n + 32) else c.

Definition upper_byte (c : ascii) : ascii :=
  let n := N_of_ascii c in
  if ((97 <=? n) && (n <=? 122))%N then ascii_of_N (n - 32) else c.

Fixpoint str_map (f : ascii -> ascii) (s : string) : string :=
  match s with
  | EmptyString => EmptyString
  | String c s' => String (f c) (str_map f s')
  end.

Definition ToLower : string -> string := str_map lower_byte.
Definition ToUpper : string -> string := str_map upper_byte.
Definition EqualFold (a b : string) : bool := String.eqb (ToLower a) (ToLower b).

Ltac byte_cases c := destruct c as [[] [] [] [] [] [] [] []].

Lemma lower_byte_idem c : lower_byte (lower_byte c) = lower_byte c.
Proof. by byte_cases c. Qed.

Lemma lower_upper_byte c : lower_byte (upper_byte c) = lower_byte c.
Proof. by byte_cases c. Qed.

Lemma str_map_app f a b : str_map f (a +:+ b) = str_map f a +:+ str_map f b.
Proof. induction a; simpl; congruence. Qed.

Lemma str_map_length f s : String.length (str_map f s) = String.length s.
Proof. induction s; simpl; congruence. Qed.

Lemma ToLower_idem s : ToLower (ToLower s) = ToLower s.
Proof. unfold ToLower. induction s; simpl; [done|]. by rewrite lower_byte_idem, IHs. Qed.

Lemma ToLower_app a b : ToLower (a +:+ b) = ToLower a +:+ ToLower b.
Proof. apply str_map_app. Qed.

(** ** Trimming *)

Definition is_space (c : ascii) : bool :=
  let n := N_of_ascii c in ((n =? 32) || ((9 <=? n) && (n <=? 13)))%N.

Fixpoint trim_left_by (p : ascii -> bool) (s : string) : string :=
  match s with
  | EmptyString => EmptyString
  | String c s' => if p c then trim_left_by p s' else s
  end.

Fixpoint trim_right_by (p : ascii -> bool) (s : string) : string :=
  match s with
  | EmptyString => EmptyString
  | String c s' =>
      match trim_right_by p s' with
      | EmptyString => if p c then EmptyString else String c EmptyString
      | r => String c r
      end
  end.

Definition trim_by (p : ascii -> bool) (s : string) : string := trim_right_by p (trim_left_by p s).
Definition TrimSpace : string -> string := trim_by is_space.
(** [strings.Trim(s, "/")]. *)
Definition TrimByte (s : string) (c : ascii) : string := trim_by (Ascii.eqb c) s.

Fixpoint str_forall (p : ascii -> bool) (s : string) : bool :=
  match s with
  | EmptyString => true
  | String c s' => p c && str_forall p s'
  end.

Lemma str_forall_app p a b : str_forall p (a +:+ b) = str_forall p a && str_forall p b.
Proof. induction a; simpl; [done|]. by rewrite IHa, andb_assoc. Qed.

Lemma trim_left_by_spec p s : ∃ l, s = l +:+ trim_left_by p s ∧ str_forall p l = true.
Proof.
  induction s as [|c s [l [Hs Hl]]]; simpl; [by exists ""|].
  destruct (p c) eqn:E; [|by exists ""].
  exists (String c l). simpl. by rewrite E, <- Hs.
Qed.

Lemma trim_right_by_spec p s : ∃ r, s = trim_right_by p s +:+ r ∧ str_forall p r = true.
Proof.
  induction s as [|c s [r [Hs Hr]]]; simpl; [by exists ""|].
  destruct (trim_right_by p s) as [|d t] eqn:E.
  - simpl in Hs. subst r. destruct (p c) eqn:Ec.
    + exists (String c s). simpl. by rewrite Ec.
    + by exists s.
  - exists r. simpl in *. by rewrite <- Hs.
Qed.

(** Trimming removes a prefix and a suffix of trimmed bytes and nothing else. *)
Lemma trim_by_spec p s :
  ∃ l r, s = l +:+ (trim_by p s +:+ r) ∧ str_forall p l = true ∧ str_forall p r = true.
Proof.
  destruct (trim_left_by_spec p s) as (l & Hs & Hl).
  destruct (trim_right_by_spec p (trim_left_by p s)) as (r & Ht & Hr).
  exists l, r. unfold trim_by. by rewrite <- Ht.
Qed.

Lemma trim_right_by_last p s c : p c = false → trim_right_by p (s +:+ String c "") = s +:+ String c "".
Proof.
  intros H. induction s as [|x s IH]; simpl; [by rewrite H|]. rewrite IH. by destruct s.
Qed.

(** ** Split and join *)

(** [strings.Split(s, c)]: never empty. *)
Fixpoint SplitByte (s : string) (c : ascii) : list string :=
  match s with
  | EmptyString => [EmptyString]
  | String b s' =>
      let r := SplitByte s' c in
      if Ascii.eqb b c then EmptyString :: r
      else match r with
           | h :: t => String b h :: t
           | [] => [String b EmptyString]
           end
  end.

Lemma TrimSuffix_app s q : TrimSuffix (s +:+ q) q = s.
Proof.
  unfold TrimSuffix. rewrite HasSuffix_app. rewrite str_length_app.
  replace (String.length s + String.length q - String.length q)%nat with (String.length s) by lia.
  apply str_take_app.
Qed.

(** [strings.Join]. *)
Fixpoint Join (l : list string) (sep : string) : string :=
  match l with
  | [] => EmptyString
  | [x] => x
  | x :: l' => x +:+ (sep +:+ Join l' sep)
  end.

Lemma SplitByte_nonempty s c : SplitByte s c ≠ [].
Proof. destruct s; simpl; [done|]. destruct (Ascii.eqb _ _), (SplitByte _ _); done. Qed.

Lemma Join_cons x y l sep : Join (x :: y :: l) sep = x +:+ (sep +:+ Join (y :: l) sep).
Proof. done. Qed.

Lemma Join_SplitByte s c : Join (SplitByte s c) (String c "") = s.
Proof.
  induction s as [|b s IH]; simpl; [done|].
  destruct (SplitByte s c) as [|h t] eqn:E; [by destruct (SplitByte_nonempty s c)|].
  destruct (Ascii.eqb b c) eqn:Eb.
  - bprop. subst b. rewrite Join_cons, IH. done.
  - destruct t; simpl in *; by rewrite <- IH.
Qed.

Lemma SplitByte_app_sep a s c :
  IndexByte a c = None → SplitByte (a +:+ String c s) c = a :: SplitByte s c.
Proof.
  induction a as [|x a IH]; simpl; [by rewrite Ascii.eqb_refl|].
  destruct (Ascii.eqb x c) eqn:E; [done|]. rewrite fmap_None. intros H. by rewrite (IH H).
Qed.

Lemma SplitByte_single a c : IndexByte a c = None → SplitByte a c = [a].
Proof.
  induction a as [|x a IH]; simpl; [done|].
  destruct (Ascii.eqb x c) eqn:E; [done|]. rewrite fmap_None. intros H. by rewrite (IH H).
Qed.

(** Splitting undoes joining when no part holds the separator. *)
Lemma SplitByte_Join l c :
  l ≠ [] → Forall (λ x, IndexByte x c = None) l → SplitByte (Join l (String c "")) c = l.
Proof.
  intros Hne Hl. induction Hl as [|x l Hx Hl IH]; [done|].
  destruct l as [|y l]; simpl; [by apply SplitByte_single|].
  rewrite SplitByte_app_sep by done. f_equal. by apply IH.
Qed.

(** ** [strconv.Itoa] on non-negative integers *)

Definition Itoa (n : nat) : string := DecimalString.NilZero.string_of_uint (Nat.to_uint n).

Definition is_digit (c : ascii) : bool :=
  let n := N_of_ascii c in ((48 <=? n) && (n <=? 57))%N.

(** [int(c - '0')]. *)
Definition digit_value (c : ascii) : Z := Z.of_N (N_of_ascii c) - 48.

(** [strconv.Atoi] on a 64-bit platform; [None] for an error. *)
Fixpoint digits_value (acc : Z) (d : string) : Z :=
  match d with EmptyString => acc | String c d' => digits_value (acc * 10 + digit_value c) d' end.

Definition Atoi (s : string) : option Z :=
  let '(neg, digits) :=
    match s with
    | String c s' => if Ascii.eqb c "-" then (true, s') else if Ascii.eqb c "+" then (false, s') else (false, s)
    | EmptyString => (false, s)
    end in
  if negb (String.eqb digits "") && str_forall is_digit digits then
    let n := if neg : bool then - digits_value 0 digits else digits_value 0 digits in
    if (- 2 ^ 63 <=? n) && (n <? 2 ^ 63) then Some n else None
  else None.

Lemma to_uint_nonnil n : Nat.to_uint n ≠ Decimal.Nil.
Proof.
  intros H. pose proof (DecimalNat.Unsigned.of_to n) as E. rewrite H in E.
  simpl in E. by subst n.
Qed.

Lemma Itoa_inj n m : Itoa n = Itoa m → n = m.
Proof.
  unfold Itoa. intros H.
  apply (f_equal DecimalString.NilZero.uint_of_string) in H.
  rewrite !DecimalString.NilZero.usu in H by apply to_uint_nonnil.
  injection H as H. by apply DecimalNat.Unsigned.to_uint_inj in H.
Qed.

Lemma NilEmpty_digits d : str_forall is_digit (DecimalString.NilEmpty.string_of_uint d) = true.
Proof. induction d; simpl; auto. Qed.

Lemma Itoa_digits n : str_forall is_digit (Itoa n) = true.
Proof.
  unfold Itoa, DecimalString.NilZero.string_of_uint.
  destruct (Nat.to_uint n); try done; apply NilEmpty_digits.
Qed.

Lemma str_forall_IndexByte p c s : p c = false → str_forall p s = true → IndexByte s c = None.
Proof.
  intros Hc. induction s as [|x s IH]; simpl; [done|]. intros [Hx Hs]%andb_true_iff.
  destruct (Ascii.eqb x c) eqn:E; [bprop; subst; congruence|]. by rewrite IH.
Qed.

(** ** Cutting *)

Definition no_byte (c : ascii) (s : string) : bool := str_forall (λ d, negb (Ascii.eqb d c)) s.

(** Two texts that agree up to a separator absent from their heads agree on
    both sides of it. *)
Lemma cut_inj c a b x y :
  no_byte c a = true → no_byte c b = true → a +:+ String c x = b +:+ String c y → a = b ∧ x = y.
Proof.
  unfold no_byte. revert b. induction a as [|d a IH]; intros [|d' b] Ha Hb H; cbn [String.append str_forall] in *.
  - by injection H as ->.
  - injection H as -> _. by rewrite Ascii.eqb_refl in Hb.
  - injection H as -> _. by rewrite Ascii.eqb_refl in Ha.
  - injection H as -> H. apply andb_true_iff in Ha as [_ Ha], Hb as [_ Hb]. by destruct (IH b Ha Hb H) as [-> ->].
Qed.

Lemma str_app_inj_len a b x y :
  String.length a = String.length b → a +:+ x = b +:+ y → a = b ∧ x = y.
Proof.
  revert b. induction a as [|d a IH]; intros [|d' b] Hl; cbn [String.length String.append] in *; try done.
  intros [= <- H]. injection Hl as Hl. by destruct (IH b Hl H) as [-> ->].
Qed.

Lemma digits_no_byte c s : is_digit c = false → str_forall is_digit s = true → no_byte c s = true.
Proof.
  intros Hc. unfold no_byte. induction s as [|d s IH]; [done|]. cbn [str_forall]. intros [Hd Hs]%andb_true_iff.
  rewrite IH by done. rewrite andb_true_r. apply negb_true_iff, Ascii.eqb_neq. intros ->. congruence.
Qed.

Lemma str_forall_impl (p q : ascii -> bool) s :
  (∀ c, p c = true → q c = true) → str_forall p s = true → str_forall q s = true.
Proof.
  intros H. induction s as [|c s IH]; simpl; [done|]. intros [Hc Hs]%andb_true_iff. by rewrite (H c Hc), IH.
Qed.

Lemma HasPrefix_nonempty s c p : HasPrefix s (String c p) = true → ∃ r, s = String c r ∧ HasPrefix r p = true.
Proof. intros [r ->]%HasPrefix_spec. exists (p +:+ r). split; [done|apply HasPrefix_app]. Qed.

(** ** [strings.ReplaceAll], [bytes.ReplaceAll] for a non-empty [old] *)

Fixpoint replace_from (skip : nat) (old new s : string) : string :=
  match s with
  | EmptyString => EmptyString
  | String c s' =>
      match skip with
      | S k => replace_from k old new s'
      | O => if HasPrefix s old then new +:+ replace_from (String.length old - 1) old new s'
             else String c (replace_from 0 old new s')
      end
  end.

Definition ReplaceAll (s old new : string) : string := replace_from 0 old new s.

Lemma ReplaceAll_absent s old new : Contains s old = false → ReplaceAll s old new = s.
Proof.
  unfold ReplaceAll, Contains. induction s as [|c s IH]; [done|]. cbn [Index replace_from].
  destruct (HasPrefix (String c s) old); [done|]. intros H. rewrite IH; [done|]. by destruct (Index s old).
Qed.
