(* ===== verification/NetAddr.v ===== *)
(** * Addresses: Go's [net.SplitHostPort], [net.ParseIP] and [net/netip]

    The parts of Go's standard library the gateway classifies destinations
    with: host/port splitting, textual IP parsing, the [netip.Addr] predicates
    and [netip.Prefix]. An IPv4 address is a 32-bit integer, an IPv6 address a
    128-bit one with a zone. *)
From S2P Require Import Prelude GoStrings.

(** ** [net.SplitHostPort] *)

Inductive AddrError :=
| MissingPort
| TooManyColons
| MissingBracket
| UnexpectedOpen
| UnexpectedClose.

Definition colon : ascii := ":".
Definition lbracket : ascii := "[".
Definition rbracket : ascii := "]".

Definition has_byte (s : string) (c : ascii) : bool := ContainsByte s c.

(** [j] and [k] are the offsets from which a ['['] resp. a [']'] is
    unexpected. *)
Definition split_tail (hostport host : string) (i j k : nat) : result (string * string) AddrError :=
  if has_byte (str_drop j hostport) lbracket then Err UnexpectedOpen
  else if has_byte (str_drop k hostport) rbracket then Err UnexpectedClose
  else Ok (host, str_drop (S i) hostport).

(** [net.JoinHostPort] *)
Definition net_JoinHostPort (host port : string) : string :=
  if ContainsByte host ":" then "[" +:+ host +:+ "]:" +:+ port else host +:+ ":" +:+ port.

Definition net_SplitHostPort (hostport : string) : result (string * string) AddrError :=
  match LastIndexByte hostport colon with
  | None => Err MissingPort
  | Some i =>
      if HasPrefix hostport "[" then
        match IndexByte hostport rbracket with
        | None => Err MissingBracket
        | Some e =>
            if (S e =? String.length hostport)%nat then Err MissingPort
            else if (S e =? i)%nat then
              split_tail hostport (str_slice 1 e hostport) i 1 (S e)
            else if HasPrefix (str_drop (S e) hostport) ":" then Err TooManyColons
            else Err MissingPort
        end
      else
        let host := str_take i hostport in
        if has_byte host colon then Err TooManyColons
        else split_tail hostport host i 0 0
  end.

(** ** [netip.Addr] *)

Inductive Addr :=
| AddrZero                      (** the zero [netip.Addr], not valid *)
| Addr4 (v : Z)
| Addr6 (v : Z) (zone : string).

#[global] Instance Addr_eq_dec : EqDecision Addr.
Proof. solve_decision. Defined.

#[global] Instance Addr_countable : Countable Addr.
Proof.
  refine (inj_countable'
    (λ a, match a with AddrZero => inl tt | Addr4 v => inr (inl v) | Addr6 v z => inr (inr (v, z)) end)
    (λ e, match e with inl _ => AddrZero | inr (inl v) => Addr4 v | inr (inr (v, z)) => Addr6 v z end) _).
  by intros [].
Defined.

Definition addr_eqb (a b : Addr) : bool := bool_decide (a = b).

Definition IsValid (a : Addr) : bool := match a with AddrZero => false | _ => true end.
Definition Is4 (a : Addr) : bool := match a with Addr4 _ => true | _ => false end.
Definition Is6 (a : Addr) : bool := match a with Addr6 _ _ => true | _ => false end.
Definition Zone (a : Addr) : string := match a with Addr6 _ z => z | _ => "" end.

(** [::ffff:0:0/96]. *)
Definition v4mapped_hi : Z := 65535.

Definition Is4In6 (a : Addr) : bool :=
  match a with Addr6 v _ => Z.shiftr v 32 =? v4mapped_hi | _ => false end.

Definition Unmap (a : Addr) : Addr :=
  match a with
  | Addr6 v _ => if Is4In6 a then Addr4 (Z.land v (2 ^ 32 - 1)) else a
  | _ => a
  end.

(** The address as a 16-byte big-endian integer ([As16]). *)
Definition As16 (a : Addr) : Z :=
  match a with
  | AddrZero => 0
  | Addr4 v => Z.lor (Z.shiftl v4mapped_hi 32) v
  | Addr6 v _ => v
  end.

(** Byte [i] of an [n]-byte big-endian integer. *)
Definition byte_at (n i : nat) (v : Z) : Z :=
  Z.land (Z.shiftr v (8 * (Z.of_nat n - 1 - Z.of_nat i))) 255.

Definition from_bytes (l : list Z) : Z := foldl (λ acc b, Z.lor (Z.shiftl acc 8) b) 0 l.

Definition AddrFrom4 (b0 b1 b2 b3 : Z) : Addr := Addr4 (from_bytes [b0; b1; b2; b3]).

Definition IsUnspecified (a : Addr) : bool :=
  match a with
  | Addr4 v => v =? 0
  | Addr6 v z => (v =? 0) && String.eqb z ""
  | AddrZero => false
  end.

(** The remaining predicates read an IPv4-mapped IPv6 address as the IPv4 it
    holds. *)
Definition IsLoopback (a : Addr) : bool :=
  match Unmap a with
  | Addr4 v => byte_at 4 0 v =? 127
  | Addr6 v _ => v =? 1
  | AddrZero => false
  end.

Definition IsLinkLocalUnicast (a : Addr) : bool :=
  match Unmap a with
  | Addr4 v => (byte_at 4 0 v =? 169) && (byte_at 4 1 v =? 254)
  | Addr6 v _ => Z.land (Z.shiftr v 112) 65472 =? 65152           (* &0xffc0 == 0xfe80 *)
  | AddrZero => false
  end.

Definition IsInterfaceLocalMulticast (a : Addr) : bool :=
  match a with
  | Addr6 v _ => negb (Is4In6 a) && (Z.land (Z.shiftr v 112) 65295 =? 65281)  (* &0xff0f == 0xff01 *)
  | _ => false
  end.

Definition IsMulticast (a : Addr) : bool :=
  match Unmap a with
  | Addr4 v => Z.land (byte_at 4 0 v) 240 =? 224
  | Addr6 v _ => Z.shiftr v 120 =? 255
  | AddrZero => false
  end.

Definition IsPrivate (a : Addr) : bool :=
  match Unmap a with
  | Addr4 v =>
      (byte_at 4 0 v =? 10) ||
      ((byte_at 4 0 v =? 172) && (Z.land (byte_at 4 1 v) 240 =? 16)) ||
      ((byte_at 4 0 v =? 192) && (byte_at 4 1 v =? 168))
  | Addr6 v _ => Z.land (Z.shiftr v 120) 254 =? 252                (* fc00::/7 *)
  | AddrZero => false
  end.

(** ** Parsing *)

(** [parseIPv4Fields]: [first] and [prev_dot] are the tests on [i == 0] and
    [s[i-1] == '.']; [fields] holds the octets already closed by a dot. *)
Fixpoint ipv4_fields (s : string) (first prev_dot : bool) (val : Z) (digLen : nat)
    (fields : list Z) : option (list Z) :=
  match s with
  | EmptyString => if (length fields <? 3)%nat then None else Some (fields ++ [val])
  | String c s' =>
      if is_digit c then
        if (digLen =? 1)%nat && (val =? 0) then None
        else
          let val' := val * 10 + digit_value c in
          if 255 <? val' then None
          else ipv4_fields s' false false val' (S digLen) fields
      else if Ascii.eqb c "." then
        if first || String.eqb s' "" || prev_dot then None
        else if (length fields =? 3)%nat then None
        else ipv4_fields s' false true 0 0 (fields ++ [val])
      else None
  end.

Definition parseIPv4Fields (s : string) : option (list Z) := ipv4_fields s true false 0 0 [].

Definition parseIPv4 (s : string) : option Addr := (λ l, Addr4 (from_bytes l)) <$> parseIPv4Fields s.

Definition hex_value (c : ascii) : option Z :=
  let n := Z.of_N (N_of_ascii c) in
  if (48 <=? n) && (n <=? 57) then Some (n - 48)
  else if (97 <=? n) && (n <=? 102) then Some (n - 87)
  else if (65 <=? n) && (n <=? 70) then Some (n - 55)
  else None.

(** One group of hex digits: digits read, value, rest of the string. *)
Fixpoint hex_run (s : string) (off : nat) (acc : Z) : option (nat * Z * string) :=
  match s with
  | EmptyString => Some (off, acc, s)
  | String c s' =>
      match hex_value c with
      | None => Some (off, acc, s)
      | Some d =>
          let acc' := Z.shiftl acc 4 + d in
          if (3 <? off)%nat then None
          else if 65535 <? acc' then None
          else hex_run s' (S off) acc'
      end
  end.

(** The group loop. [ip] holds the bytes written so far (its length is the
    loop variable [i]) and [ellipsis] the offset of the [::]. Each round writes
    two bytes, so eight rounds of fuel reach [i = 16]. *)
Fixpoint ipv6_groups (fuel : nat) (s : string) (ip : list Z) (ellipsis : option nat)
    : option (list Z * option nat * string) :=
  match fuel with
  | O => Some (ip, ellipsis, s)
  | S fuel' =>
      match hex_run s 0 0 with
      | None => None
      | Some (off, acc, rest) =>
          if (off =? 0)%nat then None
          else if HasPrefix rest "." then
            if (match ellipsis with None => negb (length ip =? 12)%nat | Some _ => false end)
            then None
            else if (16 <? length ip + 4)%nat then None
            else match parseIPv4Fields s with
                 | None => None
                 | Some f => Some (ip ++ f, ellipsis, "")
                 end
          else
            let ip' := ip ++ [Z.shiftr acc 8; Z.land acc 255] in
            match rest with
            | EmptyString => Some (ip', ellipsis, "")
            | String c s1 =>
                if negb (Ascii.eqb c ":") then None
                else if String.eqb s1 "" then None
                else if HasPrefix s1 ":" then
                  match ellipsis with
                  | Some _ => None
                  | None =>
                      let s2 := str_drop 1 s1 in
                      if String.eqb s2 "" then Some (ip', Some (length ip'), "")
                      else ipv6_groups fuel' s2 ip' (Some (length ip'))
                  end
                else ipv6_groups fuel' s1 ip' ellipsis
            end
      end
  end.

Definition ipv6_finish (ip : list Z) (ellipsis : option nat) (s zone : string) : option Addr :=
  if negb (String.eqb s "") then None
  else if (length ip <? 16)%nat then
    match ellipsis with
    | None => None
    | Some e => Some (Addr6 (from_bytes (take e ip ++ replicate (16 - length ip) 0 ++ drop e ip)) zone)
    end
  else match ellipsis with
       | Some _ => None
       | None => Some (Addr6 (from_bytes ip) zone)
       end.

Definition parseIPv6 (input : string) : option Addr :=
  let split := match IndexByte input "%" with
               | None => Some (input, "")
               | Some i => let z := str_drop (S i) input in
                           if String.eqb z "" then None else Some (str_take i input, z)
               end in
  match split with
  | None => None
  | Some (s, zone) =>
      let lead := HasPrefix s "::" in
      let s' := if lead then str_drop 2 s else s in
      if lead && String.eqb s' "" then Some (Addr6 0 zone)
      else match ipv6_groups 8 s' [] (if lead then Some O else None) with
           | None => None
           | Some (ip, ellipsis, rest) => ipv6_finish ip ellipsis rest zone
           end
  end.

(** The first of ['.'], [':'] and ['%'] decides the family. *)
Fixpoint addr_kind (s : string) : option ascii :=
  match s with
  | EmptyString => None
  | String c s' =>
      if Ascii.eqb c "." || Ascii.eqb c ":" || Ascii.eqb c "%" then Some c else addr_kind s'
  end.

Definition ParseAddr (s : string) : option Addr :=
  match addr_kind s with
  | Some c => if Ascii.eqb c "." then parseIPv4 s
              else if Ascii.eqb c ":" then parseIPv6 s
              else None
  | None => None
  end.

(** [net.ParseIP]: an address with a zone is not an IP. *)
Definition ParseIP (s : string) : option Addr :=
  match ParseAddr s with
  | Some a => if String.eqb (Zone a) "" then Some a else None
  | None => None
  end.

(** ** [netip.Prefix] *)

Record Prefix := mkPrefix { prefix_addr : Addr; prefix_bits : Z }.

#[global] Instance Prefix_eq_dec : EqDecision Prefix.
Proof. solve_decision. Defined.

Definition BitLen (a : Addr) : Z :=
  match a with AddrZero => 0 | Addr4 _ => 32 | Addr6 _ _ => 128 end.

Definition prefix_hi (w bits v : Z) : Z := Z.shiftr v (w - bits).

Definition prefix_Contains (p : Prefix) (a : Addr) : bool :=
  match prefix_addr p, a with
  | Addr4 pv, Addr4 v => prefix_hi 32 (prefix_bits p) pv =? prefix_hi 32 (prefix_bits p) v
  | Addr6 pv _, Addr6 v z =>
      String.eqb z "" && (prefix_hi 128 (prefix_bits p) pv =? prefix_hi 128 (prefix_bits p) v)
  | _, _ => false
  end.

Definition mask_addr (a : Addr) (bits : Z) : Addr :=
  match a with
  | AddrZero => AddrZero
  | Addr4 v => Addr4 (Z.shiftl (Z.shiftr v (32 - bits)) (32 - bits))
  | Addr6 v _ => Addr6 (Z.shiftl (Z.shiftr v (128 - bits)) (128 - bits)) ""
  end.

Definition Masked (p : Prefix) : Prefix := mkPrefix (mask_addr (prefix_addr p) (prefix_bits p)) (prefix_bits p).

Fixpoint digits_value (s : string) (acc : Z) : Z :=
  match s with
  | EmptyString => acc
  | String c s' => digits_value s' (acc * 10 + digit_value c)
  end.

Definition ParsePrefix (s : string) : option Prefix :=
  match LastIndexByte s "/" with
  | None => None
  | Some i =>
      match ParseAddr (str_take i s) with
      | None => None
      | Some ip =>
          let bits := str_drop (S i) s in
          if negb (String.eqb (Zone ip) "") then None
          else if negb (str_forall is_digit bits) || String.eqb bits "" then None
          else if (1 <? String.length bits)%nat && HasPrefix bits "0" then None
          else let n := digits_value bits 0 in
               if BitLen ip <? n then None else Some (mkPrefix ip n)
      end
  end.

(** A literal prefix of the source, [netip.MustParsePrefix]. *)
Definition MustParsePrefix (s : string) : Prefix :=
  default (mkPrefix AddrZero 0) (ParsePrefix s).

(** ** Facts *)

(** An address in range. *)
Definition addr_wf (a : Addr) : Prop :=
  match a with
  | AddrZero => True
  | Addr4 v => 0 <= v < 2 ^ 32
  | Addr6 v _ => 0 <= v < 2 ^ 128
  end.

Lemma net_SplitHostPort_plain h p :
  IndexByte h colon = None → IndexByte h lbracket = None → IndexByte h rbracket = None →
  IndexByte p colon = None → IndexByte p lbracket = None → IndexByte p rbracket = None →
  h ≠ "" →
  net_SplitHostPort (h +:+ String colon p) = Ok (h, p).
Proof.
  intros H1 H2 H3 H4 H5 H6 Hne. unfold net_SplitHostPort.
  rewrite LastIndexByte_app_last by done.
  assert (HasPrefix (h +:+ String colon p) "[" = false) as ->.
  { apply not_true_iff_false. intros [r Hr]%HasPrefix_spec.
    destruct h as [|c h]; [done|]. injection Hr as -> _. done. }
  rewrite str_take_app. unfold has_byte, ContainsByte. rewrite H1.
  unfold split_tail, has_byte, ContainsByte, str_drop at 1 2.
  assert (∀ c, c ≠ colon → IndexByte h c = None → IndexByte p c = None →
    IndexByte (h +:+ String colon p) c = None) as Hno.
  { intros c Hc Hh Hp. apply IndexByte_None_app. split; [done|]. cbn [IndexByte].
    destruct (Ascii.eqb_spec colon c); [congruence|]. by rewrite Hp. }
  rewrite !Hno by done. f_equal. f_equal.
  replace (S (String.length h)) with (String.length (h +:+ String colon "")).
  - replace (h +:+ String colon p) with ((h +:+ String colon "") +:+ p)
      by (rewrite str_app_assoc; done). apply str_drop_app.
  - rewrite str_length_app. simpl. lia.
Qed.

Example parse_v4 : ParseAddr "169.254.169.254" = Some (Addr4 2852039166).
Proof. vm_compute. reflexivity. Qed.
Example parse_v6 : ParseAddr "64:ff9b::1.2.3.4" = Some (Addr6 (from_bytes [0;100;255;155;0;0;0;0;0;0;0;0;1;2;3;4]) "").
Proof. vm_compute. reflexivity. Qed.
Example parse_zone : ParseAddr "fe80::1%lo" = Some (Addr6 (from_bytes [254;128;0;0;0;0;0;0;0;0;0;0;0;0;0;1]) "lo").
Proof. vm_compute. reflexivity. Qed.
Example parse_bad : ParseAddr "1.2.3.04" = None ∧ ParseAddr "1::2::3" = None ∧ ParseAddr "1:2:3:4:5:6:7:8:9" = None
  ∧ ParseAddr "::" = Some (Addr6 0 "") ∧ ParseAddr "1::" = Some (Addr6 (2 ^ 112) "") ∧ ParseAddr "foo.com" = None.
Proof. vm_compute. repeat split. Qed.
Example parse_prefix : ParsePrefix "10.0.0.0/8" = Some (mkPrefix (Addr4 167772160) 8) ∧ ParsePrefix "10.0.0.0/33" = None ∧ ParsePrefix "10.0.0.0/08" = None.
Proof. vm_compute. repeat split. Qed.

(** ** Printing: [Addr.String] *)

Definition hex_digit (d : Z) : ascii := ascii_of_nat (Z.to_nat (if d <? 10 then 48 + d else 87 + d)).

(** [appendHex]: a 16-bit group without leading zeros. *)
Definition hex_group (x : Z) : string :=
  (if 0x1000 <=? x then String (hex_digit (Z.shiftr x 12)) "" else "") +:+
  (if 0x100 <=? x then String (hex_digit (Z.land (Z.shiftr x 8) 15)) "" else "") +:+
  (if 0x10 <=? x then String (hex_digit (Z.land (Z.shiftr x 4) 15)) "" else "") +:+
  String (hex_digit (Z.land x 15)) "".

Definition v4_String (v : Z) : string :=
  Join ((λ i, Itoa (Z.to_nat (byte_at 4 i v))) <$> [0; 1; 2; 3]%nat) ".".

Definition group16 (v : Z) (i : nat) : Z := Z.land (Z.shiftr v (16 * (7 - Z.of_nat i))) 65535.

Fixpoint leading_zeros (l : list Z) : nat :=
  match l with
  | [] => 0
  | g :: l' => if g =? 0 then S (leading_zeros l') else 0
  end.

(** The first longest run of at least two zero groups, [start, end). *)
Definition zero_run (l : list Z) : nat * nat :=
  foldl (λ '(s, e) i, let n := leading_zeros (drop i l) in
                      if (2 <=? n)%nat && (e - s <? n)%nat then (i, (i + n)%nat) else (s, e))
    (255, 255)%nat (seq 0 8).

Definition groups_String (l : list Z) : string := Join (hex_group <$> l) ":".

Definition v6_String (v : Z) : string :=
  let l := group16 v <$> seq 0 8 in
  let '(s, e) := zero_run l in
  if (s =? 255)%nat then groups_String l
  else groups_String (take s l) +:+ "::" +:+ groups_String (drop e l).

Definition addr_String (a : Addr) : string :=
  match a with
  | AddrZero => "invalid IP"
  | Addr4 v => v4_String v
  | Addr6 v z =>
      (if Is4In6 a then "::ffff:" +:+ v4_String (Z.land v (2 ^ 32 - 1)) else v6_String v) +:+
      (if String.eqb z "" then "" else String "%" z)
  end.

Example string_v6 : addr_String (Addr6 (from_bytes [253;120;0;0;0;0;0;0;0;0;0;0;0;0;1;2]) "") = "fd78::102" ∧
  addr_String (Addr6 0 "") = "::" ∧ addr_String (Addr6 1 "eth0") = "::1%eth0" ∧
  addr_String (Addr6 (from_bytes [32;1;13;184;0;0;0;1;0;0;0;0;0;0;0;0]) "") = "2001:db8:0:1::" ∧
  addr_String (Addr4 167837956) = "10.1.1.4".
Proof. vm_compute. repeat split. Qed.

(** ** Bytes as arithmetic *)

Definition ip4 (a b c d : Z) : Z := a * 2 ^ 24 + b * 2 ^ 16 + c * 2 ^ 8 + d.

Lemma byte_at_div n i v :
  (i < n)%nat → byte_at n i v = v / 2 ^ (8 * (Z.of_nat n - 1 - Z.of_nat i)) mod 256.
Proof.
  intros Hi. unfold byte_at. rewrite Z.shiftr_div_pow2 by lia. change 255 with (2 ^ 8 - 1).
  by rewrite land_mask_low by lia.
Qed.

Lemma byte_at_range n i v : 0 <= byte_at n i v < 256.
Proof. unfold byte_at. change 255 with (Z.ones 8). rewrite Z.land_ones by lia. by apply Z.mod_pos_bound. Qed.

Lemma from_bytes4 a b c d :
  0 <= a < 256 → 0 <= b < 256 → 0 <= c < 256 → 0 <= d < 256 → from_bytes [a; b; c; d] = ip4 a b c d.
Proof.
  intros. unfold from_bytes, ip4. cbn [foldl]. rewrite !lor_shiftl_add by lia. lia.
Qed.

Lemma from_bytes_snoc l b : 0 <= b < 256 → from_bytes (l ++ [b]) = from_bytes l * 256 + b.
Proof. intros Hb. unfold from_bytes. rewrite foldl_snoc. by apply (lor_shiftl_add _ b 8). Qed.

Lemma land_255 x : Z.land x 255 = x mod 256.
Proof. by apply (land_mask_low x 8). Qed.
