(* ===== verification/GoUrl.v ===== *)
(** * URLs ([net/url])

    What the sources use of [net/url]: [Parse], percent-encoding and decoding,
    [RequestURI], [Hostname] and [Query]. Errors are [None]; user information is
    checked and then dropped, since no modelled caller reads it. *)
From S2P Require Import Prelude GoStrings NetAddr.

Definition hex_value (c : ascii) : option N :=
  let n := N_of_ascii c in
  if ((48 <=? n) && (n <=? 57))%N then Some (n - 48)%N
  else if ((97 <=? n) && (n <=? 102))%N then Some (n - 87)%N
  else if ((65 <=? n) && (n <=? 70))%N then Some (n - 55)%N
  else None.

(** [url.unescape]; [plus] turns a plus sign into a space. *)
Fixpoint unescape (plus : bool) (s : string) : option string :=
  match s with
  | EmptyString => Some ""
  | String "%" (String a (String b rest)) =>
      match hex_value a, hex_value b, unescape plus rest with
      | Some x, Some y, Some rest' => Some (String (ascii_of_N (16 * x + y)) rest')
      | _, _, _ => None
      end
  | String "%" _ => None
  | String c rest =>
      match unescape plus rest with
      | Some rest' => Some (String (if plus && Ascii.eqb c "+" then " "%char else c) rest')
      | None => None
      end
  end.

Definition QueryUnescape (s : string) : option string := unescape true s.

(** [strings.Cut] at one byte. *)
Definition CutByte (s : string) (c : ascii) : string * string * bool :=
  match IndexByte s c with
  | Some i => (str_take i s, str_drop (S i) s, true)
  | None => (s, "", false)
  end.

(** One [&]-separated part of a query; a malformed one is dropped. *)
Definition query_pair (part : string) : option (string * string) :=
  if ContainsByte part ";" then None
  else if String.eqb part "" then None
  else
    let '(k, v, _) := CutByte part "=" in
    match QueryUnescape k, QueryUnescape v with
    | Some k', Some v' => Some (k', v')
    | _, _ => None
    end.

Definition add_value (m : gmap string (list string)) (kv : string * string) : gmap string (list string) :=
  <[kv.1 := default [] (m !! kv.1) ++ [kv.2]]> m.

(** [URL.Query]: [ParseQuery] with its error ignored. *)
Definition ParseQuery (q : string) : gmap string (list string) :=
  foldl add_value ∅ (omap query_pair (SplitByte q "&")).

(** ** Percent-encoding *)

Definition is_alnum (c : ascii) : bool :=
  let n := N_of_ascii c in
  ((48 <=? n) && (n <=? 57) || (97 <=? n) && (n <=? 122) || (65 <=? n) && (n <=? 90))%N.

Definition one_of_bytes (set : string) (c : ascii) : bool := ContainsByte set c.

(** [shouldEscape] for [encodePath]. *)
Definition shouldEscape_path (c : ascii) : bool :=
  negb (is_alnum c || one_of_bytes "-_.~$&+,/:;=@" c).

(** [shouldEscape] for [encodeHost] and [encodeZone]; byte 34 is the quote. *)
Definition shouldEscape_host (c : ascii) : bool :=
  negb (is_alnum c || one_of_bytes "!$&'()*+,;=:[]<>-_.~" c || Ascii.eqb c (ascii_of_nat 34)).

Definition hex_digit (n : N) : ascii := ascii_of_N (if (n <? 10)%N then 48 + n else 55 + n).

(** [escape] for [encodePath]. *)
Fixpoint escape_path (s : string) : string :=
  match s with
  | EmptyString => ""
  | String c rest =>
      if shouldEscape_path c
      then String "%" (String (hex_digit (N_of_ascii c / 16)) (String (hex_digit (N_of_ascii c mod 16)) (escape_path rest)))
      else String c (escape_path rest)
  end.

(** The extra checks of [unescape] in the host modes: only bytes outside ASCII
    may be encoded (and the percent sign itself), except in a zone, where a
    space or a byte that needs no encoding may be too. *)
Fixpoint host_encoding_ok (zone : bool) (s : string) : bool :=
  match s with
  | EmptyString => true
  | String c rest =>
      if Ascii.eqb c "%" then
        match rest with
        | String a (String b rest') =>
            match hex_value a, hex_value b with
            | Some x, Some y =>
                (Ascii.eqb a "2" && Ascii.eqb b "5" ||
                 (if zone
                  then Ascii.eqb (ascii_of_N (16 * x + y)) " " || negb (shouldEscape_host (ascii_of_N (16 * x + y)))
                  else (8 <=? x)%N)) && host_encoding_ok zone rest'
            | _, _ => false
            end
        | _ => false
        end
      else ((128 <=? N_of_ascii c)%N || negb (shouldEscape_host c)) && host_encoding_ok zone rest
  end.

Definition unescape_host (zone : bool) (s : string) : option string :=
  if host_encoding_ok zone s then unescape false s else None.

(** ** Parsing *)

Record URL := mkURL {
  url_Scheme : string;
  url_Opaque : string;
  url_Host : string;
  url_Path : string;
  url_RawPath : string;
  url_ForceQuery : bool;
  url_RawQuery : string;
  url_Fragment : string
}.

Definition is_ctl (c : ascii) : bool := ((N_of_ascii c <? 32) || (N_of_ascii c =? 127))%N.

Definition is_letter (c : ascii) : bool := is_alnum c && negb (is_digit c).

(** [getScheme]: the scheme and the rest. *)
Fixpoint scheme_scan (s : string) (seen : nat) : option nat :=
  match s with
  | EmptyString => Some 0%nat
  | String c rest =>
      if is_letter c then scheme_scan rest (S seen)
      else if is_digit c || one_of_bytes "+-." c then if (seen =? 0)%nat then Some 0%nat else scheme_scan rest (S seen)
      else if Ascii.eqb c ":" then if (seen =? 0)%nat then None else Some seen
      else Some 0%nat
  end.

Definition getScheme (s : string) : option (string * string) :=
  match scheme_scan s 0 with
  | None => None
  | Some 0%nat => Some ("", s)
  | Some n => Some (str_take n s, str_drop (S n) s)
  end.

Definition validOptionalPort (p : string) : bool :=
  match p with
  | EmptyString => true
  | String c rest => Ascii.eqb c ":" && str_forall is_digit rest
  end.

Definition valid_userinfo (s : string) : bool :=
  str_forall (λ c, is_alnum c || one_of_bytes "-._:~!$&'()*+,;=%@" c) s.

(** Between the last brackets only an IPv6 address, with an optional zone. *)
Definition parse_ip_literal (host : string) (o : nat) : option string :=
  match LastIndexByte host "]" with
  | None => None
  | Some c =>
      let colonPort := str_drop (S c) host in
      if negb (validOptionalPort colonPort) then None
      else if (c <=? o)%nat then None
      else
        let hostname := str_slice (S o) c host in
        let unescaped :=
          match Index hostname "%25" with
          | Some z => match unescape_host false (str_take z hostname), unescape_host true (str_drop z hostname) with
                      | Some h, Some zone => Some (h +:+ zone)
                      | _, _ => None
                      end
          | None => unescape_host false hostname
          end in
        match unescaped with
        | None => None
        | Some h => match ParseAddr h with
                    | Some (Addr6 _ _) => Some ("[" +:+ h +:+ "]" +:+ colonPort)
                    | _ => None
                    end
        end
  end.

(** [parseHost]: outside brackets at most one colon, before a numeric port. *)
Definition parseHost (host : string) : option string :=
  match LastIndexByte host "[" with
  | Some o => parse_ip_literal host o
  | None =>
      match IndexByte host ":" with
      | Some i =>
          if (1 <? CountByte host ":")%nat || negb (validOptionalPort (str_drop i host)) then None
          else unescape_host false host
      | None => unescape_host false host
      end
  end.

Definition parseAuthority (authority : string) : option string :=
  match LastIndexByte authority "@" with
  | None => parseHost authority
  | Some i =>
      match parseHost (str_drop (S i) authority) with
      | None => None
      | Some h =>
          let '(user, password, _) := CutByte (str_take i authority) ":" in
          if negb (valid_userinfo (str_take i authority)) then None
          else match unescape false user, unescape false password with
               | Some _, Some _ => Some h
               | _, _ => None
               end
      end
  end.

(** [setPath] for what is left after the authority. *)
Definition set_path (scheme host : string) (force : bool) (query rest : string) : option URL :=
  match unescape false rest with
  | None => None
  | Some path => Some (mkURL scheme "" host path (if String.eqb rest (escape_path path) then "" else rest) force query "")
  end.

(** The package's [parse]; [viaRequest] is set for a request line. *)
Definition parse_url (viaRequest : bool) (raw : string) : option URL :=
  if negb (str_forall (λ c, negb (is_ctl c)) raw) then None
  else if String.eqb raw "" && viaRequest then None
  else if String.eqb raw "*" then Some (mkURL "" "" "" "*" "" false "" "")
  else
    match getScheme raw with
    | None => None
    | Some (scheme, rest) =>
        let scheme := ToLower scheme in
        let force := HasSuffix rest "?" && (CountByte rest "?" =? 1)%nat in
        let '(rest, query) :=
          if force then (TrimSuffix rest "?", "") else let '(r, q, _) := CutByte rest "?" in (r, q) in
        if negb (HasPrefix rest "/") && negb (String.eqb scheme "")
        then Some (mkURL scheme rest "" "" "" force query "")
        else if negb (HasPrefix rest "/") && viaRequest then None
        else if negb (HasPrefix rest "/") && ContainsByte (CutByte rest "/").1.1 ":" then None
        else if (negb (String.eqb scheme "") || negb viaRequest && negb (HasPrefix rest "///")) && HasPrefix rest "//"
        then
          let after := str_drop 2 rest in
          let '(authority, path) :=
            match IndexByte after "/" with
            | Some i => (str_take i after, str_drop i after)
            | None => (after, "")
            end in
          match parseAuthority authority with
          | None => None
          | Some host => set_path scheme host force query path
          end
        else set_path scheme "" force query rest
    end.

Definition set_fragment (u : URL) (frag : string) : option URL :=
  match unescape false frag with
  | None => None
  | Some f => Some (mkURL (url_Scheme u) (url_Opaque u) (url_Host u) (url_Path u) (url_RawPath u) (url_ForceQuery u)
                      (url_RawQuery u) f)
  end.

(** [url.Parse]. *)
Definition url_Parse (raw : string) : option URL :=
  let '(u, frag, _) := CutByte raw "#" in
  match parse_url false u with
  | None => None
  | Some url => if String.eqb frag "" then Some url else set_fragment url frag
  end.

(** [url.ParseRequestURI], which the HTTP server applies to a request line. *)
Definition ParseRequestURI (raw : string) : option URL := parse_url true raw.

(** ** Reading a URL *)

Definition valid_encoded_path (s : string) : bool :=
  str_forall (λ c, one_of_bytes "!$&'()*+,;=:@[]%" c || negb (shouldEscape_path c)) s.

Definition EscapedPath (u : URL) : string :=
  if negb (String.eqb (url_RawPath u) "") && valid_encoded_path (url_RawPath u) &&
     match unescape false (url_RawPath u) with Some p => String.eqb p (url_Path u) | None => false end
  then url_RawPath u
  else if String.eqb (url_Path u) "*" then "*"
  else escape_path (url_Path u).

Definition RequestURI (u : URL) : string :=
  let result :=
    if String.eqb (url_Opaque u) "" then
      let p := EscapedPath u in if String.eqb p "" then "/" else p
    else if HasPrefix (url_Opaque u) "//" then url_Scheme u +:+ ":" +:+ url_Opaque u
    else url_Opaque u in
  if url_ForceQuery u || negb (String.eqb (url_RawQuery u) "") then result +:+ "?" +:+ url_RawQuery u else result.

(** [URL.Hostname]. *)
Definition Hostname (u : URL) : string :=
  let h := url_Host u in
  let h := match LastIndexByte h ":" with
           | Some i => if validOptionalPort (str_drop i h) then str_take i h else h
           | None => h
           end in
  if HasPrefix h "[" && HasSuffix h "]" then TrimSuffix (TrimPrefix h "[") "]" else h.

(** ** Decoding undoes encoding *)

Lemma hex_digit_value n : (n < 16)%N → hex_value (hex_digit n) = Some n.
Proof.
  intros H. assert (∃ k : nat, (k < 16)%nat ∧ n = N.of_nat k) as (k & Hk & ->).
  { exists (N.to_nat n). split; lia. }
  do 16 (destruct k as [|k]; [reflexivity|]). lia.
Qed.

Lemma unescape_plain c rest :
  Ascii.eqb c "%" = false → unescape false (String c rest) = String c <$> unescape false rest.
Proof.
  intros H. destruct c as [[] [] [] [] [] [] [] []]; try done; cbn [unescape]; by destruct (unescape false rest).
Qed.

Lemma unescape_escape_path s : unescape false (escape_path s) = Some s.
Proof.
  induction s as [|c s IH]; [done|]. cbn [escape_path]. destruct (shouldEscape_path c) eqn:E.
  - cbn [unescape]. pose proof (N_ascii_bounded c) as Hb.
    rewrite !hex_digit_value, IH by (first [apply N.Div0.div_lt_upper_bound; lia | apply N.mod_upper_bound; lia]).
    f_equal. f_equal. rewrite <- N.div_mod by lia. apply ascii_N_embedding.
  - rewrite unescape_plain; [by rewrite IH|]. destruct (Ascii.eqb c "%") eqn:E2; [|done].
    bprop. subst c. done.
Qed.

(** ** Parsing what [RequestURI] prints *)

Lemma CutByte_none s c : IndexByte s c = None → CutByte s c = (s, "", false).
Proof. unfold CutByte. by intros ->. Qed.

Lemma CutByte_app a b c : IndexByte a c = None → CutByte (a +:+ String c b) c = (a, b, true).
Proof.
  intros H. unfold CutByte. rewrite (IndexByte_app_first a b c H), str_take_app. f_equal. f_equal.
  replace (S (String.length a)) with (String.length a + 1)%nat by lia. rewrite <- str_drop_drop.
  by rewrite str_drop_app.
Qed.

(** Bytes that can stand in an encoded path: no control byte, no query or
    fragment mark. *)
Definition path_byte (c : ascii) : bool := negb (is_ctl c) && negb (Ascii.eqb c "?") && negb (Ascii.eqb c "#").

Definition query_byte (c : ascii) : bool := negb (is_ctl c) && negb (Ascii.eqb c "#").

(** The text after the path. *)
Definition query_suffix (force : bool) (q : string) : string :=
  if force || negb (String.eqb q "") then "?" +:+ q else "".

Lemma getScheme_path e : HasPrefix e "/" = true → getScheme e = Some ("", e).
Proof. intros (r & -> & _)%HasPrefix_nonempty. done. Qed.

(** How the query is split off an absolute path. *)
Lemma split_query e force q :
  IndexByte e "?" = None →
  let s := e +:+ query_suffix force q in
  (if HasSuffix s "?" && (CountByte s "?" =? 1)%nat then (TrimSuffix s "?", "")
   else let '(r, q', _) := CutByte s "?" in (r, q')) = (e, q).
Proof.
  intros He. unfold query_suffix. destruct (force || negb (String.eqb q "")) eqn:E; cbn zeta.
  - destruct (String.eqb q "") eqn:Eq; bprop.
    + subst q. rewrite HasSuffix_app, TrimSuffix_app, CountByte_app.
      apply CountByte_0 in He. by rewrite He.
    + cbn [String.append]. rewrite (CutByte_app e q "?" He).
      destruct (HasSuffix (e +:+ String "?" q) "?" && _) eqn:Es; [|done]. exfalso.
      apply andb_true_iff in Es as [[l Hl]%HasSuffix_spec Hc%Nat.eqb_eq].
      rewrite CountByte_app in Hc. cbn [CountByte] in Hc. rewrite Ascii.eqb_refl in Hc.
      assert (CountByte q "?" = 0%nat) as Hq by lia. apply CountByte_0 in Hq, He.
      assert (String.length l = String.length e) as Hle.
      { apply (f_equal (λ s, LastIndexByte s "?")) in Hl. rewrite !LastIndexByte_app_last in Hl by done. congruence. }
      apply eq_sym, str_app_inj_len in Hl as [_ [= Hn]]; [|done]. by subst q.
  - apply orb_false_iff in E as [_ E]. apply negb_false_iff in E. bprop. subst q.
    rewrite str_app_nil_r, (CutByte_none e "?" He).
    destruct (HasSuffix e "?") eqn:Es; [|done]. apply HasSuffix_spec in Es as [l ->].
    apply IndexByte_None_app in He as [_ He]. by vm_compute in He.
Qed.

(** An encoded absolute path followed by a query parses to its decoded path and
    that query. *)
Lemma url_Parse_absolute e p force q :
  str_forall path_byte e = true → str_forall query_byte q = true →
  HasPrefix e "/" = true → HasPrefix e "//" = false → unescape false e = Some p →
  ∃ u, url_Parse (e +:+ query_suffix force q) = Some u ∧ url_Path u = p ∧ url_RawQuery u = q ∧ url_Host u = "".
Proof.
  intros He Hq Hs Hs2 Hu. unfold url_Parse.
  assert (str_forall query_byte (e +:+ query_suffix force q) = true) as Hall.
  { rewrite str_forall_app, (str_forall_impl path_byte); [|intros c; unfold path_byte, query_byte|done].
    - unfold query_suffix. by destruct (force || _).
    - destruct (is_ctl c), (Ascii.eqb c "?"); done. }
  rewrite CutByte_none by (eapply (str_forall_IndexByte query_byte); done).
  unfold parse_url. rewrite (str_forall_impl query_byte); [|intros c; unfold query_byte; by destruct (is_ctl c)|done].
  assert (HasPrefix (e +:+ query_suffix force q) "/" = true) as Hpre.
  { apply HasPrefix_spec in Hs as [r ->]. rewrite str_app_assoc. apply HasPrefix_app. }
  assert (String.eqb (e +:+ query_suffix force q) "" = false ∧ String.eqb (e +:+ query_suffix force q) "*" = false) as [-> ->].
  { destruct (HasPrefix_nonempty _ _ _ Hpre) as (r & -> & _). done. }
  cbn [negb andb].
  rewrite getScheme_path by done. cbv zeta.
  pose proof (split_query e force q) as Hsplit. cbv zeta in Hsplit.
  rewrite (surjective_pairing (if _ : bool then (TrimSuffix _ _, _) else _)), Hsplit
    by (eapply (str_forall_IndexByte path_byte); done).
  cbn [fst snd]. rewrite Hs, Hs2. cbn [negb andb]. rewrite andb_false_r. unfold set_path. rewrite Hu. eauto.
Qed.
