(* ===== verification/GoHttp.v ===== *)
(** * HTTP headers and media types ([net/http], [net/textproto], [mime])

    What the sources use of them. A header is a map from canonical names to
    values. *)
From S2P Require Import Prelude GoStrings NetAddr GoUrl.

(** ** Headers *)

Notation Header := (gmap string (list string)).

Definition is_token_byte (c : ascii) : bool :=
  let n := N_of_ascii c in
  is_digit c || ((65 <=? n) && (n <=? 90))%N || ((97 <=? n) && (n <=? 122))%N ||
  existsb (Ascii.eqb c) ["!"; "#"; "$"; "%"; "&"; "'"; "*"; "+"; "-"; "."; "^"; "_"; "`"; "|"; "~"]%char.

Fixpoint canonical_key (s : string) (upper : bool) : string :=
  match s with
  | EmptyString => ""
  | String c s' => String (if upper then upper_byte c else lower_byte c) (canonical_key s' (Ascii.eqb c "-"))
  end.

(** [textproto.CanonicalMIMEHeaderKey]. *)
Definition CanonicalMIMEHeaderKey (s : string) : string :=
  if str_forall is_token_byte s then canonical_key s true else s.

(** [headers.Values]. *)
Definition header_Values (headers : gmap string (list string)) (name : string) : list string :=
  default [] (headers !! CanonicalMIMEHeaderKey name).

Definition header_Get (h : Header) (name : string) : string := default "" (head (header_Values h name)).

Definition header_Del (h : Header) (name : string) : Header := delete (CanonicalMIMEHeaderKey name) h.

Definition header_Add (h : Header) (name value : string) : Header :=
  <[CanonicalMIMEHeaderKey name := header_Values h name ++ [value]]> h.

Definition header_Set (h : Header) (name value : string) : Header := <[CanonicalMIMEHeaderKey name := [value]]> h.

Lemma header_Values_Set h n v m :
  header_Values (header_Set h n v) m =
  if decide (CanonicalMIMEHeaderKey n = CanonicalMIMEHeaderKey m) then [v] else header_Values h m.
Proof.
  unfold header_Values, header_Set. case_decide as E.
  - by rewrite <- E, lookup_insert_eq.
  - by rewrite lookup_insert_ne.
Qed.

Lemma header_Values_Del h n m :
  header_Values (header_Del h n) m =
  if decide (CanonicalMIMEHeaderKey n = CanonicalMIMEHeaderKey m) then [] else header_Values h m.
Proof.
  unfold header_Values, header_Del. case_decide as E.
  - by rewrite <- E, lookup_delete_eq.
  - by rewrite lookup_delete_ne.
Qed.

Lemma header_Values_Add h n v m :
  header_Values (header_Add h n v) m =
  if decide (CanonicalMIMEHeaderKey n = CanonicalMIMEHeaderKey m) then header_Values h m ++ [v] else header_Values h m.
Proof.
  unfold header_Add. unfold header_Values at 1. case_decide as E.
  - rewrite <- E, lookup_insert_eq. unfold header_Values. by rewrite E.
  - by rewrite lookup_insert_ne.
Qed.

(** ** Media types *)

Definition quote_byte : ascii := ascii_of_nat 34.
Definition backslash : ascii := ascii_of_nat 92.

Definition is_tspecial (c : ascii) : bool :=
  one_of_bytes "()<>@,;:/[]?=" c || Ascii.eqb c quote_byte || Ascii.eqb c backslash.

Definition is_mime_token (c : ascii) : bool :=
  let n := N_of_ascii c in ((32 <? n) && (n <? 127))%N && negb (is_tspecial c).

Fixpoint consumeToken (s : string) : string * string :=
  match s with
  | EmptyString => ("", "")
  | String c rest => if is_mime_token c then let '(t, r) := consumeToken rest in (String c t, r) else ("", s)
  end.

(** The inside of a quoted string: its value and what follows the closing
    quote. *)
Fixpoint consume_quoted (s : string) : option (string * string) :=
  match s with
  | EmptyString => None
  | String c rest =>
      if Ascii.eqb c quote_byte then Some ("", rest)
      else if Ascii.eqb c backslash then
        match rest with
        | String d rest' =>
            if is_tspecial d then match consume_quoted rest' with Some (v, r) => Some (String d v, r) | None => None end
            else match consume_quoted rest with Some (v, r) => Some (String c v, r) | None => None end
        | EmptyString => None
        end
      else if Ascii.eqb c (ascii_of_nat 13) || Ascii.eqb c (ascii_of_nat 10) then None
      else match consume_quoted rest with Some (v, r) => Some (String c v, r) | None => None end
  end.

Definition consumeValue (v : string) : string * string :=
  match v with
  | String c rest =>
      if Ascii.eqb c quote_byte then match consume_quoted rest with Some vr => vr | None => ("", v) end
      else consumeToken v
  | EmptyString => ("", "")
  end.

(** [None]: no parameter here. *)
Definition consumeMediaParam (v : string) : option (string * string * string) :=
  match CutPrefix (trim_left_by is_space v) ";" with
  | None => None
  | Some rest =>
      let '(param, rest) := consumeToken (trim_left_by is_space rest) in
      if String.eqb param "" then None
      else match CutPrefix (trim_left_by is_space rest) "=" with
           | None => None
           | Some rest =>
               let rest := trim_left_by is_space rest in
               let '(value, rest2) := consumeValue rest in
               if String.eqb value "" && String.eqb rest2 rest then None else Some (ToLower param, value, rest2)
           end
  end.

(** [checkMediaTypeDisposition]. *)
Definition media_type_ok (s : string) : bool :=
  let '(typ, rest) := consumeToken s in
  if String.eqb typ "" then false
  else if String.eqb rest "" then true
  else match CutPrefix rest "/" with
       | None => false
       | Some rest => let '(sub, rest) := consumeToken rest in negb (String.eqb sub "") && String.eqb rest ""
       end.

(** A parsed media type: the type, the parameters as written, and whether
    continued parameters are put together (they are not after a trailing
    semicolon). *)
Record MediaType := mkMedia { mt_Type : string; mt_Raw : gmap string string; mt_Stitch : bool }.

(** The loop over parameters; each turn consumes a byte. *)
Fixpoint media_params (fuel : nat) (v : string) (acc : gmap string string) : option (gmap string string * bool) :=
  let v := trim_left_by is_space v in
  if String.eqb v "" then Some (acc, true)
  else match fuel with
       | O => None
       | S fuel =>
           match consumeMediaParam v with
           | None => if String.eqb (TrimSpace v) ";" then Some (acc, false) else None
           | Some (key, value, rest) =>
               match acc !! key with
               | Some old => if String.eqb old value then media_params fuel rest acc else None
               | None => media_params fuel rest (<[key := value]> acc)
               end
           end
       end.

Definition ParseMediaType (v : string) : option MediaType :=
  let '(base, _, _) := CutByte v ";" in
  let mediatype := TrimSpace (ToLower base) in
  if negb (media_type_ok mediatype) then None
  else match media_params (String.length v) (str_drop (String.length base) v) ∅ with
       | None => None
       | Some (raw, stitch) => Some (mkMedia mediatype raw stitch)
       end.

(** RFC 2231 values: charset, language and percent-encoded text. *)
Definition decode2231Enc (v : string) : option string :=
  let '(charset, rest, ok1) := CutByte v "'" in
  let '(_, text, ok2) := CutByte rest "'" in
  let charset := ToLower charset in
  if negb (ok1 && ok2) then None
  else if String.eqb charset "us-ascii" || String.eqb charset "utf-8" then unescape false text
  else None.

Fixpoint continued (fuel : nat) (raw : gmap string string) (key : string) (n : nat) (acc : option string) : option string :=
  match fuel with
  | O => acc
  | S fuel =>
      let part := key +:+ "*" +:+ Itoa n in
      match raw !! part with
      | Some v => continued fuel raw key (S n) (Some (default "" acc +:+ v))
      | None =>
          match raw !! (part +:+ "*") with
          | None => acc
          | Some v =>
              let text := if (n =? 0)%nat then default "" (decode2231Enc v) else default "" (unescape false v) in
              continued fuel raw key (S n) (Some (default "" acc +:+ text))
          end
      end
  end.

(** The value of parameter [key] (a name without a star). *)
Definition media_Param (m : MediaType) (key : string) : option string :=
  let plain := mt_Raw m !! key in
  if negb (mt_Stitch m) then plain
  else match mt_Raw m !! (key +:+ "*") with
       | Some v => match decode2231Enc v with Some d => Some d | None => plain end
       | None => match continued (S (size (mt_Raw m))) (mt_Raw m) key 0 None with Some v => Some v | None => plain end
       end.

Example media_form : ParseMediaType "Text/Plain; charset=utf-8" = Some (mkMedia "text/plain" {["charset" := "utf-8"]} true).
Proof. vm_compute. reflexivity. Qed.

Example media_bad : ParseMediaType "text/plain; =x" = None ∧ is_Some (ParseMediaType "text/plain;") ∧ ParseMediaType "a/b; c=1; c=2" = None.
Proof. vm_compute. repeat split; eauto. Qed.
