(* ===== verification/GoEncode.v ===== *)
(** * Base64 and form encoding ([encoding/base64], [url.Values.Encode])

    What the credential plugins write into requests: padded and raw base64 with
    their non-strict decoders, and query strings printed from their values.
    Decoding undoes encoding for each. *)
From S2P Require Import Prelude GoStrings NetAddr GoUrl.

(** ** Base64 *)

(** [NewEncoding]: the last two digits, and whether there is padding. *)
Record Encoding := mkEncoding { enc_62 : ascii; enc_63 : ascii; enc_pad : bool }.

Definition StdEncoding : Encoding := mkEncoding "+" "/" true.
Definition URLEncoding : Encoding := mkEncoding "-" "_" true.
Definition RawURLEncoding : Encoding := mkEncoding "-" "_" false.

Definition b64_digit (e : Encoding) (n : N) : ascii :=
  if (n <? 26)%N then ascii_of_N (65 + n)
  else if (n <? 52)%N then ascii_of_N (71 + n)
  else if (n <? 62)%N then ascii_of_N (n - 4)
  else if (n =? 62)%N then enc_62 e else enc_63 e.

Definition b64_value (e : Encoding) (c : ascii) : option N :=
  let n := N_of_ascii c in
  if ((65 <=? n) && (n <=? 90))%N then Some (n - 65)%N
  else if ((97 <=? n) && (n <=? 122))%N then Some (n - 71)%N
  else if ((48 <=? n) && (n <=? 57))%N then Some (n + 4)%N
  else if Ascii.eqb c (enc_62 e) then Some 62%N
  else if Ascii.eqb c (enc_63 e) then Some 63%N
  else None.

Definition pad_text (e : Encoding) (n : nat) : string :=
  if enc_pad e then match n with 1%nat => "=" | _ => "==" end else "".

Fixpoint EncodeToString (e : Encoding) (s : string) : string :=
  match s with
  | String a (String b (String c rest)) =>
      let '(x, y, z) := (N_of_ascii a, N_of_ascii b, N_of_ascii c) in
      String (b64_digit e (x / 4)) (String (b64_digit e (x mod 4 * 16 + y / 16))
        (String (b64_digit e (y mod 16 * 4 + z / 64)) (String (b64_digit e (z mod 64)) (EncodeToString e rest))))
  | String a (String b EmptyString) =>
      let '(x, y) := (N_of_ascii a, N_of_ascii b) in
      String (b64_digit e (x / 4)) (String (b64_digit e (x mod 4 * 16 + y / 16))
        (String (b64_digit e (y mod 16 * 4)) (pad_text e 1)))
  | String a EmptyString =>
      let x := N_of_ascii a in
      String (b64_digit e (x / 4)) (String (b64_digit e (x mod 4 * 16)) (pad_text e 2))
  | EmptyString => ""
  end.

Definition b64_byte1 (x y : N) : ascii := ascii_of_N (x * 4 + y / 16).
Definition b64_byte2 (y z : N) : ascii := ascii_of_N (y mod 16 * 16 + z / 4).
Definition b64_byte3 (z w : N) : ascii := ascii_of_N (z mod 4 * 64 + w).

Definition is_pad (e : Encoding) (c : ascii) : bool := enc_pad e && Ascii.eqb c "=".

(** Quanta of four digits; the bits left over in a short one are not checked. *)
Fixpoint decode_quanta (e : Encoding) (s : string) : option string :=
  match s with
  | EmptyString => Some ""
  | String a (String b r1) =>
      match b64_value e a, b64_value e b with
      | Some x, Some y =>
          match r1 with
          | EmptyString => if enc_pad e then None else Some (String (b64_byte1 x y) "")
          | String c r2 =>
              if is_pad e c then if String.eqb r2 "=" then Some (String (b64_byte1 x y) "") else None
              else match b64_value e c with
                   | None => None
                   | Some z =>
                       match r2 with
                       | EmptyString => if enc_pad e then None else Some (String (b64_byte1 x y) (String (b64_byte2 y z) ""))
                       | String d r3 =>
                           if is_pad e d then
                             if String.eqb r3 "" then Some (String (b64_byte1 x y) (String (b64_byte2 y z) "")) else None
                           else match b64_value e d, decode_quanta e r3 with
                                | Some w, Some t =>
                                    Some (String (b64_byte1 x y) (String (b64_byte2 y z) (String (b64_byte3 z w) t)))
                                | _, _ => None
                                end
                       end
                   end
          end
      | _, _ => None
      end
  | String _ EmptyString => None
  end.

Fixpoint drop_newlines (s : string) : string :=
  match s with
  | EmptyString => ""
  | String c s' => if one_of_bytes (String (ascii_of_nat 10) (String (ascii_of_nat 13) "")) c then drop_newlines s'
                   else String c (drop_newlines s')
  end.

(** [DecodeString]: line breaks are skipped anywhere. *)
Definition DecodeString (e : Encoding) (s : string) : option string := decode_quanta e (drop_newlines s).

(** ** Form encoding *)

Definition shouldEscape_query (c : ascii) : bool := negb (is_alnum c || one_of_bytes "-_.~" c).

Fixpoint QueryEscape (s : string) : string :=
  match s with
  | EmptyString => ""
  | String c rest =>
      if Ascii.eqb c " " then String "+" (QueryEscape rest)
      else if shouldEscape_query c
      then String "%" (String (hex_digit (N_of_ascii c / 16)) (String (hex_digit (N_of_ascii c mod 16)) (QueryEscape rest)))
      else String c (QueryEscape rest)
  end.

Definition query_part (k v : string) : string := QueryEscape k +:+ "=" +:+ QueryEscape v.

(** [Values.Encode]: keys in order, each with its values. *)
Definition query_parts (l : list (string * list string)) : list string :=
  concat (map (λ kv, map (query_part kv.1) kv.2) l).

Definition Encode (m : gmap string (list string)) : string :=
  Join (query_parts (stable_sort (λ a b, String.ltb a.1 b.1) (map_to_list m))) "&".

(** ** Base64 decoding undoes encoding *)

(** An encoding whose digits are distinct and none of them the padding or a
    line break. *)
Definition proper_encoding (e : Encoding) : Prop :=
  ∀ n, (n < 64)%N → b64_value e (b64_digit e n) = Some n ∧ b64_digit e n ≠ "="%char ∧
    b64_digit e n ≠ ascii_of_nat 10 ∧ b64_digit e n ≠ ascii_of_nat 13.

Lemma proper_by_cases e :
  forallb (λ k, match b64_value e (b64_digit e (N.of_nat k)) with Some m => (m =? N.of_nat k)%N | None => false end &&
             negb (one_of_bytes ("=" +:+ String (ascii_of_nat 10) (String (ascii_of_nat 13) "")) (b64_digit e (N.of_nat k))))
    (seq 0 64) = true → proper_encoding e.
Proof.
  intros H n Hn. rewrite forallb_forall in H. specialize (H (N.to_nat n)). rewrite N2Nat.id in H.
  specialize (H ltac:(apply in_seq; lia)). apply andb_true_iff in H as [H1 H2].
  destruct (b64_value e (b64_digit e n)) as [m|]; [|done]. apply N.eqb_eq in H1 as ->. split; [done|].
  split_and!; intros Heq; rewrite Heq in H2; done.
Qed.

Lemma StdEncoding_proper : proper_encoding StdEncoding.
Proof. by apply proper_by_cases. Qed.
Lemma URLEncoding_proper : proper_encoding URLEncoding.
Proof. by apply proper_by_cases. Qed.
Lemma RawURLEncoding_proper : proper_encoding RawURLEncoding.
Proof. by apply proper_by_cases. Qed.

Section Base64.
Context (e : Encoding) (He : proper_encoding e).

Lemma b64_value_digit n : (n < 64)%N → b64_value e (b64_digit e n) = Some n.
Proof. intros H. by destruct (He n H). Qed.

Lemma digit_not_pad n : (n < 64)%N → is_pad e (b64_digit e n) = false.
Proof. intros H. destruct (He n H) as (_ & Hp & _). unfold is_pad. rewrite (proj2 (Ascii.eqb_neq _ _) Hp). apply andb_false_r. Qed.

Lemma drop_newlines_digit n s : (n < 64)%N → drop_newlines (String (b64_digit e n) s) = String (b64_digit e n) (drop_newlines s).
Proof.
  intros H. destruct (He n H) as (_ & _ & H10 & H13). cbn [drop_newlines]. unfold one_of_bytes, ContainsByte. cbn [IndexByte].
  rewrite (proj2 (Ascii.eqb_neq _ _)) by congruence. by rewrite (proj2 (Ascii.eqb_neq _ _)) by congruence.
Qed.

Lemma drop_newlines_pad n : drop_newlines (pad_text e n) = pad_text e n.
Proof. unfold pad_text. destruct (enc_pad e), n as [|[|]]; reflexivity. Qed.

(** The bytes a quantum of digits stands for. *)
Lemma byte1_digits a b : (b < 256)%N →
  b64_byte1 (N_of_ascii a / 4) (N_of_ascii a mod 4 * 16 + b / 16) = a.
Proof.
  intros Hb. unfold b64_byte1. rewrite <- (ascii_N_embedding a) at 3. f_equal. pose proof (N_ascii_bounded a).
  pose proof (N.div_mod (N_of_ascii a) 4). pose proof (N.mod_upper_bound (N_of_ascii a) 4).
  assert (b / 16 < 16)%N by (apply N.Div0.div_lt_upper_bound; lia).
  rewrite N.div_add_l, (N.div_small (b / 16)) by lia. lia.
Qed.

Lemma byte2_digits x b c : (x < 4)%N → (c < 256)%N →
  b64_byte2 (x * 16 + N_of_ascii b / 16) (N_of_ascii b mod 16 * 4 + c / 64) = b.
Proof.
  intros Hx Hc. unfold b64_byte2. rewrite <- (ascii_N_embedding b) at 3. f_equal. pose proof (N_ascii_bounded b).
  pose proof (N.div_mod (N_of_ascii b) 16). pose proof (N.mod_upper_bound (N_of_ascii b) 16).
  assert (N_of_ascii b / 16 < 16)%N by (apply N.Div0.div_lt_upper_bound; lia).
  assert (c / 64 < 4)%N by (apply N.Div0.div_lt_upper_bound; lia).
  rewrite (N.add_comm (x * 16)), N.Div0.mod_add, N.mod_small, N.div_add_l, (N.div_small (c / 64)) by lia. lia.
Qed.

Lemma byte3_digits y c : (y < 16)%N → b64_byte3 (y * 4 + N_of_ascii c / 64) (N_of_ascii c mod 64) = c.
Proof.
  intros Hy. unfold b64_byte3. rewrite <- (ascii_N_embedding c) at 3. f_equal. pose proof (N_ascii_bounded c).
  pose proof (N.div_mod (N_of_ascii c) 64).
  assert (N_of_ascii c / 64 < 4)%N by (apply N.Div0.div_lt_upper_bound; lia).
  rewrite (N.add_comm (y * 4)), N.Div0.mod_add, N.mod_small by lia. lia.
Qed.

(** Every digit an encoder writes is below 64. *)
Lemma sextets a b c :
  (N_of_ascii a / 4 < 64 ∧ N_of_ascii a mod 4 * 16 + N_of_ascii b / 16 < 64 ∧
   N_of_ascii b mod 16 * 4 + N_of_ascii c / 64 < 64 ∧ N_of_ascii c mod 64 < 64)%N.
Proof.
  pose proof (N_ascii_bounded a). pose proof (N_ascii_bounded b). pose proof (N_ascii_bounded c).
  pose proof (N.mod_upper_bound (N_of_ascii a) 4). pose proof (N.mod_upper_bound (N_of_ascii b) 16).
  pose proof (N.mod_upper_bound (N_of_ascii c) 64).
  assert (N_of_ascii a / 4 < 64)%N by (apply N.Div0.div_lt_upper_bound; lia).
  assert (N_of_ascii b / 16 < 16)%N by (apply N.Div0.div_lt_upper_bound; lia).
  assert (N_of_ascii c / 64 < 4)%N by (apply N.Div0.div_lt_upper_bound; lia).
  split_and!; lia.
Qed.

Lemma string_ind3 (P : string -> Prop) :
  P "" → (∀ a, P (String a "")) → (∀ a b, P (String a (String b ""))) →
  (∀ a b c s, P s → P (String a (String b (String c s)))) → ∀ s, P s.
Proof.
  intros H0 H1 H2 H3 s. enough (P s ∧ (∀ a, P (String a s)) ∧ (∀ a b, P (String a (String b s)))) by tauto.
  induction s as [|c s (I0 & I1 & I2)]; [done|]. split; [done|]. split; [done|]. intros a b. by apply H3.
Qed.

Lemma drop_newlines_encoded s : drop_newlines (EncodeToString e s) = EncodeToString e s.
Proof.
  induction s as [|a|a b|a b c s IH] using string_ind3; [done|..]; cbn [EncodeToString].
  - destruct (sextets a "000" "000") as (H1 & H2 & _ & _). change (N_of_ascii "000" / 16)%N with 0%N in H2.
    rewrite N.add_0_r in H2. rewrite !drop_newlines_digit, drop_newlines_pad by done. done.
  - destruct (sextets a b "000") as (H1 & H2 & H3 & _). change (N_of_ascii "000" / 64)%N with 0%N in H3.
    rewrite N.add_0_r in H3. rewrite !drop_newlines_digit, drop_newlines_pad by done. done.
  - destruct (sextets a b c) as (H1 & H2 & H3 & H4). rewrite !drop_newlines_digit, IH by done. done.
Qed.

(** Decoding returns the bytes that were encoded. *)
Lemma DecodeString_encoded s : DecodeString e (EncodeToString e s) = Some s.
Proof.
  unfold DecodeString. rewrite drop_newlines_encoded.
  induction s as [|a|a b|a b c s IH] using string_ind3; [done|..]; cbn [EncodeToString].
  - destruct (sextets a "000" "000") as (H1 & H2 & _ & _). change (N_of_ascii "000" / 16)%N with 0%N in H2.
    rewrite N.add_0_r in H2. cbn [decode_quanta]. rewrite !b64_value_digit by done.
    pose proof (byte1_digits a 0 ltac:(lia)) as E1. change (0 / 16)%N with 0%N in E1. rewrite N.add_0_r in E1.
    unfold pad_text, is_pad. destruct (enc_pad e); cbn; by rewrite E1.
  - destruct (sextets a b "000") as (H1 & H2 & H3 & _). change (N_of_ascii "000" / 64)%N with 0%N in H3.
    rewrite N.add_0_r in H3. cbn [decode_quanta]. rewrite !b64_value_digit, digit_not_pad by done.
    pose proof (byte2_digits (N_of_ascii a mod 4) b 0 ltac:(apply N.mod_upper_bound; lia) ltac:(lia)) as E2.
    change (0 / 64)%N with 0%N in E2. rewrite N.add_0_r in E2.
    pose proof (byte1_digits a (N_of_ascii b) (N_ascii_bounded b)) as E1.
    unfold pad_text, is_pad. destruct (enc_pad e); cbn; by rewrite E1, E2.
  - destruct (sextets a b c) as (H1 & H2 & H3 & H4). cbn [decode_quanta]. rewrite !b64_value_digit, !digit_not_pad, IH by done.
    rewrite byte1_digits, byte2_digits, byte3_digits; [done|..];
      first [apply N_ascii_bounded | apply N.mod_upper_bound; lia].
Qed.
End Base64.

(** ** Parsing a printed query returns its values *)

Lemma unescape_plus c rest :
  Ascii.eqb c "%" = false →
  unescape true (String c rest) = String (if Ascii.eqb c "+" then " "%char else c) <$> unescape true rest.
Proof.
  intros H. destruct c as [[] [] [] [] [] [] [] []]; try done; cbn [unescape]; by destruct (unescape true rest).
Qed.

Lemma QueryUnescape_escaped s : QueryUnescape (QueryEscape s) = Some s.
Proof.
  unfold QueryUnescape. induction s as [|c s IH]; [done|]. cbn [QueryEscape]. destruct (Ascii.eqb c " ") eqn:Esp.
  { bprop. subst c. rewrite unescape_plus by done. by rewrite IH. }
  destruct (shouldEscape_query c) eqn:E.
  - cbn [unescape]. pose proof (N_ascii_bounded c) as Hb.
    rewrite !hex_digit_value, IH by (first [apply N.Div0.div_lt_upper_bound; lia | apply N.mod_upper_bound; lia]).
    f_equal. f_equal. rewrite <- N.div_mod by lia. apply ascii_N_embedding.
  - rewrite unescape_plus, IH; [|destruct (Ascii.eqb c "%") eqn:E2; [bprop; by subst c|done]].
    destruct (Ascii.eqb c "+") eqn:E2; [bprop; by subst c|done].
Qed.

(** Escaped text holds none of the bytes that separate pairs. *)
Definition separator (c : ascii) : bool := one_of_bytes "&=;" c.

Lemma hex_digit_plain n : (n < 16)%N → separator (hex_digit n) = false.
Proof.
  intros H. assert (∃ k : nat, (k < 16)%nat ∧ n = N.of_nat k) as (k & Hk & ->).
  { exists (N.to_nat n). split; lia. }
  do 16 (destruct k as [|k]; [reflexivity|]). lia.
Qed.

Lemma QueryEscape_plain s : str_forall (λ c, negb (separator c)) (QueryEscape s) = true.
Proof.
  induction s as [|c s IH]; [done|]. cbn [QueryEscape]. destruct (Ascii.eqb c " "); [done|].
  destruct (shouldEscape_query c) eqn:E; cbn [str_forall].
  - pose proof (N_ascii_bounded c) as Hb.
    rewrite !hex_digit_plain, IH by (first [apply N.Div0.div_lt_upper_bound; lia | apply N.mod_upper_bound; lia]). done.
  - rewrite IH, andb_true_r. destruct (separator c) eqn:E2; [|done]. exfalso. revert E E2. byte_cases c; done.
Qed.

Lemma plain_no_byte c s :
  separator c = true → str_forall (λ d, negb (separator d)) s = true → IndexByte s c = None.
Proof.
  intros Hc. induction s as [|d s IH]; [done|]. cbn [str_forall IndexByte]. intros [Hd Hs]%andb_true_iff.
  destruct (Ascii.eqb d c) eqn:E; [bprop; subst d; by rewrite Hc in Hd|]. by rewrite IH.
Qed.

Lemma query_part_amp k v c : separator c = true → c ≠ "="%char → IndexByte (query_part k v) c = None.
Proof.
  intros Hc Hne. unfold query_part.
  assert (∀ a b, IndexByte a c = None → IndexByte b c = None → IndexByte (a +:+ b) c = None) as Happ.
  { intros a b Ha Hb. induction a as [|x a IH]; [done|]. cbn in *. destruct (Ascii.eqb x c); [done|].
    destruct (IndexByte a c); [done|]. by rewrite IH. }
  apply Happ; [by apply plain_no_byte, QueryEscape_plain|]. apply Happ; [|by apply plain_no_byte, QueryEscape_plain].
  cbn [IndexByte]. by rewrite (proj2 (Ascii.eqb_neq _ _)) by congruence.
Qed.

Lemma query_pair_part k v : query_pair (query_part k v) = Some (k, v).
Proof.
  unfold query_pair, ContainsByte. rewrite query_part_amp by done.
  destruct (String.eqb (query_part k v) "") eqn:E.
  { bprop. unfold query_part in E. by destruct (QueryEscape k). }
  unfold query_part. change ("=" +:+ QueryEscape v) with (String "=" (QueryEscape v)).
  rewrite CutByte_app by (by apply plain_no_byte, QueryEscape_plain). by rewrite !QueryUnescape_escaped.
Qed.

(** The values of key [k] among pairs, in order. *)
Definition values_of (k : string) (l : list (string * string)) : list string :=
  (filter (λ kv, kv.1 = k) l).*2.

Lemma foldl_add_value l m k :
  foldl add_value m l !! k =
  match values_of k l with [] => m !! k | vs => Some (default [] (m !! k) ++ vs) end.
Proof.
  unfold values_of. revert m. induction l as [|[k' v] l IH]; intros m; [done|]. cbn [foldl]. rewrite IH, filter_cons.
  unfold add_value at 1 2. cbn [fst snd]. destruct (decide (k' = k)) as [->|Hne].
  - rewrite lookup_insert_eq. cbn. destruct (filter _ l).*2; [done|]. cbn. by rewrite <- app_assoc.
  - by rewrite lookup_insert_ne by done.
Qed.

Definition pairs_of (l : list (string * list string)) : list (string * string) :=
  concat (map (λ kv, map (pair kv.1) kv.2) l).

Lemma values_of_app k a b : values_of k (a ++ b) = values_of k a ++ values_of k b.
Proof. unfold values_of. by rewrite filter_app, fmap_app. Qed.

Lemma values_of_key k k' vs : values_of k (map (pair k') vs) = if decide (k' = k) then vs else [].
Proof.
  induction vs as [|v vs IH]; [by destruct (decide _)|]. unfold values_of in *. cbn [map]. rewrite filter_cons. cbn [fst].
  destruct (decide (k' = k)); cbn; by rewrite IH.
Qed.

Lemma values_of_pairs k l :
  NoDup l.*1 → values_of k (pairs_of l) = default [] ((list_to_map l : gmap string (list string)) !! k).
Proof.
  induction l as [|[k' vs] l IH]; intros Hnd; [done|]. cbn in Hnd. apply NoDup_cons in Hnd as [Hk Hnd].
  unfold pairs_of in *. cbn [map concat fst snd]. rewrite values_of_app, values_of_key, IH by done. destruct (decide (k' = k)) as [->|Hne].
  - cbn [list_to_map fst snd foldr]. rewrite lookup_insert_eq. rewrite not_elem_of_list_to_map_1 by done. cbn. apply app_nil_r.
  - cbn [list_to_map fst snd foldr]. by rewrite lookup_insert_ne by done.
Qed.

Lemma omap_query_parts l : omap query_pair (query_parts l) = pairs_of l.
Proof.
  unfold query_parts, pairs_of. induction l as [|[k vs] l IH]; [done|]. cbn.
  assert (∀ a b, omap query_pair (a ++ b) = omap query_pair a ++ omap query_pair b) as Happ.
  { intros a b. induction a as [|x a IHa]; [done|]. cbn. rewrite IHa. by destruct (query_pair x). }
  rewrite Happ, IH. f_equal. induction vs as [|v vs IHv]; [done|]. cbn. rewrite query_pair_part. by rewrite IHv.
Qed.

Lemma ParseQuery_parts l : ParseQuery (Join (query_parts l) "&") = foldl add_value ∅ (pairs_of l).
Proof.
  unfold ParseQuery. rewrite <- omap_query_parts. destruct (query_parts l) as [|p ps] eqn:E; [done|].
  f_equal. f_equal. apply SplitByte_Join; [done|]. rewrite <- E. unfold query_parts. clear.
  apply Forall_concat, Forall_map, Forall_forall. intros [k vs] _. apply Forall_map, Forall_forall.
  intros v _. by apply query_part_amp.
Qed.

(** Every key of a parsed or edited query has a value. *)
Definition no_empty_values (m : gmap string (list string)) : Prop := map_Forall (λ _ vs, vs ≠ []) m.

Theorem ParseQuery_Encode m : no_empty_values m → ParseQuery (Encode m) = m.
Proof.
  intros Hm. unfold Encode. rewrite ParseQuery_parts. set (l := stable_sort _ _).
  assert (l ≡ₚ map_to_list m) as Hl by apply stable_sort_perm.
  assert (NoDup l.*1) as Hnd by (rewrite Hl; apply NoDup_fst_map_to_list).
  apply map_eq. intros k. rewrite foldl_add_value, values_of_pairs, lookup_empty by done.
  rewrite (list_to_map_proper l (map_to_list m)) by done. rewrite list_to_map_to_list.
  destruct (m !! k) as [vs|] eqn:E; [|done]. pose proof (Hm k vs E). cbn. by destruct vs.
Qed.

Lemma ParseQuery_no_empty q : no_empty_values (ParseQuery q).
Proof.
  intros k vs. unfold ParseQuery. rewrite foldl_add_value, lookup_empty.
  destruct (values_of _ _) as [|v l]; [done|]. cbn. by intros [= <-].
Qed.

Lemma no_empty_delete k m : no_empty_values m → no_empty_values (delete k m).
Proof. apply map_Forall_delete. Qed.

Example encode_form : Encode (ParseQuery "b=2&a=x+y&b=%26&bad=%zz") = "a=x+y&b=2&b=%26".
Proof. vm_compute. reflexivity. Qed.

Example base64_form :
  EncodeToString StdEncoding "a:b" = "YTpi" ∧ EncodeToString StdEncoding "user:p" = "dXNlcjpw" ∧
  DecodeString StdEncoding "YQ==" = Some "a" ∧ DecodeString RawURLEncoding "YQ" = Some "a" ∧ DecodeString StdEncoding "YQ" = None.
Proof. vm_compute. repeat split. Qed.
