(* ===== verification/Wire.v ===== *)
(** * Bytes on the wire: [encoding/binary], [io.ReadFull], slices that can panic

    A byte slice is a [string] of bytes, as a Go string is. An unsigned integer
    of [n] bytes is a [Z] with its wrap-around written out; [binary.BigEndian]
    and [binary.LittleEndian] read and write it. A slice or index expression
    whose bounds Go checks at run time is a computation in [checked]: [Panic]
    when the check fails, so that a function's freedom from panics is a theorem
    about its model. *)
From S2P Require Import Prelude GoStrings.

(** ** A byte as an integer *)

Definition byte_val (c : ascii) : Z := Z.of_N (N_of_ascii c).
(** [byte(n)] *)
Definition byte_of (n : Z) : ascii := ascii_of_N (Z.to_N (n mod 256)).

Lemma byte_val_range c : 0 <= byte_val c < 256.
Proof. byte_cases c; vm_compute; split; congruence. Qed.

Lemma byte_val_of n : byte_val (byte_of n) = n mod 256.
Proof.
  unfold byte_val, byte_of. pose proof (Z.mod_pos_bound n 256 ltac:(lia)).
  rewrite N_ascii_embedding by lia. lia.
Qed.

Lemma byte_of_val c : byte_of (byte_val c) = c.
Proof.
  unfold byte_of. rewrite Z.mod_small by apply byte_val_range. unfold byte_val. rewrite N2Z.id. apply ascii_N_embedding.
Qed.

Lemma byte_val_inj c d : byte_val c = byte_val d → c = d.
Proof. intros H. by rewrite <- (byte_of_val c), <- (byte_of_val d), H. Qed.

(** [c ^ d] *)
Definition byte_xor (c d : ascii) : ascii := byte_of (Z.lxor (byte_val c) (byte_val d)).

Lemma lxor_byte a b : 0 <= a < 256 → 0 <= b < 256 → 0 <= Z.lxor a b < 256.
Proof.
  intros Ha Hb. split; [apply Z.lxor_nonneg; lia|].
  destruct (Z.eq_dec (Z.lxor a b) 0) as [->|Hn]; [lia|].
  assert (0 <= Z.lxor a b) by (apply Z.lxor_nonneg; lia).
  change 256 with (2 ^ 8). apply Z.log2_lt_pow2; [lia|].
  eapply Z.le_lt_trans; [apply Z.log2_lxor; lia|].
  apply Z.max_lub_lt.
  all: match goal with |- Z.log2 ?x < 8 => destruct (Z.eq_dec x 0) as [->|]; [done|]; apply Z.log2_lt_pow2; lia end.
Qed.

Lemma byte_xor_cancel c k : byte_xor (byte_xor c k) k = c.
Proof.
  unfold byte_xor. rewrite byte_val_of, Z.mod_small by (apply lxor_byte; apply byte_val_range).
  rewrite Z.lxor_assoc, Z.lxor_nilpotent, Z.lxor_0_r. apply byte_of_val.
Qed.

(** ** Big-endian integers *)

(** The low [n] bytes of [v], the most significant first ([PutUint16] for
    [n = 2], [PutUint32] for 4, [PutUint64] for 8). *)
Fixpoint be_put (n : nat) (v : Z) : string :=
  match n with
  | O => ""
  | S n' => String (byte_of (Z.shiftr v (8 * Z.of_nat n'))) (be_put n' v)
  end.

(** The integer a byte string spells. *)
Fixpoint be_get_acc (acc : Z) (s : string) : Z :=
  match s with
  | EmptyString => acc
  | String c s' => be_get_acc (Z.lor (Z.shiftl acc 8) (byte_val c)) s'
  end.

Definition be_get (s : string) : Z := be_get_acc 0 s.

Lemma be_put_length n v : String.length (be_put n v) = n.
Proof. induction n; simpl; congruence. Qed.

Lemma be_get_acc_val acc s :
  0 <= acc → be_get_acc acc s = acc * 256 ^ Z.of_nat (String.length s) + be_get_acc 0 s.
Proof.
  revert acc. induction s as [|c s IH]; intros acc Ha; cbn [be_get_acc String.length]; [lia|].
  pose proof (byte_val_range c).
  rewrite !lor_shiftl_add by (change (2 ^ 8) with 256; lia). change (2 ^ 8) with 256.
  rewrite IH by lia. rewrite (IH (0 * 256 + byte_val c)) by lia.
  rewrite Nat2Z.inj_succ, Z.pow_succ_r by lia. ring.
Qed.

Lemma be_get_cons c s : be_get (String c s) = byte_val c * 256 ^ Z.of_nat (String.length s) + be_get s.
Proof.
  unfold be_get. cbn [be_get_acc]. pose proof (byte_val_range c).
  rewrite lor_shiftl_add by (change (2 ^ 8) with 256; lia). change (2 ^ 8) with 256.
  rewrite be_get_acc_val by lia. f_equal.
Qed.

Lemma be_get_range s : 0 <= be_get s < 256 ^ Z.of_nat (String.length s).
Proof.
  induction s as [|c s IH]; [cbn; lia|]. rewrite be_get_cons. cbn [String.length].
  rewrite Nat2Z.inj_succ, Z.pow_succ_r by lia. pose proof (byte_val_range c). nia.
Qed.

(** What is written is read back, up to the width. *)
Lemma be_get_put n v : be_get (be_put n v) = v mod 256 ^ Z.of_nat n.
Proof.
  induction n as [|n IH]; cbn [be_put]; [by rewrite Z.mod_1_r|].
  rewrite be_get_cons, IH, be_put_length, byte_val_of, Z.shiftr_div_pow2 by lia.
  rewrite Z.pow_mul_r by lia. change (2 ^ 8) with 256.
  rewrite Nat2Z.inj_succ, Z.pow_succ_r by lia.
  rewrite (Z.mul_comm 256), Z.rem_mul_r by lia. ring.
Qed.

Lemma be_get_put_small n v : 0 <= v < 256 ^ Z.of_nat n → be_get (be_put n v) = v.
Proof. intros. rewrite be_get_put. by apply Z.mod_small. Qed.

(** What is read is written back. *)
Lemma be_put_get s : be_put (String.length s) (be_get s) = s.
Proof.
  assert (∀ n v w, v mod 256 ^ Z.of_nat n = w mod 256 ^ Z.of_nat n → be_put n v = be_put n w) as Hmod.
  { induction n as [|n IH]; intros v w H; [done|]. cbn [be_put].
    rewrite Nat2Z.inj_succ, Z.pow_succ_r, (Z.mul_comm 256), !Z.rem_mul_r in H by lia.
    pose proof (Z.mod_pos_bound v (256 ^ Z.of_nat n) ltac:(lia)).
    pose proof (Z.mod_pos_bound w (256 ^ Z.of_nat n) ltac:(lia)).
    assert ((v / 256 ^ Z.of_nat n) mod 256 = (w / 256 ^ Z.of_nat n) mod 256) as Hd by nia.
    rewrite (IH v w) by nia. f_equal. unfold byte_of.
    rewrite !Z.shiftr_div_pow2, !Z.pow_mul_r by lia. change (2 ^ 8) with 256. by rewrite Hd. }
  induction s as [|c s IH]; [done|]. cbn [String.length be_put]. rewrite be_get_cons.
  pose proof (be_get_range s). pose proof (byte_val_range c). f_equal.
  - rewrite Z.shiftr_div_pow2, Z.pow_mul_r by lia. change (2 ^ 8) with 256.
    rewrite Z.div_add_l, (Z.div_small (be_get s)), Z.add_0_r by lia. apply byte_of_val.
  - etransitivity; [|exact IH]. apply Hmod. by rewrite Z.add_comm, Z.mod_add by lia.
Qed.

(** ** Slices of a concatenation *)

Lemma str_take_app_le k u t : (k <= String.length u)%nat → str_take k (u +:+ t) = str_take k u.
Proof.
  revert k. induction u as [|x u IH]; intros [|k]; cbn [String.length]; intros H; try lia; [by destruct t|done|].
  cbn [String.append str_take]. by rewrite IH by lia.
Qed.

Lemma str_take_app_ge k u t : (String.length u <= k)%nat → str_take k (u +:+ t) = u +:+ str_take (k - String.length u) t.
Proof.
  revert k. induction u as [|x u IH]; intros k; cbn [String.length]; intros H; [by rewrite Nat.sub_0_r|].
  destruct k as [|k]; [lia|]. cbn [String.append str_take Nat.sub]. by rewrite IH by lia.
Qed.

Lemma str_drop_app_le k u t : (k <= String.length u)%nat → str_drop k (u +:+ t) = str_drop k u +:+ t.
Proof.
  revert k. induction u as [|x u IH]; intros [|k]; cbn [String.length]; intros H; try lia; [done|done|].
  cbn [String.append str_drop]. by rewrite IH by lia.
Qed.

Lemma str_drop_app_ge k u t : (String.length u <= k)%nat → str_drop k (u +:+ t) = str_drop (k - String.length u) t.
Proof.
  revert k. induction u as [|x u IH]; intros k; cbn [String.length]; intros H; [by rewrite Nat.sub_0_r|].
  destruct k as [|k]; [lia|]. cbn [String.append str_drop Nat.sub]. by rewrite IH by lia.
Qed.

(** ** Little-endian integers *)

(** [binary.LittleEndian.Uint32] of four bytes, [Uint64] of eight. *)
Fixpoint le_get (s : string) : Z :=
  match s with EmptyString => 0 | String c s' => byte_val c + 256 * le_get s' end.

(** ** Reading a stream *)

(** [io.ReadFull] of [n] bytes from a stream that ends: the bytes and the rest,
    [None] (an error) when the stream is shorter. *)
Definition ReadFull (n : nat) (s : string) : option (string * string) :=
  if (n <=? String.length s)%nat then Some (str_take n s, str_drop n s) else None.

Lemma ReadFull_Some n s a b : ReadFull n s = Some (a, b) → s = a +:+ b ∧ String.length a = n.
Proof.
  unfold ReadFull. destruct (n <=? String.length s)%nat eqn:E; [|done]. bprop. intros [= <- <-].
  by rewrite str_take_drop, str_length_take.
Qed.

Lemma ReadFull_app a b : ReadFull (String.length a) (a +:+ b) = Some (a, b).
Proof.
  unfold ReadFull. rewrite str_length_app, (proj2 (Nat.leb_le _ _)) by lia. by rewrite str_take_app, str_drop_app.
Qed.

Lemma ReadFull_None n s : ReadFull n s = None ↔ (String.length s < n)%nat.
Proof.
  unfold ReadFull. destruct (n <=? String.length s)%nat eqn:E; bprop; split; intros; try done; lia.
Qed.

(** ** Bounds-checked slices *)

Inductive checked (A : Type) : Type :=
| Done (a : A)
| Panic.
Arguments Done {A} _.
Arguments Panic {A}.

Notation "'let*' x ':=' c 'in' k" :=
  (match c with Done x => k | Panic => Panic end)
  (at level 10, x pattern, c at level 100, k at level 200,
   format "'[v' 'let*'  x  ':='  c  'in' '/' k ']'") : go_scope.

(** [s[i]] *)
Definition at_index (s : string) (i : nat) : checked ascii :=
  match String.get i s with Some c => Done c | None => Panic end.

(** [s[i:]] *)
Definition slice_from (s : string) (i : nat) : checked string :=
  if (i <=? String.length s)%nat then Done (str_drop i s) else Panic.

(** [s[:j]] *)
Definition slice_to (s : string) (j : nat) : checked string :=
  if (j <=? String.length s)%nat then Done (str_take j s) else Panic.

Lemma string_get_Some s i : (i < String.length s)%nat → ∃ c, String.get i s = Some c.
Proof. revert i. induction s as [|c s IH]; intros [|i] H; cbn in *; try lia; eauto. apply IH. lia. Qed.

Lemma at_index_Done s i : (i < String.length s)%nat → ∃ c, at_index s i = Done c.
Proof. intros H. unfold at_index. destruct (string_get_Some s i H) as [c ->]. eauto. Qed.

Lemma slice_from_Done s i : (i <= String.length s)%nat → slice_from s i = Done (str_drop i s).
Proof. intros H. unfold slice_from. by rewrite (proj2 (Nat.leb_le _ _) H). Qed.

Lemma slice_to_Done s j : (j <= String.length s)%nat → slice_to s j = Done (str_take j s).
Proof. intros H. unfold slice_to. by rewrite (proj2 (Nat.leb_le _ _) H). Qed.

(** [int(s[i])<<8 | int(s[i+1])] *)
Definition u16_at (s : string) (i : nat) : checked Z :=
  let* hi := at_index s i in
  let* lo := at_index s (S i) in
  Done (Z.lor (Z.shiftl (byte_val hi) 8) (byte_val lo)).

Lemma u16_at_Done s i : (S i < String.length s)%nat → ∃ v, u16_at s i = Done v ∧ 0 <= v < 65536.
Proof.
  intros H. unfold u16_at. destruct (at_index_Done s i) as [a ->]; [lia|].
  destruct (at_index_Done s (S i)) as [b ->]; [lia|]. eexists. split; [done|].
  pose proof (byte_val_range a). pose proof (byte_val_range b).
  rewrite lor_shiftl_add by (change (2 ^ 8) with 256; lia). change (2 ^ 8) with 256. lia.
Qed.

Lemma u16_at_be v s : 0 <= v < 65536 → u16_at (be_put 2 v +:+ s) 0 = Done v.
Proof.
  intros Hv. unfold u16_at, at_index. cbn [be_put String.append String.get]. f_equal.
  rewrite !byte_val_of, !Z.shiftr_div_pow2 by lia.
  change (8 * Z.of_nat 1) with 8. change (8 * Z.of_nat 0) with 0. change (2 ^ 0) with 1.
  rewrite Z.div_1_r, lor_shiftl_add by (try apply Z.mod_pos_bound; lia). change (2 ^ 8) with 256.
  rewrite (Z.mod_small (v / 256)) by (split; [apply Z.div_pos | apply Z.div_lt_upper_bound]; lia).
  rewrite (Z.div_mod v 256) at 3 by lia. ring.
Qed.
