(* ===== verification/WsFrame.v ===== *)
(** * WebSocket frames: the framing of [cmd/clawpatrol/ws.go]

    Reading one RFC 6455 frame off a stream, rebuilding one around a new
    payload, masking, and the [permessage-deflate] state an observer keeps. The
    decompressor of [compress/flate] is a parameter. *)
From S2P Require Import Prelude GoStrings Wire.

(** ** Constants *)

Definition wsOpText : Z := 1.
Definition wsOpClose : Z := 8.
Definition wsRSV1 : Z := 64.
Definition wsMaskBit : Z := 128.
Definition deflateTrailer : string := be_put 4 65535.

(** ** Extensions *)

Record wsParams := mkParams {
  deflate : bool;
  clientNoTakeover : bool;
  serverNoTakeover : bool
}.

(** One field of a [permessage-deflate] extension. *)
Definition ext_field (p : wsParams) (f : string) : wsParams :=
  let f := TrimSpace f in
  if String.eqb f "client_no_context_takeover" then mkParams (deflate p) true (serverNoTakeover p)
  else if String.eqb f "server_no_context_takeover" then mkParams (deflate p) (clientNoTakeover p) true
  else p.

Definition parseWSExtensions (headerVal : string) : wsParams :=
  foldl (λ p ext,
    match SplitByte (TrimSpace ext) ";" with
    | f0 :: fs =>
        if negb (String.eqb (TrimSpace f0) "permessage-deflate") then p
        else foldl ext_field (mkParams true (clientNoTakeover p) (serverNoTakeover p)) fs
    | [] => p
    end) (mkParams false false false) (SplitByte headerVal ",").

(** ** Masking *)

(** [maskKey[i%4]] of a four-byte array. *)
Definition mask_byte (maskKey : string) (i : nat) : ascii := default (byte_of 0) (String.get (i mod 4) maskKey).

Fixpoint mask_from (i : nat) (maskKey payload : string) : string :=
  match payload with
  | EmptyString => EmptyString
  | String c rest => String (byte_xor c (mask_byte maskKey i)) (mask_from (S i) maskKey rest)
  end.

Definition unmaskWSPayload (payload : string) (masked : bool) (maskKey : string) : string :=
  if negb masked then payload else mask_from 0 maskKey payload.

(** ** Building a frame *)

Definition frame_length_bytes (maskBit n : Z) : string :=
  if n <? 126 then String (byte_of (Z.lor maskBit n)) ""
  else if n <=? 65535 then String (byte_of (Z.lor maskBit 126)) (be_put 2 n)
  else String (byte_of (Z.lor maskBit 127)) (be_put 8 n).

Definition buildFrameRaw (b0 : ascii) (masked : bool) (maskKey payload : string) : string :=
  let maskBit := if masked then wsMaskBit else 0 in
  String b0 (frame_length_bytes maskBit (Z.of_nat (String.length payload)) +:+
    if masked then maskKey +:+ mask_from 0 maskKey payload else payload).

(** ** Reading a frame *)

Record WsFrame := mkFrame {
  fr_raw : string;
  fr_b0 : ascii;
  fr_op : Z;
  fr_compressed : bool;
  fr_masked : bool;
  fr_maskKey : string;
  fr_payload : string
}.

Inductive FrameError := FrameEOF | FrameTooLarge (plen : Z).

(** The conversion of an unsigned 64-bit integer to [int64]. *)
Definition int64_of_uint64 (v : Z) : Z := if v <? 2 ^ 63 then v else v - 2 ^ 64.

(** The zero value of [[4]byte]. *)
Definition zeroKey : string := be_put 4 0.

(** The extended length, with the bytes it was read from. *)
Definition read_length (len7 : Z) (s : string) : option (string * Z * string) :=
  if len7 =? 126 then
    match ReadFull 2 s with Some (ext, s') => Some (ext, be_get ext, s') | None => None end
  else if len7 =? 127 then
    match ReadFull 8 s with Some (ext, s') => Some (ext, int64_of_uint64 (be_get ext), s') | None => None end
  else Some ("", len7, s).

Definition read_mask (masked : bool) (s : string) : option (string * string) :=
  if masked then ReadFull 4 s else Some ("", s).

Definition maxFrame : Z := 2 ^ 24.

(** [readFrameRaw]: the frame and the rest of the stream. *)
Definition readFrameRaw (s : string) : result (WsFrame * string) FrameError :=
  match ReadFull 2 s with
  | Some (String b0 (String b1 EmptyString) as hdr, s1) =>
      let op := Z.land (byte_val b0) 15 in
      let compressed := negb (Z.land (byte_val b0) wsRSV1 =? 0) in
      let masked := negb (Z.land (byte_val b1) wsMaskBit =? 0) in
      match read_length (Z.land (byte_val b1) 127) s1 with
      | None => Err FrameEOF
      | Some (ext, plen, s2) =>
          match read_mask masked s2 with
          | None => Err FrameEOF
          | Some (key, s3) =>
              if (plen <? 0) || (maxFrame <? plen) then Err (FrameTooLarge plen)
              else match ReadFull (Z.to_nat plen) s3 with
                   | None => Err FrameEOF
                   | Some (payload, s4) =>
                       Ok (mkFrame (hdr +:+ (ext +:+ (key +:+ payload))) b0 op compressed masked
                             (if masked then key else zeroKey) payload, s4)
                   end
          end
      end
  | _ => Err FrameEOF
  end.

(** The payload an observer reads, before decompression. *)
Definition plain_of (f : WsFrame) : string := unmaskWSPayload (fr_payload f) (fr_masked f) (fr_maskKey f).

(** ** Decompression for observers *)

Section Inflate.
(** [flate.NewReaderDict] read to its end: what it decoded, unless it failed
    with another error than running out of input. *)
Context (flate_read : string -> string -> option string).

Definition windowSize : nat := Z.to_nat (32 * 1024).

(** [wsInflater.decompress]: the output and the dictionary kept. *)
Definition decompress (dict payload : string) (noTakeover : bool) : option string * string :=
  match flate_read (if noTakeover then "" else dict) (payload +:+ deflateTrailer) with
  | None => (None, dict)
  | Some out =>
      (Some out,
       if negb noTakeover && negb (String.eqb out "") then
         let combined := dict +:+ out in str_drop (String.length combined - windowSize) combined
       else dict)
  end.
End Inflate.

(** ** Lemmas *)

Lemma mask_byte_period key i : mask_byte key (i + 4) = mask_byte key i.
Proof. unfold mask_byte. by rewrite <- (Nat.Div0.mod_add i 1 4). Qed.

Lemma mask_from_length i key s : String.length (mask_from i key s) = String.length s.
Proof. revert i. induction s as [|c s IH]; intros i; cbn; [done|]. by rewrite IH. Qed.

Lemma mask_from_cancel i key s : mask_from i key (mask_from i key s) = s.
Proof. revert i. induction s as [|c s IH]; intros i; cbn [mask_from]; [done|]. by rewrite byte_xor_cancel, IH. Qed.

Lemma mask_zero_key i s : mask_from i zeroKey s = s.
Proof.
  revert i. induction s as [|c s IH]; intros i; cbn [mask_from]; [done|]. rewrite IH. f_equal.
  assert (mask_byte zeroKey i = byte_of 0) as ->.
  { unfold mask_byte. pose proof (Nat.mod_upper_bound i 4 ltac:(lia)).
    destruct (i mod 4)%nat as [|[|[|[|k]]]]; try lia; done. }
  unfold byte_xor. rewrite byte_val_of. change (0 mod 256) with 0. rewrite Z.lxor_0_r. apply byte_of_val.
Qed.

(** The second header byte: a mask bit over a seven-bit length. *)
Lemma header_byte_fields (m : bool) n :
  0 <= n < 128 →
  let v := byte_val (byte_of (Z.lor (if m then wsMaskBit else 0) n)) in
  Z.land v 127 = n ∧ negb (Z.land v wsMaskBit =? 0) = m.
Proof.
  intros Hn. cbn zeta.
  assert (∃ k : nat, (k < 128)%nat ∧ n = Z.of_nat k) as (k & Hk & ->).
  { exists (Z.to_nat n). lia. }
  assert (forallb (λ k, bool_decide
    (Z.land (byte_val (byte_of (Z.lor (if m then wsMaskBit else 0) (Z.of_nat k)))) 127 = Z.of_nat k ∧
     negb (Z.land (byte_val (byte_of (Z.lor (if m then wsMaskBit else 0) (Z.of_nat k)))) wsMaskBit =? 0) = m))
    (seq 0 128) = true) as Hall by (destruct m; vm_compute; reflexivity).
  rewrite forallb_forall in Hall. specialize (Hall k). rewrite bool_decide_eq_true in Hall.
  apply Hall, in_seq. lia.
Qed.

(** A frame that is read is a prefix of the stream. *)
Lemma readFrameRaw_raw s f rest : readFrameRaw s = Ok (f, rest) → s = fr_raw f +:+ rest ∧ (2 <= String.length (fr_raw f))%nat.
Proof.
  unfold readFrameRaw. intros H.
  destruct (ReadFull 2 s) as [[hdr s1]|] eqn:E0; [|done]. apply ReadFull_Some in E0 as [-> _].
  destruct hdr as [|b0 [|b1 [|? ?]]]; try done.
  destruct (read_length _ s1) as [[[ext plen] s2]|] eqn:E1; [|done].
  destruct (read_mask _ s2) as [[key s3]|] eqn:E2; [|done].
  destruct (_ || _); [done|].
  destruct (ReadFull _ s3) as [[payload s4]|] eqn:E3; [|done]. injection H as <- <-.
  apply ReadFull_Some in E3 as [-> _]. cbn [fr_raw].
  assert (s1 = ext +:+ s2) as ->.
  { revert E1. unfold read_length. repeat case_match; intros [= <- <- <-]; try done.
    all: by match goal with H : ReadFull _ _ = Some _ |- _ => apply ReadFull_Some in H as [-> _] end. }
  assert (s2 = key +:+ (payload +:+ s4)) as ->.
  { revert E2. unfold read_mask. case_match; [intros [-> _]%ReadFull_Some; done | intros [= <- <-]; done]. }
  split; [cbn [String.append]; by rewrite ?str_app_assoc|]. cbn [String.append String.length]. lia.
Qed.

(** ** Reading back what was built *)

Lemma read_length_built (m : bool) n ext rest :
  0 <= n < 2 ^ 63 → frame_length_bytes (if m then wsMaskBit else 0) n = ext →
  ∃ b1 bs, ext = String b1 bs ∧
    negb (Z.land (byte_val b1) wsMaskBit =? 0) = m ∧
    read_length (Z.land (byte_val b1) 127) (bs +:+ rest) = Some (bs, n, rest).
Proof.
  intros Hn <-. unfold frame_length_bytes.
  destruct (n <? 126) eqn:E1; [|destruct (n <=? 65535) eqn:E2]; bprop; do 2 eexists; (split; [reflexivity|]).
  - destruct (header_byte_fields m n) as [-> ->]; [lia|]. split; [done|]. unfold read_length.
    rewrite (proj2 (Z.eqb_neq n 126)), (proj2 (Z.eqb_neq n 127)) by lia. done.
  - destruct (header_byte_fields m 126) as [-> ->]; [lia|]. split; [done|].
    unfold read_length. change (126 =? 126) with true. cbv iota.
    pose proof (ReadFull_app (be_put 2 n) rest) as R. rewrite be_put_length in R. rewrite R.
    by rewrite be_get_put_small by (change (256 ^ Z.of_nat 2) with 65536; lia).
  - destruct (header_byte_fields m 127) as [-> ->]; [lia|]. split; [done|].
    unfold read_length. change (127 =? 126) with false. change (127 =? 127) with true. cbv iota.
    pose proof (ReadFull_app (be_put 8 n) rest) as R. rewrite be_put_length in R. rewrite R.
    rewrite be_get_put_small by (change (256 ^ Z.of_nat 8) with (2 ^ 64); lia).
    unfold int64_of_uint64. by rewrite (proj2 (Z.ltb_lt n (2 ^ 63))) by lia.
Qed.

Lemma plain_of_built (m : bool) key payload :
  unmaskWSPayload (if m then mask_from 0 key payload else payload) m (if m then key else zeroKey) = payload.
Proof. destruct m; cbn [unmaskWSPayload negb]; [apply mask_from_cancel | done]. Qed.

(** A rebuilt frame reads back as one frame: the flag byte, the mask and the
    key it was built with, and a payload that unmasks to the one given. *)
Lemma readFrameRaw_build b0 (m : bool) key payload rest :
  String.length key = 4%nat → Z.of_nat (String.length payload) <= maxFrame →
  readFrameRaw (buildFrameRaw b0 m key payload +:+ rest) =
  Ok (mkFrame (buildFrameRaw b0 m key payload) b0 (Z.land (byte_val b0) 15)
        (negb (Z.land (byte_val b0) wsRSV1 =? 0)) m (if m then key else zeroKey)
        (if m then mask_from 0 key payload else payload), rest).
Proof.
  intros Hk Hn. unfold buildFrameRaw.
  set (n := Z.of_nat (String.length payload)) in *.
  destruct (read_length_built m n _ ((if m then key +:+ mask_from 0 key payload else payload) +:+ rest)
              ltac:(unfold n, maxFrame in *; lia) eq_refl) as (b1 & bs & -> & Hm & Hl).
  unfold readFrameRaw.
  pose proof (ReadFull_app (String b0 (String b1 ""))
    (bs +:+ ((if m then key +:+ mask_from 0 key payload else payload) +:+ rest))) as R.
  cbn [String.append String.length] in R |- *. rewrite str_app_assoc, R.
  cbv iota beta. rewrite Hl, Hm. cbv iota beta.
  assert (read_mask m ((if m then key +:+ mask_from 0 key payload else payload) +:+ rest) =
    Some (if m then key else "", (if m then mask_from 0 key payload else payload) +:+ rest)) as ->.
  { unfold read_mask. destruct m; [|done]. rewrite str_app_assoc, <- Hk. apply ReadFull_app. }
  rewrite (proj2 (Z.ltb_ge n 0)), (proj2 (Z.ltb_ge maxFrame n)) by (unfold n; lia). cbn [orb].
  assert (Z.to_nat n = String.length (if m then mask_from 0 key payload else payload)) as ->.
  { unfold n. rewrite Nat2Z.id. destruct m; [by rewrite mask_from_length | done]. }
  rewrite ReadFull_app. destruct m; cbn [String.append]; by rewrite ?str_app_assoc.
Qed.
