(* ===== verification/WsRfc.v ===== *)
(** * What a WebSocket frame is (RFC 6455, section 5.2)

    The wire format as the standard states it, with no reference to the code
    that reads and builds frames, and the facts that tie [readFrameRaw] and
    [buildFrameRaw] of [cmd/clawpatrol/ws.go] to it. *)
From S2P Require Import Prelude GoStrings Wire WsFrame.

(** ** The standard *)

(** The payload length: the low seven bits of the second byte, or two or eight
    further bytes, most significant first, when those bits are 126 or 127. *)
Inductive length_field : Z -> string -> Z -> Prop :=
| length_short n : 0 <= n < 126 → length_field n "" n
| length_16 ext : String.length ext = 2%nat → length_field 126 ext (be_get ext)
| length_64 ext : String.length ext = 8%nat → length_field 127 ext (be_get ext).

(** Byte [i] on the wire is byte [i] of the payload xor byte [i mod 4] of the key. *)
Definition xored (key plain wire : string) : Prop :=
  String.length key = 4%nat ∧ String.length wire = String.length plain ∧
  ∀ i c k, String.get i plain = Some c → String.get (i mod 4) key = Some k →
    ∃ w, String.get i wire = Some w ∧ byte_val w = Z.lxor (byte_val c) (byte_val k).

Definition opcode (b0 : ascii) : Z := byte_val b0 mod 16.
Definition rsv1 (b0 : ascii) : bool := Z.testbit (byte_val b0) 6.

(** [raw] is the frame of flag byte [b0], masking key and payload [plain]; the
    top bit of its second byte says whether there is a key. *)
Definition is_frame (b0 : ascii) (mask : option string) (plain raw : string) : Prop :=
  ∃ b1 ext wire,
    raw = String b0 (String b1 (ext +:+ (default "" mask +:+ wire))) ∧
    length_field (byte_val b1 mod 128) ext (Z.of_nat (String.length plain)) ∧
    (128 <= byte_val b1 ↔ is_Some mask) ∧
    match mask with Some key => xored key plain wire | None => wire = plain end.

(** The size of a frame whose length takes the fewest bytes it can. *)
Definition shortest_size (mask : option string) (plain : string) : nat :=
  let n := String.length plain in
  (2 + (if (n <? 126)%nat then 0 else if (Z.of_nat n <? 65536)%Z then 2 else 8)
     + String.length (default "" mask) + n)%nat.

(** The stream starts with the header of a frame that announces [len] bytes. *)
Definition announces (s : string) (len : Z) : Prop :=
  ∃ b0 b1 ext tail, s = String b0 (String b1 (ext +:+ tail)) ∧ length_field (byte_val b1 mod 128) ext len.

(** ** The header bits *)

Definition frame_mask (f : WsFrame) : option string := if fr_masked f then Some (fr_maskKey f) else None.

Lemma land_opcode b : Z.land (byte_val b) 15 = opcode b.
Proof. apply (Z.land_ones (byte_val b) 4). lia. Qed.

Lemma land_len7 b : Z.land (byte_val b) 127 = byte_val b mod 128.
Proof. apply (Z.land_ones (byte_val b) 7). lia. Qed.

Lemma land_rsv1 b : negb (Z.land (byte_val b) wsRSV1 =? 0) = rsv1 b.
Proof. destruct b as [[] [] [] [] [] [] [] []]; reflexivity. Qed.

Lemma land_mask_bit b : negb (Z.land (byte_val b) wsMaskBit =? 0) = (128 <=? byte_val b).
Proof. destruct b as [[] [] [] [] [] [] [] []]; reflexivity. Qed.

(** ** Masking *)

Lemma mask_from_get i j key s c :
  String.get j s = Some c → String.get j (mask_from i key s) = Some (byte_xor c (mask_byte key (i + j))).
Proof.
  revert i j. induction s as [|d s IH]; intros i j; cbn [mask_from String.get]; [done|].
  destruct j as [|j]; [intros [= ->]; by rewrite Nat.add_0_r|].
  intros H. rewrite (IH (S i) j H). do 3 f_equal. lia.
Qed.

Lemma mask_from_xored key s : String.length key = 4%nat → xored key s (mask_from 0 key s).
Proof.
  intros Hk. split_and!; [done|apply mask_from_length|]. intros i c k Hc Hk'.
  eexists. split; [by apply mask_from_get|]. unfold mask_byte. cbn [Nat.add]. rewrite Hk'. cbn [default].
  unfold byte_xor. rewrite byte_val_of. apply Z.mod_small, lxor_byte; apply byte_val_range.
Qed.

Lemma string_get_lt s i c : String.get i s = Some c → (i < String.length s)%nat.
Proof. revert i. induction s as [|d s IH]; intros [|i]; cbn; try done; [lia|]. intros H%IH. lia. Qed.

Lemma xored_sym key a b : xored key a b → xored key b a.
Proof.
  intros (Hk & Hl & H). split_and!; [done..|]. intros i w k Hw Hk'.
  destruct (string_get_Some a i) as [c Hc]; [rewrite <- Hl; by eapply string_get_lt|].
  destruct (H i c k Hc Hk') as (w' & Hw' & Hx). simplify_eq. exists c. split; [done|].
  rewrite Hx, Z.lxor_assoc, Z.lxor_nilpotent. by rewrite Z.lxor_0_r.
Qed.

(** ** Reading *)

(** The two length readers agree, up to the sign of a 64-bit length. *)
Lemma read_length_field len7 s ext plen s' :
  0 <= len7 < 128 → read_length len7 s = Some (ext, plen, s') →
  s = ext +:+ s' ∧ ∃ len, length_field len7 ext len ∧ (plen = len ∨ 2 ^ 63 <= len ∧ plen = len - 2 ^ 64 ∧ plen < 0).
Proof.
  intros Hr. unfold read_length.
  destruct (Z.eqb_spec len7 126) as [->|]; [|destruct (Z.eqb_spec len7 127) as [->|]].
  - destruct (ReadFull 2 s) as [[a b]|] eqn:E; [|done]. intros [= <- <- <-].
    apply ReadFull_Some in E as [-> Hl]. split; [done|]. eexists. split; [by constructor|by left].
  - destruct (ReadFull 8 s) as [[a b]|] eqn:E; [|done]. intros [= <- <- <-].
    apply ReadFull_Some in E as [-> Hl]. split; [done|]. eexists. split; [by constructor|].
    pose proof (be_get_range a) as Hb. rewrite Hl in Hb. change (256 ^ Z.of_nat 8) with (2 ^ 64) in Hb.
    unfold int64_of_uint64. destruct (Z.ltb_spec (be_get a) (2 ^ 63)); [by left|right; lia].
  - intros [= <- <- <-]. split; [done|]. exists len7. split; [constructor; lia|by left].
Qed.

(** What is read is a frame of the standard. *)
Lemma readFrameRaw_is_frame s f rest : readFrameRaw s = Ok (f, rest) →
  s = fr_raw f +:+ rest ∧ is_frame (fr_b0 f) (frame_mask f) (plain_of f) (fr_raw f) ∧
  fr_op f = opcode (fr_b0 f) ∧ fr_compressed f = rsv1 (fr_b0 f) ∧
  Z.of_nat (String.length (plain_of f)) <= 2 ^ 24.
Proof.
  intros H. split; [by apply readFrameRaw_raw in H as [? _]|]. revert H. unfold readFrameRaw. intros H.
  destruct (ReadFull 2 s) as [[[|b0 [|b1 [|? ?]]] s1]|]; try done.
  destruct (read_length _ s1) as [[[ext plen] s2]|] eqn:E1; [|done].
  rewrite land_len7 in E1. apply read_length_field in E1 as (_ & len & Hf & Hlen); [|apply Z.mod_pos_bound; lia].
  destruct (read_mask _ s2) as [[key s3]|] eqn:E2; [|done].
  destruct (_ || _) eqn:Eb; [done|]. bprop.
  destruct (ReadFull _ s3) as [[payload s4]|] eqn:E3; [|done]. injection H as <- <-.
  apply ReadFull_Some in E3 as [_ Hl]. destruct Hlen as [->|[? [? ?]]]; [|lia].
  rewrite land_mask_bit in *. unfold read_mask in E2.
  cbn [fr_b0 fr_op fr_compressed]. rewrite land_opcode, land_rsv1. unfold maxFrame in *.
  assert (Z.of_nat (String.length payload) = len) as Hp by lia.
  assert (Z.of_nat (String.length (plain_of (mkFrame "" b0 (opcode b0) (rsv1 b0) (128 <=? byte_val b1)
    (if 128 <=? byte_val b1 then key else zeroKey) payload))) = len) as Hq.
  { unfold plain_of, unmaskWSPayload. cbn. destruct (negb _); [done|]. by rewrite mask_from_length. }
  unfold plain_of in *. cbn [fr_payload fr_masked fr_maskKey fr_raw] in *. split_and!; try done; [|lia].
  exists b1, ext, payload. unfold frame_mask. cbn [fr_masked fr_maskKey]. rewrite Hq.
  destruct (Z.leb_spec 128 (byte_val b1)) as [Hm|Hm]; cbn [negb unmaskWSPayload default].
  - apply ReadFull_Some in E2 as [_ Hk]. split_and!; [done..|by split; eauto|].
    by apply xored_sym, mask_from_xored.
  - injection E2 as <- <-. split_and!; [done..| |done]. split; [lia|intros []%is_Some_None].
Qed.

(** A stream that starts with a frame never reads as cut short. *)
Lemma is_frame_reads b0 mask plain raw rest : is_frame b0 mask plain raw → readFrameRaw (raw +:+ rest) ≠ Err FrameEOF.
Proof.
  intros (b1 & ext & wire & -> & Hf & Hm & Hw). cbn [String.append]. unfold readFrameRaw.
  pose proof (ReadFull_app (String b0 (String b1 "")) ((ext +:+ (default "" mask +:+ wire)) +:+ rest)) as R.
  cbn [String.append String.length] in R. rewrite R. cbv iota beta. clear R.
  rewrite land_len7, land_mask_bit, !str_app_assoc.
  assert (∃ plen, read_length (byte_val b1 mod 128) (ext +:+ (default "" mask +:+ (wire +:+ rest))) =
     Some (ext, plen, default "" mask +:+ (wire +:+ rest)) ∧
     (plen < 0 ∨ plen = Z.of_nat (String.length plain))) as (plen & -> & Hp).
  { revert Hf. generalize (byte_val b1 mod 128) (Z.of_nat (String.length plain)). intros l7 n [n' Hn|x Hx|x Hx]; unfold read_length.
    - rewrite (proj2 (Z.eqb_neq n' 126)), (proj2 (Z.eqb_neq n' 127)) by lia. eexists. split; [done|]. by right.
    - change (126 =? 126) with true. cbv iota. rewrite <- Hx, ReadFull_app. eexists. split; [done|]. by right.
    - change (127 =? 126) with false. change (127 =? 127) with true. cbv iota. rewrite <- Hx, ReadFull_app.
      eexists. split; [done|]. pose proof (be_get_range x) as Hb. rewrite Hx in Hb.
      change (256 ^ Z.of_nat 8) with (2 ^ 64) in Hb. unfold int64_of_uint64. destruct (Z.ltb_spec (be_get x) (2 ^ 63)); [by right|left; lia]. }
  assert (read_mask (128 <=? byte_val b1) (default "" mask +:+ (wire +:+ rest)) = Some (default "" mask, wire +:+ rest) ∧
    String.length wire = String.length plain) as [-> Hl].
  { unfold read_mask. destruct mask as [key|]; cbn [default] in *.
    - destruct Hw as (Hk & Hl & _). rewrite (proj2 (Z.leb_le _ _)) by (apply Hm; eauto). by rewrite <- Hk, ReadFull_app.
    - subst wire. destruct (Z.leb_spec 128 (byte_val b1)) as [?%Hm|]; [by destruct H|done]. }
  cbv iota beta. destruct (_ || _) eqn:Eb; [done|]. bprop. destruct Hp as [?| ->]; [lia|].
  rewrite Nat2Z.id, <- Hl, ReadFull_app. done.
Qed.

(** A frame refused for its size announces more than 16 MiB. *)
Lemma too_large_announces s n : readFrameRaw s = Err (FrameTooLarge n) → ∃ len, announces s len ∧ 2 ^ 24 < len.
Proof.
  unfold readFrameRaw. intros H.
  destruct (ReadFull 2 s) as [[[|b0 [|b1 [|? ?]]] s1]|] eqn:E0; try done. apply ReadFull_Some in E0 as [-> _].
  destruct (read_length _ s1) as [[[ext plen] s2]|] eqn:E1; [|done].
  rewrite land_len7 in E1. apply read_length_field in E1 as (-> & len & Hf & Hlen); [|apply Z.mod_pos_bound; lia].
  destruct (read_mask _ s2) as [[key s3]|]; [|done].
  assert (2 ^ 24 < len ∨ (plen <? 0) || (maxFrame <? plen) = false) as [?|Eb].
  { unfold maxFrame. destruct (Z.ltb_spec plen 0), (Z.ltb_spec (2 ^ 24) plen); cbn; auto; left; destruct Hlen as [->|?]; try lia.
    inversion Hf; subst; try lia. all: pose proof (be_get_range ext); lia. }
  - exists len. split; [|done]. by exists b0, b1, ext, s2.
  - rewrite Eb in H. destruct (ReadFull _ s3) as [[? ?]|]; done.
Qed.

(** ** Building *)

(** What is built is a frame of the standard, its length in the shortest form. *)
Lemma buildFrameRaw_is_frame f payload :
  String.length (fr_maskKey f) = 4%nat → Z.of_nat (String.length payload) < 2 ^ 63 →
  is_frame (fr_b0 f) (frame_mask f) payload (buildFrameRaw (fr_b0 f) (fr_masked f) (fr_maskKey f) payload) ∧
  String.length (buildFrameRaw (fr_b0 f) (fr_masked f) (fr_maskKey f) payload) = shortest_size (frame_mask f) payload.
Proof.
  intros Hk Hn. unfold buildFrameRaw, frame_mask. generalize (fr_masked f). intros m.
  set (n := Z.of_nat (String.length payload)) in *.
  set (wire := if m then mask_from 0 (fr_maskKey f) payload else payload).
  assert ((if m then fr_maskKey f +:+ mask_from 0 (fr_maskKey f) payload else payload) =
    default "" (if m then Some (fr_maskKey f) else None) +:+ wire) as -> by (unfold wire; by destruct m).
  assert (String.length wire = String.length payload) as Hw by (unfold wire; destruct m; [apply mask_from_length|done]).
  destruct (read_length_built m n _ "" ltac:(lia) eq_refl) as (b1 & bs & Hb & Hm & Hl).
  rewrite land_len7 in Hl. rewrite land_mask_bit in Hm.
  apply read_length_field in Hl as (_ & len & Hf & Hlen); [|apply Z.mod_pos_bound; lia].
  destruct Hlen as [<-|[? [? ?]]]; [|lia].
  assert (String.length bs = (if (n <? 126)%Z then 0 else if (n <? 65536)%Z then 2 else 8)%nat) as Hbs.
  { revert Hb. unfold frame_length_bytes. replace (n <=? 65535) with (n <? 65536).
    - repeat case_match; intros [= _ <-]; reflexivity.
    - destruct (Z.ltb_spec n 65536), (Z.leb_spec n 65535); done || lia. }
  rewrite Hb. split.
  - exists b1, bs, wire. split_and!; [by cbn [String.append]|done| |].
    + rewrite <- Z.leb_le, Hm. destruct m; split; (done || eauto).
    + unfold wire. destruct m; [by apply mask_from_xored|done].
  - unfold shortest_size. fold n. cbn [String.append String.length]. rewrite !str_length_app, Hw, Hbs.
    replace (String.length payload <? 126)%nat with (n <? 126); [lia|].
    unfold n. destruct (Z.ltb_spec (Z.of_nat (String.length payload)) 126), (Nat.ltb_spec (String.length payload) 126); done || lia.
Qed.
