(* ===== verification/Sni.v ===== *)
(** * The server name of a TLS ClientHello: [peekSNI] of [cmd/clawpatrol/main.go]

    The gateway reads the first TLS record of a connection, finds the host name
    it is meant for and replays the bytes it has read. Indexing and slicing are
    bounds-checked operations, so that a hello that makes the parser index out
    of range shows as [Panic]. *)
From S2P Require Import Prelude GoStrings Wire.

Inductive SniError :=
| SniRead
| NotTLS
| BadRecordLength
| NotClientHello
| TruncatedHello
| TruncatedSid
| TruncatedCs
| TruncatedCm
| TruncatedExt
| TruncatedExtBody
| BadSni
| TruncatedSniName
| NoSNI.

(** [(name, buf, err)], and what is left unread on the connection. *)
Record Peek := mkPeek {
  pk_name : result string SniError;
  pk_buf : string;
  pk_rest : string
}.

(** The body of a [server_name] extension. *)
Definition sni_name (body : string) : checked (result string SniError) :=
  if (String.length body <? 5)%nat then Done (Err BadSni)
  else
    let* n := u16_at body 3 in
    if (Z.of_nat (String.length body) <? 5 + n) then Done (Err TruncatedSniName)
    else
      let* tail := slice_from body 5 in
      let* name := slice_to tail (Z.to_nat n) in
      Done (Ok name).

Fixpoint ext_loop (fuel : nat) (exts : string) : checked (result string SniError) :=
  match fuel with
  | O => Panic
  | S fuel' =>
      if (String.length exts <? 4)%nat then Done (Err NoSNI)
      else
        let* t := u16_at exts 0 in
        let* l := u16_at exts 2 in
        let* exts := slice_from exts 4 in
        if (Z.of_nat (String.length exts) <? l) then Done (Err TruncatedExtBody)
        else if t =? 0 then let* body := slice_to exts (Z.to_nat l) in sni_name body
        else let* exts := slice_from exts (Z.to_nat l) in ext_loop fuel' exts
  end.

(** A vector with a one- or two-byte length is skipped; [k] more bytes must follow it. *)
Definition skip8 (p : string) (k : nat) (e : SniError) (cont : string -> checked (result string SniError))
    : checked (result string SniError) :=
  let* n := at_index p 0 in
  let* p := slice_from p 1 in
  if (Z.of_nat (String.length p) <? byte_val n + Z.of_nat k) then Done (Err e)
  else let* p := slice_from p (Z.to_nat (byte_val n)) in cont p.

Definition skip16 (p : string) (k : nat) (e : SniError) (cont : string -> checked (result string SniError))
    : checked (result string SniError) :=
  let* n := u16_at p 0 in
  let* p := slice_from p 2 in
  if (Z.of_nat (String.length p) <? n + Z.of_nat k) then Done (Err e)
  else let* p := slice_from p (Z.to_nat n) in cont p.

Definition parse_exts (p : string) : checked (result string SniError) :=
  let* extLen := u16_at p 0 in
  let* p := slice_from p 2 in
  if (Z.of_nat (String.length p) <? extLen) then Done (Err TruncatedExt)
  else let* exts := slice_to p (Z.to_nat extLen) in ext_loop (S (String.length exts)) exts.

Definition parse_hello (rec : string) : checked (result string SniError) :=
  if (String.length rec <? 38)%nat then Done (Err NotClientHello)
  else
    let* h := at_index rec 0 in
    if negb (byte_val h =? 1) then Done (Err NotClientHello)
    else
      let* p := slice_from rec 38 in
      if (String.length p <? 1)%nat then Done (Err TruncatedHello)
      else skip8 p 2 TruncatedSid (λ p, skip16 p 1 TruncatedCs (λ p, skip8 p 2 TruncatedCm parse_exts)).

Definition peekSNI (s : string) : checked Peek :=
  match ReadFull 5 s with
  | None => Done (mkPeek (Err SniRead) "" "")
  | Some (hdr, s1) =>
      let* h0 := at_index hdr 0 in
      if negb (byte_val h0 =? 22) then Done (mkPeek (Err NotTLS) hdr s1)
      else
        let* recLen := u16_at hdr 3 in
        if (recLen <? 42) || (16384 <? recLen) then Done (mkPeek (Err BadRecordLength) hdr s1)
        else match ReadFull (Z.to_nat recLen) s1 with
             | None => Done (mkPeek (Err SniRead) "" "")
             | Some (rec, s2) =>
                 let* r := parse_hello rec in
                 Done (mkPeek r (hdr +:+ rec) s2)
             end
  end.

(** ** No input makes the parser panic *)

Lemma sni_name_Done body : ∃ r, sni_name body = Done r.
Proof.
  unfold sni_name. destruct (_ <? _)%nat eqn:E; [eauto|]. bprop.
  destruct (u16_at_Done body 3) as (n & -> & Hn); [lia|].
  destruct (_ <? _) eqn:E2; [eauto|]. bprop.
  rewrite slice_from_Done by lia. rewrite slice_to_Done by (rewrite str_length_drop; lia). eauto.
Qed.

Lemma ext_loop_Done fuel exts : (String.length exts < fuel)%nat → ∃ r, ext_loop fuel exts = Done r.
Proof.
  revert exts. induction fuel as [|fuel IH]; intros exts Hf; [lia|]. cbn [ext_loop].
  destruct (_ <? _)%nat eqn:E; [eauto|]. bprop.
  destruct (u16_at_Done exts 0) as (t & -> & Ht); [lia|]. destruct (u16_at_Done exts 2) as (l & -> & Hl); [lia|].
  rewrite slice_from_Done by lia. rewrite str_length_drop.
  destruct (_ <? _) eqn:E2; [eauto|]. bprop. destruct (t =? 0).
  - rewrite slice_to_Done by (rewrite str_length_drop; lia). apply sni_name_Done.
  - rewrite slice_from_Done by (rewrite str_length_drop; lia). apply IH. rewrite !str_length_drop. lia.
Qed.

Lemma skip8_Done p k e cont :
  (1 <= String.length p)%nat → (∀ q, (k <= String.length q)%nat → ∃ r, cont q = Done r) → ∃ r, skip8 p k e cont = Done r.
Proof.
  intros Hp Hc. unfold skip8. destruct (at_index_Done p 0) as [n ->]; [lia|]. pose proof (byte_val_range n).
  rewrite slice_from_Done by lia. destruct (_ <? _) eqn:E; [eauto|]. bprop. rewrite str_length_drop in E.
  rewrite slice_from_Done by (rewrite str_length_drop; lia). apply Hc. rewrite !str_length_drop. lia.
Qed.

Lemma skip16_Done p k e cont :
  (2 <= String.length p)%nat → (∀ q, (k <= String.length q)%nat → ∃ r, cont q = Done r) → ∃ r, skip16 p k e cont = Done r.
Proof.
  intros Hp Hc. unfold skip16. destruct (u16_at_Done p 0) as (n & -> & Hn); [lia|].
  rewrite slice_from_Done by lia. destruct (_ <? _) eqn:E; [eauto|]. bprop. rewrite str_length_drop in E.
  rewrite slice_from_Done by (rewrite str_length_drop; lia). apply Hc. rewrite !str_length_drop. lia.
Qed.

Lemma parse_exts_Done p : (2 <= String.length p)%nat → ∃ r, parse_exts p = Done r.
Proof.
  intros Hp. unfold parse_exts. destruct (u16_at_Done p 0) as (n & -> & Hn); [lia|].
  rewrite slice_from_Done by lia. destruct (_ <? _) eqn:E; [eauto|]. bprop.
  rewrite slice_to_Done by lia. apply ext_loop_Done. lia.
Qed.

Lemma parse_hello_Done rec : ∃ r, parse_hello rec = Done r.
Proof.
  unfold parse_hello. destruct (_ <? _)%nat eqn:E; [eauto|]. bprop.
  destruct (at_index_Done rec 0) as [h ->]; [lia|]. destruct (negb _); [eauto|].
  rewrite slice_from_Done by lia. destruct (_ <? _)%nat eqn:E2; [eauto|]. bprop.
  apply skip8_Done; [lia|]. intros q Hq. apply skip16_Done; [done|]. intros q' Hq'.
  apply skip8_Done; [done|]. intros q'' Hq''. by apply parse_exts_Done.
Qed.

(** ** A hello with a server name *)

Record Hello := mkHello {
  h_version : string;
  h_random : string;
  h_handshake : string;
  h_sid : string;
  h_ciphers : string;
  h_compression : string;
  h_exts_before : list (Z * string);
  h_host : string;
  h_exts_after : list (Z * string)
}.

Definition render_ext (te : Z * string) : string :=
  be_put 2 te.1 +:+ (be_put 2 (Z.of_nat (String.length te.2)) +:+ te.2).

Definition render_sni (host : string) : string :=
  let n := Z.of_nat (String.length host) in
  render_ext (0, be_put 2 (n + 3) +:+ (String (byte_of 0) (be_put 2 n) +:+ host)).

Fixpoint render_exts (l : list (Z * string)) : string :=
  match l with [] => "" | te :: l' => render_ext te +:+ render_exts l' end.

Definition vec8 (s : string) : string := String (byte_of (Z.of_nat (String.length s))) s.
Definition vec16 (s : string) : string := be_put 2 (Z.of_nat (String.length s)) +:+ s.

(** The handshake message: type 1, three length bytes, version, random, the
    session id, the cipher suites, the compression methods, the extensions. *)
Definition render_hello (h : Hello) : string :=
  String (byte_of 1) (h_handshake h +:+ (h_version h +:+ (h_random h +:+
    (vec8 (h_sid h) +:+ (vec16 (h_ciphers h) +:+ (vec8 (h_compression h) +:+
      vec16 (render_exts (h_exts_before h) +:+ (render_sni (h_host h) +:+ render_exts (h_exts_after h))))))))).

(** The record around it. *)
Definition render_record (version : string) (h : Hello) : string :=
  String (byte_of 22) (version +:+ vec16 (render_hello h)).

(** Field widths of the protocol, and a host name that fits. *)
Definition hello_ok (h : Hello) : Prop :=
  String.length (h_handshake h) = 3%nat ∧ String.length (h_version h) = 2%nat ∧ String.length (h_random h) = 32%nat ∧
  (String.length (h_sid h) < 256)%nat ∧ Z.of_nat (String.length (h_ciphers h)) < 65536 ∧
  (String.length (h_compression h) < 256)%nat ∧
  Forall (λ te, 0 < te.1 < 65536 ∧ Z.of_nat (String.length te.2) < 65536) (h_exts_before h) ∧
  42 <= Z.of_nat (String.length (render_hello h)) <= 16384.

Lemma skip8_vec v q k e cont : (String.length v < 256)%nat → (k <= String.length q)%nat → skip8 (vec8 v +:+ q) k e cont = cont q.
Proof.
  intros Hv Hk. unfold skip8, vec8. cbn [String.append at_index String.get]. rewrite byte_val_of, Z.mod_small by lia.
  rewrite slice_from_Done by (cbn [String.length]; lia). cbn [str_drop].
  rewrite str_length_app, (proj2 (Z.ltb_ge _ _)) by lia. rewrite Nat2Z.id, slice_from_Done by (rewrite str_length_app; lia).
  by rewrite str_drop_app.
Qed.

Lemma skip16_vec v q k e cont :
  Z.of_nat (String.length v) < 65536 → (k <= String.length q)%nat → skip16 (vec16 v +:+ q) k e cont = cont q.
Proof.
  intros Hv Hk. unfold skip16, vec16. rewrite str_app_assoc, u16_at_be by lia.
  rewrite slice_from_Done by (rewrite str_length_app, be_put_length; lia).
  rewrite (str_drop_app (be_put 2 _)). rewrite str_length_app, (proj2 (Z.ltb_ge _ _)) by lia.
  rewrite Nat2Z.id, slice_from_Done by (rewrite str_length_app; lia). by rewrite str_drop_app.
Qed.

Lemma u16_at_app a v s : 0 <= v < 65536 → u16_at (a +:+ (be_put 2 v +:+ s)) (String.length a) = Done v.
Proof.
  intros Hv. induction a as [|c a IH]; [by apply u16_at_be|].
  unfold u16_at, at_index in *. cbn [String.append String.length String.get]. exact IH.
Qed.

(** One extension at the head of the list. *)
Lemma ext_loop_cons fuel t body q :
  0 <= t < 65536 → Z.of_nat (String.length body) < 65536 →
  ext_loop (S fuel) (render_ext (t, body) +:+ q) = if t =? 0 then sni_name body else ext_loop fuel q.
Proof.
  intros Ht Hb. cbn [ext_loop]. unfold render_ext. cbn [fst snd]. rewrite !str_app_assoc.
  set (n := Z.of_nat (String.length body)) in *.
  rewrite (proj2 (Nat.ltb_ge _ _)) by (rewrite !str_length_app, !be_put_length; lia).
  rewrite u16_at_be by done.
  pose proof (u16_at_app (be_put 2 t) n (body +:+ q) ltac:(lia)) as R. rewrite be_put_length in R. rewrite R.
  rewrite slice_from_Done by (rewrite !str_length_app, !be_put_length; lia).
  assert (str_drop 4 (be_put 2 t +:+ (be_put 2 n +:+ (body +:+ q))) = body +:+ q) as -> by done.
  rewrite str_length_app, (proj2 (Z.ltb_ge _ _)) by lia. unfold n. rewrite Nat2Z.id.
  destruct (t =? 0).
  - rewrite slice_to_Done by (rewrite str_length_app; lia). by rewrite str_take_app.
  - rewrite slice_from_Done by (rewrite str_length_app; lia). by rewrite str_drop_app.
Qed.

Lemma ext_loop_skip fuel l q :
  Forall (λ te, 0 < te.1 < 65536 ∧ Z.of_nat (String.length te.2) < 65536) l →
  ext_loop (length l + fuel) (render_exts l +:+ q) = ext_loop fuel q.
Proof.
  intros Hl. induction Hl as [|[t b] l [Ht Hb] _ IH]; [done|]. cbn [render_exts length Nat.add fst snd] in *.
  rewrite str_app_assoc, ext_loop_cons by lia. rewrite (proj2 (Z.eqb_neq t 0)) by lia. apply IH.
Qed.

Lemma render_exts_length l : (length l <= String.length (render_exts l))%nat.
Proof.
  induction l as [|te l IH]; cbn [render_exts length]; [lia|].
  unfold render_ext. rewrite !str_length_app, !be_put_length. lia.
Qed.

Lemma sni_name_rendered host :
  Z.of_nat (String.length host) < 65536 →
  sni_name (be_put 2 (Z.of_nat (String.length host) + 3) +:+
    (String (byte_of 0) (be_put 2 (Z.of_nat (String.length host))) +:+ host)) = Done (Ok host).
Proof.
  intros Hh. set (n := Z.of_nat (String.length host)) in *.
  set (body := be_put 2 (n + 3) +:+ (String (byte_of 0) (be_put 2 n) +:+ host)).
  assert (String.length body = 5 + String.length host)%nat as Hlen by done.
  unfold sni_name. rewrite Hlen, (proj2 (Nat.ltb_ge _ _)) by lia.
  pose proof (u16_at_app (be_put 2 (n + 3) +:+ String (byte_of 0) "") n host ltac:(lia)) as R.
  change (u16_at body 3 = Done n) in R. rewrite R.
  rewrite (proj2 (Z.ltb_ge _ _)) by (unfold n; lia). rewrite slice_from_Done by lia.
  change (str_drop 5 body) with host. unfold n. rewrite Nat2Z.id, slice_to_Done by lia. by rewrite str_take_all.
Qed.

Lemma render_sni_length host : String.length (render_sni host) = (9 + String.length host)%nat.
Proof. reflexivity. Qed.

Lemma parse_exts_rendered before host after :
  Forall (λ te, 0 < te.1 < 65536 ∧ Z.of_nat (String.length te.2) < 65536) before →
  Z.of_nat (String.length (render_exts before +:+ (render_sni host +:+ render_exts after))) < 65536 →
  parse_exts (vec16 (render_exts before +:+ (render_sni host +:+ render_exts after))) = Done (Ok host).
Proof.
  intros Hb Hlen. unfold parse_exts, vec16. rewrite u16_at_be by lia.
  rewrite slice_from_Done by (rewrite str_length_app, be_put_length; lia). rewrite (str_drop_app (be_put 2 _)).
  rewrite (proj2 (Z.ltb_ge _ _)), Nat2Z.id, slice_to_Done, str_take_all by lia.
  set (exts := render_exts before +:+ (render_sni host +:+ render_exts after)) in *.
  assert (length before + 2 <= S (String.length exts))%nat as Hf.
  { unfold exts. rewrite !str_length_app. pose proof (render_exts_length before).
    rewrite render_sni_length. lia. }
  replace (S (String.length exts)) with (length before + S (S (String.length exts) - length before - 1))%nat by lia.
  unfold exts. rewrite ext_loop_skip by done.
  assert (Z.of_nat (String.length host) + 9 < 65536) as Hh.
  { revert Hlen. unfold exts. rewrite !str_length_app, render_sni_length. lia. }
  unfold render_sni. rewrite ext_loop_cons.
  - cbn [Z.eqb]. apply sni_name_rendered. lia.
  - lia.
  - rewrite !str_length_app, be_put_length. cbn [String.length]. rewrite be_put_length. lia.
Qed.

Lemma parse_hello_rendered h : hello_ok h → parse_hello (render_hello h) = Done (Ok (h_host h)).
Proof.
  intros (H1 & H2 & H3 & H4 & H5 & H6 & H7 & H8). unfold parse_hello.
  rewrite (proj2 (Nat.ltb_ge _ _)) by lia.
  assert (at_index (render_hello h) 0 = Done (byte_of 1)) as -> by done.
  rewrite byte_val_of. change (negb (1 mod 256 =? 1)) with false. cbv iota.
  rewrite slice_from_Done by lia.
  set (tail := vec8 (h_sid h) +:+ (vec16 (h_ciphers h) +:+ (vec8 (h_compression h) +:+
      vec16 (render_exts (h_exts_before h) +:+ (render_sni (h_host h) +:+ render_exts (h_exts_after h)))))).
  assert (str_drop 38 (render_hello h) = tail) as ->.
  { unfold render_hello. fold tail.
    replace (String _ _) with ((String (byte_of 1) (h_handshake h) +:+ (h_version h +:+ h_random h)) +:+ tail)
      by (cbn [String.append]; by rewrite !str_app_assoc).
    assert (String.length (String (byte_of 1) (h_handshake h) +:+ (h_version h +:+ h_random h)) = 38)%nat as <-.
    { rewrite !str_length_app. cbn [String.length]. lia. }
    apply str_drop_app. }
  assert (1 <= String.length tail)%nat by (unfold tail, vec8; rewrite !str_length_app; cbn [String.length]; lia).
  rewrite (proj2 (Nat.ltb_ge _ _)) by lia. unfold tail.
  assert (Z.of_nat (String.length (render_exts (h_exts_before h) +:+ (render_sni (h_host h) +:+ render_exts (h_exts_after h)))) < 65536).
  { revert H8. unfold render_hello, vec16, vec8. cbn [String.length]. rewrite !str_length_app. cbn [String.length].
    rewrite ?str_length_app, ?be_put_length. lia. }
  rewrite skip8_vec; [|done|unfold vec16, vec8; rewrite !str_length_app, !be_put_length; lia].
  rewrite skip16_vec; [|done|unfold vec16, vec8; rewrite !str_length_app; cbn [String.length]; lia].
  rewrite skip8_vec; [|done|unfold vec16; rewrite !str_length_app, !be_put_length; lia].
  by apply parse_exts_rendered.
Qed.

(** ** The theorems *)

(** C38. Whatever bytes arrive, the parser returns: no index is out of range. Unless
    the stream ended early, the bytes it has read followed by the unread ones
    are the stream, so that the connection can be replayed. *)
Theorem sni_peek_safe s :
  ∃ pk, peekSNI s = Done pk ∧ (pk_name pk ≠ Err SniRead → s = pk_buf pk +:+ pk_rest pk).
Proof.
  unfold peekSNI. destruct (ReadFull 5 s) as [[hdr s1]|] eqn:E1; [|eexists; by split].
  apply ReadFull_Some in E1 as [-> Hlen].
  destruct (at_index_Done hdr 0) as [h0 ->]; [lia|]. destruct (negb _); [eexists; by split|].
  destruct (u16_at_Done hdr 3) as (n & -> & Hn); [lia|]. destruct (_ || _); [eexists; by split|].
  destruct (ReadFull _ s1) as [[rec s2]|] eqn:E2; [|eexists; by split]. apply ReadFull_Some in E2 as [-> _].
  destruct (parse_hello_Done rec) as [r ->]. eexists. split; [done|]. intros _. cbn. by rewrite str_app_assoc.
Qed.

(** The host name of a well-formed ClientHello is the one found, wherever its
    extension stands among the others, and exactly the record is consumed. *)
Theorem sni_of_hello v h rest :
  String.length v = 2%nat → hello_ok h →
  peekSNI (render_record v h +:+ rest) = Done (mkPeek (Ok (h_host h)) (render_record v h) rest).
Proof.
  intros Hv Hok. pose proof Hok as (_ & _ & _ & _ & _ & _ & _ & Hn). set (n := Z.of_nat (String.length (render_hello h))) in *.
  set (hdr := String (byte_of 22) (v +:+ be_put 2 n)).
  assert (render_record v h = hdr +:+ render_hello h) as ->.
  { unfold render_record, hdr, vec16. cbn [String.append]. by rewrite str_app_assoc. }
  assert (String.length hdr = 5%nat) as Hh by (unfold hdr; cbn [String.length]; rewrite str_length_app, be_put_length; lia).
  unfold peekSNI. rewrite str_app_assoc.
  pose proof (ReadFull_app hdr (render_hello h +:+ rest)) as R. rewrite Hh in R. rewrite R.
  assert (at_index hdr 0 = Done (byte_of 22)) as -> by done. rewrite byte_val_of. change (negb (22 mod 256 =? 22)) with false.
  cbv iota.
  pose proof (u16_at_app (String (byte_of 22) v) n "" ltac:(lia)) as R2. cbn [String.length] in R2. rewrite Hv, str_app_nil_r in R2.
  cbn [String.append] in R2. fold hdr in R2. rewrite R2.
  rewrite (proj2 (Z.ltb_ge n 42)), (proj2 (Z.ltb_ge 16384 n)) by lia. cbn [orb].
  unfold n. rewrite Nat2Z.id, ReadFull_app, parse_hello_rendered by done. done.
Qed.

Definition sample_hello : Hello :=
  mkHello (be_put 2 771) (be_put 32 7) (be_put 3 90) (be_put 4 1) (be_put 4 4865) (be_put 1 0)
    [(43, be_put 3 2)] "db.example.com" [(10, "ab")].

Lemma sni_of_hello_witness :
  hello_ok sample_hello ∧
  peekSNI (render_record (be_put 2 769) sample_hello +:+ "later") =
  Done (mkPeek (Ok "db.example.com") (render_record (be_put 2 769) sample_hello) "later").
Proof.
  assert (hello_ok sample_hello) as Hok.
  { unfold hello_ok. split_and!; try (vm_compute; congruence); try (cbn; lia).
    repeat constructor; cbn; lia. }
  split; [done|]. apply (sni_of_hello (be_put 2 769) sample_hello "later"); [done|exact Hok].
Defined.
