(* ===== verification/Sanitize.v ===== *)
(** * Response headers kept from the agent: [cmd/clawpatrol/response_sanitize.go]

    Credential-bearing response headers and [Alt-Svc] are removed before a
    response reaches the agent: from the parsed header map, and byte for byte
    from the raw header block of a WebSocket handshake. *)
From S2P Require Import Prelude GoStrings NetAddr GoUrl GoHttp.

(** ** Parsed headers *)

Definition authResponseHeaders : list string :=
  ["Set-Cookie"; "Set-Cookie2"; "WWW-Authenticate"; "Proxy-Authenticate"; "Authentication-Info";
   "Proxy-Authentication-Info"].

Definition altSvcHeader : string := "Alt-Svc".

Definition isAuthResponseHeader (name : string) : bool := existsb (EqualFold name) authResponseHeaders.

Definition stripAltSvc (h : Header) : Header := header_Del h altSvcHeader.

Definition stripAuthResponseHeaders (h : Header) : Header := foldl header_Del h authResponseHeaders.

(** [strings.IndexAny] for a space or a tab. *)
Fixpoint index_blank (s : string) : option nat :=
  match s with
  | EmptyString => None
  | String c rest => if Ascii.eqb c " " || Ascii.eqb c (ascii_of_nat 9) then Some O else S <$> index_blank rest
  end.

Definition splitAuthChallenge (challenge : string) : option (string * string) :=
  let challenge := TrimSpace challenge in
  if String.eqb challenge "" then None
  else
    let '(scheme, params) :=
      match index_blank challenge with
      | Some i => (str_take i challenge, TrimSpace (str_drop (S i) challenge))
      | None => (challenge, "")
      end in
    if String.eqb scheme "" || ContainsByte scheme "," then None else Some (scheme, params).

(** The parts between commas that are not inside a quoted string; [cur] is the
    part being read. *)
Fixpoint comma_parts (s cur : string) (inQuote escaped : bool) : list string :=
  match s with
  | EmptyString => [cur]
  | String c rest =>
      let cur' := cur +:+ String c "" in
      if escaped then comma_parts rest cur' inQuote false
      else if inQuote && Ascii.eqb c backslash then comma_parts rest cur' inQuote true
      else if Ascii.eqb c quote_byte then comma_parts rest cur' (negb inQuote) false
      else if Ascii.eqb c "," && negb inQuote then cur :: comma_parts rest "" inQuote false
      else comma_parts rest cur' inQuote false
  end.

Definition commaPartsOutsideQuotes (s : string) : list string := comma_parts s "" false false.

Definition authParamsAsMediaType (scheme params : string) : option string :=
  let parts := TrimSpace <$> commaPartsOutsideQuotes params in
  if existsb (String.eqb "") parts then None
  else Some (scheme +:+ foldr (λ p acc, "; " +:+ (p +:+ acc)) "" parts).

Definition isBasicAuthenticateChallenge (challenge : string) : bool :=
  match splitAuthChallenge challenge with
  | None => false
  | Some (scheme, params) =>
      if negb (EqualFold scheme "Basic") || String.eqb (TrimSpace params) "" then false
      else match authParamsAsMediaType scheme params with
           | None => false
           | Some mediaValue =>
               match ParseMediaType mediaValue with
               | None => false
               | Some m => EqualFold (mt_Type m) "Basic" && bool_decide (is_Some (media_Param m "realm"))
               end
           end
  end.

Definition stripAuthResponseHeadersPreservingBasicChallenge (h : Header) : Header :=
  let challenges := header_Values h "WWW-Authenticate" in
  foldl (λ h c, if isBasicAuthenticateChallenge c then header_Add h "WWW-Authenticate" c else h)
    (stripAuthResponseHeaders h) challenges.

(** ** Raw header blocks *)

Definition crlf : string := String (ascii_of_nat 13) (String (ascii_of_nat 10) "").

(** [bytes.Split] at CRLF. *)
Fixpoint split_crlf (s : string) : list string :=
  match s with
  | EmptyString => [""]
  | String c rest =>
      match rest with
      | String d rest' =>
          if Ascii.eqb c (ascii_of_nat 13) && Ascii.eqb d (ascii_of_nat 10) then "" :: split_crlf rest'
          else match split_crlf rest with h :: t => String c h :: t | [] => [String c ""] end
      | EmptyString => [String c ""]
      end
  end.

Definition is_continuation (line : string) : bool :=
  match line with String c _ => Ascii.eqb c " " || Ascii.eqb c (ascii_of_nat 9) | EmptyString => false end.

(** Whether the line starts a header that is dropped. *)
Definition drops (line : string) : bool :=
  match IndexByte line ":" with
  | Some c => let name := TrimSpace (str_take c line) in isAuthResponseHeader name || EqualFold name altSvcHeader
  | None => false
  end.

(** The lines after the first. *)
Fixpoint keep_lines (lines : list string) (droppingFold : bool) : list string :=
  match lines with
  | [] => []
  | line :: rest =>
      if is_continuation line then
        if droppingFold then keep_lines rest droppingFold else line :: keep_lines rest droppingFold
      else if drops line then keep_lines rest true
      else line :: keep_lines rest false
  end.

Definition stripAuthResponseHeadersRaw (headerBytes : string) : string :=
  if negb (HasSuffix headerBytes (crlf +:+ crlf)) then headerBytes
  else
    let body := TrimSuffix headerBytes (crlf +:+ crlf) in
    let kept := match split_crlf body with [] => [] | first :: rest => first :: keep_lines rest false end in
    Join kept crlf +:+ (crlf +:+ crlf).

Example raw_strips :
  stripAuthResponseHeadersRaw ("HTTP/1.1 101 S" +:+ crlf +:+ "set-cookie : a=b" +:+ crlf +:+ "  c=d" +:+ crlf +:+
    "Upgrade: websocket" +:+ crlf +:+ crlf) =
  "HTTP/1.1 101 S" +:+ crlf +:+ "Upgrade: websocket" +:+ crlf +:+ crlf.
Proof. vm_compute. reflexivity. Qed.

Example basic_challenge :
  isBasicAuthenticateChallenge ("Basic realm=" +:+ String quote_byte ("git, hub" +:+ String quote_byte "")) = true ∧
  isBasicAuthenticateChallenge "Bearer realm=x" = false ∧ isBasicAuthenticateChallenge "Basic" = false ∧
  isBasicAuthenticateChallenge "Basic realm=x, token68=" = false.
Proof. vm_compute. done. Qed.

(** ** What reaches the agent: parsed headers *)

Lemma header_Values_foldl_Del l h n :
  header_Values (foldl header_Del h l) n =
  if decide (CanonicalMIMEHeaderKey n ∈ CanonicalMIMEHeaderKey <$> l) then [] else header_Values h n.
Proof.
  revert h. induction l as [|x l IH]; intros h; cbn [foldl fmap list_fmap]; [by rewrite decide_False by set_solver|].
  rewrite IH, header_Values_Del. repeat case_decide; set_solver.
Qed.

Lemma header_Values_add_all l h n :
  header_Values (foldl (λ h c, if isBasicAuthenticateChallenge c then header_Add h "WWW-Authenticate" c else h) h l) n =
  if decide (CanonicalMIMEHeaderKey "WWW-Authenticate" = CanonicalMIMEHeaderKey n)
  then header_Values h n ++ List.filter isBasicAuthenticateChallenge l else header_Values h n.
Proof.
  revert h. induction l as [|c l IH]; intros h; cbn [foldl List.filter]; [case_decide; [by rewrite app_nil_r|done]|].
  rewrite IH. destruct (isBasicAuthenticateChallenge c); [|done].
  rewrite header_Values_Add. case_decide; [by rewrite <- app_assoc|done].
Qed.

Definition is_stripped (n : string) : bool :=
  bool_decide (CanonicalMIMEHeaderKey n ∈ CanonicalMIMEHeaderKey <$> authResponseHeaders).

(** Of an upstream response the agent sees, under every name: nothing of the
    credential-bearing headers except [WWW-Authenticate] values that are Basic
    challenges, in their order; and every other header unchanged. *)
Theorem sanitized_values h n :
  header_Values (stripAuthResponseHeadersPreservingBasicChallenge h) n =
  if decide (CanonicalMIMEHeaderKey "WWW-Authenticate" = CanonicalMIMEHeaderKey n)
  then List.filter isBasicAuthenticateChallenge (header_Values h "WWW-Authenticate")
  else if is_stripped n then [] else header_Values h n.
Proof.
  unfold stripAuthResponseHeadersPreservingBasicChallenge, stripAuthResponseHeaders, is_stripped.
  rewrite header_Values_add_all, header_Values_foldl_Del. case_decide as E.
  - rewrite decide_True; [done|]. rewrite <- E. apply list_elem_of_fmap. exists "WWW-Authenticate". split; [done|].
    apply list_elem_of_In. cbn. auto.
  - by case_bool_decide; case_decide.
Qed.

(** ** What reaches the agent: raw blocks *)

(** A header as it stands in a raw block: its line and the continuation lines
    folded into it. *)
Record RawHeader := mkRaw { rh_line : string; rh_folds : list string }.

Definition raw_lines (hs : list RawHeader) : list string := hs ≫= λ h, rh_line h :: rh_folds h.

Definition raw_block (status : string) (hs : list RawHeader) : string :=
  Join (status :: raw_lines hs) crlf +:+ (crlf +:+ crlf).

(** No carriage return inside a line. *)
Definition no_cr (s : string) : bool := no_byte (ascii_of_nat 13) s.

Definition raw_ok (h : RawHeader) : Prop :=
  no_cr (rh_line h) = true ∧ is_continuation (rh_line h) = false ∧
  Forall (λ f, no_cr f = true ∧ is_continuation f = true) (rh_folds h).

Lemma split_crlf_line a s : no_cr a = true → split_crlf (a +:+ (crlf +:+ s)) = a :: split_crlf s.
Proof.
  unfold no_cr, no_byte. induction a as [|c a IH]; [done|]. cbn [str_forall String.append].
  intros [Hc Ha]%andb_true_iff. specialize (IH Ha).
  change (split_crlf (String c (a +:+ (crlf +:+ s)))) with
    (match a +:+ (crlf +:+ s) with
     | String d rest' =>
         if Ascii.eqb c (ascii_of_nat 13) && Ascii.eqb d (ascii_of_nat 10) then "" :: split_crlf rest'
         else match split_crlf (a +:+ (crlf +:+ s)) with h :: t => String c h :: t | [] => [String c ""] end
     | EmptyString => [String c ""]
     end).
  apply negb_true_iff in Hc. rewrite Hc, IH. by destruct a.
Qed.

Lemma split_crlf_last a : no_cr a = true → split_crlf a = [a].
Proof.
  unfold no_cr, no_byte. induction a as [|c a IH]; [done|]. cbn [str_forall].
  intros [Hc%negb_true_iff Ha]%andb_true_iff. specialize (IH Ha). destruct a as [|d a]; [done|].
  change (split_crlf (String c (String d a))) with
    (if Ascii.eqb c (ascii_of_nat 13) && Ascii.eqb d (ascii_of_nat 10) then "" :: split_crlf a
     else match split_crlf (String d a) with h :: t => String c h :: t | [] => [String c ""] end).
  by rewrite Hc, IH.
Qed.

Lemma split_crlf_Join l : l ≠ [] → Forall (λ x, no_cr x = true) l → split_crlf (Join l crlf) = l.
Proof.
  intros Hne Hl. induction Hl as [|x l Hx Hl IH]; [done|].
  destruct l as [|y l]; [by apply split_crlf_last|]. rewrite Join_cons, split_crlf_line by done.
  f_equal. by apply IH.
Qed.

Lemma keep_folds folds rest dropping :
  Forall (λ f, no_cr f = true ∧ is_continuation f = true) folds →
  keep_lines (folds ++ rest) dropping = (if dropping then [] else folds) ++ keep_lines rest dropping.
Proof.
  induction 1 as [|f folds [_ Hf] _ IH]; [by destruct dropping|]. cbn [app keep_lines]. rewrite Hf, IH.
  by destruct dropping.
Qed.

Lemma keep_lines_raw hs dropping :
  Forall raw_ok hs → keep_lines (raw_lines hs) dropping = raw_lines (List.filter (λ h, negb (drops (rh_line h))) hs).
Proof.
  intros H. revert dropping. induction H as [|[line folds] hs (_ & Hc & Hf) _ IH]; intros dropping; [done|].
  cbn [raw_lines mbind list_bind rh_line rh_folds app keep_lines List.filter] in *. fold (raw_lines hs). rewrite Hc.
  destruct (drops line); cbn [negb]; rewrite keep_folds by done; cbn [app].
  - apply IH.
  - rewrite IH. done.
Qed.

Lemma raw_lines_no_cr hs : Forall raw_ok hs → Forall (λ x, no_cr x = true) (raw_lines hs).
Proof.
  induction 1 as [|[line folds] hs (Hl & _ & Hf) _ IH]; [constructor|]. cbn. constructor; [done|].
  apply Forall_app. split; [|done]. eapply Forall_impl; [done|]. by intros ? [? _].
Qed.

(** Filtering the bytes of a handshake response is filtering its headers: the
    status line stays, each credential-bearing header or [Alt-Svc], in any
    letter case, goes with the lines folded into it, and the rest of the block
    is byte for byte what the upstream sent. *)
Theorem raw_filter_equiv status hs :
  no_cr status = true → Forall raw_ok hs →
  stripAuthResponseHeadersRaw (raw_block status hs) =
  raw_block status (List.filter (λ h, negb (drops (rh_line h))) hs).
Proof.
  intros Hs Hok. unfold stripAuthResponseHeadersRaw, raw_block. rewrite HasSuffix_app, TrimSuffix_app.
  rewrite split_crlf_Join; [|done|by constructor; [|apply raw_lines_no_cr]]. cbn [negb].
  by rewrite keep_lines_raw.
Qed.

Lemma raw_filter_equiv_witness :
  stripAuthResponseHeadersRaw (raw_block "HTTP/1.1 101 OK" [mkRaw "SET-COOKIE: a" [" b"]; mkRaw "Upgrade: websocket" []]) =
  raw_block "HTTP/1.1 101 OK" [mkRaw "Upgrade: websocket" []].
Proof. apply raw_filter_equiv; [reflexivity|]. repeat constructor. Defined.
