(* ===== verification/DashboardAuth.v ===== *)
(** * Who may use the dashboard: [web.go], [dashboard_sessions.go], [dashboard_users.go]

    The route table with its authentication classes, the two gates in front of
    every handler, the operator allowlist, the password and session tables, and
    the login and logout handlers. A table is a map; a statement that fails in
    the database is not modelled. *)
From S2P Require Import Prelude GoStrings NetAddr GoUrl GoHttp.

(** ** Routes *)

Inductive authRequirement :=
| authDashboard
| authPublic
| authTailnetOperator
| authDashboardOrTailnetOperator
| authSelfAuthenticating.

#[global] Instance authRequirement_eq_dec : EqDecision authRequirement.
Proof. solve_decision. Defined.

(** The part of a route the gates read. *)
Record webRoute := mkRoute { route_Method : string; route_Path : string; route_Auth : authRequirement }.

Definition credentialWebhookPrefix : string := "/api/cred/".
Definition hitlOperationStatusPrefix : string := "/api/hitl/operations/".
Definition dashboardLoginPath : string := "/__login".

Definition routes : list webRoute :=
  [mkRoute "GET" "/info" authPublic; mkRoute "GET" "/ca.crt" authPublic;
   mkRoute "GET" "/api/status" authDashboard; mkRoute "GET" "/api/state" authDashboard;
   mkRoute "POST" "/api/agents/delete" authDashboard; mkRoute "POST" "/api/agents/profile" authDashboard;
   mkRoute "GET" "/api/profiles" authDashboard; mkRoute "GET" "/api/plugins" authDashboard;
   mkRoute "POST" "/api/plugins/approve" authDashboard; mkRoute "GET" "/api/rules" authDashboard;
   mkRoute "GET" "/api/config" authDashboard; mkRoute "POST" "/api/config/apply" authDashboard;
   mkRoute "GET" "/api/hitl/pending" authDashboard; mkRoute "POST" "/api/hitl/decide" authDashboard;
   mkRoute "GET" hitlOperationStatusPrefix authSelfAuthenticating;
   mkRoute "POST" "/api/oauth/start" authDashboard; mkRoute "POST" "/api/oauth/exchange" authDashboard;
   mkRoute "POST" "/api/oauth/device-poll" authDashboard; mkRoute "POST" "/api/oauth/revoke" authDashboard;
   mkRoute "GET" "/oauth/callback" authDashboard; mkRoute "POST" "/api/tailscale/connect" authDashboard;
   mkRoute "GET" "/api/tailscale/status" authDashboard; mkRoute "POST" "/api/tailscale/disconnect" authDashboard;
   mkRoute "POST" "/api/credentials/set" authDashboard; mkRoute "POST" "/api/credentials/clear" authDashboard;
   mkRoute "GET" "/api/events" authDashboard; mkRoute "POST" "/api/actions/rule-preview" authDashboard;
   mkRoute "GET" "/api/actions/" authDashboard; mkRoute "GET" "/api/analytics" authDashboard;
   mkRoute "GET" "/api/facets" authDashboard; mkRoute "POST" "/api/onboard/start" authPublic;
   mkRoute "POST" "/api/onboard/poll" authPublic;
   mkRoute "POST" "/api/onboard/approve" authDashboardOrTailnetOperator;
   mkRoute "GET" "/api/onboard/lookup" authTailnetOperator; mkRoute "POST" "/api/onboard/claim" authPublic;
   mkRoute "GET" "/api/env-pushdown" authSelfAuthenticating;
   mkRoute "POST" "/api/peer/tsnet/register" authSelfAuthenticating;
   mkRoute "GET" "/__login" authPublic; mkRoute "POST" "/__logout" authDashboard].

Definition routeAuthIndex (l : list webRoute) : gmap string authRequirement :=
  foldl (λ m r, <[route_Path r := route_Auth r]> m) ∅ l.

Definition isLoginPageAsset (path : string) : bool :=
  String.eqb path "/claw-patrol-icon.svg" || String.eqb path "/claw-patrol-logo.svg" || HasPrefix path "/fonts/".

Definition authRequirementForPath (routeAuth : gmap string authRequirement) (path : string) : authRequirement :=
  if HasPrefix path credentialWebhookPrefix || HasPrefix path hitlOperationStatusPrefix then authSelfAuthenticating
  else match routeAuth !! path with
       | Some req => req
       | None => if isLoginPageAsset path then authPublic else authDashboard
       end.

Definition authOf (path : string) : authRequirement := authRequirementForPath (routeAuthIndex routes) path.

Definition skipsDashboardPassword (path : string) : bool :=
  match authOf path with authPublic | authTailnetOperator | authSelfAuthenticating => true | _ => false end.

Definition skipsTailnetGate (path : string) : bool :=
  match authOf path with authPublic | authSelfAuthenticating => true | _ => false end.

Definition needsOperatorGate (req : authRequirement) : bool :=
  match req with authDashboard | authTailnetOperator | authDashboardOrTailnetOperator => true | _ => false end.

(** ** The operator allowlist ([internal/config/operators.go]) *)

Definition operator_entry_matches (login entry : string) : bool :=
  String.eqb entry login ||
  (HasPrefix entry "*@" &&
   let suffix := str_drop 1 entry in
   (String.length suffix <? String.length login)%nat && HasSuffix login suffix).

Definition MatchDashboardOperator (login : string) (allowlist : list string) : bool :=
  negb (String.eqb login "") && existsb (operator_entry_matches login) allowlist.

Definition ValidateDashboardOperatorEntry (entry : string) : bool :=
  if String.eqb entry "" then false
  else if HasPrefix entry "*@" then
    let domain := str_drop 2 entry in
    negb (String.eqb domain "") && negb (ContainsByte domain "@" || ContainsByte domain "*")
  else if ContainsByte entry "*" then false
  else match IndexByte entry "@" with
       | Some (S at_) =>
           bool_decide (LastIndexByte entry "@" = Some (S at_)) && negb (String.eqb (str_drop (S (S at_)) entry) "")
       | _ => false
       end.

(** ** Accounts and sessions *)

Record SessionRow := mkSession { se_Username : string; se_Created : Z; se_Expires : Z; se_LastSeen : Z }.
Record UserRow := mkUser { us_Hash : string; us_Created : Z; us_Updated : Z }.

(** [dashboard_users] by name and [dashboard_sessions] by token hash. *)
Record AuthDB := mkAuthDB { db_Users : gmap string UserRow; db_Sessions : gmap string SessionRow }.

Definition dashboardRootUsername : string := "root".

Inductive AuthError := EmptyUsername | NonPositiveTTL | DuplicateSession | EmptyPassword | HashFailed | CompareFailed.

Definition delete_sessions (p : SessionRow -> bool) (db : AuthDB) : AuthDB :=
  mkAuthDB (db_Users db) (filter (λ kv : string * SessionRow, p kv.2 = false) (db_Sessions db)).

Definition revokeAllDashboardSessionsFor (db : AuthDB) (username : string) : AuthDB :=
  delete_sessions (λ s, String.eqb (se_Username s) username) db.

Definition sweepExpiredDashboardSessions (db : AuthDB) (now : Z) : AuthDB * Z :=
  (delete_sessions (λ s, se_Expires s <=? now) db,
   Z.of_nat (size (filter (λ kv : string * SessionRow, (se_Expires kv.2 <=? now) = true) (db_Sessions db)))).

Section Tables.
(** [hashSessionToken] (SHA-256 in hex); bcrypt: [generate] fails on a password
    over 72 bytes, [compare] answers match, mismatch or error. *)
Context (hash : string -> string) (generate : string -> option string) (compare : string -> string -> result bool unit).

(** [token] is the random value drawn. *)
Definition createDashboardSession (db : AuthDB) (username : string) (ttl now : Z) (token : string)
    : AuthDB * result string AuthError :=
  if String.eqb username "" then (db, Err EmptyUsername)
  else if ttl <=? 0 then (db, Err NonPositiveTTL)
  else match db_Sessions db !! hash token with
       | Some _ => (db, Err DuplicateSession)
       | None => (mkAuthDB (db_Users db) (<[hash token := mkSession username now (now + ttl) now]> (db_Sessions db)), Ok token)
       end.

Definition lookupDashboardSession (db : AuthDB) (token : string) (now : Z) : AuthDB * option string :=
  if String.eqb token "" then (db, None)
  else match db_Sessions db !! hash token with
       | None => (db, None)
       | Some s =>
           if se_Expires s <=? now then (mkAuthDB (db_Users db) (delete (hash token) (db_Sessions db)), None)
           else (mkAuthDB (db_Users db)
                   (<[hash token := mkSession (se_Username s) (se_Created s) (se_Expires s) now]> (db_Sessions db)),
                 Some (se_Username s))
       end.

Definition revokeDashboardSession (db : AuthDB) (token : string) : AuthDB :=
  if String.eqb token "" then db else mkAuthDB (db_Users db) (delete (hash token) (db_Sessions db)).

Definition lookupDashboardUser (db : AuthDB) (username : string) : option string := us_Hash <$> db_Users db !! username.

Definition setDashboardUser (db : AuthDB) (username password : string) (now : Z) : AuthDB * result unit AuthError :=
  if String.eqb password "" then (db, Err EmptyPassword)
  else match generate password with
       | None => (db, Err HashFailed)
       | Some h =>
           let created := match db_Users db !! username with Some u => us_Created u | None => now end in
           (revokeAllDashboardSessionsFor
              (mkAuthDB (<[username := mkUser h created now]> (db_Users db)) (db_Sessions db)) username, Ok tt)
       end.

Definition deleteDashboardUser (db : AuthDB) (username : string) : AuthDB :=
  revokeAllDashboardSessionsFor (mkAuthDB (delete username (db_Users db)) (db_Sessions db)) username.

(** Whether the password is right, whether the user exists. *)
Definition checkDashboardPassword (db : AuthDB) (username password : string) : result (bool * bool) AuthError :=
  match lookupDashboardUser db username with
  | None => Ok (false, false)
  | Some h => match compare h password with
              | Ok ok => Ok (ok, true)
              | Err _ => Err CompareFailed
              end
  end.

(** ** The gates *)

(** What the gates read of the live configuration. *)
Record DashConfig := mkDash {
  dc_PublicURL : string;
  dc_DashboardListen : string;
  dc_DashboardHosts : list string;
  dc_IsTailscaleEnabled : bool;
  dc_Operators : list string;
  (** [DashboardSessionTTLFromString], with its default *)
  dc_SessionTTL : Z
}.

Inductive principalKind := principalDashboardPassword | principalTailnet.
Record principal := mkPrincipal {
  pr_Kind : principalKind; pr_Owner : string; pr_User : string; pr_Device : string; pr_Host : string
}.

(** A whois answer: login, node id and node name. *)
Record WhoIs := mkWhois { who_Login : string; who_StableID : string; who_HostName : string }.

Record WebRequest := mkWeb {
  wq_Method : string;
  wq_Path : string;
  wq_RequestURI : string;
  wq_RawQuery : string;
  wq_Host : string;
  wq_TLS : bool;
  wq_RemoteAddr : string;
  wq_Header : Header;
  (** the value of the [cp_session] cookie, if one was sent *)
  wq_Session : option string
}.

Inductive Answer :=
| AError (status : Z) (message : string)
| AStatus (status : Z)
| ARedirect (location : string)
| ARender (status : Z) (next error : string) (firstRun : bool)
| AHandler (p : option principal).

Definition dashboardPasswordPrincipal : principal := mkPrincipal principalDashboardPassword dashboardRootUsername "" "" "".

(** [contextWithPrincipal] and [principalFromContext]. *)
Definition contextWithPrincipal (p : principal) : principal :=
  if String.eqb (pr_Owner p) "" then mkPrincipal (pr_Kind p) (pr_User p) (pr_User p) (pr_Device p) (pr_Host p) else p.
Definition principalFromContext (ctx : option principal) : option principal :=
  match ctx with Some p => if String.eqb (pr_Owner p) "" then None else Some p | None => None end.

Definition peer_host (remote : string) : string :=
  match LastIndexByte remote ":" with Some i => str_take i remote | None => remote end.

Section Gates.
(** The whois lookup by address, and [url.QueryEscape]. *)
Context (lookupWhois : string -> option WhoIs) (QueryEscape : string -> string).

(** [tailnetGate]; [skipGate] was computed from the configuration the gateway
    started with. *)
Definition tailnetGate (skipGate : bool) (cfg : DashConfig) (ctx : option principal) (r : WebRequest) : Answer :=
  if skipsTailnetGate (wq_Path r) || skipGate then AHandler ctx
  else match principalFromContext ctx with
       | Some _ => AHandler ctx
       | None =>
           match lookupWhois (peer_host (wq_RemoteAddr r)) with
           | None => AError 403 "tailnet access required"
           | Some who =>
               if String.eqb (who_Login who) "" then AError 403 "tailnet access required"
               else if needsOperatorGate (authOf (wq_Path r)) &&
                       negb (MatchDashboardOperator (who_Login who) (dc_Operators cfg))
               then AError 403 "operator routes require a dashboard password session or an operator login"
               else AHandler (Some (contextWithPrincipal
                      (mkPrincipal principalTailnet (who_Login who) (who_Login who) (who_StableID who) (who_HostName who))))
           end
       end.

Definition mayUseTailnetInsteadOfDashboard (cfg : DashConfig) (path : string) : bool :=
  bool_decide (authOf path = authDashboardOrTailnetOperator) && dc_IsTailscaleEnabled cfg.

Definition lookupSessionFromRequest (db : AuthDB) (now : Z) (r : WebRequest) : AuthDB * string :=
  match wq_Session r with
  | None => (db, "")
  | Some token =>
      if String.eqb token "" then (db, "")
      else let '(db', u) := lookupDashboardSession db token now in (db', default "" u)
  end.

Definition to_login (r : WebRequest) : Answer :=
  ARedirect (dashboardLoginPath +:+ "?next=" +:+ QueryEscape (wq_RequestURI r)).

(** [dashboardAuthGate] around [tailnetGate]: [cfg] is the configuration at the
    time of the request. *)
Definition dashboardAuthGate (skipGate : bool) (cfg : DashConfig) (now : Z) (db : AuthDB) (r : WebRequest)
    : AuthDB * Answer :=
  let path := wq_Path r in
  if skipsDashboardPassword path then (db, tailnetGate skipGate cfg None r)
  else match lookupDashboardUser db dashboardRootUsername with
       | None =>
           (db, if String.eqb path dashboardLoginPath then tailnetGate skipGate cfg None r
                else if HasPrefix path "/api/" then AError 401 "dashboard not initialized"
                else to_login r)
       | Some _ =>
           let '(db, username) := lookupSessionFromRequest db now r in
           (db, if negb (String.eqb username "")
                then tailnetGate skipGate cfg (Some (contextWithPrincipal dashboardPasswordPrincipal)) r
                else if dc_IsTailscaleEnabled cfg && negb (bool_decide (dc_Operators cfg = []))
                then tailnetGate skipGate cfg None r
                else if mayUseTailnetInsteadOfDashboard cfg path then tailnetGate skipGate cfg None r
                else if HasPrefix path "/api/" then AError 401 "dashboard session required"
                else to_login r)
       end.
End Gates.

(** ** Login and logout *)

Definition safeDashboardLoginNext (next : string) : string :=
  if String.eqb next "" || ContainsByte next backslash || HasPrefix next "//" then "/"
  else match url_Parse next with
       | None => "/"
       | Some u => if negb (String.eqb (url_Scheme u) "") || negb (String.eqb (url_Host u) "") ||
                      negb (HasPrefix (url_Path u) "/")
                   then "/" else next
       end.

Definition dashboardMinPasswordLen : nat := 12.

(** The session is minted and its token set as the cookie, or not. *)
Definition mintAndSetSessionCookie (db : AuthDB) (cfg : DashConfig) (now : Z) (token : string)
    : AuthDB * result string AuthError :=
  createDashboardSession db dashboardRootUsername (dc_SessionTTL cfg) now token.

(** [apiDashboardLogin]. The form fields are those of the posted body, [token]
    the random value a new session would use; the last component is the cookie
    set. *)
Definition apiDashboardLogin (db : AuthDB) (cfg : DashConfig) (now : Z) (token : string) (r : WebRequest)
    (password confirm : string) : AuthDB * Answer * option string :=
  let next := safeDashboardLoginNext (default "" (head (default [] (ParseQuery (wq_RawQuery r) !! "next")))) in
  let finish db :=
    match mintAndSetSessionCookie db cfg now token with
    | (db', Ok tok) => (db', ARedirect next, Some tok)
    | (db', Err _) => (db', AError 500 "could not mint session", None)
    end in
  let rootExists := bool_decide (is_Some (lookupDashboardUser db dashboardRootUsername)) in
  if String.eqb (wq_Method r) "POST" then
    if negb rootExists then
      if (String.length password <? dashboardMinPasswordLen)%nat
      then (db, ARender 400 next "password must be at least 12 characters" true, None)
      else if negb (String.eqb password confirm) then (db, ARender 400 next "passwords do not match" true, None)
      else match setDashboardUser db dashboardRootUsername password now with
           | (db', Err _) => (db', AError 500 "could not store password", None)
           | (db', Ok _) => finish db'
           end
    else match checkDashboardPassword db dashboardRootUsername password with
         | Err _ => (db, AError 503 "dashboard auth check failed", None)
         | Ok (false, _) => (db, ARender 401 next "wrong password" false, None)
         | Ok (true, _) => finish db
         end
  else (db, ARender 200 next "" (negb rootExists), None).

(** The cookie is cleared in every case. *)
Definition apiDashboardLogout (db : AuthDB) (r : WebRequest) : AuthDB * Answer :=
  if negb (String.eqb (wq_Method r) "POST") then (db, AError 405 "POST")
  else (match wq_Session r with Some t => revokeDashboardSession db t | None => db end, AStatus 200).

(** ** Histories *)

(** One group of statements committed against the tables; the label is the
    token of a session it issues. *)
Inductive auth_step : AuthDB -> option string -> AuthDB -> Prop :=
| as_create db username ttl now token :
    auth_step db (Some token) (createDashboardSession db username ttl now token).1
| as_lookup db token now : auth_step db None (lookupDashboardSession db token now).1
| as_revoke db token : auth_step db None (revokeDashboardSession db token)
| as_revoke_all db username : auth_step db None (revokeAllDashboardSessionsFor db username)
| as_sweep db now : auth_step db None (sweepExpiredDashboardSessions db now).1
| as_set db username password now : auth_step db None (setDashboardUser db username password now).1
| as_delete db username : auth_step db None (deleteDashboardUser db username).

(** Histories in which no session is issued for a token with hash [h]. *)
Definition auth_run (h : string) : AuthDB -> AuthDB -> Prop :=
  rtc (λ a b, ∃ l, auth_step a l b ∧ ∀ t, l = Some t → hash t ≠ h).

(** The ways a live session of [token] ends at time [now]. *)
Inductive session_ends (db : AuthDB) (token : string) (s : SessionRow) (now : Z) : AuthDB -> Prop :=
| end_logout r : wq_Method r = "POST" → wq_Session r = Some token → token ≠ "" →
    session_ends db token s now (apiDashboardLogout db r).1
| end_rotation password : (setDashboardUser db (se_Username s) password now).2 = Ok tt →
    session_ends db token s now (setDashboardUser db (se_Username s) password now).1
| end_reset : session_ends db token s now (deleteDashboardUser db (se_Username s))
| end_expiry : se_Expires s <= now → token ≠ "" → session_ends db token s now (lookupDashboardSession db token now).1
| end_sweep : se_Expires s <= now → session_ends db token s now (sweepExpiredDashboardSessions db now).1.
End Tables.
