(* ===== verification/DashboardProps.v ===== *)
(** * Properties of dashboard authentication

    Which requests the two gates let through, exactly; that an ended session
    stays ended; that a login opens the dashboard and only with the password;
    and what happens when the configuration is reloaded under the gates. *)
From S2P Require Import Prelude GoStrings NetAddr GoUrl GoHttp DashboardAuth.

Lemma authOf_login : authOf dashboardLoginPath = authPublic.
Proof. vm_compute. reflexivity. Qed.

#[local] Opaque authOf.

(** ** The gates *)

Section Gates.
Context (hash : string -> string) (lookupWhois : string -> option WhoIs) (QueryEscape : string -> string).

Notation gate := (dashboardAuthGate hash lookupWhois QueryEscape).

(** The peer of the connection is an operator by its tailnet login. *)
Definition operator_peer (cfg : DashConfig) (r : WebRequest) : Prop :=
  ∃ who, lookupWhois (peer_host (wq_RemoteAddr r)) = Some who ∧
    MatchDashboardOperator (who_Login who) (dc_Operators cfg) = true.

Definition live_session (db : AuthDB) (now : Z) (r : WebRequest) : Prop :=
  ∃ token s, wq_Session r = Some token ∧ token ≠ "" ∧ db_Sessions db !! hash token = Some s ∧
    now < se_Expires s ∧ se_Username s ≠ "".


Definition reaches_handler (a : Answer) : Prop := ∃ p, a = AHandler p.

Lemma MatchDashboardOperator_nonempty login ops : MatchDashboardOperator login ops = true → login ≠ "" ∧ ops ≠ [].
Proof. unfold MatchDashboardOperator. intros [H1 H2]%andb_true_iff. bprop. split; [by intros ->|by intros ->]. Qed.

Lemma lookupSession_live db now r :
  ((lookupSessionFromRequest hash db now r).2 ≠ "") ↔ live_session db now r.
Proof.
  unfold lookupSessionFromRequest, live_session, lookupDashboardSession.
  destruct (wq_Session r) as [t|]; [|naive_solver].
  destruct (String.eqb t "") eqn:Et; bprop; [naive_solver|].
  destruct (db_Sessions db !! hash t) as [s|] eqn:Es; [|naive_solver].
  destruct (se_Expires s <=? now) eqn:El; bprop; simpl; [|naive_solver].
  split; [done|]. intros (t' & s' & ? & ? & ? & ? & ?). simplify_eq. lia.
Qed.

(** The tailnet gate on a request without a principal. *)
Lemma tailnetGate_anonymous skip cfg r :
  reaches_handler (tailnetGate lookupWhois skip cfg None r) ↔
  skipsTailnetGate (wq_Path r) = true ∨ skip = true ∨ operator_peer cfg r.
Proof.
  unfold tailnetGate, reaches_handler, operator_peer.
  destruct (skipsTailnetGate (wq_Path r) || skip) eqn:E.
  { apply orb_true_iff in E. naive_solver. }
  apply orb_false_iff in E as [Esk ->]. cbn [principalFromContext].
  assert (needsOperatorGate (authOf (wq_Path r)) = true) as Hneed.
  { unfold skipsTailnetGate in Esk. by destruct (authOf (wq_Path r)). }
  rewrite Hneed. destruct (lookupWhois _) as [who|]; [|split; [by intros [? ?]|intros [?|[?|(w & ? & ?)]]; congruence]].
  destruct (String.eqb (who_Login who) "") eqn:El; bprop.
  { split; [by intros [? ?]|]. intros [?|[?|(w & ? & [? _]%MatchDashboardOperator_nonempty)]]; congruence. }
  destruct (MatchDashboardOperator _ _) eqn:Em; cbn [negb andb].
  - split; [|by eauto]. intros _. right. right. eauto.
  - split; [by intros [? ?]|]. intros [?|[?|(w & ? & ?)]]; congruence.
Qed.

Lemma tailnetGate_principal skip cfg r :
  reaches_handler (tailnetGate lookupWhois skip cfg (Some (contextWithPrincipal dashboardPasswordPrincipal)) r).
Proof. unfold tailnetGate. destruct (skipsTailnetGate _ || skip); eexists; reflexivity. Qed.

Definition protected (path : string) : Prop :=
  authOf path = authDashboard ∨ authOf path = authDashboardOrTailnetOperator.

Lemma not_handler_error c m : ¬ reaches_handler (AError c m).
Proof. by intros [? ?]. Qed.

(** Behind a password: a session opens the route, and so does whatever the
    tailnet gate lets through when the live configuration sends requests
    there. *)
Lemma gate_protected skip cfg now db r :
  protected (wq_Path r) →
  reaches_handler (gate skip cfg now db r).2 ↔
  is_Some (db_Users db !! dashboardRootUsername) ∧
  (live_session db now r ∨
   dc_IsTailscaleEnabled cfg = true ∧
   (dc_Operators cfg ≠ [] ∨ authOf (wq_Path r) = authDashboardOrTailnetOperator) ∧
   (skip = true ∨ operator_peer cfg r)).
Proof.
  intros Hp. unfold dashboardAuthGate.
  assert (skipsDashboardPassword (wq_Path r) = false ∧ skipsTailnetGate (wq_Path r) = false) as [-> Hskip].
  { unfold skipsDashboardPassword, skipsTailnetGate. by destruct Hp as [-> | ->]. }
  assert (String.eqb (wq_Path r) dashboardLoginPath = false) as Hlogin.
  { destruct (String.eqb _ _) eqn:E; [|done]. bprop. unfold protected in Hp. rewrite E, authOf_login in Hp. by destruct Hp. }
  pose proof (tailnetGate_anonymous skip cfg r) as Hanon. rewrite Hskip in Hanon.
  pose proof (lookupSession_live db now r) as Hlive. unfold lookupDashboardUser.
  destruct (db_Users db !! dashboardRootUsername) as [u|]; cbn [fmap option_fmap option_map snd].
  2:{ rewrite Hlogin. split; [|by intros [[? ?] _]]. by destruct (HasPrefix _ _); intros [? ?]. }
  destruct (lookupSessionFromRequest hash db now r) as [db' user]; cbn [snd] in *.
  destruct (String.eqb user "") eqn:Eu; bprop; cbn [negb].
  2:{ split; intros _; [split; [eauto|]; left; by apply Hlive|apply tailnetGate_principal]. }
  assert (¬ live_session db now r) as Hno by (rewrite <- Hlive; naive_solver).
  assert (∀ a, ¬ reaches_handler a → dc_IsTailscaleEnabled cfg && negb (bool_decide (dc_Operators cfg = [])) = false →
            mayUseTailnetInsteadOfDashboard cfg (wq_Path r) = false →
            (reaches_handler a ↔ is_Some (Some u) ∧ (live_session db now r ∨ dc_IsTailscaleEnabled cfg = true ∧
               (dc_Operators cfg ≠ [] ∨ authOf (wq_Path r) = authDashboardOrTailnetOperator) ∧
               (skip = true ∨ operator_peer cfg r)))) as Hrefuse.
  { intros a Ha Ho Hm. split; [done|]. intros [_ [?|(Hts & [Hops|Hau] & _)]]; [done| |].
    - rewrite Hts, bool_decide_false in Ho by done. done.
    - unfold mayUseTailnetInsteadOfDashboard in Hm. by rewrite Hau, Hts in Hm. }
  assert (dc_IsTailscaleEnabled cfg = true →
            dc_Operators cfg ≠ [] ∨ authOf (wq_Path r) = authDashboardOrTailnetOperator →
            (false = true ∨ skip = true ∨ operator_peer cfg r ↔
             is_Some (Some u) ∧ (live_session db now r ∨ dc_IsTailscaleEnabled cfg = true ∧
               (dc_Operators cfg ≠ [] ∨ authOf (wq_Path r) = authDashboardOrTailnetOperator) ∧
               (skip = true ∨ operator_peer cfg r)))) as Hadmit.
  { intros Hts Hr. split.
    - intros [?|?]; [done|]. split; [by eexists|]. by right.
    - intros [_ [?|(_ & _ & ?)]]; [done|]. by right. }
  destruct (dc_IsTailscaleEnabled cfg && negb (bool_decide (dc_Operators cfg = []))) eqn:Eo.
  { apply andb_true_iff in Eo as [Hts Ho%negb_true_iff%bool_decide_eq_false]. rewrite Hanon. by apply Hadmit; [|left]. }
  destruct (mayUseTailnetInsteadOfDashboard cfg (wq_Path r)) eqn:Em.
  { unfold mayUseTailnetInsteadOfDashboard in Em. apply andb_true_iff in Em as [Ha%bool_decide_eq_true Hts].
    rewrite Hanon. by apply Hadmit; [|right]. }
  destruct (HasPrefix _ _); apply Hrefuse; try done; by intros [? ?].
Qed.



(** The gate behind the password check keeps the Tailscale setting of start-up,
    the password check reads the live one. After a reload that enables Tailscale
    with a non-empty operator list, and until a restart, every protected route
    is served without a session, a login or a principal. *)
Theorem reload_opens_dashboard cfg now db r :
  protected (wq_Path r) → is_Some (db_Users db !! dashboardRootUsername) →
  dc_IsTailscaleEnabled cfg = true → dc_Operators cfg ≠ [] → wq_Session r = None →
  (gate true cfg now db r).2 = AHandler None.
Proof.
  intros Hp [u Hu] Hts Hops Hs. unfold dashboardAuthGate, lookupSessionFromRequest, lookupDashboardUser.
  assert (skipsDashboardPassword (wq_Path r) = false) as ->.
  { unfold skipsDashboardPassword. by destruct Hp as [-> | ->]. }
  rewrite Hu, Hs, Hts, bool_decide_false by done. cbn. unfold tailnetGate. by rewrite orb_true_r.
Qed.
End Gates.

(** ** Operators *)

(** A login accepted by an allowlist of well-formed entries names a user and a
    domain, so the tag pseudo-logins of unattended nodes never match. *)
Theorem operators_are_users login ops :
  Forall (λ e, ValidateDashboardOperatorEntry e = true) ops → MatchDashboardOperator login ops = true →
  ∃ user domain, login = user +:+ "@" +:+ domain ∧ user ≠ "" ∧ domain ≠ "" ∧
    (login ∈ ops ∨ ("*@" +:+ domain) ∈ ops).
Proof.
  intros Hok [_ (e & He & Hm)%existsb_exists]%andb_true_iff. apply list_elem_of_In in He.
  rewrite Forall_forall in Hok. pose proof (Hok e He) as Hv. unfold ValidateDashboardOperatorEntry in Hv.
  unfold operator_entry_matches in Hm. destruct (String.eqb e "") eqn:Ee; [done|].
  destruct (HasPrefix e "*@") eqn:Ew.
  - apply HasPrefix_spec in Ew as [d ->]. cbn [str_drop String.append] in *. apply andb_true_iff in Hv as [Hd _].
    apply negb_true_iff in Hd. bprop. apply orb_true_iff in Hm as [Hm|Hm].
    + bprop. subst login. exists "*", d. eauto.
    + cbn [andb] in Hm. apply andb_true_iff in Hm as [Hl [u ->]%HasSuffix_spec]. exists u, d.
      assert (u ≠ "") by (intros ->; apply Nat.ltb_lt in Hl; cbn in Hl; lia). eauto.
  - cbn [andb] in Hm. rewrite orb_false_r in Hm. bprop. subst login. destruct (ContainsByte e "*"); [done|].
    destruct (IndexByte e "@") as [[|i]|] eqn:Ei; [done| |done]. apply andb_true_iff in Hv as [_ Hv].
    apply negb_true_iff in Hv. bprop. apply IndexByte_Some in Ei as (u & d & -> & Hlen & _).
    exists u, d. split; [done|]. split; [by intros ->|]. split; [|by left]. intros ->. apply Hv.
    rewrite <- Hlen. apply str_drop_all. rewrite str_length_app. cbn. lia.
Qed.

(** ** Sessions *)

Section Sessions.
Context (hash : string -> string) (generate : string -> option string) (compare : string -> string -> result bool unit).

Lemma lookup_delete_sessions p db h :
  db_Sessions (delete_sessions p db) !! h =
  match db_Sessions db !! h with Some s => if p s then None else Some s | None => None end.
Proof.
  unfold delete_sessions. cbn [db_Sessions]. destruct (db_Sessions db !! h) as [s|] eqn:E.
  - destruct (p s) eqn:Ep.
    + apply map_lookup_filter_None. right. intros x Hx. simplify_eq. cbn. congruence.
    + by apply map_lookup_filter_Some.
  - apply map_lookup_filter_None. by left.
Qed.

Lemma auth_step_absent h db l db' :
  auth_step hash generate db l db' → (∀ t, l = Some t → hash t ≠ h) →
  db_Sessions db !! h = None → db_Sessions db' !! h = None.
Proof.
  intros Hstep Hl Hn. destruct Hstep as [db username ttl now token|db token now|db token|db u|db now|db u p now|db u].
  - unfold createDashboardSession. destruct (String.eqb username ""), (ttl <=? 0); try done.
    destruct (db_Sessions db !! hash token); [done|]. cbn. rewrite lookup_insert_ne; [done|]. by apply Hl.
  - unfold lookupDashboardSession. destruct (String.eqb token ""); [done|].
    destruct (db_Sessions db !! hash token) as [s|] eqn:E; [|done].
    destruct (decide (hash token = h)) as [<-|Hne]; [congruence|].
    destruct (se_Expires s <=? now); cbn; [by rewrite lookup_delete_ne|by rewrite lookup_insert_ne].
  - unfold revokeDashboardSession. destruct (String.eqb token ""); [done|]. cbn.
    rewrite lookup_delete_None. by right.
  - unfold revokeAllDashboardSessionsFor. by rewrite lookup_delete_sessions, Hn.
  - cbn [fst sweepExpiredDashboardSessions]. by rewrite lookup_delete_sessions, Hn.
  - unfold setDashboardUser. destruct (String.eqb p ""); [done|]. destruct (generate p); [|done]. cbn [fst].
    unfold revokeAllDashboardSessionsFor. rewrite lookup_delete_sessions. cbn. by rewrite Hn.
  - unfold deleteDashboardUser, revokeAllDashboardSessionsFor. rewrite lookup_delete_sessions. cbn. by rewrite Hn.
Qed.

Lemma auth_run_absent h db db' :
  auth_run hash generate h db db' → db_Sessions db !! h = None → db_Sessions db' !! h = None.
Proof. induction 1 as [|a b c (l & Hs & Hl) _ IH]; [done|]. intros Hn. apply IH. by eapply auth_step_absent. Qed.

Lemma lookup_absent db token now : db_Sessions db !! hash token = None → (lookupDashboardSession hash db token now).2 = None.
Proof. unfold lookupDashboardSession. intros ->. by destruct (String.eqb token ""). Qed.

Lemma session_ends_absent db token s now db' :
  db_Sessions db !! hash token = Some s → session_ends hash generate db token s now db' → db_Sessions db' !! hash token = None.
Proof.
  intros Hs He. destruct He as [r Hm Hr Hne|password Hok| |Hexp Hne|Hexp].
  - unfold apiDashboardLogout. rewrite Hm, Hr. cbn. unfold revokeDashboardSession.
    destruct (String.eqb token "") eqn:E; [by bprop|]. apply lookup_delete_eq.
  - unfold setDashboardUser in *. destruct (String.eqb password ""); [done|]. destruct (generate password); [|done].
    cbn [fst]. unfold revokeAllDashboardSessionsFor. rewrite lookup_delete_sessions. cbn. by rewrite Hs, String.eqb_refl.
  - unfold deleteDashboardUser, revokeAllDashboardSessionsFor. rewrite lookup_delete_sessions. cbn.
    by rewrite Hs, String.eqb_refl.
  - unfold lookupDashboardSession. destruct (String.eqb token "") eqn:E; [by bprop|]. rewrite Hs.
    destruct (se_Expires s <=? now) eqn:El; [|bprop; lia]. apply lookup_delete_eq.
  - cbn [fst sweepExpiredDashboardSessions]. rewrite lookup_delete_sessions, Hs.
    destruct (se_Expires s <=? now) eqn:El; [done|bprop; lia].
Qed.

(** A session that ends, by logout, by a change or reset of the password of its
    user, or by expiry, stays ended: through every later history in which the
    token is not issued again, presenting it is refused. *)
Theorem session_ended_for_good db token s now db1 db2 later :
  db_Sessions db !! hash token = Some s → session_ends hash generate db token s now db1 →
  auth_run hash generate (hash token) db1 db2 →
  (lookupDashboardSession hash db2 token later).2 = None.
Proof. intros Hs He Hrun. eapply lookup_absent, auth_run_absent; [done|]. by eapply session_ends_absent. Qed.

(** ** Login *)

Section Login.
(** bcrypt tells a password from every other one. *)
Hypothesis bcrypt_correct : ∀ p h p', generate p = Some h → compare h p' = Ok (String.eqb p' p).
Context (lookupWhois : string -> option WhoIs) (QueryEscape : string -> string).

Lemma mint_session db cfg now token :
  0 < dc_SessionTTL cfg → db_Sessions db !! hash token = None →
  mintAndSetSessionCookie hash db cfg now token =
  (mkAuthDB (db_Users db) (<[hash token := mkSession dashboardRootUsername now (now + dc_SessionTTL cfg) now]> (db_Sessions db)), Ok token).
Proof.
  intros Ht Hn. unfold mintAndSetSessionCookie, createDashboardSession. cbn.
  destruct (dc_SessionTTL cfg <=? 0) eqn:E; [bprop; lia|]. by rewrite Hn.
Qed.

(** First run: the password chosen is the one every later login needs, and the
    cookie it sets opens every protected route until the configured lifetime is
    over. *)
Theorem first_login_opens_dashboard db cfg now token r password h :
  db_Users db !! dashboardRootUsername = None → wq_Method r = "POST" →
  (dashboardMinPasswordLen <= String.length password)%nat → generate password = Some h →
  0 < dc_SessionTTL cfg → token ≠ "" → db_Sessions db !! hash token = None →
  let '(db1, _, cookie) := apiDashboardLogin hash generate compare db cfg now token r password password in
  cookie = Some token ∧
  (∀ skip cfg' now' r', wq_Session r' = Some token → now' < now + dc_SessionTTL cfg → protected (wq_Path r') →
     reaches_handler (dashboardAuthGate hash lookupWhois QueryEscape skip cfg' now' db1 r').2) ∧
  (∀ cfg' now' token' r' password' confirm',
     wq_Method r' = "POST" → 0 < dc_SessionTTL cfg' → db_Sessions db1 !! hash token' = None →
     (apiDashboardLogin hash generate compare db1 cfg' now' token' r' password' confirm').2 =
     if String.eqb password' password then Some token' else None).
Proof.
  intros Hroot Hm Hlen Hgen Ht Hne Hn. unfold apiDashboardLogin at 1. cbv zeta.
  rewrite Hm. cbn [String.eqb Ascii.eqb Bool.eqb].
  rewrite bool_decide_false by (unfold lookupDashboardUser; rewrite Hroot; by intros [? ?]). cbn [negb]. destruct (_ <? _)%nat eqn:El; [apply Nat.ltb_lt in El; lia|].
  rewrite String.eqb_refl. cbn [negb]. unfold setDashboardUser.
  destruct (String.eqb password "") eqn:Ep.
  { bprop. subst password. unfold dashboardMinPasswordLen in Hlen. cbn in Hlen. lia. }
  rewrite Hgen, Hroot. rewrite mint_session; [|done|].
  2:{ unfold revokeAllDashboardSessionsFor. rewrite lookup_delete_sessions. cbn. by rewrite Hn. }
  split; [done|]. split.
  - intros skip cfg' now' r' Hs Hnow Hp. apply gate_protected; [done|]. cbn [db_Users].
    split; [cbn; rewrite lookup_insert_eq; eauto|]. left. exists token. eexists. split; [done|]. split; [done|].
    cbn [db_Sessions]. rewrite lookup_insert_eq. split; [done|]. cbn. split; [lia|done].
  - intros cfg' now' token' r' password' confirm' Hm' Ht' Hn'. unfold apiDashboardLogin, lookupDashboardUser.
    rewrite Hm'. cbn [db_Users revokeAllDashboardSessionsFor delete_sessions fst]. rewrite lookup_insert_eq.
    cbn [String.eqb Ascii.eqb Bool.eqb fmap option_fmap option_map]. rewrite bool_decide_true by eauto. cbn [negb].
    unfold checkDashboardPassword, lookupDashboardUser. cbn [db_Users]. rewrite lookup_insert_eq. cbn [fmap option_fmap option_map us_Hash].
    rewrite (bcrypt_correct _ _ password' Hgen). destruct (String.eqb password' password); [|done].
    rewrite mint_session by done. done.
Qed.
End Login.
End Sessions.

(** ** Witnesses *)

Definition wg_config : DashConfig := mkDash "https://gw.example.com" ":8080" [] false [] 3600.
Definition ts_config : DashConfig := mkDash "https://gw.example.com" ":8080" [] true ["ann@example.com"] 3600.
Definition root_db : AuthDB := mkAuthDB {["root" := mkUser "h:pw" 0 0]} ∅.
Definition web_request (method path : string) (session : option string) : WebRequest :=
  mkWeb method path path "" "gw.example.com" false "100.64.0.9:5000" ∅ session.
Definition demo_generate (p : string) : option string := Some ("h:" +:+ p).
Definition demo_compare (h p : string) : result bool unit := Ok (String.eqb h ("h:" +:+ p)).

Lemma demo_bcrypt p h p' : demo_generate p = Some h → demo_compare h p' = Ok (String.eqb p' p).
Proof.
  unfold demo_generate, demo_compare. intros [= <-]. f_equal. change (String.eqb p p' = String.eqb p' p).
  apply String.eqb_sym.
Qed.

Lemma reload_opens_dashboard_witness :
  (dashboardAuthGate id (λ _, None) id true ts_config 5 root_db (web_request "POST" "/api/credentials/set" None)).2 = AHandler None.
Proof.
  apply reload_opens_dashboard; [by left; vm_compute|vm_compute; eauto|done..].
Defined.

Lemma operators_are_users_witness :
  ∃ user domain, "ann@example.com" = user +:+ "@" +:+ domain ∧ user ≠ "" ∧ domain ≠ "" ∧
    ("ann@example.com" ∈ ["*@example.com"] ∨ ("*@" +:+ domain) ∈ ["*@example.com"]).
Proof. apply operators_are_users; [repeat constructor|done]. Defined.

Definition session_db : AuthDB := mkAuthDB {["root" := mkUser "h:pw" 0 0]} {["tok" := mkSession "root" 0 100 0]}.

Lemma session_ended_for_good_witness :
  (lookupDashboardSession id (setDashboardUser demo_generate session_db "root" "another-password" 7).1 "tok" 8).2 = None.
Proof.
  eapply (session_ended_for_good id demo_generate session_db "tok" (mkSession "root" 0 100 0) 7).
  - reflexivity.
  - apply (end_rotation id demo_generate session_db "tok" (mkSession "root" 0 100 0) 7 "another-password"). reflexivity.
  - apply rtc_refl.
Defined.

Lemma first_login_opens_dashboard_witness :
  (apiDashboardLogin id demo_generate demo_compare (mkAuthDB ∅ ∅) wg_config 0 "tok" (web_request "POST" "/__login" None)
     "correct horse" "correct horse").2 = Some "tok".
Proof.
  pose proof (first_login_opens_dashboard id demo_generate demo_compare demo_bcrypt (λ _, None) id (mkAuthDB ∅ ∅) wg_config 0
    "tok" (web_request "POST" "/__login" None) "correct horse" "h:correct horse" eq_refl eq_refl) as H.
  specialize (H ltac:(vm_compute; lia) eq_refl ltac:(done) ltac:(done) eq_refl).
  destruct (apiDashboardLogin _ _ _ _ _ _ _ _ _ _) as [[db1 a] c]. apply H.
Defined.
