(* ===== verification/Csrf.v ===== *)
(** * Cross-site requests: [cmd/clawpatrol/web_csrf.go]

    The filter in front of the dashboard's gates: which browser requests are
    refused because another site made them, or because they are addressed to a
    name the gateway does not answer for. *)
From S2P Require Import Prelude GoStrings NetAddr GoUrl GoHttp DashboardAuth DashboardProps.

(** ** Names and origins *)

(** What the filter reads of the mux: the public URL captured at start-up and,
    when there is a gateway, its live configuration and node name. *)
Record CsrfView := mkCsrf {
  cv_publicURL : string;
  cv_cfg : option DashConfig;
  cv_hasGateway : bool;
  cv_tailscaleHostname : string
}.

Definition unbracket (h : string) : string := TrimSuffix (TrimPrefix h "[") "]".

(** The host of an authority, without a port or brackets. *)
Definition authority_host (authority : string) : string :=
  unbracket (match net_SplitHostPort authority with Ok (h, _) => h | Err _ => authority end).

Definition authority_port (authority : string) : string :=
  match net_SplitHostPort authority with Ok (_, p) => p | Err _ => "" end.

Definition csrfCanonicalOrigin (scheme authority : string) : string :=
  let scheme := ToLower (TrimSpace scheme) in
  if String.eqb scheme "" || String.eqb authority "" then ""
  else
    let port := authority_port authority in
    let host := ToLower (TrimSuffix (authority_host authority) ".") in
    if String.eqb host "" then ""
    else
      let port := if String.eqb scheme "https" && String.eqb port "443" || String.eqb scheme "http" && String.eqb port "80"
                  then "" else port in
      let host := if ContainsByte host ":" then "[" +:+ host +:+ "]" else host in
      if String.eqb port "" then scheme +:+ "://" +:+ host else scheme +:+ "://" +:+ host +:+ ":" +:+ port.

Definition csrfDeclaredPublicURL (w : CsrfView) : string :=
  TrimSpace (if cv_hasGateway w
             then match cv_cfg w with Some c => dc_PublicURL c | None => cv_publicURL w end
             else cv_publicURL w).

Definition with_scheme (raw : string) : string := if Contains raw "//" then raw else "https://" +:+ raw.

Definition csrfOriginOfURL (raw : string) : string :=
  let raw := TrimSpace raw in
  if String.eqb raw "" then ""
  else match url_Parse (with_scheme raw) with
       | None => ""
       | Some u => csrfCanonicalOrigin (url_Scheme u) (url_Host u)
       end.

Definition csrfDeclaredOrigin (w : CsrfView) : string := csrfOriginOfURL (csrfDeclaredPublicURL w).

(** [strings.Cut] at "://". *)
Definition cut_scheme (origin : string) : string * string * bool :=
  match Index origin "://" with
  | Some i => (str_take i origin, str_drop (i + 3) origin, true)
  | None => (origin, "", false)
  end.

Definition csrfSchemeOfOrigin (origin : string) : string := (cut_scheme origin).1.1.

Definition csrfHostOfOrigin (origin : string) : string :=
  let '(_, rest, ok) := cut_scheme origin in
  if negb ok then ""
  else if HasPrefix rest "[" then match IndexByte rest "]" with Some i => str_take (S i) rest | None => "" end
  else (CutByte rest ":").1.1.

Definition csrfSameHost (a b : string) : bool :=
  String.eqb (csrfHostOfOrigin a) (csrfHostOfOrigin b) && negb (String.eqb (csrfHostOfOrigin a) "").

Definition csrfHostOfURL (raw : string) : string :=
  let raw := TrimSpace raw in
  if String.eqb raw "" then ""
  else match url_Parse (with_scheme raw) with None => "" | Some u => ToLower (Hostname u) end.

Definition csrfHostOfListen (listen : string) : string :=
  let listen := TrimSpace listen in
  if String.eqb listen "" then ""
  else
    let host := ToLower (authority_host listen) in
    if existsb (String.eqb host) [""; "0.0.0.0"; "::"; "*"] then ""
    else if bool_decide (is_Some (ParseIP host)) then ""
    else host.

Definition csrfDeclaredHostname (entry : string) : string :=
  let entry := TrimSpace entry in
  if String.eqb entry "" then ""
  else if Contains entry "//" then csrfHostOfURL entry
  else ToLower (TrimSuffix (authority_host entry) ".").

Definition names (h lower : string) : bool := negb (String.eqb h "") && String.eqb h lower.

Definition csrfHostAllowed (w : CsrfView) (host : string) : bool :=
  if String.eqb host "" then false
  else
    let name := authority_host host in
    if String.eqb name "" then false
    else if bool_decide (is_Some (ParseIP name)) then true
    else
      let lower := ToLower (TrimSuffix name ".") in
      if String.eqb lower "localhost" || HasSuffix lower ".localhost" then true
      else if names (csrfHostOfURL (csrfDeclaredPublicURL w)) lower then true
      else if negb (cv_hasGateway w) then false
      else if match cv_cfg w with
              | Some c => names (csrfHostOfListen (dc_DashboardListen c)) lower ||
                          existsb (λ d, names (csrfDeclaredHostname d) lower) (dc_DashboardHosts c)
              | None => false
              end then true
      else
        let tsName := ToLower (cv_tailscaleHostname w) in
        negb (String.eqb tsName "") &&
        (String.eqb lower tsName || HasPrefix lower (tsName +:+ ".") && HasSuffix lower ".ts.net").

(** The schemes the request could have come from. *)
Definition possible_schemes (w : CsrfView) (r : WebRequest) (want : string) : list string :=
  let declared := csrfDeclaredOrigin w in
  if wq_TLS r then ["https"]
  else if negb (String.eqb declared "") && csrfSameHost declared want then [csrfSchemeOfOrigin declared]
  else ["https"; "http"].

Definition csrfOriginIsOwn (w : CsrfView) (origin : URL) (r : WebRequest) : bool :=
  if String.eqb (url_Host origin) "" then false
  else
    let want := csrfCanonicalOrigin (url_Scheme origin) (url_Host origin) in
    if String.eqb want "" then false
    else
      let declared := csrfDeclaredOrigin w in
      if negb (String.eqb declared "") && String.eqb declared want then true
      else if String.eqb (wq_Host r) "" then false
      else if negb (csrfHostAllowed w (wq_Host r)) then false
      else existsb (λ scheme, String.eqb (csrfCanonicalOrigin scheme (wq_Host r)) want) (possible_schemes w r want).

(** ** The filter *)

Definition csrfGuardedRead (req : authRequirement) : bool :=
  match req with authPublic | authSelfAuthenticating => false | _ => true end.

Definition csrfRelevantMethod (method : string) : bool :=
  negb (String.eqb method "GET" || String.eqb method "HEAD" || String.eqb method "OPTIONS").

Definition csrfFormContentType (header : string) : string :=
  if String.eqb header "" then ""
  else match ParseMediaType header with
       | None => ""
       | Some m => if existsb (String.eqb (mt_Type m))
                        ["application/x-www-form-urlencoded"; "multipart/form-data"; "text/plain"]
                   then mt_Type m else ""
       end.

Inductive CsrfDenial :=
| FormWithoutOrigin (contentType : string)
| CrossSite (site : string)
| UnknownHost
| InvalidOrigin
| OriginWithoutHost
| ForeignOrigin
| ReadUnknownHost
| CrossSiteRead (site : string).

(** [None]: handed to the gates. *)
Definition csrfProtectRead (w : CsrfView) (r : WebRequest) : option CsrfDenial :=
  if negb (csrfGuardedRead (authOf (wq_Path r))) then None
  else if negb (csrfHostAllowed w (wq_Host r)) then Some ReadUnknownHost
  else if HasPrefix (wq_Path r) "/api/" then
    let site := header_Get (wq_Header r) "Sec-Fetch-Site" in
    if existsb (String.eqb site) [""; "same-origin"; "none"] then None else Some (CrossSiteRead site)
  else None.

(** The routes whose writes are not checked. *)
Definition csrf_open_route (path : string) : bool :=
  match authOf path with
  | authPublic => negb (String.eqb path dashboardLoginPath)
  | authSelfAuthenticating => true
  | _ => false
  end.

Definition csrf_check (w : CsrfView) (r : WebRequest) : option CsrfDenial :=
  if negb (csrfRelevantMethod (wq_Method r)) then csrfProtectRead w r
  else if csrf_open_route (wq_Path r) then None
  else
    let secFetchSite := header_Get (wq_Header r) "Sec-Fetch-Site" in
    let origin := header_Get (wq_Header r) "Origin" in
    if String.eqb secFetchSite "" && String.eqb origin "" then
      let ct := csrfFormContentType (header_Get (wq_Header r) "Content-Type") in
      if negb (String.eqb ct "") then Some (FormWithoutOrigin ct) else None
    else if negb (String.eqb secFetchSite "") && negb (String.eqb secFetchSite "same-origin") then Some (CrossSite secFetchSite)
    else if String.eqb origin "" then if csrfHostAllowed w (wq_Host r) then None else Some UnknownHost
    else match url_Parse origin with
         | None => Some InvalidOrigin
         | Some parsed =>
             if String.eqb (url_Host parsed) "" then Some OriginWithoutHost
             else if csrfOriginIsOwn w parsed r then None else Some ForeignOrigin
         end.

(** [handler]: the filter around the two gates. *)
Definition handler (hash : string -> string) (lookupWhois : string -> option WhoIs) (QueryEscape : string -> string)
    (skipGate : bool) (w : CsrfView) (cfg : DashConfig) (now : Z) (db : AuthDB) (r : WebRequest) : AuthDB * Answer :=
  match csrf_check w r with
  | Some _ => (db, AError 403 "CSRF request denied")
  | None => dashboardAuthGate hash lookupWhois QueryEscape skipGate cfg now db r
  end.

(** ** Same origin *)

Definition host_byte (c : ascii) : bool := is_alnum c || one_of_bytes "-._" c.

Lemma host_byte_lower c : host_byte c = true → host_byte (lower_byte c) = true.
Proof. by byte_cases c. Qed.

Lemma str_forall_map p f s :
  (∀ c, p c = true → p (f c) = true) → str_forall p s = true → str_forall p (str_map f s) = true.
Proof.
  intros H. induction s as [|c s IH]; cbn; [done|]. intros [Hc Hs]%andb_true_iff. by rewrite (H c Hc), IH.
Qed.

Lemma str_forall_TrimSuffix p s q : str_forall p s = true → str_forall p (TrimSuffix s q) = true.
Proof.
  intros H. unfold TrimSuffix. destruct (HasSuffix s q) eqn:E; [|done]. apply HasSuffix_spec in E as [l ->].
  rewrite str_length_app, Nat.add_sub, str_take_app. rewrite str_forall_app in H. by apply andb_true_iff in H as [? _].
Qed.

(** An authority: a host name or IPv4 address, or an IPv6 address in brackets,
    with an optional port. *)
Record Authority := mkAuthority { au_v6 : bool; au_host : string; au_port : option string }.

Definition bracketed (v6 : bool) (h : string) : string := if v6 then String lbracket (h +:+ String rbracket "") else h.

Definition authority_text (a : Authority) : string :=
  bracketed (au_v6 a) (au_host a) +:+ match au_port a with Some p => String colon p | None => "" end.

Definition canonical_host (h : string) : string := ToLower (TrimSuffix h ".").

Definition v6_byte (c : ascii) : bool := one_of_bytes "0123456789abcdefABCDEF:" c.

Definition authority_ok (a : Authority) : Prop :=
  (if au_v6 a then str_forall v6_byte (au_host a) = true ∧ ContainsByte (au_host a) colon = true
   else str_forall host_byte (au_host a) = true) ∧
  canonical_host (au_host a) ≠ "" ∧
  match au_port a with Some p => str_forall is_digit p = true | None => True end.

Definition web_scheme (s : string) : Prop := ToLower s = "http" ∨ ToLower s = "https".

(** The port a browser connects to. *)
Definition effective_port (scheme : string) (a : Authority) : string :=
  match au_port a with
  | Some (String c p) => String c p
  | _ => if String.eqb (ToLower scheme) "https" then "443" else "80"
  end.

(** The same origin: scheme, host and port. *)
Definition same_origin (s1 : string) (a1 : Authority) (s2 : string) (a2 : Authority) : Prop :=
  ToLower s1 = ToLower s2 ∧ au_v6 a1 = au_v6 a2 ∧ canonical_host (au_host a1) = canonical_host (au_host a2) ∧
  effective_port s1 a1 = effective_port s2 a2.

(** The port as it is written in a canonical origin. *)
Definition shown_port (scheme : string) (a : Authority) : string :=
  let p := default "" (au_port a) in
  if String.eqb scheme "https" && String.eqb p "443" || String.eqb scheme "http" && String.eqb p "80" then "" else p.

Lemma shown_port_equiv s a b :
  web_scheme s → shown_port (ToLower s) a = shown_port (ToLower s) b ↔ effective_port s a = effective_port s b.
Proof.
  intros Hs. unfold shown_port, effective_port.
  assert (∀ x : option string, match x with Some (String c p) => String c p | _ => if String.eqb (ToLower s) "https" then "443" else "80" end =
    if String.eqb (default "" x) "" then if String.eqb (ToLower s) "https" then "443" else "80" else default "" x) as He
    by (by intros [[|c p]|]).
  rewrite !He. generalize (default "" (au_port a)) (default "" (au_port b)). intros pa pb.
  destruct Hs as [-> | ->]; cbn [String.eqb Ascii.eqb Bool.eqb andb orb].
  - destruct (String.eqb_spec pa "80"), (String.eqb_spec pb "80"), (String.eqb_spec pa ""), (String.eqb_spec pb ""); naive_solver.
  - rewrite !orb_false_r.
    destruct (String.eqb_spec pa "443"), (String.eqb_spec pb "443"), (String.eqb_spec pa ""), (String.eqb_spec pb ""); naive_solver.
Qed.

Lemma authority_ok_nonempty a : authority_ok a → au_host a ≠ "".
Proof. intros (_ & H & _) E. by rewrite E in H. Qed.

Lemma net_SplitHostPort_bracketed h p :
  IndexByte h lbracket = None → IndexByte h rbracket = None → str_forall is_digit p = true →
  net_SplitHostPort (bracketed true h +:+ String colon p) = Ok (h, p).
Proof.
  intros Hl Hr Hp. unfold net_SplitHostPort.
  assert (∀ c, is_digit c = false → IndexByte p c = None) as Hno by (intros c Hc; by eapply (str_forall_IndexByte is_digit)).
  rewrite LastIndexByte_app_last by by apply Hno.
  assert (bracketed true h +:+ String colon p = String lbracket (h +:+ String rbracket (String colon p))) as ->
    by (cbn [bracketed String.append]; by rewrite str_app_assoc).
  replace (String.length (bracketed true h)) with (S (S (String.length h)))
    by (cbn [bracketed String.length]; rewrite str_length_app; cbn; lia).
  change (HasPrefix (String lbracket (h +:+ String rbracket (String colon p))) "[") with true. cbv iota.
  assert (IndexByte (String lbracket (h +:+ String rbracket (String colon p))) rbracket = Some (S (String.length h))) as ->.
  { cbn [IndexByte]. change (Ascii.eqb lbracket rbracket) with false. cbv iota. by rewrite IndexByte_app_first. }
  assert (String.length (String lbracket (h +:+ String rbracket (String colon p))) = S (String.length h + S (S (String.length p)))) as ->
    by (cbn [String.length]; by rewrite str_length_app).
  rewrite (proj2 (Nat.eqb_neq _ _)) by lia. rewrite Nat.eqb_refl.
  assert (str_drop (S (S (String.length h))) (String lbracket (h +:+ String rbracket (String colon p))) = String colon p) as Hd.
  { change (str_drop (S (S (String.length h))) (String lbracket (h +:+ String rbracket (String colon p))))
      with (str_drop (S (String.length h)) (h +:+ String rbracket (String colon p))).
    replace (S (String.length h)) with (String.length h + 1)%nat by lia. rewrite <- str_drop_drop, str_drop_app. done. }
  unfold split_tail. rewrite Hd.
  assert (has_byte (str_drop 1 (String lbracket (h +:+ String rbracket (String colon p)))) lbracket = false) as ->.
  { unfold has_byte, ContainsByte. change (str_drop 1 (String lbracket ?x)) with x.
    rewrite (proj2 (IndexByte_None_app _ _ _)); [done|]. split; [done|]. cbn. by rewrite Hno. }
  assert (has_byte (String colon p) rbracket = false) as -> by (unfold has_byte, ContainsByte; cbn; by rewrite Hno).
  f_equal. f_equal.
  - unfold str_slice. change (str_drop 1 (String lbracket ?x)) with x.
    replace (S (String.length h) - 1)%nat with (String.length h) by lia. apply str_take_app.
  - replace (S (S (S (String.length h)))) with (S (S (String.length h)) + 1)%nat by lia. rewrite <- str_drop_drop, Hd. done.
Qed.

Lemma net_SplitHostPort_no_port h :
  IndexByte h rbracket = None → ∃ e, net_SplitHostPort (bracketed true h) = Err e.
Proof.
  intros Hr. unfold net_SplitHostPort. destruct (LastIndexByte _ _) as [i|]; [|by eexists].
  cbn [bracketed]. change (HasPrefix (String lbracket (h +:+ String rbracket "")) "[") with true. cbv iota.
  assert (IndexByte (String lbracket (h +:+ String rbracket "")) rbracket = Some (S (String.length h))) as ->.
  { cbn [IndexByte]. change (Ascii.eqb lbracket rbracket) with false. cbv iota. by rewrite IndexByte_app_first. }
  cbn [String.length]. rewrite str_length_app. cbn [String.length].
  rewrite (proj2 (Nat.eqb_eq _ _)) by lia. by eexists.
Qed.

Lemma unbracket_plain h : str_forall (λ c, negb (one_of_bytes "[]" c)) h = true → unbracket h = h.
Proof.
  intros Hh. unfold unbracket, TrimPrefix. destruct (HasPrefix h "[") eqn:E.
  { apply HasPrefix_spec in E as [r E]. by rewrite E in Hh. }
  unfold TrimSuffix. destruct (HasSuffix h "]") eqn:E2; [|done].
  apply HasSuffix_spec in E2 as [l E2]. rewrite E2, str_forall_app in Hh. by apply andb_true_iff in Hh as [_ ?].
Qed.

Lemma unbracket_bracketed h : unbracket (bracketed true h) = h.
Proof. unfold unbracket, bracketed, TrimPrefix. cbn [HasPrefix String.prefix]. apply (TrimSuffix_app h "]"). Qed.

Lemma authority_no_brackets a : authority_ok a → str_forall (λ c, negb (one_of_bytes "[]" c)) (au_host a) = true.
Proof.
  intros [H _]. destruct (au_v6 a); [destruct H as [H _]|]; (eapply str_forall_impl; [|exact H]); intros c; by byte_cases c.
Qed.

Lemma authority_split a :
  authority_ok a →
  authority_host (authority_text a) = au_host a ∧ authority_port (authority_text a) = default "" (au_port a).
Proof.
  intros Ha. pose proof (authority_ok_nonempty a Ha) as Hne. pose proof (authority_no_brackets a Ha) as Hnb.
  pose proof (unbracket_plain _ Hnb) as Hun. destruct Ha as (Hh & _ & Hp).
  assert (IndexByte (au_host a) lbracket = None ∧ IndexByte (au_host a) rbracket = None) as [Hl Hr]
    by (split; by eapply str_forall_IndexByte; [|exact Hnb]).
  unfold authority_host, authority_port, authority_text. destruct (au_v6 a).
  - destruct (au_port a) as [p|]; cbn [default].
    + by rewrite net_SplitHostPort_bracketed, Hun.
    + rewrite str_app_nil_r. destruct (net_SplitHostPort_no_port (au_host a) Hr) as [e ->]. by rewrite unbracket_bracketed.
  - cbn [bracketed]. assert (IndexByte (au_host a) colon = None) as Hc by (eapply (str_forall_IndexByte host_byte); done).
    destruct (au_port a) as [p|].
    + rewrite net_SplitHostPort_plain; [by rewrite Hun|done..| | | |done]. all: by eapply (str_forall_IndexByte is_digit).
    + rewrite str_app_nil_r. unfold net_SplitHostPort. rewrite (proj2 (LastIndexByte_None _ _) Hc). by rewrite Hun.
Qed.

Definition origin_text (scheme host port : string) : string :=
  scheme +:+ "://" +:+ host +:+ (if String.eqb port "" then "" else String colon port).

(** Canonical hosts have a colon exactly when they are IPv6 addresses. *)
Lemma canonical_colon a : authority_ok a → ContainsByte (canonical_host (au_host a)) ":" = au_v6 a.
Proof.
  intros (Hh & _). destruct (au_v6 a).
  - destruct Hh as [Hh Hc]. unfold canonical_host, TrimSuffix. destruct (HasSuffix (au_host a) ".") eqn:E.
    { apply HasSuffix_spec in E as [l E]. rewrite E, str_forall_app in Hh. by apply andb_true_iff in Hh as [_ ?]. }
    clear -Hc. revert Hc. unfold ContainsByte, ToLower. induction (au_host a) as [|c h IH]; [done|]. cbn [str_map IndexByte].
    destruct (Ascii.eqb_spec c colon) as [->|Hc']; [done|].
    destruct (Ascii.eqb (lower_byte c) ":"); [done|]. intros H.
    assert (match IndexByte h colon with Some _ => true | None => false end = true) as H'%IH by (by destruct (IndexByte h colon)).
    by destruct (IndexByte (str_map lower_byte h) ":").
  - unfold ContainsByte. rewrite (str_forall_IndexByte host_byte); [done|done|].
    apply str_forall_map; [apply host_byte_lower|]. by apply str_forall_TrimSuffix.
Qed.

Lemma web_scheme_trim s : web_scheme s → ToLower (TrimSpace s) = ToLower s.
Proof.
  intros Hs. assert (str_forall is_letter s = true) as Hl.
  { assert (∀ c, is_letter (lower_byte c) = true → is_letter c = true) as Hlb by (intros c; by byte_cases c).
    assert (str_forall is_letter (ToLower s) = true) as H by (by destruct Hs as [-> | ->]).
    clear Hs. revert H. unfold ToLower. induction s as [|c s IH]; cbn; [done|].
    intros [Hc H]%andb_true_iff. rewrite Hlb by done. by apply IH. }
  unfold TrimSpace. destruct (trim_by_spec is_space s) as (l & r & E & Hl' & Hr').
  rewrite E in Hl at 1. rewrite !str_forall_app in Hl.
  assert (∀ x, str_forall is_letter x = true → str_forall is_space x = true → x = "") as Hboth.
  { intros [|c x]; cbn; [done|]. intros [Hc _]%andb_true_iff [Hc' _]%andb_true_iff. exfalso. by byte_cases c. }
  apply andb_true_iff in Hl as [Hl1 [_ Hl2]%andb_true_iff].
  rewrite E at 2. rewrite (Hboth l), (Hboth r), str_app_nil_r by done. done.
Qed.

Lemma canonical_text s a :
  web_scheme s → authority_ok a →
  csrfCanonicalOrigin s (authority_text a) =
  origin_text (ToLower s) (bracketed (au_v6 a) (canonical_host (au_host a))) (shown_port (ToLower s) a).
Proof.
  intros Hs Ha. destruct (authority_split a Ha) as [Hh Hp]. unfold csrfCanonicalOrigin. rewrite web_scheme_trim by done.
  assert (String.eqb (ToLower s) "" = false ∧ String.eqb (authority_text a) "" = false) as [-> ->].
  { split; [by destruct Hs as [-> | ->]|]. apply String.eqb_neq. unfold authority_text.
    intros [H _]%str_app_nil_inv. destruct (au_v6 a); [done|]. by eapply authority_ok_nonempty. }
  cbn [orb]. rewrite Hh, Hp. fold (canonical_host (au_host a)).
  destruct (String.eqb (canonical_host (au_host a)) "") eqn:E; [bprop; by destruct Ha as (_ & ? & _)|].
  rewrite (canonical_colon a Ha). unfold origin_text.
  change (if _ || _ then "" else default "" (au_port a)) with (shown_port (ToLower s) a).
  destruct (au_v6 a); cbn [bracketed]; destruct (String.eqb (shown_port _ _) ""); rewrite ?str_app_nil_r; done.
Qed.

Lemma origin_text_inj s1 v1 h1 p1 s2 v2 h2 p2 :
  no_byte ":" s1 = true → no_byte ":" s2 = true →
  (∀ v h, (v, h) = (v1, h1) ∨ (v, h) = (v2, h2) → h ≠ "" ∧ str_forall (λ c, negb (one_of_bytes "[]" c)) h = true ∧ (v = false → no_byte ":" h = true)) →
  origin_text s1 (bracketed v1 h1) p1 = origin_text s2 (bracketed v2 h2) p2 → s1 = s2 ∧ v1 = v2 ∧ h1 = h2 ∧ p1 = p2.
Proof.
  intros Hs1 Hs2 Hh H. unfold origin_text in H. apply (cut_inj ":" s1 s2) in H as [-> H]; [|done..]. injection H as H.
  destruct (Hh v1 h1) as (Hn1 & Hb1 & Hc1); [by left|]. destruct (Hh v2 h2) as (Hn2 & Hb2 & Hc2); [by right|].
  assert (∀ h, str_forall (λ c, negb (one_of_bytes "[]" c)) h = true → no_byte rbracket h = true) as Hrb
    by (intros h Hb; eapply str_forall_impl; [|exact Hb]; intros c; by byte_cases c).
  assert (∀ p q, (if String.eqb p "" then "" else String colon p) = (if String.eqb q "" then "" else String colon q) → p = q) as Hpq.
  { intros p q. destruct (String.eqb_spec p ""), (String.eqb_spec q ""); congruence. }
  destruct v1, v2; cbn [bracketed] in H.
  - injection H as H. rewrite !str_app_assoc in H. apply (cut_inj rbracket h1 h2) in H as [-> H]; [|by apply Hrb..].
    cbn in H. by apply Hpq in H as ->.
  - exfalso. destruct h2 as [|c h2]; [done|]. injection H as <- _. done.
  - exfalso. destruct h1 as [|c h1]; [done|]. injection H as -> _. done.
  - specialize (Hc1 eq_refl). specialize (Hc2 eq_refl).
    destruct (String.eqb_spec p1 "") as [->|E1], (String.eqb_spec p2 "") as [->|E2].
    + rewrite !str_app_nil_r in H. done.
    + exfalso. rewrite str_app_nil_r in H. subst h1. unfold no_byte in Hc1.
      rewrite str_forall_app in Hc1. by apply andb_true_iff in Hc1 as [_ ?].
    + exfalso. rewrite str_app_nil_r in H. subst h2. unfold no_byte in Hc2.
      rewrite str_forall_app in Hc2. by apply andb_true_iff in Hc2 as [_ ?].
    + by apply cut_inj in H as [-> ->].
Qed.

Lemma canonical_host_shape a : authority_ok a →
  canonical_host (au_host a) ≠ "" ∧ str_forall (λ c, negb (one_of_bytes "[]" c)) (canonical_host (au_host a)) = true ∧
  (au_v6 a = false → no_byte ":" (canonical_host (au_host a)) = true).
Proof.
  intros Ha. split_and!; [by destruct Ha as (_ & ? & _)| |].
  - apply str_forall_map; [intros c; by byte_cases c|]. by apply str_forall_TrimSuffix, authority_no_brackets.
  - intros Hv. destruct Ha as (Hh & _). rewrite Hv in Hh. unfold no_byte. eapply (str_forall_impl host_byte).
    + intros c. by byte_cases c.
    + apply str_forall_map; [apply host_byte_lower|]. by apply str_forall_TrimSuffix.
Qed.

(** The text two origins are compared by decides sameness of origin. *)
Lemma canonical_same_origin s1 a1 s2 a2 :
  web_scheme s1 → web_scheme s2 → authority_ok a1 → authority_ok a2 →
  csrfCanonicalOrigin s1 (authority_text a1) = csrfCanonicalOrigin s2 (authority_text a2) ↔ same_origin s1 a1 s2 a2.
Proof.
  intros Hs1 Hs2 Ha1 Ha2. rewrite !canonical_text by done. unfold same_origin. split.
  - intros H. apply origin_text_inj in H as (Hs & Hv & Hh & Hp); [|by destruct Hs1 as [-> | ->]|by destruct Hs2 as [-> | ->]|].
    + split_and!; [done..|]. rewrite <- Hs in Hp. apply (shown_port_equiv s1 a1 a2 Hs1) in Hp. rewrite Hp.
      unfold effective_port. by rewrite Hs.
    + intros v h [[= -> ->]|[= -> ->]]; by apply canonical_host_shape.
  - intros (Hs & -> & -> & Hp). rewrite <- Hs. f_equal. apply (shown_port_equiv s1 a1 a2 Hs1). rewrite Hp.
    unfold effective_port. by rewrite Hs.
Qed.

(** The text two origins are compared by decides sameness of origin: equal texts
    mean the same scheme, the same host up to letter case and a final dot, and
    the same port, an absent port being the default of the scheme. *)
Theorem canonical_origin_equiv s1 a1 s2 a2 :
  web_scheme s1 → web_scheme s2 → authority_ok a1 → authority_ok a2 →
  csrfCanonicalOrigin s1 (authority_text a1) = csrfCanonicalOrigin s2 (authority_text a2) ↔ same_origin s1 a1 s2 a2.
Proof. apply canonical_same_origin. Qed.

(** ** What the gateway calls its own *)

(** The public URL in force: the live configuration's when the gateway has one,
    and otherwise the one given at start-up. *)
Inductive public_url (w : CsrfView) : string -> Prop :=
| public_live c : cv_hasGateway w = true → cv_cfg w = Some c → public_url w (TrimSpace (dc_PublicURL c))
| public_startup : (cv_hasGateway w = true → cv_cfg w = None) → public_url w (TrimSpace (cv_publicURL w)).

(** It is read as a URL, [https] if it names no scheme. *)
Definition declared_url (w : CsrfView) (u : URL) : Prop :=
  ∃ raw, public_url w raw ∧ raw ≠ "" ∧ url_Parse (if Contains raw "//" then raw else "https://" +:+ raw) = Some u.

Definition declares (w : CsrfView) (s : string) (d : Authority) : Prop :=
  ∃ u, declared_url w u ∧ url_Scheme u = s ∧ url_Host u = authority_text d.

(** A public URL, if there is one, is an [http] or [https] URL with an authority. *)
Definition public_url_ok (w : CsrfView) : Prop :=
  ∀ u, declared_url w u → web_scheme (url_Scheme u) ∧ ∃ d, authority_ok d ∧ url_Host u = authority_text d.

(** The host of "host", "host:port", "[v6]" or "[v6]:port". *)
Definition host_part (text host : string) : Prop :=
  ∃ h, host = TrimSuffix (TrimPrefix h "[") "]" ∧
    ((∃ port, net_SplitHostPort text = Ok (h, port)) ∨ (∃ e, net_SplitHostPort text = Err e) ∧ h = text).

Definition listens_as (listen name : string) : Prop :=
  name ≠ "" ∧ name ≠ "0.0.0.0" ∧ name ≠ "::" ∧ name ≠ "*" ∧ ParseIP name = None ∧
  ∃ host, host_part (TrimSpace listen) host ∧ ToLower host = name.

Definition declared_as (entry name : string) : Prop :=
  name ≠ "" ∧
  if Contains (TrimSpace entry) "//" then ∃ u, url_Parse (TrimSpace entry) = Some u ∧ ToLower (Hostname u) = name
  else ∃ host, host_part (TrimSpace entry) host ∧ canonical_host host = name.

(** The names the gateway answers for: an IP address, [localhost] and names under
    it, the host of the public URL, of [dashboard_listen] or of an entry of
    [dashboard_hosts], and the tailnet node, bare or under [ts.net]. *)
Definition answers_for (w : CsrfView) (h : Authority) : Prop :=
  let name := canonical_host (au_host h) in
  is_Some (ParseIP (au_host h)) ∨ name = "localhost" ∨ (∃ l, name = l +:+ ".localhost") ∨
  (∃ u, declared_url w u ∧ ToLower (Hostname u) = name) ∨
  cv_hasGateway w = true ∧
  ((∃ c, cv_cfg w = Some c ∧
      (listens_as (dc_DashboardListen c) name ∨ ∃ d, d ∈ dc_DashboardHosts c ∧ declared_as d name)) ∨
   (∃ node, ToLower (cv_tailscaleHostname w) = node ∧ node ≠ "" ∧
      (name = node ∨ (∃ l, name = node +:+ ("." +:+ l)) ∧ ∃ l, name = l +:+ ".ts.net"))).

Lemma trim_right_idem p s : trim_right_by p (trim_right_by p s) = trim_right_by p s.
Proof.
  induction s as [|c s IH]; [done|]. cbn [trim_right_by]. destruct (trim_right_by p s) as [|d t] eqn:E.
  - destruct (p c) eqn:Ec; cbn; by rewrite ?Ec.
  - cbn [trim_right_by] in IH |- *. by rewrite IH.
Qed.

Lemma TrimSpace_idem s : TrimSpace (TrimSpace s) = TrimSpace s.
Proof.
  unfold TrimSpace, trim_by. set (t := trim_left_by is_space s).
  assert (t = "" ∨ ∃ c r, t = String c r ∧ is_space c = false) as Ht.
  { unfold t. clear t. induction s as [|c s IH]; cbn; [by left|]. destruct (is_space c) eqn:E; [done|]. right. eauto. }
  assert (trim_left_by is_space (trim_right_by is_space t) = trim_right_by is_space t) as ->; [|apply trim_right_idem].
  destruct Ht as [->|(c & r & -> & Hc)]; [done|]. cbn [trim_right_by].
  destruct (trim_right_by is_space r); rewrite ?Hc; cbn; by rewrite Hc.
Qed.

Lemma public_url_declared w : public_url w (csrfDeclaredPublicURL w).
Proof.
  unfold csrfDeclaredPublicURL. destruct (cv_hasGateway w) eqn:Eg; [|apply public_startup; congruence].
  destruct (cv_cfg w) eqn:Ec; [by apply public_live|by apply public_startup].
Qed.

Lemma public_url_unique w raw : public_url w raw → raw = csrfDeclaredPublicURL w.
Proof.
  unfold csrfDeclaredPublicURL. intros [c -> ->|H]; [done|]. destruct (cv_hasGateway w); [|done]. by rewrite H.
Qed.

Lemma public_url_trimmed w : TrimSpace (csrfDeclaredPublicURL w) = csrfDeclaredPublicURL w.
Proof. apply TrimSpace_idem. Qed.

Lemma declared_url_unique w u v : declared_url w u → declared_url w v → u = v.
Proof. intros (r & ->%public_url_unique & _ & Hu) (r' & ->%public_url_unique & _ & Hv). congruence. Qed.

(** The declared origin is the canonical form of the declared URL. *)
Lemma declared_origin_of w u : declared_url w u → csrfDeclaredOrigin w = csrfCanonicalOrigin (url_Scheme u) (url_Host u).
Proof.
  intros (raw & ->%public_url_unique & Hne & Hu). unfold csrfDeclaredOrigin, csrfOriginOfURL. rewrite public_url_trimmed.
  rewrite (proj2 (String.eqb_neq _ _) Hne). unfold with_scheme. by rewrite Hu.
Qed.

Lemma declared_origin_url w : csrfDeclaredOrigin w ≠ "" → ∃ u, declared_url w u.
Proof.
  unfold csrfDeclaredOrigin, csrfOriginOfURL. rewrite public_url_trimmed.
  destruct (String.eqb_spec (csrfDeclaredPublicURL w) ""); [done|].
  destruct (url_Parse _) as [u|] eqn:E; [|done]. exists u, (csrfDeclaredPublicURL w).
  split_and!; [apply public_url_declared|done|done].
Qed.

Lemma host_part_of text : host_part text (authority_host text).
Proof.
  unfold authority_host, unbracket. destruct (net_SplitHostPort text) as [[h p]|e] eqn:E.
  - exists h. split; [done|]. left. by exists p.
  - exists text. split; [done|]. right. split; [by exists e|done].
Qed.

Lemma listen_names listen name : names (csrfHostOfListen listen) name = true → listens_as listen name.
Proof.
  unfold names, csrfHostOfListen. intros [Hne Heq]%andb_true_iff. bprop. revert Hne Heq.
  destruct (String.eqb (TrimSpace listen) ""); [done|].
  destruct (existsb _ _) eqn:Ex; [done|]. destruct (bool_decide _) eqn:Eb; [done|]. intros Hne <-.
  cbn [existsb] in Ex. rewrite !orb_false_iff in Ex. destruct Ex as (? & ? & ? & ? & _).
  apply bool_decide_eq_false in Eb. split_and!; try (by apply String.eqb_neq).
  - by destruct (ParseIP _); [destruct Eb; eauto|].
  - eexists. split; [apply host_part_of|done].
Qed.

Lemma entry_names entry name : names (csrfDeclaredHostname entry) name = true → declared_as entry name.
Proof.
  unfold names, csrfDeclaredHostname. intros [Hne Heq]%andb_true_iff. bprop. revert Hne Heq. unfold declared_as.
  destruct (String.eqb (TrimSpace entry) "") eqn:Ee; [done|]. destruct (Contains (TrimSpace entry) "//") eqn:Ec.
  - unfold csrfHostOfURL. rewrite TrimSpace_idem, Ee. unfold with_scheme. rewrite Ec.
    destruct (url_Parse _) as [u|]; [|done]. intros Hne <-. split; [done|]. eauto.
  - intros Hne <-. split; [done|]. eexists. split; [apply host_part_of|done].
Qed.

Lemma csrfHostAllowed_answers w h : authority_ok h → csrfHostAllowed w (authority_text h) = true → answers_for w h.
Proof.
  intros Hh. unfold csrfHostAllowed, answers_for. rewrite (proj1 (authority_split h Hh)).
  destruct (String.eqb (authority_text h) ""); [done|]. destruct (String.eqb (au_host h) ""); [done|].
  destruct (bool_decide _) eqn:Ei; [apply bool_decide_eq_true in Ei; auto|].
  fold (canonical_host (au_host h)). set (name := canonical_host (au_host h)).
  destruct (String.eqb_spec name "localhost"); [auto|]. destruct (HasSuffix name ".localhost") eqn:El; cbn [orb].
  { apply HasSuffix_spec in El. auto. }
  destruct (names (csrfHostOfURL (csrfDeclaredPublicURL w)) name) eqn:Eu.
  { intros _. do 3 right. left. revert Eu. unfold names, csrfHostOfURL. rewrite public_url_trimmed.
    destruct (String.eqb_spec (csrfDeclaredPublicURL w) "") as [|Hne]; [done|].
    destruct (url_Parse (with_scheme (csrfDeclaredPublicURL w))) as [u|] eqn:E; [|done].
    intros [_ Hn]%andb_true_iff. bprop. exists u. split; [|done].
    exists (csrfDeclaredPublicURL w). split_and!; [apply public_url_declared|done|done]. }
  destruct (cv_hasGateway w); cbn [negb]; [|done]. intros H. do 4 right. split; [done|].
  match type of H with (if ?b then _ else _) = _ => destruct b eqn:Ec end.
  - left. destruct (cv_cfg w) as [c|]; [|done]. exists c. split; [done|].
    apply orb_true_iff in Ec as [Ec|Ec]; [left; by apply listen_names|right].
    apply existsb_exists in Ec as (d & Hd & Hn). exists d. split; [by apply list_elem_of_In|by apply entry_names].
  - right. eexists. split; [done|]. rewrite andb_true_iff, orb_true_iff, andb_true_iff, HasPrefix_spec, HasSuffix_spec in H.
    destruct H as [Hne H]. bprop. split; [done|]. destruct H as [H|[[l H] ?]]; bprop; [by left|right].
    split; [|done]. exists l. rewrite H. by rewrite str_app_assoc.
Qed.

(** ** Taking a canonical origin apart *)

Lemma cut_scheme_origin s h p : no_byte ":" s = true →
  cut_scheme (origin_text s h p) = (s, h +:+ (if String.eqb p "" then "" else String colon p), true).
Proof.
  intros Hs. unfold cut_scheme, origin_text.
  assert (∀ x, Index (s +:+ ("://" +:+ x)) "://" = Some (String.length s)) as ->.
  { intros x. induction s as [|c s IH]; [done|]. cbn in Hs. apply andb_true_iff in Hs as [Hc Hs].
    change (String c s +:+ ("://" +:+ x)) with (String c (s +:+ ("://" +:+ x))). cbn [Index]. rewrite IH by done. assert (HasPrefix (String c (s +:+ ("://" +:+ x))) "://" = false) as ->; [|done].
    apply not_true_iff_false. intros [r [= -> _]]%HasPrefix_spec. done. }
  rewrite str_take_app. f_equal. f_equal. rewrite <- str_drop_drop, str_drop_app. done.
Qed.

Lemma csrfHostOfOrigin_text s v h p :
  no_byte ":" s = true → h ≠ "" → str_forall (λ c, negb (one_of_bytes "[]" c)) h = true → (v = false → no_byte ":" h = true) →
  csrfHostOfOrigin (origin_text s (bracketed v h) p) = bracketed v h.
Proof.
  intros Hs Hne Hb Hc. unfold csrfHostOfOrigin. rewrite cut_scheme_origin by done. cbn [negb].
  set (q := if String.eqb p "" then "" else String colon p). destruct v; cbn [bracketed].
  - change (HasPrefix (String lbracket (h +:+ String rbracket "") +:+ q) "[") with true. cbv iota.
    replace (String lbracket (h +:+ String rbracket "") +:+ q) with (String lbracket (h +:+ String rbracket q))
      by (cbn [String.append]; by rewrite str_app_assoc).
    cbn [IndexByte]. change (Ascii.eqb lbracket "]") with false. cbv iota.
    rewrite IndexByte_app_first by (by eapply str_forall_IndexByte; [|exact Hb]). cbn [fmap option_fmap option_map].
    change (str_take (S (S (String.length h))) (String lbracket (h +:+ String rbracket q)))
      with (String lbracket (str_take (S (String.length h)) (h +:+ String rbracket q))).
    f_equal. replace (h +:+ String rbracket q) with ((h +:+ String rbracket "") +:+ q) by (by rewrite str_app_assoc).
    replace (S (String.length h)) with (String.length (h +:+ String rbracket "")) by (rewrite str_length_app; cbn; lia).
    apply str_take_app.
  - assert (HasPrefix (h +:+ q) "[" = false) as ->.
    { apply not_true_iff_false. intros [r Hr]%HasPrefix_spec. destruct h as [|c h]; [done|]. injection Hr as -> _. done. }
    unfold CutByte. specialize (Hc eq_refl). unfold no_byte in Hc. unfold q. destruct (String.eqb p "").
    + rewrite str_app_nil_r. by rewrite (str_forall_IndexByte _ ":" h eq_refl Hc).
    + rewrite IndexByte_app_first by (by eapply str_forall_IndexByte; [|exact Hc]). cbn. by rewrite str_take_app.
Qed.

Lemma scheme_no_colon s : web_scheme s → no_byte ":" (ToLower s) = true.
Proof. by intros [-> | ->]. Qed.

Lemma canonical_host_of s a : web_scheme s → authority_ok a →
  csrfHostOfOrigin (csrfCanonicalOrigin s (authority_text a)) = bracketed (au_v6 a) (canonical_host (au_host a)).
Proof.
  intros Hs Ha. destruct (canonical_host_shape a Ha) as (? & ? & ?). rewrite canonical_text by done.
  apply csrfHostOfOrigin_text; [by apply scheme_no_colon|done..].
Qed.

(** The schemes a request without TLS can have come from, when the public URL has
    the host of the page. *)
Lemma possible_schemes_declared w r s a u d :
  wq_TLS r = false → web_scheme s → authority_ok a → declared_url w u → web_scheme (url_Scheme u) → authority_ok d →
  url_Host u = authority_text d → au_v6 a = au_v6 d → canonical_host (au_host a) = canonical_host (au_host d) →
  possible_schemes w r (csrfCanonicalOrigin s (authority_text a)) = [ToLower (url_Scheme u)].
Proof.
  intros Ht Hs Ha Hu Hsu Hd Hhost Hv Hh. unfold possible_schemes. rewrite Ht, (declared_origin_of w u Hu), Hhost.
  unfold csrfSameHost. rewrite !canonical_host_of, Hv, Hh, String.eqb_refl by done.
  assert (bracketed (au_v6 d) (canonical_host (au_host d)) ≠ "") as ->%String.eqb_neq.
  { destruct (canonical_host_shape d Hd) as (? & _). by destruct (au_v6 d). }
  rewrite canonical_text by done. unfold csrfSchemeOfOrigin. rewrite cut_scheme_origin by by apply scheme_no_colon.
  unfold origin_text. destruct (String.eqb_spec (ToLower (url_Scheme u) +:+ ("://" +:+ (bracketed (au_v6 d) (canonical_host (au_host d)) +:+
    (if String.eqb (shown_port (ToLower (url_Scheme u)) d) "" then "" else String colon (shown_port (ToLower (url_Scheme u)) d))))) "") as [E|E]; [|done].
  by apply str_app_nil_inv in E as [_ ?].
Qed.

Lemma same_origin_scheme s1 s2 a1 a2 :
  same_origin s1 a1 s2 a2 → ∀ s, ToLower s = ToLower s1 → same_origin s a1 s a2.
Proof.
  intros (Hs & Hv & Hh & Hp) s Hl. unfold same_origin, effective_port in *. rewrite Hl. rewrite <- Hs in Hp. done.
Qed.

(** ** What passes *)

Lemma csrf_write_own_origin_aux w r :
  csrf_check w r = None → csrfRelevantMethod (wq_Method r) = true → csrf_open_route (wq_Path r) = false →
  header_Get (wq_Header r) "Origin" ≠ "" →
  (header_Get (wq_Header r) "Sec-Fetch-Site" = "" ∨ header_Get (wq_Header r) "Sec-Fetch-Site" = "same-origin") ∧
  ∃ u, url_Parse (header_Get (wq_Header r) "Origin") = Some u ∧
    let want := csrfCanonicalOrigin (url_Scheme u) (url_Host u) in
    want ≠ "" ∧
    (want = csrfDeclaredOrigin w ∨
     csrfHostAllowed w (wq_Host r) = true ∧
     ∃ scheme, scheme ∈ possible_schemes w r want ∧ csrfCanonicalOrigin scheme (wq_Host r) = want).
Proof.
  intros Hc Hm Hr Ho. unfold csrf_check in Hc. rewrite Hm, Hr in Hc. cbn [negb] in Hc.
  set (site := header_Get (wq_Header r) "Sec-Fetch-Site") in *. set (origin := header_Get (wq_Header r) "Origin") in *.
  destruct (String.eqb origin "") eqn:Eo; [by bprop|]. rewrite andb_false_r in Hc.
  destruct (negb (String.eqb site "") && negb (String.eqb site "same-origin")) eqn:Es; [done|].
  destruct (url_Parse origin) as [u|]; [|done]. destruct (String.eqb (url_Host u) "") eqn:Eh; [done|].
  destruct (csrfOriginIsOwn w u r) eqn:Eown; [|done]. split.
  { destruct (String.eqb_spec site "") as [?|?]; [by left|]. destruct (String.eqb_spec site "same-origin") as [?|?]; [by right|done]. }
  exists u. split; [done|]. cbn zeta. unfold csrfOriginIsOwn in Eown. rewrite Eh in Eown.
  set (want := csrfCanonicalOrigin (url_Scheme u) (url_Host u)) in *.
  destruct (String.eqb want "") eqn:Ew; [done|]. split; [by bprop|].
  destruct (negb (String.eqb (csrfDeclaredOrigin w) "") && String.eqb (csrfDeclaredOrigin w) want) eqn:Ed.
  { apply andb_true_iff in Ed as [_ Ed]. bprop. by left. }
  destruct (String.eqb (wq_Host r) ""); [done|]. destruct (csrfHostAllowed w (wq_Host r)); [|done].
  cbn [negb] in Eown. apply existsb_exists in Eown as (sch & Hin & Heq). bprop. right. split; [done|].
  exists sch. by rewrite list_elem_of_In.
Qed.

(** The routes whose writes are checked: all but the self-authenticating ones and
    the public ones, of which the login is checked. *)
Definition checked_route (path : string) : Prop :=
  authOf path ≠ authSelfAuthenticating ∧ (authOf path = authPublic → path = dashboardLoginPath).

Lemma checked_route_closed path : checked_route path → csrf_open_route path = false.
Proof.
  intros [Hs Hp]. unfold csrf_open_route. destruct (authOf path); try done. rewrite (Hp eq_refl). by vm_compute.
Qed.

Lemma state_changing method :
  method ≠ "GET" → method ≠ "HEAD" → method ≠ "OPTIONS" → csrfRelevantMethod method = true.
Proof.
  intros H1 H2 H3. unfold csrfRelevantMethod.
  by rewrite (proj2 (String.eqb_neq _ _) H1), (proj2 (String.eqb_neq _ _) H2), (proj2 (String.eqb_neq _ _) H3).
Qed.

(** C35. A state-changing request (not GET, HEAD or OPTIONS) to a checked route that
    carries an Origin passes only if the browser does not report another site and
    the page is one of the gateway's own: its scheme, host and port are those of
    the public URL; or its host and port are those of the Host the request is
    addressed to, that Host is a name the gateway answers for, and the scheme is
    [https] if the request came over TLS, and that of the public URL if it did not
    and the public URL has the same host. Origin, Host and public URL are of the
    usual form: a host name or IPv4 address, or a bracketed IPv6 address, and an
    optional port, the first and last with the scheme [http] or [https]. *)
Theorem csrf_write_own_origin w r u a h :
  csrf_check w r = None →
  wq_Method r ≠ "GET" → wq_Method r ≠ "HEAD" → wq_Method r ≠ "OPTIONS" → checked_route (wq_Path r) →
  header_Get (wq_Header r) "Origin" ≠ "" → url_Parse (header_Get (wq_Header r) "Origin") = Some u →
  web_scheme (url_Scheme u) → url_Host u = authority_text a → authority_ok a →
  wq_Host r = authority_text h → authority_ok h → public_url_ok w →
  (header_Get (wq_Header r) "Sec-Fetch-Site" = "" ∨ header_Get (wq_Header r) "Sec-Fetch-Site" = "same-origin") ∧
  ((∃ s d, declares w s d ∧ same_origin (url_Scheme u) a s d) ∨
   answers_for w h ∧ same_origin (url_Scheme u) a (url_Scheme u) h ∧
   (wq_TLS r = true → ToLower (url_Scheme u) = "https") ∧
   (wq_TLS r = false → ∀ s d, declares w s d → authority_ok d → au_v6 a = au_v6 d →
      canonical_host (au_host a) = canonical_host (au_host d) → ToLower (url_Scheme u) = ToLower s)).
Proof.
  intros Hc Hm1 Hm2 Hm3 Hr Ho Hu Hs Hua Ha Hh Hhok Hpub.
  destruct (csrf_write_own_origin_aux w r Hc (state_changing _ Hm1 Hm2 Hm3) (checked_route_closed _ Hr) Ho) as [Hsite (u' & Hu' & Hw)].
  rewrite Hu in Hu'. injection Hu' as <-. split; [done|]. rewrite Hua, Hh in Hw. cbn zeta in Hw. destruct Hw as [Hne [Hd|[Hal (sch & Hin & Heq)]]].
  - left. rewrite Hd in Hne. apply declared_origin_url in Hne as [d Hd']. rewrite (declared_origin_of w d Hd') in Hd.
    destruct (Hpub d Hd') as [Hsd (ad & Had & Hhd)]. rewrite Hhd in Hd. exists (url_Scheme d), ad.
    split; [by exists d|]. by apply canonical_same_origin.
  - right. split; [by apply csrfHostAllowed_answers|].
    assert (web_scheme sch) as Hsch.
    { revert Hin. unfold possible_schemes. destruct (wq_TLS r); [intros ->%list_elem_of_singleton; by right|].
      destruct (negb (String.eqb (csrfDeclaredOrigin w) "")) eqn:Ed; cbn [andb].
      - bprop. destruct (declared_origin_url w) as [d Hd]; [done|]. destruct (Hpub d Hd) as [Hsd (ad & Had & Hhd)].
        destruct (csrfSameHost _ _).
        + intros ->%list_elem_of_singleton. rewrite (declared_origin_of w d Hd), Hhd, canonical_text by done.
          unfold csrfSchemeOfOrigin. rewrite cut_scheme_origin by by apply scheme_no_colon. cbn. unfold web_scheme.
          by rewrite ToLower_idem.
        + rewrite !elem_of_cons. intros [->|[->|[]%elem_of_nil]]; [by right|by left].
      - rewrite !elem_of_cons. intros [->|[->|[]%elem_of_nil]]; [by right|by left]. }
    apply canonical_same_origin in Heq; [|done..]. assert (ToLower sch = ToLower (url_Scheme u)) as Hl by apply Heq. split_and!.
    + destruct (same_origin_scheme _ _ _ _ Heq (url_Scheme u) (eq_sym Hl)) as (_ & ? & ? & ?). by repeat split.
    + intros Ht. rewrite <- Hl. revert Hin. unfold possible_schemes. rewrite Ht. by intros ->%list_elem_of_singleton.
    + intros Ht s d (du & Hdu & <- & Hhd) Hd Hv Hcan. destruct (Hpub du Hdu) as [Hsd _].
      rewrite (possible_schemes_declared w r (url_Scheme u) a du d) in Hin by done.
      apply list_elem_of_singleton in Hin as ->. by rewrite <- Hl, ToLower_idem.
Qed.

(** Rebinding: a request addressed to a name the gateway does not answer for is
    refused with 403 before the gates see it and without touching the tables,
    if it is a read of a guarded route, or a labelled write to a checked route
    from an origin other than the declared one. *)
Theorem rebound_host_refused hash whois esc skip w cfg now db r :
  csrfHostAllowed w (wq_Host r) = false →
  (csrfRelevantMethod (wq_Method r) = false ∧ csrfGuardedRead (authOf (wq_Path r)) = true ∨
   csrfRelevantMethod (wq_Method r) = true ∧ csrf_open_route (wq_Path r) = false ∧
   (header_Get (wq_Header r) "Sec-Fetch-Site" ≠ "" ∨ header_Get (wq_Header r) "Origin" ≠ "") ∧
   (∀ u, url_Parse (header_Get (wq_Header r) "Origin") = Some u →
      csrfCanonicalOrigin (url_Scheme u) (url_Host u) ≠ csrfDeclaredOrigin w)) →
  handler hash whois esc skip w cfg now db r = (db, AError 403 "CSRF request denied").
Proof.
  intros Hh Hcase. unfold handler. assert (csrf_check w r ≠ None) as Hc; [|by destruct (csrf_check w r)].
  intros Hnone. destruct Hcase as [[Hm Hg]|(Hm & Hr & Hlab & Hor)].
  - unfold csrf_check, csrfProtectRead in Hnone. by rewrite Hm, Hg, Hh in Hnone.
  - destruct (String.eqb_spec (header_Get (wq_Header r) "Origin") "") as [Eo|Eo].
    + destruct Hlab as [Hs|?]; [|done]. unfold csrf_check in Hnone. rewrite Hm, Hr, Eo, Hh in Hnone. cbn [negb] in Hnone.
      destruct (String.eqb_spec (header_Get (wq_Header r) "Sec-Fetch-Site") ""); [done|].
      cbn [andb negb String.eqb] in Hnone. by destruct (negb _).
    + destruct (csrf_write_own_origin_aux w r) as [_ (u & Hu & _ & [Hd|[? _]])]; [done..| |congruence].
      by eapply Hor.
Qed.

(** ** Witnesses *)

Definition wg_view : CsrfView := mkCsrf "" (Some wg_config) true "".
Definition browser_request (method path host origin : string) : WebRequest :=
  mkWeb method path path "" host true "10.55.0.2:4000" {["Origin" := [origin]; "Sec-Fetch-Site" := ["same-origin"]]} None.

Lemma canonical_origin_equiv_witness :
  csrfCanonicalOrigin "https" (authority_text (mkAuthority false "GW.example.com." (Some "443"))) =
  csrfCanonicalOrigin "HTTPS" (authority_text (mkAuthority false "gw.example.com" None)).
Proof.
  apply canonical_origin_equiv; [by right|by right|repeat split; done|repeat split; done|repeat split; reflexivity].
Defined.

Definition write_request : WebRequest :=
  browser_request "POST" "/api/hitl/decide" "GW.example.com:443" "https://gw.example.com".

Lemma csrf_write_own_origin_witness :
  csrf_check wg_view write_request = None ∧
  ∃ u, url_Parse "https://gw.example.com" = Some u ∧
    ((∃ s d, declares wg_view s d ∧ same_origin (url_Scheme u) (mkAuthority false "gw.example.com" None) s d) ∨
     answers_for wg_view (mkAuthority false "GW.example.com" (Some "443"))).
Proof.
  split; [vm_compute; reflexivity|]. destruct (url_Parse "https://gw.example.com") as [u|] eqn:Hu; [|by vm_compute in Hu].
  assert (web_scheme (url_Scheme u) ∧ url_Host u = "gw.example.com") as [Hs Hh] by (vm_compute in Hu; injection Hu as <-; split; [by right|done]).
  exists u. split; [done|].
  destruct (csrf_write_own_origin wg_view write_request u (mkAuthority false "gw.example.com" None) (mkAuthority false "GW.example.com" (Some "443")))
    as [_ [H|[H _]]]; [vm_compute; reflexivity|by vm_compute..| |by vm_compute|exact Hu|exact Hs|exact Hh|by repeat split|reflexivity|by repeat split| | |].
  - split; by vm_compute.
  - intros v Hv. destruct Hv as (raw & [c _ [= <-]|Hno] & Hne & Hv); [|by specialize (Hno eq_refl)].
    vm_compute in Hv. injection Hv as <-. split; [by right|].
    exists (mkAuthority false "gw.example.com" None). by repeat split.
  - by left.
  - by right.
Defined.

Lemma rebound_host_refused_witness :
  handler id (λ _, None) id true wg_view wg_config 0 root_db (browser_request "POST" "/api/config/apply" "evil.test" "http://evil.test") =
  (root_db, AError 403 "CSRF request denied").
Proof.
  apply rebound_host_refused; [vm_compute; reflexivity|]. right.
  split; [reflexivity|]. split; [vm_compute; reflexivity|]. split; [by left; vm_compute|].
  intros u Hu. vm_compute in Hu. injection Hu as <-. by vm_compute.
Defined.
