(* ===== verification/HostMatch.v ===== *)
(** * Host entries: [internal/config/hostmatch]

    Splitting, validation and wildcard matching of the entries of an
    endpoint's [hosts] list. *)
From S2P Require Import Prelude GoStrings NetAddr.

Inductive HostError :=
| EmptyEntry
| BadAddr (e : AddrError)
| MissingHost
| TrailingColon
| InvalidPort
| StarNotLeftmost
| WildcardEmpty
| WildcardSecondStar
| WildcardDotEdge
| WildcardEmptyLabel
| WildcardIP
| WildcardTLD.

Definition lift_addr_error (r : result (string * string) AddrError)
    : result (string * string) HostError :=
  match r with Ok v => Ok v | Err e => Err (BadAddr e) end.

Definition SplitHostPort (entry : string) : result (string * string) HostError :=
  if String.eqb entry "" then Err EmptyEntry
  else if HasPrefix entry "[" then lift_addr_error (net_SplitHostPort entry)
  else match CountByte entry colon with
       | 0%nat => Ok (entry, "")
       | 1%nat => lift_addr_error (net_SplitHostPort entry)
       | _ => Ok (entry, "")
       end.

Definition IsWildcardHost (entry : string) : bool :=
  match SplitHostPort entry with
  | Err _ => false
  | Ok (host, _) => HasPrefix host "*."
  end.

(** The accumulating loop over the digits of a port. *)
Fixpoint port_loop (p : string) (n : Z) : option Z :=
  match p with
  | EmptyString => Some n
  | String c p' => if negb (is_digit c) then None else port_loop p' (n * 10 + digit_value c)
  end.

Definition isNumericPort (p : string) : bool :=
  if String.eqb p "" || (5 <? String.length p)%nat then false
  else match port_loop p 0 with
       | None => false
       | Some n => (1 <=? n) && (n <=? 65535)
       end.

Definition star : ascii := "*".
Definition dot : ascii := ".".

Definition validateWildcardSuffix (host : string) : result unit HostError :=
  let suffix := str_drop 2 host in
  if String.eqb suffix "" then Err WildcardEmpty
  else if ContainsByte suffix star then Err WildcardSecondStar
  else if HasPrefix suffix "." || HasSuffix suffix "." then Err WildcardDotEdge
  else if Contains suffix ".." then Err WildcardEmptyLabel
  else if bool_decide (is_Some (ParseIP suffix)) then Err WildcardIP
  else if negb (Contains suffix ".") then Err WildcardTLD
  else Ok tt.

Definition ValidateHost (entry : string) : result unit HostError :=
  match SplitHostPort entry with
  | Err e => Err e
  | Ok (host, port) =>
      if String.eqb host "" then Err MissingHost
      else if HasSuffix entry ":" && String.eqb port "" then Err TrailingColon
      else if negb (String.eqb port "") && negb (isNumericPort port) then Err InvalidPort
      else if HasPrefix host "*." then validateWildcardSuffix host
      else if ContainsByte host star then Err StarNotLeftmost
      else Ok tt
  end.

Definition MatchWildcard (pattern hostname : string) : bool :=
  if negb (HasPrefix pattern "*.") then false
  else
    let suffix := str_drop 1 pattern in
    if (String.length hostname <=? String.length suffix)%nat then false
    else HasSuffix hostname suffix.

(** ** Lemmas *)

Lemma MatchWildcard_iff pattern hostname :
  MatchWildcard pattern hostname = true ↔
  ∃ suffix label, pattern = "*." +:+ suffix ∧ hostname = label +:+ ("." +:+ suffix) ∧ label ≠ "".
Proof.
  unfold MatchWildcard. split.
  - destruct (HasPrefix pattern "*.") eqn:E; [|done]. apply HasPrefix_spec in E as [suf ->].
    cbn [negb]. change (str_drop 1 ("*." +:+ suf)) with ("." +:+ suf).
    destruct (_ <=? _)%nat eqn:El; [done|]. intros H. bprop.
    apply HasSuffix_spec in H as [l ->]. exists suf, l. repeat split.
    intros ->. simpl in El. lia.
  - intros (suf & l & -> & -> & Hl). rewrite HasPrefix_app. cbn [negb].
    change (str_drop 1 ("*." +:+ suf)) with ("." +:+ suf).
    rewrite HasSuffix_app. rewrite str_length_app.
    destruct l; [done|]. destruct (_ <=? _)%nat eqn:E; [|done]. bprop. simpl in E. lia.
Qed.

Lemma port_loop_spec p n :
  port_loop p n = if str_forall is_digit p then Some (digits_value p n) else None.
Proof.
  revert n. induction p as [|c p IH]; intros n; simpl; [done|].
  destruct (is_digit c); simpl; auto.
Qed.

Lemma SplitHostPort_bare h :
  h ≠ "" → IndexByte h colon = None → IndexByte h lbracket = None →
  SplitHostPort h = Ok (h, "").
Proof.
  intros Hne Hc Hb. unfold SplitHostPort.
  destruct (String.eqb_spec h ""); [done|].
  assert (HasPrefix h "[" = false) as ->.
  { apply not_true_iff_false. intros [r ->]%HasPrefix_spec. done. }
  apply CountByte_0 in Hc. by rewrite Hc.
Qed.

Lemma SplitHostPort_port h p :
  h ≠ "" →
  IndexByte h colon = None → IndexByte h lbracket = None → IndexByte h rbracket = None →
  IndexByte p colon = None → IndexByte p lbracket = None → IndexByte p rbracket = None →
  SplitHostPort (h +:+ String colon p) = Ok (h, p).
Proof.
  intros Hne H1 H2 H3 H4 H5 H6. unfold SplitHostPort.
  destruct (String.eqb_spec (h +:+ String colon p) "") as [E|_].
  { apply str_app_nil_inv in E as [? ?]. done. }
  assert (HasPrefix (h +:+ String colon p) "[" = false) as ->.
  { apply not_true_iff_false. intros [r Hr]%HasPrefix_spec.
    destruct h as [|c h]; [done|]. injection Hr as -> _. done. }
  rewrite CountByte_app. cbn [CountByte]. rewrite Ascii.eqb_refl.
  rewrite (proj2 (CountByte_0 h colon) H1), (proj2 (CountByte_0 p colon) H4). simpl.
  by rewrite net_SplitHostPort_plain.
Qed.

(** What a validated wildcard suffix looks like. *)
Lemma validateWildcardSuffix_ok host :
  validateWildcardSuffix host = Ok tt →
  let suffix := str_drop 2 host in
  suffix ≠ "" ∧ IndexByte suffix star = None ∧ HasPrefix suffix "." = false ∧
  HasSuffix suffix "." = false ∧ Contains suffix ".." = false ∧ ParseIP suffix = None ∧
  Contains suffix "." = true.
Proof.
  unfold validateWildcardSuffix, ContainsByte. intros H.
  repeat (dcase_in H; try done). bprop.
  repeat match goal with
  | E : bool_decide _ = false |- _ => apply bool_decide_eq_false in E
  end.
  repeat split; try done; [by destruct (IndexByte _ star)|].
  by apply eq_None_not_Some.
Qed.

Lemma Contains_dot_count s : Contains s "." = true → (1 <= CountByte s dot)%nat.
Proof.
  intros (a & b & ->)%Contains_spec. rewrite !CountByte_app. change (CountByte "." dot) with 1%nat. lia.
Qed.

(** ** Properties *)

(** A wildcard [*.suffix] matches exactly the names made of a non-empty label
    sequence, a dot and the suffix; the bare suffix is not matched. *)
Theorem MatchWildcard_correct pattern hostname :
  MatchWildcard pattern hostname = true ↔
  ∃ suffix label, pattern = "*." +:+ suffix ∧ hostname = label +:+ ("." +:+ suffix) ∧ label ≠ "".
Proof. apply MatchWildcard_iff. Qed.

(** A port is accepted exactly when it is one to five decimal digits whose
    value lies in 1..65535. *)
Theorem isNumericPort_correct p :
  isNumericPort p = true ↔
  p ≠ "" ∧ (String.length p <= 5)%nat ∧ str_forall is_digit p = true ∧
  1 <= digits_value p 0 <= 65535.
Proof.
  unfold isNumericPort. rewrite port_loop_spec.
  destruct (String.eqb_spec p ""); simpl; [naive_solver|].
  destruct (5 <? String.length p)%nat eqn:E; bprop; [naive_solver lia|].
  destruct (str_forall is_digit p); [|naive_solver].
  rewrite andb_true_iff, !Z.leb_le. naive_solver lia.
Qed.

(** A wildcard entry that passes validation cannot claim a whole top-level
    domain: every name it matches has at least three dot-separated labels. *)
Theorem ValidateHost_wildcard_depth entry host port name :
  ValidateHost entry = Ok tt → SplitHostPort entry = Ok (host, port) →
  MatchWildcard host name = true →
  (2 <= CountByte name dot)%nat ∧ ParseIP (str_drop 2 host) = None.
Proof.
  unfold ValidateHost. intros Hv Hs Hm. rewrite Hs in Hv.
  apply MatchWildcard_iff in Hm as (suf & l & -> & -> & _).
  rewrite HasPrefix_app in Hv. repeat (dcase_in Hv; try done).
  apply validateWildcardSuffix_ok in Hv.
  change (str_drop 2 ("*." +:+ suf)) with suf in *.
  destruct Hv as (_ & _ & _ & _ & _ & Hip & Hdot). split; [|done].
  apply Contains_dot_count in Hdot. rewrite !CountByte_app. change (CountByte "." dot) with 1%nat. lia.
Qed.

Lemma ValidateHost_wildcard_depth_witness :
  (2 <= CountByte "a.example.com" dot)%nat.
Proof.
  apply (ValidateHost_wildcard_depth "*.example.com:443" "*.example.com" "443" "a.example.com");
    vm_compute; reflexivity.
Defined.
