(* ===== verification/Policy.v ===== *)
(** * The compiled policy: data of [internal/config] and [internal/config/match]

    The request snapshot a matcher reads, the three-valued decision it returns,
    and the compiled policy the dispatcher walks. A nil pointer is [None]; a Go
    map is a [gmap]. An interface value an operation only calls through (a
    compiled CEL matcher, a placeholder detector, an endpoint body) is the
    record of what the code calls on it. *)
From S2P Require Import Prelude GoStrings NetAddr GoUrl.

(** ** Requests ([match.Request]) *)

Record SqlMeta := mkSqlMeta {
  sql_Verb : string;
  sql_Tables : list string;
  sql_Functions : list string;
  sql_Statement : string;
  sql_Database : string
}.

Record K8sMeta := mkK8sMeta {
  k8s_Verb : string;
  k8s_Resource : string;
  k8s_Namespace : string;
  k8s_Name : string;
  k8s_Params : gmap string string
}.

Record SshMeta := mkSshMeta {
  ssh_Verb : string;
  ssh_Command : string;
  ssh_Subsystem : string;
  ssh_ForwardHost : string;
  ssh_ForwardPort : Z;
  ssh_User : string;
  ssh_Stdin : string;
  ssh_Truncated : bool
}.

(** [Request.Meta], an [any] owned by the facet of the request's family. *)
Inductive Meta :=
| MetaNil
| MetaSql (m : SqlMeta)
| MetaK8s (m : K8sMeta)
| MetaSsh (m : SshMeta).

Record Request := mkRequest {
  req_Family : string;
  req_Credential : string;
  req_PeerIP : string;
  req_Database : string;
  req_User : string;
  req_Method : string;
  req_URL : option URL;
  req_Headers : list (string * list string);
  req_Body : string;
  req_Meta : Meta;
  req_Truncated : bool;
  req_Unparseable : bool
}.

(** ** Decisions *)

Inductive MatchResult := NoMatch | Matched | Unevaluable.

#[global] Instance MatchResult_eq_dec : EqDecision MatchResult.
Proof. solve_decision. Defined.

Definition ResultOf (matched : bool) : MatchResult := if matched then Matched else NoMatch.

Record Decision := mkDecision { dec_Result : MatchResult; dec_Detail : string }.

(** [match.Matcher]: the compiled CEL condition of a rule. A nil request
    reaches the matcher as [None]. *)
Record Matcher := mkMatcher {
  Match : option Request -> Decision;
  InspectsTruncatableFacet : bool
}.

(** ** Rules *)

Record ApproveStage := mkStage { stage_Name : string }.

Record Outcome := mkOutcome {
  out_Verdict : string;
  out_Reason : string;
  out_Approve : list ApproveStage
}.

Record CompiledRule := mkRule {
  rule_Name : string;
  rule_Priority : Z;
  rule_Disabled : bool;
  rule_Condition : string;
  rule_Credential : string;
  rule_Matcher : option Matcher;
  rule_Outcome : Outcome
}.

(** ** Entities, endpoints, profiles *)

Record Plugin := mkPlugin {
  plugin_Kind : string;
  plugin_Type : string;
  plugin_Family : string;
  (** [Runtime.(PlaceholderDetector)] *)
  plugin_Detector : option (Request -> list string -> string);
  (** [Runtime.(interface{ Sharing() string })] *)
  plugin_Sharing : option string
}.

Record TunnelCommon := mkTunnelCommon {
  tc_Share : string;
  tc_Keepalive : string;
  tc_Via : string;
  tc_Credential : string
}.

(** What the compile pass reads off a plugin body through optional
    interfaces: [HostList] (or [EndpointHosts]), [RequiresVIP],
    [CredentialDisambiguators], [TunnelCommon]. *)
Record Body := mkBody {
  body_HostList : option (list string);
  body_EndpointHosts : option (list string);
  body_RequiresVIP : option bool;
  body_Disambiguators : option (gmap string string);
  body_TunnelCommon : option TunnelCommon
}.

Record FrameworkAttrs := mkFramework {
  fw_Refs : gmap string string;
  fw_RefLists : gmap string (list string);
  fw_Strings : gmap string string
}.

Definition fw_Ref (fw : FrameworkAttrs) (n : string) : string := default "" (fw_Refs fw !! n).
Definition fw_RefList (fw : FrameworkAttrs) (n : string) : list string := default [] (fw_RefLists fw !! n).
Definition fw_Str (fw : FrameworkAttrs) (n : string) : string := default "" (fw_Strings fw !! n).

Record Entity := mkEntity {
  ent_Name : string;
  ent_Plugin : Plugin;
  ent_Body : Body;
  ent_Framework : FrameworkAttrs
}.

Record CompiledTunnel := mkTunnel {
  tun_Name : string;
  tun_Sharing : string;
  tun_Keepalive : Z;
  tun_KeepaliveAlways : bool;
  (** the name of the tunnel this one chains through *)
  tun_Via : option string;
  tun_Credential : option Entity
}.

Record CompiledEndpoint := mkEndpoint {
  ep_Name : string;
  ep_Family : string;
  ep_Plugin : Plugin;
  ep_Body : Body;
  ep_Hosts : list string;
  ep_Credentials : list Entity;
  ep_Rules : list CompiledRule;
  ep_Description : string;
  ep_Retention : string;
  ep_InspectsTruncatable : bool;
  ep_Tunnel : option CompiledTunnel
}.

(** [Disambiguators] is nil for the entry with no constraint; the empty map
    stands for it. *)
Record CompiledCredential := mkCompiledCredential {
  cc_Disambiguators : gmap string string;
  cc_Credential : Entity
}.

Record HostPattern := mkHostPattern {
  hp_Pattern : string;
  hp_Endpoint : CompiledEndpoint
}.

Record CompiledProfile := mkProfile {
  prof_Name : string;
  prof_Credentials : list Entity;
  prof_Endpoints : gmap string CompiledEndpoint;
  prof_HostIndex : gmap string CompiledEndpoint;
  prof_HostPatterns : list HostPattern;
  prof_EndpointCredentials : gmap string (list CompiledCredential);
  prof_HITLAsyncGrants : bool
}.

Record CompiledPolicy := mkPolicy {
  pol_UnknownHost : string;
  pol_UnknownPeer : string;
  pol_LLMFailMode : string;
  pol_RelayDestinations : string;
  pol_RelayAllowCIDRs : list Prefix;
  pol_LLMCacheTTL : Z;
  pol_HumanTimeout : Z;
  pol_HumanOnTimeout : string;
  pol_DashboardURL : string;
  pol_Profiles : gmap string CompiledProfile;
  pol_Endpoints : gmap string CompiledEndpoint;
  pol_Tunnels : gmap string CompiledTunnel;
  pol_Approvers : gmap string Entity;
  pol_Credentials : gmap string Entity
}.

(** The endpoint of unknown hosts under [unknown_host = "inspect"]. *)
Definition UnknownInspectEndpoint : string := "unknown".

(** [CompiledEndpoint.RequiresVIP]. *)
Definition RequiresVIP (ce : option CompiledEndpoint) : bool :=
  match ce with
  | None => false
  | Some ep =>
      match ep_Tunnel ep with
      | Some _ => true
      | None => match body_RequiresVIP (ep_Body ep) with Some true => true | _ => false end
      end
  end.

(** [runtime.Secret]: the material of a credential. *)
Record Secret := mkSecret { sec_Bytes : string; sec_Extras : gmap string string }.

(** ** Small values the witnesses build on *)

Definition empty_body : Body := mkBody None None None None None.
Definition empty_framework : FrameworkAttrs := mkFramework ∅ ∅ ∅.
Definition https_plugin : Plugin := mkPlugin "endpoint" "https" "http" None None.
Definition test_entity (name : string) : Entity := mkEntity name https_plugin empty_body empty_framework.
Definition test_endpoint (name : string) (rules : list CompiledRule) : CompiledEndpoint :=
  mkEndpoint name "http" https_plugin empty_body [] [] rules "" "" false None.
Definition verdict (v : string) : Outcome := mkOutcome v "" [].
Definition test_rule (name : string) (prio : Z) (m : option Matcher) (o : Outcome) : CompiledRule :=
  mkRule name prio false "" "" m o.
Definition const_matcher (r : MatchResult) : Matcher := mkMatcher (λ _, mkDecision r "") false.
Definition test_request : Request :=
  mkRequest "http" "" "10.55.0.2" "" "" "GET" None [] "" MetaNil false false.
