(* ===== verification/Dispatch.v ===== *)
(** * Request dispatch: [internal/config/runtime/dispatch.go]

    Host to endpoint, request to rule, request to credential. *)
From S2P Require Import Prelude GoStrings NetAddr HostMatch Policy.

(** ** Hosts *)

(** [config.MatchHostPattern]: the first pattern of the (sorted) list that
    matches. *)
Definition MatchHostPattern (patterns : list HostPattern) (hostname : string)
    : option CompiledEndpoint :=
  hp_Endpoint <$> List.find (λ p, MatchWildcard (hp_Pattern p) hostname) patterns.

Fixpoint first_some {A B} (f : A -> option B) (l : list A) : option B :=
  match l with
  | [] => None
  | x :: l' => match f x with Some b => Some b | None => first_some f l' end
  end.

(** [runtime.HostEndpoint]. [ord1] and [ord2] are the visiting orders of the
    two loops over the profiles that run when the profile is unknown. *)
Definition HostEndpoint (ord1 ord2 : list string) (policy : option CompiledPolicy)
    (profile host : string) : option CompiledEndpoint :=
  match policy with
  | None => None
  | Some pol =>
      let host := ToLower host in
      match pol_Profiles pol !! profile with
      | None =>
          match first_some (λ '(_, p), prof_HostIndex p !! host) (range_over ord1 (pol_Profiles pol)) with
          | Some ep => Some ep
          | None => first_some (λ '(_, p), MatchHostPattern (prof_HostPatterns p) host)
                      (range_over ord2 (pol_Profiles pol))
          end
      | Some prof =>
          match prof_HostIndex prof !! host with
          | Some ep => Some ep
          | None => MatchHostPattern (prof_HostPatterns prof) host
          end
      end
  end.

(** ** Rules *)

Definition quote (s : string) : string :=
  String (ascii_of_nat 34) (s +:+ String (ascii_of_nat 34) "").

Definition unevaluableCause (req : option Request) : string :=
  match req with
  | Some q =>
      if req_Truncated q && req_Unparseable q then "truncated at the inspection buffer and unparseable"
      else if req_Truncated q then "truncated at the inspection buffer"
      else if req_Unparseable q then "unparseable"
      else "evaluation error"
  | None => "evaluation error"
  end.

(** The matcher's detail goes to the operator log and nowhere else. *)
Definition synthesizeUnevaluableDeny (r : CompiledRule) (req : option Request) : CompiledRule :=
  mkRule (rule_Name r) (rule_Priority r) (rule_Disabled r) (rule_Condition r) (rule_Credential r)
    (rule_Matcher r)
    (mkOutcome "deny"
       ("rule " +:+ quote (rule_Name r) +:+ " could not be evaluated against this request ("
          +:+ unevaluableCause req +:+ "); failing closed")
       []).

(** The credential predicate of a rule does not hold. *)
Definition credential_mismatch (r : CompiledRule) (req : option Request) : bool :=
  negb (String.eqb (rule_Credential r) "") &&
  match req with
  | None => true
  | Some q => negb (String.eqb (req_Credential q) (rule_Credential r))
  end.

Fixpoint match_rules (rules : list CompiledRule) (req : option Request) : option CompiledRule :=
  match rules with
  | [] => None
  | r :: rules' =>
      if rule_Disabled r then match_rules rules' req
      else if credential_mismatch r req then match_rules rules' req
      else match rule_Matcher r with
           | None => Some r
           | Some m =>
               match dec_Result (Match m req) with
               | Matched => Some r
               | Unevaluable => Some (synthesizeUnevaluableDeny r req)
               | NoMatch => match_rules rules' req
               end
           end
  end.

Definition MatchRequest (ep : option CompiledEndpoint) (req : option Request) : option CompiledRule :=
  match ep with
  | None => None
  | Some e => match_rules (ep_Rules e) req
  end.

Definition has_enabled_rule (e : CompiledEndpoint) : bool :=
  existsb (λ r, negb (rule_Disabled r)) (ep_Rules e).

Definition fail_closed_deny (req : option Request) : CompiledRule :=
  mkRule "" 0 false "" "" None
    (mkOutcome "deny"
       ("request bytes were " +:+ unevaluableCause req +:+
          " and no rule explicitly allowed the request; failing closed") []).

Definition MatchRequestFailClosed (ep : option CompiledEndpoint) (req : option Request)
    : option CompiledRule :=
  let cr := MatchRequest ep req in
  match cr, ep, req with
  | Some _, _, _ => cr
  | None, Some e, Some q =>
      if negb (req_Truncated q) && negb (req_Unparseable q) then cr
      else if has_enabled_rule e then Some (fail_closed_deny req)
      else None
  | None, _, _ => cr
  end.

(** ** Credentials *)

Definition field_matches (req : option Request) (sentPlaceholder field want : string) : bool :=
  if String.eqb field "placeholder" then String.eqb want sentPlaceholder
  else if String.eqb field "user" then
    String.eqb want (match req with Some q => req_User q | None => "" end)
  else if String.eqb field "database" then
    String.eqb want (match req with Some q => req_Database q | None => "" end)
  else false.

(** The loop returns false at the first constraint that fails, so its result
    does not depend on the order the map is visited in. *)
Definition disambiguatorMatches (d : gmap string string) (req : option Request)
    (sentPlaceholder : string) : bool :=
  forallb (λ '(field, want), field_matches req sentPlaceholder field want) (map_to_list d).

Definition profileCredentialsAt (policy : option CompiledPolicy) (profile epName : string)
    : list CompiledCredential :=
  match policy with
  | None => []
  | Some pol =>
      match pol_Profiles pol !! profile with
      | Some prof => default [] (prof_EndpointCredentials prof !! epName)
      | None =>
          match pol_Endpoints pol !! epName with
          | None => []
          | Some ep => match ep_Credentials ep with
                       | [c] => [mkCompiledCredential ∅ c]
                       | _ => []
                       end
          end
      end
  end.

(** The distinct non-empty placeholders, in entry order. *)
Fixpoint placeholder_candidates (entries : list CompiledCredential) (seen : gset string) : list string :=
  match entries with
  | [] => []
  | c :: rest =>
      let ph := default "" (cc_Disambiguators c !! "placeholder") in
      if negb (String.eqb ph "") && bool_decide (ph ∉ seen)
      then ph :: placeholder_candidates rest ({[ph]} ∪ seen)
      else placeholder_candidates rest seen
  end.

Definition detect_placeholder (ep : CompiledEndpoint) (req : option Request)
    (entries : list CompiledCredential) : string :=
  match plugin_Detector (ep_Plugin ep), req with
  | Some det, Some q =>
      match placeholder_candidates entries ∅ with
      | [] => ""
      | cands => det q cands
      end
  | _, _ => ""
  end.

Record BestState := mkBest {
  best : option CompiledCredential;
  bestSpecificity : Z;
  tiedAtBest : bool
}.

Definition specificity (c : CompiledCredential) : Z := Z.of_nat (size (cc_Disambiguators c)).

Definition best_step (m : CompiledCredential -> bool) (st : BestState) (c : CompiledCredential) : BestState :=
  if negb (m c) then st
  else if bestSpecificity st <? specificity c then mkBest (Some c) (specificity c) false
  else if specificity c =? bestSpecificity st then mkBest (best st) (bestSpecificity st) true
  else st.

Definition pick_best (m : CompiledCredential -> bool) (entries : list CompiledCredential)
    : option CompiledCredential :=
  let st := foldl (best_step m) (mkBest None (-1) false) entries in
  if tiedAtBest st then None else best st.

Definition ResolveCredential (policy : option CompiledPolicy) (profile : string)
    (ep : option CompiledEndpoint) (req : option Request) : option CompiledCredential :=
  match ep with
  | None => None
  | Some e =>
      match profileCredentialsAt policy profile (ep_Name e) with
      | [] => None
      | [c] => Some c
      | entries =>
          let ph := detect_placeholder e req entries in
          pick_best (λ c, disambiguatorMatches (cc_Disambiguators c) req ph) entries
      end
  end.

(** ** An abstract specification of rule evaluation *)

(** What a single rule says about a request, independently of the others. *)
Inductive RuleEffect := Skips | Fires | FailsClosed.

Definition rule_effect (r : CompiledRule) (req : option Request) : RuleEffect :=
  if rule_Disabled r || credential_mismatch r req then Skips
  else match rule_Matcher r with
       | None => Fires
       | Some m => match dec_Result (Match m req) with
                   | NoMatch => Skips
                   | Matched => Fires
                   | Unevaluable => FailsClosed
                   end
       end.

(** A rule applies to a request: it is enabled, it is not reserved for another
    credential, and its condition, when it has one, is not known to be false. *)
Definition applies (req : option Request) (r : CompiledRule) : Prop :=
  rule_Disabled r = false ∧
  (rule_Credential r = "" ∨ ∃ q, req = Some q ∧ req_Credential q = rule_Credential r) ∧
  ∀ m, rule_Matcher r = Some m → dec_Result (Match m req) ≠ NoMatch.

(** Its condition has no truth value on the request. *)
Definition undecided (req : option Request) (r : CompiledRule) : Prop :=
  ∃ m, rule_Matcher r = Some m ∧ dec_Result (Match m req) = Unevaluable.

(** The rule that decides is the first that applies; it decides with its own
    outcome, or, when its condition has no truth value, with a deny that asks
    nobody and carries its name and priority. *)
Definition selects (req : option Request) (rules : list CompiledRule) (o : option CompiledRule) : Prop :=
  match o with
  | None => ∀ r, r ∈ rules → ¬ applies req r
  | Some r' =>
      ∃ (i : nat) r, rules !! i = Some r ∧ applies req r ∧
        (∀ (j : nat) x, (j < i)%nat → rules !! j = Some x → ¬ applies req x) ∧
        (¬ undecided req r ∧ r' = r ∨
         undecided req r ∧ rule_Name r' = rule_Name r ∧ rule_Priority r' = rule_Priority r ∧
           out_Verdict (rule_Outcome r') = "deny" ∧ out_Approve (rule_Outcome r') = [])
  end.

(** What a decision settles: the rule's name and priority, the verdict and the
    approvers. *)
Definition settled (r : CompiledRule) : string * Z * string * list ApproveStage :=
  (rule_Name r, rule_Priority r, out_Verdict (rule_Outcome r),
   out_Approve (rule_Outcome r)).

(** ** Lemmas *)

Lemma match_rules_cons r rules req :
  match_rules (r :: rules) req =
  match rule_effect r req with
  | Skips => match_rules rules req
  | Fires => Some r
  | FailsClosed => Some (synthesizeUnevaluableDeny r req)
  end.
Proof.
  simpl. unfold rule_effect.
  destruct (rule_Disabled r), (credential_mismatch r req); simpl; try done.
  destruct (rule_Matcher r) as [m|]; [|done]. by destruct (dec_Result _).
Qed.

Lemma credential_mismatch_false r req :
  credential_mismatch r req = false ↔
  rule_Credential r = "" ∨ ∃ q, req = Some q ∧ req_Credential q = rule_Credential r.
Proof.
  unfold credential_mismatch.
  destruct (String.eqb_spec (rule_Credential r) ""), req as [q|]; simpl; try naive_solver.
  destruct (String.eqb_spec (req_Credential q) (rule_Credential r)); naive_solver.
Qed.

Lemma applies_effect req r : applies req r ↔ rule_effect r req ≠ Skips.
Proof.
  unfold applies, rule_effect. rewrite <- credential_mismatch_false.
  destruct (rule_Disabled r), (credential_mismatch r req); simpl; try naive_solver.
  destruct (rule_Matcher r) as [m|]; [|split; [done|by repeat split]].
  split; [intros (_ & _ & H) E; specialize (H m eq_refl)|intros H; repeat split; intros m' [= <-]];
    by destruct (dec_Result (Match m req)).
Qed.

Lemma undecided_effect req r : applies req r → undecided req r ↔ rule_effect r req = FailsClosed.
Proof.
  intros (Hd & Hc%credential_mismatch_false & Hm). unfold undecided, rule_effect. rewrite Hd, Hc. simpl.
  destruct (rule_Matcher r) as [m|]; [|naive_solver]. split.
  - intros (m' & [= <-] & ->). done.
  - intros H. exists m. split; [done|]. by destruct (dec_Result (Match m req)).
Qed.

Lemma match_rules_None_iff rules req :
  match_rules rules req = None ↔ Forall (λ r, rule_effect r req = Skips) rules.
Proof.
  induction rules as [|r rules IH]; [split; auto|].
  rewrite match_rules_cons, Forall_cons. destruct (rule_effect r req); naive_solver.
Qed.

Lemma match_rules_Some rules req r' :
  match_rules rules req = Some r' →
  ∃ l1 r l2, rules = l1 ++ r :: l2 ∧ Forall (λ x, rule_effect x req = Skips) l1 ∧
    (rule_effect r req = Fires ∧ r' = r ∨
     rule_effect r req = FailsClosed ∧ r' = synthesizeUnevaluableDeny r req).
Proof.
  induction rules as [|r rules IH]; [done|].
  rewrite match_rules_cons. destruct (rule_effect r req) eqn:E; intros H.
  - destruct (IH H) as (l1 & x & l2 & -> & ? & ?). exists (r :: l1), x, l2. auto.
  - exists [], r, rules. naive_solver.
  - exists [], r, rules. naive_solver.
Qed.

Lemma rule_effect_enabled r req : rule_effect r req ≠ Skips → rule_Disabled r = false.
Proof. unfold rule_effect. by destruct (rule_Disabled r). Qed.

(** The state of the selection loop after the entries [l]. *)
Definition best_inv (m : CompiledCredential -> bool) (l : list CompiledCredential) (st : BestState) : Prop :=
  (st = mkBest None (-1) false ∧ ∀ (j : nat) x, l !! j = Some x → m x = false) ∨
  ∃ (i : nat) c, l !! i = Some c ∧ m c = true ∧ best st = Some c ∧ bestSpecificity st = specificity c ∧
    (∀ (j : nat) x, l !! j = Some x → m x = true → specificity x <= specificity c) ∧
    (tiedAtBest st = true ↔
       ∃ (j : nat) x, j ≠ i ∧ l !! j = Some x ∧ m x = true ∧ specificity x = specificity c).

Lemma specificity_nonneg c : 0 <= specificity c.
Proof. unfold specificity. lia. Qed.

Lemma best_inv_step m l st c : best_inv m l st → best_inv m (l ++ [c]) (best_step m st c).
Proof.
  intros Hinv. pose proof (specificity_nonneg c) as Hc0. unfold best_step.
  destruct (m c) eqn:Hm; simpl; last first.
  { destruct Hinv as [[-> Hno]|(i & b & Hi & Hb & Hbest & Hspec & Hmax & Htie)].
    - left. split; [done|]. intros j x [[_ ?]|[_ <-]]%lookup_snoc_Some; [eauto|done].
    - right. exists i, b. repeat split; try done.
      + by apply lookup_app_l_Some.
      + intros j x [[_ ?]|[_ <-]]%lookup_snoc_Some; [eauto|congruence].
      + intros (j & x & ? & ? & ? & ?)%Htie. exists j, x. eauto using lookup_app_l_Some.
      + intros (j & x & ? & [[_ ?]|[_ <-]]%lookup_snoc_Some & ? & ?); [|congruence].
        apply Htie. eauto 6. }
  assert (∀ (P : nat → Prop), P (length l) → ∃ j, P j ∧ (l ++ [c]) !! j = Some c) as Hlast.
  { intros P HP. exists (length l). by rewrite lookup_snoc_last. }
  destruct Hinv as [[-> Hno]|(i & b & Hi & Hb & Hbest & Hspec & Hmax & Htie)].
  - simpl. replace (-1 <? specificity c) with true by (symmetry; apply Z.ltb_lt; lia).
    right. exists (length l), c. rewrite lookup_snoc_last. repeat split; try done.
    + intros j x [[_ ?]|[_ <-]]%lookup_snoc_Some ?; [|lia]. by rewrite (Hno j x) in *.
    + intros (j & x & ? & [[_ ?]|[? _]]%lookup_snoc_Some & ? & _); [|done].
      by rewrite (Hno j x) in *.
  - rewrite Hspec. destruct (specificity b <? specificity c) eqn:El; bprop.
    + right. exists (length l), c. rewrite lookup_snoc_last. repeat split; try done.
      * intros j x [[_ ?]|[_ <-]]%lookup_snoc_Some ?; [|lia].
        transitivity (specificity b); [eauto|lia].
      * intros (j & x & ? & [[_ Hx]|[? _]]%lookup_snoc_Some & Hmx & ?); [|done].
        specialize (Hmax j x Hx Hmx). lia.
    + destruct (specificity c =? specificity b) eqn:Ee; bprop.
      * right. exists i, b. simpl. repeat split; try done.
        -- by apply lookup_app_l_Some.
        -- intros j x [[_ ?]|[_ <-]]%lookup_snoc_Some ?; [eauto|lia].
        -- intros _. exists (length l), c. rewrite lookup_snoc_last. repeat split; try done.
           apply lookup_lt_Some in Hi. lia.
      * right. exists i, b. repeat split; try done.
        -- by apply lookup_app_l_Some.
        -- intros j x [[_ ?]|[_ <-]]%lookup_snoc_Some ?; [eauto|lia].
        -- intros (j & x & ? & ? & ? & ?)%Htie. exists j, x. eauto using lookup_app_l_Some.
        -- intros (j & x & ? & [[_ ?]|[_ <-]]%lookup_snoc_Some & ? & ?); [|lia].
           apply Htie. eauto 6.
Qed.

Lemma best_inv_foldl m l : best_inv m l (foldl (best_step m) (mkBest None (-1) false) l).
Proof.
  induction l as [|c l IH] using rev_ind; [by left|].
  rewrite foldl_snoc. by apply best_inv_step.
Qed.

(** The winner is the matching entry strictly more specific than every other
    matching entry. *)
Definition strict_best (m : CompiledCredential -> bool) (entries : list CompiledCredential)
    (c : CompiledCredential) : Prop :=
  ∃ i : nat, entries !! i = Some c ∧ m c = true ∧
    ∀ (j : nat) x, j ≠ i → entries !! j = Some x → m x = true → specificity x < specificity c.

Lemma pick_best_spec m entries c : pick_best m entries = Some c ↔ strict_best m entries c.
Proof.
  unfold pick_best. pose proof (best_inv_foldl m entries) as Hinv.
  set (st := foldl _ _ _) in *. clearbody st. split.
  - destruct (tiedAtBest st) eqn:Et; [done|]. intros Hb.
    destruct Hinv as [[-> _]|(i & b & Hi & Hmb & Hbest & _ & Hmax & Htie)]; [done|].
    assert (b = c) as -> by congruence. exists i. repeat split; try done.
    intros j x Hj Hx Hm. specialize (Hmax j x Hx Hm).
    destruct (decide (specificity x = specificity c)); [|lia].
    rewrite (proj2 Htie) in Et by eauto 6. done.
  - intros (i & Hi & Hm & Hmax).
    destruct Hinv as [[_ Hno]|(i' & b & Hi' & Hmb & Hbest & _ & Hle & Htie)].
    { by rewrite (Hno i c) in *. }
    destruct (decide (i' = i)) as [->|Hne].
    + simplify_eq. destruct (tiedAtBest st) eqn:Et; [|done].
      destruct (proj1 Htie eq_refl) as (j & x & ? & ? & ? & ?).
      specialize (Hmax j x). naive_solver lia.
    + specialize (Hmax i' b Hne Hi' Hmb). specialize (Hle i c Hi Hm). lia.
Qed.

(** ** Properties *)

Lemma match_rules_selects rules req : selects req rules (match_rules rules req).
Proof.
  destruct (match_rules rules req) as [r'|] eqn:E; simpl.
  - apply match_rules_Some in E as (l1 & r & l2 & -> & Hl1 & Hr). exists (length l1), r.
    assert (applies req r) as Ha by (apply applies_effect; destruct Hr as [[-> _]|[-> _]]; done).
    split; [apply list_lookup_middle; lia|]. split; [done|]. split.
    + intros j x Hj Hx. rewrite lookup_app_l in Hx by done. rewrite applies_effect.
      rewrite Forall_lookup in Hl1. intros H. by apply H, (Hl1 j x Hx).
    + rewrite (undecided_effect req r Ha). destruct Hr as [[-> ->]|[-> ->]]; [by left|by right].
  - apply match_rules_None_iff in E. rewrite Forall_forall in E.
    intros r Hr. rewrite applies_effect. intros H. by apply H, (E r Hr).
Qed.

Lemma selects_settled req rules o1 o2 :
  selects req rules o1 → selects req rules o2 → settled <$> o1 = settled <$> o2.
Proof.
  assert (∀ r', selects req rules (Some r') → selects req rules None → False) as Hno.
  { intros r' (i & r & Hi & Ha & _) Hn. eapply Hn; [by eapply list_elem_of_lookup_2|done]. }
  destruct o1 as [r1|], o2 as [r2|]; try (naive_solver; fail).
  intros (i & a & Hi & Ha & Hi' & H1) (j & b & Hj & Hb & Hj' & H2).
  assert (i = j) as -> by (destruct (lt_eq_lt_dec i j) as [[?|?]|?]; naive_solver).
  assert (a = b) as -> by congruence. simpl. unfold settled. f_equal.
  destruct H1 as [[? ->]|(? & -> & -> & -> & ->)], H2 as [[? ->]|(? & -> & -> & -> & ->)]; done.
Qed.

(** C3. The rule that decides a request is the first rule of the endpoint, in
    order, that applies: it is enabled, reserved for no credential or for the
    request's own, and has no condition or one that is not known to be false.
    It decides with its own outcome, except that a rule whose condition cannot
    be evaluated on the request decides as a deny without approvers under its
    own name and priority. There is no decision exactly when no rule applies,
    and no other name, priority, verdict or list of approvers meets this. *)
Theorem MatchRequest_refines_selects ep req :
  selects req (ep_Rules ep) (MatchRequest (Some ep) req) ∧
  ∀ o, selects req (ep_Rules ep) o → settled <$> o = settled <$> MatchRequest (Some ep) req.
Proof.
  split; [apply match_rules_selects|].
  intros o Ho. eapply selects_settled; [done|apply match_rules_selects].
Qed.

(** Fail closed on an unevaluable rule: when every earlier rule skips, the
    request is denied under the identity of the unevaluable rule, whatever
    verdict that rule or a later one carries. *)
Theorem MatchRequest_unevaluable_denies ep req l1 r l2 :
  ep_Rules ep = l1 ++ r :: l2 →
  Forall (λ x, rule_effect x req = Skips) l1 →
  rule_effect r req = FailsClosed →
  ∃ r', MatchRequest (Some ep) req = Some r' ∧ out_Verdict (rule_Outcome r') = "deny" ∧
    out_Approve (rule_Outcome r') = [] ∧ rule_Name r' = rule_Name r ∧ rule_Priority r' = rule_Priority r.
Proof.
  intros Hr Hl1 He. exists (synthesizeUnevaluableDeny r req). split; [|done].
  unfold MatchRequest. rewrite Hr. clear Hr. induction Hl1 as [|x l1 Hx _ IH].
  - rewrite app_nil_l, match_rules_cons. by rewrite He.
  - rewrite <- app_comm_cons, match_rules_cons, Hx. apply IH.
Qed.

(** Two rules that differ only in the diagnostic detail of their matcher. *)
Definition same_but_detail (r1 r2 : CompiledRule) : Prop :=
  rule_Name r1 = rule_Name r2 ∧ rule_Priority r1 = rule_Priority r2 ∧
  rule_Disabled r1 = rule_Disabled r2 ∧ rule_Credential r1 = rule_Credential r2 ∧
  rule_Outcome r1 = rule_Outcome r2 ∧
  match rule_Matcher r1, rule_Matcher r2 with
  | None, None => True
  | Some m1, Some m2 => ∀ q, dec_Result (Match m1 q) = dec_Result (Match m2 q)
  | _, _ => False
  end.

Lemma same_but_detail_effect r1 r2 req :
  same_but_detail r1 r2 → rule_effect r1 req = rule_effect r2 req.
Proof.
  intros (_ & _ & Hd & Hc & _ & Hm). unfold rule_effect, credential_mismatch.
  rewrite Hd, Hc. destruct (rule_Matcher r1), (rule_Matcher r2); try done. by rewrite Hm.
Qed.

(** Evaluation details never reach the agent: two endpoints whose rules differ
    only in the detail text their matchers produce give the same verdict and
    the same agent-visible reason on every request. *)
Theorem MatchRequest_hides_detail e1 e2 req :
  Forall2 same_but_detail (ep_Rules e1) (ep_Rules e2) →
  (λ r, (rule_Name r, rule_Outcome r)) <$> MatchRequest (Some e1) req =
  (λ r, (rule_Name r, rule_Outcome r)) <$> MatchRequest (Some e2) req.
Proof.
  unfold MatchRequest. induction 1 as [|r1 r2 l1 l2 Hr _ IH]; [done|].
  rewrite !match_rules_cons, (same_but_detail_effect r1 r2) by done.
  destruct Hr as (Hn & _ & _ & _ & Ho & _).
  destruct (rule_effect r2 req); [done| |]; simpl; by rewrite ?Hn, ?Ho.
Qed.

(** C32. An uninspectable request (truncated or unparseable) never rides the
    implicit allow past a rule set: on an endpoint with an enabled rule it is
    decided by a rule that fires, or denied. A fully inspected request gets
    exactly what [MatchRequest] gives. *)
Theorem MatchRequestFailClosed_correct ep q :
  (req_Truncated q = false → req_Unparseable q = false →
   MatchRequestFailClosed (Some ep) (Some q) = MatchRequest (Some ep) (Some q)) ∧
  (req_Truncated q || req_Unparseable q = true → has_enabled_rule ep = true →
   ∃ cr, MatchRequestFailClosed (Some ep) (Some q) = Some cr ∧
     ((cr ∈ ep_Rules ep ∧ rule_effect cr (Some q) = Fires) ∨ out_Verdict (rule_Outcome cr) = "deny")).
Proof.
  unfold MatchRequestFailClosed, MatchRequest.
  destruct (match_rules (ep_Rules ep) (Some q)) as [cr|] eqn:Em; split.
  - done.
  - intros _ _. exists cr. split; [done|].
    apply match_rules_Some in Em as (l1 & r & l2 & -> & _ & [[He ->]|[_ ->]]); [left|by right].
    split; [|done]. apply elem_of_app. right. apply list_elem_of_here.
  - by intros -> ->.
  - intros Hu Hr. rewrite Hr. exists (fail_closed_deny (Some q)). split; [|by right].
    by destruct (req_Truncated q), (req_Unparseable q).
Qed.

(** With several credentials bound, the one dispatched is the matching entry
    that declares strictly more constraints than every other matching entry;
    when there is none (nothing matches, or a tie at the top) the result is
    nil. *)
Theorem ResolveCredential_most_specific policy profile e req c :
  let entries := profileCredentialsAt policy profile (ep_Name e) in
  (2 <= length entries)%nat →
  ResolveCredential policy profile (Some e) req = Some c ↔
  strict_best (λ x, disambiguatorMatches (cc_Disambiguators x) req (detect_placeholder e req entries))
    entries c.
Proof.
  intros entries Hlen. rewrite <- pick_best_spec. unfold ResolveCredential.
  fold entries. destruct entries as [|a [|b l]]; simpl in Hlen; try lia. done.
Qed.

(** ** Witnesses *)

Definition failing_rule : CompiledRule := test_rule "big-body" 5 (Some (const_matcher Unevaluable)) (verdict "allow").
Definition skipping_rule : CompiledRule := test_rule "other" 9 (Some (const_matcher NoMatch)) (verdict "allow").

Lemma MatchRequest_refines_selects_witness :
  let e := test_endpoint "api" [skipping_rule; failing_rule] in
  ∃ r', MatchRequest (Some e) (Some test_request) = Some r' ∧ settled r' = ("big-body", 5, "deny", []).
Proof.
  intros e. destruct (MatchRequest_refines_selects e (Some test_request)) as [_ H].
  specialize (H (Some (test_rule "big-body" 5 None (mkOutcome "deny" "" [])))).
  destruct (MatchRequest (Some e) (Some test_request)) as [r'|] eqn:E; [|by inversion E].
  exists r'. split; [done|]. symmetry. apply (inj Some). apply H. clear H.
  exists 1%nat, failing_rule. split; [done|]. split.
  { repeat split; [by left|]. intros m [= <-]. done. }
  split; [|right; split; [by eexists|done]].
  intros [|j] x Hj; [|lia]. intros [= <-] (_ & _ & Hm). by apply (Hm (const_matcher NoMatch)).
Defined.

Lemma MatchRequest_unevaluable_denies_witness :
  ∃ r', MatchRequest (Some (test_endpoint "api" [skipping_rule; failing_rule])) (Some test_request) = Some r' ∧
    out_Verdict (rule_Outcome r') = "deny".
Proof.
  destruct (MatchRequest_unevaluable_denies (test_endpoint "api" [skipping_rule; failing_rule])
    (Some test_request) [skipping_rule] failing_rule []) as (r' & H1 & H2 & _); [done|by repeat constructor|done|].
  by exists r'.
Defined.

Definition detailed_matcher (d : string) : Matcher := mkMatcher (λ _, mkDecision Unevaluable d) false.

Lemma MatchRequest_hides_detail_witness :
  (λ r, (rule_Name r, rule_Outcome r)) <$>
    MatchRequest (Some (test_endpoint "api" [test_rule "r" 0 (Some (detailed_matcher "secret")) (verdict "allow")])) None =
  (λ r, (rule_Name r, rule_Outcome r)) <$>
    MatchRequest (Some (test_endpoint "api" [test_rule "r" 0 (Some (detailed_matcher "")) (verdict "allow")])) None.
Proof. apply MatchRequest_hides_detail. repeat constructor. Defined.

Definition truncated_request : Request :=
  mkRequest "http" "" "10.55.0.2" "" "" "POST" None [] "" MetaNil true false.

Lemma MatchRequestFailClosed_correct_witness :
  ∃ cr, MatchRequestFailClosed (Some (test_endpoint "api" [skipping_rule])) (Some truncated_request) = Some cr ∧
    ((cr ∈ [skipping_rule] ∧ rule_effect cr (Some truncated_request) = Fires) ∨
     out_Verdict (rule_Outcome cr) = "deny").
Proof. apply MatchRequestFailClosed_correct; reflexivity. Defined.

Definition two_credentials : CompiledPolicy :=
  mkPolicy "" "" "" "" [] 0 0 "" ""
    {["dev" := mkProfile "dev" [] ∅ ∅ []
        {["api" := [mkCompiledCredential ∅ (test_entity "generic");
                    mkCompiledCredential {["user" := "alice"]} (test_entity "alice")]]} false]}
    ∅ ∅ ∅ ∅.

Definition alice_request : Request :=
  mkRequest "sql" "" "10.55.0.2" "" "alice" "" None [] "" MetaNil false false.

Lemma ResolveCredential_most_specific_witness :
  strict_best (λ x, disambiguatorMatches (cc_Disambiguators x) (Some alice_request) "")
    (profileCredentialsAt (Some two_credentials) "dev" "api")
    (mkCompiledCredential {["user" := "alice"]} (test_entity "alice")).
Proof.
  apply (ResolveCredential_most_specific (Some two_credentials) "dev" (test_endpoint "api" [])
    (Some alice_request)); [apply Nat.leb_le; vm_compute; reflexivity|vm_compute; reflexivity].
Defined.
