(* ===== verification/Compile.v ===== *)
(** * The compile pass: [internal/config/compile.go]

    [Compile] lowers a loaded gateway into the policy the dispatcher walks. The
    CEL front end ([facet.NewMatcher]) and [time.ParseDuration] are parameters.
    Every loop over a Go map takes its visiting order from a [RangeOrders]
    record, so a theorem that quantifies over the orders holds for whatever
    order the Go runtime picks. *)
From S2P Require Import Prelude GoStrings NetAddr HostMatch Policy Dispatch.

(** ** The loaded gateway *)

Record Defaults := mkDefaults {
  d_UnknownHost : string;
  d_UnknownPeer : string;
  d_LLMFailMode : string;
  d_RelayDestinations : string;
  d_RelayAllowCIDRs : list string;
  d_LLMCacheTTL : Z;
  d_HumanTimeout : Z;
  d_HumanOnTimeout : string
}.

Record Profile := mkSrcProfile {
  pr_Name : string;
  pr_Credentials : list string;
  pr_Disambiguators : gmap string (gmap string string);
  pr_HITLAsyncGrants : bool
}.

(** [rules.Rule], the canonical record a rule block builds. *)
Record Rule := mkSrcRule {
  r_Name : string;
  r_Family : string;
  r_Endpoints : list string;
  r_Priority : Z;
  r_Disabled : bool;
  r_Condition : string;
  r_Credential : string;
  r_Verdict : string;
  r_Reason : string;
  r_Approve : list ApproveStage
}.

Record SrcPolicy := mkSrcPolicy {
  p_Approvers : gmap string Entity;
  p_Credentials : gmap string Entity;
  p_Endpoints : gmap string Entity;
  p_Rules : gmap string Rule;
  p_Tunnels : gmap string Entity;
  p_Profiles : gmap string Profile;
  p_Order : list string
}.

Record Gateway := mkGateway {
  gw_Defaults : option Defaults;
  gw_Policy : option SrcPolicy;
  gw_PublicURL : string
}.

Inductive CompileError :=
| BadLLMFailMode (v : string)
| BadUnknownHost (v : string)
| BadUnknownPeer (v : string)
| BadRelayDestinations (v : string)
| BadRelayCIDR (v : string)
| RelayCIDRHostBits (v : string)
| BadTunnelShare (tunnel share : string)
| BadKeepalive (v : string)
| TunnelCredentialUndeclared (tunnel cred : string)
| TunnelViaUndeclared (tunnel via : string)
| TunnelCycle (tunnel : string)
| BadRetention (endpoint : string)
| EndpointTunnelUndeclared (endpoint tunnel : string)
| TunneledEndpointNoHostname (endpoint : string)
| CredentialEndpointUndeclared (cred endpoint : string)
| RuleConditionError (rule : string)
| RuleTargetsUnknownEndpoint (rule endpoint : string)
| InspectNeedsUnknown
| UnknownBindsCredentials
| UnknownRulePinsCredential (rule : string)
| UnknownRulesNeedInspect
| ReservedProfile.

(** The visiting orders of the loops of one run of [Compile]. *)
Record RangeOrders := mkOrders {
  ro_Endpoints : list string;
  ro_Rules : list string;
  ro_Credentials : list string;
  ro_Tunnels : list string;
  ro_TunnelsVia : list string;
  ro_TunnelsCycle : list string;
  ro_Profiles : list string;
  (** per profile, the loop that adds the default-port aliases: an order of
      all endpoints, restricted to those of the profile *)
  ro_Aliases : string -> list string
}.

(** ** Validation of the defaults *)

Definition one_of (v : string) (allowed : list string) : bool := existsb (String.eqb v) allowed.

Definition validateRelayDestinations (value : string) : result unit CompileError :=
  if one_of value [""; "public"; "any"] then Ok tt else Err (BadRelayDestinations value).

Definition UnknownPeerNoProfile : string := "no_profile".
Definition UnknownPeerEmptyProfile : string := String (ascii_of_nat 0) "unknown-peer".

Definition IsReservedProfile (name : string) : bool := String.eqb name UnknownPeerEmptyProfile.

Definition validateUnknownPeer (value : string) : result unit CompileError :=
  if one_of value [""; "default_profile"; UnknownPeerNoProfile] then Ok tt else Err (BadUnknownPeer value).

Definition validateUnknownHost (value : string) : result unit CompileError :=
  if one_of value [""; "passthrough"; "deny"; "inspect"] then Ok tt else Err (BadUnknownHost value).

Definition validateLLMFailMode (value : string) : result unit CompileError :=
  if one_of value [""; "closed"; "open"] then Ok tt else Err (BadLLMFailMode value).

Fixpoint parseRelayAllowCIDRs (values : list string) : result (list Prefix) CompileError :=
  match values with
  | [] => Ok []
  | raw :: rest =>
      match ParsePrefix (TrimSpace raw) with
      | None => Err (BadRelayCIDR raw)
      | Some p =>
          if bool_decide (Masked p ≠ p) then Err (RelayCIDRHostBits raw)
          else let? out := parseRelayAllowCIDRs rest in Ok (p :: out)
      end
  end.

(** ** Credentials *)

Definition CredentialEndpointTargets (ent : Entity) : list string :=
  match fw_RefList (ent_Framework ent) "endpoints" with
  | [] => let single := fw_Ref (ent_Framework ent) "endpoint" in
          if String.eqb single "" then [] else [single]
  | l => l
  end.

Definition drop_empty (m : gmap string string) : gmap string string :=
  filter (λ kv : string * string, kv.2 ≠ "") m.

(** [blockDisambiguators]: body fields override the framework's
    [placeholder]; empty values are dropped. *)
Definition blockDisambiguators (ent : Entity) : gmap string string :=
  let ph := fw_Str (ent_Framework ent) "placeholder" in
  let base : gmap string string := if String.eqb ph "" then ∅ else {["placeholder" := ph]} in
  match body_Disambiguators (ent_Body ent) with
  | Some d => drop_empty d ∪ base
  | None => base
  end.

(** [mergeDisambig]: profile values override block values. *)
Definition mergeDisambig (block profile : gmap string string) : gmap string string :=
  drop_empty profile ∪ drop_empty block.

Definition update_endpoint (eps : gmap string CompiledEndpoint) (n : string)
    (f : CompiledEndpoint -> CompiledEndpoint) : gmap string CompiledEndpoint := alter f n eps.

Definition add_credential (ent : Entity) (ce : CompiledEndpoint) : CompiledEndpoint :=
  mkEndpoint (ep_Name ce) (ep_Family ce) (ep_Plugin ce) (ep_Body ce) (ep_Hosts ce)
    (ep_Credentials ce ++ [ent]) (ep_Rules ce) (ep_Description ce) (ep_Retention ce)
    (ep_InspectsTruncatable ce) (ep_Tunnel ce).

Definition add_rule (cr : CompiledRule) (ce : CompiledEndpoint) : CompiledEndpoint :=
  mkEndpoint (ep_Name ce) (ep_Family ce) (ep_Plugin ce) (ep_Body ce) (ep_Hosts ce)
    (ep_Credentials ce) (ep_Rules ce ++ [cr]) (ep_Description ce) (ep_Retention ce)
    (ep_InspectsTruncatable ce) (ep_Tunnel ce).

(** Append to each target in turn; the first undeclared target is the error. *)
Fixpoint attach_all {E} (f : CompiledEndpoint -> CompiledEndpoint) (err : string -> E)
    (targets : list string) (eps : gmap string CompiledEndpoint)
    : result (gmap string CompiledEndpoint) E :=
  match targets with
  | [] => Ok eps
  | t :: rest =>
      match eps !! t with
      | None => Err (err t)
      | Some _ => attach_all f err rest (update_endpoint eps t f)
      end
  end.

Definition attach_one_credential (p : SrcPolicy) (eps : gmap string CompiledEndpoint) (credName : string)
    : result (gmap string CompiledEndpoint) CompileError :=
  match p_Credentials p !! credName with
  | None => Ok eps
  | Some ent => attach_all (add_credential ent) (CredentialEndpointUndeclared credName)
                  (CredentialEndpointTargets ent) eps
  end.

(** The names of the first loop: the credentials of [p.Order], once each. *)
Fixpoint ordered_credentials (p : SrcPolicy) (order : list string) (seen : gset string) : list string :=
  match order with
  | [] => []
  | n :: rest =>
      match p_Credentials p !! n with
      | None => ordered_credentials p rest seen
      | Some _ =>
          if bool_decide (n ∈ seen) then ordered_credentials p rest seen
          else n :: ordered_credentials p rest ({[n]} ∪ seen)
      end
  end.

Fixpoint fold_result {A S E} (f : S -> A -> result S E) (st : S) (l : list A) : result S E :=
  match l with
  | [] => Ok st
  | x :: rest => let? st' := f st x in fold_result f st' rest
  end.

Definition attachCredentials (ord : list string) (p : SrcPolicy) (eps : gmap string CompiledEndpoint)
    : result (gmap string CompiledEndpoint) CompileError :=
  let first := ordered_credentials p (p_Order p) ∅ in
  let missed := List.filter (λ n, negb (bool_decide (n ∈ first))) (range_over ord (p_Credentials p)).*1 in
  let? eps1 := fold_result (attach_one_credential p) eps first in
  fold_result (attach_one_credential p) eps1 missed.

(** ** Hosts *)

Definition host_of (hp : string) : string :=
  match net_SplitHostPort hp with Ok (h, _) => h | Err _ => hp end.

Definition hasResolvableHostname (hosts : list string) : bool :=
  existsb (λ hp, let host := host_of hp in
                 negb (String.eqb host "") && bool_decide (ParseIP host = None)) hosts.

Definition bareHostAlias (ep : CompiledEndpoint) (host : string) : option string :=
  if negb (one_of (ep_Family ep) ["http"; "k8s"]) then None
  else match net_SplitHostPort host with
       | Err _ => None
       | Ok (bare, port) =>
           if String.eqb bare "" || negb (String.eqb port "443") then None
           else if HasPrefix bare "*." then None
           else Some bare
       end.

Definition pattern_key (p : HostPattern) : string :=
  hp_Pattern p +:+ String (ascii_of_nat 0) (ep_Name (hp_Endpoint p)).

Fixpoint dedupe_loop (l : list HostPattern) (seen : gset string) : list HostPattern :=
  match l with
  | [] => []
  | p :: rest =>
      if bool_decide (pattern_key p ∈ seen) then dedupe_loop rest seen
      else p :: dedupe_loop rest ({[pattern_key p]} ∪ seen)
  end.

Definition dedupePatterns (l : list HostPattern) : list HostPattern :=
  if (length l <? 2)%nat then l else dedupe_loop l ∅.

Definition pattern_less (a b : HostPattern) : bool :=
  let la := String.length (hp_Pattern a) in
  let lb := String.length (hp_Pattern b) in
  if negb (la =? lb)%nat then (lb <? la)%nat else String.ltb (hp_Pattern a) (hp_Pattern b).

Definition sortHostPatterns (l : list HostPattern) : list HostPattern := stable_sort pattern_less l.

(** ** Rules *)

Definition rule_less (a b : CompiledRule) : bool := rule_Priority b <? rule_Priority a.

Definition rule_inspects (r : CompiledRule) : bool :=
  negb (rule_Disabled r) &&
  match rule_Matcher r with Some m => InspectsTruncatableFacet m | None => false end.

Definition sort_rules (ce : CompiledEndpoint) : CompiledEndpoint :=
  let rules := stable_sort rule_less (ep_Rules ce) in
  mkEndpoint (ep_Name ce) (ep_Family ce) (ep_Plugin ce) (ep_Body ce) (ep_Hosts ce)
    (ep_Credentials ce) rules (ep_Description ce) (ep_Retention ce)
    (ep_InspectsTruncatable ce || existsb rule_inspects rules) (ep_Tunnel ce).

Definition first_pinned (rules : list CompiledRule) : option CompiledRule :=
  List.find (λ r, negb (String.eqb (rule_Credential r) "")) rules.

Definition validateUnknownInspect (unknownHost : string) (eps : gmap string CompiledEndpoint)
    : result unit CompileError :=
  let ce := eps !! UnknownInspectEndpoint in
  let httpsUnknown := match ce with
                      | Some e => if String.eqb (plugin_Type (ep_Plugin e)) "https" then Some e else None
                      | None => None
                      end in
  match httpsUnknown with
  | None => if String.eqb unknownHost "inspect" then Err InspectNeedsUnknown else Ok tt
  | Some e =>
      match ep_Credentials e with
      | _ :: _ => Err UnknownBindsCredentials
      | [] =>
          match first_pinned (ep_Rules e) with
          | Some r => Err (UnknownRulePinsCredential (rule_Name r))
          | None => if has_enabled_rule e && negb (String.eqb unknownHost "inspect")
                    then Err UnknownRulesNeedInspect else Ok tt
          end
      end
  end.

(** ** Profiles *)

Definition empty_profile (name : string) (async : bool) : CompiledProfile :=
  mkProfile name [] ∅ ∅ [] ∅ async.

Definition index_host (ce : CompiledEndpoint) (pf : CompiledProfile) (h : string) : CompiledProfile :=
  match SplitHostPort h with
  | Err _ => pf
  | Ok (host, _) =>
      if String.eqb host "" then pf
      else if IsWildcardHost host then
        mkProfile (prof_Name pf) (prof_Credentials pf) (prof_Endpoints pf) (prof_HostIndex pf)
          (prof_HostPatterns pf ++ [mkHostPattern (ToLower host) ce]) (prof_EndpointCredentials pf)
          (prof_HITLAsyncGrants pf)
      else
        mkProfile (prof_Name pf) (prof_Credentials pf) (prof_Endpoints pf)
          (<[ToLower h := ce]> (prof_HostIndex pf)) (prof_HostPatterns pf)
          (prof_EndpointCredentials pf) (prof_HITLAsyncGrants pf)
  end.

(** [cprof.Endpoints[epName] = ce], [cprof.Credentials = append(..)] and
    [cprof.EndpointCredentials[epName] = append(..)]. *)
Definition put_endpoint (n : string) (ce : CompiledEndpoint) (pf : CompiledProfile) : CompiledProfile :=
  mkProfile (prof_Name pf) (prof_Credentials pf) (<[n := ce]> (prof_Endpoints pf)) (prof_HostIndex pf)
    (prof_HostPatterns pf) (prof_EndpointCredentials pf) (prof_HITLAsyncGrants pf).

Definition list_credential (ent : Entity) (pf : CompiledProfile) : CompiledProfile :=
  mkProfile (prof_Name pf) (prof_Credentials pf ++ [ent]) (prof_Endpoints pf) (prof_HostIndex pf)
    (prof_HostPatterns pf) (prof_EndpointCredentials pf) (prof_HITLAsyncGrants pf).

Definition put_credential (n : string) (c : CompiledCredential) (pf : CompiledProfile) : CompiledProfile :=
  mkProfile (prof_Name pf) (prof_Credentials pf) (prof_Endpoints pf) (prof_HostIndex pf)
    (prof_HostPatterns pf)
    (<[n := default [] (prof_EndpointCredentials pf !! n) ++ [c]]> (prof_EndpointCredentials pf))
    (prof_HITLAsyncGrants pf).

Definition bind_endpoint (eps : gmap string CompiledEndpoint) (cred : Entity)
    (merged : gmap string string) (pf : CompiledProfile) (epName : string) : CompiledProfile :=
  match eps !! epName with
  | None => pf
  | Some ce =>
      put_credential epName (mkCompiledCredential merged cred)
        (foldl (index_host ce) (put_endpoint epName ce pf) (ep_Hosts ce))
  end.

Definition bind_credential (p : SrcPolicy) (eps : gmap string CompiledEndpoint) (pr : Profile)
    (pf : CompiledProfile) (credName : string) : CompiledProfile :=
  match p_Credentials p !! credName with
  | None => pf
  | Some ent =>
      let merged := mergeDisambig (blockDisambiguators ent)
                      (default ∅ (pr_Disambiguators pr !! credName)) in
      foldl (bind_endpoint eps ent merged) (list_credential ent pf) (CredentialEndpointTargets ent)
  end.

Definition add_alias (ce : CompiledEndpoint) (idx : gmap string CompiledEndpoint) (h : string)
    : gmap string CompiledEndpoint :=
  match bareHostAlias ce h with
  | None => idx
  | Some bare =>
      let bare := ToLower bare in
      match idx !! bare with Some _ => idx | None => <[bare := ce]> idx end
  end.

Definition add_aliases (ord : list string) (pf : CompiledProfile) : gmap string CompiledEndpoint :=
  foldl (λ idx '(_, ce), foldl (add_alias ce) idx (ep_Hosts ce)) (prof_HostIndex pf)
    (range_over ord (prof_Endpoints pf)).

Definition compile_profile (ord : list string) (p : SrcPolicy) (eps : gmap string CompiledEndpoint)
    (name : string) (pr : Profile) : CompiledProfile :=
  let pf := foldl (bind_credential p eps pr) (empty_profile name (pr_HITLAsyncGrants pr)) (pr_Credentials pr) in
  mkProfile (prof_Name pf) (prof_Credentials pf) (prof_Endpoints pf) (add_aliases ord pf)
    (sortHostPatterns (dedupePatterns (prof_HostPatterns pf))) (prof_EndpointCredentials pf)
    (prof_HITLAsyncGrants pf).

Definition compileUnknownPeerProfile (unknownPeer : string) (profs : gmap string CompiledProfile)
    : result (gmap string CompiledProfile) CompileError :=
  match profs !! UnknownPeerEmptyProfile with
  | Some _ => Err ReservedProfile
  | None =>
      if String.eqb unknownPeer UnknownPeerNoProfile
      then Ok (<[UnknownPeerEmptyProfile := empty_profile UnknownPeerEmptyProfile false]> profs)
      else Ok profs
  end.

Section WithFrontEnds.
(** [facet.NewMatcher]: the CEL compiler. A blank condition has no matcher. *)
Context (NewMatcher : string -> string -> result (option Matcher) string).
(** [time.ParseDuration], in nanoseconds. *)
Context (ParseDuration : string -> option Z).

(** ** Tunnels *)

(** The duration and the [always] flag. *)
Definition parseKeepalive (s : string) : result (Z * bool) CompileError :=
  if String.eqb s "" then Ok (300 * 10 ^ 9, false)
  else if String.eqb s "always" then Ok (0, true)
  else if String.eqb s "0" then Ok (0, false)
  else match ParseDuration s with
       | None => Err (BadKeepalive s)
       | Some d => if d <? 0 then Err (BadKeepalive s) else Ok (d, false)
       end.

Definition tunnel_common (ent : Entity) : TunnelCommon :=
  default (mkTunnelCommon "" "" "" "") (body_TunnelCommon (ent_Body ent)).

Definition tunnel_share (ent : Entity) : string :=
  let share := tc_Share (tunnel_common ent) in
  let share := if String.eqb share "" then default "" (plugin_Sharing (ent_Plugin ent)) else share in
  if String.eqb share "" then "singleton" else share.

(** Pass 1, one block: the record without its [via] link. *)
Definition compile_tunnel (p : SrcPolicy) (name : string) (ent : Entity)
    : result CompiledTunnel CompileError :=
  let common := tunnel_common ent in
  let share := tunnel_share ent in
  if negb (one_of share ["singleton"; "per_endpoint"; "per_conn"]) then Err (BadTunnelShare name share)
  else
    let? (keepalive, always) := parseKeepalive (tc_Keepalive common) in
    if String.eqb (tc_Credential common) "" then Ok (mkTunnel name share keepalive always None None)
    else match p_Credentials p !! tc_Credential common with
         | None => Err (TunnelCredentialUndeclared name (tc_Credential common))
         | Some cred => Ok (mkTunnel name share keepalive always None (Some cred))
         end.

Definition tunnels_pass1 (ord : list string) (p : SrcPolicy)
    : result (gmap string CompiledTunnel) CompileError :=
  fold_result (λ m '(name, ent), let? ct := compile_tunnel p name ent in Ok (<[name := ct]> m))
    ∅ (range_over ord (p_Tunnels p)).

Definition set_via (via : string) (ct : CompiledTunnel) : CompiledTunnel :=
  mkTunnel (tun_Name ct) (tun_Sharing ct) (tun_Keepalive ct) (tun_KeepaliveAlways ct) (Some via)
    (tun_Credential ct).

(** Pass 2: link the [via] pointers, which are names of the tunnel table. *)
Definition link_via (p : SrcPolicy) (m : gmap string CompiledTunnel) (name : string)
    : result (gmap string CompiledTunnel) CompileError :=
  let viaName := match p_Tunnels p !! name with Some ent => tc_Via (tunnel_common ent) | None => "" end in
  if String.eqb viaName "" then Ok m
  else match m !! viaName with
       | None => Err (TunnelViaUndeclared name viaName)
       | Some _ => Ok (alter (set_via viaName) name m)
       end.

(** The walk of a [via] chain. [None]: out of fuel; [Some false]: the chain
    visits a tunnel twice; [Some true]: it reaches nil. *)
Fixpoint via_walk (m : gmap string CompiledTunnel) (fuel : nat) (seen : gset string) (cur : option string)
    : option bool :=
  match cur with
  | None => Some true
  | Some n =>
      match fuel with
      | O => None
      | S fuel' =>
          match m !! n with
          | None => Some true
          | Some ct =>
              if bool_decide (tun_Name ct ∈ seen) then Some false
              else via_walk m fuel' ({[tun_Name ct]} ∪ seen) (tun_Via ct)
          end
      end
  end.

(** A chain visits each of the [size m] tunnels at most once, so one more
    step than that decides it. *)
Definition via_cyclic (m : gmap string CompiledTunnel) (name : string) : bool :=
  negb (bool_decide (via_walk m (S (size m)) ∅ (Some name) = Some true)).

Definition compileTunnels (ro : RangeOrders) (p : SrcPolicy)
    : result (gmap string CompiledTunnel) CompileError :=
  let? m1 := tunnels_pass1 (ro_Tunnels ro) p in
  let? m2 := fold_result (link_via p) m1 (ro_TunnelsVia ro) in
  match List.find (via_cyclic m2) (range_over (ro_TunnelsCycle ro) m2).*1 with
  | Some name => Err (TunnelCycle name)
  | None => Ok m2
  end.

(** ** Endpoints *)

Definition validateRetentionDuration (val : string) : bool :=
  let v := TrimSpace val in
  if one_of v [""; "0"; "off"] then true
  else match ParseDuration v with
       | None => false
       | Some d => negb (d <? 0)
       end.

Definition body_hosts (b : Body) : list string :=
  match body_HostList b with
  | Some l => l
  | None => default [] (body_EndpointHosts b)
  end.

Definition compileEndpoint (tunnels : gmap string CompiledTunnel) (name : string) (ent : Entity)
    : result CompiledEndpoint CompileError :=
  let fw := ent_Framework ent in
  let retention := fw_Str fw "retention" in
  let hosts := body_hosts (ent_Body ent) in
  let mk t := mkEndpoint name (plugin_Family (ent_Plugin ent)) (ent_Plugin ent) (ent_Body ent) hosts
                [] [] (fw_Str fw "description") retention false t in
  if negb (validateRetentionDuration retention) then Err (BadRetention name)
  else
    let tn := fw_Ref fw "tunnel" in
    if String.eqb tn "" then Ok (mk None)
    else match tunnels !! tn with
         | None => Err (EndpointTunnelUndeclared name tn)
         | Some ct => if negb (hasResolvableHostname hosts) then Err (TunneledEndpointNoHostname name)
                      else Ok (mk (Some ct))
         end.

Definition compileEndpoints (ord : list string) (p : SrcPolicy) (tunnels : gmap string CompiledTunnel)
    : result (gmap string CompiledEndpoint) CompileError :=
  fold_result (λ m '(name, ent), let? ce := compileEndpoint tunnels name ent in Ok (<[name := ce]> m))
    ∅ (range_over ord (p_Endpoints p)).

(** ** Rules *)

(** [Rule.Compile]. *)
Definition compile_rule (r : Rule) : result (CompiledRule * list string) string :=
  let? m := NewMatcher (r_Family r) (r_Condition r) in
  Ok (mkRule (r_Name r) (r_Priority r) (r_Disabled r) (r_Condition r) (r_Credential r) m
        (mkOutcome (r_Verdict r) (r_Reason r) (r_Approve r)), r_Endpoints r).

Definition attach_rule (eps : gmap string CompiledEndpoint) (nr : string * Rule)
    : result (gmap string CompiledEndpoint) CompileError :=
  match compile_rule nr.2 with
  | Err _ => Err (RuleConditionError nr.1)
  | Ok (cr, targets) => attach_all (add_rule cr) (RuleTargetsUnknownEndpoint nr.1) targets eps
  end.

Definition attachRules (ord : list string) (p : SrcPolicy) (eps : gmap string CompiledEndpoint)
    : result (gmap string CompiledEndpoint) CompileError :=
  fold_result attach_rule eps (range_over ord (p_Rules p)).

(** ** The pass *)

Definition empty_policy : CompiledPolicy :=
  mkPolicy "" "" "" "" [] 0 0 "" "" ∅ ∅ ∅ ∅ ∅.

Definition compileProfiles (ro : RangeOrders) (p : SrcPolicy) (eps : gmap string CompiledEndpoint)
    : gmap string CompiledProfile :=
  list_to_map ((λ '(name, pr), (name, compile_profile (ro_Aliases ro name) p eps name pr))
                 <$> range_over (ro_Profiles ro) (p_Profiles p)).

Definition Compile (ro : RangeOrders) (gw : option Gateway) : result CompiledPolicy CompileError :=
  match gw with
  | None => Ok empty_policy
  | Some g =>
      match gw_Policy g with
      | None => Ok empty_policy
      | Some p =>
          let d := default (mkDefaults "" "" "" "" [] 0 0 "") (gw_Defaults g) in
          let? _ := validateLLMFailMode (d_LLMFailMode d) in
          let? _ := validateUnknownHost (d_UnknownHost d) in
          let? _ := validateRelayDestinations (d_RelayDestinations d) in
          let? allowCIDRs := parseRelayAllowCIDRs (d_RelayAllowCIDRs d) in
          let? _ := validateUnknownPeer (d_UnknownPeer d) in
          let? tunnels := compileTunnels ro p in
          let? eps1 := compileEndpoints (ro_Endpoints ro) p tunnels in
          let? eps2 := attachCredentials (ro_Credentials ro) p eps1 in
          let? eps3 := attachRules (ro_Rules ro) p eps2 in
          let? _ := validateUnknownInspect (d_UnknownHost d) eps3 in
          let eps := sort_rules <$> eps3 in
          let? profs := compileUnknownPeerProfile (d_UnknownPeer d) (compileProfiles ro p eps) in
          Ok (mkPolicy (d_UnknownHost d) (d_UnknownPeer d) (d_LLMFailMode d) (d_RelayDestinations d)
                allowCIDRs (d_LLMCacheTTL d) (d_HumanTimeout d) (d_HumanOnTimeout d) (gw_PublicURL g)
                profs eps tunnels (p_Approvers p) (p_Credentials p))
      end
  end.
End WithFrontEnds.

(** The orders of one run visit exactly the keys of the maps they range over. *)
Record orders_ok (ro : RangeOrders) (p : SrcPolicy) : Prop := {
  oo_Endpoints : range_order (ro_Endpoints ro) (p_Endpoints p);
  oo_Rules : range_order (ro_Rules ro) (p_Rules p);
  oo_Credentials : range_order (ro_Credentials ro) (p_Credentials p);
  oo_Tunnels : range_order (ro_Tunnels ro) (p_Tunnels p);
  oo_TunnelsVia : range_order (ro_TunnelsVia ro) (p_Tunnels p);
  oo_TunnelsCycle : range_order (ro_TunnelsCycle ro) (p_Tunnels p);
  oo_Profiles : range_order (ro_Profiles ro) (p_Profiles p);
  oo_Aliases : ∀ n, range_order (ro_Aliases ro n) (p_Endpoints p)
}.

Definition default_orders (p : SrcPolicy) : RangeOrders :=
  mkOrders (default_order (p_Endpoints p)) (default_order (p_Rules p)) (default_order (p_Credentials p))
    (default_order (p_Tunnels p)) (default_order (p_Tunnels p)) (default_order (p_Tunnels p))
    (default_order (p_Profiles p)) (λ _, default_order (p_Endpoints p)).

Lemma default_orders_ok p : orders_ok (default_orders p) p.
Proof. split; intros; apply default_order_ok. Qed.
