(* ===== verification/CompileProps.v ===== *)
(** * What the compile pass guarantees

    Theorems about [Compile.Compile], for every visiting order of the Go maps
    it ranges over: rule order, rule attachment, the endpoint set of a profile,
    the reserved profile, the [via] chains of tunnels. *)
From S2P Require Import Prelude GoStrings NetAddr HostMatch Policy Dispatch Compile.

(** ** Folds *)

Lemma fold_result_inv {A S E} (f : S -> A -> result S E) (P : S -> Prop) l st st' :
  (∀ s x s', x ∈ l → P s → f s x = Ok s' → P s') →
  P st → fold_result f st l = Ok st' → P st'.
Proof.
  revert st. induction l as [|x l IH]; simpl; intros st Hstep HP Hf; [by simplify_eq|].
  destruct (f st x) as [s|] eqn:Ef; [|done]. eapply IH; [|eapply Hstep, Ef; [left|done]|done].
  intros s1 y s2 Hy. apply Hstep. by right.
Qed.

Lemma foldl_inv {A S} (f : S -> A -> S) (P : S -> Prop) l st :
  (∀ s x, x ∈ l → P s → P (f s x)) → P st → P (foldl f st l).
Proof.
  revert st. induction l as [|x l IH]; simpl; intros st Hstep HP; [done|].
  apply IH; [intros s y Hy; apply Hstep; by right|]. apply Hstep; [left|done].
Qed.

(** Inserting one computed value per key of a map. *)
Lemma fold_insert_lookup {A B E} (f : string -> A -> result B E) l (m m' : gmap string B) k v :
  NoDup l.*1 →
  fold_result (λ m '(n, x), let? y := f n x in Ok (<[n := y]> m)) m l = Ok m' →
  m' !! k = Some v → (∃ x, (k, x) ∈ l ∧ f k x = Ok v) ∨ (k ∉ l.*1 ∧ m !! k = Some v).
Proof.
  revert m. induction l as [|[n x] l IH]; simpl; intros m Hnd Hf Hk.
  - simplify_eq. right. set_solver.
  - apply NoDup_cons in Hnd as [Hn Hnd].
    destruct (f n x) as [y|] eqn:Ef; [|done].
    destruct (IH _ Hnd Hf Hk) as [(x' & Hin & Hx')|[Hk' Hm]].
    + left. exists x'. split; [by right|done].
    + destruct (decide (n = k)) as [->|Hne].
      * rewrite lookup_insert_eq in Hm. simplify_eq. left. exists x. split; [left|done].
      * rewrite lookup_insert_ne in Hm by done. right. split; [|done].
        rewrite not_elem_of_cons. auto.
Qed.

(** ** Attaching to endpoints *)

Lemma attach_all_lookup {E} f (err : string -> E) ts eps eps' n :
  attach_all f err ts eps = Ok eps' →
  eps' !! n = Nat.iter (length (List.filter (String.eqb n) ts)) f <$> eps !! n.
Proof.
  revert eps. induction ts as [|t ts IH]; simpl; intros eps H.
  - simplify_eq. by destruct (eps' !! n).
  - destruct (eps !! t) eqn:Et; [|done]. rewrite (IH _ H). unfold update_endpoint.
    rewrite lookup_alter. destruct (String.eqb_spec n t) as [->|Hne].
    + rewrite decide_True by done. rewrite Et. simpl.
      by rewrite <- Nat.iter_succ_r.
    + by rewrite decide_False.
Qed.

Lemma filter_eqb_length n ts : (0 < length (List.filter (String.eqb n) ts))%nat ↔ n ∈ ts.
Proof.
  induction ts as [|t ts IH]; simpl; [set_solver by lia|].
  rewrite elem_of_cons. destruct (String.eqb_spec n t) as [->|Hne]; simpl; [naive_solver lia|].
  naive_solver.
Qed.

(** The fields of an endpoint that attaching never changes. *)
Definition same_shape (a b : CompiledEndpoint) : Prop :=
  ep_Name a = ep_Name b ∧ ep_Hosts a = ep_Hosts b ∧ ep_Family a = ep_Family b ∧
  ep_Plugin a = ep_Plugin b ∧ ep_Tunnel a = ep_Tunnel b.

#[global] Instance same_shape_equiv : Equivalence same_shape.
Proof.
  split; unfold same_shape; [done|intros a b (?&?&?&?&?); repeat split; congruence|].
  intros a b c (?&?&?&?&?) (?&?&?&?&?). repeat split; congruence.
Qed.

Lemma iter_add_rule k cr ce :
  ep_Rules (Nat.iter k (add_rule cr) ce) = ep_Rules ce ++ replicate k cr ∧
  same_shape (Nat.iter k (add_rule cr) ce) ce ∧
  ep_Credentials (Nat.iter k (add_rule cr) ce) = ep_Credentials ce.
Proof.
  induction k as [|k (IH1 & IH2 & IH3)]; simpl.
  - by rewrite app_nil_r.
  - repeat split; try apply IH2; [|done]. rewrite IH1, <- app_assoc.
    f_equal. by rewrite <- replicate_cons_app.
Qed.

Lemma iter_add_credential k ent ce :
  ep_Credentials (Nat.iter k (add_credential ent) ce) = ep_Credentials ce ++ replicate k ent ∧
  same_shape (Nat.iter k (add_credential ent) ce) ce ∧
  ep_Rules (Nat.iter k (add_credential ent) ce) = ep_Rules ce.
Proof.
  induction k as [|k (IH1 & IH2 & IH3)]; simpl.
  - by rewrite app_nil_r.
  - repeat split; try apply IH2; [|done]. rewrite IH1, <- app_assoc.
    f_equal. by rewrite <- replicate_cons_app.
Qed.

Section Props.
Context (NewMatcher : string -> string -> result (option Matcher) string).
Context (ParseDuration : string -> option Z).

(** Rule [nr] of the policy compiles to [cr] and targets endpoint [n]. *)
Definition targets_endpoint (nr : string * Rule) (n : string) (cr : CompiledRule) : Prop :=
  ∃ ts, compile_rule NewMatcher nr.2 = Ok (cr, ts) ∧ n ∈ ts.

Lemma attach_rule_lookup eps nr eps' n ce' :
  attach_rule NewMatcher eps nr = Ok eps' → eps' !! n = Some ce' →
  ∃ ce, eps !! n = Some ce ∧ same_shape ce' ce ∧ ep_Credentials ce' = ep_Credentials ce ∧
    ∀ r, r ∈ ep_Rules ce' ↔ r ∈ ep_Rules ce ∨ targets_endpoint nr n r.
Proof.
  unfold attach_rule. destruct (compile_rule NewMatcher nr.2) as [[cr ts]|] eqn:Ec; [|by intros].
  intros H Hn. rewrite (attach_all_lookup _ _ _ _ _ n H) in Hn. 
  destruct (eps !! n) as [ce|] eqn:En; simplify_eq/=. exists ce.
  destruct (iter_add_rule (length (List.filter (String.eqb n) ts)) cr ce) as (Hr & Hs & Hc).
  do 3 (split; [done|]). intros r. rewrite Hr, elem_of_app, elem_of_replicate. split.
  - intros [?|[-> Hk]]; [by left|]. right. exists ts. split; [done|].
    apply filter_eqb_length. lia.
  - intros [?|(ts' & Hc' & Hin)]; [by left|]. rewrite Ec in Hc'. simplify_eq. right. split; [done|].
    apply filter_eqb_length in Hin. lia.
Qed.

Lemma attachRules_lookup l eps eps' n ce' :
  fold_result (attach_rule NewMatcher) eps l = Ok eps' → eps' !! n = Some ce' →
  ∃ ce, eps !! n = Some ce ∧ same_shape ce' ce ∧ ep_Credentials ce' = ep_Credentials ce ∧
    ∀ r, r ∈ ep_Rules ce' ↔ r ∈ ep_Rules ce ∨ ∃ nr, nr ∈ l ∧ targets_endpoint nr n r.
Proof.
  revert eps. induction l as [|nr l IH]; simpl; intros eps Hf Hn.
  - simplify_eq. exists ce'. do 3 (split; [done|]). set_solver.
  - destruct (attach_rule NewMatcher eps nr) as [e1|] eqn:E; [|done].
    destruct (IH _ Hf Hn) as (c1 & H1 & Hs1 & Hc1 & Hr1).
    destruct (attach_rule_lookup _ _ _ _ _ E H1) as (c0 & H0 & Hs0 & Hc0 & Hr0).
    exists c0. split; [done|]. split; [by transitivity c1|]. split; [congruence|].
    intros r. rewrite Hr1, Hr0. setoid_rewrite elem_of_cons. naive_solver.
Qed.

Lemma attachCredentials_shape l eps p eps' n ce' :
  fold_result (attach_one_credential p) eps l = Ok eps' → eps' !! n = Some ce' →
  ∃ ce, eps !! n = Some ce ∧ same_shape ce' ce ∧ ep_Rules ce' = ep_Rules ce.
Proof.
  revert eps. induction l as [|c l IH]; simpl; intros eps Hf Hn; [simplify_eq; by exists ce'|].
  destruct (attach_one_credential p eps c) as [e1|] eqn:E1; [|done].
  destruct (IH _ Hf Hn) as (c1 & H1 & Hs1 & Hr1). unfold attach_one_credential in E1.
  destruct (p_Credentials p !! c) as [ent|]; [|simplify_eq; by exists c1].
  rewrite (attach_all_lookup _ _ _ _ _ n E1) in H1.
  destruct (eps !! n) as [c0|]; simplify_eq/=. exists c0.
  destruct (iter_add_credential (length (List.filter (String.eqb n) (CredentialEndpointTargets ent))) ent c0)
    as (_ & Hs0 & Hr0).
  split; [done|]. split; [by etransitivity|congruence].
Qed.

Lemma compileEndpoint_shape tunnels n ent ce :
  compileEndpoint ParseDuration tunnels n ent = Ok ce →
  ep_Name ce = n ∧ ep_Rules ce = [] ∧ ep_Credentials ce = [] ∧
  ep_Hosts ce = body_hosts (ent_Body ent) ∧ ep_Plugin ce = ent_Plugin ent.
Proof. unfold compileEndpoint. intros H. repeat (dcase_in H; try done); by simplify_eq. Qed.

(** The stages of a successful run on a loaded policy. *)
Lemma Compile_stages ro g p pol :
  Compile NewMatcher ParseDuration ro (Some g) = Ok pol → gw_Policy g = Some p →
  ∃ eps1 eps2 eps3,
    compileTunnels ParseDuration ro p = Ok (pol_Tunnels pol) ∧
    compileEndpoints ParseDuration (ro_Endpoints ro) p (pol_Tunnels pol) = Ok eps1 ∧
    attachCredentials (ro_Credentials ro) p eps1 = Ok eps2 ∧
    attachRules NewMatcher (ro_Rules ro) p eps2 = Ok eps3 ∧
    validateUnknownInspect (pol_UnknownHost pol) eps3 = Ok tt ∧
    pol_Endpoints pol = sort_rules <$> eps3 ∧
    compileUnknownPeerProfile (pol_UnknownPeer pol) (compileProfiles ro p (pol_Endpoints pol))
      = Ok (pol_Profiles pol).
Proof.
  intros H Hp. unfold Compile in H. rewrite Hp in H. cbv zeta in H.
  set (d := default _ _) in H. clearbody d.
  destruct (validateLLMFailMode _); [|done]. destruct (validateUnknownHost _); [|done].
  destruct (validateRelayDestinations _); [|done]. destruct (parseRelayAllowCIDRs _); [|done].
  destruct (validateUnknownPeer _); [|done].
  destruct (compileTunnels ParseDuration ro p) as [ts|]; [|done].
  destruct (compileEndpoints _ _ _ _) as [e1|] eqn:E1; [|done].
  destruct (attachCredentials _ _ _) as [e2|] eqn:E2; [|done].
  destruct (attachRules _ _ _ _) as [e3|] eqn:E3; [|done].
  destruct (validateUnknownInspect _ _) as [[]|] eqn:E4; [|done].
  destruct (compileUnknownPeerProfile _ _) as [profs|] eqn:E5; [|done].
  simplify_eq/=. by exists e1, e2, e3.
Qed.

(** Every endpoint of the compiled policy comes from the block of the same
    name; its rules are the compiled rules that target it, by priority. *)
Lemma Compile_endpoint ro g p pol n ce :
  orders_ok ro p → gw_Policy g = Some p →
  Compile NewMatcher ParseDuration ro (Some g) = Ok pol → pol_Endpoints pol !! n = Some ce →
  ep_Name ce = n ∧ StronglySorted (λ a b, rule_Priority b <= rule_Priority a) (ep_Rules ce) ∧
  (∀ r, r ∈ ep_Rules ce ↔ ∃ nr, p_Rules p !! nr.1 = Some nr.2 ∧ targets_endpoint nr n r) ∧
  (∃ ent, p_Endpoints p !! n = Some ent ∧ ep_Hosts ce = body_hosts (ent_Body ent)).
Proof.
  intros Ho Hp HC Hn. destruct (Compile_stages _ _ _ _ HC Hp) as (e1 & e2 & e3 & _ & E1 & E2 & E3 & _ & Heps & _).
  rewrite Heps, lookup_fmap in Hn. destruct (e3 !! n) as [c3|] eqn:H3; simplify_eq/=.
  destruct (attachRules_lookup _ _ _ _ _ E3 H3) as (c2 & H2 & (Hn2 & Hh2 & _) & _ & Hr2).
  unfold attachCredentials in E2. destruct (fold_result _ e1 _) as [e12|] eqn:E12; [|done].
  destruct (attachCredentials_shape _ _ _ _ _ _ E2 H2) as (c12 & H12 & (Hn12 & Hh12 & _) & Hr12).
  destruct (attachCredentials_shape _ _ _ _ _ _ E12 H12) as (c1 & H1 & (Hn1 & Hh1 & _) & Hr1).
  unfold compileEndpoints in E1. apply fold_insert_lookup with (k := n) (v := c1) in E1;
    [|by apply NoDup_range_over, Ho|done].
  destruct E1 as [(ent & Hin & Hce)|[_ ?]]; [|by rewrite lookup_empty in *].
  apply compileEndpoint_shape in Hce as (Hname & Hnil & _ & Hhosts & _).
  apply elem_of_range_over in Hin as [_ Hent].
  split; [congruence|]. split; [|split].
  - apply stable_sort_sorted; unfold rule_less; intros; bprop; lia.
  - intros r. rewrite elem_of_stable_sort, Hr2, Hr12, Hr1, Hnil. split.
    + intros [?|([k v] & Hkv & Ht)]; [set_solver|]. apply elem_of_range_over in Hkv as [_ ?].
      by exists (k, v).
    + intros ([k v] & Hkv & Ht). right. exists (k, v). split; [|done].
      apply range_over_complete; [apply Ho|done].
  - exists ent. split; [done|congruence].
Qed.

(** ** Rules: priorities and the visiting order *)

(** What the caller sees of a rule that does not skip. *)
Definition effective (r : CompiledRule) (req : option Request) : CompiledRule :=
  match rule_effect r req with FailsClosed => synthesizeUnevaluableDeny r req | _ => r end.

Lemma effective_Priority r req : rule_Priority (effective r req) = rule_Priority r.
Proof. unfold effective. by destruct (rule_effect r req). Qed.

Lemma match_rules_sorted l req r' :
  StronglySorted (λ a b, rule_Priority b <= rule_Priority a) l → match_rules l req = Some r' →
  ∃ r, r ∈ l ∧ rule_effect r req ≠ Skips ∧ r' = effective r req ∧
    ∀ x, x ∈ l → rule_effect x req ≠ Skips → rule_Priority x <= rule_Priority r.
Proof.
  intros Hs Hm. destruct (match_rules_Some _ _ _ Hm) as (l1 & r & l2 & -> & Hl1 & He).
  exists r. unfold effective. split; [set_solver|]. split; [by destruct He as [[-> _]|[-> _]]|]. split.
  { destruct He as [[-> ->]|[-> ->]]; done. }
  apply StronglySorted_app_cons in Hs. rewrite Forall_forall in Hl1, Hs.
  intros x [Hx|[->|Hx]%elem_of_cons]%elem_of_app Hne; [by rewrite Hl1 in Hne|lia|auto].
Qed.

(** The rules of a compiled endpoint are exactly the policy's rules that name
    it, in descending priority, whatever order the maps are visited in. *)
Theorem Compile_rules_correct ro g p pol n ce :
  orders_ok ro p → gw_Policy g = Some p →
  Compile NewMatcher ParseDuration ro (Some g) = Ok pol → pol_Endpoints pol !! n = Some ce →
  StronglySorted (λ a b, rule_Priority b <= rule_Priority a) (ep_Rules ce) ∧
  ∀ r, r ∈ ep_Rules ce ↔
    ∃ name rule ts, p_Rules p !! name = Some rule ∧ compile_rule NewMatcher rule = Ok (r, ts) ∧ n ∈ ts.
Proof.
  intros Ho Hp HC Hn. destruct (Compile_endpoint _ _ _ _ _ _ Ho Hp HC Hn) as (_ & Hs & Hr & _).
  split; [done|]. intros r. rewrite Hr. split.
  - intros ([k v] & Hk & ts & Hc & Hin). by exists k, v, ts.
  - intros (k & v & ts & Hk & Hc & Hin). exists (k, v). split; [done|]. by exists ts.
Qed.

(** C5. From configuration to verdict: the rule that decides a request is one of
    the rules written for the endpoint, it applies to the request, and no
    rule written for the endpoint with a higher priority does. *)
Theorem Compile_decides_by_priority ro g p pol n ce req r' :
  orders_ok ro p → gw_Policy g = Some p →
  Compile NewMatcher ParseDuration ro (Some g) = Ok pol → pol_Endpoints pol !! n = Some ce →
  MatchRequest (Some ce) req = Some r' →
  ∃ name rule r ts, p_Rules p !! name = Some rule ∧ compile_rule NewMatcher rule = Ok (r, ts) ∧ n ∈ ts ∧
    rule_effect r req ≠ Skips ∧ r' = effective r req ∧
    ∀ name2 rule2 r2 ts2, p_Rules p !! name2 = Some rule2 → compile_rule NewMatcher rule2 = Ok (r2, ts2) →
      n ∈ ts2 → r_Priority rule < r_Priority rule2 → rule_effect r2 req = Skips.
Proof.
  intros Ho Hp HC Hn Hm. destruct (Compile_endpoint _ _ _ _ _ _ Ho Hp HC Hn) as (_ & Hs & Hr & _).
  destruct (match_rules_sorted _ _ _ Hs Hm) as (r & Hin & Hne & Heff & Hmax).
  apply Hr in Hin as ([name rule] & Hrule & ts & Hc & Hts). exists name, rule, r, ts.
  do 5 (split; [done|]). intros name2 rule2 r2 ts2 Hk2 Hc2 Hin2 Hlt.
  assert (r2 ∈ ep_Rules ce) as Hr2 by (apply Hr; exists (name2, rule2); split; [done|by exists ts2]).
  specialize (Hmax r2 Hr2). destruct (rule_effect r2 req); [done| |].
  all: exfalso; apply (Zlt_not_le _ _ Hlt); unfold compile_rule in Hc, Hc2; simpl in Hc;
    destruct (NewMatcher (r_Family rule) _), (NewMatcher (r_Family rule2) _); simplify_eq/=; auto.
Qed.

(** When no two rules of an endpoint share a priority, the verdict does not
    depend on the order Go visits its maps in: two compilations of the same
    configuration decide every request alike. *)
Theorem Compile_verdict_deterministic ro1 ro2 g p pol1 pol2 n ce1 ce2 req :
  orders_ok ro1 p → orders_ok ro2 p → gw_Policy g = Some p →
  Compile NewMatcher ParseDuration ro1 (Some g) = Ok pol1 →
  Compile NewMatcher ParseDuration ro2 (Some g) = Ok pol2 →
  pol_Endpoints pol1 !! n = Some ce1 → pol_Endpoints pol2 !! n = Some ce2 →
  (∀ a b, a ∈ ep_Rules ce1 → b ∈ ep_Rules ce1 → rule_Priority a = rule_Priority b → a = b) →
  MatchRequest (Some ce1) req = MatchRequest (Some ce2) req.
Proof.
  intros Ho1 Ho2 Hp HC1 HC2 Hn1 Hn2 Hinj.
  destruct (Compile_endpoint _ _ _ _ _ _ Ho1 Hp HC1 Hn1) as (_ & Hs1 & Hr1 & _).
  destruct (Compile_endpoint _ _ _ _ _ _ Ho2 Hp HC2 Hn2) as (_ & Hs2 & Hr2 & _).
  assert (∀ r, r ∈ ep_Rules ce1 ↔ r ∈ ep_Rules ce2) as Heq by (intros r; by rewrite Hr1, Hr2).
  unfold MatchRequest. destruct (match_rules (ep_Rules ce2) req) as [r2|] eqn:E2.
  - destruct (match_rules (ep_Rules ce1) req) as [r1|] eqn:E1.
    + destruct (match_rules_sorted _ _ _ Hs1 E1) as (a & Ha & Hae & -> & Hamax).
      destruct (match_rules_sorted _ _ _ Hs2 E2) as (b & Hb & Hbe & -> & Hbmax).
      do 2 f_equal. apply Hinj; [done|by apply Heq|].
      apply Z.le_antisymm; [apply Hbmax; [by apply Heq|done]|apply Hamax; [by apply Heq|done]].
    + destruct (match_rules_sorted _ _ _ Hs2 E2) as (b & Hb & Hbe & _).
      apply match_rules_None_iff in E1. rewrite Forall_forall in E1. by rewrite E1 in Hbe by (by apply Heq).
  - apply match_rules_None_iff in E2. apply match_rules_None_iff.
    rewrite Forall_forall in E2 |- *. intros x Hx. by apply E2, Heq.
Qed.
End Props.

(** ** A small gateway *)

Definition no_matcher (family condition : string) : result (option Matcher) string := Ok None.
Definition no_duration (s : string) : option Z := None.

Definition tie_rule (name v : string) (prio : Z) : Rule :=
  mkSrcRule name "http" ["api"] prio false "" "" v "" [].

Definition api_entity : Entity :=
  mkEntity "api" https_plugin (mkBody (Some ["api.example.com:443"; "*.cdn.example.com"; "*.eu.cdn.example.com"]) None None None None)
    empty_framework.

Definition tok_entity : Entity :=
  mkEntity "tok" https_plugin empty_body (mkFramework {["endpoint" := "api"]} ∅ ∅).

Definition small_policy (rules : gmap string Rule) : SrcPolicy :=
  mkSrcPolicy ∅ {["tok" := tok_entity]} {["api" := api_entity]} rules ∅
    {["dev" := mkSrcProfile "dev" ["tok"] ∅ false]} ["tok"].

Definition tie_rules : gmap string Rule :=
  <["first" := tie_rule "first" "allow" 0]> {["second" := tie_rule "second" "deny" 0]}.

Definition ranked_rules : gmap string Rule :=
  <["first" := tie_rule "first" "allow" 0]> {["second" := tie_rule "second" "deny" 10]}.

Definition small_gateway (unknownPeer : string) (rules : gmap string Rule) : Gateway :=
  mkGateway (Some (mkDefaults "deny" unknownPeer "" "" [] 0 0 "")) (Some (small_policy rules)) "".

(** The default orders, with the rules visited in the order [l]. *)
Definition with_rule_order (l : list string) (p : SrcPolicy) : RangeOrders :=
  mkOrders (default_order (p_Endpoints p)) l (default_order (p_Credentials p))
    (default_order (p_Tunnels p)) (default_order (p_Tunnels p)) (default_order (p_Tunnels p))
    (default_order (p_Profiles p)) (λ _, default_order (p_Endpoints p)).

Lemma with_rule_order_ok l p : range_order l (p_Rules p) → orders_ok (with_rule_order l p) p.
Proof. split; intros; try apply default_order_ok. done. Qed.

Definition small_compile (l : list string) (unknownPeer : string) (rules : gmap string Rule) :=
  Compile no_matcher no_duration (with_rule_order l (small_policy rules)) (Some (small_gateway unknownPeer rules)).

(** The policy of a run, the empty policy when it fails. *)
Definition compiled (r : result CompiledPolicy CompileError) : CompiledPolicy :=
  match r with Ok pol => pol | Err _ => empty_policy end.

Definition small_verdict (l : list string) (rules : gmap string Rule) : option string :=
  (λ r, out_Verdict (rule_Outcome r)) <$>
    MatchRequest (pol_Endpoints (compiled (small_compile l "" rules)) !! "api") (Some test_request).

Lemma two_rules_order (m : gmap string Rule) a b :
  bool_decide (NoDup [a; b]) = true → dom m = {[a; b]} → range_order [a; b] m ∧ range_order [b; a] m.
Proof.
  intros Hnd%bool_decide_eq_true Hdom.
  assert (∀ k, is_Some (m !! k) ↔ k = a ∨ k = b) as Hk.
  { intros k. rewrite <- elem_of_dom, Hdom. set_solver. }
  split; (split; [apply NoDup_cons in Hnd as [? _]; repeat constructor; set_solver|]); intros k;
    rewrite Hk; set_solver.
Qed.

(** Rules of equal priority are not ordered by declaration: the pass appends
    them in the visiting order of a Go map, so two runs on the same
    configuration can turn an allow into a deny. *)
Theorem Compile_tie_depends_on_map_order :
  ∃ l1 l2, orders_ok (with_rule_order l1 (small_policy tie_rules)) (small_policy tie_rules) ∧
    orders_ok (with_rule_order l2 (small_policy tie_rules)) (small_policy tie_rules) ∧
    small_verdict l1 tie_rules = Some "allow" ∧ small_verdict l2 tie_rules = Some "deny".
Proof.
  destruct (two_rules_order tie_rules "first" "second") as [H1 H2]; [done|done|].
  exists ["first"; "second"], ["second"; "first"].
  split; [by apply with_rule_order_ok|]. split; [by apply with_rule_order_ok|]. split; vm_compute; done.
Qed.

Definition ranked_compile (l : list string) := small_compile l "" ranked_rules.
Definition fs : list string := ["first"; "second"].
Definition sf : list string := ["second"; "first"].

Lemma ranked_orders_ok l : l = fs ∨ l = sf → orders_ok (with_rule_order l (small_policy ranked_rules)) (small_policy ranked_rules).
Proof.
  destruct (two_rules_order ranked_rules "first" "second") as [H1 H2]; [done|done|].
  intros [->| ->]; by apply with_rule_order_ok.
Qed.

Definition api_of (pol : CompiledPolicy) : CompiledEndpoint :=
  default (test_endpoint "" []) (pol_Endpoints pol !! "api").

Lemma Compile_rules_correct_witness :
  let ce := api_of (compiled (ranked_compile fs)) in
  rule_Name <$> ep_Rules ce = ["second"; "first"] ∧
  StronglySorted (λ a b, rule_Priority b <= rule_Priority a) (ep_Rules ce).
Proof.
  split; [vm_compute; reflexivity|].
  apply (Compile_rules_correct no_matcher no_duration (with_rule_order fs (small_policy ranked_rules))
    (small_gateway "" ranked_rules) (small_policy ranked_rules) (compiled (ranked_compile fs)) "api").
  - apply ranked_orders_ok. by left.
  - reflexivity.
  - vm_compute. reflexivity.
  - vm_compute. reflexivity.
Defined.

Lemma Compile_decides_by_priority_witness :
  ∃ name rule, p_Rules (small_policy ranked_rules) !! name = Some rule ∧ r_Priority rule = 10.
Proof.
  destruct (Compile_decides_by_priority no_matcher no_duration (with_rule_order fs (small_policy ranked_rules))
    (small_gateway "" ranked_rules) (small_policy ranked_rules) (compiled (ranked_compile fs)) "api"
    (api_of (compiled (ranked_compile fs))) (Some test_request) (test_rule "second" 10 None (verdict "deny")))
    as (name & rule & r & ts & Hn & Hc & _ & _ & He & _).
  - apply ranked_orders_ok. by left.
  - reflexivity.
  - vm_compute. reflexivity.
  - vm_compute. reflexivity.
  - vm_compute. reflexivity.
  - exists name, rule. split; [done|]. unfold compile_rule, no_matcher in Hc.
    injection Hc as <- _. apply (f_equal rule_Priority) in He. rewrite effective_Priority in He. done.
Defined.

Lemma Compile_verdict_deterministic_witness :
  MatchRequest (Some (api_of (compiled (ranked_compile fs)))) (Some test_request) =
  MatchRequest (Some (api_of (compiled (ranked_compile sf)))) (Some test_request).
Proof.
  apply (Compile_verdict_deterministic no_matcher no_duration
    (with_rule_order fs (small_policy ranked_rules)) (with_rule_order sf (small_policy ranked_rules))
    (small_gateway "" ranked_rules) (small_policy ranked_rules)
    (compiled (ranked_compile fs)) (compiled (ranked_compile sf)) "api").
  - apply ranked_orders_ok. by left.
  - apply ranked_orders_ok. by right.
  - reflexivity.
  - vm_compute. reflexivity.
  - vm_compute. reflexivity.
  - vm_compute. reflexivity.
  - vm_compute. reflexivity.
  - assert (ep_Rules (api_of (compiled (ranked_compile fs))) =
      [test_rule "second" 10 None (verdict "deny"); test_rule "first" 0 None (verdict "allow")])
      as -> by (vm_compute; reflexivity).
    intros a b Ha Hb Hp. set_unfold. destruct Ha as [->|[->|[]]], Hb as [->|[->|[]]]; done.
Defined.
