(* ===== verification/ProfileProps.v ===== *)
(** * What a compiled profile exposes

    A profile resolves the hosts its credentials bring in scope and nothing
    else, and dispatches the credentials it lists and nothing else. *)
From S2P Require Import Prelude GoStrings NetAddr HostMatch Policy Dispatch Compile CompileProps.

(** ** What "in scope" means *)

(** The endpoint's host entry [h] covers the (lower-case) [host]: literally, by
    its bare name when it names the default HTTPS port, or as a wildcard. *)
Inductive claims (ce : CompiledEndpoint) (h host : string) : Prop :=
| claims_exact : ToLower h = host → claims ce h host
| claims_alias bare : bareHostAlias ce h = Some bare → ToLower bare = host → claims ce h host
| claims_wildcard w port :
    SplitHostPort h = Ok (w, port) → IsWildcardHost w = true → MatchWildcard (ToLower w) host = true →
    claims ce h host.

(** One of the profile's credentials is bound to endpoint [n]; [c] is that
    credential with its merged disambiguators. *)
Definition brings (p : SrcPolicy) (pr : Profile) (n : string) (c : CompiledCredential) : Prop :=
  ∃ credName, credName ∈ pr_Credentials pr ∧ p_Credentials p !! credName = Some (cc_Credential c) ∧
    n ∈ CredentialEndpointTargets (cc_Credential c) ∧
    cc_Disambiguators c = mergeDisambig (blockDisambiguators (cc_Credential c))
                            (default ∅ (pr_Disambiguators pr !! credName)).

(** ** Soundness of the tables *)

Record prof_inv (eps : gmap string CompiledEndpoint) (B : string -> CompiledCredential -> Prop)
    (pf : CompiledProfile) : Prop := {
  pi_eps n ce : prof_Endpoints pf !! n = Some ce → eps !! n = Some ce ∧ ∃ c, B n c;
  pi_idx h ce : prof_HostIndex pf !! h = Some ce →
    ∃ n e, prof_Endpoints pf !! n = Some ce ∧ e ∈ ep_Hosts ce ∧ claims ce e h;
  pi_pat hp : hp ∈ prof_HostPatterns pf →
    ∃ n e w port, prof_Endpoints pf !! n = Some (hp_Endpoint hp) ∧ e ∈ ep_Hosts (hp_Endpoint hp) ∧
      SplitHostPort e = Ok (w, port) ∧ IsWildcardHost w = true ∧ hp_Pattern hp = ToLower w;
  pi_creds n cs c : prof_EndpointCredentials pf !! n = Some cs → c ∈ cs → B n c
}.

Section Invariant.
Context (eps : gmap string CompiledEndpoint) (B : string -> CompiledCredential -> Prop).

Lemma index_host_inv n ce pf h :
  prof_inv eps B pf → prof_Endpoints pf !! n = Some ce → h ∈ ep_Hosts ce →
  prof_inv eps B (index_host ce pf h) ∧ prof_Endpoints (index_host ce pf h) = prof_Endpoints pf.
Proof.
  intros [He Hi Hp Hc] Hn Hh. unfold index_host.
  destruct (SplitHostPort h) as [[host port]|] eqn:Es; [|by split].
  destruct (String.eqb host ""); [by split|].
  destruct (IsWildcardHost host) eqn:Ew; (split; [|done]); split; simpl; auto.
  - intros hp [?| ->%list_elem_of_singleton]%elem_of_app; [auto|]. exists n, h, host, port. done.
  - intros k c0. rewrite lookup_insert_Some. intros [[<- <-]|[_ ?]]; [|auto].
    exists n, h. split_and!; try done. by apply claims_exact.
Qed.

Lemma index_hosts_inv n ce pf hs :
  prof_inv eps B pf → prof_Endpoints pf !! n = Some ce → hs ⊆ ep_Hosts ce →
  prof_inv eps B (foldl (index_host ce) pf hs) ∧
  prof_Endpoints (foldl (index_host ce) pf hs) = prof_Endpoints pf.
Proof.
  revert pf. induction hs as [|h hs IH]; simpl; intros pf Hinv Hn Hsub; [done|].
  destruct (index_host_inv n ce pf h) as [H1 H2]; [done|done|set_solver|].
  destruct (IH (index_host ce pf h)) as [H3 H4]; [done|by rewrite H2|set_solver|].
  split; [done|congruence].
Qed.

Lemma bind_endpoint_inv cred merged pf n :
  prof_inv eps B pf → B n (mkCompiledCredential merged cred) →
  prof_inv eps B (bind_endpoint eps cred merged pf n).
Proof.
  intros [He Hi Hp Hc] HB. unfold bind_endpoint. destruct (eps !! n) as [ce|] eqn:En; [|by split].
  set (pf1 := put_endpoint n ce pf). assert (prof_inv eps B pf1) as H1.
  { split; unfold pf1; simpl.
    - intros k c0. rewrite lookup_insert_Some. intros [[<- <-]|[_ ?]]; [split; [done|by eexists]|auto].
    - intros h c0 (k & e & Hk & Hin & Hcl)%Hi. exists k, e. split; [|done].
      destruct (decide (n = k)) as [->|]; [|by rewrite lookup_insert_ne].
      rewrite lookup_insert_eq. apply He in Hk as [? _]. congruence.
    - intros hp (k & e & w & port & Hk & Hin & Hcl)%Hp. exists k, e, w, port. split; [|done].
      destruct (decide (n = k)) as [->|]; [|by rewrite lookup_insert_ne].
      rewrite lookup_insert_eq. apply He in Hk as [? _]. congruence.
    - done. }
  destruct (index_hosts_inv n ce pf1 (ep_Hosts ce)) as [[He2 Hi2 Hp2 Hc2] _]; [done|apply lookup_insert_eq|done|].
  split; simpl; try done. intros k cs c. rewrite lookup_insert_Some.
  intros [[<- <-]|[_ ?]] Hin; [|by eapply Hc2].
  apply elem_of_app in Hin as [Hin| ->%list_elem_of_singleton]; [|done].
  destruct (prof_EndpointCredentials (foldl _ pf1 _) !! n) as [cs0|] eqn:Ec; [by eapply Hc2|set_solver].
Qed.
End Invariant.

Section Profiles.
Context (p : SrcPolicy) (eps : gmap string CompiledEndpoint) (pr : Profile).

Lemma bind_credential_inv pf credName :
  credName ∈ pr_Credentials pr → prof_inv eps (brings p pr) pf →
  prof_inv eps (brings p pr) (bind_credential p eps pr pf credName).
Proof.
  intros Hin Hinv. unfold bind_credential. destruct (p_Credentials p !! credName) as [ent|] eqn:Ec; [|done].
  apply foldl_inv.
  - intros s n Hn Hs. apply bind_endpoint_inv; [done|]. by exists credName.
  - destruct Hinv. by split.
Qed.

(** The profile as the credential loop leaves it. *)
Definition bound_profile (name : string) : CompiledProfile :=
  foldl (bind_credential p eps pr) (empty_profile name (pr_HITLAsyncGrants pr)) (pr_Credentials pr).

Lemma bound_profile_inv name : prof_inv eps (brings p pr) (bound_profile name).
Proof.
  unfold bound_profile. apply foldl_inv; [by intros; apply bind_credential_inv|].
  split; simpl; try (intros *; rewrite lookup_empty; done). set_solver.
Qed.
End Profiles.

(** ** Aliases and the final tables *)

Definition idx_ok (pf : CompiledProfile) (idx : gmap string CompiledEndpoint) : Prop :=
  ∀ h ce, idx !! h = Some ce → ∃ n e, prof_Endpoints pf !! n = Some ce ∧ e ∈ ep_Hosts ce ∧ claims ce e h.

Lemma add_alias_ok pf n ce idx h :
  prof_Endpoints pf !! n = Some ce → h ∈ ep_Hosts ce → idx_ok pf idx → idx_ok pf (add_alias ce idx h).
Proof.
  intros Hn Hh Hok. unfold add_alias. destruct (bareHostAlias ce h) as [bare|] eqn:Eb; [|done].
  destruct (idx !! ToLower bare) eqn:Ei; [done|]. intros k c. rewrite lookup_insert_Some.
  intros [[<- <-]|[_ ?]]; [|auto]. exists n, h. split_and!; try done. by eapply claims_alias.
Qed.

Lemma add_aliases_ok ord pf : idx_ok pf (prof_HostIndex pf) → idx_ok pf (add_aliases ord pf).
Proof.
  intros H. unfold add_aliases. apply foldl_inv; [|done].
  intros idx [n ce] [_ Hn]%elem_of_range_over Hidx. apply foldl_inv; [|done].
  intros idx' h Hh Hidx'. by eapply add_alias_ok.
Qed.

Lemma add_alias_mono ce idx h k : is_Some (idx !! k) → is_Some (add_alias ce idx h !! k).
Proof.
  unfold add_alias. destruct (bareHostAlias ce h) as [bare|]; [|done].
  destruct (idx !! ToLower bare) eqn:E; [done|]. rewrite lookup_insert_is_Some. intros [v Hv].
  destruct (decide (ToLower bare = k)); [by left|right; eauto].
Qed.

Lemma add_aliases_mono ord pf k : is_Some (prof_HostIndex pf !! k) → is_Some (add_aliases ord pf !! k).
Proof.
  intros H. unfold add_aliases. apply (foldl_inv _ (λ idx, is_Some (idx !! k))); [|done].
  intros idx [n ce] _ Hidx. apply (foldl_inv _ (λ idx, is_Some (idx !! k))); [|done].
  intros; by apply add_alias_mono.
Qed.

Lemma dedupe_loop_sub l seen hp : hp ∈ dedupe_loop l seen → hp ∈ l.
Proof.
  revert seen. induction l as [|x l IH]; intros seen; simpl; [done|].
  case_bool_decide; [intros; right; eauto|].
  intros [->|?]%elem_of_cons; [left|right; eauto].
Qed.

Lemma dedupePatterns_sub l hp : hp ∈ dedupePatterns l → hp ∈ l.
Proof. unfold dedupePatterns. destruct (_ <? _)%nat; [done|apply dedupe_loop_sub]. Qed.

Lemma compile_profile_inv ord p eps name pr :
  prof_inv eps (brings p pr) (compile_profile ord p eps name pr).
Proof.
  pose proof (bound_profile_inv p eps pr name) as [He Hi Hp Hc].
  unfold compile_profile. fold (bound_profile p eps pr name). split; simpl; [done| | |done].
  - by apply add_aliases_ok.
  - intros hp. unfold sortHostPatterns. rewrite elem_of_stable_sort. eauto using dedupePatterns_sub.
Qed.

Lemma compileProfiles_lookup ro p eps name :
  range_order (ro_Profiles ro) (p_Profiles p) →
  compileProfiles ro p eps !! name =
  (λ pr, compile_profile (ro_Aliases ro name) p eps name pr) <$> p_Profiles p !! name.
Proof.
  intros Ho. unfold compileProfiles. set (f := λ '(n, pr), _).
  assert ((f <$> range_over (ro_Profiles ro) (p_Profiles p)).*1 = (range_over (ro_Profiles ro) (p_Profiles p)).*1) as Hfst.
  { rewrite <- list_fmap_compose. apply list_fmap_ext. by intros ? [? ?] _. }
  destruct (p_Profiles p !! name) as [pr|] eqn:E; simpl.
  - apply elem_of_list_to_map_1; [rewrite Hfst; apply NoDup_range_over, Ho|].
    apply list_elem_of_fmap. exists (name, pr). split; [done|]. by apply range_over_complete.
  - apply not_elem_of_list_to_map_1. rewrite Hfst, range_over_fst, E. by intros [_ [? ?]].
Qed.

(** ** Completeness of the tables: nothing indexed is lost *)

Record pf_le (a b : CompiledProfile) : Prop := {
  le_idx h : is_Some (prof_HostIndex a !! h) → is_Some (prof_HostIndex b !! h);
  le_pat hp : hp ∈ prof_HostPatterns a → hp ∈ prof_HostPatterns b
}.

#[global] Instance pf_le_preorder : PreOrder pf_le.
Proof. split; [by split|]. intros a b c [? ?] [? ?]. split; eauto. Qed.

Lemma foldl_le {A} (f : CompiledProfile -> A -> CompiledProfile) pf l :
  (∀ pf x, pf_le pf (f pf x)) → pf_le pf (foldl f pf l).
Proof.
  intros Hf. revert pf. induction l as [|x l IH]; intros pf; simpl; [done|].
  etransitivity; [apply Hf|apply IH].
Qed.

Lemma index_host_le ce pf h : pf_le pf (index_host ce pf h).
Proof.
  unfold index_host. destruct (SplitHostPort h) as [[host port]|]; [|done].
  destruct (String.eqb host ""); [done|]. destruct (IsWildcardHost host); split; simpl; try done.
  - set_solver.
  - intros k [v Hv]. rewrite lookup_insert_is_Some. destruct (decide (ToLower h = k)); [by left|eauto].
Qed.

Lemma bind_endpoint_le eps cred merged pf n : pf_le pf (bind_endpoint eps cred merged pf n).
Proof.
  unfold bind_endpoint. destruct (eps !! n) as [ce|]; [|done].
  destruct (foldl_le (index_host ce) (put_endpoint n ce pf) (ep_Hosts ce)) as [H1 H2];
    [intros; apply index_host_le|]. by split.
Qed.

Lemma bind_credential_le p eps pr pf c : pf_le pf (bind_credential p eps pr pf c).
Proof.
  unfold bind_credential. destruct (p_Credentials p !! c) as [ent|]; [|done].
  destruct (foldl_le (bind_endpoint eps ent (mergeDisambig (blockDisambiguators ent)
    (default ∅ (pr_Disambiguators pr !! c)))) (list_credential ent pf) (CredentialEndpointTargets ent)) as [H1 H2];
    [intros; apply bind_endpoint_le|]. by split.
Qed.

(** Processing [x] establishes a monotone property of the final state. *)
Lemma foldl_establish {A} (f : CompiledProfile -> A -> CompiledProfile) (Q : CompiledProfile -> Prop) pf l x :
  (∀ pf x, pf_le pf (f pf x)) → (∀ a b, pf_le a b → Q a → Q b) →
  x ∈ l → (∀ pf, Q (f pf x)) → Q (foldl f pf l).
Proof.
  intros Hle HQ Hx Hf. revert pf. induction l as [|y l IH]; intros pf; [set_solver|]. simpl.
  apply elem_of_cons in Hx as [->|Hx]; [|by apply IH]. eapply HQ; [by apply foldl_le|apply Hf].
Qed.

(** The entry [h] of endpoint [ce] is in the profile's tables. *)
Definition indexed (ce : CompiledEndpoint) (h : string) (pf : CompiledProfile) : Prop :=
  ∀ host port, SplitHostPort h = Ok (host, port) → host ≠ "" →
    if IsWildcardHost host then mkHostPattern (ToLower host) ce ∈ prof_HostPatterns pf
    else is_Some (prof_HostIndex pf !! ToLower h).

Lemma indexed_mono ce h a b : pf_le a b → indexed ce h a → indexed ce h b.
Proof.
  intros [H1 H2] Hi host port Hs Hne. specialize (Hi host port Hs Hne).
  destruct (IsWildcardHost host); eauto.
Qed.

Lemma index_host_indexed ce pf h : indexed ce h (index_host ce pf h).
Proof.
  intros host port Hs Hne. unfold index_host. rewrite Hs.
  rewrite (proj2 (String.eqb_neq host "")) by done.
  destruct (IsWildcardHost host); simpl; [set_solver|]. rewrite lookup_insert_eq. eauto.
Qed.

Lemma bound_profile_indexed p eps pr name credName ent n ce h :
  credName ∈ pr_Credentials pr → p_Credentials p !! credName = Some ent →
  n ∈ CredentialEndpointTargets ent → eps !! n = Some ce → h ∈ ep_Hosts ce →
  indexed ce h (bound_profile p eps pr name).
Proof.
  intros Hc He Hn Hce Hh. unfold bound_profile.
  apply (foldl_establish _ (indexed ce h) _ _ credName); [apply bind_credential_le|apply indexed_mono|done|].
  intros pf. unfold bind_credential. rewrite He.
  apply (foldl_establish _ (indexed ce h) _ _ n); [apply bind_endpoint_le|apply indexed_mono|done|].
  intros pf1. unfold bind_endpoint. rewrite Hce.
  apply (indexed_mono _ _ (foldl (index_host ce) (put_endpoint n ce pf1) (ep_Hosts ce))); [by split|].
  apply (foldl_establish _ (indexed ce h) _ _ h); [apply index_host_le|apply indexed_mono|done|].
  intros. apply index_host_indexed.
Qed.

Lemma dedupe_loop_keeps l seen hp :
  hp ∈ l → pattern_key hp ∈ seen ∨ ∃ hp', hp' ∈ dedupe_loop l seen ∧ pattern_key hp' = pattern_key hp.
Proof.
  revert seen. induction l as [|x l IH]; intros seen; simpl; [set_solver|].
  intros [->|Hin]%elem_of_cons; case_bool_decide; auto.
  - right. exists x. split; [left|done].
  - destruct (IH ({[pattern_key x]} ∪ seen) Hin) as [[Hk%elem_of_singleton|]%elem_of_union|(y & ? & ?)]; [| |].
    + right. exists x. split; [left|done].
    + by left.
    + right. exists y. split; [by right|done].
Qed.

Lemma dedupePatterns_keeps l hp :
  hp ∈ l → ∃ hp', hp' ∈ dedupePatterns l ∧ pattern_key hp' = pattern_key hp.
Proof.
  intros Hin. unfold dedupePatterns. destruct (_ <? _)%nat; [by exists hp|].
  destruct (dedupe_loop_keeps l ∅ hp Hin) as [?|?]; [set_solver|done].
Qed.

Definition no_nul (s : string) : bool := no_byte (ascii_of_nat 0) s.

Lemma compile_profile_pattern ord p eps pr name ce w :
  (∀ hp, hp ∈ prof_HostPatterns (bound_profile p eps pr name) → no_nul (hp_Pattern hp) = true) →
  mkHostPattern w ce ∈ prof_HostPatterns (bound_profile p eps pr name) →
  ∃ hp, hp ∈ prof_HostPatterns (compile_profile ord p eps name pr) ∧ hp_Pattern hp = w.
Proof.
  intros Hnul Hin. destruct (dedupePatterns_keeps _ _ Hin) as (hp & Hhp & Hkey).
  exists hp. split; [by apply elem_of_stable_sort|].
  destruct (cut_inj _ _ _ _ _ (Hnul hp (dedupePatterns_sub _ _ Hhp)) (Hnul _ Hin) Hkey) as [-> _]. done.
Qed.

(** The pattern list of a compiled profile is sorted by decreasing length, so
    the first match is a longest one. *)
Lemma MatchHostPattern_longest l q hp :
  hp ∈ sortHostPatterns l → MatchWildcard (hp_Pattern hp) q = true →
  ∃ best, best ∈ sortHostPatterns l ∧ MatchHostPattern (sortHostPatterns l) q = Some (hp_Endpoint best) ∧
    MatchWildcard (hp_Pattern best) q = true ∧
    (String.length (hp_Pattern hp) <= String.length (hp_Pattern best))%nat.
Proof.
  set (R a b := (String.length (hp_Pattern b) <= String.length (hp_Pattern a))%nat).
  assert (StronglySorted R (sortHostPatterns l)) as Hs.
  { apply stable_sort_sorted; unfold R, pattern_less; [lia| |]; intros x y;
      destruct (_ =? _)%nat eqn:E; simpl; intros; bprop; lia. }
  intros Hin Hm. unfold MatchHostPattern.
  destruct (List.find _ (sortHostPatterns l)) as [best|] eqn:Ef.
  - apply find_Some_first in Ef as (l1 & l2 & Hl & Hb & Hl1). rewrite Hl in *. exists best.
    split; [set_solver|]. do 2 (split; [done|]).
    apply elem_of_app in Hin as [Hin|[->|Hin]%elem_of_cons]; [|done|].
    + rewrite Forall_forall in Hl1. by rewrite Hl1 in Hm.
    + apply StronglySorted_app_cons in Hs. rewrite Forall_forall in Hs. by apply Hs.
  - apply list_elem_of_In in Hin. by rewrite (List.find_none _ _ Ef hp Hin) in Hm.
Qed.

Section Compiled.
Context (NewMatcher : string -> string -> result (option Matcher) string).
Context (ParseDuration : string -> option Z).
Context (ro : RangeOrders) (g : Gateway) (p : SrcPolicy) (pol : CompiledPolicy).
Hypothesis Hord : orders_ok ro p.
Hypothesis Hpol : gw_Policy g = Some p.
Hypothesis Hcompile : Compile NewMatcher ParseDuration ro (Some g) = Ok pol.

Lemma pol_profile prof pr :
  p_Profiles p !! prof = Some pr →
  pol_Profiles pol !! prof = Some (compile_profile (ro_Aliases ro prof) p (pol_Endpoints pol) prof pr).
Proof.
  intros Hpr. destruct (Compile_stages _ _ _ _ _ _ Hcompile Hpol) as (_ & _ & _ & _ & _ & _ & _ & _ & _ & Hup).
  pose proof (compileProfiles_lookup ro p (pol_Endpoints pol) prof (oo_Profiles _ _ Hord)) as Hl.
  rewrite Hpr in Hl. simpl in Hl. unfold compileUnknownPeerProfile in Hup.
  destruct (compileProfiles ro p (pol_Endpoints pol) !! UnknownPeerEmptyProfile) eqn:Er; [done|].
  destruct (String.eqb _ _); injection Hup as <-; [|done].
  rewrite lookup_insert_ne; [done|]. congruence.
Qed.

Lemma host_endpoint_in_scope prof pr o1 o2 host ce :
  p_Profiles p !! prof = Some pr →
  HostEndpoint o1 o2 (Some pol) prof host = Some ce →
  pol_Endpoints pol !! ep_Name ce = Some ce ∧
  (∃ h, h ∈ ep_Hosts ce ∧ claims ce h (ToLower host)) ∧
  ∃ credName ent, credName ∈ pr_Credentials pr ∧ p_Credentials p !! credName = Some ent ∧
    ep_Name ce ∈ CredentialEndpointTargets ent.
Proof.
  intros Hpr. unfold HostEndpoint. rewrite (pol_profile _ _ Hpr).
  set (cp := compile_profile _ _ _ _ _).
  assert (prof_inv (pol_Endpoints pol) (brings p pr) cp) as Hinv by apply compile_profile_inv.
  clearbody cp. intros H. assert (∃ n e, prof_Endpoints cp !! n = Some ce ∧ e ∈ ep_Hosts ce ∧
    claims ce e (ToLower host)) as (n & e & Hn & Hin & Hcl).
  { destruct (prof_HostIndex cp !! ToLower host) as [c|] eqn:Ei.
    - injection H as <-. by apply Hinv.
    - unfold MatchHostPattern in H. destruct (List.find _ _) as [hp|] eqn:Ef; simplify_eq/=.
      apply List.find_some in Ef as [Hhp Hm]. apply list_elem_of_In in Hhp.
      destruct (pi_pat _ _ _ Hinv hp Hhp) as (n & e & w & port & Hn & Hin & Hs & Hw & Hpat).
      exists n, e. split_and!; try done. apply (claims_wildcard _ _ _ w port); [done|done|congruence]. }
  destruct (pi_eps _ _ _ Hinv n ce Hn) as [Heps (c & credName & Hc1 & Hc2 & Hc3 & _)].
  destruct (Compile_endpoint _ _ _ _ _ _ _ _ Hord Hpol Hcompile Heps) as (Hname & _). rewrite Hname.
  split; [done|]. split; [by exists e|]. by exists credName, (cc_Credential c).
Qed.

(** An endpoint in the table of a declared profile has one of its credentials. *)
Lemma profile_endpoint_in_scope prof pr cp n ce :
  p_Profiles p !! prof = Some pr → pol_Profiles pol !! prof = Some cp → prof_Endpoints cp !! n = Some ce →
  ∃ credName ent, credName ∈ pr_Credentials pr ∧ p_Credentials p !! credName = Some ent ∧
    n ∈ CredentialEndpointTargets ent.
Proof.
  intros Hpr Hcp Hn. rewrite (pol_profile _ _ Hpr) in Hcp. injection Hcp as <-.
  destruct (pi_eps _ _ _ (compile_profile_inv _ _ _ _ _) n ce Hn) as [_ (c & credName & Hc1 & Hc2 & Hc3 & _)].
  by exists credName, (cc_Credential c).
Qed.

(** Hosts: a declared profile resolves a host only to an endpoint that covers
    the host and that one of the profile's own credentials is bound to. *)
Theorem profile_hosts_closed prof pr o1 o2 host ce :
  p_Profiles p !! prof = Some pr →
  HostEndpoint o1 o2 (Some pol) prof host = Some ce →
  pol_Endpoints pol !! ep_Name ce = Some ce ∧
  (∃ h, h ∈ ep_Hosts ce ∧ claims ce h (ToLower host)) ∧
  ∃ credName ent, credName ∈ pr_Credentials pr ∧ p_Credentials p !! credName = Some ent ∧
    ep_Name ce ∈ CredentialEndpointTargets ent.
Proof. apply host_endpoint_in_scope. Qed.

(** Credentials: for a declared profile the dispatcher returns only a
    credential the profile lists and that is bound to the endpoint, carrying
    the constraints of its block overridden by those of the profile. *)
Theorem profile_credentials_closed prof pr e req c :
  p_Profiles p !! prof = Some pr →
  ResolveCredential (Some pol) prof (Some e) req = Some c →
  brings p pr (ep_Name e) c.
Proof.
  intros Hpr Hr. assert (∃ cs, prof_EndpointCredentials (compile_profile (ro_Aliases ro prof) p (pol_Endpoints pol) prof pr)
    !! ep_Name e = Some cs ∧ c ∈ cs) as (cs & Hcs & Hin).
  { unfold ResolveCredential, profileCredentialsAt in Hr. rewrite (pol_profile _ _ Hpr) in Hr.
    destruct (prof_EndpointCredentials _ !! ep_Name e) as [cs|] eqn:Ec; [|done]. simpl in Hr.
    exists cs. split; [done|]. destruct cs as [|a [|b l]]; [done| |].
    - simplify_eq. left.
    - apply pick_best_spec in Hr as (i & Hi & _). by apply list_elem_of_lookup_2 in Hi. }
  eapply (pi_creds _ _ _ (compile_profile_inv _ _ _ _ _)); done.
Qed.

Lemma no_profile_registered :
  pol_UnknownPeer pol = UnknownPeerNoProfile →
  pol_Profiles pol !! UnknownPeerEmptyProfile = Some (empty_profile UnknownPeerEmptyProfile false).
Proof.
  intros Hup. destruct (Compile_stages _ _ _ _ _ _ Hcompile Hpol) as (_ & _ & _ & _ & _ & _ & _ & _ & _ & H).
  unfold compileUnknownPeerProfile in H. rewrite Hup in H.
  destruct (compileProfiles _ _ _ !! _); [done|]. rewrite String.eqb_refl in H. injection H as <-. apply lookup_insert_eq.
Qed.

(** The profile of unregistered peers under [unknown_peer = "no_profile"]
    resolves no host and dispatches no credential. *)
Theorem no_profile_isolated o1 o2 host ep req :
  pol_UnknownPeer pol = UnknownPeerNoProfile →
  HostEndpoint o1 o2 (Some pol) UnknownPeerEmptyProfile host = None ∧
  ResolveCredential (Some pol) UnknownPeerEmptyProfile ep req = None.
Proof.
  intros Hup. unfold HostEndpoint, ResolveCredential, profileCredentialsAt. rewrite (no_profile_registered Hup). simpl.
  by destruct ep.
Qed.

(** The host entries of the endpoints a profile's credentials bring in. *)
Definition in_scope (pr : Profile) (ce : CompiledEndpoint) (h : string) : Prop :=
  ∃ credName ent n, credName ∈ pr_Credentials pr ∧ p_Credentials p !! credName = Some ent ∧
    n ∈ CredentialEndpointTargets ent ∧ pol_Endpoints pol !! n = Some ce ∧ h ∈ ep_Hosts ce.

Lemma in_scope_indexed prof pr ce h :
  in_scope pr ce h → indexed ce h (bound_profile p (pol_Endpoints pol) pr prof).
Proof. intros (c & ent & n & ? & ? & ? & ? & ?). by eapply bound_profile_indexed. Qed.

(** Every exact host of an endpoint in the profile's scope resolves, in any
    letter case. *)
Theorem profile_exact_hosts_resolve prof pr o1 o2 ce h host port q :
  p_Profiles p !! prof = Some pr → in_scope pr ce h →
  SplitHostPort h = Ok (host, port) → host ≠ "" → IsWildcardHost host = false →
  ToLower q = ToLower h → is_Some (HostEndpoint o1 o2 (Some pol) prof q).
Proof.
  intros Hpr Hsc Hs Hne Hw Hq. pose proof (in_scope_indexed prof _ _ _ Hsc _ _ Hs Hne) as Hi.
  rewrite Hw in Hi. unfold HostEndpoint. rewrite (pol_profile _ _ Hpr). rewrite Hq. simpl.
  fold (bound_profile p (pol_Endpoints pol) pr prof).
  apply (add_aliases_mono (ro_Aliases ro prof)) in Hi as [v Hv]. rewrite Hv. eauto.
Qed.

(** Longest wildcard wins: a host covered by a wildcard in the profile's
    scope resolves; unless an exact entry claims it, the endpoint chosen has
    a wildcard entry that covers the host and is at least as long as every
    wildcard in scope that covers it. *)
Theorem profile_longest_wildcard prof pr o1 o2 q :
  p_Profiles p !! prof = Some pr →
  (∀ ce h w port, in_scope pr ce h → SplitHostPort h = Ok (w, port) → no_nul (ToLower w) = true) →
  ∀ ce h w port,
    in_scope pr ce h → SplitHostPort h = Ok (w, port) → IsWildcardHost w = true →
    MatchWildcard (ToLower w) (ToLower q) = true →
    ∃ best, HostEndpoint o1 o2 (Some pol) prof q = Some best ∧
      ((∃ h', h' ∈ ep_Hosts best ∧ claims best h' (ToLower q) ∧
          prof_HostIndex (default (empty_profile "" false) (pol_Profiles pol !! prof)) !! ToLower q = Some best) ∨
       ∃ h' w' port', h' ∈ ep_Hosts best ∧ SplitHostPort h' = Ok (w', port') ∧ IsWildcardHost w' = true ∧
         MatchWildcard (ToLower w') (ToLower q) = true ∧
         (String.length (ToLower w) <= String.length (ToLower w'))%nat).
Proof.
  intros Hpr Hnul ce h w port Hsc Hs Hw Hm. assert (w ≠ "") as Hne by (by intros ->).
  pose proof (in_scope_indexed prof _ _ _ Hsc _ _ Hs Hne) as Hi. rewrite Hw in Hi.
  apply (compile_profile_pattern (ro_Aliases ro prof)) in Hi as (hp & Hhp & Hpw).
  2:{ intros hp Hhp. destruct (pi_pat _ _ _ (bound_profile_inv p (pol_Endpoints pol) pr prof) hp Hhp)
        as (n & e & w0 & port0 & Hn & He & Hs0 & _ & ->).
      destruct (pi_eps _ _ _ (bound_profile_inv p (pol_Endpoints pol) pr prof) _ _ Hn)
        as [Heps (c & credName & Hc1 & Hc2 & Hc3 & _)].
      eapply Hnul; [|done]. by exists credName, (cc_Credential c), n. }
  rewrite <- Hpw in Hm |- *. pose proof (compile_profile_inv (ro_Aliases ro prof) p (pol_Endpoints pol) prof pr) as Hinv.
  unfold HostEndpoint. rewrite (pol_profile _ _ Hpr).
  destruct (prof_HostIndex _ !! ToLower q) as [c|] eqn:Eq.
  - exists c. split; [done|]. left. destruct (pi_idx _ _ _ Hinv _ _ Eq) as (n & e & _ & ? & ?).
    by exists e.
  - destruct (MatchHostPattern_longest _ _ _ Hhp Hm) as (best & Hb & Hmb & Hbm & Hlen).
    exists (hp_Endpoint best). split; [done|]. right.
    destruct (pi_pat _ _ _ Hinv best Hb) as (n & e & w' & port' & _ & ? & ? & ? & Hpat).
    exists e, w', port'. rewrite Hpat in *. done.
Qed.
End Compiled.

(** ** Witnesses: the small gateway *)

Definition dev_pr : Profile := mkSrcProfile "dev" ["tok"] ∅ false.
Definition dev_orders : RangeOrders := with_rule_order fs (small_policy ranked_rules).
Definition dev_policy (unknownPeer : string) : CompiledPolicy := compiled (small_compile fs unknownPeer ranked_rules).

Lemma dev_orders_ok : orders_ok dev_orders (small_policy ranked_rules).
Proof. apply ranked_orders_ok. by left. Qed.

Lemma profile_hosts_closed_witness :
  ep_Name (api_of (dev_policy "")) = "api" ∧
  (∃ h, h ∈ ep_Hosts (api_of (dev_policy "")) ∧ claims (api_of (dev_policy "")) h "x.eu.cdn.example.com").
Proof.
  split; [reflexivity|].
  apply (profile_hosts_closed no_matcher no_duration dev_orders (small_gateway "" ranked_rules)
    (small_policy ranked_rules) (dev_policy "") dev_orders_ok eq_refl ltac:(vm_compute; reflexivity)
    "dev" dev_pr [] [] "X.eu.cdn.example.com" (api_of (dev_policy ""))); vm_compute; reflexivity.
Defined.

Lemma profile_credentials_closed_witness :
  brings (small_policy ranked_rules) dev_pr "api" (mkCompiledCredential ∅ tok_entity).
Proof.
  apply (profile_credentials_closed no_matcher no_duration dev_orders (small_gateway "" ranked_rules)
    (small_policy ranked_rules) (dev_policy "") dev_orders_ok eq_refl ltac:(vm_compute; reflexivity)
    "dev" dev_pr (api_of (dev_policy "")) None (mkCompiledCredential ∅ tok_entity)); vm_compute; reflexivity.
Defined.

Lemma no_profile_isolated_witness :
  HostEndpoint [] [] (Some (dev_policy "no_profile")) UnknownPeerEmptyProfile "api.example.com" = None.
Proof.
  apply (no_profile_isolated no_matcher no_duration dev_orders (small_gateway "no_profile" ranked_rules)
    (small_policy ranked_rules) (dev_policy "no_profile") eq_refl ltac:(vm_compute; reflexivity)
    [] [] "api.example.com" None None). vm_compute. reflexivity.
Defined.

Lemma dev_in_scope h :
  h ∈ ep_Hosts (api_of (dev_policy "")) →
  in_scope (small_policy ranked_rules) (dev_policy "") dev_pr (api_of (dev_policy "")) h.
Proof. intros Hh. exists "tok", tok_entity, "api". split_and!; try done; [left|left]. Qed.

Lemma profile_exact_hosts_resolve_witness :
  is_Some (HostEndpoint [] [] (Some (dev_policy "")) "dev" "API.example.com:443").
Proof.
  apply (profile_exact_hosts_resolve no_matcher no_duration dev_orders (small_gateway "" ranked_rules)
    (small_policy ranked_rules) (dev_policy "") dev_orders_ok eq_refl ltac:(vm_compute; reflexivity)
    "dev" dev_pr [] [] (api_of (dev_policy "")) "api.example.com:443" "api.example.com" "443"); try done.
  apply dev_in_scope. left.
Defined.

Lemma profile_longest_wildcard_witness :
  ∃ best, HostEndpoint [] [] (Some (dev_policy "")) "dev" "x.eu.cdn.example.com" = Some best ∧
    MatchWildcard "*.cdn.example.com" "x.eu.cdn.example.com" = true.
Proof.
  destruct (profile_longest_wildcard no_matcher no_duration dev_orders (small_gateway "" ranked_rules)
    (small_policy ranked_rules) (dev_policy "") dev_orders_ok eq_refl ltac:(vm_compute; reflexivity)
    "dev" dev_pr [] [] "x.eu.cdn.example.com") with (ce := api_of (dev_policy ""))
    (h := "*.cdn.example.com") (w := "*.cdn.example.com") (port := "") as (best & Hb & _).
  - reflexivity.
  - intros ce h w port (c & ent & n & Hc & He & Hn & Hce & Hh) Hs.
    apply list_elem_of_singleton in Hc as ->. vm_compute in He. injection He as <-.
    apply list_elem_of_singleton in Hn as ->. vm_compute in Hce. injection Hce as <-.
    simpl in Hh. set_unfold. destruct Hh as [->|[->|[->|[]]]]; vm_compute in Hs; by simplify_eq.
  - apply dev_in_scope. right. left.
  - reflexivity.
  - reflexivity.
  - reflexivity.
  - exists best. split; [exact Hb|reflexivity].
Defined.
