(* ===== verification/TunnelProps.v ===== *)
(** * Tunnel chains

    The cycle check of [compileTunnels] is exact: it accepts a configuration
    only when every [via] chain ends, and the tunnel it names in an error
    really starts a chain that never does. *)
From S2P Require Import Prelude GoStrings NetAddr HostMatch Policy Dispatch Compile CompileProps.

(** Following [Via] pointers from [cur] reaches nil. *)
Inductive via_ends (m : gmap string CompiledTunnel) : option string -> Prop :=
| via_ends_nil : via_ends m None
| via_ends_step n ct : m !! n = Some ct → via_ends m (tun_Via ct) → via_ends m (Some n).

#[export] Hint Constructors via_ends : claw.

(** One hop, and a non-empty run of hops. *)
Definition hop (m : gmap string CompiledTunnel) (a b : string) : Prop :=
  ∃ ct, m !! a = Some ct ∧ tun_Via ct = Some b.

(** Tables as pass 1 and pass 2 leave them. *)
Definition linked (m : gmap string CompiledTunnel) : Prop :=
  ∀ n ct, m !! n = Some ct → tun_Name ct = n ∧ ∀ v, tun_Via ct = Some v → is_Some (m !! v).

Section Walk.
Context (m : gmap string CompiledTunnel).

Lemma via_ends_hop a b : via_ends m (Some a) → hop m a b → via_ends m (Some b).
Proof. inversion 1 as [|? ct Hct Hend]; subst. intros (ct' & ? & Hv). simplify_eq. by rewrite Hv in Hend. Qed.

Lemma via_ends_acyclic a : via_ends m (Some a) → ¬ tc (hop m) a a.
Proof.
  intros H. remember (Some a) as cur eqn:Hcur. revert a Hcur.
  induction H as [|n ct Hct Hend IH]; intros a Hcur; simplify_eq. intros Hc.
  assert (∃ v, hop m a v ∧ rtc (hop m) v a) as (v & (ct' & ? & Hv) & Hback).
  { inversion Hc; subst; [eauto using rtc_refl|]. eauto using tc_rtc. }
  simplify_eq. apply (IH v Hv). eapply tc_rtc_l; [done|]. constructor. by exists ct.
Qed.

Hypothesis Hlinked : linked m.

Lemma via_walk_true fuel seen cur :
  (∀ n, cur = Some n → is_Some (m !! n)) → via_walk m fuel seen cur = Some true → via_ends m cur.
Proof.
  revert seen cur. induction fuel as [|fuel IH]; intros seen [n|] Hcur Hw; simpl in Hw; try done; auto with claw.
  destruct (Hcur n eq_refl) as [ct Hct]. rewrite Hct in Hw. destruct (Hlinked n ct Hct) as [_ Hvia].
  case_bool_decide; [done|]. eapply via_ends_step; [done|]. by eapply IH.
Qed.

Lemma via_walk_false fuel seen n :
  (∀ s, s ∈ seen → tc (hop m) s n) → via_walk m fuel seen (Some n) = Some false → ¬ via_ends m (Some n).
Proof.
  revert seen n. induction fuel as [|fuel IH]; intros seen n Hseen Hw; simpl in Hw; [done|].
  destruct (m !! n) as [ct|] eqn:Hct; [|done]. destruct (Hlinked n ct Hct) as [Hn Hvia]. rewrite Hn in Hw.
  case_bool_decide as Hin; [by intros ?%via_ends_acyclic; auto|].
  destruct (tun_Via ct) as [v|] eqn:Hv; [|by destruct fuel].
  assert (hop m n v) as Hhop by (by exists ct).
  intros Hend. apply (IH ({[n]} ∪ seen) v); [|done|by eapply via_ends_hop].
  intros s [->%elem_of_singleton|Hs]%elem_of_union; [by constructor|].
  eapply tc_r; [by apply Hseen|done].
Qed.

(** The fuel suffices: a walk never visits a tunnel twice. *)
Lemma via_walk_fuel fuel seen cur :
  seen ⊆ dom m → (size m - size seen < fuel)%nat → is_Some (via_walk m fuel seen cur).
Proof.
  revert seen cur. induction fuel as [|fuel IH]; intros seen [n|] Hsub Hf; simpl; try lia; eauto.
  destruct (m !! n) as [ct|] eqn:Hct; [|eauto]. destruct (Hlinked n ct Hct) as [-> _].
  case_bool_decide as Hin; [eauto|].
  assert ({[n]} ∪ seen ⊆ dom m) as Hsub' by (apply elem_of_dom_2 in Hct; set_solver).
  apply IH; [done|]. rewrite size_union by set_solver. rewrite size_singleton.
  apply subseteq_size in Hsub'. rewrite size_union, size_singleton, size_dom in Hsub' by set_solver. lia.
Qed.

Lemma via_cyclic_spec n : is_Some (m !! n) → via_cyclic m n = false ↔ via_ends m (Some n).
Proof.
  intros Hn. unfold via_cyclic. rewrite negb_false_iff, bool_decide_eq_true. split.
  - apply via_walk_true. by intros ? [= <-].
  - intros Hend. destruct (via_walk_fuel (S (size m)) ∅ (Some n)) as [[] Hw];
      [set_solver|rewrite size_empty; lia|done|]. exfalso.
    eapply via_walk_false; [|done|done]. set_solver.
Qed.
End Walk.

Section Tables.
Context (ParseDuration : string -> option Z).

Lemma compile_tunnel_name p n ent ct :
  compile_tunnel ParseDuration p n ent = Ok ct → tun_Name ct = n ∧ tun_Via ct = None.
Proof. unfold compile_tunnel. intros H. repeat (dcase_in H; try done); by simplify_eq. Qed.

Lemma tunnels_pass1_linked ord p m :
  NoDup ord → tunnels_pass1 ParseDuration ord p = Ok m → linked m.
Proof.
  intros Hnd Hf n ct Hct. unfold tunnels_pass1 in Hf.
  apply fold_insert_lookup with (k := n) (v := ct) in Hf; [|by apply NoDup_range_over|done].
  destruct Hf as [(ent & _ & Hc)|[_ ?]]; [|by rewrite lookup_empty in *].
  apply compile_tunnel_name in Hc as [? Hv]. split; [done|]. by rewrite Hv.
Qed.

Lemma link_via_linked p m n m' : linked m → link_via p m n = Ok m' → linked m' ∧ dom m' = dom m.
Proof.
  unfold link_via. intros Hl H. destruct (String.eqb _ _); [by simplify_eq|].
  set (via := match p_Tunnels p !! n with Some _ => _ | None => _ end) in H.
  destruct (m !! via) eqn:Ev; [|done]. injection H as <-.
  assert (∀ k, is_Some (alter (set_via via) n m !! k) ↔ is_Some (m !! k)) as Hdom
    by (intros k; apply lookup_alter_is_Some).
  split; [|apply set_eq; intros k; by rewrite !elem_of_dom, Hdom].
  intros k ct. rewrite lookup_alter_Some. intros [(-> & ct0 & H0 & ->)|[_ H0]];
    destruct (Hl _ _ H0) as [Hn Hv]; split; try done; intros v; rewrite Hdom; [|by auto].
  simpl. intros [= <-]. eauto.
Qed.

Lemma link_vias_linked p l m m' :
  linked m → fold_result (link_via p) m l = Ok m' → linked m' ∧ dom m' = dom m.
Proof.
  intros Hl Hf. eapply (fold_result_inv _ (λ x, linked x ∧ dom x = dom m)); [|done|done].
  intros s n s' _ [Hs Hd] H. destruct (link_via_linked _ _ _ _ Hs H) as [? ->]. done.
Qed.

Lemma tunnels_pass1_dom ord p m n :
  NoDup ord → tunnels_pass1 ParseDuration ord p = Ok m → is_Some (m !! n) → is_Some (p_Tunnels p !! n).
Proof.
  intros Hnd Hf [ct Hct]. unfold tunnels_pass1 in Hf.
  apply fold_insert_lookup with (k := n) (v := ct) in Hf; [|by apply NoDup_range_over|done].
  destruct Hf as [(ent & [_ ?]%elem_of_range_over & _)|[_ ?]]; [eauto|by rewrite lookup_empty in *].
Qed.

Lemma compileTunnels_linked ro p m : orders_ok ro p → compileTunnels ParseDuration ro p = Ok m → linked m.
Proof.
  intros Ho. unfold compileTunnels. destruct (tunnels_pass1 _ _ _) as [m1|] eqn:E1; [|done].
  assert (linked m1) as Hl1 by (eapply tunnels_pass1_linked; [apply (oo_Tunnels _ _ Ho)|done]).
  destruct (fold_result (link_via p) m1 _) as [m2|] eqn:E2; [|done].
  destruct (link_vias_linked _ _ _ _ Hl1 E2) as [Hl2 _]. destruct (List.find _ _); [done|]. by intros [= <-].
Qed.

Lemma compileTunnels_ends ro p m n :
  orders_ok ro p → compileTunnels ParseDuration ro p = Ok m → is_Some (m !! n) → via_ends m (Some n).
Proof.
  intros Ho Hm Hn. pose proof (compileTunnels_linked ro p m Ho Hm) as Hl. revert Hm. unfold compileTunnels.
  destruct (tunnels_pass1 _ _ _) as [m1|] eqn:E1; [|done].
  assert (linked m1) as Hl1 by (eapply tunnels_pass1_linked; [apply (oo_Tunnels _ _ Ho)|done]).
  destruct (fold_result (link_via p) m1 _) as [m2|] eqn:E2; [|done].
  destruct (link_vias_linked _ _ _ _ Hl1 E2) as [_ Hdom]. destruct (List.find _ _) eqn:Ef; [done|]. intros [= ->].
  apply via_cyclic_spec; [done|done|]. apply (List.find_none _ _ Ef n). apply list_elem_of_In, range_over_fst.
  split; [|done]. apply (oo_TunnelsCycle _ _ Ho). eapply tunnels_pass1_dom; [apply (oo_Tunnels _ _ Ho)|done|].
  apply elem_of_dom. rewrite <- Hdom. by apply elem_of_dom.
Qed.

(** The first two passes report no cycle. *)
Lemma fold_result_err {A S E} (f : S -> A -> result S E) (P : E -> Prop) l st e :
  (∀ s x e, f s x = Err e → P e) → fold_result f st l = Err e → P e.
Proof.
  intros Hf. revert st. induction l as [|x l IH]; intros st; simpl; [done|].
  destruct (f st x) eqn:Ef; [apply IH|]. intros [= ->]. eauto.
Qed.

Definition not_cycle (e : CompileError) : Prop := ∀ n, e ≠ TunnelCycle n.

Lemma parseKeepalive_err v e : parseKeepalive ParseDuration v = Err e → not_cycle e.
Proof. unfold parseKeepalive. intros H k ->. repeat (dcase_in H; try done). Qed.

Lemma compile_tunnel_err p n ent e : compile_tunnel ParseDuration p n ent = Err e → not_cycle e.
Proof.
  unfold compile_tunnel. intros H. destruct (negb _); [by simplify_eq|].
  destruct (parseKeepalive _ _) as [[? ?]|] eqn:Ek; [|simplify_eq; by eapply parseKeepalive_err].
  intros k ->. repeat (dcase_in H; try done).
Qed.

Lemma link_via_err p m n e : link_via p m n = Err e → not_cycle e.
Proof. unfold link_via. intros H k ->. repeat (dcase_in H; try done). Qed.

(** The cycle check is exact. A successful compilation leaves only [via]
    chains that end, so bringing a tunnel up through its parents terminates;
    and a cycle error names a tunnel whose chain does not end in the table
    the first two passes built. *)
Theorem compileTunnels_acyclic ro p :
  orders_ok ro p →
  match compileTunnels ParseDuration ro p with
  | Ok m => ∀ n, is_Some (m !! n) → via_ends m (Some n)
  | Err (TunnelCycle n) =>
      ∃ m1 m, tunnels_pass1 ParseDuration (ro_Tunnels ro) p = Ok m1 ∧
        fold_result (link_via p) m1 (ro_TunnelsVia ro) = Ok m ∧ is_Some (m !! n) ∧ ¬ via_ends m (Some n)
  | Err _ => True
  end.
Proof.
  intros Ho. unfold compileTunnels. destruct (tunnels_pass1 _ _ _) as [m1|e] eqn:E1.
  2:{ assert (not_cycle e) as Hne; [|destruct e; try exact I; by edestruct Hne].
      eapply fold_result_err; [|apply E1]. intros s [k v] e'.
      destruct (compile_tunnel ParseDuration p k v) eqn:Ec; [done|]. intros [= <-].
      by eapply compile_tunnel_err. }
  assert (linked m1) as Hl1 by (eapply tunnels_pass1_linked; [apply (oo_Tunnels _ _ Ho)|done]).
  destruct (fold_result (link_via p) m1 _) as [m2|e] eqn:E2.
  2:{ assert (not_cycle e) as Hne; [|destruct e; try exact I; by edestruct Hne].
      eapply fold_result_err; [|apply E2]. intros s k e'. apply link_via_err. }
  destruct (link_vias_linked _ _ _ _ Hl1 E2) as [Hl2 Hdom].
  destruct (List.find _ _) as [n|] eqn:Ef.
  - apply List.find_some in Ef as [Hin Hc]. apply list_elem_of_In, range_over_fst in Hin as [_ Hn].
    exists m1, m2. split_and!; try done. intros Hend.
    apply via_cyclic_spec in Hend; [congruence|done|done].
  - intros n Hs. apply (compileTunnels_ends ro p m2 n Ho); [|done]. unfold compileTunnels. by rewrite E1, E2, Ef.
Qed.
End Tables.

(** ** Witness: a chain of two tunnels, and a loop *)

Definition tunnel_entity (name via : string) : Entity :=
  mkEntity name (mkPlugin "tunnel" "ssh" "" None None)
    (mkBody None None None None (Some (mkTunnelCommon "" "" via ""))) empty_framework.

Definition tunnel_policy (via : string) : SrcPolicy :=
  mkSrcPolicy ∅ ∅ ∅ ∅ (<["a" := tunnel_entity "a" "b"]> {["b" := tunnel_entity "b" via]}) ∅ [].

Lemma compileTunnels_acyclic_witness :
  (∃ m, compileTunnels no_duration (default_orders (tunnel_policy "")) (tunnel_policy "") = Ok m ∧
     via_ends m (Some "a")) ∧
  (∃ n, compileTunnels no_duration (default_orders (tunnel_policy "a")) (tunnel_policy "a") = Err (TunnelCycle n)).
Proof.
  pose proof (compileTunnels_acyclic no_duration (default_orders (tunnel_policy "")) (tunnel_policy "")
    (default_orders_ok _)) as H.
  split; [|eexists; vm_compute; reflexivity].
  destruct (compileTunnels no_duration (default_orders (tunnel_policy "")) (tunnel_policy "")) as [m|e] eqn:E.
  - exists m. split; [reflexivity|]. apply H. vm_compute in E. injection E as <-. by eexists.
  - vm_compute in E. discriminate E.
Defined.
