(* ===== verification/PolicyWf.v ===== *)
(** * The type of a compiled policy

    What the dispatcher takes for granted of the tables [Compile] builds: the
    names they are keyed by, references that resolve, rules in order. *)
From S2P Require Import Prelude GoStrings NetAddr HostMatch Policy Dispatch Compile CompileProps ProfileProps TunnelProps.

(** An endpoint is stored under its name, with its rules by descending priority
    and the tunnel the policy has under that name. *)
Record endpoint_wf (pol : CompiledPolicy) (n : string) (ce : CompiledEndpoint) : Prop := {
  ew_name : ep_Name ce = n;
  ew_rules : StronglySorted (λ a b, rule_Priority b <= rule_Priority a) (ep_Rules ce);
  ew_tunnel ct : ep_Tunnel ce = Some ct → pol_Tunnels pol !! tun_Name ct = Some ct ∧ hasResolvableHostname (ep_Hosts ce) = true
}.

(** A profile refers to endpoints of the policy, its host tables to its own
    endpoints, its credential lists to credentials of the policy. *)
Record profile_wf (pol : CompiledPolicy) (cp : CompiledProfile) : Prop := {
  pw_endpoints n ce : prof_Endpoints cp !! n = Some ce → pol_Endpoints pol !! n = Some ce;
  pw_hosts h ce : prof_HostIndex cp !! h = Some ce → prof_Endpoints cp !! ep_Name ce = Some ce;
  pw_patterns hp : hp ∈ prof_HostPatterns cp → prof_Endpoints cp !! ep_Name (hp_Endpoint hp) = Some (hp_Endpoint hp);
  pw_creds n cs c : prof_EndpointCredentials cp !! n = Some cs → c ∈ cs →
    n ∈ CredentialEndpointTargets (cc_Credential c) ∧ ∃ name, pol_Credentials pol !! name = Some (cc_Credential c)
}.

Record policy_wf (pol : CompiledPolicy) : Prop := {
  wf_endpoints n ce : pol_Endpoints pol !! n = Some ce → endpoint_wf pol n ce;
  wf_profiles name cp : pol_Profiles pol !! name = Some cp → profile_wf pol cp;
  wf_tunnels : linked (pol_Tunnels pol) ∧ ∀ n, is_Some (pol_Tunnels pol !! n) → via_ends (pol_Tunnels pol) (Some n)
}.

Section Wf.
Context (NewMatcher : string -> string -> result (option Matcher) string).
Context (ParseDuration : string -> option Z).

Lemma compileEndpoint_tunnel tunnels n ent ce ct :
  compileEndpoint ParseDuration tunnels n ent = Ok ce → ep_Tunnel ce = Some ct →
  (∃ k, tunnels !! k = Some ct) ∧ hasResolvableHostname (ep_Hosts ce) = true.
Proof.
  unfold compileEndpoint. intros H Ht. destruct (negb (validateRetentionDuration _ _)); [done|].
  destruct (String.eqb _ ""); [by simplify_eq|]. destruct (tunnels !! _) as [c|] eqn:E; [|done]. destruct (negb _) eqn:Eh; [done|]. bprop. simplify_eq/=. eauto.
Qed.

(** Where an endpoint comes from. *)
Lemma Compile_endpoint_origin ro g p pol n ce :
  orders_ok ro p → gw_Policy g = Some p → Compile NewMatcher ParseDuration ro (Some g) = Ok pol →
  pol_Endpoints pol !! n = Some ce →
  ∃ ent c1, compileEndpoint ParseDuration (pol_Tunnels pol) n ent = Ok c1 ∧ same_shape ce c1.
Proof.
  intros Ho Hp HC Hn. destruct (Compile_stages _ _ _ _ _ _ HC Hp) as (e1 & e2 & e3 & _ & E1 & E2 & E3 & _ & Heps & _).
  clear HC. rewrite Heps, lookup_fmap in Hn. destruct (e3 !! n) as [c3|] eqn:H3; simplify_eq/=.
  destruct (attachRules_lookup _ ParseDuration _ _ _ _ _ E3 H3) as (c2 & H2 & S2 & _).
  unfold attachCredentials in E2. destruct (fold_result _ e1 _) as [e12|] eqn:E12; [|done].
  destruct (attachCredentials_shape _ _ _ _ _ _ E2 H2) as (c12 & H12 & S12 & _).
  destruct (attachCredentials_shape _ _ _ _ _ _ E12 H12) as (c1 & H1 & S1 & _).
  unfold compileEndpoints in E1. apply fold_insert_lookup with (k := n) (v := c1) in E1;
    [|by apply NoDup_range_over, Ho|done].
  destruct E1 as [(ent & _ & Hce)|[_ ?]]; [|by rewrite lookup_empty in *].
  exists ent, c1. split; [done|]. trans c3; [by destruct c3|]. trans c2; [done|]. by trans c12.
Qed.

Lemma prof_inv_wf pol p pr cp :
  (∀ n ce, pol_Endpoints pol !! n = Some ce → ep_Name ce = n) → pol_Credentials pol = p_Credentials p →
  prof_inv (pol_Endpoints pol) (brings p pr) cp → profile_wf pol cp.
Proof.
  intros Hname Hcr [He Hi Hp Hc]. constructor.
  - intros n ce H. by apply He.
  - intros h ce H. destruct (Hi h ce H) as (n & _ & Hn & _). by rewrite (Hname n ce) by by apply He.
  - intros hp H. destruct (Hp hp H) as (n & _ & _ & _ & Hn & _). by rewrite (Hname n (hp_Endpoint hp)) by by apply He.
  - intros n cs c Hcs Hin. destruct (Hc n cs c Hcs Hin) as (name & _ & Hcred & Ht & _). rewrite Hcr. eauto.
Qed.

Lemma Compile_credentials ro g p pol :
  Compile NewMatcher ParseDuration ro (Some g) = Ok pol → gw_Policy g = Some p → pol_Credentials pol = p_Credentials p.
Proof.
  intros H Hp. unfold Compile in H. rewrite Hp in H. cbv zeta in H. set (d := default _ _) in H. clearbody d.
  repeat (dcase_in H; try done). by simplify_eq/=.
Qed.

Lemma Compile_profile_origin ro g p pol name cp :
  orders_ok ro p → gw_Policy g = Some p → Compile NewMatcher ParseDuration ro (Some g) = Ok pol →
  pol_Profiles pol !! name = Some cp →
  cp = empty_profile UnknownPeerEmptyProfile false ∨ ∃ pr, cp = compile_profile (ro_Aliases ro name) p (pol_Endpoints pol) name pr.
Proof.
  intros Ho Hp HC Hn. destruct (Compile_stages _ _ _ _ _ _ HC Hp) as (_ & _ & _ & _ & _ & _ & _ & _ & _ & H).
  unfold compileUnknownPeerProfile in H. destruct (compileProfiles _ _ _ !! UnknownPeerEmptyProfile); [done|].
  assert (compileProfiles ro p (pol_Endpoints pol) !! name = Some cp →
    ∃ pr, cp = compile_profile (ro_Aliases ro name) p (pol_Endpoints pol) name pr) as Hd.
  { rewrite compileProfiles_lookup by apply (oo_Profiles _ _ Ho). destruct (p_Profiles p !! name); [|done]. intros [= <-]. eauto. }
  destruct (String.eqb _ _); injection H as H; rewrite <- H in Hn; [|by right; apply Hd].
  apply lookup_insert_Some in Hn as [[_ <-]|[_ Hn]]; [by left|by right; apply Hd].
Qed.

(** C27. A configuration that compiles gives a well-formed policy, whatever order its
    maps are visited in: endpoints are found under their own name, with their
    rules in order and a tunnel the policy has; every host, pattern and
    credential of a profile leads to an endpoint of that profile and a credential
    of the policy; and every tunnel comes up through a chain that ends. *)
Theorem Compile_wellformed ro g p pol :
  orders_ok ro p → gw_Policy g = Some p → Compile NewMatcher ParseDuration ro (Some g) = Ok pol → policy_wf pol.
Proof.
  intros Ho Hp HC. destruct (Compile_stages _ _ _ _ _ _ HC Hp) as (_ & _ & _ & Ht & _).
  pose proof (compileTunnels_linked _ _ _ _ Ho Ht) as Hl.
  assert (∀ n ce, pol_Endpoints pol !! n = Some ce → ep_Name ce = n) as Hname.
  { intros n ce Hn. by destruct (Compile_endpoint _ _ _ _ _ _ _ _ Ho Hp HC Hn). }
  constructor.
  - intros n ce Hn. destruct (Compile_endpoint _ _ _ _ _ _ _ _ Ho Hp HC Hn) as (H1 & H2 & _). constructor; [done..|].
    intros ct Hct. destruct (Compile_endpoint_origin _ _ _ _ _ _ Ho Hp HC Hn) as (ent & c1 & Hc1 & (_ & Hh & _ & _ & Et)).
    rewrite Et in Hct. destruct (compileEndpoint_tunnel _ _ _ _ _ Hc1 Hct) as [[k Hk] Hr]. rewrite Hh.
    by rewrite (proj1 (Hl k ct Hk)).
  - intros name cp Hn. destruct (Compile_profile_origin _ _ _ _ _ _ Ho Hp HC Hn) as [->|[pr ->]].
    + constructor; cbn; intros; try (by simplify_map_eq); set_solver.
    + eapply prof_inv_wf; [done|by eapply Compile_credentials|apply compile_profile_inv].
  - split; [done|]. intros n. by eapply compileTunnels_ends.
Qed.
End Wf.

Lemma Compile_wellformed_witness : policy_wf (dev_policy "").
Proof.
  exact (Compile_wellformed no_matcher no_duration dev_orders (small_gateway "" ranked_rules) (small_policy ranked_rules) (dev_policy "")
    dev_orders_ok eq_refl ltac:(vm_compute; reflexivity)).
Defined.
