(* ===== verification/TunnelMgr.v ===== *)
(** * Live tunnels: [TunnelManager] of [cmd/clawpatrol/tunnel.go]

    The manager shares tunnel instances between connections: an entry per key,
    counting the handles given out, opened by the first caller, closed when the
    last handle is released and the keepalive has passed. Callers run
    concurrently; what one of them does under the manager's lock is one step, and
    so is the end of an [Open], so that steps of different calls interleave
    freely. Entries live in a heap, since the code compares them by identity. *)
From S2P Require Import Prelude GoStrings Policy.

(** ** State *)

(** [mgrKey]: tunnel name, sharing key, fingerprint. *)
Notation mgrKey := (string * string * string)%type.

(** The tunnel of an entry: [openOnce] still running, set, or [openErr] set. *)
Inductive OpenState := Opening | Opened | OpenFailed.

#[global] Instance OpenState_eq_dec : EqDecision OpenState.
Proof. solve_decision. Defined.

Record tunnelEntry := mkTEntry {
  te_keepalive : Z;
  te_ref : nat;
  te_timer : bool;
  te_state : OpenState;
  (** the handle on the tunnel this one goes through *)
  te_via : option nat
}.

(** A call of [Acquire] that has taken its reference: still waiting for the
    open, or returned with a release closure that has not run. *)
Inductive Phase := Pending | Held.

(** Who will run the release closure: the caller, or the entry that goes
    through this one. *)
Inductive Owner := ByCaller | ByEntry (eid : nat).

Record Handle := mkHandle { h_key : mgrKey; h_entry : nat; h_phase : Phase; h_owner : Owner }.

Record Mgr := mkMgr {
  m_entries : gmap mgrKey nat;
  m_heap : gmap nat tunnelEntry;
  m_handles : gmap nat Handle;
  (** closures a teardown has yet to run *)
  m_due : list nat;
  (** the tunnels closed, in order *)
  m_closed : list nat;
  m_connSeq : nat
}.

Definition NewTunnelManager : Mgr := mkMgr ∅ ∅ ∅ [] [] 0.

Definition TunnelSharePerEndpoint : string := "per_endpoint".
Definition TunnelSharePerConn : string := "per_conn".

(** [shareKey]: the key, and the state with the sequence number advanced. *)
Definition shareKey (m : Mgr) (sharing endpoint : string) : Mgr * string :=
  if String.eqb sharing TunnelSharePerEndpoint then (m, endpoint)
  else if String.eqb sharing TunnelSharePerConn then
    (mkMgr (m_entries m) (m_heap m) (m_handles m) (m_due m) (m_closed m) (S (m_connSeq m)), "c" +:+ Itoa (S (m_connSeq m)))
  else (m, "").

Definition set_heap (m : Mgr) (eid : nat) (e : tunnelEntry) : Mgr :=
  mkMgr (m_entries m) (<[eid := e]> (m_heap m)) (m_handles m) (m_due m) (m_closed m) (m_connSeq m).

Definition set_ref (e : tunnelEntry) (n : nat) (timer : bool) : tunnelEntry :=
  mkTEntry (te_keepalive e) n timer (te_state e) (te_via e).

(** ** [Acquire] *)

(** The first critical section, for fresh ids [eid] and [hid]: find or create the
    entry, stop its timer, count the handle. *)
Definition acquire_begin (m : Mgr) (mk : mgrKey) (keepalive : Z) (eid hid : nat) : Mgr :=
  let '(entries, eid, e) :=
    match m_entries m !! mk with
    | Some i => (m_entries m, i, default (mkTEntry keepalive 0 false Opening None) (m_heap m !! i))
    | None => (<[mk := eid]> (m_entries m), eid, mkTEntry keepalive 0 false Opening None)
    end in
  mkMgr entries (<[eid := set_ref e (S (te_ref e)) false]> (m_heap m))
    (<[hid := mkHandle mk eid Pending ByCaller]> (m_handles m)) (m_due m) (m_closed m) (m_connSeq m).

(** The body of [openOnce.Do] returning: [via] is the handle acquired on the way. *)
Definition open_ok (m : Mgr) (eid : nat) (e : tunnelEntry) (via : option nat) : Mgr :=
  let handles := match via with
                 | Some v => alter (λ h, mkHandle (h_key h) (h_entry h) (h_phase h) (ByEntry eid)) v (m_handles m)
                 | None => m_handles m
                 end in
  mkMgr (m_entries m) (<[eid := mkTEntry (te_keepalive e) (te_ref e) (te_timer e) Opened via]> (m_heap m))
    handles (m_due m) (m_closed m) (m_connSeq m).

Definition open_fail (m : Mgr) (eid : nat) (e : tunnelEntry) : Mgr :=
  set_heap m eid (mkTEntry (te_keepalive e) (te_ref e) (te_timer e) OpenFailed (te_via e)).

(** The rest of [Acquire] after [openOnce.Do]. *)
Definition acquire_return (m : Mgr) (hid : nat) (h : Handle) (e : tunnelEntry) : Mgr :=
  match te_state e with
  | OpenFailed =>
      mkMgr (match m_entries m !! h_key h with
             | Some i => if (i =? h_entry h)%nat then delete (h_key h) (m_entries m) else m_entries m
             | None => m_entries m
             end)
        (<[h_entry h := set_ref e (te_ref e - 1) (te_timer e)]> (m_heap m)) (delete hid (m_handles m))
        (m_due m) (m_closed m) (m_connSeq m)
  | _ =>
      mkMgr (m_entries m) (m_heap m) (<[hid := mkHandle (h_key h) (h_entry h) Held (h_owner h)]> (m_handles m))
        (m_due m) (m_closed m) (m_connSeq m)
  end.

(** ** Releasing *)

(** Removing an entry, closing its tunnel, and scheduling the release of its
    [via]. *)
Definition teardown (m : Mgr) (mk : mgrKey) (eid : nat) (e : tunnelEntry) : Mgr :=
  mkMgr (delete mk (m_entries m)) (m_heap m) (m_handles m)
    (m_due m ++ match te_via e with Some v => [v] | None => [] end)
    (m_closed m ++ match te_state e with Opened => [eid] | _ => [] end) (m_connSeq m).

(** [releaseEntry], by key. *)
Definition releaseEntry (m : Mgr) (mk : mgrKey) : Mgr :=
  match m_entries m !! mk with
  | None => m
  | Some eid =>
      match m_heap m !! eid with
      | None => m
      | Some e =>
          let n := (te_ref e - 1)%nat in
          if (0 <? n)%nat then set_heap m eid (set_ref e n (te_timer e))
          else if te_keepalive e =? 0 then teardown (set_heap m eid (set_ref e n (te_timer e))) mk eid e
          else set_heap m eid (set_ref e n true)
      end
  end.

(** The closure [releaseFunc] returns: it runs once. *)
Definition run_release (m : Mgr) (hid : nat) (h : Handle) : Mgr :=
  releaseEntry (mkMgr (m_entries m) (m_heap m) (delete hid (m_handles m)) (m_due m) (m_closed m) (m_connSeq m)) (h_key h).

(** The callback of the idle timer of entry [eid]. *)
Definition timer_fire (m : Mgr) (mk : mgrKey) (eid : nat) : Mgr :=
  match m_entries m !! mk, m_heap m !! eid with
  | Some cur, Some e =>
      if negb (cur =? eid)%nat || (0 <? te_ref e)%nat then m else teardown m mk eid e
  | _, _ => m
  end.

(** ** Forced eviction *)

(** The eviction of one match of [DisconnectCredential]: the references are not
    consulted. *)
Definition disconnect_entry (m : Mgr) (mk : mgrKey) (eid : nat) (e : tunnelEntry) : Mgr :=
  match m_entries m !! mk with
  | Some cur => if negb (cur =? eid)%nat then m else teardown (set_heap m eid (set_ref e (te_ref e) false)) mk eid e
  | None => m
  end.

(** ** The machine *)

Inductive step : Mgr -> Mgr -> Prop :=
| step_share m sharing endpoint : step m (fst (shareKey m sharing endpoint))
| step_begin m mk keepalive eid hid :
    m_heap m !! eid = None → m_handles m !! hid = None → step m (acquire_begin m mk keepalive eid hid)
| step_open_ok m eid e via :
    m_heap m !! eid = Some e → te_state e = Opening →
    match via with
    | Some v => ∃ h, m_handles m !! v = Some h ∧ h_phase h = Held ∧ h_owner h = ByCaller
    | None => True
    end → step m (open_ok m eid e via)
| step_open_fail m eid e :
    m_heap m !! eid = Some e → te_state e = Opening → step m (open_fail m eid e)
| step_return m hid h e :
    m_handles m !! hid = Some h → h_phase h = Pending → m_heap m !! h_entry h = Some e → te_state e ≠ Opening →
    step m (acquire_return m hid h e)
| step_release m hid h :
    m_handles m !! hid = Some h → h_phase h = Held → h_owner h = ByCaller → step m (run_release m hid h)
| step_due m hid h l1 l2 :
    m_due m = l1 ++ hid :: l2 → m_handles m !! hid = Some h →
    step m (run_release (mkMgr (m_entries m) (m_heap m) (m_handles m) (l1 ++ l2) (m_closed m) (m_connSeq m)) hid h)
| step_timer m mk eid : step m (timer_fire m mk eid).

(** Reachable without forced evictions. *)
Definition reachable (m : Mgr) : Prop := rtc step NewTunnelManager m.

(** ** Pins *)

Section Pins.

(** the digest [compileTunnels] gives each tunnel *)
Variable fingerprint : CompiledTunnel → string.

(** The pins a policy asks for: the singleton bucket of each always-on tunnel. *)
Definition wantPin (tunnels : gmap string CompiledTunnel) : gmap mgrKey CompiledTunnel :=
  list_to_map ((λ ct, ((tun_Name ct, "", fingerprint ct), ct)) <$>
    base.filter (λ ct, tun_KeepaliveAlways ct = true) (snd <$> map_to_list tunnels)).

(** The critical section of [SetPolicy]: the pins kept, those to release and
    those to acquire. [pinned] maps a pin to its handle. *)
Definition pin_diff (pinned : gmap mgrKey nat) (want : gmap mgrKey CompiledTunnel)
    : gmap mgrKey nat * gmap mgrKey nat * gmap mgrKey CompiledTunnel :=
  (base.filter (λ p, is_Some (want !! p.1)) pinned, base.filter (λ p, want !! p.1 = None) pinned,
   base.filter (λ p, pinned !! p.1 = None) want).

(** [SetPolicy]: [acquire] is the outcome of [Acquire] on a new pin. The pins
    held afterwards, and the handles released. *)
Definition SetPolicy (acquire : CompiledTunnel → option nat) (pinned : gmap mgrKey nat)
    (policy : option (gmap string CompiledTunnel)) : gmap mgrKey nat * list nat :=
  let want := match policy with Some tunnels => wantPin tunnels | None => ∅ end in
  let '(kept, stale, new) := pin_diff pinned want in
  (omap acquire new ∪ kept, snd <$> map_to_list stale).

End Pins.
