(* ===== verification/TunnelMgrProps.v ===== *)
(** * Live tunnels are counted right

    The invariant of the tunnel manager under any interleaving of acquires,
    opens, releases and timers; and a run with a forced eviction that breaks it. *)
From S2P Require Import Prelude GoStrings Policy TunnelMgr.

(** ** Counting handles *)

Definition handles_on (hs : gmap nat Handle) (eid : nat) : nat :=
  size (filter (λ p : nat * Handle, h_entry p.2 = eid) hs).

Lemma handles_on_insert hs hid h eid :
  hs !! hid = None → handles_on (<[hid := h]> hs) eid = ((if decide (h_entry h = eid) then 1 else 0) + handles_on hs eid)%nat.
Proof.
  intros Hn. unfold handles_on. case_decide as E.
  - rewrite map_filter_insert_True by done. rewrite map_size_insert_None; [done|].
    apply map_lookup_filter_None. by left.
  - rewrite map_filter_insert_False by done. by rewrite delete_id.
Qed.

Lemma handles_on_delete hs hid h eid :
  hs !! hid = Some h → handles_on hs eid = ((if decide (h_entry h = eid) then 1 else 0) + handles_on (delete hid hs) eid)%nat.
Proof.
  intros Hs. rewrite <- (insert_delete_id hs hid h Hs) at 1. apply handles_on_insert. apply lookup_delete_eq.
Qed.

(** Replacing a handle by one on the same entry. *)
Lemma handles_on_update hs hid h h' eid :
  hs !! hid = Some h → h_entry h' = h_entry h → handles_on (<[hid := h']> hs) eid = handles_on hs eid.
Proof.
  intros Hs He. rewrite <- (insert_delete_eq hs hid h'), handles_on_insert by apply lookup_delete_eq.
  rewrite (handles_on_delete hs hid h eid Hs), He. done.
Qed.

Lemma handles_on_pos hs hid h : hs !! hid = Some h → (0 < handles_on hs (h_entry h))%nat.
Proof. intros Hs. rewrite (handles_on_delete hs hid h _ Hs). rewrite decide_True by done. lia. Qed.

(** ** The invariant *)

Record Inv (m : Mgr) : Prop := mkInv {
  (** the reference count of an entry is the number of handles on it *)
  inv_ref eid e : m_heap m !! eid = Some e → te_ref e = handles_on (m_handles m) eid;
  (** a handle is on an entry that is current unless its open failed, and is open once [Acquire] has returned *)
  inv_handle hid h : m_handles m !! hid = Some h →
    ∃ e, m_heap m !! h_entry h = Some e ∧ (te_state e = OpenFailed ∨ m_entries m !! h_key h = Some (h_entry h)) ∧
      (h_phase h = Held → te_state e = Opened);
  (** a current entry is not closed, has a timer when nobody holds it, and holds the tunnel it goes through *)
  inv_cur mk eid : m_entries m !! mk = Some eid →
    ∃ e, m_heap m !! eid = Some e ∧ eid ∉ m_closed m ∧ (te_ref e = 0%nat → te_timer e = true ∧ te_state e = Opened) ∧
      ∀ v, te_via e = Some v → ∃ h, m_handles m !! v = Some h ∧ h_phase h = Held ∧ h_owner h = ByEntry eid;
  inv_inj mk1 mk2 eid : m_entries m !! mk1 = Some eid → m_entries m !! mk2 = Some eid → mk1 = mk2;
  (** a tunnel is closed once *)
  inv_closed : NoDup (m_closed m) ∧ ∀ eid, eid ∈ m_closed m → is_Some (m_heap m !! eid);
  (** an open tunnel is current or closed *)
  inv_open eid e : m_heap m !! eid = Some e → te_state e = Opened → eid ∈ m_closed m ∨ ∃ mk, m_entries m !! mk = Some eid;
  inv_opening eid e : m_heap m !! eid = Some e → te_state e = Opening → (0 < te_ref e)%nat ∧ te_via e = None;
  (** a handle owned by an entry is its [via], until the entry is gone and the release is due *)
  inv_owner hid h eid : m_handles m !! hid = Some h → h_owner h = ByEntry eid →
    h_phase h = Held ∧ (∃ e, m_heap m !! eid = Some e ∧ te_via e = Some hid) ∧ ((∃ mk, m_entries m !! mk = Some eid) ∨ hid ∈ m_due m);
  inv_due : NoDup (m_due m) ∧ ∀ hid, hid ∈ m_due m →
    ∃ h eid, m_handles m !! hid = Some h ∧ h_owner h = ByEntry eid ∧ ∀ mk, m_entries m !! mk ≠ Some eid;
  (** a handle has the key of its entry *)
  inv_key hid h mk : m_handles m !! hid = Some h → m_entries m !! mk = Some (h_entry h) → mk = h_key h;
  (** only an open tunnel holds another *)
  inv_via eid e v : m_heap m !! eid = Some e → te_via e = Some v → te_state e = Opened
}.

Lemma Inv_init : Inv NewTunnelManager.
Proof.
  constructor; cbn; try (intros; simplify_map_eq; done).
  - split; [constructor|by intros ? ?%elem_of_nil].
  - split; [constructor|by intros ? ?%elem_of_nil].
Qed.

(** ** Single moves *)

(** A count and a timer may be set when the count stays right. *)
Lemma Inv_set_timer m eid e b :
  Inv m → m_heap m !! eid = Some e → (∀ mk, m_entries m !! mk = Some eid → b = true ∨ te_ref e ≠ 0%nat) →
  Inv (set_heap m eid (set_ref e (te_ref e) b)).
Proof.
  intros HI He Hb. destruct HI as [Hr Hh Hc Hj Hcl Ho Hog Hw Hd Hky Hvo].
  assert (∀ i x, <[eid := set_ref e (te_ref e) b]> (m_heap m) !! i = Some x →
    ∃ y, m_heap m !! i = Some y ∧ te_ref x = te_ref y ∧ te_state x = te_state y ∧ te_via x = te_via y) as Hback.
  { intros i x [[<- <-]|[Hi Hx]]%lookup_insert_Some; eauto. }
  assert (∀ i y, m_heap m !! i = Some y → ∃ x, <[eid := set_ref e (te_ref e) b]> (m_heap m) !! i = Some x ∧
    te_ref x = te_ref y ∧ te_state x = te_state y ∧ te_via x = te_via y ∧ (i ≠ eid → x = y) ∧ (i = eid → te_timer x = b)) as Hfwd.
  { intros i y Hy. destruct (decide (i = eid)) as [->|Hi].
    - simplify_eq. exists (set_ref e (te_ref e) b). by simplify_map_eq.
    - exists y. by rewrite lookup_insert_ne by done. }
  constructor; cbn [set_heap m_entries m_heap m_handles m_due m_closed].
  - intros i x Hx. destruct (Hback i x Hx) as (y & Hy & -> & _). by apply Hr.
  - intros hid h Hs. destruct (Hh hid h Hs) as (y & Hy & H1 & H2). destruct (Hfwd _ _ Hy) as (x & Hx & _ & E & _).
    exists x. by rewrite E.
  - intros mk i Hm. destruct (Hc mk i Hm) as (y & Hy & H1 & H2 & H3). destruct (Hfwd _ _ Hy) as (x & Hx & E1 & E2 & E3 & E4 & E5).
    exists x. rewrite E1, E2, E3. split_and!; try done. intros H0. destruct (H2 H0) as [Ht Hs]. split; [|done].
    destruct (decide (i = eid)) as [->|Hi]; [|by rewrite E4]. rewrite E5 by done.
    destruct (Hb mk Hm) as [?|Hne]; [done|]. simplify_eq. 
  - exact Hj.
  - destruct Hcl as [H1 H2]. split; [done|]. intros i Hi. destruct (H2 i Hi) as [y Hy]. destruct (Hfwd _ _ Hy) as (x & Hx & _). eauto.
  - intros i x Hx Hs. destruct (Hback i x Hx) as (y & Hy & _ & E & _). rewrite E in Hs. by eapply Ho.
  - intros i x Hx Hs. destruct (Hback i x Hx) as (y & Hy & E1 & E2 & E3). rewrite E1, E3. rewrite E2 in Hs. by eapply Hog.
  - intros hid h i Hs Hw'. destruct (Hw hid h i Hs Hw') as (H1 & (y & Hy & Hv) & H2).
    destruct (Hfwd _ _ Hy) as (x & Hx & _ & _ & E3 & _). split_and!; [done| |done]. exists x. by rewrite E3.
  - exact Hd.
  - exact Hky.
  - intros i x v Hx Hv. destruct (Hback i x Hx) as (y & Hy & _ & E2 & E3). rewrite E2. rewrite E3 in Hv. by eapply Hvo.
Qed.

(** An unreferenced current entry is torn down. *)
Lemma Inv_teardown m mk eid e :
  Inv m → m_entries m !! mk = Some eid → m_heap m !! eid = Some e → te_ref e = 0%nat → Inv (teardown m mk eid e).
Proof.
  intros HI Hm He H0. pose proof HI as [Hr Hh Hc Hj Hcl Ho Hog Hw Hd Hky Hvo].
  destruct (Hc mk eid Hm) as (e' & He' & Hnc & Hst & Hv). simplify_eq. destruct (Hst H0) as [_ Hop].
  assert (∀ hid h, m_handles m !! hid = Some h → h_entry h ≠ eid) as Hnone.
  { intros hid h Hs Heq. pose proof (handles_on_pos _ _ _ Hs) as Hp. rewrite Heq, <- (Hr _ _ He) in Hp. lia. }
  assert (∀ mk', m_entries m !! mk' = Some eid → mk' = mk) as Honly by (intros; by eapply Hj).
  unfold teardown. rewrite Hop. constructor; cbn [m_entries m_heap m_handles m_due m_closed].
  - exact Hr.
  - intros hid h Hs. destruct (Hh hid h Hs) as (y & Hy & H1 & H2). exists y. split_and!; [done| |done].
    destruct H1 as [H1|H1]; [by left|]. right. rewrite lookup_delete_ne; [done|]. intros Heq.
    rewrite <- Heq, Hm in H1. injection H1 as Heid. by apply (Hnone hid h Hs).
  - intros mk' i [Hne Hi]%lookup_delete_Some. destruct (Hc mk' i Hi) as (y & Hy & H1 & H2 & H3). exists y.
    split_and!; try done. rewrite elem_of_app, list_elem_of_singleton. intros [?| ->]; [done|]. by apply Hne, Hj with eid.
  - intros mk1 mk2 i [_ H1]%lookup_delete_Some [_ H2]%lookup_delete_Some. by eapply Hj.
  - destruct Hcl as [H1 H2]. split.
    + apply NoDup_app. split_and!; [done| |apply NoDup_singleton]. intros x Hx ->%list_elem_of_singleton. done.
    + intros i. rewrite elem_of_app, list_elem_of_singleton. intros [?| ->]; eauto.
  - intros i y Hy Hs. rewrite elem_of_app, list_elem_of_singleton. destruct (Ho i y Hy Hs) as [?|[mk' Hi]]; [by left; left|].
    destruct (decide (i = eid)) as [->|Hne]; [by left; right|]. right. exists mk'. rewrite lookup_delete_ne; [done|].
    intros <-. by simplify_eq.
  - exact Hog.
  - intros hid h i Hs Hwn. destruct (Hw hid h i Hs Hwn) as (H1 & (y & Hy & Hvy) & H2). split_and!; [done|by eauto|].
    rewrite elem_of_app. destruct H2 as [[mk' Hi]|H2]; [|by right; left].
    destruct (decide (i = eid)) as [->|Hne].
    + right. right. assert (y = e) as -> by congruence. rewrite Hvy. apply list_elem_of_singleton. done.
    + left. exists mk'. rewrite lookup_delete_ne; [done|]. intros <-. by simplify_eq.
  - destruct Hd as [H1 H2]. split.
    + apply NoDup_app. split_and!; [done| |].
      * intros x Hx Hxe. destruct (te_via e) as [v|] eqn:Ev; [|by apply elem_of_nil in Hxe].
        apply list_elem_of_singleton in Hxe as ->. destruct (Hv v eq_refl) as (h & Hs & _ & Hown).
        destruct (H2 v Hx) as (h' & i & Hs' & Hown' & Hno). assert (i = eid) as -> by congruence. by apply (Hno mk).
      * destruct (te_via e); [apply NoDup_singleton|constructor].
    + intros hid. rewrite elem_of_app. intros [Hx|Hx].
      * destruct (H2 hid Hx) as (h & i & Hs & Hown & Hno). exists h, i. split_and!; [done..|].
        intros mk' [_ Hi]%lookup_delete_Some. by apply (Hno mk').
      * destruct (te_via e) as [v|] eqn:Ev; [|by apply elem_of_nil in Hx]. apply list_elem_of_singleton in Hx as ->.
        destruct (Hv v eq_refl) as (h & Hs & _ & Hown). exists h, eid. split_and!; [done..|].
        intros mk' [Hne Hi]%lookup_delete_Some. by apply Hne, Hj with eid.
  - intros k g mk' Hg [_ Hi]%lookup_delete_Some. by eapply Hky.
  - exact Hvo.
Qed.

(** A held handle is dropped: the count goes down, and at zero the timer is armed. *)
Lemma Inv_drop m hid h e t due' :
  Inv m → m_handles m !! hid = Some h → h_phase h = Held → m_heap m !! h_entry h = Some e →
  (te_ref e - 1 = 0 → t = true)%nat →
  (∀ mk i e', m_entries m !! mk = Some i → m_heap m !! i = Some e' → te_via e' ≠ Some hid) →
  NoDup due' → (∀ x, x ∈ due' → x ∈ m_due m ∧ x ≠ hid) → (∀ x, x ∈ m_due m → x ≠ hid → x ∈ due') →
  Inv (mkMgr (m_entries m) (<[h_entry h := set_ref e (te_ref e - 1) t]> (m_heap m)) (delete hid (m_handles m)) due' (m_closed m) (m_connSeq m)).
Proof.
  intros HI Hs Hheld He Ht Hvia Hnd Hd1 Hd2. pose proof HI as [Hr Hh Hc Hj Hcl Ho Hog Hw Hd Hky Hvo].
  set (eid := h_entry h) in *. set (e1 := set_ref e (te_ref e - 1) t).
  assert (te_state e = Opened) as Hop.
  { destruct (Hh hid h Hs) as (y & Hy & _ & H). fold eid in Hy. simplify_eq. auto. }
  constructor; cbn [m_entries m_heap m_handles m_due m_closed].
  - intros i x [[<- <-]|[Hne Hx]]%lookup_insert_Some.
    + cbn. rewrite (Hr _ _ He), (handles_on_delete _ _ _ eid Hs), decide_True by done. lia.
    + rewrite (Hr _ _ Hx), (handles_on_delete _ _ _ i Hs), decide_False by done. done.
  - intros k g [Hne Hg]%lookup_delete_Some. destruct (Hh k g Hg) as (y & Hy & H1 & H2).
    destruct (decide (h_entry g = eid)) as [Heq|Hne']; [|exists y; by rewrite lookup_insert_ne by done].
    exists e1. rewrite Heq in *. simplify_eq. by rewrite lookup_insert_eq.
  - intros mk i Hi. destruct (Hc mk i Hi) as (y & Hy & H1 & H2 & H3).
    assert (∀ v, te_via y = Some v → ∃ h0, delete hid (m_handles m) !! v = Some h0 ∧ h_phase h0 = Held ∧ h_owner h0 = ByEntry i) as H3'.
    { intros v Hv. destruct (H3 v Hv) as (g & Hg & ?). exists g. split; [|done]. rewrite lookup_delete_ne; [done|].
      intros <-. by apply (Hvia mk i y). }
    destruct (decide (i = eid)) as [->|Hne]; [|exists y; by rewrite lookup_insert_ne by done].
    simplify_eq. exists e1. rewrite lookup_insert_eq. split_and!; [done..| |exact H3'].
    cbn. intros H0. split; [by apply Ht|done].
  - exact Hj.
  - destruct Hcl as [H1 H2]. split; [done|]. intros i Hi. apply lookup_insert_is_Some'. right. auto.
  - intros i x [[<- <-]|[Hne Hx]]%lookup_insert_Some; [|by eapply Ho]. intros _. by eapply Ho.
  - intros i x [[<- <-]|[Hne Hx]]%lookup_insert_Some; [|by eapply Hog]. cbn. by rewrite Hop.
  - intros k g i [Hne Hg]%lookup_delete_Some Hown. destruct (Hw k g i Hg Hown) as (H1 & (y & Hy & Hv) & H2).
    split_and!; [done| |destruct H2; [by left|right; auto]].
    destruct (decide (i = eid)) as [->|Hne']; [|exists y; by rewrite lookup_insert_ne by done].
    simplify_eq. exists e1. by rewrite lookup_insert_eq.
  - split; [done|]. intros x Hx. destruct (Hd1 x Hx) as [Hx' Hne]. destruct Hd as [_ Hd].
    destruct (Hd x Hx') as (g & i & Hg & ?). exists g, i. by rewrite lookup_delete_ne.
  - intros k g mk' [_ Hg]%lookup_delete_Some Hi. by eapply Hky.
  - intros i x v [[<- <-]|[Hne Hx]]%lookup_insert_Some; [by cbn|by eapply Hvo].
Qed.

(** Running a release closure. *)
Lemma Inv_release m hid h due' :
  Inv m → m_handles m !! hid = Some h → h_phase h = Held →
  (∀ mk i e', m_entries m !! mk = Some i → m_heap m !! i = Some e' → te_via e' ≠ Some hid) →
  NoDup due' → (∀ x, x ∈ due' → x ∈ m_due m ∧ x ≠ hid) → (∀ x, x ∈ m_due m → x ≠ hid → x ∈ due') →
  Inv (run_release (mkMgr (m_entries m) (m_heap m) (m_handles m) due' (m_closed m) (m_connSeq m)) hid h).
Proof.
  intros HI Hs Hheld Hvia Hnd Hd1 Hd2. destruct (inv_handle m HI hid h Hs) as (e & He & Hcur & Hop).
  assert (m_entries m !! h_key h = Some (h_entry h)) as Hk.
  { destruct Hcur as [Hf|]; [|done]. rewrite Hop in Hf by done. done. }
  unfold run_release, releaseEntry, set_heap. cbn [m_entries m_heap m_handles m_due m_closed m_connSeq]. rewrite Hk, He.
  destruct (0 <? te_ref e - 1)%nat eqn:E0; [|destruct (te_keepalive e =? 0)]; bprop.
  - apply Inv_drop; try done. lia.
  - assert (te_ref e - 1 = 0)%nat as Hz by lia.
    pose proof (Inv_drop m hid h e true due' HI Hs Hheld He (λ _, eq_refl) Hvia Hnd Hd1 Hd2) as HI1.
    pose proof (Inv_teardown _ (h_key h) (h_entry h) (set_ref e (te_ref e - 1) true) HI1 Hk (lookup_insert_eq _ _ _) Hz) as HI2.
    pose proof (Inv_set_timer _ (h_entry h) (set_ref e (te_ref e - 1) true) (te_timer e) HI2 (lookup_insert_eq _ _ _)) as HI3.
    unfold set_heap, teardown in *. cbn [m_entries m_heap m_handles m_due m_closed m_connSeq te_via te_state set_ref] in *.
    rewrite insert_insert_eq in HI3. apply HI3. intros mk' [Hne Hi]%lookup_delete_Some.
    exfalso. by apply Hne, (inv_inj m HI) with (h_entry h).
  - apply Inv_drop; done.
Qed.

Lemma via_not_by_caller m hid h mk i e :
  Inv m → m_handles m !! hid = Some h → h_owner h = ByCaller → m_entries m !! mk = Some i → m_heap m !! i = Some e →
  te_via e ≠ Some hid.
Proof.
  intros HI Hs Ho Hm He Hv. destruct (inv_cur m HI mk i Hm) as (y & Hy & _ & _ & H). simplify_eq.
  destruct (H hid Hv) as (g & Hg & _ & Hg'). congruence.
Qed.

(** Taking a reference. *)
Lemma Inv_begin m mk ka eid hid :
  Inv m → m_heap m !! eid = None → m_handles m !! hid = None → Inv (acquire_begin m mk ka eid hid).
Proof.
  intros HI Hfe Hfh. pose proof HI as [Hr Hh Hc Hj Hcl Ho Hog Hw Hd Hky Hvo].
  assert (∀ k, k ∈ m_due m → k ≠ hid) as Hndue.
  { intros k Hk ->. destruct Hd as [_ Hd]. destruct (Hd hid Hk) as (g & i & Hg & _). congruence. }
  assert (∀ i y v, m_heap m !! i = Some y → te_via y = Some v → (∃ mk, m_entries m !! mk = Some i) → v ≠ hid) as Hnvia.
  { intros i y v Hy Hv [mk' Hm] ->. destruct (Hc mk' i Hm) as (z & Hz & _ & _ & H). simplify_eq.
    destruct (H hid Hv) as (g & Hg & _). congruence. }
  unfold acquire_begin. destruct (m_entries m !! mk) as [i0|] eqn:Em.
  - destruct (Hc mk i0 Em) as (e0 & He0 & Hnc & Hst & Hv0). rewrite He0. cbn [default].
    set (e1 := set_ref e0 (S (te_ref e0)) false).
    constructor; cbn [m_entries m_heap m_handles m_due m_closed].
    + intros i x [[<- <-]|[Hne Hx]]%lookup_insert_Some; rewrite handles_on_insert by done; cbn [h_entry].
      * rewrite decide_True by done. cbn. by rewrite (Hr _ _ He0).
      * rewrite decide_False by done. by apply Hr.
    + intros k g [[<- <-]|[Hne Hg]]%lookup_insert_Some; cbn [h_entry h_key h_phase].
      * exists e1. rewrite lookup_insert_eq. split_and!; [done|by right|done].
      * destruct (Hh k g Hg) as (y & Hy & H1 & H2). destruct (decide (h_entry g = i0)) as [Heq|Hne'].
        -- exists e1. rewrite Heq in *. simplify_eq. by rewrite lookup_insert_eq.
        -- exists y. by rewrite lookup_insert_ne by done.
    + intros mk' i Hi. destruct (Hc mk' i Hi) as (y & Hy & H1 & H2 & H3).
      assert (∀ v, te_via y = Some v → ∃ h, <[hid := mkHandle mk i0 Pending ByCaller]> (m_handles m) !! v = Some h ∧ h_phase h = Held ∧ h_owner h = ByEntry i) as H3'.
      { intros v Hv. destruct (H3 v Hv) as (g & Hg & ?). exists g. rewrite lookup_insert_ne; [done|]. intros <-. congruence. }
      destruct (decide (i = i0)) as [->|Hne]; [|exists y; by rewrite lookup_insert_ne by done].
      simplify_eq. exists e1. rewrite lookup_insert_eq. split_and!; [done..| |exact H3']. done.
    + exact Hj.
    + destruct Hcl as [H1 H2]. split; [done|]. intros i Hi. apply lookup_insert_is_Some'. right. auto.
    + intros i x [[<- <-]|[Hne Hx]]%lookup_insert_Some; [|by eapply Ho]. intros _. right. eauto.
    + intros i x [[<- <-]|[Hne Hx]]%lookup_insert_Some; [|by eapply Hog]. cbn. intros Hs. split; [lia|]. by eapply Hog.
    + intros k g i [[<- <-]|[Hne Hg]]%lookup_insert_Some Hown; [done|]. destruct (Hw k g i Hg Hown) as (H1 & (y & Hy & Hv) & H2).
      split_and!; [done| |done]. destruct (decide (i = i0)) as [->|Hne']; [|exists y; by rewrite lookup_insert_ne by done].
      simplify_eq. exists e1. by rewrite lookup_insert_eq.
    + destruct Hd as [H1 H2]. split; [done|]. intros k Hk. destruct (H2 k Hk) as (g & i & Hg & ?). exists g, i.
      rewrite lookup_insert_ne; [done|]. intros <-. by apply (Hndue hid).
    + intros k g mk' [[<- <-]|[Hne Hg]]%lookup_insert_Some Hi; [by eapply Hj|by eapply Hky].
    + intros i x v [[<- <-]|[Hne Hx]]%lookup_insert_Some; [by apply (Hvo _ _ v He0)|by eapply Hvo].
  - set (e1 := set_ref (mkTEntry ka 0 false Opening None) 1 false).
    assert (∀ mk' i, m_entries m !! mk' = Some i → i ≠ eid) as Hfresh.
    { intros mk' i Hi ->. destruct (Hc mk' eid Hi) as (y & Hy & _). congruence. }
    constructor; cbn [m_entries m_heap m_handles m_due m_closed te_ref].
    + intros i x [[<- <-]|[Hne Hx]]%lookup_insert_Some; rewrite handles_on_insert by done; cbn [h_entry].
      * rewrite decide_True by done. cbn. destruct (handles_on (m_handles m) eid) eqn:Ez; [done|]. exfalso.
        assert (filter (λ p : nat * Handle, h_entry p.2 = eid) (m_handles m) ≠ ∅) as Hne.
        { unfold handles_on in Ez. intros Hemp. rewrite Hemp, map_size_empty in Ez. done. }
        apply map_choose in Hne as (k & g & [Hg Hge]%map_lookup_filter_Some). cbn in Hge.
        destruct (Hh k g Hg) as (y & Hy & _). rewrite Hge in Hy. congruence.
      * rewrite decide_False by done. by apply Hr.
    + intros k g [[<- <-]|[Hne Hg]]%lookup_insert_Some; cbn [h_entry h_key h_phase].
      * exists e1. rewrite !lookup_insert_eq. split_and!; [done|by right|done].
      * destruct (Hh k g Hg) as (y & Hy & H1 & H2). exists y. rewrite lookup_insert_ne by congruence. split_and!; [done| |done].
        destruct H1 as [H1|H1]; [by left|]. right. rewrite lookup_insert_ne; [done|]. intros Heq. congruence.
    + intros mk' i [[<- <-]|[Hne Hi]]%lookup_insert_Some.
      * exists e1. rewrite lookup_insert_eq. split_and!; [done| |done|done]. intros Hi. destruct Hcl as [_ H2].
        destruct (H2 eid Hi) as [y Hy]. congruence.
      * destruct (Hc mk' i Hi) as (y & Hy & H1 & H2 & H3). exists y. rewrite lookup_insert_ne by (intros <-; by eapply Hfresh).
        split_and!; [done..|]. intros v Hv. destruct (H3 v Hv) as (g & Hg & ?). exists g. rewrite lookup_insert_ne; [done|].
        intros <-. congruence.
    + intros mk1 mk2 i [[<- <-]|[Hne1 H1]]%lookup_insert_Some [[<- Hq]|[Hne2 H2]]%lookup_insert_Some; [done| | |by eapply Hj].
      * by apply Hfresh in H2.
      * subst. by apply Hfresh in H1.
    + destruct Hcl as [H1 H2]. split; [done|]. intros i Hi. apply lookup_insert_is_Some'. right. auto.
    + intros i x [[<- <-]|[Hne Hx]]%lookup_insert_Some; [done|]. intros Hs. destruct (Ho i x Hx Hs) as [?|[mk' Hi]]; [by left|].
      right. exists mk'. rewrite lookup_insert_ne; [done|]. intros <-. congruence.
    + intros i x [[<- <-]|[Hne Hx]]%lookup_insert_Some; [|by eapply Hog]. cbn. intros _. split; [lia|done].
    + intros k g i [[<- <-]|[Hne Hg]]%lookup_insert_Some Hown; [done|]. destruct (Hw k g i Hg Hown) as (H1 & (y & Hy & Hv) & H2).
      split_and!; [done| |].
      * exists y. by rewrite lookup_insert_ne by congruence.
      * destruct H2 as [[mk' Hi]|?]; [|by right]. left. exists mk'. rewrite lookup_insert_ne; [done|]. intros <-. congruence.
    + destruct Hd as [H1 H2]. split; [done|]. intros k Hk. destruct (H2 k Hk) as (g & i & Hg & Hown & Hno). exists g, i.
      split_and!; [|done|].
      * rewrite lookup_insert_ne; [done|]. intros <-. by apply (Hndue hid).
      * intros mk' [[<- <-]|[_ Hi]]%lookup_insert_Some; [|by apply (Hno mk')].
        destruct (Hw k g eid Hg Hown) as (_ & (y & Hy & _) & _). congruence.
    + intros k g mk' [[<- <-]|[Hne Hg]]%lookup_insert_Some [[<- Hq]|[Hne' Hi]]%lookup_insert_Some; [done| | |by eapply Hky].
      * by apply Hfresh in Hi.
      * destruct (Hh k g Hg) as (y & Hy & _). congruence.
    + intros i x v [[<- <-]|[Hne Hx]]%lookup_insert_Some; [done|by eapply Hvo].
Qed.

(** A reference taken on an entry that is still opening keeps it current. *)
Lemma opening_current m eid e :
  Inv m → m_heap m !! eid = Some e → te_state e = Opening → ∃ mk, m_entries m !! mk = Some eid.
Proof.
  intros HI He Hs. destruct (inv_opening m HI eid e He Hs) as [Hp _]. rewrite (inv_ref m HI eid e He) in Hp.
  assert (filter (λ p : nat * Handle, h_entry p.2 = eid) (m_handles m) ≠ ∅) as Hne.
  { unfold handles_on in Hp. intros Hemp. rewrite Hemp, map_size_empty in Hp. lia. }
  apply map_choose in Hne as (k & g & [Hg Hge]%map_lookup_filter_Some). cbn in Hge.
  destruct (inv_handle m HI k g Hg) as (y & Hy & Hc & _). rewrite Hge in Hy, Hc.
  destruct Hc as [Hf|Hc]; [congruence|eauto].
Qed.

Lemma alter_as_insert (hs : gmap nat Handle) f v h : hs !! v = Some h → alter f v hs = <[v := f h]> hs.
Proof.
  intros Hs. apply map_eq. intros k. destruct (decide (k = v)) as [->|Hne].
  - rewrite lookup_alter_eq, lookup_insert_eq, Hs. done.
  - by rewrite lookup_alter_ne, lookup_insert_ne.
Qed.

(** The end of an open that succeeds. *)
Lemma Inv_open_ok m eid e via :
  Inv m → m_heap m !! eid = Some e → te_state e = Opening →
  match via with
  | Some v => ∃ h, m_handles m !! v = Some h ∧ h_phase h = Held ∧ h_owner h = ByCaller
  | None => True
  end → Inv (open_ok m eid e via).
Proof.
  intros HI He Hs Hvia. destruct (opening_current m eid e HI He Hs) as [mk0 Hmk0].
  pose proof HI as [Hr Hh Hc Hj Hcl Ho Hog Hw Hd Hky Hvo]. destruct (Hog eid e He Hs) as [Hpos Hnv].
  unfold open_ok. set (e1 := mkTEntry _ _ _ Opened via). set (hs := match via with Some _ => _ | None => _ end).
  assert (∀ k g, hs !! k = Some g → ∃ g0, m_handles m !! k = Some g0 ∧ h_key g = h_key g0 ∧ h_entry g = h_entry g0 ∧
      h_phase g = h_phase g0 ∧ ((g = g0 ∧ via ≠ Some k) ∨ (via = Some k ∧ h_owner g = ByEntry eid ∧ h_phase g = Held))) as Hback.
  { intros k g Hg. subst hs. destruct via as [v|]; [|by exists g; split_and!; try done; left].
    destruct Hvia as (h & Hv & Hp & _). rewrite (alter_as_insert _ _ _ _ Hv) in Hg.
    apply lookup_insert_Some in Hg as [[<- <-]|[Hne Hg]].
    - exists h. split_and!; try done. by right.
    - exists g. split_and!; try done. left. split; [done|congruence]. }
  assert (∀ k g, m_handles m !! k = Some g → via ≠ Some k → hs !! k = Some g) as Hfwd.
  { intros k g Hg Hne. subst hs. destruct via as [v|]; [|done]. rewrite lookup_alter_ne; [done|congruence]. }
  assert (∀ k g i, m_handles m !! k = Some g → h_owner g = ByEntry i → via ≠ Some k) as Hby.
  { intros k g i Hg Hown ->. destruct Hvia as (h & Hv & _ & Hb). congruence. }
  constructor; cbn [m_entries m_heap m_handles m_due m_closed].
  - assert (∀ i, handles_on hs i = handles_on (m_handles m) i) as Hon.
    { intros i. subst hs. destruct via as [v|]; [|done]. destruct Hvia as (h & Hv & _).
      rewrite (alter_as_insert _ _ _ _ Hv). by apply (handles_on_update _ _ h). }
    intros i x [[<- <-]|[Hne Hx]]%lookup_insert_Some; rewrite Hon; [by apply (Hr eid e)|by apply Hr].
  - intros k g Hg. destruct (Hback k g Hg) as (g0 & Hg0 & -> & -> & -> & _). destruct (Hh k g0 Hg0) as (y & Hy & H1 & H2).
    destruct (decide (h_entry g0 = eid)) as [Heq|Hne].
    + exists e1. rewrite Heq in *. simplify_eq. rewrite lookup_insert_eq. split_and!; [done| |done].
      destruct H1 as [H1|H1]; [congruence|by right].
    + exists y. by rewrite lookup_insert_ne by done.
  - intros mk i Hi. destruct (Hc mk i Hi) as (y & Hy & H1 & H2 & H3). destruct (decide (i = eid)) as [->|Hne].
    + exists e1. rewrite lookup_insert_eq. simplify_eq. split_and!; [done|done|cbn; lia|]. cbn. intros v ->.
      destruct Hvia as (h & Hv & Hp & _). subst hs. cbn. rewrite (alter_as_insert _ _ _ _ Hv), lookup_insert_eq. eauto.
    + exists y. rewrite lookup_insert_ne by done. split_and!; [done..|]. intros v Hv.
      destruct (H3 v Hv) as (g & Hg & ? & Hown). exists g. split; [|done]. eauto.
  - exact Hj.
  - destruct Hcl as [H1 H2]. split; [done|]. intros i Hi. apply lookup_insert_is_Some'. right. auto.
  - intros i x [[<- <-]|[Hne Hx]]%lookup_insert_Some; [eauto|by eapply Ho].
  - intros i x [[<- <-]|[Hne Hx]]%lookup_insert_Some; [done|by eapply Hog].
  - intros k g i Hg Hown. destruct (Hback k g Hg) as (g0 & Hg0 & _ & _ & Ep & [[-> Hnv']|(Ev & Eo & Eh)]).
    + destruct (Hw k g0 i Hg0 Hown) as (H1 & (y & Hy & Hv) & H2). split_and!; [done| |done]. exists y.
      rewrite lookup_insert_ne; [done|]. intros <-. congruence.
    + assert (i = eid) as -> by congruence. split_and!; [done| |eauto]. exists e1. by rewrite lookup_insert_eq.
  - destruct Hd as [H1 H2]. split; [done|]. intros k Hk. destruct (H2 k Hk) as (g & i & Hg & Hown & Hno).
    exists g, i. split_and!; [|done|done]. eauto.
  - intros k g mk Hg Hi. destruct (Hback k g Hg) as (g0 & Hg0 & -> & E & _). rewrite E in Hi. by eapply Hky.
  - intros i x v [[<- <-]|[Hne Hx]]%lookup_insert_Some; [done|by eapply Hvo].
Qed.

(** The end of an open that fails. *)
Lemma Inv_open_fail m eid e :
  Inv m → m_heap m !! eid = Some e → te_state e = Opening → Inv (open_fail m eid e).
Proof.
  intros HI He Hs. pose proof HI as [Hr Hh Hc Hj Hcl Ho Hog Hw Hd Hky Hvo]. destruct (Hog eid e He Hs) as [Hpos Hnv].
  unfold open_fail, set_heap. set (e1 := mkTEntry _ _ _ OpenFailed _).
  constructor; cbn [m_entries m_heap m_handles m_due m_closed].
  - intros i x [[<- <-]|[Hne Hx]]%lookup_insert_Some; [by apply (Hr eid e)|by apply Hr].
  - intros k g Hg. destruct (Hh k g Hg) as (y & Hy & H1 & H2). destruct (decide (h_entry g = eid)) as [Heq|Hne].
    + exists e1. rewrite Heq in *. simplify_eq. rewrite lookup_insert_eq. split_and!; [done|by left|].
      intros Hp. specialize (H2 Hp). congruence.
    + exists y. by rewrite lookup_insert_ne by done.
  - intros mk i Hi. destruct (Hc mk i Hi) as (y & Hy & H1 & H2 & H3). destruct (decide (i = eid)) as [->|Hne].
    + exists e1. rewrite lookup_insert_eq. simplify_eq. split_and!; [done|done|cbn; lia|]. cbn. congruence.
    + exists y. by rewrite lookup_insert_ne by done.
  - exact Hj.
  - destruct Hcl as [H1 H2]. split; [done|]. intros i Hi. apply lookup_insert_is_Some'. right. auto.
  - intros i x [[<- <-]|[Hne Hx]]%lookup_insert_Some; [done|by eapply Ho].
  - intros i x [[<- <-]|[Hne Hx]]%lookup_insert_Some; [done|by eapply Hog].
  - intros k g i Hg Hown. destruct (Hw k g i Hg Hown) as (H1 & (y & Hy & Hv) & H2). split_and!; [done| |done]. exists y.
    rewrite lookup_insert_ne; [done|]. intros <-. congruence.
  - exact Hd.
  - exact Hky.
  - intros i x v [[<- <-]|[Hne Hx]]%lookup_insert_Some; [cbn; congruence|by eapply Hvo].
Qed.

(** [Acquire] returning the tunnel. *)
Lemma Inv_return_ok m hid h e :
  Inv m → m_handles m !! hid = Some h → h_phase h = Pending → m_heap m !! h_entry h = Some e → te_state e = Opened →
  Inv (mkMgr (m_entries m) (m_heap m) (<[hid := mkHandle (h_key h) (h_entry h) Held (h_owner h)]> (m_handles m))
        (m_due m) (m_closed m) (m_connSeq m)).
Proof.
  intros HI Hs Hp He Hop. pose proof HI as [Hr Hh Hc Hj Hcl Ho Hog Hw Hd Hky Hvo].
  assert (∀ k g i, m_handles m !! k = Some g → h_owner g = ByEntry i → k ≠ hid) as Hby.
  { intros k g i Hg Hown ->. simplify_eq. destruct (Hw _ _ _ Hs Hown) as (? & _). congruence. }
  constructor; cbn [m_entries m_heap m_handles m_due m_closed]; try done.
  - intros i x Hx. rewrite (handles_on_update _ _ h) by done. by apply Hr.
  - intros k g [[<- <-]|[Hne Hg]]%lookup_insert_Some; [|by eapply Hh]. cbn.
    destruct (Hh hid h Hs) as (y & Hy & H1 & _). simplify_eq. eauto.
  - intros mk i Hi. destruct (Hc mk i Hi) as (y & Hy & H1 & H2 & H3). exists y. split_and!; [done..|].
    intros v Hv. destruct (H3 v Hv) as (g & Hg & ? & Hown). exists g. split; [|done].
    rewrite lookup_insert_ne; [done|]. intros <-. by eapply Hby.
  - intros k g i [[<- <-]|[Hne Hg]]%lookup_insert_Some Hown; [|by eapply Hw]. cbn in Hown. by destruct (Hby hid h i).
  - destruct Hd as [H1 H2]. split; [done|]. intros k Hk. destruct (H2 k Hk) as (g & i & Hg & Hown & Hno).
    exists g, i. split_and!; [|done|done]. rewrite lookup_insert_ne; [done|]. intros <-. by eapply Hby.
  - intros k g mk [[<- <-]|[Hne Hg]]%lookup_insert_Some Hi; [by eapply (Hky hid h)|by eapply Hky].
Qed.

(** [Acquire] returning the error of the open. *)
Lemma Inv_return_failed m hid h e :
  Inv m → m_handles m !! hid = Some h → h_phase h = Pending → m_heap m !! h_entry h = Some e → te_state e = OpenFailed →
  Inv (acquire_return m hid h e).
Proof.
  intros HI Hs Hp He Hf. pose proof HI as [Hr Hh Hc Hj Hcl Ho Hog Hw Hd Hky Hvo].
  assert (∀ k g i, m_handles m !! k = Some g → h_owner g = ByEntry i → k ≠ hid) as Hby.
  { intros k g i Hg Hown ->. simplify_eq. destruct (Hw _ _ _ Hs Hown) as (? & _). congruence. }
  unfold acquire_return. rewrite Hf. set (ents := match m_entries m !! h_key h with Some _ => _ | None => _ end).
  assert (∀ mk i, ents !! mk = Some i → m_entries m !! mk = Some i ∧ (mk = h_key h → i ≠ h_entry h)) as Hsub.
  { intros mk i. subst ents. destruct (m_entries m !! h_key h) as [c|] eqn:Ec; [destruct (Nat.eqb_spec c (h_entry h))|].
    - intros [Hne Hi]%lookup_delete_Some. split; [done|]. by intros ->.
    - intros Hi. split; [done|]. intros -> ->. congruence.
    - intros Hi. split; [done|]. intros ->. congruence. }
  assert (∀ mk i, m_entries m !! mk = Some i → i ≠ h_entry h → ents !! mk = Some i) as Hkeep.
  { intros mk i Hi Hne. subst ents. destruct (m_entries m !! h_key h) as [c|] eqn:Ec; [destruct (Nat.eqb_spec c (h_entry h))|]; try done.
    rewrite lookup_delete_ne; [done|]. congruence. }
  set (eid := h_entry h) in *. set (e1 := set_ref e _ _).
  constructor; cbn [m_entries m_heap m_handles m_due m_closed].
  - intros i x [[<- <-]|[Hne Hx]]%lookup_insert_Some.
    + cbn. rewrite (Hr _ _ He), (handles_on_delete _ _ _ eid Hs), decide_True by done. lia.
    + rewrite (Hr _ _ Hx), (handles_on_delete _ _ _ i Hs), decide_False by done. done.
  - intros k g [Hne Hg]%lookup_delete_Some. destruct (Hh k g Hg) as (y & Hy & H1 & H2).
    destruct (decide (h_entry g = eid)) as [Heq|Hne'].
    + exists e1. rewrite Heq in *. simplify_eq. rewrite lookup_insert_eq. split_and!; [done|by left|done].
    + exists y. rewrite lookup_insert_ne by done. split_and!; [done| |done]. destruct H1; [by left|right; auto].
  - intros mk i [Hi Hno]%Hsub. destruct (Hc mk i Hi) as (y & Hy & H1 & H2 & H3).
    assert (eid ≠ i) as Hne by (intros <-; by apply Hno; [eapply (Hky hid)|]).
    exists y. rewrite lookup_insert_ne by done. split_and!; [done..|]. intros v Hv. destruct (H3 v Hv) as (g & Hg & ? & Hown).
    exists g. split; [|done]. rewrite lookup_delete_ne; [done|]. intros <-. by eapply Hby.
  - intros mk1 mk2 i [H1 _]%Hsub [H2 _]%Hsub. by eapply Hj.
  - destruct Hcl as [H1 H2]. split; [done|]. intros i Hi. apply lookup_insert_is_Some'. right. auto.
  - intros i x [[<- <-]|[Hne Hx]]%lookup_insert_Some; [cbn; congruence|]. intros Hxs.
    destruct (Ho i x Hx Hxs) as [?|[mk' Hi]]; [by left|]. right. exists mk'. auto.
  - intros i x [[<- <-]|[Hne Hx]]%lookup_insert_Some; [cbn; congruence|by eapply Hog].
  - intros k g i [Hne Hg]%lookup_delete_Some Hown. destruct (Hw k g i Hg Hown) as (H1 & (y & Hy & Hv) & H2).
    assert (eid ≠ i) as Hne' by (intros <-; pose proof (Hvo _ _ _ Hy Hv); congruence).
    split_and!; [done| |].
    + exists y. by rewrite lookup_insert_ne by done.
    + destruct H2 as [[mk' Hi]|?]; [left; exists mk'; auto|by right].
  - destruct Hd as [H1 H2]. split; [done|]. intros k Hk. destruct (H2 k Hk) as (g & i & Hg & Hown & Hno). exists g, i.
    split_and!; [|done|].
    + rewrite lookup_delete_ne; [done|]. intros <-. by eapply Hby.
    + intros mk' [Hi _]%Hsub. by apply (Hno mk').
  - intros k g mk [_ Hg]%lookup_delete_Some [Hi _]%Hsub. by eapply Hky.
  - intros i x v [[<- <-]|[Hne Hx]]%lookup_insert_Some; [by apply (Hvo _ _ v He)|by eapply Hvo].
Qed.

(** ** Every interleaving *)

Lemma Inv_timer m mk eid : Inv m → Inv (timer_fire m mk eid).
Proof.
  intros HI. unfold timer_fire. destruct (m_entries m !! mk) as [cur|] eqn:Em; [|done].
  destruct (m_heap m !! eid) as [e|] eqn:He; [|done]. destruct (negb (cur =? eid)%nat || (0 <? te_ref e)%nat) eqn:E; bprop; [done|].
  subst. apply Inv_teardown; [done..|]. lia.
Qed.

Lemma Inv_step m m' : Inv m → step m m' → Inv m'.
Proof.
  intros HI Hst. destruct Hst as [m sharing endpoint|m mk ka eid hid Hfe Hfh|m eid e via He Hs Hv|m eid e He Hs|m hid h e Hs Hp He Hne|m hid h Hs Hp Hb|m hid h l1 l2 Hdue Hs|m mk eid].
  - unfold shareKey. destruct (String.eqb sharing TunnelSharePerEndpoint); [done|].
    destruct (String.eqb sharing TunnelSharePerConn); [|done]. by destruct HI; constructor.
  - by apply Inv_begin.
  - by apply Inv_open_ok.
  - by apply Inv_open_fail.
  - destruct (te_state e) eqn:Es; [done| |by apply Inv_return_failed].
    unfold acquire_return. rewrite Es. by eapply Inv_return_ok.
  - assert (m = mkMgr (m_entries m) (m_heap m) (m_handles m) (m_due m) (m_closed m) (m_connSeq m)) as Heq by by destruct m.
    destruct (inv_due m HI) as [Hnd Hd]. rewrite Heq at 1. apply Inv_release; try done.
    + intros mk i e' Hm He. by eapply via_not_by_caller.
    + intros x Hx. split; [done|]. intros ->. destruct (Hd hid Hx) as (g & i & Hg & Hown & _). congruence.
  - destruct (inv_due m HI) as [Hnd Hd]. destruct (Hd hid) as (g & i & Hg & Hown & Hno).
    { rewrite Hdue. set_solver. }
    simplify_eq. destruct (inv_owner m HI hid _ i Hs Hown) as (Hheld & _ & _).
    rewrite Hdue in Hnd. apply NoDup_app in Hnd as (Hn1 & Hn12 & [Hn2 Hn3]%NoDup_cons).
    apply Inv_release; try done.
    + intros mk j e' Hm He Hv. destruct (inv_cur m HI mk j Hm) as (y & Hy & _ & _ & H). simplify_eq.
      destruct (H hid Hv) as (g' & Hg' & _ & Hown'). simplify_eq. assert (j = i) as -> by congruence. by apply (Hno mk).
    + apply NoDup_app. split_and!; [done| |done]. intros x Hx Hx2. apply (Hn12 x Hx). set_solver.
    + intros x Hx. rewrite Hdue. split; [set_solver|]. intros ->. apply elem_of_app in Hx as [Hx|Hx]; [|done].
      apply (Hn12 hid Hx). set_solver.
    + intros x Hx Hne. rewrite Hdue in Hx. set_solver.
  - by apply Inv_timer.
Qed.

Lemma Inv_reachable m : reachable m → Inv m.
Proof.
  intros Hr. refine (rtc_ind_r (R := step) Inv NewTunnelManager Inv_init _ m Hr).
  intros y z _ Hst HI. by eapply Inv_step.
Qed.

(** ** What callers rely on *)

(** C14. Under any interleaving of acquires, opens, releases and idle timers, from an
    empty manager: a caller that holds a tunnel holds one that is open, current
    for its key and not closed, and so is the tunnel that one goes through; no
    tunnel is closed twice; and a tunnel that nobody holds is closed, or has its
    idle timer armed. *)
Theorem held_tunnel_stays_open m :
  reachable m →
  (∀ hid h, m_handles m !! hid = Some h → h_phase h = Held →
     ∃ e, m_heap m !! h_entry h = Some e ∧ te_state e = Opened ∧ m_entries m !! h_key h = Some (h_entry h) ∧
       h_entry h ∉ m_closed m ∧
       ∀ v, te_via e = Some v → ∃ h', m_handles m !! v = Some h' ∧ h_phase h' = Held) ∧
  NoDup (m_closed m) ∧
  (∀ eid e, m_heap m !! eid = Some e → te_state e = Opened → (∀ hid h, m_handles m !! hid = Some h → h_entry h ≠ eid) →
     eid ∈ m_closed m ∨ (te_timer e = true ∧ ∃ mk, m_entries m !! mk = Some eid)).
Proof.
  intros HI%Inv_reachable. split_and!.
  - intros hid h Hs Hp. destruct (inv_handle m HI hid h Hs) as (e & He & Hc & Ho). specialize (Ho Hp).
    destruct Hc as [Hf|Hc]; [congruence|]. destruct (inv_cur m HI _ _ Hc) as (y & Hy & Hn & _ & Hv). simplify_eq.
    exists e. split_and!; try done. intros v Hvv. destruct (Hv v Hvv) as (g & Hg & Hgp & _). eauto.
  - apply (inv_closed m HI).
  - intros eid e He Hs Hnone. destruct (inv_open m HI eid e He Hs) as [?|[mk Hm]]; [by left|]. right.
    destruct (inv_cur m HI mk eid Hm) as (y & Hy & _ & Ht & _). simplify_eq. split; [|eauto].
    apply Ht. rewrite (inv_ref m HI eid e He). unfold handles_on. apply map_size_empty_iff, map_empty_filter.
    intros k g Hg. exact (Hnone k g Hg).
Qed.

Definition demo_key : mgrKey := ("db", "", "f").

(** A manager with one open tunnel, in use. *)
Definition demo_open : Mgr :=
  mkMgr {[ demo_key := 0%nat ]} {[ 0%nat := mkTEntry 0 1 false Opened None ]}
    {[ 0%nat := mkHandle demo_key 0 Held ByCaller ]} [] [] 0.

Lemma demo_reachable : reachable demo_open.
Proof.
  eapply rtc_l; [exact (step_begin NewTunnelManager demo_key 0 0 0 eq_refl eq_refl)|].
  eapply rtc_l; [apply (step_open_ok _ 0 (mkTEntry 0 1 false Opening None) None); [reflexivity|reflexivity|exact I]|].
  eapply rtc_l; [apply (step_return _ 0 (mkHandle demo_key 0 Pending ByCaller) (mkTEntry 0 1 false Opened None)); [reflexivity..|discriminate]|].
  apply rtc_refl.
Qed.

Lemma held_tunnel_stays_open_witness :
  reachable demo_open ∧ NoDup (m_closed demo_open).
Proof. split; [exact demo_reachable|]. exact (proj1 (proj2 (held_tunnel_stays_open demo_open demo_reachable))). Defined.

(** A forced eviction breaks this: the release closure of a caller that held the
    evicted tunnel names its key, so it releases the tunnel another caller has
    opened since under that key, which is closed in use. *)
Theorem disconnect_closes_tunnel_in_use m hid h e eid2 hid2 :
  reachable m → m_handles m !! hid = Some h → h_phase h = Held → m_heap m !! h_entry h = Some e →
  m_heap m !! eid2 = None → m_handles m !! hid2 = None →
  let m1 := disconnect_entry m (h_key h) (h_entry h) e in
  let m2 := acquire_begin m1 (h_key h) 0 eid2 hid2 in
  ∃ e2 e3 h2, m_heap m2 !! eid2 = Some e2 ∧ te_state e2 = Opening ∧ m_handles m2 !! hid2 = Some h2 ∧
    let m3 := open_ok m2 eid2 e2 None in
    m_heap m3 !! eid2 = Some e3 ∧
    let m5 := run_release (acquire_return m3 hid2 h2 e3) hid h in
    eid2 ∈ m_closed m5 ∧ ∃ h5, m_handles m5 !! hid2 = Some h5 ∧ h_phase h5 = Held ∧ h_entry h5 = eid2.
Proof.
  intros HI%Inv_reachable Hs Hp He Hf Hfh. destruct (inv_handle m HI hid h Hs) as (y & Hy & Hc & Ho). simplify_eq. specialize (Ho Hp).
  destruct Hc as [Hf'|Hc]; [congruence|]. assert (hid2 ≠ hid) as Hne by (intros ->; congruence).
  assert (eid2 ≠ h_entry h) as Hne2 by (intros ->; congruence).
  unfold disconnect_entry. rewrite Hc, Nat.eqb_refl. unfold teardown, acquire_begin. cbn.
  rewrite lookup_delete_eq. exists (mkTEntry 0 1 false Opening None), (mkTEntry 0 1 false Opened None), (mkHandle (h_key h) eid2 Pending ByCaller).
  cbn. rewrite !lookup_insert_eq. split_and!; try done.
  - unfold run_release, releaseEntry, acquire_return. cbn. rewrite !lookup_insert_eq. cbn. set_solver.
  - unfold run_release, releaseEntry, acquire_return. cbn. rewrite !lookup_insert_eq. cbn.
    eexists. rewrite lookup_delete_ne, lookup_insert_eq by done. done.
Qed.

Lemma disconnect_closes_tunnel_in_use_witness :
  ∃ m5 h5, 1%nat ∈ m_closed m5 ∧ m_handles m5 !! 1%nat = Some h5 ∧ h_phase h5 = Held ∧ h_entry h5 = 1%nat.
Proof.
  destruct (disconnect_closes_tunnel_in_use demo_open 0 (mkHandle demo_key 0 Held ByCaller) (mkTEntry 0 1 false Opened None) 1 1
    demo_reachable eq_refl eq_refl eq_refl eq_refl eq_refl) as (e2 & e3 & h2 & _ & _ & _ & _ & Hc & h5 & H5).
  eexists _, h5. split; [exact Hc|exact H5].
Defined.

(** ** Reloads *)

(** After a reload exactly the pins of the new policy that could be acquired are
    held; those held before keep their handle, and no handle still held is
    released. *)
Lemma set_policy_pins fp acquire pinned policy mk hid :
  let want := match policy with Some tunnels => wantPin fp tunnels | None => ∅ end in
  fst (SetPolicy fp acquire pinned policy) !! mk = Some hid ↔
  ∃ ct, want !! mk = Some ct ∧
    (pinned !! mk = Some hid ∨ (pinned !! mk = None ∧ acquire ct = Some hid)).
Proof.
  cbn zeta. unfold SetPolicy. set (want := match policy with Some _ => _ | None => _ end). cbn.
  rewrite lookup_union_Some_raw, lookup_omap, map_lookup_filter_Some. cbn. split.
  - intros [Hn|[_ [Hp [ct Hw]]]]; [|eauto]. apply bind_Some in Hn as (ct & [Hw Hp]%map_lookup_filter_Some & Ha). eauto.
  - intros (ct & Hw & [Hp|[Hp Ha]]).
    + right. split; [|by eauto]. rewrite bind_None. left. apply map_lookup_filter_None. right. cbn. intros ct' _. congruence.
    + left. apply bind_Some. exists ct. split; [|done]. by apply map_lookup_filter_Some.
Qed.
