(* ===== verification/RelayDest.v ===== *)
(** * Destinations the agent chooses: [cmd/clawpatrol/relay_dest.go]

    The classification of a relay destination, the ranges of Tailscale's
    [tsaddr] package it uses, and the resolve-then-dial path. *)
From S2P Require Import Prelude GoStrings NetAddr Policy.

(** ** [tsaddr] *)

Definition ChromeOSVMRange : Prefix := MustParsePrefix "100.115.92.0/23".
Definition CGNATRange : Prefix := MustParsePrefix "100.64.0.0/10".
Definition TailscaleULARange : Prefix := MustParsePrefix "fd7a:115c:a1e0::/48".
Definition TailscaleViaRange : Prefix := MustParsePrefix "fd7a:115c:a1e0:b1a::/64".

(** [netip.AddrFrom4] of four consecutive bytes of [As16]. *)
Definition v4_at (i : nat) (a : Addr) : Addr :=
  let b := byte_at 16 in
  AddrFrom4 (b i (As16 a)) (b (i + 1)%nat (As16 a)) (b (i + 2)%nat (As16 a)) (b (i + 3)%nat (As16 a)).

Definition UnmapVia (ip : Addr) : Addr :=
  if prefix_Contains TailscaleViaRange ip then v4_at 12 ip else ip.

(** ** Classification *)

Record relayDestRefusal := mkRefusal {
  ref_class : string;
  ref_addr : Addr;
  (** the zero address when the refusal is for the dialled address itself *)
  ref_via : Addr
}.

Record relayDestPolicy := mkRelayPolicy {
  rdp_mode : string;
  rdp_allow : list Prefix;
  rdp_tailnet : bool
}.

Definition relayDestPublic : string := "public".
Definition relayDestAny : string := "any".

(** A returned error; [None] is nil. *)
Definition refuseDest (class : string) (addr : Addr) : option relayDestRefusal :=
  Some (mkRefusal class addr AddrZero).

Definition thisNetworkV4 : Prefix := MustParsePrefix "0.0.0.0/8".
Definition broadcastV4 : Addr := default AddrZero (ParseAddr "255.255.255.255").
Definition teredoRange : Prefix := MustParsePrefix "2001::/32".
Definition v4Compatible : Prefix := MustParsePrefix "::/96".
Definition nat64Prefix : Prefix := MustParsePrefix "64:ff9b::/96".
Definition sixToFour : Prefix := MustParsePrefix "2002::/16".

Definition embeddedV4 (ip : Addr) : option Addr :=
  if negb (Is6 ip) then None
  else
    let via := UnmapVia ip in
    if negb (addr_eqb via ip) then Some via
    else if prefix_Contains sixToFour ip then Some (v4_at 2 ip)
    else if prefix_Contains nat64Prefix ip then Some (v4_at 12 ip)
    else if prefix_Contains v4Compatible ip && negb (IsUnspecified ip) && negb (IsLoopback ip)
    then Some (v4_at 12 ip)
    else None.

Definition isTailnetAddr (ip : Addr) : bool :=
  if prefix_Contains CGNATRange ip then negb (prefix_Contains ChromeOSVMRange ip)
  else prefix_Contains TailscaleULARange ip.

(** The [switch] on the class of an address. *)
Definition refused_class (ip : Addr) : option relayDestRefusal :=
  if IsUnspecified ip then refuseDest "the unspecified address" ip
  else if IsLoopback ip then refuseDest "loopback" ip
  else if IsLinkLocalUnicast ip then refuseDest "link-local" ip
  else if IsInterfaceLocalMulticast ip then refuseDest "interface-local multicast" ip
  else if IsMulticast ip then refuseDest "multicast" ip
  else if IsPrivate ip then refuseDest "private" ip
  else if prefix_Contains CGNATRange ip then refuseDest "carrier-grade NAT" ip
  else if prefix_Contains thisNetworkV4 ip then refuseDest "this network" ip
  else if addr_eqb ip broadcastV4 then refuseDest "the broadcast address" ip
  else if prefix_Contains teredoRange ip then refuseDest "Teredo" ip
  else None.

Definition allowlisted (policy : relayDestPolicy) (ip : Addr) : bool :=
  existsb (λ p, prefix_Contains p ip) (rdp_allow policy).

(** The body of [relayDestAllowed], with its recursive call as an argument. *)
Definition relayDest_body (rec : Addr -> option relayDestRefusal) (ip : Addr) (policy : relayDestPolicy)
    : option relayDestRefusal :=
  if negb (IsValid ip) then refuseDest "not an address" ip
  else
    let ip := Unmap ip in
    if String.eqb (rdp_mode policy) relayDestAny then None
    else if negb (String.eqb (Zone ip) "") then refuseDest "scoped to an interface of this host" ip
    else if allowlisted policy ip then None
    else
      let inner := embeddedV4 ip in
      match match inner with Some i => rec i | None => None end, inner with
      | Some refusal, Some i => Some (mkRefusal (ref_class refusal) ip i)
      | _, _ =>
          if rdp_tailnet policy && isTailnetAddr ip then None else refused_class ip
      end.

(** The recursive call is on the IPv4 inside an IPv6, and an IPv4 makes none:
    two levels are the whole recursion ([relayDestAllowed_eq]). *)
Definition relayDestAllowed (ip : Addr) (policy : relayDestPolicy) : option relayDestRefusal :=
  relayDest_body (λ inner, relayDest_body (λ _, None) inner policy) ip policy.

(** [Gateway.relayDestPolicy]: [tailnet] is [g.tsnetLC != nil]. *)
Definition Gateway_relayDestPolicy (tailnet : bool) (policy : option CompiledPolicy) : relayDestPolicy :=
  match policy with
  | None => mkRelayPolicy relayDestPublic [] tailnet
  | Some p =>
      mkRelayPolicy (if String.eqb (pol_RelayDestinations p) "" then relayDestPublic else pol_RelayDestinations p)
        (pol_RelayAllowCIDRs p) tailnet
  end.

Inductive RelayError :=
| NotAnAddress (s : string)
| Refused (r : relayDestRefusal)
| NoAddressFor (host : string)
| ResolveFailed (e : string)
| DialFailed (e : string).

Definition relayDestOK (tailnet : bool) (policy : option CompiledPolicy) (dstIP : string) : result unit RelayError :=
  match ParseAddr dstIP with
  | None => Err (NotAnAddress dstIP)
  | Some ip => match relayDestAllowed ip (Gateway_relayDestPolicy tailnet policy) with
               | None => Ok tt
               | Some r => Err (Refused r)
               end
  end.

(** ** Resolve and dial *)

(** Nanoseconds. *)
Definition relayDialTimeout : Z := 10 * 10 ^ 9.
Definition relayDialFloor : Z := 2 * 10 ^ 9.

Section Dial.
Context {Conn : Type}.
(** The resolver ([net.Resolver]) and the dialer ([DialContext] on a literal
    address and port, within a budget). *)
Context (LookupNetIP : string -> result (list Addr) string).
Context (DialContext : Z -> Addr -> Z -> result Conn string).

Definition resolveRelayHost (host : string) : result (list Addr) RelayError :=
  match ParseAddr host with
  | Some ip => Ok [ip]
  | None =>
      match LookupNetIP host with
      | Err e => Err (ResolveFailed e)
      | Ok [] => Err (NoAddressFor host)
      | Ok addrs => Ok addrs
      end
  end.

Definition first_refusal (policy : relayDestPolicy) (addrs : list Addr) : option relayDestRefusal :=
  foldr (λ ip rest, match relayDestAllowed ip policy with Some r => Some r | None => rest end) None addrs.

(** [relayDialTimeout / len(addrs)]; [None] is the panic of a zero divisor. *)
Definition dial_budget (n : nat) : option Z :=
  if (n =? 0)%nat then None
  else let per := relayDialTimeout `quot` Z.of_nat n in
       Some (if per <? relayDialFloor then relayDialFloor else per).

(** The dial loop: the addresses dialled, in order, and the outcome. *)
Fixpoint dial_loop (host : string) (per port : Z) (addrs : list Addr) (lastErr : option RelayError)
    : list Addr * result Conn RelayError :=
  match addrs with
  | [] => ([], Err (default (NoAddressFor host) lastErr))
  | ip :: rest =>
      match DialContext per ip port with
      | Ok conn => ([ip], Ok conn)
      | Err e => let '(tr, r) := dial_loop host per port rest (Some (DialFailed e)) in (ip :: tr, r)
      end
  end.

(** The dials made and the outcome; [None] is a panic. *)
Definition dialRelayHost (policy : relayDestPolicy) (host : string) (port : Z)
    : option (list Addr * result Conn RelayError) :=
  match resolveRelayHost host with
  | Err e => Some ([], Err e)
  | Ok addrs =>
      match first_refusal policy addrs with
      | Some r => Some ([], Err (Refused r))
      | None => (λ per, dial_loop host per port addrs None) <$> dial_budget (length addrs)
      end
  end.
End Dial.

(** ** The ranges, as intervals *)

Definition between (lo v hi : Z) : bool := (lo <=? v) && (v <=? hi).

(** Shared address space (RFC 6598), and the part ChromeOS uses. *)
Definition cgnat_v4 (v : Z) : bool := between (ip4 100 64 0 0) v (ip4 100 127 255 255).
Definition chromeos_v4 (v : Z) : bool := between (ip4 100 115 92 0) v (ip4 100 115 93 255).

(** The IPv4 destinations "public" refuses, apart from shared address space. *)
Definition internal_v4 (v : Z) : bool :=
  between (ip4 0 0 0 0) v (ip4 0 255 255 255) ||            (* this network *)
  between (ip4 10 0 0 0) v (ip4 10 255 255 255) ||          (* private *)
  between (ip4 127 0 0 0) v (ip4 127 255 255 255) ||        (* loopback *)
  between (ip4 169 254 0 0) v (ip4 169 254 255 255) ||      (* link-local, metadata services *)
  between (ip4 172 16 0 0) v (ip4 172 31 255 255) ||        (* private *)
  between (ip4 192 168 0 0) v (ip4 192 168 255 255) ||      (* private *)
  between (ip4 224 0 0 0) v (ip4 239 255 255 255) ||        (* multicast *)
  (v =? ip4 255 255 255 255).                               (* broadcast *)

(** An IPv6 range given by the value of its leading [bits] bits. *)
Definition v6_top (bits v : Z) : Z := v / 2 ^ (128 - bits).

(** Tailscale's ULA, [fd7a:115c:a1e0::/48]. *)
Definition tailscale_ula (v : Z) : bool := v6_top 48 v =? 0xfd7a115ca1e0.

Definition internal_v6 (v : Z) : bool :=
  (v =? 0) || (v =? 1) ||                  (* unspecified, loopback *)
  (v6_top 10 v =? 0x3fa) ||                 (* fe80::/10, link-local *)
  (v6_top 8 v =? 0xff) ||                  (* ff00::/8, multicast *)
  (v6_top 7 v =? 0x7e) ||                   (* fc00::/7, unique local *)
  (v6_top 32 v =? 0x20010000).              (* 2001::/32, Teredo *)

(** The IPv4 address a dial of this IPv6 reaches, when the IPv6 is an encoding
    of one: 4via6, 6to4, NAT64, IPv4-compatible. *)
Definition carried (v : Z) : option Z :=
  if v6_top 64 v =? 0xfd7a115ca1e00b1a then Some (v mod 2 ^ 32)
  else if v6_top 16 v =? 0x2002 then Some (v / 2 ^ 80 mod 2 ^ 32)
  else if v6_top 96 v =? 0x0064ff9b0000000000000000 then Some (v mod 2 ^ 32)
  else if (v6_top 96 v =? 0) && negb (v =? 0) && negb (v =? 1) then Some (v mod 2 ^ 32)
  else None.

(** ** Lemmas: the code's tests are these intervals *)

(** Four consecutive bytes of a 16-byte address are a slice of its value. *)
Lemma v4_at_slice (i : nat) v z :
  (i <= 12)%nat → v4_at i (Addr6 v z) = Addr4 (v / 2 ^ (8 * (12 - Z.of_nat i)) mod 2 ^ 32).
Proof.
  intros Hi. unfold v4_at, AddrFrom4. cbn [As16]. f_equal.
  rewrite from_bytes4 by apply byte_at_range. rewrite !byte_at_div by lia.
  set (u := v / 2 ^ (8 * (12 - Z.of_nat i))).
  assert (∀ k, 0 <= k → v / 2 ^ (8 * (12 - Z.of_nat i) + k) = u / 2 ^ k) as Hu.
  { intros k Hk. unfold u. rewrite Z.pow_add_r, Z.div_div by lia. done. }
  replace (8 * (Z.of_nat 16 - 1 - Z.of_nat i)) with (8 * (12 - Z.of_nat i) + 24) by lia.
  replace (8 * (Z.of_nat 16 - 1 - Z.of_nat (i + 1))) with (8 * (12 - Z.of_nat i) + 16) by lia.
  replace (8 * (Z.of_nat 16 - 1 - Z.of_nat (i + 2))) with (8 * (12 - Z.of_nat i) + 8) by lia.
  replace (8 * (Z.of_nat 16 - 1 - Z.of_nat (i + 3))) with (8 * (12 - Z.of_nat i) + 0) by lia.
  rewrite !Hu by lia. clearbody u. clear. unfold ip4. rewrite Z.pow_0_r, Z.div_1_r.
  replace (2 ^ 32) with (2 ^ 8 * (2 ^ 8 * (2 ^ 8 * 2 ^ 8))) by lia.
  rewrite !(Z.rem_mul_r _ (2 ^ 8)), !Z.div_div, <- !Z.pow_add_r by lia.
  change 256 with (2 ^ 8). change (8 + 8) with 16. change (16 + 8) with 24. lia.
Qed.

#[local] Ltac Zify.zify_post_hook ::= Z.div_mod_to_equations.

Lemma byte4 v :
  0 <= v < 2 ^ 32 → byte_at 4 0 v = v / 16777216 ∧ byte_at 4 1 v = v / 65536 mod 256.
Proof.
  intros Hv. rewrite !byte_at_div by lia. change (2 ^ (8 * (Z.of_nat 4 - 1 - Z.of_nat 0))) with 16777216.
  change (2 ^ (8 * (Z.of_nat 4 - 1 - Z.of_nat 1))) with 65536. split; [|done]. apply Z.mod_small.
  change (2 ^ 32) with 4294967296 in Hv. lia.
Qed.

Lemma nibble_high x : 0 <= x < 256 → Z.land x 240 = x / 16 * 16.
Proof. intros. by apply (land_mask_high x 8 4). Qed.

(** Decide a boolean equation between interval tests. *)
Ltac intervals :=
  apply eq_true_iff_eq; unfold between, ip4;
  repeat (rewrite ?andb_true_iff, ?orb_true_iff, ?Z.eqb_eq, ?Z.leb_le); lia.

Section V4.
Context (v : Z) (Hv : 0 <= v < 2 ^ 32).

Lemma loopback_v4 : IsLoopback (Addr4 v) = between (ip4 127 0 0 0) v (ip4 127 255 255 255).
Proof. unfold IsLoopback. cbn [Unmap]. rewrite (proj1 (byte4 v Hv)). intervals. Qed.

Lemma linklocal_v4 : IsLinkLocalUnicast (Addr4 v) = between (ip4 169 254 0 0) v (ip4 169 254 255 255).
Proof.
  unfold IsLinkLocalUnicast. cbn [Unmap]. destruct (byte4 v Hv) as [-> ->]. intervals.
Qed.

Lemma multicast_v4 : IsMulticast (Addr4 v) = between (ip4 224 0 0 0) v (ip4 239 255 255 255).
Proof.
  unfold IsMulticast. cbn [Unmap]. destruct (byte4 v Hv) as [-> _].
  rewrite nibble_high by (change (2 ^ 32) with 4294967296 in Hv; lia). intervals.
Qed.

Lemma private_v4 : IsPrivate (Addr4 v) =
  between (ip4 10 0 0 0) v (ip4 10 255 255 255) || between (ip4 172 16 0 0) v (ip4 172 31 255 255) ||
  between (ip4 192 168 0 0) v (ip4 192 168 255 255).
Proof.
  unfold IsPrivate. cbn [Unmap]. destruct (byte4 v Hv) as [-> ->].
  rewrite nibble_high by lia. intervals.
Qed.

Lemma prefix_v4 p pv bits lo hi :
  p = mkPrefix (Addr4 pv) bits → 0 <= bits <= 32 →
  lo = pv / 2 ^ (32 - bits) * 2 ^ (32 - bits) → hi = lo + 2 ^ (32 - bits) - 1 →
  prefix_Contains p (Addr4 v) = between lo v hi.
Proof.
  intros -> Hb -> ->. unfold prefix_Contains, prefix_hi. cbn [prefix_addr prefix_bits].
  rewrite !Z.shiftr_div_pow2 by lia. apply eq_true_iff_eq. unfold between.
  rewrite andb_true_iff, !Z.leb_le, Z.eqb_eq. assert (0 < 2 ^ (32 - bits)) as Hp by lia.
  set (q := 2 ^ (32 - bits)) in *. split.
  - intros ->. pose proof (Z.div_mod v q ltac:(lia)). pose proof (Z.mod_pos_bound v q Hp). lia.
  - intros [? ?]. apply (Z.div_unique v q _ (v - pv / q * q)); lia.
Qed.

Lemma cgnat_v4_spec : prefix_Contains CGNATRange (Addr4 v) = cgnat_v4 v.
Proof. by apply (prefix_v4 _ (ip4 100 64 0 0) 10). Qed.

Lemma chromeos_v4_spec : prefix_Contains ChromeOSVMRange (Addr4 v) = chromeos_v4 v.
Proof. by apply (prefix_v4 _ (ip4 100 115 92 0) 23). Qed.

Lemma thisnet_v4_spec : prefix_Contains thisNetworkV4 (Addr4 v) = between (ip4 0 0 0 0) v (ip4 0 255 255 255).
Proof. by apply (prefix_v4 _ 0 8). Qed.

Lemma refused_class_v4 :
  refused_class (Addr4 v) = None ↔ internal_v4 v = false ∧ cgnat_v4 v = false.
Proof.
  unfold refused_class. rewrite loopback_v4, linklocal_v4, multicast_v4, private_v4, cgnat_v4_spec, thisnet_v4_spec.
  unfold internal_v4. change (IsInterfaceLocalMulticast (Addr4 v)) with false.
  change (prefix_Contains teredoRange (Addr4 v)) with false.
  assert (addr_eqb (Addr4 v) broadcastV4 = (v =? ip4 255 255 255 255)) as ->.
  { unfold addr_eqb. change broadcastV4 with (Addr4 (ip4 255 255 255 255)).
    apply eq_true_iff_eq. rewrite bool_decide_eq_true, Z.eqb_eq. naive_solver. }
  cbn [IsUnspecified]. assert ((v =? 0) = true → between (ip4 0 0 0 0) v (ip4 0 255 255 255) = true) as H0.
  { rewrite Z.eqb_eq. by intros ->. }
  destruct (v =? 0); [rewrite H0 by done; by split; [|intros [? _]]|]. clear H0.
  do 6 (destruct (between _ v _); cbn [orb]; [split; [done|intros [? ?]; bprop; done]|]).
  destruct (cgnat_v4 v); [by split; [|intros [? ?]]|].
  destruct (between _ v _); cbn [orb]; [split; [done|intros [? ?]; bprop; done]|].
  by destruct (v =? _); split; [|intros [? ?]| |].
Qed.
End V4.

Lemma embedded_is4 ip inner : embeddedV4 ip = Some inner → ∃ w, inner = Addr4 w.
Proof.
  unfold embeddedV4, UnmapVia, v4_at, AddrFrom4. intros H.
  destruct (negb (Is6 ip)); [done|]. destruct (prefix_Contains TailscaleViaRange ip).
  - destruct (negb (addr_eqb _ _)); repeat (dcase_in H; try done); simplify_eq; eauto.
  - destruct (negb (addr_eqb _ _)) eqn:E; [|repeat (dcase_in H; try done); simplify_eq; eauto].
    unfold addr_eqb in E. by rewrite bool_decide_eq_true_2 in E.
Qed.

Lemma relayDest_body_v4 rec1 rec2 w policy :
  relayDest_body rec1 (Addr4 w) policy = relayDest_body rec2 (Addr4 w) policy.
Proof. done. Qed.

(** [relayDestAllowed] satisfies the recursive equation of the source. *)
Lemma relayDestAllowed_eq ip policy :
  relayDestAllowed ip policy = relayDest_body (λ inner, relayDestAllowed inner policy) ip policy.
Proof.
  unfold relayDestAllowed at 1, relayDest_body at 1 3. destruct (negb (IsValid ip)); [done|]. cbv zeta.
  destruct (embeddedV4 (Unmap ip)) as [inner|] eqn:E; [|done].
  destruct (embedded_is4 _ _ E) as [w ->]. done.
Qed.

(** What a verdict depends on once the address is unmapped. *)
Lemma relayDest_unmapped ip policy :
  IsValid ip = true → Unmap ip = ip → rdp_mode policy ≠ relayDestAny →
  relayDestAllowed ip policy = None ↔
  Zone ip = "" ∧ (allowlisted policy ip = true ∨
    (∀ inner, embeddedV4 ip = Some inner → relayDestAllowed inner policy = None) ∧
    (rdp_tailnet policy && isTailnetAddr ip = true ∨ refused_class ip = None)).
Proof.
  intros Hval Hu Hm. rewrite relayDestAllowed_eq. unfold relayDest_body. rewrite Hval, Hu. cbn [negb]. cbv zeta.
  rewrite (proj2 (String.eqb_neq _ _) Hm). destruct (String.eqb_spec (Zone ip) "") as [Hz|Hz]; cbn [negb];
    [|by split; [|intros [? _]]].
  destruct (allowlisted policy ip); [naive_solver|].
  destruct (embeddedV4 ip) as [inner|].
  - destruct (relayDestAllowed inner policy) as [r|] eqn:Er.
    + split; [done|]. intros [_ [?|[Hin _]]]; [done|]. by rewrite Hin in Er.
    + destruct (rdp_tailnet policy && isTailnetAddr ip); naive_solver.
  - destruct (rdp_tailnet policy && isTailnetAddr ip); naive_solver.
Qed.

Section V6.
Context (v : Z) (Hv : 0 <= v < 2 ^ 128) (Hmapped : Is4In6 (Addr6 v "") = false).

Lemma unmap_v6 : Unmap (Addr6 v "") = Addr6 v "".
Proof. unfold Unmap. by rewrite Hmapped. Qed.

Lemma prefix_v6 p pv bits top :
  p = mkPrefix (Addr6 pv "") bits → 0 <= bits <= 128 → top = pv / 2 ^ (128 - bits) →
  prefix_Contains p (Addr6 v "") = (v6_top bits v =? top).
Proof.
  intros -> Hb ->. unfold prefix_Contains, prefix_hi, v6_top. cbn [prefix_addr prefix_bits].
  rewrite !Z.shiftr_div_pow2 by lia. rewrite String.eqb_refl, andb_true_l. apply Z.eqb_sym.
Qed.

Lemma v6_top_shift a b : 0 <= b <= a → a <= 128 → v6_top b v = v6_top a v / 2 ^ (a - b).
Proof.
  intros. unfold v6_top. rewrite Z.div_div by lia. rewrite <- Z.pow_add_r by lia. do 2 f_equal. lia.
Qed.

Lemma v6_top_bound a : 0 <= a <= 128 → 0 <= v6_top a v < 2 ^ a.
Proof.
  intros. unfold v6_top. split; [apply Z.div_pos; lia|]. apply Z.div_lt_upper_bound; [lia|].
  rewrite <- Z.pow_add_r by lia. replace (128 - a + a) with 128 by lia. lia.
Qed.

Lemma loopback_v6 : IsLoopback (Addr6 v "") = (v =? 1).
Proof. unfold IsLoopback. by rewrite unmap_v6. Qed.

Lemma linklocal_v6 : IsLinkLocalUnicast (Addr6 v "") = (v6_top 10 v =? 0x3fa).
Proof.
  unfold IsLinkLocalUnicast. rewrite unmap_v6, Z.shiftr_div_pow2 by lia. fold (v6_top 16 v).
  pose proof (v6_top_bound 16 ltac:(lia)) as Hb. rewrite (v6_top_shift 16 10) by lia.
  change (v / 2 ^ 112) with (v6_top 16 v). set (x := v6_top 16 v) in *.
  change 65472 with (2 ^ 16 - 2 ^ 6). rewrite land_mask_high by lia.
  change (2 ^ (16 - 10)) with (2 ^ 6). change (2 ^ 6) with 64. apply eq_true_iff_eq. rewrite !Z.eqb_eq. lia.
Qed.

Lemma multicast_v6 : IsMulticast (Addr6 v "") = (v6_top 8 v =? 0xff).
Proof. unfold IsMulticast. rewrite unmap_v6, Z.shiftr_div_pow2 by lia. done. Qed.

Lemma ifmulticast_v6 : IsInterfaceLocalMulticast (Addr6 v "") = true → v6_top 8 v = 0xff.
Proof.
  unfold IsInterfaceLocalMulticast. rewrite Hmapped. cbn [negb andb]. rewrite Z.eqb_eq. intros H.
  apply (f_equal (λ x, Z.shiftr x 8)) in H. rewrite Z.shiftr_land, Z.shiftr_shiftr in H by lia.
  change (Z.shiftr 65295 8) with (2 ^ 8 - 1) in H. change (Z.shiftr 65281 8) with 255 in H.
  rewrite land_mask_low, Z.shiftr_div_pow2 in H by lia. change (v / 2 ^ (112 + 8)) with (v6_top 8 v) in H.
  pose proof (v6_top_bound 8 ltac:(lia)). rewrite Z.mod_small in H by done. done.
Qed.

Lemma private_v6 : IsPrivate (Addr6 v "") = (v6_top 7 v =? 0x7e).
Proof.
  unfold IsPrivate. rewrite unmap_v6, Z.shiftr_div_pow2 by lia. change (v / 2 ^ 120) with (v6_top 8 v).
  pose proof (v6_top_bound 8 ltac:(lia)) as Hb. rewrite (v6_top_shift 8 7) by lia. set (x := v6_top 8 v) in *.
  change 254 with (2 ^ 8 - 2 ^ 1). rewrite land_mask_high by lia.
  change (2 ^ (8 - 7)) with 2. change (2 ^ 1) with 2. apply eq_true_iff_eq. rewrite !Z.eqb_eq. lia.
Qed.

Lemma refused_class_v6 : refused_class (Addr6 v "") = None ↔ internal_v6 v = false.
Proof.
  unfold refused_class, internal_v6.
  rewrite loopback_v6, linklocal_v6, multicast_v6, private_v6.
  rewrite (prefix_v6 teredoRange (0x20010000 * 2 ^ 96) 32 0x20010000) by done.
  change (prefix_Contains CGNATRange (Addr6 v "")) with false.
  change (prefix_Contains thisNetworkV4 (Addr6 v "")) with false.
  change (addr_eqb (Addr6 v "") broadcastV4) with false.
  cbn [IsUnspecified]. rewrite String.eqb_refl, andb_true_r.
  destruct (v =? 0), (v =? 1), (v6_top 10 v =? 0x3fa); cbn [orb]; try done.
  destruct (IsInterfaceLocalMulticast (Addr6 v "")) eqn:Ei.
  - rewrite (ifmulticast_v6 Ei). done.
  - by destruct (v6_top 8 v =? 0xff), (v6_top 7 v =? 0x7e), (v6_top 32 v =? 0x20010000).
Qed.

Lemma embedded_v6 : embeddedV4 (Addr6 v "") = Addr4 <$> carried v.
Proof.
  unfold embeddedV4, carried, UnmapVia. cbn [Is6 negb]. cbv zeta. rewrite loopback_v6.
  rewrite (prefix_v6 TailscaleViaRange (0xfd7a115ca1e00b1a * 2 ^ 64) 64 0xfd7a115ca1e00b1a) by done.
  rewrite (prefix_v6 sixToFour (0x2002 * 2 ^ 112) 16 0x2002) by done.
  rewrite (prefix_v6 nat64Prefix (0x0064ff9b0000000000000000 * 2 ^ 32) 96 0x0064ff9b0000000000000000) by done.
  rewrite (prefix_v6 v4Compatible 0 96 0) by done.
  cbn [IsUnspecified]. rewrite String.eqb_refl, andb_true_r, !v4_at_slice by lia.
  change (8 * (12 - Z.of_nat 12)) with 0. change (8 * (12 - Z.of_nat 2)) with 80.
  rewrite Z.pow_0_r, Z.div_1_r. destruct (v6_top 64 v =? _).
  - unfold addr_eqb. by rewrite bool_decide_eq_false_2.
  - unfold addr_eqb. rewrite bool_decide_eq_true_2 by done. cbn [negb].
    destruct (v6_top 16 v =? _); [done|]. destruct (v6_top 96 v =? 0x0064ff9b0000000000000000); [done|].
    by destruct (_ && _ && _).
Qed.

Lemma tailnet_v6 : isTailnetAddr (Addr6 v "") = tailscale_ula v.
Proof.
  unfold isTailnetAddr. change (prefix_Contains CGNATRange (Addr6 v "")) with false. cbv iota.
  by apply (prefix_v6 TailscaleULARange (0xfd7a115ca1e0 * 2 ^ 80)).
Qed.
End V6.

Lemma relay_v4_iff v policy :
  0 <= v < 2 ^ 32 → rdp_mode policy ≠ relayDestAny →
  relayDestAllowed (Addr4 v) policy = None ↔
    allowlisted policy (Addr4 v) = true ∨
    (rdp_tailnet policy = true ∧ cgnat_v4 v = true ∧ chromeos_v4 v = false) ∨
    (internal_v4 v = false ∧ cgnat_v4 v = false).
Proof.
  intros Hv Hm. rewrite relayDest_unmapped by done. rewrite refused_class_v4 by done.
  unfold isTailnetAddr. rewrite cgnat_v4_spec, chromeos_v4_spec by done.
  change (prefix_Contains TailscaleULARange (Addr4 v)) with false.
  change (embeddedV4 (Addr4 v)) with (@None Addr).
  destruct (rdp_tailnet policy), (cgnat_v4 v), (chromeos_v4 v); naive_solver.
Qed.

(** ** Properties *)

(** An IPv4 destination is dialled under any mode but "any" exactly when the
    operator listed it, when it is a tailnet address of a gateway on a tailnet,
    or when it lies outside this-network, private, loopback, link-local (cloud
    metadata), multicast, shared and broadcast space. *)
Theorem relay_v4_exact v policy :
  0 <= v < 2 ^ 32 → rdp_mode policy ≠ relayDestAny →
  relayDestAllowed (Addr4 v) policy = None ↔
    allowlisted policy (Addr4 v) = true ∨
    (rdp_tailnet policy = true ∧ cgnat_v4 v = true ∧ chromeos_v4 v = false) ∨
    (internal_v4 v = false ∧ cgnat_v4 v = false).
Proof. apply relay_v4_iff. Qed.

(** C33. An IPv6 destination is judged by where its dial lands. An IPv4-mapped one
    is its IPv4. Any other must carry no zone and be listed by the operator, or
    else be outside the internal IPv6 ranges (Tailscale's own aside, on a
    tailnet) and, when it encodes an IPv4 by 4via6, 6to4, NAT64 or the
    compatible form, encode one that may itself be dialled. *)
Theorem relay_v6_exact v z policy :
  0 <= v < 2 ^ 128 → rdp_mode policy ≠ relayDestAny →
  relayDestAllowed (Addr6 v z) policy = None ↔
  if v / 2 ^ 32 =? 0xffff then relayDestAllowed (Addr4 (v mod 2 ^ 32)) policy = None
  else z = "" ∧
    (allowlisted policy (Addr6 v "") = true ∨
     (∀ w, carried v = Some w → relayDestAllowed (Addr4 w) policy = None) ∧
     (rdp_tailnet policy && tailscale_ula v = true ∨ internal_v6 v = false)).
Proof.
  intros Hv Hm. destruct (v / 2 ^ 32 =? 0xffff) eqn:E4.
  - unfold relayDestAllowed at 1, relayDest_body at 1. cbn [IsValid negb].
    assert (Unmap (Addr6 v z) = Addr4 (v mod 2 ^ 32)) as ->; [|done].
    unfold Unmap, Is4In6, v4mapped_hi. rewrite Z.shiftr_div_pow2, E4 by lia. f_equal. by apply land_mask_low.
  - assert (∀ z', Is4In6 (Addr6 v z') = false) as H4
      by (intros; unfold Is4In6, v4mapped_hi; by rewrite Z.shiftr_div_pow2 by lia).
    rewrite relayDest_unmapped; [|done|unfold Unmap; by rewrite H4|done]. cbn [Zone].
    destruct (String.eqb_spec z "") as [->|Hz]; [|by split; intros [? _]].
    rewrite refused_class_v6, embedded_v6, tailnet_v6 by auto.
    assert ((∀ inner, Addr4 <$> carried v = Some inner → relayDestAllowed inner policy = None) ↔
            (∀ w, carried v = Some w → relayDestAllowed (Addr4 w) policy = None)) as ->; [|done].
    destruct (carried v) as [w|]; [|done]. split; [intros H ? [= <-]|intros H ? [= <-]]; by apply H.
Qed.

Lemma first_refusal_None policy addrs :
  first_refusal policy addrs = None ↔ ∀ ip, ip ∈ addrs → relayDestAllowed ip policy = None.
Proof.
  induction addrs as [|ip addrs IH]; simpl; [split; [set_solver|done]|].
  setoid_rewrite elem_of_cons. destruct (relayDestAllowed ip policy) eqn:E; naive_solver.
Qed.

Section DialProps.
Context {Conn : Type} (LookupNetIP : string -> result (list Addr) string).
Context (DialContext : Z -> Addr -> Z -> result Conn string).

Lemma dial_loop_trace host per port addrs err :
  (dial_loop DialContext host per port addrs err).1 `prefix_of` addrs.
Proof.
  revert err. induction addrs as [|ip addrs IH]; intros err; simpl; [done|].
  destruct (DialContext per ip port); simpl; [apply prefix_cons, prefix_nil|].
  specialize (IH (Some (DialFailed e))). destruct (dial_loop _ _ _ _ _ _). by apply prefix_cons.
Qed.

(** Resolve, classify, dial. The function returns (it never divides its budget
    by zero); the addresses it dials are a prefix of those the name resolved to
    and every one of them may be dialled; and one refused address among the
    answers refuses the name before any dial. *)
Theorem dialRelayHost_classified policy host port :
  ∃ trace out, dialRelayHost LookupNetIP DialContext policy host port = Some (trace, out) ∧
    (∀ ip, ip ∈ trace → relayDestAllowed ip policy = None) ∧
    (∀ addrs, resolveRelayHost LookupNetIP host = Ok addrs →
       trace `prefix_of` addrs ∧
       ∀ ip r, ip ∈ addrs → relayDestAllowed ip policy = Some r → trace = [] ∧ ∃ r', out = Err (Refused r')).
Proof.
  unfold dialRelayHost. destruct (resolveRelayHost LookupNetIP host) as [addrs|e] eqn:Er.
  2:{ exists [], (Err e). split_and!; [done|set_solver|done]. }
  destruct (first_refusal policy addrs) as [r|] eqn:Ef.
  { exists [], (Err (Refused r)). split_and!; [done|set_solver|]. intros ? [= <-].
    split; [apply prefix_nil|eauto]. }
  rewrite first_refusal_None in Ef.
  assert (addrs ≠ []) as Hne.
  { unfold resolveRelayHost in Er. intros ->. repeat (dcase_in Er; try done). }
  unfold dial_budget. destruct (Nat.eqb_spec (length addrs) 0) as [Hl|_]; [by destruct addrs|]. simpl.
  match goal with |- context [dial_loop _ _ ?e _ _ _] => generalize e end. intros per.
  destruct (dial_loop _ host per port addrs None) as [tr out] eqn:Ed.
  pose proof (dial_loop_trace host per port addrs None) as Hp. rewrite Ed in Hp. simpl in Hp.
  exists tr, out. split; [done|]. split.
  - intros ip Hip. apply Ef. destruct Hp as [k ->]. set_solver.
  - intros ? [= <-]. split; [done|]. intros ip r Hip Hr. by rewrite Ef in Hr.
Qed.
End DialProps.

(** ** Witnesses *)

Definition public_policy : relayDestPolicy := mkRelayPolicy "public" [] true.

Lemma relay_v4_exact_witness :
  relayDestAllowed (Addr4 (ip4 1 1 1 1)) public_policy = None ∧
  relayDestAllowed (Addr4 (ip4 169 254 169 254)) public_policy ≠ None.
Proof.
  split; [|intros H]; rewrite relay_v4_exact in *; try done; [by right; right|naive_solver].
Defined.

(** The metadata service in each of the encodings. *)
Definition metadata_forms : list string :=
  ["::ffff:169.254.169.254"; "64:ff9b::169.254.169.254"; "2002:a9fe:a9fe::1";
   "fd7a:115c:a1e0:b1a:0:7:169.254.169.254"; "::169.254.169.254"].

Lemma relay_v6_exact_witness :
  Forall (λ s, ∃ v, ParseAddr s = Some (Addr6 v "") ∧ relayDestAllowed (Addr6 v "") public_policy ≠ None)
    metadata_forms.
Proof.
  assert (relayDestAllowed (Addr4 (ip4 169 254 169 254)) public_policy ≠ None) as Hmeta by done.
  unfold metadata_forms. repeat constructor; eexists; (split; [vm_compute; reflexivity|]);
    rewrite relay_v6_exact by done; [exact Hmeta| | | |]; cbn -[relayDestAllowed];
    intros [_ [?|[Hw _]]]; try done; by apply Hmeta, Hw.
Defined.
