(* ===== verification/DnsVip.v ===== *)
(** * DNS interception and virtual addresses: [cmd/clawpatrol/dnsvip/dnsvip.go]

    The allocator's tables, the reconciliation with a policy, the lazy
    allocation a DNS query triggers, persistence, and the responder. The
    [dnsvip_allocations] table is part of the state; whether a transaction
    commits is an input of the operations that write it. *)
From S2P Require Import Prelude GoStrings NetAddr HostMatch Policy.

(** ** State *)

Record EndpointHit := mkHit { hit_Endpoint : CompiledEndpoint; hit_Port : Z }.

Definition DefaultCIDR4 : Prefix := MustParsePrefix "10.78.0.0/16".
Definition DefaultCIDR6 : Prefix := MustParsePrefix "fd78::/64".

Definition MaxID : Z := 0xFFFE.
Definition InternalHostname : string := "clawpatrol.internal".
Definition internalID : Z := MaxID + 1.

Definition isInternalName (hostname : string) : bool := EqualFold hostname InternalHostname.

Record entry := mkEntry { e_ID : Z; e_Hostname : string; e_V4 : Addr; e_V6 : Addr }.

Record patternBinding := mkBinding { pb_Pattern : string; pb_Port : Z; pb_Hits : list EndpointHit }.

(** A row of [dnsvip_allocations]. *)
Record row := mkRow { row_id : Z; row_hostname : string; row_v4 : string; row_v6 : string }.

Record Allocator := mkAlloc {
  al_cidr4 : Prefix;
  al_cidr6 : Prefix;
  byName : gmap string entry;
  byV4 : gmap Addr entry;
  byV6 : gmap Addr entry;
  endpoints : gmap string (list EndpointHit);
  patterns : list patternBinding;
  free : list Z;
  used : gset Z;
  al_db : list row
}.

Definition set_db (a : Allocator) (t : list row) : Allocator :=
  mkAlloc (al_cidr4 a) (al_cidr6 a) (byName a) (byV4 a) (byV6 a) (endpoints a) (patterns a) (free a) (used a) t.

Definition set_free (a : Allocator) (l : list Z) : Allocator :=
  mkAlloc (al_cidr4 a) (al_cidr6 a) (byName a) (byV4 a) (byV6 a) (endpoints a) (patterns a) l (used a) (al_db a).

Definition set_endpoints (a : Allocator) (pats : list patternBinding) (eps : gmap string (list EndpointHit)) : Allocator :=
  mkAlloc (al_cidr4 a) (al_cidr6 a) (byName a) (byV4 a) (byV6 a) eps pats (free a) (used a) (al_db a).

(** ** Construction and persistence *)

Inductive VipError := NilDB | Cidr4NotIPv4 | Cidr6NotIPv6 | PoolExhausted | DbFailed.

(** Enter [e] in the three indexes and the ID set. *)
Definition put_entry (a : Allocator) (e : entry) : Allocator :=
  mkAlloc (al_cidr4 a) (al_cidr6 a) (<[e_Hostname e := e]> (byName a)) (<[e_V4 e := e]> (byV4 a))
    (<[e_V6 e := e]> (byV6 a)) (endpoints a) (patterns a) (free a) ({[e_ID e]} ∪ used a) (al_db a).

(** One row of [load]; [uint32(id)] wraps. *)
Definition load_row (a : Allocator) (r : row) : Allocator :=
  match ParseAddr (row_v4 r) with
  | None => a
  | Some v4a =>
      match ParseAddr (row_v6 r) with
      | None => a
      | Some v6a =>
          if negb (prefix_Contains (al_cidr4 a) v4a) || negb (prefix_Contains (al_cidr6 a) v6a) then a
          else put_entry a (mkEntry (row_id r mod 2 ^ 32) (row_hostname r) v4a v6a)
      end
  end.

Definition load (a : Allocator) : Allocator := foldl load_row a (al_db a).

Definition prefix_valid (p : Prefix) : bool := IsValid (prefix_addr p).

(** [New] on a database whose table is [db]; [None] is a nil handle. *)
Definition New (db : option (list row)) (cidr4 cidr6 : Prefix) : result Allocator VipError :=
  match db with
  | None => Err NilDB
  | Some t =>
      let cidr4 := if prefix_valid cidr4 then cidr4 else DefaultCIDR4 in
      let cidr6 := if prefix_valid cidr6 then cidr6 else DefaultCIDR6 in
      if negb (Is4 (prefix_addr cidr4)) then Err Cidr4NotIPv4
      else if negb (Is6 (prefix_addr cidr6)) || Is4In6 (prefix_addr cidr6) then Err Cidr6NotIPv6
      else Ok (load (mkAlloc cidr4 cidr6 ∅ ∅ ∅ ∅ [] [] ∅ t))
  end.

Definition row_of (e : entry) : row := mkRow (e_ID e) (e_Hostname e) (addr_String (e_V4 e)) (addr_String (e_V6 e)).

(** The rows [persistLocked] writes: the entries by increasing ID. [sort.Slice]
    is not stable, and IDs are distinct. *)
Definition table_of (a : Allocator) : list row :=
  row_of <$> stable_sort (λ x y, e_ID x <? e_ID y) (map_to_list (byName a)).*2.

(** One transaction: it commits the whole table or leaves the old one. *)
Definition persistLocked (commits : bool) (a : Allocator) : Allocator * result unit VipError :=
  if commits then (set_db a (table_of a), Ok tt) else (a, Err DbFailed).

(** ** Allocation *)

Definition vipForID (a : Allocator) (id : Z) : Addr * Addr :=
  let v4 := match prefix_addr (al_cidr4 a) with Addr4 v => v | _ => 0 end in
  let v6 := As16 (prefix_addr (al_cidr6 a)) in
  (AddrFrom4 (byte_at 4 0 v4) (byte_at 4 1 v4) (Z.land (Z.shiftr id 8) 255) (Z.land id 255),
   Addr6 (from_bytes (((λ i, byte_at 16 i v6) <$> seq 0 12) ++
            [Z.land (Z.shiftr id 24) 255; Z.land (Z.shiftr id 16) 255; Z.land (Z.shiftr id 8) 255; Z.land id 255]))
     "").

Definition InternalVIPs (a : Allocator) : Addr * Addr := vipForID a internalID.

Definition makeEntry (a : Allocator) (id : Z) (hostname : string) : Allocator :=
  let '(v4, v6) := vipForID a id in put_entry a (mkEntry id hostname v4 v6).

(** The free list after skipping the IDs in use, and the ID found. *)
Fixpoint pop_free (u : gset Z) (l : list Z) : list Z * option Z :=
  match l with
  | [] => ([], None)
  | id :: rest => if bool_decide (id ∈ u) then pop_free u rest else (rest, Some id)
  end.

(** The scan [for id := 1; id <= MaxID; id++]. *)
Fixpoint scan_ids (u : gset Z) (fuel : nat) (id : Z) : option Z :=
  match fuel with
  | O => None
  | S fuel' =>
      if MaxID <? id then None
      else if bool_decide (id ∈ u) then scan_ids u fuel' (id + 1) else Some id
  end.

Definition allocateLocked (a : Allocator) (hostname : string) : Allocator * result unit VipError :=
  let '(rest, found) := pop_free (used a) (free a) in
  let a := set_free a rest in
  match found with
  | Some id => (makeEntry a id hostname, Ok tt)
  | None =>
      match scan_ids (used a) (Z.to_nat MaxID) 1 with
      | Some id => (makeEntry a id hostname, Ok tt)
      | None => (a, Err PoolExhausted)
      end
  end.

(** ** The hosts a policy needs addresses for *)

Definition defaultPortFor (ep : CompiledEndpoint) : Z :=
  let t := plugin_Type (ep_Plugin ep) in
  if String.eqb t "ssh" then 22 else if String.eqb t "postgres" then 5432 else 0.

Fixpoint digit_run (s : string) : string :=
  match s with
  | String c s' => if is_digit c then String c (digit_run s') else ""
  | EmptyString => ""
  end.

(** [fmt.Sscanf(s, "%d", &p)] with a [uint16] target, for input without line
    breaks: leading blanks, then a run of digits that fits. *)
Definition Sscanf_uint16 (s : string) : option Z :=
  let ds := digit_run (trim_left_by is_space s) in
  if String.eqb ds "" then None
  else let n := digits_value ds 0 in if 65535 <? n then None else Some n.

Definition host_port (ep : CompiledEndpoint) (portStr : string) : Z :=
  if String.eqb portStr "" then defaultPortFor ep
  else default (defaultPortFor ep) (Sscanf_uint16 portStr).

(** Append a hit to the binding of [key], creating it at the end. *)
Fixpoint add_pattern (key : string) (h : EndpointHit) (l : list patternBinding) : list patternBinding :=
  match l with
  | [] => [mkBinding key (hit_Port h) [h]]
  | b :: rest =>
      if String.eqb (pb_Pattern b) key then mkBinding key (pb_Port b) (pb_Hits b ++ [h]) :: rest
      else b :: add_pattern key h rest
  end.

Definition collect_host (ep : CompiledEndpoint) (st : gmap string (list EndpointHit) * list patternBinding)
    (hp : string) : gmap string (list EndpointHit) * list patternBinding :=
  let '(exact, pats) := st in
  match SplitHostPort hp with
  | Err _ => st
  | Ok (host, portStr) =>
      if String.eqb host "" then st
      else
        let h := mkHit ep (host_port ep portStr) in
        if IsWildcardHost host then (exact, add_pattern (ToLower host) h pats)
        else match ParseIP host with
             | Some _ => st
             | None => (<[host := default [] (exact !! host) ++ [h]]> exact, pats)
             end
  end.

Definition binding_less (a b : patternBinding) : bool :=
  let la := String.length (pb_Pattern a) in
  let lb := String.length (pb_Pattern b) in
  if negb (la =? lb)%nat then (lb <? la)%nat else String.ltb (pb_Pattern a) (pb_Pattern b).

(** [ord] is the visiting order of [policy.Endpoints]. *)
Definition collectRequiredHosts (ord : list string) (policy : option CompiledPolicy)
    : gmap string (list EndpointHit) * list patternBinding :=
  match policy with
  | None => (∅, [])
  | Some pol =>
      let '(exact, pats) :=
        foldl (λ st '(_, ep), if RequiresVIP (Some ep) then foldl (collect_host ep) st (ep_Hosts ep) else st)
          (∅, []) (range_over ord (pol_Endpoints pol)) in
      (exact, stable_sort binding_less pats)
  end.

Definition matchPatternBindings (pats : list patternBinding) (hostname : string) : option patternBinding :=
  List.find (λ p, MatchWildcard (pb_Pattern p) (ToLower hostname)) pats.

(** ** Reconciliation with a policy *)

Definition is_claimed (required : gmap string (list EndpointHit)) (pats : list patternBinding) (hostname : string) : bool :=
  bool_decide (is_Some (required !! hostname)) ||
  match matchPatternBindings pats hostname with Some _ => true | None => false end.

(** The body of the first loop for one entry of [byName]. *)
Definition release (required : gmap string (list EndpointHit)) (pats : list patternBinding)
    (a : Allocator) (he : string * entry) : Allocator :=
  let '(hostname, e) := he in
  if is_claimed required pats hostname then a
  else mkAlloc (al_cidr4 a) (al_cidr6 a) (delete hostname (byName a)) (delete (e_V4 e) (byV4 a))
         (delete (e_V6 e) (byV6 a)) (endpoints a) (patterns a) (free a ++ [e_ID e]) (used a ∖ {[e_ID e]}) (al_db a).

Fixpoint allocate_all (a : Allocator) (hosts : list string) : Allocator * result unit VipError :=
  match hosts with
  | [] => (a, Ok tt)
  | h :: rest =>
      match allocateLocked a h with
      | (a', Ok _) => allocate_all a' rest
      | (a', Err e) => (a', Err e)
      end
  end.

Definition rebuilt_endpoints (required : gmap string (list EndpointHit)) (pats : list patternBinding)
    (names : gmap string entry) : gmap string (list EndpointHit) :=
  required ∪ map_imap (λ h _, pb_Hits <$> matchPatternBindings pats h) names.

(** [ordF] and [ordH] are the visiting orders of [byName] in the releasing loop
    and of [policy.Endpoints]. *)
Definition RebuildFromPolicy (ordF ordH : list string) (commits : bool) (policy : option CompiledPolicy)
    (a : Allocator) : Allocator * result unit VipError :=
  let '(required, pats) := collectRequiredHosts ordH policy in
  let a1 := foldl (release required pats) a (range_over ordF (byName a)) in
  let newHosts := stable_sort String.ltb
                    (List.filter (λ h, bool_decide (byName a1 !! h = None)) (map_to_list required).*1) in
  match allocate_all a1 newHosts with
  | (a2, Err e) => (a2, Err e)
  | (a2, Ok _) =>
      persistLocked commits (set_endpoints a2 pats (rebuilt_endpoints required pats (byName a2)))
  end.

(** ** Lookups *)

Definition IsVIP (a : Allocator) (dstIP : string) : bool :=
  match ParseAddr dstIP with
  | None => false
  | Some addr => prefix_Contains (al_cidr4 a) addr || prefix_Contains (al_cidr6 a) addr
  end.

Definition LookupVIP (a : Allocator) (dstIP : string) : string * list EndpointHit :=
  match ParseAddr dstIP with
  | None => ("", [])
  | Some addr =>
      match (if Is4 addr then byV4 a !! addr else byV6 a !! addr) with
      | None => ("", [])
      | Some e => (e_Hostname e, default [] (endpoints a !! e_Hostname e))
      end
  end.

Definition VIPsFor (a : Allocator) (hostname : string) : Addr * Addr :=
  match byName a !! hostname with
  | None => (AddrZero, AddrZero)
  | Some e => (e_V4 e, e_V6 e)
  end.

(** ** DNS *)

Definition lazyAllocateForPattern (commits : bool) (a : Allocator) (hostname : string) : Allocator * bool :=
  match byName a !! hostname with
  | Some _ => (a, true)
  | None =>
      match matchPatternBindings (patterns a) hostname with
      | None => (a, false)
      | Some binding =>
          match allocateLocked a hostname with
          | (a', Err _) => (a', false)
          | (a', Ok _) =>
              let a2 := set_endpoints a' (patterns a') (<[hostname := pb_Hits binding]> (endpoints a')) in
              ((persistLocked commits a2).1, true)
          end
      end
  end.

Definition intercepts (commits : bool) (a : Allocator) (hostname : string) : Allocator * bool :=
  let hostname := ToLower hostname in
  if isInternalName hostname then (a, true)
  else match byName a !! hostname with
       | Some _ => (a, true)
       | None => match matchPatternBindings (patterns a) hostname with
                 | None => (a, false)
                 | Some _ => lazyAllocateForPattern commits a hostname
                 end
       end.

Inductive Qtype := TypeA | TypeAAAA | TypeHTTPS | TypeSVCB | TypeOther (n : Z).

Record Question := mkQuestion { q_Name : string; q_Qtype : Qtype }.

(** An address record of an answer. *)
Record RR := mkRR { rr_Name : string; rr_Type : Qtype; rr_Addr : Addr }.

Inductive Rcode := RcodeSuccess | RcodeFormatError | RcodeServerFailure | RcodeNameError.

(** How a response is built: a local reply with its answers, an error code, a
    negative answer with the owner of its SOA, an empty NOERROR, or whatever the
    resolver at the given address returns. *)
Inductive Response :=
| Reply (authoritative : bool) (answers : list RR)
| ErrorResp (rcode : Rcode)
| NegResponse (rcode : Rcode) (owner : option string)
| Nodata
| Relayed (dstIP : string).

(** A lookup's error: the resolver's "no such record", or anything else. *)
Inductive LookupError := NotFound | Transient.

Section Responder.
(** The gateway's host resolver: [lookupIP network host]. *)
Context (lookupIP : string -> string -> list Addr * option LookupError).
(** Whether the exchange with the resolver at an address succeeds. *)
Context (exchange : string -> bool).

Definition negSOA_owner (name : string) : string :=
  match IndexByte name dot with
  | Some i => if (i <? String.length name - 1)%nat then str_drop (S i) name else name
  | None => name
  end.

Definition negResponse (q : list Question) (rcode : Rcode) : Response :=
  NegResponse rcode (negSOA_owner ∘ q_Name <$> head q).

Definition transient (err : option LookupError) : bool :=
  match err with Some Transient => true | _ => false end.

(** The address records of the family asked for. *)
Definition family_answers (qd : Question) (ips : list Addr) : list RR :=
  omap (λ ip, let v4 := match Unmap ip with Addr4 _ => true | _ => false end in
              match q_Qtype qd with
              | TypeA => if v4 then Some (mkRR (q_Name qd) TypeA (Unmap ip)) else None
              | TypeAAAA => if v4 then None else Some (mkRR (q_Name qd) TypeAAAA ip)
              | _ => None
              end) ips.

Definition synthIPResponse (q : list Question) (qd : Question) (network : string) : Response :=
  let name := TrimSuffix (q_Name qd) "." in
  let '(ips, err) := lookupIP network name in
  match ips with
  | [] =>
      if transient err then ErrorResp RcodeServerFailure
      else
        let other := if String.eqb network "ip6" then "ip4" else "ip6" in
        let '(oips, oerr) := lookupIP other name in
        match oerr, oips with
        | None, _ :: _ => negResponse q RcodeSuccess
        | _, _ => if transient oerr then ErrorResp RcodeServerFailure else negResponse q RcodeNameError
        end
  | _ =>
      match family_answers qd ips with
      | [] => negResponse q RcodeSuccess
      | ans => Reply false ans
      end
  end.

Definition relayUpstream (dstIP : string) : Response :=
  if String.eqb dstIP "" then ErrorResp RcodeServerFailure
  else if exchange dstIP then Relayed dstIP else ErrorResp RcodeServerFailure.

Definition forwardUpstream (q : list Question) (dstIP : string) : Response :=
  match q with
  | [] => ErrorResp RcodeFormatError
  | qd :: _ =>
      match q_Qtype qd with
      | TypeA => synthIPResponse q qd "ip4"
      | TypeAAAA => synthIPResponse q qd "ip6"
      | TypeHTTPS | TypeSVCB => Nodata
      | TypeOther _ => relayUpstream dstIP
      end
  end.

(** The loop that stops at the first intercepted question. *)
Fixpoint any_intercepted (commits : bool) (a : Allocator) (q : list Question) : Allocator * bool :=
  match q with
  | [] => (a, false)
  | qq :: rest =>
      match intercepts commits a (TrimSuffix (q_Name qq) ".") with
      | (a', true) => (a', true)
      | (a', false) => any_intercepted commits a' rest
      end
  end.

Definition answer_question (a : Allocator) (qq : Question) : list RR :=
  let host := TrimSuffix (q_Name qq) "." in
  let '(v4, v6) := if isInternalName host then InternalVIPs a else VIPsFor a host in
  match q_Qtype qq with
  | TypeA => if IsValid v4 then [mkRR (q_Name qq) TypeA v4] else []
  | TypeAAAA => if IsValid v6 then [mkRR (q_Name qq) TypeAAAA v6] else []
  | _ => []
  end.

Definition handleQuery (commits : bool) (a : Allocator) (q : list Question) (dstIP : string)
    : Allocator * Response :=
  match q with
  | [] => (a, ErrorResp RcodeFormatError)
  | _ =>
      match any_intercepted commits a q with
      | (a', false) => (a', forwardUpstream q dstIP)
      | (a', true) => (a', Reply true (mjoin (answer_question a' <$> q)))
      end
  end.
End Responder.
