(* ===== verification/DnsVipProps.v ===== *)
(** * The virtual-address table is a bijection

    The allocator's indexes agree with one another, every address stands for
    one hostname, and this survives policy reloads, lazy allocation, failed
    transactions and restarts. *)
From S2P Require Import Prelude GoStrings NetAddr HostMatch Policy DnsVip.

#[local] Ltac Zify.zify_post_hook ::= Z.div_mod_to_equations.

(** ** Addresses are injective in the ID *)

Lemma vip4_inj a i j :
  0 <= i < 2 ^ 16 → 0 <= j < 2 ^ 16 → (vipForID a i).1 = (vipForID a j).1 → i = j.
Proof.
  intros Hi Hj. cbn [vipForID fst]. unfold AddrFrom4. intros [= H].
  rewrite !land_255, !Z.shiftr_div_pow2 in H by lia. change (2 ^ 8) with 256 in H.
  rewrite !from_bytes4 in H by (apply byte_at_range || lia). unfold ip4 in H.
  change (2 ^ 16) with 65536 in *. lia.
Qed.

Lemma vip6_inj a i j :
  0 <= i < 2 ^ 16 → 0 <= j < 2 ^ 16 → (vipForID a i).2 = (vipForID a j).2 → i = j.
Proof.
  intros Hi Hj. unfold vipForID. cbv zeta. unfold snd.
  generalize ((λ k, byte_at 16 k (As16 (prefix_addr (al_cidr6 a)))) <$> seq 0 12). intros pre [= H].
  assert (∀ w x y z : Z, pre ++ [w; x; y; z] = ((pre ++ [w; x]) ++ [y]) ++ [z]) as Happ
    by (intros; by rewrite <- !app_assoc).
  rewrite !Happ in H. rewrite !land_255, !Z.shiftr_div_pow2 in H by lia.
  rewrite !from_bytes_snoc in H by lia. change (2 ^ 8) with 256 in H.
  set (X := from_bytes (pre ++ _)) in H at 1. set (Y := from_bytes (pre ++ _)) in H.
  change (2 ^ 16) with 65536 in *. lia.
Qed.

(** ** The invariant *)

Record alloc_ok (a : Allocator) : Prop := {
  ok_entry h e : byName a !! h = Some e →
    e_Hostname e = h ∧ 1 <= e_ID e <= MaxID ∧ (e_V4 e, e_V6 e) = vipForID a (e_ID e);
  ok_v4 addr e : byV4 a !! addr = Some e ↔ byName a !! e_Hostname e = Some e ∧ e_V4 e = addr;
  ok_v6 addr e : byV6 a !! addr = Some e ↔ byName a !! e_Hostname e = Some e ∧ e_V6 e = addr;
  ok_used id : id ∈ used a ↔ ∃ h e, byName a !! h = Some e ∧ e_ID e = id;
  ok_inj h1 h2 e1 e2 : byName a !! h1 = Some e1 → byName a !! h2 = Some e2 → e_ID e1 = e_ID e2 → h1 = h2;
  ok_free id : id ∈ free a → 1 <= id <= MaxID
}.

Lemma alloc_ok_same a a' :
  al_cidr4 a' = al_cidr4 a → al_cidr6 a' = al_cidr6 a →
  byName a' = byName a → byV4 a' = byV4 a → byV6 a' = byV6 a → used a' = used a →
  (∀ id, id ∈ free a' → id ∈ free a) → alloc_ok a → alloc_ok a'.
Proof.
  intros H4 H6 Hn Hv4 Hv6 Hu Hf [He Ho4 Ho6 Hou Hi Hof].
  split; rewrite ?Hn, ?Hv4, ?Hv6, ?Hu; eauto. intros h e Hh.
  destruct (He h e Hh) as (? & ? & Hv). split_and!; try done; try lia.
  rewrite Hv. unfold vipForID. by rewrite H4, H6.
Qed.

Lemma maxid_16 id : 1 <= id <= MaxID → 0 <= id < 2 ^ 16.
Proof. unfold MaxID. lia. Qed.

(** Entries of a consistent table with the same address are the same. *)
Lemma entry_v4_inj a h1 h2 e1 e2 :
  alloc_ok a → byName a !! h1 = Some e1 → byName a !! h2 = Some e2 → e_V4 e1 = e_V4 e2 → h1 = h2.
Proof.
  intros Hok H1 H2 Hv. destruct (ok_entry a Hok h1 e1 H1) as (_ & Hi1 & Hv1).
  destruct (ok_entry a Hok h2 e2 H2) as (_ & Hi2 & Hv2).
  eapply ok_inj; [done..|]. apply (vip4_inj a); [by apply maxid_16..|].
  rewrite <- Hv1, <- Hv2. done.
Qed.

Lemma entry_v6_inj a h1 h2 e1 e2 :
  alloc_ok a → byName a !! h1 = Some e1 → byName a !! h2 = Some e2 → e_V6 e1 = e_V6 e2 → h1 = h2.
Proof.
  intros Hok H1 H2 Hv. destruct (ok_entry a Hok h1 e1 H1) as (_ & Hi1 & Hv1).
  destruct (ok_entry a Hok h2 e2 H2) as (_ & Hi2 & Hv2).
  eapply ok_inj; [done..|]. apply (vip6_inj a); [by apply maxid_16..|].
  rewrite <- Hv1, <- Hv2. done.
Qed.

(** Inserting a fresh entry in an index. *)
Lemma index_insert (proj : entry -> Addr) (names : gmap string entry) (idx : gmap Addr entry) x addr e :
  (∀ addr e, idx !! addr = Some e ↔ names !! e_Hostname e = Some e ∧ proj e = addr) →
  names !! e_Hostname x = None →
  (∀ e', names !! e_Hostname e' = Some e' → proj e' ≠ proj x) →
  <[proj x := x]> idx !! addr = Some e ↔
  <[e_Hostname x := x]> names !! e_Hostname e = Some e ∧ proj e = addr.
Proof.
  intros Hidx Hnew Hfresh. rewrite !lookup_insert_Some. split.
  - intros [[<- <-]|[Hne Hold]]; [by split; [left|]|]. apply Hidx in Hold as [Hold <-].
    split; [|done]. right. split; [|done]. intros Heq. congruence.
  - intros [[[Hh <-]|[Hne Hold]] <-]; [by left|]. right. split; [|by apply Hidx].
    intros Heq. by apply (Hfresh e).
Qed.

Lemma put_entry_ok a e :
  alloc_ok a → byName a !! e_Hostname e = None → e_ID e ∉ used a → 1 <= e_ID e <= MaxID →
  (e_V4 e, e_V6 e) = vipForID a (e_ID e) → alloc_ok (put_entry a e).
Proof.
  intros Hok Hnew Hid Hrange Hvip.
  assert (∀ h e', byName a !! h = Some e' → e_ID e' ≠ e_ID e) as Hidne.
  { intros h e' Hh Heq. apply Hid, (ok_used a Hok). eauto. }
  assert (∀ h e', byName a !! h = Some e' → e_V4 e' ≠ e_V4 e ∧ e_V6 e' ≠ e_V6 e) as Hvne.
  { intros h e' Hh. destruct (ok_entry a Hok h e' Hh) as (_ & Hr' & Hv').
    split; intros Heq; apply (Hidne h e' Hh); [apply (vip4_inj a)|apply (vip6_inj a)];
      try (by apply maxid_16); by rewrite <- Hv', <- Hvip. }
  split; simpl.
  - intros h e'. rewrite lookup_insert_Some. intros [[<- <-]|[_ Hh]]; [done|]. by apply (ok_entry a Hok).
  - intros addr e'. apply index_insert; [apply (ok_v4 a Hok)|done|]. intros e0 H0. by eapply Hvne.
  - intros addr e'. apply index_insert; [apply (ok_v6 a Hok)|done|]. intros e0 H0. by eapply Hvne.
  - intros id. rewrite elem_of_union, elem_of_singleton, (ok_used a Hok). split.
    + intros [->|(h & e' & Hh & <-)]; [exists (e_Hostname e), e; by rewrite lookup_insert_eq|].
      exists h, e'. split; [|done]. rewrite lookup_insert_ne; [done|]. intros <-. congruence.
    + intros (h & e' & [[_ <-]|[_ Hh]]%lookup_insert_Some & <-); [by left|eauto].
  - intros h1 h2 e1 e2. rewrite !lookup_insert_Some.
    intros [[<- <-]|[_ H1]] [[<- <-]|[_ H2]] Heq; try done.
    + by destruct (Hidne h2 e2).
    + by destruct (Hidne h1 e1).
    + by eapply (ok_inj a Hok).
  - apply (ok_free a Hok).
Qed.

(** ** Releasing *)

Lemma index_delete (proj : entry -> Addr) (names : gmap string entry) (idx : gmap Addr entry) x addr e :
  (∀ addr e, idx !! addr = Some e ↔ names !! e_Hostname e = Some e ∧ proj e = addr) →
  names !! e_Hostname x = Some x →
  (∀ e', names !! e_Hostname e' = Some e' → proj e' = proj x → e_Hostname e' = e_Hostname x) →
  delete (proj x) idx !! addr = Some e ↔
  delete (e_Hostname x) names !! e_Hostname e = Some e ∧ proj e = addr.
Proof.
  intros Hidx Hx Hinj. rewrite !lookup_delete_Some. split.
  - intros [Hne Hold]. apply Hidx in Hold as [Hold <-]. split_and!; try done.
    intros Heq. apply Hne. rewrite <- Heq, Hx in Hold. by simplify_eq.
  - intros [[Hne Hold] <-]. split; [|by apply Hidx]. intros Heq. apply Hne. symmetry. by apply Hinj.
Qed.

Lemma release_ok req pats a h e :
  alloc_ok a → byName a !! h = Some e → alloc_ok (release req pats a (h, e)).
Proof.
  intros Hok Hh. unfold release. destruct (is_claimed req pats h); [done|].
  destruct (ok_entry a Hok h e Hh) as (Hname & Hid & Hvip).
  split; simpl.
  - intros h' e'. rewrite lookup_delete_Some. intros [_ ?]. by apply (ok_entry a Hok).
  - intros addr e'. rewrite <- Hname. apply index_delete; [apply (ok_v4 a Hok)|congruence|].
    intros e0 H0 Hv. rewrite Hname. by eapply entry_v4_inj.
  - intros addr e'. rewrite <- Hname. apply index_delete; [apply (ok_v6 a Hok)|congruence|].
    intros e0 H0 Hv. rewrite Hname. by eapply entry_v6_inj.
  - intros id. rewrite elem_of_difference, elem_of_singleton, (ok_used a Hok). split.
    + intros [(h' & e' & Hh' & <-) Hne]. exists h', e'. split; [|done].
      rewrite lookup_delete_Some. split; [|done]. intros <-. congruence.
    + intros (h' & e' & [Hne Hh']%lookup_delete_Some & <-). split; [eauto|].
      intros Heq. apply Hne. by eapply (ok_inj a Hok).
  - intros h1 h2 e1 e2. rewrite !lookup_delete_Some. intros [_ H1] [_ H2]. by apply (ok_inj a Hok).
  - intros id. rewrite elem_of_app, list_elem_of_singleton. intros [?| ->]; [by apply (ok_free a Hok)|done].
Qed.

(** What the releasing loop leaves, for any visiting order. *)
Lemma release_all req pats l a :
  NoDup l.*1 → alloc_ok a → (∀ h e, (h, e) ∈ l → byName a !! h = Some e) →
  let a' := foldl (release req pats) a l in
  alloc_ok a' ∧ al_cidr4 a' = al_cidr4 a ∧ al_cidr6 a' = al_cidr6 a ∧ al_db a' = al_db a ∧
  endpoints a' = endpoints a ∧ patterns a' = patterns a ∧
  ∀ h, byName a' !! h = if decide (h ∈ l.*1 ∧ is_claimed req pats h = false) then None else byName a !! h.
Proof.
  revert a. induction l as [|[k x] l IH]; intros a Hnd Hok Hl; cbv zeta; cbn [foldl].
  { by split_and!. }
  rewrite fmap_cons in Hnd. apply NoDup_cons in Hnd as [Hk Hnd]. cbn [fst] in Hk.
  assert (byName a !! k = Some x) as Hkx by (apply Hl; left).
  assert (∀ h, byName (release req pats a (k, x)) !! h =
    if decide (h = k ∧ is_claimed req pats k = false) then None else byName a !! h) as Hrel.
  { intros h. unfold release. destruct (is_claimed req pats k); [by rewrite decide_False by naive_solver|].
    simpl. destruct (decide (h = k ∧ false = false)) as [[-> _]|Hne]; [apply lookup_delete_eq|].
    apply lookup_delete_ne. intros ->. by apply Hne. }
  destruct (IH (release req pats a (k, x))) as (H1 & H2 & H3 & H4 & H5 & H6 & H7); [done|by apply release_ok| |].
  { intros h e Hin. rewrite Hrel, decide_False; [apply Hl; by right|].
    intros [-> _]. apply Hk, list_elem_of_fmap. by exists (k, e). }
  split_and!; try done; try (rewrite ?H2, ?H3, ?H4, ?H5, ?H6; unfold release; by destruct (is_claimed _ _ _)).
  intros h. rewrite H7, Hrel. rewrite fmap_cons. cbn [fst].
  repeat case_decide; try done; rewrite elem_of_cons in *; naive_solver.
Qed.

(** ** Allocating *)

Lemma pop_free_spec u l :
  (∀ id, id ∈ (pop_free u l).1 → id ∈ l) ∧
  match (pop_free u l).2 with Some id => id ∈ l ∧ id ∉ u | None => True end.
Proof.
  induction l as [|x l [IH1 IH2]]; simpl; [set_solver|].
  case_bool_decide; simpl; [|set_solver].
  split; [set_solver|]. destruct (pop_free u l).2; set_solver.
Qed.

Lemma scan_ids_spec u fuel start :
  match scan_ids u fuel start with
  | Some id => start <= id <= MaxID ∧ id ∉ u
  | None => ∀ id, start <= id <= MaxID → id < start + Z.of_nat fuel → id ∈ u
  end.
Proof.
  revert start. induction fuel as [|fuel IH]; intros start; simpl; [lia|].
  destruct (MaxID <? start) eqn:E; bprop; [intros; lia|].
  case_bool_decide as Hin; [|done]. specialize (IH (start + 1)).
  destruct (scan_ids u fuel (start + 1)); [naive_solver lia|].
  intros id Hr Hlt. destruct (decide (id = start)) as [->|]; [done|]. apply IH; lia.
Qed.

Lemma makeEntry_ok a id h :
  alloc_ok a → byName a !! h = None → id ∉ used a → 1 <= id <= MaxID → alloc_ok (makeEntry a id h).
Proof.
  intros. unfold makeEntry. destruct (vipForID a id) as [v4 v6] eqn:Ev. apply put_entry_ok; try done.
Qed.

(** The frame of an allocation: the ranges, the patterns, the table on disk. *)
Definition same_frame (a a' : Allocator) : Prop :=
  al_cidr4 a' = al_cidr4 a ∧ al_cidr6 a' = al_cidr6 a ∧ al_db a' = al_db a ∧ patterns a' = patterns a.

Lemma allocateLocked_spec a h :
  alloc_ok a → byName a !! h = None →
  match allocateLocked a h with
  | (a', Ok _) => alloc_ok a' ∧ same_frame a a' ∧
      ∃ e, byName a' = <[h := e]> (byName a) ∧ e_ID e ∉ used a
  | (a', Err e) => e = PoolExhausted ∧ alloc_ok a' ∧ same_frame a a' ∧ byName a' = byName a ∧
      ∀ id, 1 <= id <= MaxID → id ∈ used a
  end.
Proof.
  intros Hok Hnew. unfold allocateLocked. pose proof (pop_free_spec (used a) (free a)) as [Hrest Hfound].
  destruct (pop_free (used a) (free a)) as [rest found]. simpl in Hrest, Hfound.
  assert (alloc_ok (set_free a rest)) as Hok' by (by apply (alloc_ok_same a)).
  assert (∀ id, byName (makeEntry (set_free a rest) id h) =
    <[h := mkEntry id h (vipForID a id).1 (vipForID a id).2]> (byName a)) as Hn by done.
  destruct found as [id|].
  - destruct Hfound as [Hin Hid]. split; [apply makeEntry_ok; try done; by apply (ok_free a Hok)|].
    split; [done|]. rewrite Hn. by eexists.
  - pose proof (scan_ids_spec (used a) (Z.to_nat MaxID) 1) as Hscan. cbn [used set_free].
    destruct (scan_ids (used a) (Z.to_nat MaxID) 1) as [id|].
    + destruct Hscan as [Hr Hid]. split; [by apply makeEntry_ok|].
      split; [done|]. rewrite Hn. by eexists.
    + split_and!; try done. intros id Hr. apply Hscan; [done|]. rewrite Z2Nat.id; lia.
Qed.

Lemma allocate_all_spec hosts a :
  alloc_ok a → NoDup hosts → (∀ h, h ∈ hosts → byName a !! h = None) →
  match allocate_all a hosts with
  | (a', r) => alloc_ok a' ∧ same_frame a a' ∧ byName a ⊆ byName a' ∧
      (∀ h, is_Some (byName a' !! h) → is_Some (byName a !! h) ∨ h ∈ hosts) ∧
      (r = Ok tt ∧ (∀ h, h ∈ hosts → is_Some (byName a' !! h)) ∨
       r = Err PoolExhausted ∧ ∀ id, 1 <= id <= MaxID → id ∈ used a')
  end.
Proof.
  revert a. induction hosts as [|h hosts IH]; intros a Hok Hnd Hnew; cbn [allocate_all].
  { split_and!; try done; [auto|]. left. split; [done|]. set_solver. }
  apply NoDup_cons in Hnd as [Hh Hnd].
  assert (byName a !! h = None) as Hhn by (apply Hnew; left).
  pose proof (allocateLocked_spec a h Hok Hhn) as Hspec.
  destruct (allocateLocked a h) as [a1 [u|err]].
  - destruct Hspec as (Hok1 & Hf1 & e & Hn1 & _).
    specialize (IH a1 Hok1 Hnd). destruct (allocate_all a1 hosts) as [a2 r].
    destruct IH as (Hok2 & Hf2 & Hsub & Hdom & Hr).
    { intros h' Hh'. rewrite Hn1, lookup_insert_ne by set_solver. apply Hnew. by right. }
    assert (byName a ⊆ byName a1) as Hsub1 by (rewrite Hn1; by apply insert_subseteq).
    split; [done|]. split; [unfold same_frame in *; naive_solver congruence|]. split; [by etransitivity|]. split.
    + intros h' Hs. destruct (Hdom h' Hs) as [H1|H1]; [|right; set_solver].
      rewrite Hn1 in H1. apply lookup_insert_is_Some in H1 as [->|[_ ?]]; [right; set_solver|by left].
    + destruct Hr as [[-> Hall]|[-> Hall]]; [left|by right]. split; [done|].
      intros h' [->|Hin]%elem_of_cons; [|by apply Hall].
      exists e. eapply lookup_weaken; [|done]. by rewrite Hn1, lookup_insert_eq.
  - destruct Hspec as (-> & Hok1 & Hf1 & Hn1 & Hall).
    split; [done|]. split; [done|]. rewrite Hn1. split; [done|]. split; [auto|]. right. split; [done|].
    intros id Hid. apply (ok_used a1 Hok1). rewrite Hn1. apply (ok_used a Hok). by apply Hall.
Qed.

Lemma persist_ok commits a : alloc_ok a → alloc_ok (persistLocked commits a).1.
Proof. unfold persistLocked. destruct commits; simpl; [|done]. by apply alloc_ok_same. Qed.

Lemma persist_names commits a : byName (persistLocked commits a).1 = byName a.
Proof. by destruct commits. Qed.

Lemma is_claimed_required req pats h : is_Some (req !! h) → is_claimed req pats h = true.
Proof. intros H. unfold is_claimed. by rewrite bool_decide_eq_true_2. Qed.

(** Everything a reload does to the table. *)
Lemma Rebuild_spec ordF ordH commits policy a :
  alloc_ok a → range_order ordF (byName a) →
  let '(req, pats) := collectRequiredHosts ordH policy in
  let '(a', r) := RebuildFromPolicy ordF ordH commits policy a in
  alloc_ok a' ∧ al_cidr4 a' = al_cidr4 a ∧ al_cidr6 a' = al_cidr6 a ∧
  (al_db a' = al_db a ∨ al_db a' = table_of a') ∧
  (∀ h e, byName a !! h = Some e → is_claimed req pats h = true → byName a' !! h = Some e) ∧
  (∀ h, is_Some (byName a' !! h) → is_claimed req pats h = true) ∧
  (r = Err PoolExhausted ∧ (∀ id, 1 <= id <= MaxID → id ∈ used a') ∨
   r ≠ Err PoolExhausted ∧ (∀ h, is_Some (req !! h) → is_Some (byName a' !! h)) ∧ patterns a' = pats ∧
   endpoints a' = rebuilt_endpoints req pats (byName a')).
Proof.
  intros Hok [Hnd Hord]. unfold RebuildFromPolicy. destruct (collectRequiredHosts ordH policy) as [req pats].
  destruct (release_all req pats (range_over ordF (byName a)) a) as (H1 & H2 & H3 & H4 & _ & _ & H7);
    [by apply NoDup_range_over|done|by intros h e [_ ?]%elem_of_range_over|].
  set (a1 := foldl _ _ _) in *. clearbody a1.
  assert (∀ h, byName a1 !! h = if is_claimed req pats h then byName a !! h else None) as Hn1.
  { intros h. rewrite H7. destruct (is_claimed req pats h); [by rewrite decide_False by naive_solver|].
    destruct (byName a !! h) eqn:E; [|by case_decide]. rewrite decide_True; [done|]. split; [|done].
    apply range_over_fst. split; [apply Hord|]; eauto. }
  set (newHosts := stable_sort _ _).
  assert (NoDup newHosts ∧ ∀ h, h ∈ newHosts ↔ is_Some (req !! h) ∧ byName a1 !! h = None) as [Hnd' Hnew].
  { split.
    - unfold newHosts. rewrite stable_sort_perm. apply NoDup_ListNoDup, List.NoDup_filter, NoDup_ListNoDup.
      apply NoDup_fst_map_to_list.
    - intros h. unfold newHosts. rewrite elem_of_stable_sort, list_elem_of_In, List.filter_In, <- list_elem_of_In.
      rewrite bool_decide_eq_true. destruct (default_order_ok req) as [_ Hd]. rewrite (Hd h). done. }
  pose proof (allocate_all_spec newHosts a1 H1 Hnd') as Hall.
  destruct (allocate_all a1 newHosts) as [a2 r2].
  destruct Hall as (Hok2 & (F4 & F6 & Fd & _) & Hsub & Hdom & Hr); [by intros h [_ ?]%Hnew|].
  assert (∀ h e, byName a !! h = Some e → is_claimed req pats h = true → byName a2 !! h = Some e) as Hkeep.
  { intros h e Hh Hc. eapply lookup_weaken; [|done]. by rewrite Hn1, Hc. }
  assert (∀ h, is_Some (byName a2 !! h) → is_claimed req pats h = true) as Honly.
  { intros h [Hs|Hs]%Hdom; [|apply Hnew in Hs as [? _]; by apply is_claimed_required].
    rewrite Hn1 in Hs. destruct (is_claimed req pats h); [done|]. by destruct Hs. }
  destruct Hr as [[-> Hreq]|[-> Hfull]].
  - set (a3 := set_endpoints _ _ _). destruct (persistLocked commits a3) as [a4 r4] eqn:Ep.
    assert (alloc_ok a3) as Hok3 by (by apply (alloc_ok_same a2)).
    pose proof (persist_ok commits a3 Hok3) as Hok4. rewrite Ep in Hok4. simpl in Hok4.
    assert (byName a4 = byName a2 ∧ al_cidr4 a4 = al_cidr4 a ∧ al_cidr6 a4 = al_cidr6 a ∧
      (al_db a4 = al_db a ∨ al_db a4 = table_of a4) ∧ r4 ≠ Err PoolExhausted ∧ patterns a4 = pats ∧
      endpoints a4 = rebuilt_endpoints req pats (byName a2)) as (Hn4 & ? & ? & ? & ? & ? & He4).
    { unfold persistLocked in Ep. destruct commits; simplify_eq/=; split_and!; auto; try congruence. left. congruence. }
    rewrite Hn4. split_and!; try done. right. split_and!; try done.
    intros h Hh. destruct (byName a1 !! h) eqn:E; [|by apply Hreq, Hnew]. exists e. by eapply lookup_weaken.
  - split_and!; try done; [congruence|congruence|left; congruence|]. by left.
Qed.

(** ** Lazy allocation *)

Lemma lazy_spec commits a h :
  alloc_ok a →
  let '(a', b) := lazyAllocateForPattern commits a h in
  alloc_ok a' ∧ al_cidr4 a' = al_cidr4 a ∧ al_cidr6 a' = al_cidr6 a ∧ patterns a' = patterns a ∧
  (al_db a' = al_db a ∨ al_db a' = table_of a') ∧ byName a ⊆ byName a' ∧
  (b = true ↔ is_Some (byName a' !! h)) ∧
  (b = false → matchPatternBindings (patterns a) h = None ∨ ∀ id, 1 <= id <= MaxID → id ∈ used a).
Proof.
  intros Hok. unfold lazyAllocateForPattern. destruct (byName a !! h) as [e|] eqn:Eh.
  { do 4 (split; [done|]). split; [by left|]. split; [done|]. rewrite Eh. split; [|done]. by split; eauto. }
  assert (false = true ↔ is_Some (byName a !! h)) as Hno by (rewrite Eh; by split; [|intros [? ?]]).
  destruct (matchPatternBindings (patterns a) h) as [pb|] eqn:Em.
  2:{ do 4 (split; [done|]). split; [by left|]. split; [done|]. split; [done|]. by left. }
  pose proof (allocateLocked_spec a h Hok Eh) as Hs. destruct (allocateLocked a h) as [a1 [u|err]].
  - destruct Hs as (Hok1 & (F4 & F6 & Fd & Hp) & e & Hn & _). set (a2 := set_endpoints _ _ _).
    assert (alloc_ok a2) as Hok2 by (by apply (alloc_ok_same a1)).
    split; [by apply persist_ok|]. rewrite persist_names. change (byName a2) with (byName a1). rewrite Hn.
    do 3 (split; [by destruct commits|]). split; [destruct commits; [by right|by left]|].
    split; [by apply insert_subseteq|]. split; [|done]. rewrite lookup_insert_eq. by split; eauto.
  - destruct Hs as (-> & Hok1 & (F4 & F6 & Fd & Hp) & Hn & Hall). rewrite Hn.
    do 4 (split; [done|]). split; [by left|]. split; [done|]. split; [done|]. by right.
Qed.
