(* ===== verification/DnsVipRestart.v ===== *)
(** * Virtual addresses across restarts

    The text a persisted row holds parses back to the address it was written
    from, so loading the table restores the allocations; together with the
    invariant of [DnsVipProps] this gives the reachable states of the
    allocator. *)
From S2P Require Import Prelude GoStrings NetAddr HostMatch Policy DnsVip DnsVipProps.

#[local] Ltac Zify.zify_post_hook ::= Z.div_mod_to_equations.

(** ** Octets *)

(** The digits are read as one octet: no leading zero, at most 255. *)
Fixpoint octet_ok (s : string) (v : Z) (n : nat) : bool :=
  match s with
  | EmptyString => true
  | String c s' =>
      is_digit c && negb ((n =? 1)%nat && (v =? 0)) && (v * 10 + digit_value c <=? 255) &&
      octet_ok s' (v * 10 + digit_value c) (S n)
  end.

Lemma ipv4_fields_octet s rest first pd v n fields :
  octet_ok s v n = true → s ≠ "" →
  ipv4_fields (s +:+ rest) first pd v n fields =
  ipv4_fields rest false false (digits_value s v) (n + String.length s) fields.
Proof.
  revert first pd v n. induction s as [|c s IH]; [done|]. intros first pd v n Hok _.
  cbn [octet_ok] in Hok. bprop. cbn [String.append ipv4_fields]. rewrite H.
  destruct ((n =? 1)%nat && (v =? 0)); [done|]. rewrite (proj2 (Z.ltb_ge _ _)) by done.
  destruct s as [|c' s'].
  - cbn. by rewrite Nat.add_1_r.
  - rewrite IH by done. cbn [digits_value String.length]. f_equal. lia.
Qed.

Definition octets : list nat := seq 0 256.

Lemma octets_ok :
  forallb (λ n, octet_ok (Itoa n) 0 0 && (digits_value (Itoa n) 0 =? Z.of_nat n) && negb (String.eqb (Itoa n) "")) octets
  = true.
Proof. vm_compute. reflexivity. Qed.

Lemma octet_spec (x : Z) :
  0 <= x < 256 →
  octet_ok (Itoa (Z.to_nat x)) 0 0 = true ∧ digits_value (Itoa (Z.to_nat x)) 0 = x ∧ Itoa (Z.to_nat x) ≠ "".
Proof.
  intros Hx. pose proof octets_ok as H. rewrite List.forallb_forall in H.
  specialize (H (Z.to_nat x)). rewrite <- list_elem_of_In in H. unfold octets in H.
  rewrite elem_of_seq in H. specialize (H ltac:(lia)). bprop. rewrite Z2Nat.id in * by lia. done.
Qed.

Lemma octet_step x rest first pd fields :
  0 <= x < 256 →
  ∃ n, ipv4_fields (Itoa (Z.to_nat x) +:+ rest) first pd 0 0 fields = ipv4_fields rest false false x n fields.
Proof.
  intros Hx. destruct (octet_spec x Hx) as (H1 & H2 & H3). rewrite ipv4_fields_octet, H2 by done. eauto.
Qed.

Lemma octet_dot_step x rest first pd fields :
  0 <= x < 256 → rest ≠ "" → (length fields < 3)%nat →
  ipv4_fields (Itoa (Z.to_nat x) +:+ String "." rest) first pd 0 0 fields =
  ipv4_fields rest false true 0 0 (fields ++ [x]).
Proof.
  intros Hx Hr Hf. destruct (octet_step x (String "." rest) first pd fields Hx) as [n ->].
  cbn [ipv4_fields]. change (is_digit ".") with false. change (Ascii.eqb "." ".") with true. cbv iota.
  rewrite (proj2 (String.eqb_neq rest "")) by done. cbn [orb].
  destruct (Nat.eqb_spec (length fields) 3); [lia|done].
Qed.

Lemma app_nonempty a b : a ≠ "" → a +:+ b ≠ "".
Proof. by destruct a. Qed.

(** Dotted quads read back, whatever their octets. *)
Lemma parse_v4_String a b c d :
  0 <= a < 256 → 0 <= b < 256 → 0 <= c < 256 → 0 <= d < 256 →
  parseIPv4Fields (Itoa (Z.to_nat a) +:+ String "." (Itoa (Z.to_nat b) +:+ String "."
    (Itoa (Z.to_nat c) +:+ String "." (Itoa (Z.to_nat d))))) = Some [a; b; c; d].
Proof.
  intros Ha Hb Hc Hd. unfold parseIPv4Fields.
  destruct (octet_spec b Hb) as (_ & _ & Nb). destruct (octet_spec c Hc) as (_ & _ & Nc).
  destruct (octet_spec d Hd) as (_ & _ & Nd).
  rewrite octet_dot_step by (simpl; (by apply app_nonempty) || lia). cbn [app].
  rewrite octet_dot_step by (simpl; (by apply app_nonempty) || lia). cbn [app].
  rewrite octet_dot_step by (simpl; (done) || lia). cbn [app].
  rewrite <- (str_app_nil_r (Itoa (Z.to_nat d))).
  destruct (octet_step d "" false true [a; b; c] Hd) as [n ->]. done.
Qed.

(** The family of a text is decided by its first separator. *)
Lemma addr_kind_digits s rest : str_forall is_digit s = true → addr_kind (s +:+ String "." rest) = Some ("."%char).
Proof.
  induction s as [|c s IH]; intros Hs; [done|]. cbn [str_forall] in Hs. bprop. cbn [String.append addr_kind].
  assert (Ascii.eqb c "." || Ascii.eqb c ":" || Ascii.eqb c "%" = false) as ->; [|by apply IH].
  revert H. clear. destruct c as [[] [] [] [] [] [] [] []]; done.
Qed.

Lemma ParseAddr_v4_String a b c d :
  0 <= a < 256 → 0 <= b < 256 → 0 <= c < 256 → 0 <= d < 256 →
  ParseAddr (addr_String (Addr4 (ip4 a b c d))) = Some (Addr4 (ip4 a b c d)).
Proof.
  intros Ha Hb Hc Hd. unfold addr_String, v4_String.
  assert (∀ i x, (i < 4)%nat → x = ip4 a b c d / 2 ^ (8 * (Z.of_nat 4 - 1 - Z.of_nat i)) mod 256 →
    byte_at 4 i (ip4 a b c d) = x) as Hbyte by (intros i x Hi ->; by apply byte_at_div).
  cbn [fmap list_fmap Join].
  rewrite (Hbyte 0%nat a), (Hbyte 1%nat b), (Hbyte 2%nat c), (Hbyte 3%nat d);
    try (unfold ip4; cbn; lia).
  assert (∀ y, "." +:+ y = String "." y) as Hdot by done. rewrite !Hdot.
  unfold ParseAddr. rewrite addr_kind_digits by apply Itoa_digits. cbv iota. change (Ascii.eqb "." ".") with true. cbv iota.
  unfold parseIPv4. rewrite parse_v4_String by done. cbn [fmap option_fmap option_map].
  by rewrite from_bytes4.
Qed.

(** ** Groups of hex digits *)

Lemma hex_digits_ok :
  forallb (λ n, match hex_value (hex_digit (Z.of_nat n)) with Some d => d =? Z.of_nat n | None => false end &&
                negb (Ascii.eqb (hex_digit (Z.of_nat n)) "%") && negb (Ascii.eqb (hex_digit (Z.of_nat n)) ".")) (seq 0 16)
  = true.
Proof. vm_compute. reflexivity. Qed.

Lemma hex_digit_spec d :
  0 <= d < 16 →
  hex_value (hex_digit d) = Some d ∧ Ascii.eqb (hex_digit d) "%" = false ∧ Ascii.eqb (hex_digit d) "." = false.
Proof.
  intros Hd. pose proof hex_digits_ok as H. rewrite List.forallb_forall in H.
  specialize (H (Z.to_nat d)). rewrite <- list_elem_of_In, elem_of_seq, Z2Nat.id in H by lia.
  specialize (H ltac:(lia)). apply andb_true_iff in H as [[H1 H2]%andb_true_iff H3].
  apply negb_true_iff in H2, H3. destruct (hex_value (hex_digit d)); [|done]. apply Z.eqb_eq in H1. by subst.
Qed.

Lemma hex_run_digit d s off acc :
  0 <= d < 16 → (off <= 3)%nat → acc * 16 + d <= 65535 →
  hex_run (String (hex_digit d) s) off acc = hex_run s (S off) (acc * 16 + d).
Proof.
  intros Hd Ho Ha. destruct (hex_digit_spec d Hd) as [Hv _]. cbn [hex_run]. rewrite Hv.
  rewrite Z.shiftl_mul_pow2 by lia. change (2 ^ 4) with 16.
  rewrite (proj2 (Nat.ltb_ge _ _)), (proj2 (Z.ltb_ge _ _)) by lia. done.
Qed.

Lemma land_15 x : Z.land x 15 = x mod 16.
Proof. by apply (land_mask_low x 4). Qed.

Lemma hex_group_nibbles x :
  0 <= x < 65536 →
  hex_group x =
    (if 0x1000 <=? x then String (hex_digit (x / 4096)) "" else "") +:+
    (if 0x100 <=? x then String (hex_digit (x / 256 mod 16)) "" else "") +:+
    (if 0x10 <=? x then String (hex_digit (x / 16 mod 16)) "" else "") +:+
    String (hex_digit (x mod 16)) "".
Proof. intros Hx. unfold hex_group. rewrite !land_15, !Z.shiftr_div_pow2 by lia. done. Qed.

(** A printed group reads back. *)
Lemma hex_run_group x : 0 <= x < 65536 → ∃ n, hex_run (hex_group x) 0 0 = Some (S n, x, "").
Proof.
  intros Hx. rewrite hex_group_nibbles by done. exists
    (if 0x1000 <=? x then 3%nat else if 0x100 <=? x then 2%nat else if 0x10 <=? x then 1%nat else 0%nat).
  destruct (Z.leb_spec 0x1000 x), (Z.leb_spec 0x100 x), (Z.leb_spec 0x10 x); try lia;
    cbn [String.append]; repeat rewrite hex_run_digit by lia; cbn [hex_run]; do 3 f_equal; lia.
Qed.

Lemma hex_group_plain x :
  0 <= x < 65536 → IndexByte (hex_group x) "%" = None ∧ IndexByte (hex_group x) "." = None ∧ hex_group x ≠ "".
Proof.
  intros Hx. rewrite hex_group_nibbles by done.
  assert (∀ d s c, 0 <= d < 16 → c = "%"%char ∨ c = "."%char → IndexByte s c = None →
    IndexByte (String (hex_digit d) s) c = None) as Hcons.
  { intros d s c Hd Hc Hs. destruct (hex_digit_spec d Hd) as (_ & H1 & H2). cbn [IndexByte].
    destruct Hc as [->| ->]; [rewrite H1|rewrite H2]; by rewrite Hs. }
  destruct (Z.leb_spec 0x1000 x), (Z.leb_spec 0x100 x), (Z.leb_spec 0x10 x); try lia; cbn [String.append];
    (split_and!; [| |done]); repeat (apply Hcons; [lia|auto|]); done.
Qed.

(** ** The default ranges *)

Definition default_ranges (a : Allocator) : Prop := al_cidr4 a = DefaultCIDR4 ∧ al_cidr6 a = DefaultCIDR6.

Definition v6_base : Z := 0xfd78 * 2 ^ 112.

Lemma from_bytes_app_zeros l k : from_bytes (l ++ replicate k 0) = from_bytes l * 2 ^ (8 * Z.of_nat k).
Proof.
  induction k as [|k IH]; [rewrite app_nil_r; lia|].
  rewrite replicate_S_end, app_assoc, from_bytes_snoc, IH by lia.
  rewrite Nat2Z.inj_succ. replace (8 * Z.succ (Z.of_nat k)) with (8 * Z.of_nat k + 8) by lia.
  rewrite Z.pow_add_r by lia. lia.
Qed.

Lemma vip_default a id :
  default_ranges a → 0 <= id < 2 ^ 16 →
  vipForID a id = (Addr4 (ip4 10 78 (id / 256) (id mod 256)), Addr6 (v6_base + id) "").
Proof.
  intros [H4 H6] Hid. unfold vipForID. rewrite H4, H6. cbv zeta. unfold AddrFrom4.
  rewrite !land_255, !Z.shiftr_div_pow2 by lia. f_equal.
  - f_equal. change (2 ^ 8) with 256. rewrite Z.mod_small by lia.
    rewrite from_bytes4 by (apply byte_at_range || lia). done.
  - f_equal. set (pre := _ <$> seq 0 12).
    assert (pre = [253; 120] ++ replicate 10 0) as -> by (vm_compute; reflexivity).
    assert (∀ w x y z : Z, ([253; 120] ++ replicate 10 0) ++ [w; x; y; z] =
      (((([253; 120] ++ replicate 10 0) ++ [w]) ++ [x]) ++ [y]) ++ [z]) as -> by done.
    rewrite !from_bytes_snoc by lia. rewrite from_bytes_app_zeros.
    change (from_bytes [253; 120]) with 0xfd78. unfold v6_base. change (2 ^ 24) with 16777216.
    change (2 ^ 16) with 65536 in *. change (2 ^ 8) with 256. 
    replace (2 ^ 112) with (2 ^ (8 * Z.of_nat 10) * 4294967296) by reflexivity. lia.
Qed.

(** The printed groups of a default IPv6 address. *)
Lemma groups_default id :
  0 <= id < 2 ^ 16 → group16 (v6_base + id) <$> seq 0 8 = [0xfd78; 0; 0; 0; 0; 0; 0; id].
Proof.
  intros Hid. assert (∀ i x, (i < 8)%nat → x = (v6_base + id) / 2 ^ (16 * (7 - Z.of_nat i)) mod 2 ^ 16 →
    group16 (v6_base + id) i = x) as Hg.
  { intros i x Hi ->. unfold group16. rewrite Z.shiftr_div_pow2 by lia. by apply (land_mask_low _ 16). }
  change (2 ^ 16) with 65536 in *. unfold v6_base in *.
  cbn [seq fmap list_fmap]. rewrite (Hg 0%nat 0xfd78), (Hg 1%nat 0), (Hg 2%nat 0), (Hg 3%nat 0), (Hg 4%nat 0),
    (Hg 5%nat 0), (Hg 6%nat 0), (Hg 7%nat id); [done|..]; try lia; cbn; lia.
Qed.

Lemma v6_String_default id :
  1 <= id < 2 ^ 16 → addr_String (Addr6 (v6_base + id) "") = "fd78::" +:+ hex_group id.
Proof.
  intros Hid. unfold addr_String.
  assert (Is4In6 (Addr6 (v6_base + id) "") = false) as ->.
  { unfold Is4In6, v4mapped_hi, v6_base. rewrite Z.shiftr_div_pow2 by lia. apply Z.eqb_neq.
    change (2 ^ 16) with 65536 in Hid. change (2 ^ 112) with (2 ^ 80 * 4294967296). change (2 ^ 32) with 4294967296.
    change (2 ^ 80) with 1208925819614629174706176. lia. }
  unfold v6_String. rewrite groups_default by lia. cbv zeta.
  assert (zero_run [0xfd78; 0; 0; 0; 0; 0; 0; id] = (1, 7)%nat) as ->.
  { destruct id as [|q|q]; [lia| |lia]. vm_compute. reflexivity. }
  cbv iota beta. change ((1 =? 255)%nat) with false. cbv iota. rewrite String.eqb_refl, str_app_nil_r.
  cbn [take drop]. unfold groups_String. cbn [fmap list_fmap Join].
  change (hex_group 64888) with "fd78". by rewrite <- str_app_assoc.
Qed.

Lemma ParseAddr_v6_default id :
  1 <= id < 2 ^ 16 → ParseAddr (addr_String (Addr6 (v6_base + id) "")) = Some (Addr6 (v6_base + id) "").
Proof.
  intros Hid. rewrite v6_String_default by done. change (2 ^ 16) with 65536 in Hid.
  destruct (hex_group_plain id ltac:(lia)) as (Hpct & Hdot & Hne).
  destruct (hex_run_group id ltac:(lia)) as [n Hrun]. set (h := hex_group id) in *. clearbody h.
  assert (ParseAddr ("fd78::" +:+ h) = parseIPv6 ("fd78::" +:+ h)) as -> by reflexivity.
  unfold parseIPv6. assert (IndexByte ("fd78::" +:+ h) "%" = None) as -> by (by apply IndexByte_None_app).
  cbv iota beta. change (HasPrefix ("fd78::" +:+ h) "::") with false. cbv iota zeta. cbn [andb].
  assert (ipv6_groups 8 ("fd78::" +:+ h) [] None =
    (if String.eqb h "" then Some ([253; 120], Some 2%nat, "") else ipv6_groups 7 h [253; 120] (Some 2%nat))) as ->
    by reflexivity.
  rewrite (proj2 (String.eqb_neq h "")) by done. cbn [ipv6_groups]. rewrite Hrun.
  cbn [Nat.eqb HasPrefix]. unfold ipv6_finish. cbn [app length Nat.ltb Nat.leb].
  cbn -[from_bytes]. do 2 f_equal.
  rewrite Z.shiftr_div_pow2, land_255 by lia. change (2 ^ 8) with 256.
  change (from_bytes (([253; 120] ++ replicate 12 0) ++ [id / 256; id mod 256]) = v6_base + id).
  replace [id / 256; id mod 256] with ([id / 256] ++ [id mod 256]) by done.
  rewrite app_assoc, !from_bytes_snoc, from_bytes_app_zeros by lia.
  change (from_bytes [253; 120]) with 0xfd78. unfold v6_base.
  change (2 ^ 112) with (2 ^ (8 * Z.of_nat 12) * 65536). lia.
Qed.

(** ** Restarting *)

Lemma row_loads a e :
  default_ranges a → 1 <= e_ID e <= MaxID → (e_V4 e, e_V6 e) = vipForID a (e_ID e) →
  load_row a (row_of e) = put_entry a e.
Proof.
  intros Hdef Hid Hvip. pose proof (maxid_16 _ Hid) as Hid16. rewrite vip_default in Hvip by done.
  injection Hvip as H4 H6. unfold load_row, row_of. cbn [row_v4 row_v6 row_id row_hostname].
  rewrite H4, H6. change (2 ^ 16) with 65536 in Hid16.
  rewrite ParseAddr_v4_String, ParseAddr_v6_default by (unfold MaxID in *; lia).
  destruct Hdef as [-> ->].
  assert (prefix_Contains DefaultCIDR4 (Addr4 (ip4 10 78 (e_ID e / 256) (e_ID e mod 256))) = true) as ->.
  { change DefaultCIDR4 with (mkPrefix (Addr4 (ip4 10 78 0 0)) 16). unfold prefix_Contains, prefix_hi, ip4.
    cbn [prefix_addr prefix_bits]. rewrite !Z.shiftr_div_pow2 by lia. apply Z.eqb_eq. cbn. lia. }
  assert (prefix_Contains DefaultCIDR6 (Addr6 (v6_base + e_ID e) "") = true) as ->.
  { change DefaultCIDR6 with (mkPrefix (Addr6 v6_base "") 64). unfold prefix_Contains, prefix_hi, v6_base.
    cbn [prefix_addr prefix_bits]. rewrite !Z.shiftr_div_pow2 by lia. apply Z.eqb_eq.
    change (2 ^ 112) with (2 ^ 48 * 18446744073709551616). change (2 ^ (128 - 64)) with 18446744073709551616.
    change (2 ^ 48) with 281474976710656. lia. }
  cbn [negb orb]. rewrite Z.mod_small by lia. rewrite <- H4, <- H6. by destruct e.
Qed.

(** Entries that can be entered one after the other. *)
Record loadable (a : Allocator) (l : list entry) : Prop := {
  ld_shape e : e ∈ l → 1 <= e_ID e <= MaxID ∧ (e_V4 e, e_V6 e) = vipForID a (e_ID e);
  ld_hosts : NoDup (e_Hostname <$> l);
  ld_ids : NoDup (e_ID <$> l);
  ld_fresh e : e ∈ l → byName a !! e_Hostname e = None ∧ e_ID e ∉ used a
}.

Lemma loadable_cons a e l : loadable a (e :: l) → loadable (put_entry a e) l.
Proof.
  intros [Hs Hh Hi Hf]. rewrite fmap_cons in Hh. rewrite fmap_cons in Hi.
  apply NoDup_cons in Hh as [Hhe Hh]. apply NoDup_cons in Hi as [Hie Hi]. split; try done.
  - intros e' He'. apply Hs. by right.
  - intros e' He'. destruct (Hf e') as [Hn Hu]; [by right|]. simpl. rewrite lookup_insert_ne.
    + split; [done|]. rewrite not_elem_of_union, not_elem_of_singleton. split; [|done].
      intros Heq. apply Hie. rewrite <- Heq. by apply list_elem_of_fmap_2.
    + intros Heq. apply Hhe. rewrite Heq. by apply list_elem_of_fmap_2.
Qed.

Lemma load_entries l a :
  default_ranges a → alloc_ok a → loadable a l →
  let a' := foldl load_row a (row_of <$> l) in
  alloc_ok a' ∧ default_ranges a' ∧ al_db a' = al_db a ∧
  ∀ h e, byName a' !! h = Some e ↔ byName a !! h = Some e ∨ e ∈ l ∧ e_Hostname e = h.
Proof.
  revert a. induction l as [|x l IH]; intros a Hdef Hok Hl; cbv zeta; cbn [fmap list_fmap foldl].
  { split_and!; try done; set_solver. }
  destruct Hl as [Hs Hh Hi Hf]. destruct (Hs x) as [Hid Hvip]; [left|]. destruct (Hf x) as [Hn Hu]; [left|].
  rewrite row_loads by done.
  destruct (IH (put_entry a x)) as (H1 & H2 & H3 & H4); [done|by apply put_entry_ok|by apply loadable_cons|].
  do 3 (split; [done|]). intros h e. rewrite H4. cbn [put_entry byName]. rewrite lookup_insert_Some, elem_of_cons.
  split; [naive_solver|]. intros [Ho|[[->|Hin] <-]]; [|by left; left|by right].
  left. right. split; [|done]. intros <-. congruence.
Qed.

Definition fresh (t : list row) : Allocator := mkAlloc DefaultCIDR4 DefaultCIDR6 ∅ ∅ ∅ ∅ [] [] ∅ t.

Lemma fresh_ok t : alloc_ok (fresh t).
Proof.
  split; simpl.
  - intros h e. by rewrite lookup_empty.
  - intros addr e. rewrite !lookup_empty. naive_solver.
  - intros addr e. rewrite !lookup_empty. naive_solver.
  - intros id. split; [set_solver|]. intros (h & e & He & _). by rewrite lookup_empty in He.
  - intros h1 h2 e1 e2. by rewrite lookup_empty.
  - set_solver.
Qed.

Definition table_entries (a : Allocator) : list entry :=
  stable_sort (λ x y, e_ID x <? e_ID y) (map_to_list (byName a)).*2.

Lemma elem_of_table_entries a e : alloc_ok a → e ∈ table_entries a ↔ byName a !! e_Hostname e = Some e.
Proof.
  intros Hok. unfold table_entries. rewrite elem_of_stable_sort, list_elem_of_fmap. split.
  - intros ([h e'] & -> & Hin%elem_of_map_to_list). simpl. by destruct (ok_entry a Hok h e' Hin) as [-> _].
  - intros He. exists (e_Hostname e, e). by rewrite elem_of_map_to_list.
Qed.

Lemma table_entries_loadable a t : alloc_ok a → default_ranges a → loadable (fresh t) (table_entries a).
Proof.
  intros Hok [D4 D6]. assert (NoDup (e_Hostname <$> table_entries a)) as Hnd.
  { unfold table_entries. rewrite stable_sort_perm.
    replace (e_Hostname <$> (map_to_list (byName a)).*2) with (map_to_list (byName a)).*1;
      [apply NoDup_fst_map_to_list|].
    rewrite <- list_fmap_compose. apply list_fmap_ext. intros i [h e] Hin. apply list_elem_of_lookup_2 in Hin.
    apply elem_of_map_to_list in Hin. simpl. symmetry. by apply (ok_entry a Hok). }
  split; [|done| |].
  - intros e He%elem_of_table_entries; [|done]. destruct (ok_entry a Hok _ _ He) as (_ & ? & Hv).
    split; [done|]. rewrite Hv. unfold vipForID. by rewrite D4, D6.
  - apply (NoDup_fmap_2_strong e_ID); [|by apply NoDup_fmap_1 in Hnd].
    intros x y Hx%elem_of_table_entries Hy%elem_of_table_entries Heq; try done.
    assert (e_Hostname x = e_Hostname y) as Hxy by (by eapply (ok_inj a Hok)). rewrite Hxy in Hx. congruence.
  - intros e _. simpl. rewrite lookup_empty. set_solver.
Qed.

(** Loading the table an allocator wrote restores its allocations. *)
Lemma restart_spec a :
  alloc_ok a → default_ranges a →
  ∃ a', New (Some (table_of a)) DefaultCIDR4 DefaultCIDR6 = Ok a' ∧ alloc_ok a' ∧ default_ranges a' ∧
    byName a' = byName a ∧ al_db a' = table_of a.
Proof.
  intros Hok Hdef. exists (load (fresh (table_of a))). split; [done|].
  change (load (fresh (table_of a))) with (foldl load_row (fresh (table_of a)) (row_of <$> table_entries a)).
  destruct (load_entries (table_entries a) (fresh (table_of a))) as (H1 & H2 & H3 & H4);
    [done|apply fresh_ok|by apply table_entries_loadable|].
  split; [done|]. split; [done|]. split; [|done]. apply map_eq. intros h. apply option_eq. intros e.
  rewrite H4. cbn [byName fresh]. rewrite lookup_empty, elem_of_table_entries by done. split.
  - intros [?|[He <-]]; done.
  - intros He. right. destruct (ok_entry a Hok h e He) as [<- _]. done.
Qed.

(** ** Reachable states *)

(** The transitions of an allocator: a policy reload, the allocation a query
    triggers under the write lock, and a restart of the process on the table
    the database holds. [commits] is the fate of the transaction. *)
Inductive vip_step : Allocator -> Allocator -> Prop :=
| step_rebuild ordF ordH commits policy a :
    range_order ordF (byName a) →
    vip_step a (RebuildFromPolicy ordF ordH commits policy a).1
| step_lazy commits h a : vip_step a (lazyAllocateForPattern commits a h).1
| step_restart a a' :
    New (Some (al_db a)) DefaultCIDR4 DefaultCIDR6 = Ok a' → vip_step a a'.

Definition vip_reachable (a : Allocator) : Prop := rtc vip_step (fresh []) a.

Definition vip_inv (a : Allocator) : Prop :=
  alloc_ok a ∧ default_ranges a ∧ ∃ a0, alloc_ok a0 ∧ default_ranges a0 ∧ al_db a = table_of a0.

Lemma vip_step_inv a a' : vip_inv a → vip_step a a' → vip_inv a'.
Proof.
  intros (Hok & [D4 D6] & a0 & Hok0 & Hdef0 & Hdb). destruct 1 as [ordF ordH commits policy a Hord|commits h a|a a' Hnew].
  - pose proof (Rebuild_spec ordF ordH commits policy a Hok Hord) as Hs.
    destruct (collectRequiredHosts ordH policy), (RebuildFromPolicy ordF ordH commits policy a) as [a1 r].
    destruct Hs as (H1 & H2 & H3 & H4 & _). split; [done|]. split; [split; simpl; congruence|].
    destruct H4 as [H4|H4]; [exists a0; simpl; split_and!; try done; congruence|].
    exists a1. split_and!; try done; simpl; split; congruence.
  - pose proof (lazy_spec commits a h Hok) as Hs.
    destruct (lazyAllocateForPattern commits a h) as [a1 b]. destruct Hs as (H1 & H2 & H3 & _ & H4 & _).
    split; [done|]. split; [split; simpl; congruence|].
    destruct H4 as [H4|H4]; [exists a0; simpl; split_and!; try done; congruence|].
    exists a1. split_and!; try done; simpl; split; congruence.
  - destruct (restart_spec a0 Hok0 Hdef0) as (a1 & Hn & H1 & H2 & _ & H4). rewrite Hdb, Hn in Hnew. injection Hnew as <-.
    split; [done|]. split; [done|]. exists a0. exact (conj Hok0 (conj Hdef0 H4)).
Qed.

Lemma vip_reachable_inv a : vip_reachable a → vip_inv a.
Proof.
  intros H. apply (rtc_ind_r vip_inv (fresh [])) in H; [done| |].
  - split; [apply fresh_ok|]. split; [done|]. exists (fresh []). split; [apply fresh_ok|done].
  - intros x y _ Hs Hx. by eapply vip_step_inv.
Qed.

(** ** Properties *)

(** In every reachable state a virtual address stands for one hostname: both
    addresses of a hostname, as text, look up to that hostname and its bindings;
    no other hostname shares either of them; and neither is the address reserved
    for the gateway's own name. *)
Theorem vip_bijection a h e :
  vip_reachable a → byName a !! h = Some e →
  LookupVIP a (addr_String (e_V4 e)) = (h, default [] (endpoints a !! h)) ∧
  LookupVIP a (addr_String (e_V6 e)) = (h, default [] (endpoints a !! h)) ∧
  (∀ h' e', byName a !! h' = Some e' → e_V4 e' = e_V4 e ∨ e_V6 e' = e_V6 e → h' = h) ∧
  e_V4 e ≠ (InternalVIPs a).1 ∧ e_V6 e ≠ (InternalVIPs a).2.
Proof.
  intros (Hok & Hdef & _)%vip_reachable_inv Hh. destruct (ok_entry a Hok h e Hh) as (Hn & Hid & Hv).
  pose proof (maxid_16 _ Hid) as H16. pose proof Hv as Hv'. rewrite vip_default in Hv' by done.
  injection Hv' as H4 H6. change (2 ^ 16) with 65536 in H16.
  split; [|split; [|split; [|split]]].
  - unfold LookupVIP. rewrite H4, ParseAddr_v4_String by lia. cbn [Is4]. rewrite <- H4.
    rewrite (proj2 (ok_v4 a Hok (e_V4 e) e)) by (by rewrite Hn). by rewrite Hn.
  - unfold LookupVIP. rewrite H6, ParseAddr_v6_default by lia. cbn [Is4]. rewrite <- H6.
    rewrite (proj2 (ok_v6 a Hok (e_V6 e) e)) by (by rewrite Hn). by rewrite Hn.
  - intros h' e' Hh' [?|?]; [by eapply entry_v4_inj|by eapply entry_v6_inj].
  - intros Heq. apply (f_equal fst) in Hv. cbn [fst] in Hv. unfold InternalVIPs in Heq. rewrite Hv in Heq.
    apply vip4_inj in Heq; [|done|done]. unfold internalID, MaxID in *. lia.
  - intros Heq. apply (f_equal snd) in Hv. cbn [snd] in Hv. unfold InternalVIPs in Heq. rewrite Hv in Heq.
    apply vip6_inj in Heq; [|done|done]. unfold internalID, MaxID in *. lia.
Qed.

(** A policy reload keeps the address of every hostname the new policy still
    claims, releases every other, and, unless all 65534 IDs are taken, gives an
    address to each exact hostname the policy needs; whatever the visiting
    orders and the fate of the transaction. *)
Theorem rebuild_stable a ordF ordH commits policy :
  vip_reachable a → range_order ordF (byName a) →
  let '(req, pats) := collectRequiredHosts ordH policy in
  let '(a', r) := RebuildFromPolicy ordF ordH commits policy a in
  (∀ h e, byName a !! h = Some e → is_claimed req pats h = true → byName a' !! h = Some e) ∧
  (∀ h, is_Some (byName a' !! h) → is_claimed req pats h = true) ∧
  (r = Err PoolExhausted ∧ (∀ id, 1 <= id <= MaxID → id ∈ used a') ∨
   r ≠ Err PoolExhausted ∧ (∀ h, is_Some (req !! h) → is_Some (byName a' !! h)) ∧ patterns a' = pats ∧
   endpoints a' = rebuilt_endpoints req pats (byName a')).
Proof.
  intros (Hok & _ & _)%vip_reachable_inv Hord. pose proof (Rebuild_spec ordF ordH commits policy a Hok Hord) as Hs.
  destruct (collectRequiredHosts ordH policy), (RebuildFromPolicy ordF ordH commits policy a). by apply Hs.
Qed.

(** C37. A reload that reports success is durable: a process restarted on the
    database has the same hostname-to-address table. *)
Theorem rebuild_survives_restart a ordF ordH commits policy a' :
  vip_reachable a → range_order ordF (byName a) →
  RebuildFromPolicy ordF ordH commits policy a = (a', Ok tt) →
  ∃ a'', New (Some (al_db a')) DefaultCIDR4 DefaultCIDR6 = Ok a'' ∧ byName a'' = byName a'.
Proof.
  intros Hr Hord Hreb. assert (vip_reachable a') as (Hok' & Hdef' & _)%vip_reachable_inv.
  { eapply rtc_r; [done|]. pose proof (step_rebuild ordF ordH commits policy a Hord) as Hs. by rewrite Hreb in Hs. }
  assert (al_db a' = table_of a') as ->.
  { unfold RebuildFromPolicy in Hreb. repeat (dcase_in Hreb; try done).
    unfold persistLocked in Hreb. destruct commits; [by injection Hreb as <-|done]. }
  destruct (restart_spec a' Hok' Hdef') as (a'' & ? & _ & _ & ? & _). eauto.
Qed.

(** ** Queries *)

Lemma entry_addrs_valid a h e :
  vip_inv a → byName a !! h = Some e → IsValid (e_V4 e) = true ∧ IsValid (e_V6 e) = true.
Proof.
  intros (Hok & Hdef & _) Hh. destruct (ok_entry a Hok h e Hh) as (_ & Hid & Hv).
  rewrite vip_default in Hv by (done || by apply maxid_16). by injection Hv as -> ->.
Qed.

Lemma intercepts_claimed commits a h :
  vip_inv a → ToLower h = h → isInternalName h = false →
  is_Some (byName a !! h) ∨
    (matchPatternBindings (patterns a) h ≠ None ∧ ∃ id, 1 <= id <= MaxID ∧ id ∉ used a) →
  ∃ a' e, intercepts commits a h = (a', true) ∧ byName a' !! h = Some e ∧ byName a ⊆ byName a' ∧ vip_inv a'.
Proof.
  intros Hinv Hlow Hint Hcl. unfold intercepts. rewrite Hlow, Hint.
  destruct (byName a !! h) as [e|] eqn:Eh; [by exists a, e|].
  destruct Hcl as [[? ?]|[Hm (id & Hid & Hfree)]]; [done|].
  destruct (matchPatternBindings (patterns a) h) eqn:Em; [|done].
  pose proof (lazy_spec commits a h (proj1 Hinv)) as Hs.
  pose proof (vip_step_inv a _ Hinv (step_lazy commits h a)) as Hinv'.
  destruct (lazyAllocateForPattern commits a h) as [a' b].
  destruct Hs as (_ & _ & _ & _ & _ & Hsub & Hb & Hf). destruct b.
  - destruct (proj1 Hb eq_refl) as [e He]. by exists a', e.
  - destruct (Hf eq_refl) as [?|Hall]; [congruence|]. by destruct Hfree; apply Hall.
Qed.

Section Queries.
Context (lookupIP : string -> string -> list Addr * option LookupError) (exchange : string -> bool).

(** A name the policy claims is answered locally with its own addresses: an A
    question with the IPv4 one, an AAAA question with the IPv6 one, any other
    type with nothing; it is never sent upstream. The name is allocated on its
    first query if need be, and the addresses already handed out stay. *)
Theorem handleQuery_claimed commits a h qt dst :
  vip_reachable a → ToLower h = h → isInternalName h = false →
  is_Some (byName a !! h) ∨
    (matchPatternBindings (patterns a) h ≠ None ∧ ∃ id, 1 <= id <= MaxID ∧ id ∉ used a) →
  ∃ a' e, byName a' !! h = Some e ∧ byName a ⊆ byName a' ∧
    handleQuery lookupIP exchange commits a [mkQuestion (h +:+ ".") qt] dst =
    (a', Reply true match qt with
                    | TypeA => [mkRR (h +:+ ".") TypeA (e_V4 e)]
                    | TypeAAAA => [mkRR (h +:+ ".") TypeAAAA (e_V6 e)]
                    | _ => []
                    end).
Proof.
  intros Hr Hlow Hint Hcl. pose proof (vip_reachable_inv a Hr) as Hinv.
  destruct (intercepts_claimed commits a h Hinv Hlow Hint Hcl) as (a' & e & Hi & He & Hsub & Hinv').
  exists a', e. split; [done|]. split; [done|]. destruct (entry_addrs_valid a' h e Hinv' He) as [V4 V6].
  unfold handleQuery. cbn [any_intercepted q_Name]. rewrite TrimSuffix_app, Hi.
  cbn [fmap list_fmap]. unfold answer_question. cbn [q_Name q_Qtype]. rewrite TrimSuffix_app, Hint.
  unfold VIPsFor. rewrite He, V4, V6. by destruct qt.
Qed.

(** Resolvers may send a name in any letter case. The interception test folds
    the case, the answer does not: a claimed name asked for in another case is
    intercepted and answered with no address at all. *)
Theorem handleQuery_mixed_case_unanswered commits a h e dst :
  isInternalName h = false → isInternalName (ToLower h) = false →
  byName a !! ToLower h = Some e → byName a !! h = None →
  handleQuery lookupIP exchange commits a [mkQuestion (h +:+ ".") TypeA] dst = (a, Reply true []).
Proof.
  intros Hint Hint' He Hn. unfold handleQuery. cbn [any_intercepted q_Name]. rewrite TrimSuffix_app.
  unfold intercepts. rewrite Hint', He. cbn [fmap list_fmap]. unfold answer_question. cbn [q_Name q_Qtype].
  rewrite TrimSuffix_app, Hint. unfold VIPsFor. by rewrite Hn.
Qed.

Lemma intercepts_miss commits a h :
  alloc_ok a → (intercepts commits a h).2 = false →
  isInternalName (ToLower h) = false ∧ byName a !! ToLower h = None ∧
  (matchPatternBindings (patterns a) (ToLower h) = None ∨ ∀ id, 1 <= id <= MaxID → id ∈ used a) ∧
  let a' := (intercepts commits a h).1 in
  alloc_ok a' ∧ byName a' = byName a ∧ patterns a' = patterns a.
Proof.
  intros Hok. unfold intercepts. destruct (isInternalName (ToLower h)); [done|].
  destruct (byName a !! ToLower h) eqn:Eh; [done|].
  destruct (matchPatternBindings (patterns a) (ToLower h)) eqn:Em; [|by auto 10].
  unfold lazyAllocateForPattern. rewrite Eh, Em.
  pose proof (allocateLocked_spec a (ToLower h) Hok Eh) as Hs.
  destruct (allocateLocked a (ToLower h)) as [a1 [u|err]]; [done|].
  destruct Hs as (_ & Hok1 & (_ & _ & _ & Hp) & Hn & Hall). intros _. split_and!; auto.
Qed.

(** Only a question about a name the table does not claim leaves the gateway:
    when a query is relayed, it goes to the resolver the agent addressed, its
    first question is neither an address nor an HTTPS/SVCB question, and every
    question names a host without an address that no pattern covers (or the
    pool is exhausted). *)
Theorem handleQuery_relays_unclaimed commits a q dst a' d :
  alloc_ok a → handleQuery lookupIP exchange commits a q dst = (a', Relayed d) →
  d = dst ∧ (∃ qd n, head q = Some qd ∧ q_Qtype qd = TypeOther n) ∧
  ∀ qq, qq ∈ q → let h := ToLower (TrimSuffix (q_Name qq) ".") in
    isInternalName h = false ∧ byName a !! h = None ∧
    (matchPatternBindings (patterns a) h = None ∨ ∀ id, 1 <= id <= MaxID → id ∈ used a).
Proof.
  intros Hok H. unfold handleQuery in H. destruct q as [|qd q]; [done|].
  destruct (any_intercepted commits a (qd :: q)) as [a1 []] eqn:Ea; [done|]. injection H as -> Hf.
  assert (d = dst ∧ ∃ n, q_Qtype qd = TypeOther n) as [-> [n Hn]].
  { unfold forwardUpstream, synthIPResponse, relayUpstream, negResponse in Hf.
    destruct (q_Qtype qd) as [| | | |n]; [..|split; [|eauto]]; repeat (dcase_in Hf; try done); by simplify_eq. }
  split; [done|]. split; [by exists qd, n|]. clear Hf Hn n. revert a a' Hok Ea.
  generalize (qd :: q). clear qd q. intros q. induction q as [|qq q IH]; intros a a' Hok Ea; [set_solver|].
  cbn [any_intercepted] in Ea. pose proof (intercepts_miss commits a (TrimSuffix (q_Name qq) ".") Hok) as Hm.
  destruct (intercepts commits a (TrimSuffix (q_Name qq) ".")) as [a2 []]; [done|].
  destruct (Hm eq_refl) as (H1 & H2 & H3 & H4 & H5 & H6). cbn [fst] in H4, H5, H6.
  intros x [->|Hx]%elem_of_cons; [done|]. destruct (IH a2 a' H4 Ea x Hx) as (G1 & G2 & G3).
  rewrite H5 in G2. rewrite H6 in G3. do 2 (split; [done|]). destruct G3 as [G3|G3]; [by left|right].
  intros id Hid. apply (ok_used a Hok). rewrite <- H5. apply (ok_used a2 H4). by apply G3.
Qed.
End Queries.

(** ** Witnesses *)

Definition ssh_endpoint : CompiledEndpoint :=
  mkEndpoint "build" "ssh" (mkPlugin "endpoint" "ssh" "ssh" None None) (mkBody None None (Some true) None None)
    ["build.example.com"; "*.aws.example.com:2222"; "192.0.2.1"] [] [] "" "" false None.

Definition ssh_policy : CompiledPolicy :=
  mkPolicy "" "" "" "" [] 0 0 "" "" ∅ {["build" := ssh_endpoint]} ∅ ∅ ∅.

Definition ssh_rebuild : Allocator * result unit VipError :=
  RebuildFromPolicy [] ["build"] true (Some ssh_policy) (fresh []).

Definition ssh_alloc : Allocator := ssh_rebuild.1.

Lemma range_order_nil : range_order [] (byName (fresh [])).
Proof. split; [constructor|]. intros k. simpl. rewrite lookup_empty. split; [set_solver|by intros [? ?]]. Qed.

Lemma ssh_reachable : vip_reachable ssh_alloc.
Proof. eapply rtc_once. apply step_rebuild, range_order_nil. Qed.

Definition build_entry : entry := mkEntry 1 "build.example.com" (Addr4 172883969) (Addr6 (v6_base + 1) "").

Lemma vip_bijection_witness :
  LookupVIP ssh_alloc "10.78.0.1" = ("build.example.com", [mkHit ssh_endpoint 22]) ∧
  LookupVIP ssh_alloc "fd78::1" = ("build.example.com", [mkHit ssh_endpoint 22]).
Proof.
  destruct (vip_bijection ssh_alloc "build.example.com" build_entry ssh_reachable) as (H1 & H2 & _);
    [vm_compute; reflexivity|]. split; [exact H1|exact H2].
Defined.

Lemma rebuild_stable_witness :
  range_order ["build.example.com"] (byName ssh_alloc) ∧
  (∀ h e, byName ssh_alloc !! h = Some e → is_claimed ∅ [] h = true →
     byName (RebuildFromPolicy ["build.example.com"] [] false None ssh_alloc).1 !! h = Some e) ∧
  byName (RebuildFromPolicy ["build.example.com"] [] false None ssh_alloc).1 = ∅.
Proof.
  assert (range_order ["build.example.com"] (byName ssh_alloc)) as Ho.
  { split; [repeat constructor; set_solver|]. intros k.
    assert (byName ssh_alloc = {["build.example.com" := build_entry]}) as -> by (vm_compute; reflexivity).
    rewrite list_elem_of_singleton, lookup_singleton_is_Some. naive_solver. }
  split; [done|]. split; [|vm_compute; reflexivity].
  pose proof (rebuild_stable ssh_alloc ["build.example.com"] [] false None ssh_reachable Ho) as H.
  cbn [collectRequiredHosts] in H. destruct (RebuildFromPolicy _ _ _ _ _) as [a' r]. apply H.
Defined.

Lemma rebuild_survives_restart_witness :
  ∃ a'', New (Some (al_db ssh_alloc)) DefaultCIDR4 DefaultCIDR6 = Ok a'' ∧ byName a'' = byName ssh_alloc.
Proof.
  apply (rebuild_survives_restart (fresh []) [] ["build"] true (Some ssh_policy));
    [apply rtc_refl|apply range_order_nil|vm_compute; reflexivity].
Defined.

Definition no_lookup (network host : string) : list Addr * option LookupError := ([], Some NotFound).
Definition always_up (dst : string) : bool := true.

Lemma handleQuery_claimed_witness :
  ∃ a' e, byName a' !! "s3.aws.example.com" = Some e ∧ byName ssh_alloc ⊆ byName a' ∧
    handleQuery no_lookup always_up true ssh_alloc [mkQuestion "s3.aws.example.com." TypeA] "1.1.1.1" =
    (a', Reply true [mkRR "s3.aws.example.com." TypeA (e_V4 e)]).
Proof.
  apply (handleQuery_claimed no_lookup always_up true ssh_alloc "s3.aws.example.com" TypeA "1.1.1.1" ssh_reachable);
    [reflexivity|reflexivity|]. right. split; [vm_compute; discriminate|]. exists 2. split; [unfold MaxID; lia|].
  apply (bool_decide_eq_false (2 ∈ used ssh_alloc)). vm_compute. reflexivity.
Defined.

Lemma handleQuery_mixed_case_unanswered_witness :
  handleQuery no_lookup always_up true ssh_alloc [mkQuestion "Build.Example.com." TypeA] "1.1.1.1" = (ssh_alloc, Reply true []).
Proof.
  apply (handleQuery_mixed_case_unanswered no_lookup always_up true ssh_alloc "Build.Example.com" build_entry);
    vm_compute; reflexivity.
Defined.

Lemma handleQuery_relays_unclaimed_witness :
  byName ssh_alloc !! "example.org" = None.
Proof.
  destruct (handleQuery_relays_unclaimed no_lookup always_up true ssh_alloc
    [mkQuestion "example.org." (TypeOther 15)] "1.1.1.1" ssh_alloc "1.1.1.1") as (_ & _ & H).
  - apply (vip_reachable_inv _ ssh_reachable).
  - vm_compute. reflexivity.
  - apply (H (mkQuestion "example.org." (TypeOther 15))). left.
Defined.
