(* ===== verification/Devices.v ===== *)
(** * Devices and their addresses: [onboard.go], [main.go]

    The registry of onboarded devices: which profile, owner, host name and node an
    address has, which addresses are aliases of a device, and the table behind
    it. Each operation is one critical section of the registry's lock. *)
From S2P Require Import Prelude GoStrings NetAddr Policy.

(** ** State *)

(** A row of the [devices] table; an empty string is stored as NULL. *)
Record DeviceRow := mkDeviceRow {
  dr_name : option string;
  dr_profile : option string;
  dr_external_ipv4 : option string;
  dr_external_ipv6 : option string;
  dr_ts_node_id : option string
}.

(** The maps of [onboardRegistry] keyed by address, and its table; the handle is
    nil when there is no database. Statements succeed. *)
Record Devices := mkDevices {
  ownerByIP : gmap string string;
  hostnameByIP : gmap string string;
  profileByIP : gmap string string;
  extV4ByIP : gmap string string;
  extV6ByIP : gmap string string;
  canonicalByAlias : gmap string string;
  nodeIDByIP : gmap string string;
  knownDeviceIPs : gset string;
  resolveTriedAt : gmap string Z;
  dev_db : option (gmap string DeviceRow)
}.

Definition newOnboardRegistry : Devices := mkDevices ∅ ∅ ∅ ∅ ∅ ∅ ∅ ∅ ∅ None.

(** A Go map of strings read at a key. *)
Definition at_key (m : gmap string string) (k : string) : string := default "" (m !! k).

Definition put_owner (ip v : string) (r : Devices) : Devices :=
  mkDevices (<[ip := v]> (ownerByIP r)) (hostnameByIP r) (profileByIP r) (extV4ByIP r) (extV6ByIP r) (canonicalByAlias r)
    (nodeIDByIP r) (knownDeviceIPs r) (resolveTriedAt r) (dev_db r).
Definition put_hostname (ip v : string) (r : Devices) : Devices :=
  mkDevices (ownerByIP r) (<[ip := v]> (hostnameByIP r)) (profileByIP r) (extV4ByIP r) (extV6ByIP r) (canonicalByAlias r)
    (nodeIDByIP r) (knownDeviceIPs r) (resolveTriedAt r) (dev_db r).
Definition set_profiles (m : gmap string string) (r : Devices) : Devices :=
  mkDevices (ownerByIP r) (hostnameByIP r) m (extV4ByIP r) (extV6ByIP r) (canonicalByAlias r)
    (nodeIDByIP r) (knownDeviceIPs r) (resolveTriedAt r) (dev_db r).
Definition put_profile (ip v : string) (r : Devices) : Devices := set_profiles (<[ip := v]> (profileByIP r)) r.
Definition put_external (ip v4 v6 : string) (r : Devices) : Devices :=
  mkDevices (ownerByIP r) (hostnameByIP r) (profileByIP r)
    (if String.eqb v4 "" then extV4ByIP r else <[ip := v4]> (extV4ByIP r))
    (if String.eqb v6 "" then extV6ByIP r else <[ip := v6]> (extV6ByIP r))
    (canonicalByAlias r) (nodeIDByIP r) (knownDeviceIPs r) (resolveTriedAt r) (dev_db r).
Definition put_alias (alias canonical : string) (r : Devices) : Devices :=
  mkDevices (ownerByIP r) (hostnameByIP r) (profileByIP r) (extV4ByIP r) (extV6ByIP r)
    (<[alias := canonical]> (canonicalByAlias r)) (nodeIDByIP r) (knownDeviceIPs r) (resolveTriedAt r) (dev_db r).
Definition put_node (ip v : string) (r : Devices) : Devices :=
  mkDevices (ownerByIP r) (hostnameByIP r) (profileByIP r) (extV4ByIP r) (extV6ByIP r) (canonicalByAlias r)
    (<[ip := v]> (nodeIDByIP r)) (knownDeviceIPs r) (resolveTriedAt r) (dev_db r).
Definition put_tried (ip : string) (t : Z) (r : Devices) : Devices :=
  mkDevices (ownerByIP r) (hostnameByIP r) (profileByIP r) (extV4ByIP r) (extV6ByIP r) (canonicalByAlias r)
    (nodeIDByIP r) (knownDeviceIPs r) (<[ip := t]> (resolveTriedAt r)) (dev_db r).

(** ** The table *)

Definition tsnetPlaceholderPrefix : string := "tsnet-".

Definition nullStr (s : string) : option string := if String.eqb s "" then None else Some s.

Definition row_of (r : Devices) (ip : string) : DeviceRow :=
  mkDeviceRow (nullStr (at_key (hostnameByIP r) ip)) (nullStr (at_key (profileByIP r) ip))
    (nullStr (at_key (extV4ByIP r) ip)) (nullStr (at_key (extV6ByIP r) ip)) (nullStr (at_key (nodeIDByIP r) ip)).

(** Some map has an entry for the address. *)
Definition has_entry (r : Devices) (ip : string) : bool :=
  bool_decide (is_Some (profileByIP r !! ip)) || bool_decide (is_Some (hostnameByIP r !! ip)) ||
  bool_decide (is_Some (ownerByIP r !! ip)) || bool_decide (is_Some (extV4ByIP r !! ip)) ||
  bool_decide (is_Some (extV6ByIP r !! ip)) || bool_decide (is_Some (nodeIDByIP r !! ip)).

Definition upsertLocked (ip : string) (r : Devices) : Devices :=
  match dev_db r with
  | None => r
  | Some t =>
      if HasPrefix ip tsnetPlaceholderPrefix then r
      else if has_entry r ip then
        mkDevices (ownerByIP r) (hostnameByIP r) (profileByIP r) (extV4ByIP r) (extV6ByIP r) (canonicalByAlias r)
          (nodeIDByIP r) ({[ip]} ∪ knownDeviceIPs r) (resolveTriedAt r) (Some (<[ip := row_of r ip]> t))
      else r
  end.

Definition put_opt (ip : string) (v : option string) (m : gmap string string) : gmap string string :=
  match v with Some s => <[ip := s]> m | None => m end.

Definition load_device (r : Devices) (e : string * DeviceRow) : Devices :=
  let '(ip, row) := e in
  mkDevices (ownerByIP r) (put_opt ip (dr_name row) (hostnameByIP r)) (put_opt ip (dr_profile row) (profileByIP r))
    (put_opt ip (dr_external_ipv4 row) (extV4ByIP r)) (put_opt ip (dr_external_ipv6 row) (extV6ByIP r)) (canonicalByAlias r)
    (put_opt ip (dr_ts_node_id row) (nodeIDByIP r)) ({[ip]} ∪ knownDeviceIPs r) (resolveTriedAt r) (dev_db r).

(** [Load]: the rows are visited in any order, each once. *)
Definition devices_Load (db : option (gmap string DeviceRow)) (r : Devices) : Devices :=
  let r := mkDevices (ownerByIP r) (hostnameByIP r) (profileByIP r) (extV4ByIP r) (extV6ByIP r) (canonicalByAlias r)
             (nodeIDByIP r) (knownDeviceIPs r) (resolveTriedAt r) db in
  match db with
  | None => r
  | Some t => foldl load_device r (map_to_list t)
  end.

(** ** Lookups *)

Definition ExternalIPs (r : Devices) (ip : string) : string * string := (at_key (extV4ByIP r) ip, at_key (extV6ByIP r) ip).
Definition ProfileForIP (r : Devices) (ip : string) : string := at_key (profileByIP r) ip.
Definition OwnerForIP (r : Devices) (ip : string) : string := at_key (ownerByIP r) ip.
Definition HostnameForIP (r : Devices) (ip : string) : string := at_key (hostnameByIP r) ip.
Definition NodeIDForIP (r : Devices) (ip : string) : string := if String.eqb ip "" then "" else at_key (nodeIDByIP r) ip.
Definition HasDevice (r : Devices) (ip : string) : bool := bool_decide (ip ∈ knownDeviceIPs r).

Definition AgentIPFor (r : Devices) (ip : string) : string :=
  let canonical := at_key (canonicalByAlias r) ip in
  if String.eqb canonical "" then ip else canonical.

(** [ord] is the visiting order of the map. *)
Definition IPForHostname (ord : list string) (r : Devices) (owner hostname : string) : string :=
  if String.eqb hostname "" then ""
  else match List.find (λ '(ip, hn), String.eqb hn hostname &&
                negb (negb (String.eqb owner "") && negb (String.eqb (at_key (ownerByIP r) ip) "") &&
                      negb (String.eqb (at_key (ownerByIP r) ip) owner)))
               (range_over ord (hostnameByIP r)) with
       | Some (ip, _) => ip
       | None => ""
       end.

Definition UnboundDeviceIPs (r : Devices) : list string :=
  stable_sort String.ltb (filter (λ ip, at_key (nodeIDByIP r) ip = "") (elements (knownDeviceIPs r))).

(** The loop stops at the second device. *)
Fixpoint unique_scan (known : gset string) (nodeID found : string) (l : list (string * string)) : string :=
  match l with
  | [] => found
  | (ip, id) :: rest =>
      if negb (String.eqb id nodeID) || negb (bool_decide (ip ∈ known)) then unique_scan known nodeID found rest
      else if negb (String.eqb found "") && negb (String.eqb found ip) then ""
      else unique_scan known nodeID ip rest
  end.

Definition uniqueIPForNodeIDLocked (r : Devices) (nodeID : string) : string :=
  if String.eqb nodeID "" then "" else unique_scan (knownDeviceIPs r) nodeID "" (map_to_list (nodeIDByIP r)).

(** ** Updates *)

(** [canonicalPeerIP]; [wg] is the address of the WireGuard server, when there is
    one. *)
Definition canonicalPeerIP (wg : option Addr) (ip : string) : string :=
  if negb (ContainsByte ip ":") then ip
  else match ParseAddr ip with
       | Some (Addr6 v z) =>
           if negb ((Z.shiftr v 120 =? 253) && (Z.land (Z.shiftr v 112) 255 =? 119)) then ip
           else
             let prefix := match wg with Some (Addr4 s) => Z.shiftr s 8 | _ => from_bytes [10; 55; 0] end in
             addr_String (Addr4 (Z.lor (Z.shiftl prefix 8) (Z.land v 255)))
       | _ => ip
       end.

Definition SetExternalIPs (wg : option Addr) (ip v4 v6 : string) (r : Devices) : Devices :=
  let ip := canonicalPeerIP wg ip in
  if String.eqb ip "" || (String.eqb v4 "" && String.eqb v6 "") then r
  else
    let changed := (negb (String.eqb v4 "") && negb (String.eqb (at_key (extV4ByIP r) ip) v4)) ||
                   (negb (String.eqb v6 "") && negb (String.eqb (at_key (extV6ByIP r) ip) v6)) in
    if changed then upsertLocked ip (put_external ip v4 v6 r) else r.

Definition registerIPAliasLocked (alias canonical : string) (r : Devices) : Devices :=
  let p := at_key (profileByIP r) canonical in
  put_alias alias canonical (if String.eqb p "" then r else put_profile alias p r).

Definition RegisterIPAlias : string -> string -> Devices -> Devices := registerIPAliasLocked.

(** The addresses that are aliases of a device. *)
Definition aliases_of (r : Devices) (canonical : string) : gmap string string :=
  filter (λ e, e.2 = canonical) (canonicalByAlias r).

Definition AssignProfile (ip profile : string) (r : Devices) : Devices :=
  let canonical := AgentIPFor r ip in
  upsertLocked canonical
    (set_profiles ((const profile <$> aliases_of r canonical) ∪ <[canonical := profile]> (profileByIP r)) r).

Definition seedPlaceholder (id hostname owner profile : string) (r : Devices) : Devices :=
  let r := if String.eqb hostname "" then r else put_hostname id hostname r in
  let r := if String.eqb owner "" then r else put_owner id owner r in
  if String.eqb profile "" then r else put_profile id profile r.

Definition SetHostname (ip hostname : string) (r : Devices) : Devices :=
  if String.eqb ip "" || String.eqb hostname "" then r else upsertLocked ip (put_hostname ip hostname r).

Definition SetOwner (ip owner : string) (r : Devices) : Devices :=
  if String.eqb ip "" || String.eqb owner "" then r else upsertLocked ip (put_owner ip owner r).

(** The section of [ClaimIP] on a session that was approved by [owner]. *)
Definition claim_entry (ip hostnameOverride owner hostname profile : string) (r : Devices) : Devices :=
  let r := put_owner ip owner r in
  let r := if negb (String.eqb hostnameOverride "") then put_hostname ip hostnameOverride r
           else if negb (String.eqb hostname "") then put_hostname ip hostname r else r in
  let r := if String.eqb profile "" then r else put_profile ip profile r in
  upsertLocked ip r.

Definition setNodeIDLocked (ip nodeID : string) (r : Devices) : Devices :=
  if String.eqb (at_key (nodeIDByIP r) ip) nodeID then r else upsertLocked ip (put_node ip nodeID r).

Definition SetNodeID (ip nodeID : string) (r : Devices) : Devices :=
  if String.eqb ip "" || String.eqb nodeID "" then r
  else if HasDevice r ip then setNodeIDLocked ip nodeID r else r.

Definition BindNodeIfUnbound (ip nodeID : string) (r : Devices) : Devices * bool :=
  if String.eqb ip "" || String.eqb nodeID "" then (r, false)
  else if negb (HasDevice r ip) || negb (String.eqb (at_key (nodeIDByIP r) ip) "") then (r, false)
  else (setNodeIDLocked ip nodeID r, true).

Definition FoldAliasOntoDevice (alias canonical nodeID : string) (r : Devices) : Devices * bool :=
  if String.eqb alias "" || String.eqb canonical "" || String.eqb alias canonical then (r, false)
  else if negb (HasDevice r canonical) then (r, false)
  else
    let bound := at_key (nodeIDByIP r) canonical in
    if negb (String.eqb bound "") && negb (String.eqb bound nodeID) then (r, false)
    else
      let r := if String.eqb nodeID "" then r else setNodeIDLocked canonical nodeID r in
      (registerIPAliasLocked alias canonical r, true).

Definition FoldAliasOntoNode (alias nodeID : string) (r : Devices) : Devices * string :=
  if String.eqb alias "" || String.eqb nodeID "" then (r, "")
  else
    let canonical := uniqueIPForNodeIDLocked r nodeID in
    if String.eqb canonical "" || String.eqb canonical alias then (r, "")
    else (registerIPAliasLocked alias canonical r, canonical).

Definition ClaimAliasResolve (ip : string) (within now : Z) (r : Devices) : Devices * bool :=
  if String.eqb ip "" then (r, false)
  else if HasDevice r ip then (r, false)
  else if bool_decide (is_Some (canonicalByAlias r !! ip)) then (r, false)
  else if match resolveTriedAt r !! ip with Some t => now - t <? within | None => false end then (r, false)
  else (put_tried ip now r, true).

Definition ForgetIP (ip : string) (r : Devices) : Devices :=
  let aliases := delete ip (canonicalByAlias r) in
  mkDevices (delete ip (ownerByIP r)) (delete ip (hostnameByIP r))
    (filter (λ e, aliases !! e.1 ≠ Some ip) (delete ip (profileByIP r)))
    (delete ip (extV4ByIP r)) (delete ip (extV6ByIP r))
    (filter (λ e, e.2 ≠ ip) aliases) (delete ip (nodeIDByIP r)) (knownDeviceIPs r ∖ {[ip]})
    (resolveTriedAt r) (delete ip <$> dev_db r).
