(* ===== verification/DevicesProps.v ===== *)
(** * Properties of the registry of devices

    Over every sequence of critical sections: the table follows the maps, so a
    restart restores them; a device bound to a node is not rebound by
    observation; and an assignment reaches every address of a device. *)
From S2P Require Import Prelude GoStrings NetAddr Devices.

(** ** Histories *)

Inductive DevOp :=
| OpExternal (wg : option Addr) (ip v4 v6 : string)
| OpAlias (alias canonical : string)
| OpAssign (ip profile : string)
| OpSeed (id hostname owner profile : string)
| OpHostname (ip hostname : string)
| OpOwner (ip owner : string)
| OpClaim (ip hostnameOverride owner hostname profile : string)
| OpNodeID (ip nodeID : string)
| OpBind (ip nodeID : string)
| OpFoldDevice (alias canonical nodeID : string)
| OpFoldNode (alias nodeID : string)
| OpTry (ip : string) (within now : Z)
| OpForget (ip : string).

Definition run_op (op : DevOp) (r : Devices) : Devices :=
  match op with
  | OpExternal wg ip v4 v6 => SetExternalIPs wg ip v4 v6 r
  | OpAlias alias canonical => RegisterIPAlias alias canonical r
  | OpAssign ip profile => AssignProfile ip profile r
  | OpSeed id hostname owner profile => seedPlaceholder (tsnetPlaceholderPrefix +:+ id) hostname owner profile r
  | OpHostname ip hostname => SetHostname ip hostname r
  | OpOwner ip owner => SetOwner ip owner r
  | OpClaim ip ho owner hostname profile => claim_entry ip ho owner hostname profile r
  | OpNodeID ip nodeID => SetNodeID ip nodeID r
  | OpBind ip nodeID => (BindNodeIfUnbound ip nodeID r).1
  | OpFoldDevice alias canonical nodeID => (FoldAliasOntoDevice alias canonical nodeID r).1
  | OpFoldNode alias nodeID => (FoldAliasOntoNode alias nodeID r).1
  | OpTry ip within now => (ClaimAliasResolve ip within now r).1
  | OpForget ip => ForgetIP ip r
  end.

Definition run_ops (ops : list DevOp) (r : Devices) : Devices := foldl (λ r op, run_op op r) r ops.

(** The address an operation may make an alias. *)
Definition op_alias (op : DevOp) : option string :=
  match op with
  | OpAlias alias _ | OpFoldDevice alias _ _ | OpFoldNode alias _ => Some alias
  | _ => None
  end.

(** ** What the sections leave alone *)

Lemma upsert_maps k r :
  ownerByIP (upsertLocked k r) = ownerByIP r ∧ hostnameByIP (upsertLocked k r) = hostnameByIP r ∧
  profileByIP (upsertLocked k r) = profileByIP r ∧ extV4ByIP (upsertLocked k r) = extV4ByIP r ∧
  extV6ByIP (upsertLocked k r) = extV6ByIP r ∧ canonicalByAlias (upsertLocked k r) = canonicalByAlias r ∧
  nodeIDByIP (upsertLocked k r) = nodeIDByIP r ∧ resolveTriedAt (upsertLocked k r) = resolveTriedAt r.
Proof. unfold upsertLocked. destruct (dev_db r); [|done]. destruct (HasPrefix _ _); [done|]. by destruct (has_entry r k). Qed.

Lemma upsert_row_of k r ip : row_of (upsertLocked k r) ip = row_of r ip.
Proof. destruct (upsert_maps k r) as (_ & H1 & H2 & H3 & H4 & _ & H5 & _). unfold row_of. by rewrite H1, H2, H3, H4, H5. Qed.

Lemma at_key_insert_ne (m : gmap string string) k v ip : k ≠ ip → at_key (<[k := v]> m) ip = at_key m ip.
Proof. intros H. unfold at_key. by rewrite lookup_insert_ne. Qed.

Lemma at_key_insert_eq (m : gmap string string) k v : at_key (<[k := v]> m) k = v.
Proof. unfold at_key. by rewrite lookup_insert_eq. Qed.

Create HintDb dev.
#[export] Hint Rewrite at_key_insert_eq at_key_insert_ne using done : dev.

(** ** The table follows the maps *)

Section Mirror.
Context (ip : string).

(** The row of the address is what the maps say, if it is a device. *)
Record mirrored (r : Devices) : Prop := {
  mi_alias : canonicalByAlias r !! ip = None;
  mi_known : ip ∈ knownDeviceIPs r → HasPrefix ip tsnetPlaceholderPrefix = false;
  mi_row : ∃ t, dev_db r = Some t ∧ (ip ∈ knownDeviceIPs r → t !! ip = Some (row_of r ip)) ∧
    (ip ∉ knownDeviceIPs r → t !! ip = None)
}.

(** A section that writes the entries of [k], aliases of [k] apart, and then the
    row of [k]. *)
Lemma mirrored_write k r r' :
  mirrored r → dev_db r' = dev_db r → knownDeviceIPs r' = knownDeviceIPs r → canonicalByAlias r' = canonicalByAlias r →
  (k ≠ ip → row_of r' ip = row_of r ip) → has_entry r' k = true →
  mirrored (upsertLocked k r').
Proof.
  intros [Ha Hk (t & Ht & Hrow & Hno)] Hdb Hkn Hal Hother Hent.
  destruct (upsert_maps k r') as (_ & _ & _ & _ & _ & Hal' & _).
  unfold upsertLocked in *. rewrite Hdb, Ht in *.
  destruct (HasPrefix k _) eqn:Ep; [|rewrite Hent in *; cbn [knownDeviceIPs dev_db canonicalByAlias] in *].
  - split; [by rewrite Hal|by rewrite Hkn|]. exists t. rewrite Hdb, Hkn. split; [done|]. split; [|done]. intros Hin.
    rewrite (Hrow Hin). f_equal. symmetry. apply Hother. intros ->. by rewrite (Hk Hin) in Ep.
  - split; cbn [knownDeviceIPs dev_db canonicalByAlias]; rewrite ?Hkn; [by rewrite Hal|set_solver|].
    eexists. split; [done|]. destruct (decide (k = ip)) as [->|Hne].
    + rewrite lookup_insert_eq. split; [done|set_solver].
    + rewrite lookup_insert_ne by done. change (row_of (mkDevices _ _ _ _ _ _ _ _ _ _) ip) with (row_of r' ip).
      rewrite (Hother Hne). split; intros Hin; [apply Hrow|apply Hno]; set_solver.
Qed.

(** A section that writes no row, and no entry of the address. *)
Lemma mirrored_frame r r' :
  mirrored r → dev_db r' = dev_db r → knownDeviceIPs r' = knownDeviceIPs r → canonicalByAlias r' !! ip = None →
  row_of r' ip = row_of r ip → mirrored r'.
Proof. intros [Ha Hk Hrow] Hdb Hkn Hal Hr. split; rewrite ?Hdb, ?Hkn, ?Hr; done. Qed.

(** Entries of another address do not show in the row. *)
Lemma row_of_put k v :
  k ≠ ip → (∀ r, row_of (put_hostname k v r) ip = row_of r ip) ∧ (∀ r, row_of (put_owner k v r) ip = row_of r ip) ∧
  (∀ r, row_of (put_profile k v r) ip = row_of r ip) ∧ (∀ r, row_of (put_node k v r) ip = row_of r ip).
Proof. intros Hk. unfold row_of. split_and!; intros r; cbn; by autorewrite with dev. Qed.

Lemma has_entry_any k r :
  is_Some (profileByIP r !! k) ∨ is_Some (hostnameByIP r !! k) ∨ is_Some (ownerByIP r !! k) ∨
  is_Some (extV4ByIP r !! k) ∨ is_Some (extV6ByIP r !! k) ∨ is_Some (nodeIDByIP r !! k) → has_entry r k = true.
Proof.
  unfold has_entry. intros H. rewrite !orb_true_iff, !bool_decide_eq_true.
  destruct H as [?|[?|[?|[?|[?|?]]]]]; auto 6.
Qed.

Lemma inserted (m : gmap string string) k v : is_Some (<[k := v]> m !! k).
Proof. rewrite lookup_insert_eq. eauto. Qed.

Ltac entry := apply has_entry_any; cbn; auto 7 using inserted.

Lemma mirrored_claim k ho owner hostname profile r : mirrored r → mirrored (claim_entry k ho owner hostname profile r).
Proof.
  intros Hm. unfold claim_entry. cbv zeta. apply (mirrored_write k r); try done;
    destruct (negb (String.eqb ho "")), (negb (String.eqb hostname "")), (String.eqb profile ""); try done;
    try entry; intros Hk; destruct (row_of_put k ho Hk) as (H1 & _), (row_of_put k hostname Hk) as (H2 & _),
      (row_of_put k owner Hk) as (_ & H3 & _), (row_of_put k profile Hk) as (_ & _ & H4 & _); by rewrite ?H4, ?H2, ?H1, ?H3.
Qed.

Lemma mirrored_node k n r : mirrored r → mirrored (setNodeIDLocked k n r).
Proof.
  intros Hm. unfold setNodeIDLocked. destruct (String.eqb _ _); [done|].
  apply (mirrored_write k r); try done; [|entry]. intros Hk. by apply (row_of_put k n Hk).
Qed.

Lemma mirrored_alias alias canonical r : alias ≠ ip → mirrored r → mirrored (registerIPAliasLocked alias canonical r).
Proof.
  intros Hne Hm. unfold registerIPAliasLocked. apply (mirrored_frame r); [done|by destruct (String.eqb _ _)..| |].
  - destruct (String.eqb _ _); cbn; rewrite lookup_insert_ne by done; apply Hm.
  - destruct (String.eqb _ _); [done|]. by apply (row_of_put alias _ Hne).
Qed.

Lemma mirrored_assign k profile r : mirrored r → mirrored (AssignProfile k profile r).
Proof.
  intros Hm. unfold AssignProfile. cbv zeta. set (c := AgentIPFor r k). apply (mirrored_write c r); try done.
  - intros Hne. unfold row_of. cbn. do 2 f_equal. unfold at_key. f_equal. rewrite lookup_union_r, lookup_insert_ne; [done..|].
    rewrite lookup_fmap. unfold aliases_of. rewrite map_lookup_filter, (mi_alias _ Hm). done.
  - apply has_entry_any. left. cbn. rewrite lookup_union. rewrite lookup_insert_eq. by destruct (_ !! c); eexists.
Qed.

Lemma mirrored_forget k r : mirrored r → mirrored (ForgetIP k r).
Proof.
  intros [Ha Hk (t & Ht & Hrow & Hno)]. unfold ForgetIP. split; cbn.
  - rewrite map_lookup_filter. destruct (decide (k = ip)) as [->|Hne];
      [by rewrite lookup_delete_eq|by rewrite lookup_delete_ne, Ha].
  - set_solver.
  - rewrite Ht. eexists. split; [done|]. destruct (decide (k = ip)) as [->|Hne].
    + rewrite lookup_delete_eq. split; [set_solver|done].
    + rewrite lookup_delete_ne by done. split; intros Hin; [|apply Hno; set_solver]. rewrite Hrow by set_solver.
      assert (filter (λ e, delete k (canonicalByAlias r) !! e.1 ≠ Some k) (delete k (profileByIP r)) !! ip = profileByIP r !! ip) as Hp.
      { rewrite map_lookup_filter, lookup_delete_ne by done. destruct (profileByIP r !! ip) as [p|]; [|done]. cbn.
        rewrite option_guard_True; [done|]. by rewrite lookup_delete_ne, Ha. }
      unfold row_of, at_key. cbn. by rewrite !lookup_delete_ne, Hp.
Qed.

(** Every section keeps the row of an address it does not turn into an alias. *)
Lemma mirrored_op op r : op_alias op ≠ Some ip → mirrored r → mirrored (run_op op r).
Proof.
  intros Hal Hm. destruct op; cbn [run_op op_alias] in *.
  - unfold SetExternalIPs. cbv zeta. set (k := canonicalPeerIP wg ip0). destruct (_ || (_ && _)); [done|].
    destruct (_ || _) eqn:Ec; [|done]. apply (mirrored_write k r); try done.
    + intros Hk. unfold row_of. cbn. destruct (String.eqb v4 ""), (String.eqb v6 ""); by autorewrite with dev.
    + apply has_entry_any. cbn. destruct (String.eqb v4 ""), (String.eqb v6 ""); cbn in *; try done; auto 7 using inserted.
  - apply mirrored_alias; [congruence|done].
  - by apply mirrored_assign.
  - destruct Hm as [Ha Hk Hrow].
    assert (row_of (seedPlaceholder (tsnetPlaceholderPrefix +:+ id) hostname owner profile r) ip = row_of r ip ∨ ip ∉ knownDeviceIPs r) as Hr.
    { destruct (decide (tsnetPlaceholderPrefix +:+ id = ip)) as [<-|Hne].
      - right. intros Hin%Hk. by rewrite HasPrefix_app in Hin.
      - left. unfold seedPlaceholder, row_of. cbv zeta.
        destruct (String.eqb profile ""), (String.eqb owner ""), (String.eqb hostname ""); cbn; by autorewrite with dev. }
    unfold seedPlaceholder in *. cbv zeta in *.
    destruct (String.eqb profile ""), (String.eqb owner ""), (String.eqb hostname ""); (split; [done|done|]);
      destruct Hrow as (t & ? & Hy & Hn); exists t; (split; [done|]); (split; [|done]); intros Hin; (destruct Hr as [Hr|?]; [etransitivity; [by apply Hy|by f_equal]|done]).
  - unfold SetHostname. destruct (_ || _); [done|]. apply (mirrored_write ip0 r); try done; [|entry]. intros Hk. by apply (row_of_put ip0 _ Hk).
  - unfold SetOwner. destruct (_ || _); [done|]. apply (mirrored_write ip0 r); try done. entry.
  - by apply mirrored_claim.
  - unfold SetNodeID. destruct (_ || _); [done|]. destruct (HasDevice r ip0); [by apply mirrored_node|done].
  - unfold BindNodeIfUnbound. destruct (_ || _); [done|]. destruct (_ || _); [done|]. by apply mirrored_node.
  - unfold FoldAliasOntoDevice. destruct (_ || _); [done|]. destruct (negb (HasDevice r canonical)); [done|]. cbv zeta.
    destruct (_ && _); [done|]. apply mirrored_alias; [congruence|]. destruct (String.eqb nodeID ""); [done|by apply mirrored_node].
  - unfold FoldAliasOntoNode. destruct (_ || _); [done|]. cbv zeta. destruct (_ || _); [done|]. apply mirrored_alias; [congruence|done].
  - unfold ClaimAliasResolve. destruct (String.eqb ip0 ""); [done|]. destruct (HasDevice r ip0); [done|].
    destruct (bool_decide _); [done|]. destruct (match _ with Some _ => _ | None => _ end); [done|].
    apply (mirrored_frame r); try done. apply Hm.
  - by apply mirrored_forget.
Qed.
End Mirror.

(** ** Restart *)

Lemma put_all_lookup (f : DeviceRow -> option string) l m ip :
  NoDup l.*1 →
  foldl (λ m e, put_opt e.1 (f e.2) m) m l !! ip =
  match (list_to_map l : gmap string DeviceRow) !! ip with
  | Some row => match f row with Some s => Some s | None => m !! ip end
  | None => m !! ip
  end.
Proof.
  revert m. induction l as [|[k row] l IH]; intros m Hnd; [done|]. cbn in *. apply NoDup_cons in Hnd as [Hk Hnd].
  rewrite IH by done. destruct (decide (k = ip)) as [->|Hne].
  - rewrite lookup_insert_eq. apply not_elem_of_list_to_map in Hk. rewrite Hk. unfold put_opt.
    destruct (f row); [by rewrite lookup_insert_eq|done].
  - rewrite lookup_insert_ne by done. unfold put_opt. destruct (f row); [by rewrite lookup_insert_ne|done].
Qed.

Lemma load_maps l r :
  let r' := foldl load_device r l in
  hostnameByIP r' = foldl (λ m e, put_opt e.1 (dr_name e.2) m) (hostnameByIP r) l ∧
  profileByIP r' = foldl (λ m e, put_opt e.1 (dr_profile e.2) m) (profileByIP r) l ∧
  extV4ByIP r' = foldl (λ m e, put_opt e.1 (dr_external_ipv4 e.2) m) (extV4ByIP r) l ∧
  extV6ByIP r' = foldl (λ m e, put_opt e.1 (dr_external_ipv6 e.2) m) (extV6ByIP r) l ∧
  nodeIDByIP r' = foldl (λ m e, put_opt e.1 (dr_ts_node_id e.2) m) (nodeIDByIP r) l ∧
  (∀ ip, ip ∈ knownDeviceIPs r' ↔ ip ∈ knownDeviceIPs r ∨ ip ∈ l.*1) ∧
  canonicalByAlias r' = canonicalByAlias r ∧ dev_db r' = dev_db r.
Proof.
  cbv zeta. revert r. induction l as [|[k row] l IH]; intros r; [cbn; set_solver|]. cbn [foldl].
  destruct (IH (load_device r (k, row))) as (-> & -> & -> & -> & -> & H & -> & ->). split_and!; try done.
  intros ip. rewrite H. cbn. set_solver.
Qed.

(** A registry loaded from a table says of each address what its row says. *)
Lemma devices_Load_spec t ip :
  let r := devices_Load (Some t) newOnboardRegistry in
  (ip ∈ knownDeviceIPs r ↔ is_Some (t !! ip)) ∧ canonicalByAlias r = ∅ ∧ dev_db r = Some t ∧
  hostnameByIP r !! ip = (t !! ip ≫= dr_name) ∧ profileByIP r !! ip = (t !! ip ≫= dr_profile) ∧
  extV4ByIP r !! ip = (t !! ip ≫= dr_external_ipv4) ∧ extV6ByIP r !! ip = (t !! ip ≫= dr_external_ipv6) ∧
  nodeIDByIP r !! ip = (t !! ip ≫= dr_ts_node_id).
Proof.
  cbv zeta. unfold devices_Load.
  match goal with |- context [foldl load_device ?r0 ?l] => destruct (load_maps l r0) as (H1 & H2 & H3 & H4 & H5 & Hk & Hal & Hdb) end.
  rewrite Hal, Hdb, H1, H2, H3, H4, H5, Hk. cbn -[map_to_list].
  rewrite !put_all_lookup, list_to_map_to_list by apply NoDup_fst_map_to_list. split_and!; try done.
  - rewrite list_elem_of_fmap. split; [intros [?|([k row] & -> & ?%elem_of_map_to_list)]; [set_solver|by eexists]|].
    intros [row Hrow]. right. exists (ip, row). by rewrite elem_of_map_to_list.
  - destruct (t !! ip) as [row|]; [|done]. cbn. by destruct (dr_name row).
  - destruct (t !! ip) as [row|]; [|done]. cbn. by destruct (dr_profile row).
  - destruct (t !! ip) as [row|]; [|done]. cbn. by destruct (dr_external_ipv4 row).
  - destruct (t !! ip) as [row|]; [|done]. cbn. by destruct (dr_external_ipv6 row).
  - destruct (t !! ip) as [row|]; [|done]. cbn. by destruct (dr_ts_node_id row).
Qed.

Lemma default_nullStr s : default "" (nullStr s) = s.
Proof. unfold nullStr. by destruct (String.eqb_spec s "") as [->|]. Qed.

Lemma run_ops_mirrored ip ops r :
  (∀ op, op ∈ ops → op_alias op ≠ Some ip) → mirrored ip r → mirrored ip (run_ops ops r).
Proof.
  revert r. induction ops as [|op ops IH]; intros r Hal Hm; [done|]. cbn. apply IH; [set_solver|].
  apply mirrored_op; [set_solver|done].
Qed.

(** The table carries the devices over a restart: from a new database and
    through any history that does not make the address an alias, a registry
    loaded from the table knows the same device, with the same profile, host
    name, external addresses and node, and nothing about an address that is no
    device. *)
Theorem devices_survive_restart ops ip :
  let r := run_ops ops (devices_Load (Some ∅) newOnboardRegistry) in
  (∀ op, op ∈ ops → op_alias op ≠ Some ip) →
  ∃ t, dev_db r = Some t ∧
    let r' := devices_Load (Some t) newOnboardRegistry in
    HasDevice r' ip = HasDevice r ip ∧
    if HasDevice r ip
    then ProfileForIP r' ip = ProfileForIP r ip ∧ HostnameForIP r' ip = HostnameForIP r ip ∧
         NodeIDForIP r' ip = NodeIDForIP r ip ∧ ExternalIPs r' ip = ExternalIPs r ip
    else ProfileForIP r' ip = "" ∧ HostnameForIP r' ip = "" ∧ NodeIDForIP r' ip = "" ∧ ExternalIPs r' ip = ("", "").
Proof.
  cbv zeta. intros Hal. destruct (run_ops_mirrored ip ops (devices_Load (Some ∅) newOnboardRegistry) Hal) as [Ha Hk (t & Ht & Hrow & Hno)].
  { split; [done|set_solver|]. exists ∅. split; [done|]. split; [set_solver|]. by rewrite lookup_empty. }
  exists t. split; [done|]. destruct (devices_Load_spec t ip) as (Hkn & _ & _ & H1 & H2 & H3 & H4 & H5).
  set (r := run_ops ops _) in *. set (r' := devices_Load (Some t) _) in *.
  assert (HasDevice r' ip = HasDevice r ip) as Hd.
  { unfold HasDevice. apply bool_decide_ext. rewrite Hkn. destruct (decide (ip ∈ knownDeviceIPs r)) as [Hin|Hin];
      [rewrite (Hrow Hin)|rewrite (Hno Hin)]; split; try done. }
  clearbody r r'. split; [done|]. unfold HasDevice, ProfileForIP, HostnameForIP, NodeIDForIP, ExternalIPs, at_key. case_bool_decide as Hin;
    [rewrite (Hrow Hin) in H1, H2, H3, H4, H5|rewrite (Hno Hin) in H1, H2, H3, H4, H5]; cbn in H1, H2, H3, H4, H5;
    rewrite H1, H2, H3, H4, H5; [|cbn; by destruct (String.eqb ip "")].
  by rewrite !default_nullStr.
Qed.

(** ** Nodes *)

Lemma setNodeID_other k n r ip : k ≠ ip → at_key (nodeIDByIP (setNodeIDLocked k n r)) ip = at_key (nodeIDByIP r) ip.
Proof.
  intros Hk. unfold setNodeIDLocked. destruct (String.eqb _ _); [done|].
  destruct (upsert_maps k (put_node k n r)) as (_ & _ & _ & _ & _ & _ & -> & _). cbn. by autorewrite with dev.
Qed.

Lemma alias_maps alias canonical r :
  nodeIDByIP (registerIPAliasLocked alias canonical r) = nodeIDByIP r ∧
  knownDeviceIPs (registerIPAliasLocked alias canonical r) = knownDeviceIPs r ∧
  canonicalByAlias (registerIPAliasLocked alias canonical r) = <[alias := canonical]> (canonicalByAlias r) ∧
  profileByIP (registerIPAliasLocked alias canonical r) =
    (if String.eqb (at_key (profileByIP r) canonical) "" then profileByIP r
     else <[alias := at_key (profileByIP r) canonical]> (profileByIP r)).
Proof. unfold registerIPAliasLocked. by destruct (String.eqb _ _). Qed.

(** The operations that carry an approval for the address, or remove it. *)
Definition rebinds (ip : string) (op : DevOp) : Prop :=
  match op with OpNodeID k _ | OpForget k => k = ip | _ => False end.

Lemma run_op_keeps_node op r ip :
  at_key (nodeIDByIP r) ip ≠ "" → ¬ rebinds ip op → at_key (nodeIDByIP (run_op op r)) ip = at_key (nodeIDByIP r) ip.
Proof.
  intros Hn Hop. destruct op; cbn [run_op rebinds] in *.
  - unfold SetExternalIPs. cbv zeta. destruct (_ || (_ && _)); [done|]. destruct (_ || _); [|done].
    by destruct (upsert_maps (canonicalPeerIP wg ip0) (put_external (canonicalPeerIP wg ip0) v4 v6 r)) as (_ & _ & _ & _ & _ & _ & -> & _).
  - unfold RegisterIPAlias. by destruct (alias_maps alias canonical r) as (-> & _).
  - unfold AssignProfile. cbv zeta. by match goal with |- context [upsertLocked ?k ?r'] => destruct (upsert_maps k r') as (_ & _ & _ & _ & _ & _ & -> & _) end.
  - unfold seedPlaceholder. cbv zeta. by destruct (String.eqb profile ""), (String.eqb owner ""), (String.eqb hostname "").
  - unfold SetHostname. destruct (_ || _); [done|]. by destruct (upsert_maps ip0 (put_hostname ip0 hostname r)) as (_ & _ & _ & _ & _ & _ & -> & _).
  - unfold SetOwner. destruct (_ || _); [done|]. by destruct (upsert_maps ip0 (put_owner ip0 owner r)) as (_ & _ & _ & _ & _ & _ & -> & _).
  - unfold claim_entry. cbv zeta. match goal with |- context [upsertLocked ?k ?r'] => destruct (upsert_maps k r') as (_ & _ & _ & _ & _ & _ & -> & _) end.
    by destruct (negb (String.eqb hostnameOverride "")), (negb (String.eqb hostname "")), (String.eqb profile "").
  - unfold SetNodeID. destruct (_ || _); [done|]. destruct (HasDevice r ip0); [|done]. by apply setNodeID_other.
  - unfold BindNodeIfUnbound. destruct (_ || _); [done|]. destruct (_ || _) eqn:E; [done|]. apply setNodeID_other.
    intros ->. apply orb_false_iff in E as [_ E]. by bprop.
  - unfold FoldAliasOntoDevice. destruct (_ || _); [done|]. destruct (negb (HasDevice r canonical)); [done|]. cbv zeta.
    destruct (_ && _) eqn:E; [done|]. cbn [fst]. destruct (alias_maps alias canonical (if String.eqb nodeID "" then r else setNodeIDLocked canonical nodeID r)) as (-> & _).
    destruct (String.eqb nodeID ""); [done|]. destruct (decide (canonical = ip)) as [->|Hne]; [|by apply setNodeID_other].
    unfold setNodeIDLocked. apply andb_false_iff in E as [E|E]; bprop; [done|]. by rewrite E, String.eqb_refl.
  - unfold FoldAliasOntoNode. destruct (_ || _); [done|]. cbv zeta. destruct (_ || _); [done|]. cbn [fst].
    by destruct (alias_maps alias (uniqueIPForNodeIDLocked r nodeID) r) as (-> & _).
  - unfold ClaimAliasResolve. destruct (String.eqb ip0 ""); [done|]. destruct (HasDevice r ip0); [done|].
    destruct (bool_decide _); [done|]. by destruct (match _ with Some _ => _ | None => _ end).
  - unfold ForgetIP, at_key. cbn. by rewrite lookup_delete_ne.
Qed.

(** A device bound to a node stays bound to it through every history of
    observed aliases, boot-time bindings, claims and assignments: only an
    approval for the address itself binds it to another node. *)
Theorem bound_device_not_rebound ops r ip :
  NodeIDForIP r ip ≠ "" → Forall (λ op, ¬ rebinds ip op) ops → NodeIDForIP (run_ops ops r) ip = NodeIDForIP r ip.
Proof.
  unfold NodeIDForIP. destruct (String.eqb ip ""); [done|]. intros Hn Hops. revert r Hn.
  induction Hops as [|op ops Hop _ IH]; intros r Hn; [done|].
  change (run_ops (op :: ops) r) with (run_ops ops (run_op op r)). rewrite IH; by rewrite run_op_keeps_node.
Qed.

(** ** Profiles *)

(** An assignment reaches every address of the device: the address given, the
    device it is an alias of and every alias of that device; and no other
    address. *)
Theorem AssignProfile_exact k p r ip :
  k ≠ "" →
  ProfileForIP (AssignProfile k p r) ip =
  if decide (ip = AgentIPFor r k ∨ AgentIPFor r ip = AgentIPFor r k) then p else ProfileForIP r ip.
Proof.
  intros Hk. unfold AssignProfile, ProfileForIP. cbv zeta. set (c := AgentIPFor r k).
  assert (c ≠ "") as Hc. { unfold c, AgentIPFor. by destruct (String.eqb_spec (at_key (canonicalByAlias r) k) ""). }
  destruct (upsert_maps c (set_profiles ((const p <$> aliases_of r c) ∪ <[c := p]> (profileByIP r)) r)) as (_ & _ & -> & _). cbn.
  unfold at_key. rewrite lookup_union, lookup_fmap. unfold aliases_of. rewrite map_lookup_filter.
  unfold AgentIPFor, at_key in *. destruct (canonicalByAlias r !! ip) as [d|] eqn:Ed; cbn.
  - destruct (decide (d = c)) as [->|Hne].
    + rewrite option_guard_True by done. rewrite decide_True; [by destruct (<[c := p]> _ !! ip)|]. right.
      by destruct (String.eqb_spec c "").
    + rewrite option_guard_False by done. cbn. destruct (decide (ip = c)) as [->|Hi].
      * by rewrite lookup_insert_eq, decide_True by auto.
      * rewrite lookup_insert_ne by done. rewrite decide_False; [by destruct (profileByIP r !! ip)|].
        intros [?|H]; [done|]. by destruct (String.eqb_spec d "").
  - destruct (decide (ip = c)) as [->|Hi].
    + by rewrite lookup_insert_eq, decide_True by auto.
    + rewrite lookup_insert_ne by done. rewrite decide_False by (intros [?|?]; done). by destruct (profileByIP r !! ip).
Qed.

(** ** Witnesses *)

(** A device is claimed, bound, renamed and gets an alias. *)
Definition sample_ops : list DevOp :=
  [OpClaim "100.64.0.7" "" "ann" "laptop" "dev"; OpNodeID "100.64.0.7" "n1";
   OpFoldDevice "fd7a:115c:a1e0::7" "100.64.0.7" "n1"; OpHostname "100.64.0.7" "desk"].

Definition sample_devices : Devices := run_ops sample_ops (devices_Load (Some ∅) newOnboardRegistry).

Lemma devices_survive_restart_witness :
  ∃ t, dev_db sample_devices = Some t ∧ ProfileForIP (devices_Load (Some t) newOnboardRegistry) "100.64.0.7" = "dev" ∧
    HostnameForIP (devices_Load (Some t) newOnboardRegistry) "100.64.0.7" = "desk".
Proof.
  destruct (devices_survive_restart sample_ops "100.64.0.7") as (t & Ht & _ & H).
  - intros op Hop. apply list_elem_of_In in Hop. cbn in Hop. destruct Hop as [<-|[<-|[<-|[<-|[]]]]]; discriminate.
  - exists t. split; [exact Ht|]. change (HasDevice _ "100.64.0.7") with true in H. destruct H as (-> & -> & _). split; reflexivity.
Defined.

Lemma bound_device_not_rebound_witness :
  NodeIDForIP (run_ops [OpBind "100.64.0.7" "n2"; OpFoldDevice "100.64.0.9" "100.64.0.7" "n2"] sample_devices) "100.64.0.7" = "n1".
Proof.
  rewrite (bound_device_not_rebound [OpBind "100.64.0.7" "n2"; OpFoldDevice "100.64.0.9" "100.64.0.7" "n2"] sample_devices "100.64.0.7").
  - reflexivity.
  - vm_compute. discriminate.
  - repeat constructor; cbn; auto.
Defined.

Lemma AssignProfile_exact_witness :
  ProfileForIP (AssignProfile "fd7a:115c:a1e0::7" "ops" sample_devices) "100.64.0.7" = "ops" ∧
  ProfileForIP (AssignProfile "fd7a:115c:a1e0::7" "ops" sample_devices) "fd7a:115c:a1e0::7" = "ops".
Proof.
  split; rewrite (AssignProfile_exact "fd7a:115c:a1e0::7" "ops" sample_devices) by discriminate; vm_compute; reflexivity.
Defined.
