(* ===== verification/Peers.v ===== *)
(** * Who a peer is: [main.go]

    The profile a connection is served under. A peer is known by its device row or
    by an alias of one; an alias is derived from what the tailnet's control
    plane says about the node that holds the address. *)
From S2P Require Import Prelude GoStrings NetAddr Policy Compile RelayDest Devices.

(** What WhoIs reports of a node. *)
Record Node := mkNode { node_StableID : string; node_Addresses : list Addr; node_ComputedName : string }.

(** ** Profiles by name *)

(** [ord] is the visiting order of the profiles that are not in the declaration
    order. *)
Definition orderedProfileNames (ord : list string) (p : option SrcPolicy) : list string :=
  match p with
  | None => []
  | Some p =>
      let declared := foldl (λ out name, if bool_decide (name ∈ out) then out
                                         else if bool_decide (is_Some (p_Profiles p !! name)) then out ++ [name] else out)
                        [] (p_Order p) in
      declared ++ filter (λ name, name ∉ declared) (range_over ord (p_Profiles p)).*1
  end.

Definition defaultProfileName (ord : list string) (p : option SrcPolicy) : string :=
  let names := orderedProfileNames ord p in
  if bool_decide ("default" ∈ names) then "default" else default "" (head names).

Definition resolveProfileFromList (profiles : list string) (suggestion : string) : string :=
  if bool_decide (suggestion ∈ profiles) then suggestion
  else match profiles with
       | [] => suggestion
       | first :: _ => if bool_decide ("default" ∈ profiles) then "default" else first
       end.

Section Peers.
(** The answer of the tailnet client, [None] when it fails or knows no node; the
    client is nil without a tailnet. *)
Context (lc : option (string -> option Node)).

(** ** Aliases *)

Fixpoint fold_addresses (peerIP nodeID : string) (addrs : list Addr) (r : Devices) : Devices * string :=
  match addrs with
  | [] => FoldAliasOntoNode peerIP nodeID r
  | a :: rest =>
      let ip := addr_String a in
      if String.eqb ip peerIP then fold_addresses peerIP nodeID rest r
      else match FoldAliasOntoDevice peerIP ip nodeID r with
           | (r', true) => (r', ip)
           | (r', false) => fold_addresses peerIP nodeID rest r'
           end
  end.

Definition resolveTsnetAlias (peerIP : string) (r : Devices) : Devices * string :=
  match lc with
  | None => (r, "")
  | Some whois =>
      if String.eqb peerIP "" then (r, "")
      else match whois peerIP with
           | None => (r, "")
           | Some w => fold_addresses peerIP (node_StableID w) (node_Addresses w) r
           end
  end.

Definition resolve_window : Z := 5 * 60 * 1000000000.

(** The lookup the callers guard with [ClaimAliasResolve]. *)
Definition lazy_resolve (now : Z) (peerIP : string) (r : Devices) : Devices * string :=
  match lc with
  | None => (r, "")
  | Some _ => match ClaimAliasResolve peerIP resolve_window now r with
              | (r, true) => resolveTsnetAlias peerIP r
              | (r, false) => (r, "")
              end
  end.

Definition agentIPFor (now : Z) (ip : string) (r : Devices) : Devices * string :=
  let r := (lazy_resolve now ip r).1 in (r, AgentIPFor r ip).

(** ** The profile *)

Definition hasDeviceRow (r : Devices) (peerIP : string) : bool :=
  negb (String.eqb peerIP "") && (HasDevice r peerIP || HasDevice r (AgentIPFor r peerIP)).

Definition unknownPeerProfile (ord : list string) (src : option SrcPolicy) (policy : option CompiledPolicy) (r : Devices)
    (peerIP : string) : string :=
  if match policy with Some p => String.eqb (pol_UnknownPeer p) UnknownPeerNoProfile | None => false end &&
     negb (hasDeviceRow r peerIP)
  then UnknownPeerEmptyProfile
  else defaultProfileName ord src.

Definition profileFor (ord : list string) (src : option SrcPolicy) (policy : option CompiledPolicy) (now : Z) (peerIP : string)
    (r : Devices) : Devices * string :=
  let p := ProfileForIP r peerIP in
  if negb (String.eqb p "") then (r, p)
  else
    let '(r, canonical) := lazy_resolve now peerIP r in
    let p := if String.eqb canonical "" then "" else ProfileForIP r canonical in
    if negb (String.eqb p "") then (r, p) else (r, unknownPeerProfile ord src policy r peerIP).

(** ** Binding devices to nodes *)

(** The alias of every IPv6 address of the node is registered; the agents listed
    under one are the second result. *)
Definition seedTsnetIPv6Alias (peerIP : string) (r : Devices) : Devices * list string :=
  match lc with
  | None => (r, [])
  | Some whois =>
      if String.eqb peerIP "" then (r, [])
      else match whois peerIP with
           | None => (r, [])
           | Some w =>
               let r := SetNodeID peerIP (node_StableID w) r in
               let aliases := addr_String <$> filter (λ a, Is6 a = true) (node_Addresses w) in
               (foldl (λ r alias, RegisterIPAlias alias peerIP r) r aliases, aliases)
           end
  end.

Definition whoisNodeHoldingAddr (whois : string -> option Node) (ip : string) : string * string :=
  match whois ip with
  | None => ("", "")
  | Some w =>
      if String.eqb (node_StableID w) "" then ("", "")
      else if existsb (λ a, String.eqb (addr_String a) ip) (node_Addresses w) then (node_StableID w, node_ComputedName w)
      else ("", "")
  end.

(** [wgSubnet] is the configured WireGuard subnet, when it parses. *)
Definition unboundTailnetDeviceIPs (wgSubnet : option Prefix) (r : Devices) : list string :=
  filter (λ ip, match ParseAddr ip with
                | Some addr => isTailnetAddr addr && negb (match wgSubnet with Some p => prefix_Contains p addr | None => false end)
                | None => false
                end = true) (UnboundDeviceIPs r).

(** The rows bound and the rows still without a node. Other goroutines run
    between the calls; here they do nothing. *)
Fixpoint bind_all (whois : string -> option Node) (ips : list string) (r : Devices) : Devices * list string * list string :=
  match ips with
  | [] => (r, [], [])
  | ip :: rest =>
      let nodeID := (whoisNodeHoldingAddr whois ip).1 in
      let '(r, done) := if String.eqb nodeID "" then (r, false) else BindNodeIfUnbound ip nodeID r in
      let left := negb done && HasDevice r ip && String.eqb (NodeIDForIP r ip) "" in
      let '(r, bound, unbound) := bind_all whois rest r in
      (r, if done then ip :: bound else bound, if left then ip :: unbound else unbound)
  end.

Definition bindUnboundDevicesFromWhoIs (wgSubnet : option Prefix) (r : Devices) : Devices * list string * list string :=
  match lc with
  | None => (r, [], [])
  | Some whois => bind_all whois (unboundTailnetDeviceIPs wgSubnet r) r
  end.
End Peers.
