(* ===== verification/Onboard.v ===== *)
(** * Onboarding: [onboard.go], [peer_api_tokens.go], [agents.go]

    The device-code flow: a client starts a session, an operator approves it, the
    gateway mints the key in the background, and the client polls for it and
    claims its address. Sessions are shared objects: the two indexes, the
    handlers and the background job all hold the same one, so they are cells of
    a heap. *)
From S2P Require Import Prelude GoStrings NetAddr GoUrl GoHttp Policy Compile RelayDest DashboardAuth Devices Peers.

(** ** State *)

Record onboardSession := mkOnboard {
  os_deviceCode : string;
  os_userCode : string;
  os_created : Z;
  os_approved : bool;
  os_authKey : string;
  os_loginServer : string;
  os_err : string;
  os_owner : string;
  os_profile : string;
  os_hostname : string;
  os_apiToken : string;
  os_delivered : bool;
  os_wholeMachine : bool
}.

(** [onboardRegistry], the table of bearer tokens (hash to address; [None] is a
    nil handle) and the addresses the agents registry lists. *)
Record Onboarding := mkOnboarding {
  on_dev : Devices;
  on_heap : gmap nat onboardSession;
  byDevice : gmap string nat;
  byUser : gmap string nat;
  on_tokens : option (gmap string string);
  on_agents : gset string
}.

Definition set_dev (d : Devices) (o : Onboarding) : Onboarding :=
  mkOnboarding d (on_heap o) (byDevice o) (byUser o) (on_tokens o) (on_agents o).
Definition set_tokens (t : option (gmap string string)) (o : Onboarding) : Onboarding :=
  mkOnboarding (on_dev o) (on_heap o) (byDevice o) (byUser o) t (on_agents o).
Definition set_agents (a : gset string) (o : Onboarding) : Onboarding :=
  mkOnboarding (on_dev o) (on_heap o) (byDevice o) (byUser o) (on_tokens o) a.
(** A write through the pointer. *)
Definition write_session (ptr : nat) (f : onboardSession -> onboardSession) (o : Onboarding) : Onboarding :=
  mkOnboarding (on_dev o) (alter f ptr (on_heap o)) (byDevice o) (byUser o) (on_tokens o) (on_agents o).

Definition with_fields (hostname profile : string) (wholeMachine : bool) (s : onboardSession) : onboardSession :=
  mkOnboard (os_deviceCode s) (os_userCode s) (os_created s) (os_approved s) (os_authKey s) (os_loginServer s) (os_err s)
    (os_owner s) (if String.eqb profile "" then os_profile s else profile)
    (if String.eqb hostname "" then os_hostname s else hostname) (os_apiToken s) (os_delivered s) wholeMachine.
Definition with_approval (owner profile : string) (s : onboardSession) : onboardSession :=
  mkOnboard (os_deviceCode s) (os_userCode s) (os_created s) true (os_authKey s) (os_loginServer s) (os_err s)
    owner profile (os_hostname s) (os_apiToken s) (os_delivered s) (os_wholeMachine s).
Definition with_error (e : string) (s : onboardSession) : onboardSession :=
  mkOnboard (os_deviceCode s) (os_userCode s) (os_created s) (os_approved s) (os_authKey s) (os_loginServer s) e
    (os_owner s) (os_profile s) (os_hostname s) (os_apiToken s) (os_delivered s) (os_wholeMachine s).
Definition with_token (t : string) (s : onboardSession) : onboardSession :=
  mkOnboard (os_deviceCode s) (os_userCode s) (os_created s) (os_approved s) (os_authKey s) (os_loginServer s) (os_err s)
    (os_owner s) (os_profile s) (os_hostname s) t (os_delivered s) (os_wholeMachine s).
Definition with_key (key loginServer : string) (s : onboardSession) : onboardSession :=
  mkOnboard (os_deviceCode s) (os_userCode s) (os_created s) (os_approved s) key loginServer (os_err s)
    (os_owner s) (os_profile s) (os_hostname s) (os_apiToken s) (os_delivered s) (os_wholeMachine s).
Definition with_delivered (s : onboardSession) : onboardSession :=
  mkOnboard (os_deviceCode s) (os_userCode s) (os_created s) (os_approved s) (os_authKey s) (os_loginServer s) (os_err s)
    (os_owner s) (os_profile s) (os_hostname s) (os_apiToken s) true (os_wholeMachine s).

(** ** The indexes *)

Definition code_lifetime : Z := 10 * 60 * 1000000000.

Definition expired (o : Onboarding) (now : Z) (ptr : nat) : bool :=
  match on_heap o !! ptr with Some s => os_created s <? now - code_lifetime | None => false end.

Definition gcLocked (now : Z) (o : Onboarding) : Onboarding :=
  let gone := filter (λ ptr, expired o now ptr = true) (map_to_list (byDevice o)).*2 in
  let codes := omap (λ ptr, os_userCode <$> on_heap o !! ptr) gone in
  mkOnboarding (on_dev o) (on_heap o) (filter (λ e, expired o now e.2 = false) (byDevice o))
    (filter (λ e, e.1 ∉ codes) (byUser o)) (on_tokens o) (on_agents o).

(** [start]: the codes are the ones drawn. *)
Definition start (deviceCode userCode : string) (now : Z) (o : Onboarding) : Onboarding * nat :=
  let o := gcLocked now o in
  let ptr := fresh (dom (on_heap o)) in
  (mkOnboarding (on_dev o)
     (<[ptr := mkOnboard deviceCode userCode now false "" "" "" "" "" "" "" false false]> (on_heap o))
     (<[deviceCode := ptr]> (byDevice o)) (<[userCode := ptr]> (byUser o)) (on_tokens o) (on_agents o), ptr).

Definition byUserCode (code : string) (now : Z) (o : Onboarding) : Onboarding * option nat :=
  let o := gcLocked now o in (o, byUser o !! ToUpper (TrimSpace code)).

Definition byDeviceCode (code : string) (now : Z) (o : Onboarding) : Onboarding * option nat :=
  let o := gcLocked now o in (o, byDevice o !! code).

(** [ClaimIP] does not collect expired sessions first. *)
Definition ClaimIP (deviceCode ip hostnameOverride : string) (o : Onboarding) : Onboarding * option string :=
  match byDevice o !! deviceCode ≫= λ ptr, on_heap o !! ptr with
  | None => (o, None)
  | Some s =>
      if String.eqb (os_owner s) "" then (o, None)
      else (set_dev (claim_entry ip hostnameOverride (os_owner s) (os_hostname s) (os_profile s) (on_dev o)) o, Some (os_owner s))
  end.

(** ** Bearer tokens *)

Section Onboard.
Context (hashPeerAPIToken : string -> string).

(** [token] is the one drawn; the hash is the key of the table. *)
Definition mintAndPersistPeerAPIToken (token peerIP : string) (o : Onboarding) : Onboarding * result string string :=
  match on_tokens o with
  | None => (o, Err "nil db")
  | Some t => if bool_decide (is_Some (t !! hashPeerAPIToken token)) then (o, Err "insert peer_api_tokens")
              else (set_tokens (Some (<[hashPeerAPIToken token := peerIP]> t)) o, Ok token)
  end.

Definition peerIPForAPIToken (o : Onboarding) (token : string) : string :=
  match on_tokens o with
  | None => ""
  | Some t => if String.eqb token "" then "" else at_key t (hashPeerAPIToken token)
  end.

Definition bearerFromAuthHeader (h : string) : string :=
  if (String.length h <? 7)%nat || negb (EqualFold (str_take 7 h) "Bearer ") then "" else TrimSpace (str_drop 7 h).

Definition delete_tokens (ip : string) (o : Onboarding) : Onboarding :=
  set_tokens (filter (λ e, e.2 ≠ ip) <$> on_tokens o) o.

Definition move_tokens (from to : string) (o : Onboarding) : Onboarding :=
  set_tokens (match on_tokens o with Some t => Some ((λ ip, if String.eqb ip from then to else ip) <$> t) | None => None end) o.

Definition Seed (ip : string) (o : Onboarding) : Onboarding :=
  if String.eqb ip "" then o else set_agents ({[ip]} ∪ on_agents o) o.
Definition agents_Delete (ip : string) (o : Onboarding) : Onboarding := set_agents (on_agents o ∖ {[ip]}) o.

(** ** Start and approval page *)

(** What a start request brings; [sq_TLS] is a TLS connection. *)
Record StartRequest := mkStart {
  sq_Method : string;
  sq_Hostname : string;
  sq_Profile : string;
  sq_WholeMachine : string;
  sq_Host : string;
  sq_TLS : bool;
  sq_ForwardedProto : string
}.

(** The gateway's own addresses: the URL given at start-up and the live one,
    the tailnet address and the dashboard listener. *)
Record GatewayAddrs := mkAddrs {
  ga_publicURL : string;
  ga_cfgPublicURL : string;
  ga_tailscaleIP : string;
  ga_dashboardListen : string
}.

Definition port_suffix (listen : string) : string :=
  match LastIndexByte listen ":" with Some i => str_drop (S i) listen | None => listen end.

Definition verify_url (ga : GatewayAddrs) (r : StartRequest) (userCode : string) : string :=
  let url := if String.eqb (ga_cfgPublicURL ga) "" then ga_publicURL ga else ga_cfgPublicURL ga in
  let port := port_suffix (ga_dashboardListen ga) in
  let url := if negb (String.eqb (ga_tailscaleIP ga) "") && negb (String.eqb (ga_dashboardListen ga) "") && negb (String.eqb port "")
             then "http://" +:+ ga_tailscaleIP ga +:+ ":" +:+ port else url in
  let url := if String.eqb url "" then
               (if HasSuffix (sq_Host r) ".ts.net" || sq_TLS r || String.eqb (sq_ForwardedProto r) "https" then "https" else "http")
                 +:+ "://" +:+ sq_Host r
             else url in
  trim_right_by (Ascii.eqb "/") url +:+ "/#/onboard/" +:+ userCode.

(** The second critical section of the handler. *)
Definition start_fields (ptr : nat) (hostname profile : string) (wholeMachine : bool) (o : Onboarding) : Onboarding :=
  if negb (String.eqb hostname "") || negb (String.eqb profile "") || wholeMachine
  then write_session ptr (with_fields hostname profile wholeMachine) o else o.

Inductive StartAnswer :=
| StartRefused
| Started (deviceCode userCode verifyURL : string).

Definition apiOnboardStart (deviceCode userCode : string) (now : Z) (ga : GatewayAddrs) (r : StartRequest) (o : Onboarding)
    : Onboarding * StartAnswer :=
  if negb (String.eqb (sq_Method r) "POST") then (o, StartRefused)
  else
    let '(o, ptr) := start deviceCode userCode now o in
    (start_fields ptr (TrimSpace (sq_Hostname r)) (TrimSpace (sq_Profile r)) (String.eqb (sq_WholeMachine r) "1") o,
     Started deviceCode userCode (verify_url ga r userCode)).

(** The page of a user code: whether it is approved, the names to pick from and
    the one selected. *)
Definition apiOnboardLookup (names : list string) (code : string) (now : Z) (o : Onboarding)
    : Onboarding * option (string * bool * Z * list string * string) :=
  match byUserCode code now o with
  | (o, Some ptr) =>
      (o, (λ s, (os_userCode s, os_approved s, os_created s, names,
                 if os_approved s then os_profile s else resolveProfileFromList names (os_profile s))) <$> on_heap o !! ptr)
  | (o, None) => (o, None)
  end.

(** ** Approval *)

(** [unmarshal] decodes the two fields of a JSON object. *)
Definition decodeOnboardApproveBody (unmarshal : string -> option (string * string)) (body : option string)
    : option (string * string) :=
  match body with
  | None => Some ("", "")
  | Some raw =>
      let raw := str_take 4096 raw in
      if String.eqb (TrimSpace raw) "" then Some ("", "") else unmarshal raw
  end.

Record ApproveHTTP := mkApprove {
  aq_Method : string;
  aq_Principal : option principal;
  aq_Body : option string;
  aq_QueryCode : string;
  aq_QueryProfile : string;
  aq_HeaderProfile : string;
  aq_CallerUser : string;
  aq_CallerHost : string
}.

(** [names] are the profiles in order, [def] the default one. *)
Definition selectedProfileForRequest (def : string) (r : ApproveHTTP) : string :=
  if negb (String.eqb (aq_QueryProfile r) "") then aq_QueryProfile r
  else if negb (String.eqb (aq_HeaderProfile r) "") then aq_HeaderProfile r
  else if negb (String.eqb def "") then def
  else if negb (String.eqb (aq_CallerUser r) "") then aq_CallerUser r
  else aq_CallerHost r.

(** The background job of one approval, between two critical sections. *)
Inductive JobPC :=
| JMint (reuseIP : string)
| JClaim (key loginServer peerIP : string)
| JAssign (key loginServer peerIP : string)
| JPlaceholder (key loginServer : string)
| JSeed (key loginServer parentID : string)
| JToken (key loginServer parentID : string)
| JSetToken (key loginServer token : string)
| JPublish (key loginServer : string).

Record Job := mkJob { j_ptr : nat; j_owner : string; j_profile : string; j_wholeMachine : bool; j_pc : JobPC }.

Inductive ApproveAnswer :=
| ApproveError (status : Z) (msg : string)
| AlreadyApproved (profile : string)
| Approved (profile : string).

(** The critical section that approves: it answers the profile of an earlier
    approval, or the host name and kind of the session it approved. *)
Definition approve_section (ptr : nat) (owner profile : string) (o : Onboarding) : Onboarding * (string + string * bool) :=
  match on_heap o !! ptr with
  | Some s => if os_approved s then (o, inl (os_profile s))
              else (write_session ptr (with_approval owner profile) o, inr (os_hostname s, os_wholeMachine s))
  | None => (o, inl "")
  end.

(** [names] are the declared profiles in order and [def] the default one;
    [ord] is the visiting order of the host names. *)
Definition apiOnboardApprove (unmarshal : string -> option (string * string)) (names : list string) (def : string)
    (ord : list string) (now : Z) (r : ApproveHTTP) (o : Onboarding) : Onboarding * ApproveAnswer * option Job :=
  if negb (String.eqb (aq_Method r) "POST") then (o, ApproveError 405 "POST", None)
  else match principalFromContext (aq_Principal r) with
  | None => (o, ApproveError 403 "approval requires an authenticated operator", None)
  | Some _ =>
      match decodeOnboardApproveBody unmarshal (aq_Body r) with
      | None => (o, ApproveError 400 "body must be JSON", None)
      | Some (bodyCode, bodyProfile) =>
          let code := if String.eqb bodyCode "" then aq_QueryCode r else bodyCode in
          let requested := if String.eqb bodyProfile "" then aq_QueryProfile r else bodyProfile in
          let owner := if String.eqb requested "" then selectedProfileForRequest def r else requested in
          if String.eqb owner "" then (o, ApproveError 403 "approval requires a profile", None)
          else match byUserCode code now o with
          | (o, None) => (o, ApproveError 404 "unknown or expired code", None)
          | (o, Some ptr) =>
              if negb (String.eqb requested "") && negb (bool_decide (names = [])) && negb (bool_decide (requested ∈ names))
              then (o, ApproveError 400 "unknown profile", None)
              else
                let stored := match on_heap o !! ptr with Some s => os_profile s | None => "" end in
                let profile := if String.eqb requested "" then resolveProfileFromList names stored else requested in
                match approve_section ptr owner profile o with
                | (o, inl earlier) => (o, AlreadyApproved earlier, None)
                | (o, inr (hostname, wholeMachine)) =>
                    (o, Approved profile,
                     Some (mkJob ptr owner profile wholeMachine (JMint (IPForHostname ord (on_dev o) owner hostname))))
                end
          end
      end
  end.

Definition at_pc (j : Job) (pc : JobPC) : option Job := Some (mkJob (j_ptr j) (j_owner j) (j_profile j) (j_wholeMachine j) pc).

(** One critical section of the job. [mint] is what the onboarder answers,
    [token] the bearer drawn. *)
Definition job_step (mint : string -> bool -> result (string * string * string) string) (token : string) (now : Z) (j : Job)
    (o : Onboarding) : Onboarding * option Job :=
  let dc := match on_heap o !! j_ptr j with Some s => os_deviceCode s | None => "" end in
  match j_pc j with
  | JMint reuseIP =>
      match mint reuseIP (j_wholeMachine j) with
      | Err e => (write_session (j_ptr j) (with_error e) o, None)
      | Ok (key, loginServer, peerIP) =>
          (o, at_pc j (if negb (String.eqb peerIP "") then JClaim key loginServer peerIP
                       else if String.eqb loginServer "" && negb (j_wholeMachine j) then JPlaceholder key loginServer
                       else JPublish key loginServer))
      end
  | JClaim key loginServer peerIP => ((ClaimIP dc peerIP "" o).1, at_pc j (JAssign key loginServer peerIP))
  | JAssign key loginServer peerIP =>
      (if String.eqb (j_profile j) "" then o else set_dev (AssignProfile peerIP (j_profile j) (on_dev o)) o,
       at_pc j (JSeed key loginServer peerIP))
  | JPlaceholder key loginServer =>
      let '(o, ptr) := byDeviceCode dc now o in
      let hostname := match ptr ≫= λ ptr, on_heap o !! ptr with Some s => os_hostname s | None => "" end in
      let parentID := tsnetPlaceholderPrefix +:+ (if String.eqb hostname "" then dc else hostname) in
      (set_dev (seedPlaceholder parentID hostname (j_owner j) (j_profile j) (on_dev o)) o, at_pc j (JSeed key loginServer parentID))
  | JSeed key loginServer parentID => (Seed parentID o, at_pc j (JToken key loginServer parentID))
  | JToken key loginServer parentID =>
      match mintAndPersistPeerAPIToken token parentID o with
      | (o, Ok t) => (o, at_pc j (JSetToken key loginServer t))
      | (o, Err _) => (o, at_pc j (JPublish key loginServer))
      end
  | JSetToken key loginServer t => (write_session (j_ptr j) (with_token t) o, at_pc j (JPublish key loginServer))
  | JPublish key loginServer => (write_session (j_ptr j) (with_key key loginServer) o, None)
  end.

(** ** Poll *)

Inductive PollAnswer :=
| PollRefused
| PollExpired
| PollServerError (detail : string)
| PollPending
| PollSlowDown
| PollDelivered
| PollMaterial (authKey apiToken approvedBy loginServer : string).

(** The second critical section. *)
Definition poll_section (ptr : nat) (o : Onboarding) : Onboarding * PollAnswer :=
  match on_heap o !! ptr with
  | None => (o, PollExpired)
  | Some s =>
      if negb (String.eqb (os_err s) "") then (o, PollServerError (os_err s))
      else if negb (os_approved s) then (o, PollPending)
      else if String.eqb (os_authKey s) "" then (o, PollSlowDown)
      else if os_delivered s then (o, PollDelivered)
      else (write_session ptr with_delivered o, PollMaterial (os_authKey s) (os_apiToken s) (os_owner s) (os_loginServer s))
  end.

(** The material of a Tailscale session comes with the gateway's name, addresses
    and certificate, which are constants of the gateway. *)
Definition apiOnboardPoll (method deviceCode : string) (now : Z) (o : Onboarding) : Onboarding * PollAnswer :=
  if negb (String.eqb method "POST") then (o, PollRefused)
  else match byDeviceCode deviceCode now o with
       | (o, None) => (o, PollExpired)
       | (o, Some ptr) => poll_section ptr o
       end.

(** ** Claim *)

Definition placeholder_of (dc hostname : string) : string :=
  tsnetPlaceholderPrefix +:+ (if String.eqb hostname "" then dc else hostname).

Definition retirePlaceholderForClaim (dc realIP : string) (now : Z) (o : Onboarding) : Onboarding :=
  match byDeviceCode dc now o with
  | (o, None) => o
  | (o, Some ptr) =>
      match on_heap o !! ptr with
      | None => o
      | Some s =>
          let id := placeholder_of dc (os_hostname s) in
          if String.eqb id realIP then o
          else delete_tokens id (agents_Delete id (set_dev (ForgetIP id (on_dev o)) o))
      end
  end.

(** The tailnet lookup of both handlers, with the agents listed under an alias
    dropped. *)
Definition seed_aliases (lc : option (string -> option Node)) (ip : string) (o : Onboarding) : Onboarding :=
  let '(d, aliases) := seedTsnetIPv6Alias lc ip (on_dev o) in
  foldl (λ o alias, agents_Delete alias o) (set_dev d o) aliases.

Inductive ClaimAnswer :=
| ClaimError (status : Z) (msg : string)
| Claimed (owner ip : string) (token : result string string).

Definition apiOnboardClaim (lc : option (string -> option Node)) (newToken : string) (now : Z)
    (method dc ipParam remoteAddr hostname : string) (o : Onboarding) : Onboarding * ClaimAnswer :=
  if negb (String.eqb method "POST") then (o, ClaimError 405 "POST")
  else if String.eqb dc "" then (o, ClaimError 400 "missing device_code")
  else
    let host := if String.eqb ipParam "" then peer_host remoteAddr else ipParam in
    match ClaimIP dc host (TrimSpace hostname) o with
    | (o, None) => (o, ClaimError 404 "unknown or unapproved device_code")
    | (o, Some owner) =>
        let o := seed_aliases lc host (Seed host o) in
        match mintAndPersistPeerAPIToken newToken host o with
        | (o, Ok t) => (retirePlaceholderForClaim dc host now o, Claimed owner host (Ok t))
        | (o, Err e) => (o, Claimed owner host (Err e))
        end
    end.

(** ** Registration of a daemon *)

(** The first call of a daemon moves its token, profile, owner and name from the
    placeholder to its address. *)
Definition promote (parentIP tsnetIP hostname : string) (o : Onboarding) : Onboarding :=
  let d := on_dev o in
  let profile := ProfileForIP d parentIP in
  let owner := OwnerForIP d parentIP in
  let hostname := if String.eqb hostname "" then HostnameForIP d parentIP else hostname in
  let o := agents_Delete parentIP (set_dev (ForgetIP parentIP d) (move_tokens parentIP tsnetIP o)) in
  let o := if String.eqb profile "" then o else set_dev (AssignProfile tsnetIP profile (on_dev o)) o in
  let o := if String.eqb owner "" then o else set_dev (SetOwner tsnetIP owner (on_dev o)) o in
  let o := if String.eqb hostname "" then o else set_dev (SetHostname tsnetIP hostname (on_dev o)) o in
  Seed tsnetIP o.

Inductive RegisterAnswer := RegisterError (status : Z) (msg : string) | Registered.

Definition apiPeerTsnetRegister (lc : option (string -> option Node)) (method authorization ipParam hostname : string)
    (o : Onboarding) : Onboarding * RegisterAnswer :=
  if negb (String.eqb method "POST") then (o, RegisterError 405 "POST")
  else
    let parentIP := peerIPForAPIToken o (bearerFromAuthHeader authorization) in
    if String.eqb parentIP "" then (o, RegisterError 401 "unauthorized")
    else
      let tsnetIP := TrimSpace ipParam in
      if String.eqb tsnetIP "" then (o, RegisterError 400 "missing ip")
      else match ParseAddr tsnetIP with
      | None => (o, RegisterError 400 "invalid ip")
      | Some _ =>
          if HasPrefix parentIP tsnetPlaceholderPrefix
          then (seed_aliases lc tsnetIP (promote parentIP tsnetIP (TrimSpace hostname) o), Registered)
          else if negb (String.eqb tsnetIP parentIP) then (o, Registered)
          else if negb (HasDevice (on_dev o) tsnetIP) then (o, Registered)
          else (seed_aliases lc tsnetIP o, Registered)
      end.

(** ** The operator's device list *)

(** Revoking the WireGuard peer is left to the transport. *)
Definition apiAgentDelete (method ip : string) (o : Onboarding) : Onboarding * Z :=
  if negb (String.eqb method "POST") then (o, 405)
  else if String.eqb ip "" then (o, 400)
  else (delete_tokens ip (set_dev (ForgetIP ip (on_dev (agents_Delete ip o))) (agents_Delete ip o)), 200).

Definition apiAgentProfile (names : list string) (method ip profile : string) (o : Onboarding) : Onboarding * Z :=
  if negb (String.eqb method "POST") then (o, 405)
  else if String.eqb ip "" || String.eqb profile "" then (o, 400)
  else if negb (bool_decide (profile ∈ names)) then (o, 400)
  else (set_dev (AssignProfile ip profile (on_dev o)) o, 200).
End Onboard.
