(* ===== verification/OnboardProps.v ===== *)
(** * Properties of onboarding

    Through every interleaving of starts, approvals, polls, background jobs and
    everything else that touches the registry: key material follows an
    approval, carries its token and is handed out once. Then what a claim may
    and may not do. *)
From S2P Require Import Prelude GoStrings NetAddr GoUrl GoHttp Policy Compile RelayDest DashboardAuth Devices DevicesProps Peers Onboard.

(** ** Interleavings *)

Inductive OnbEvent :=
| EvApproved (ptr : nat) (owner profile : string)
| EvMinted (ptr : nat) (key : string)
| EvToken (ptr : nat) (token : string)
| EvDelivered (ptr : nat) (code key token owner : string).

Definition event_ptr (e : OnbEvent) : nat :=
  match e with EvApproved p _ _ | EvMinted p _ | EvToken p _ | EvDelivered p _ _ _ _ => p end.

(** The registry, the jobs in flight, and the polls between their two critical
    sections. *)
Record OnbSys := mkOnbSys { sy_reg : Onboarding; sy_jobs : list Job; sy_polls : list (string * nat) }.

Section System.
Context (hash : string -> string).

Definition job_events (mint : string -> bool -> result (string * string * string) string) (j : Job) : list OnbEvent :=
  match j_pc j with
  | JMint reuse => match mint reuse (j_wholeMachine j) with Ok (key, _, _) => [EvMinted (j_ptr j) key] | Err _ => [] end
  | JSetToken _ _ t => [EvToken (j_ptr j) t]
  | _ => []
  end.

(** One critical section. The fields of a start may arrive at any time; the maps
    of devices, the tokens and the agents may change in any way. *)
Inductive onb_step : OnbSys -> list OnbEvent -> OnbSys -> Prop :=
| os_start dc uc now o jobs polls :
    onb_step (mkOnbSys o jobs polls) [] (mkOnbSys (start dc uc now o).1 jobs polls)
| os_fields ptr hn prof wm o jobs polls :
    onb_step (mkOnbSys o jobs polls) [] (mkOnbSys (start_fields ptr hn prof wm o) jobs polls)
| os_gc now o jobs polls : onb_step (mkOnbSys o jobs polls) [] (mkOnbSys (gcLocked now o) jobs polls)
| os_approve ptr owner profile reuse o jobs polls o' hn wm :
    approve_section ptr owner profile o = (o', inr (hn, wm)) →
    onb_step (mkOnbSys o jobs polls) [EvApproved ptr owner profile]
      (mkOnbSys o' (mkJob ptr owner profile wm (JMint reuse) :: jobs) polls)
| os_job mint token now j o l1 l2 polls o' j' :
    job_step hash mint token now j o = (o', j') →
    onb_step (mkOnbSys o (l1 ++ j :: l2) polls) (job_events mint j)
      (mkOnbSys o' (l1 ++ match j' with Some j' => j' :: l2 | None => l2 end) polls)
| os_poll_lookup code now o o' ptr jobs polls :
    byDeviceCode code now o = (o', Some ptr) →
    onb_step (mkOnbSys o jobs polls) [] (mkOnbSys o' jobs ((code, ptr) :: polls))
| os_poll code ptr o o' a jobs polls :
    (code, ptr) ∈ polls → poll_section ptr o = (o', a) →
    onb_step (mkOnbSys o jobs polls)
      match a with PollMaterial key token owner _ => [EvDelivered ptr code key token owner] | _ => [] end
      (mkOnbSys o' jobs polls)
| os_other d t ag o jobs polls :
    onb_step (mkOnbSys o jobs polls) [] (mkOnbSys (set_dev d (set_tokens t (set_agents ag o))) jobs polls).

Inductive onb_trace : list OnbEvent -> OnbSys -> Prop :=
| ot_init d t ag : onb_trace [] (mkOnbSys (mkOnboarding d ∅ ∅ ∅ t ag) [] [])
| ot_step evs s ev s' : onb_trace evs s → onb_step s ev s' → onb_trace (evs ++ ev) s'.

Definition events_of (ptr : nat) (evs : list OnbEvent) : list OnbEvent := List.filter (λ e, (event_ptr e =? ptr)%nat) evs.
Definition jobs_of (ptr : nat) (jobs : list Job) : list Job := List.filter (λ j, (j_ptr j =? ptr)%nat) jobs.

(** ** The life of a session *)

(** The key a job carries after minting, before the token is set. *)
Definition pc_key (pc : JobPC) : option string :=
  match pc with
  | JClaim k _ _ | JAssign k _ _ | JPlaceholder k _ | JSeed k _ _ | JToken k _ _ | JSetToken k _ _ => Some k
  | _ => None
  end.

Definition token_events (ptr : nat) (tok : option string) : list OnbEvent := match tok with Some t => [EvToken ptr t] | None => [] end.

(** The session, its jobs and its events agree on how far it has come. *)
Inductive life (ptr : nat) (s : onboardSession) : list Job -> list OnbEvent -> Prop :=
| li_new :
    os_approved s = false → os_authKey s = "" → os_apiToken s = "" → os_delivered s = false → life ptr s [] []
| li_mint j profile reuse :
    os_approved s = true → os_authKey s = "" → os_apiToken s = "" → os_delivered s = false → j_pc j = JMint reuse →
    life ptr s [j] [EvApproved ptr (os_owner s) profile]
| li_failed profile :
    os_approved s = true → os_authKey s = "" → os_delivered s = false → life ptr s [] [EvApproved ptr (os_owner s) profile]
| li_minted j profile key :
    os_approved s = true → os_authKey s = "" → os_apiToken s = "" → os_delivered s = false → pc_key (j_pc j) = Some key →
    life ptr s [j] [EvApproved ptr (os_owner s) profile; EvMinted ptr key]
| li_publish j profile key ls tok :
    os_approved s = true → os_authKey s = "" → os_apiToken s = default "" tok → os_delivered s = false → j_pc j = JPublish key ls →
    life ptr s [j] ([EvApproved ptr (os_owner s) profile; EvMinted ptr key] ++ token_events ptr tok)
| li_ready profile tok :
    os_approved s = true → os_apiToken s = default "" tok → os_delivered s = false →
    life ptr s [] ([EvApproved ptr (os_owner s) profile; EvMinted ptr (os_authKey s)] ++ token_events ptr tok)
| li_delivered profile tok key :
    os_approved s = true → os_delivered s = true →
    life ptr s [] ([EvApproved ptr (os_owner s) profile; EvMinted ptr key] ++ token_events ptr tok ++
      [EvDelivered ptr (os_deviceCode s) key (default "" tok) (os_owner s)]).

Record onb_inv (evs : list OnbEvent) (sys : OnbSys) : Prop := {
  oi_none : ∀ ptr, on_heap (sy_reg sys) !! ptr = None → jobs_of ptr (sy_jobs sys) = [] ∧ events_of ptr evs = [];
  oi_life : ∀ ptr s, on_heap (sy_reg sys) !! ptr = Some s → life ptr s (jobs_of ptr (sy_jobs sys)) (events_of ptr evs);
  oi_index : ∀ code ptr, byDevice (sy_reg sys) !! code = Some ptr → os_deviceCode <$> on_heap (sy_reg sys) !! ptr = Some code;
  oi_polls : ∀ code ptr, (code, ptr) ∈ sy_polls sys → os_deviceCode <$> on_heap (sy_reg sys) !! ptr = Some code
}.

Lemma events_of_app ptr a b : events_of ptr (a ++ b) = events_of ptr a ++ events_of ptr b.
Proof. apply List.filter_app. Qed.

Lemma jobs_of_cons ptr j l : jobs_of ptr (j :: l) = if (j_ptr j =? ptr)%nat then j :: jobs_of ptr l else jobs_of ptr l.
Proof. done. Qed.

Lemma jobs_of_app ptr a b : jobs_of ptr (a ++ b) = jobs_of ptr a ++ jobs_of ptr b.
Proof. apply List.filter_app. Qed.

(** A section that writes at most one session and moves its job on. *)
Lemma onb_inv_local evs o jobs polls ptr0 s s' o' jobs' ev :
  onb_inv evs (mkOnbSys o jobs polls) → on_heap o !! ptr0 = Some s → os_deviceCode s' = os_deviceCode s →
  (∀ p, on_heap o' !! p = if decide (p = ptr0) then Some s' else on_heap o !! p) →
  (∀ code p, byDevice o' !! code = Some p → byDevice o !! code = Some p) →
  (∀ p, p ≠ ptr0 → jobs_of p jobs' = jobs_of p jobs) → Forall (λ e, event_ptr e = ptr0) ev →
  (life ptr0 s (jobs_of ptr0 jobs) (events_of ptr0 evs) → life ptr0 s' (jobs_of ptr0 jobs') (events_of ptr0 evs ++ ev)) →
  onb_inv (evs ++ ev) (mkOnbSys o' jobs' polls).
Proof.
  intros [Hn Hl Hi Hp] Hs Hdc Hheap Hby Hjobs Hev Hlife. cbn [sy_reg sy_jobs sy_polls] in *.
  assert (events_of ptr0 ev = ev) as Hev0.
  { clear -Hev. induction Hev as [|e ev He _ IH]; [done|]. cbn. rewrite He, Nat.eqb_refl. f_equal. exact IH. }
  assert (∀ p, p ≠ ptr0 → events_of p ev = []) as Hev1.
  { intros p Hpne. clear -Hev Hpne. induction Hev as [|e ev He _ IH]; [done|]. cbn. rewrite He.
    destruct (Nat.eqb_spec ptr0 p); [by subst|exact IH]. }
  assert (∀ code p, os_deviceCode <$> on_heap o !! p = Some code → os_deviceCode <$> on_heap o' !! p = Some code) as Hcode.
  { intros code p H. rewrite Hheap. case_decide; [|done]. subst p. rewrite Hs in H. cbn in *. congruence. }
  split; cbn [sy_reg sy_jobs sy_polls].
  - intros p Hpn. rewrite Hheap in Hpn. case_decide; [done|]. rewrite events_of_app, Hev1, app_nil_r, Hjobs by done. by apply Hn.
  - intros p s1 Hs1. rewrite Hheap in Hs1. rewrite events_of_app. case_decide; [subst p; simplify_eq; rewrite Hev0; auto|].
    rewrite Hev1, app_nil_r, Hjobs by done. by apply Hl.
  - intros code p H. apply Hcode, Hi, Hby, H.
  - intros code p H. apply Hcode, Hp, H.
Qed.

Lemma onb_inv_frame evs o jobs polls o' polls' :
  onb_inv evs (mkOnbSys o jobs polls) → on_heap o' = on_heap o →
  (∀ code p, byDevice o' !! code = Some p → byDevice o !! code = Some p) →
  (∀ code p, (code, p) ∈ polls' → (code, p) ∈ polls ∨ byDevice o !! code = Some p) →
  onb_inv (evs ++ []) (mkOnbSys o' jobs polls').
Proof.
  intros [Hn Hl Hi Hp] Hh Hby Hpo. cbn [sy_reg sy_jobs sy_polls] in *. rewrite app_nil_r.
  split; cbn [sy_reg sy_jobs sy_polls]; rewrite ?Hh; auto.
  intros code p H. destruct (Hpo _ _ H); auto.
Qed.

Lemma write_lookup ptr f o s p :
  on_heap o !! ptr = Some s → on_heap (write_session ptr f o) !! p = if decide (p = ptr) then Some (f s) else on_heap o !! p.
Proof.
  intros Hs. cbn. case_decide as H; [subst; by rewrite lookup_alter_eq, Hs|by rewrite lookup_alter_ne].
Qed.

Lemma gc_index now o code p : byDevice (gcLocked now o) !! code = Some p → byDevice o !! code = Some p.
Proof. cbn. by intros [? _]%map_lookup_filter_Some. Qed.

Lemma step_start dc uc now o jobs polls evs :
  onb_inv evs (mkOnbSys o jobs polls) → onb_inv (evs ++ []) (mkOnbSys (start dc uc now o).1 jobs polls).
Proof.
  intros [Hn Hl Hi Hp]. unfold start. cbv zeta. cbn [on_heap gcLocked]. set (ptr := fresh (dom (on_heap o))).
  assert (on_heap o !! ptr = None) as Hf by (apply not_elem_of_dom, is_fresh). rewrite app_nil_r. cbn [sy_reg sy_jobs sy_polls] in *.
  assert (∀ code p, os_deviceCode <$> on_heap o !! p = Some code → p ≠ ptr) as Hold. { intros code p H ->. by rewrite Hf in H. }
  split; cbn [sy_reg sy_jobs sy_polls fst on_heap byDevice].
  - intros p [Hpn Hne]%lookup_insert_None. by apply Hn.
  - intros p s [[<- <-]|[Hne Hs]]%lookup_insert_Some; [|by apply Hl]. destruct (Hn ptr Hf) as [-> ->]. by constructor.
  - intros code p [[<- <-]|[Hne Hc]]%lookup_insert_Some; [by rewrite lookup_insert_eq|].
    apply map_lookup_filter_Some in Hc as [Hc _]. apply Hi in Hc. rewrite lookup_insert_ne; [done|]. apply not_eq_sym. eauto.
  - intros code p H%Hp. rewrite lookup_insert_ne; [done|]. apply not_eq_sym. eauto.
Qed.

Lemma life_fields ptr s hn prof wm js es : life ptr s js es → life ptr (with_fields hn prof wm s) js es.
Proof.
  intros H. destruct H.
  - by constructor.
  - by eapply (li_mint ptr (with_fields hn prof wm s)).
  - by apply (li_failed ptr (with_fields hn prof wm s)).
  - by apply (li_minted ptr (with_fields hn prof wm s)).
  - by eapply (li_publish ptr (with_fields hn prof wm s)).
  - by apply (li_ready ptr (with_fields hn prof wm s)).
  - by apply (li_delivered ptr (with_fields hn prof wm s)).
Qed.

Lemma step_fields ptr hn prof wm o jobs polls evs :
  onb_inv evs (mkOnbSys o jobs polls) → onb_inv (evs ++ []) (mkOnbSys (start_fields ptr hn prof wm o) jobs polls).
Proof.
  intros Hinv. unfold start_fields. destruct (_ || _); [|by eapply onb_inv_frame; eauto].
  destruct (on_heap o !! ptr) as [s|] eqn:Hs.
  - eapply (onb_inv_local _ _ _ _ ptr s (with_fields hn prof wm s)); eauto; [by intros p; apply write_lookup|]. rewrite app_nil_r. apply life_fields.
  - eapply onb_inv_frame; eauto. cbn. apply map_eq. intros p. destruct (decide (p = ptr)) as [->|];
      [by rewrite lookup_alter_eq, Hs|by rewrite lookup_alter_ne].
Qed.

Lemma step_approve ptr owner profile reuse o jobs polls o' hn wm evs :
  approve_section ptr owner profile o = (o', inr (hn, wm)) → onb_inv evs (mkOnbSys o jobs polls) →
  onb_inv (evs ++ [EvApproved ptr owner profile]) (mkOnbSys o' (mkJob ptr owner profile wm (JMint reuse) :: jobs) polls).
Proof.
  unfold approve_section. destruct (on_heap o !! ptr) as [s|] eqn:Hs; [|done]. destruct (os_approved s) eqn:Ea; [done|].
  intros [= <- <- <-] Hinv. eapply (onb_inv_local _ _ _ _ ptr s (with_approval owner profile s)); eauto.
  - intros p. by apply write_lookup.
  - intros p Hne. rewrite jobs_of_cons. cbn. destruct (Nat.eqb_spec ptr p); [by subst|done].
  - rewrite jobs_of_cons. cbn [j_ptr]. rewrite Nat.eqb_refl. intros Hl. inversion Hl; try congruence.
    by eapply (li_mint ptr (with_approval owner profile s)).
Qed.

(** What a section of a job does to its session. *)
Definition job_session (mint : string -> bool -> result (string * string * string) string) (j : Job) (s : onboardSession) : onboardSession :=
  match j_pc j with
  | JMint reuse => match mint reuse (j_wholeMachine j) with Err e => with_error e s | Ok _ => s end
  | JSetToken _ _ t => with_token t s
  | JPublish key ls => with_key key ls s
  | _ => s
  end.

Lemma job_step_heap mint token now j o o' j' s :
  on_heap o !! j_ptr j = Some s → job_step hash mint token now j o = (o', j') →
  (∀ p, on_heap o' !! p = if decide (p = j_ptr j) then Some (job_session mint j s) else on_heap o !! p) ∧
  (∀ code p, byDevice o' !! code = Some p → byDevice o !! code = Some p).
Proof.
  intros Hs. unfold job_step, job_session. rewrite Hs. cbv zeta.
  assert (∀ p, on_heap o !! p = if decide (p = j_ptr j) then Some s else on_heap o !! p) as Hid.
  { intros p. case_decide; [by subst|done]. }
  destruct (j_pc j).
  - destruct (mint _ _) as [[[k l] ip]|e]; intros [= <- <-]; split; try done. intros p. by apply write_lookup.
  - intros [= <- <-]. unfold ClaimIP. destruct (_ ≫= _) as [s1|]; [destruct (String.eqb (os_owner s1) "")|]; done.
  - intros [= <- <-]. by destruct (String.eqb (j_profile j) "").
  - intros [= <- <-]. split; [done|]. apply gc_index.
  - intros [= <- <-]. unfold Seed. by destruct (String.eqb parentID "").
  - unfold mintAndPersistPeerAPIToken. destruct (on_tokens o); [destruct (bool_decide _)|]; by intros [= <- <-].
  - intros [= <- <-]. split; [|done]. intros p. by apply write_lookup.
  - intros [= <- <-]. split; [|done]. intros p. by apply write_lookup.
Qed.

Lemma job_step_ptr mint token now j o o' j' : job_step hash mint token now j o = (o', Some j') → j_ptr j' = j_ptr j.
Proof.
  unfold job_step. destruct (j_pc j); cbn; try (by intros [= <- <-]).
  - destruct (mint _ _) as [[[k l] ip]|e]; by intros [= <- <-].
  - destruct (mintAndPersistPeerAPIToken _ _ _ _) as [o1 [t|e]]; by intros [= <- <-].
Qed.

(** A section of the job moves the session on along its life. *)
Lemma job_step_life mint token now j o o' j' s es :
  job_step hash mint token now j o = (o', j') → life (j_ptr j) s [j] es →
  life (j_ptr j) (job_session mint j s) (match j' with Some j' => [j'] | None => [] end) (es ++ job_events mint j).
Proof.
  unfold job_step, job_session, job_events. cbv zeta. intros Hstep Hl. inversion Hl as [|? profile reuse Ha Hk Ht Hd Hpc| |
    ? profile key Ha Hk Ht Hd Hpc|? profile key ls tok Ha Hk Ht Hd Hpc| |]; subst.
  - rewrite Hpc in *. destruct (mint reuse (j_wholeMachine j)) as [[[k l] ip]|e]; injection Hstep as <- <-; cbn.
    + destruct (negb (String.eqb ip "")); [by apply li_minted|]. destruct (_ && _); [by apply li_minted|].
      by apply (li_publish _ _ _ _ _ l None).
    + by apply (li_failed _ (with_error e s)).
  - destruct (j_pc j) eqn:Epc; cbn in Hpc; try done; injection Hpc as ->.
    + injection Hstep as <- <-. by apply li_minted.
    + injection Hstep as <- <-. by apply li_minted.
    + injection Hstep as <- <-. by apply li_minted.
    + injection Hstep as <- <-. by apply li_minted.
    + destruct (mintAndPersistPeerAPIToken _ _ _ _) as [o1 [t|e]]; injection Hstep as <- <-; [by apply li_minted|].
      by apply (li_publish _ _ _ _ _ loginServer None).
    + injection Hstep as <- <-. by apply (li_publish _ (with_token token0 s) _ _ _ loginServer (Some token0)).
  - rewrite Hpc in *. injection Hstep as <- <-. rewrite app_nil_r. by apply (li_ready _ (with_key key ls s)).
Qed.

Lemma step_job mint token now j o l1 l2 polls o' j' evs :
  job_step hash mint token now j o = (o', j') → onb_inv evs (mkOnbSys o (l1 ++ j :: l2) polls) →
  onb_inv (evs ++ job_events mint j) (mkOnbSys o' (l1 ++ match j' with Some j' => j' :: l2 | None => l2 end) polls).
Proof.
  intros Hstep Hinv. destruct (on_heap o !! j_ptr j) as [s|] eqn:Hs.
  2:{ apply (oi_none _ _ Hinv) in Hs as [Hs _]. cbn [sy_jobs] in Hs. rewrite jobs_of_app, jobs_of_cons, Nat.eqb_refl in Hs. by destruct (jobs_of _ l1). }
  pose proof (oi_life _ _ Hinv _ _ Hs) as Hl. cbn [sy_jobs] in Hl. rewrite jobs_of_app, jobs_of_cons, Nat.eqb_refl in Hl.
  assert (jobs_of (j_ptr j) l1 = [] ∧ jobs_of (j_ptr j) l2 = []) as [H1 H2].
  { inversion Hl as [| | | | | |]; destruct (jobs_of (j_ptr j) l1) as [|? [|]]; simplify_eq/=; done. }
  rewrite H1, H2 in Hl. destruct (job_step_heap _ _ _ _ _ _ _ _ Hs Hstep) as [Hh Hby].
  eapply (onb_inv_local _ _ _ _ (j_ptr j) s (job_session mint j s)); eauto.
  - unfold job_session. destruct (j_pc j); try done. by destruct (mint _ _).
  - intros p Hne. rewrite !jobs_of_app. f_equal. rewrite jobs_of_cons. destruct (Nat.eqb_spec (j_ptr j) p); [by subst|].
    destruct j' as [j'|]; [|done]. rewrite jobs_of_cons, (job_step_ptr _ _ _ _ _ _ _ Hstep). by destruct (Nat.eqb_spec (j_ptr j) p).
  - unfold job_events. destruct (j_pc j); try done; [destruct (mint _ _) as [[[k l] ip]|]|]; by repeat constructor.
  - intros _. rewrite jobs_of_app, H1. cbn [app].
    assert (jobs_of (j_ptr j) (match j' with Some j' => j' :: l2 | None => l2 end) = match j' with Some j' => [j'] | None => [] end) as ->.
    { destruct j' as [j'|]; [|done]. by rewrite jobs_of_cons, (job_step_ptr _ _ _ _ _ _ _ Hstep), Nat.eqb_refl, H2. }
    by eapply job_step_life.
Qed.

Lemma step_poll code ptr o o' a jobs polls evs :
  (code, ptr) ∈ polls → poll_section ptr o = (o', a) → onb_inv evs (mkOnbSys o jobs polls) →
  onb_inv (evs ++ match a with PollMaterial key token owner _ => [EvDelivered ptr code key token owner] | _ => [] end)
    (mkOnbSys o' jobs polls).
Proof.
  intros Hp H Hinv. pose proof (oi_polls _ _ Hinv _ _ Hp) as Hcode. cbn [sy_reg] in Hcode. unfold poll_section in H.
  destruct (on_heap o !! ptr) as [s|] eqn:Hs; [|done]. injection Hcode as <-.
  destruct (negb (String.eqb (os_err s) "")); [injection H as <- <-; by eapply onb_inv_frame; eauto|].
  destruct (os_approved s) eqn:Ea; [|injection H as <- <-; by eapply onb_inv_frame; eauto].
  destruct (String.eqb (os_authKey s) "") eqn:Ek; [injection H as <- <-; by eapply onb_inv_frame; eauto|].
  destruct (os_delivered s) eqn:Ed; injection H as <- <-; [by eapply onb_inv_frame; eauto|]. bprop.
  eapply (onb_inv_local _ _ _ _ ptr s (with_delivered s)); eauto; [intros p; by apply write_lookup|].
  generalize (jobs_of ptr jobs) (events_of ptr evs). intros js es Hl. destruct Hl as [| | | | |profile tok Ha Ht Hd|]; try congruence.
  rewrite <- app_assoc, Ht. by apply (li_delivered _ (with_delivered s)).
Qed.

Lemma onb_step_inv evs s ev s' : onb_inv evs s → onb_step s ev s' → onb_inv (evs ++ ev) s'.
Proof.
  intros Hinv Hstep. destruct Hstep.
  - by apply step_start.
  - by apply step_fields.
  - eapply onb_inv_frame; eauto using gc_index.
  - by eapply step_approve.
  - by eapply step_job.
  - unfold byDeviceCode in H. injection H as <- Hptr. apply (onb_inv_frame _ o _ polls); [done|done|apply gc_index|].
    intros code' p [[= -> ->]|?]%elem_of_cons; [right; eapply gc_index; exact Hptr|by left].
  - by eapply step_poll.
  - by eapply onb_inv_frame; eauto.
Qed.

Lemma onb_trace_inv evs s : onb_trace evs s → onb_inv evs s.
Proof. induction 1; [split; cbn; set_solver|by eapply onb_step_inv]. Qed.

(** C18. However starts, approvals, jobs, polls and other calls interleave, what
    happens to one session is a beginning of: an operator approves it, one key
    is minted for it, at most one token is issued for it, and the key goes out
    with that token, once, to a poller that has its device code. *)
Theorem material_delivered_once evs s ptr :
  onb_trace evs s →
  ∃ owner profile key tok code,
    events_of ptr evs `prefix_of`
      [EvApproved ptr owner profile; EvMinted ptr key] ++ token_events ptr tok ++
      [EvDelivered ptr code key (default "" tok) owner] ∧
    ∀ ss, on_heap (sy_reg s) !! ptr = Some ss → os_deviceCode ss = code.
Proof.
  intros Ht%onb_trace_inv. destruct (on_heap (sy_reg s) !! ptr) as [ss|] eqn:Hs.
  2:{ destruct (oi_none _ _ Ht _ Hs) as [_ ->]. exists "", "", "", None, "". split; [by eexists|done]. }
  assert (∀ P, P (os_deviceCode ss) → ∃ code, P code ∧ ∀ ss0, Some ss = Some ss0 → os_deviceCode ss0 = code) as Hcode.
  { intros P HP. exists (os_deviceCode ss). split; [done|]. by intros ? [= ->]. }
  destruct (oi_life _ _ Ht _ _ Hs).
  - exists "", "", "", None. apply Hcode. by eexists.
  - exists (os_owner ss), profile, "", None. apply Hcode. by eexists.
  - exists (os_owner ss), profile, "", None. apply Hcode. by eexists.
  - exists (os_owner ss), profile, key, None. apply Hcode. by eexists.
  - exists (os_owner ss), profile, key, tok. apply Hcode. rewrite app_assoc. apply prefix_app_r. done.
  - exists (os_owner ss), profile, (os_authKey ss), tok. apply Hcode. rewrite app_assoc. apply prefix_app_r. done.
  - exists (os_owner ss), profile, key, tok. apply Hcode. done.
Qed.
End System.

(** ** Handlers *)

Lemma resolveProfileFromList_declared names suggestion : names ≠ [] → resolveProfileFromList names suggestion ∈ names.
Proof.
  intros Hne. unfold resolveProfileFromList. case_bool_decide; [done|]. destruct names as [|n names]; [done|].
  case_bool_decide; [done|left].
Qed.

Lemma approve_section_heap ptr owner profile o o' hn wm :
  approve_section ptr owner profile o = (o', inr (hn, wm)) →
  ∃ s, on_heap o !! ptr = Some s ∧ os_approved s = false ∧ on_heap o' = <[ptr := with_approval owner profile s]> (on_heap o).
Proof.
  unfold approve_section. destruct (on_heap o !! ptr) as [s|] eqn:Hs; [|done]. destruct (os_approved s) eqn:Ea; [done|].
  intros [= <- <- <-]. exists s. split; [done|]. split; [done|]. cbn. apply map_eq. intros p.
  destruct (decide (p = ptr)) as [->|]; [by rewrite lookup_alter_eq, Hs, lookup_insert_eq|by rewrite lookup_alter_ne, lookup_insert_ne].
Qed.

(** A session is approved only by a request with an authenticated operator, into
    a declared profile when there is any, and once; every other outcome of the
    handler approves nothing and starts no job. *)
Theorem approval_by_operator unmarshal names def ord now r o o' a j :
  apiOnboardApprove unmarshal names def ord now r o = (o', a, j) →
  on_dev o' = on_dev o ∧
  match j with
  | None => on_heap o' = on_heap o
  | Some j =>
      a = Approved (j_profile j) ∧ is_Some (principalFromContext (aq_Principal r)) ∧ (names ≠ [] → j_profile j ∈ names) ∧
      j_owner j ≠ "" ∧ ∃ s, on_heap o !! j_ptr j = Some s ∧ os_approved s = false ∧
        on_heap o' = <[j_ptr j := with_approval (j_owner j) (j_profile j) s]> (on_heap o)
  end.
Proof.
  unfold apiOnboardApprove. destruct (negb _); [by intros [= <- <- <-]|].
  destruct (principalFromContext _) as [pr|]; [|by intros [= <- <- <-]].
  destruct (decodeOnboardApproveBody _ _) as [[bc bp]|]; [|by intros [= <- <- <-]]. cbv zeta.
  set (requested := if String.eqb bp "" then _ else _). set (owner := if String.eqb requested "" then _ else _).
  destruct (String.eqb_spec owner ""); [by intros [= <- <- <-]|].
  destruct (byUserCode _ now o) as [o1 [ptr|]] eqn:Eu; unfold byUserCode in Eu; injection Eu as <- Eu; [|by intros [= <- <- <-]].
  destruct (_ && _ && _) eqn:Ed; [by intros [= <- <- <-]|].
  set (profile := if String.eqb requested "" then _ else _).
  destruct (approve_section _ _ _ _) as [o2 [earlier|[hn wm]]] eqn:Es.
  - intros [= <- <- <-]. unfold approve_section in Es. destruct (_ !! ptr) as [s|]; [|by injection Es as <- _].
    destruct (os_approved s); [by injection Es as <- _|done].
  - assert (on_dev o2 = on_dev (gcLocked now o)) as Hd.
    { unfold approve_section in Es. destruct (_ !! ptr) as [s|]; [|done]. destruct (os_approved s); [done|]. by injection Es as <- _ _. }
    intros [= <- <- <-]. split; [done|]. cbn [j_profile j_owner j_ptr]. split_and!; [done|by eexists| |done|exact (approve_section_heap _ _ _ _ _ _ _ Es)].
    intros Hn. unfold profile. destruct (String.eqb requested "") eqn:Er; [by apply resolveProfileFromList_declared|].
    cbn in Ed. rewrite (bool_decide_false _ Hn) in Ed. cbn in Ed. by apply negb_false_iff, bool_decide_eq_true in Ed.
Qed.

(** A deleted device is gone: no row in memory or in the table, no profile for
    it or for its aliases, which are addresses of their own again, and no bearer
    token that answers for it. *)
Theorem deleted_device_forgotten hash ip o t :
  ip ≠ "" → dev_db (on_dev o) = Some t →
  let o' := (apiAgentDelete "POST" ip o).1 in
  HasDevice (on_dev o') ip = false ∧ dev_db (on_dev o') = Some (delete ip t) ∧
  (∀ token, peerIPForAPIToken hash o' token ≠ ip) ∧
  ∀ a, a = ip ∨ canonicalByAlias (on_dev o) !! a = Some ip →
    ProfileForIP (on_dev o') a = "" ∧ AgentIPFor (on_dev o') a = a.
Proof.
  intros Hip Hdb. cbv zeta. unfold apiAgentDelete. cbn [String.eqb Ascii.eqb Bool.eqb negb]. destruct (String.eqb_spec ip ""); [done|].
  cbn [fst on_dev delete_tokens set_tokens set_dev agents_Delete set_agents]. split_and!.
  - unfold HasDevice, ForgetIP. apply bool_decide_eq_false. cbn. set_solver.
  - cbn. by rewrite Hdb.
  - intros token. unfold peerIPForAPIToken. cbn. destruct (on_tokens o) as [tk|]; cbn; [|done].
    destruct (String.eqb token ""); [done|]. unfold at_key. rewrite map_lookup_filter. destruct (tk !! hash token) as [v|]; cbn; [|done].
    by destruct (decide (v ≠ ip)); [rewrite option_guard_True|rewrite option_guard_False].
  - intros a Ha. unfold ProfileForIP, AgentIPFor, ForgetIP, at_key. cbn.
    destruct (decide (a = ip)) as [->|Hne].
    + rewrite !map_lookup_filter, !lookup_delete_eq. done.
    + destruct Ha as [?|Ha]; [done|]. rewrite !map_lookup_filter, !lookup_delete_ne, Ha by done. cbn.
      rewrite (option_guard_False (ip ≠ ip)) by auto. cbn. split; [|done].
      destruct (profileByIP (on_dev o) !! a); [|done]. cbn. rewrite option_guard_False; [done|]. cbn. rewrite lookup_delete_ne, Ha by done. auto.
Qed.

(** Whoever holds an approved device code can claim the address of any other
    device, long after the code has expired: the device is moved to the owner
    and profile of the claimer's session, and the claimer is handed a bearer
    token that answers for it. *)
Theorem claim_takes_any_address hash token now dc ptr s victim remote hostname o t :
  byDevice o !! dc = Some ptr → on_heap o !! ptr = Some s → os_owner s ≠ "" → os_profile s ≠ "" → dc ≠ "" →
  victim ≠ "" → canonicalByAlias (on_dev o) !! victim = None → HasPrefix victim tsnetPlaceholderPrefix = false →
  on_tokens o = Some t → t !! hash token = None → token ≠ "" →
  let '(o', a) := apiOnboardClaim hash None token now "POST" dc victim remote hostname o in
  a = Claimed (os_owner s) victim (Ok token) ∧ peerIPForAPIToken hash o' token = victim ∧
  OwnerForIP (on_dev o') victim = os_owner s ∧ ProfileForIP (on_dev o') victim = os_profile s.
Proof.
  intros Hdc Hs Ho Hp Hne Hv Hal Hpre Htk Hfresh Htok. unfold apiOnboardClaim. cbn [String.eqb Ascii.eqb Bool.eqb negb].
  destruct (String.eqb_spec dc ""); [done|]. destruct (String.eqb_spec victim ""); [done|]. unfold ClaimIP. rewrite Hdc. cbn [mbind option_bind].
  rewrite Hs. destruct (String.eqb_spec (os_owner s) ""); [done|]. unfold seed_aliases, seedTsnetIPv6Alias, Seed.
  destruct (String.eqb_spec victim ""); [done|]. cbn [foldl]. unfold mintAndPersistPeerAPIToken. cbn [on_tokens set_dev set_agents]. rewrite Htk.
  rewrite bool_decide_false by (rewrite Hfresh; by intros []). split; [done|].
  set (d := claim_entry victim (TrimSpace hostname) (os_owner s) (os_hostname s) (os_profile s) (on_dev o)).
  assert (OwnerForIP d victim = os_owner s ∧ ProfileForIP d victim = os_profile s ∧ canonicalByAlias d !! victim = None) as (Hd1 & Hd2 & Hd3).
  { unfold d, claim_entry, OwnerForIP, ProfileForIP. cbv zeta.
    match goal with |- context [upsertLocked ?k ?r'] => destruct (upsert_maps k r') as (-> & _ & -> & _ & _ & -> & _) end.
    destruct (String.eqb_spec (os_profile s) ""); [done|].
    destruct (negb (String.eqb (TrimSpace hostname) "")), (negb (String.eqb (os_hostname s) "")); cbn; by autorewrite with dev. }
  assert (∀ id, tsnetPlaceholderPrefix +:+ id ≠ victim) as Hid. { intros id <-. by rewrite HasPrefix_app in Hpre. }
  unfold retirePlaceholderForClaim. destruct (byDeviceCode dc now _) as [o2 [p2|]] eqn:Eb; unfold byDeviceCode in Eb; injection Eb as <- Eb;
    cbn [on_heap gcLocked on_dev on_tokens set_dev set_agents set_tokens] in *.
  2:{ split; [|done]. unfold peerIPForAPIToken. cbn. destruct (String.eqb_spec token ""); [done|]. by autorewrite with dev. }
  destruct (on_heap o !! p2) as [s2|].
  2:{ split; [|done]. unfold peerIPForAPIToken. cbn. destruct (String.eqb_spec token ""); [done|]. by autorewrite with dev. }
  unfold placeholder_of. match goal with |- context [String.eqb ?a victim] => destruct (String.eqb_spec a victim) as [E|E]; [by apply Hid in E|] end.
  set (id := (tsnetPlaceholderPrefix +:+ _)) in *. split.
  - unfold peerIPForAPIToken. cbn. destruct (String.eqb_spec token ""); [done|]. unfold at_key. rewrite map_lookup_filter, lookup_insert_eq. cbn.
    by rewrite option_guard_True.
  - unfold OwnerForIP, ProfileForIP, ForgetIP, at_key in *. cbn. rewrite map_lookup_filter, !lookup_delete_ne by done. split; [done|].
    destruct (profileByIP d !! victim); [|done]. cbn in *. rewrite option_guard_True; [done|]. by rewrite lookup_delete_ne, Hd3.
Qed.

(** ** Witnesses *)

Definition reg0 : Onboarding := mkOnboarding sample_devices ∅ ∅ ∅ (Some ∅) ∅.
Definition reg1 : Onboarding := start_fields 0 "laptop" "" true (start "dc" "AB-12" 0 reg0).1.
Definition reg2 : Onboarding := (approve_section 0 "ann" "ops" reg1).1.
Definition sample_mint (reuseIP : string) (wholeMachine : bool) : result (string * string * string) string := Ok ("key", "", "").
Definition job_at (pc : JobPC) : Job := mkJob 0 "ann" "ops" true pc.
Definition reg3 : Onboarding := (job_step id sample_mint "" 0 (job_at (JPublish "key" "")) reg2).1.
Definition reg4 : Onboarding := (poll_section 0 reg3).1.

(** The flow of one client: start, approval, job, poll. *)
Lemma sample_trace :
  onb_trace id [EvApproved 0 "ann" "ops"; EvMinted 0 "key"; EvDelivered 0 "dc" "key" "" "ann"] (mkOnbSys reg4 [] [("dc", 0%nat)]).
Proof.
  pose proof (ot_init id sample_devices (Some ∅) ∅) as H.
  eapply ot_step in H; [|apply (os_start id "dc" "AB-12" 0)]. eapply ot_step in H; [|apply (os_fields id 0 "laptop" "" true)].
  eapply ot_step in H; [|apply (os_approve id 0 "ann" "ops" "" reg1 [] [] reg2 "laptop" true); vm_compute; reflexivity].
  eapply ot_step in H; [|apply (os_job id sample_mint "" 0 (job_at (JMint "")) reg2 [] [] [] reg2 (at_pc (job_at (JMint "")) (JPublish "key" ""))); vm_compute; reflexivity].
  eapply ot_step in H; [|apply (os_job id sample_mint "" 0 (job_at (JPublish "key" "")) reg2 [] [] [] reg3 None); vm_compute; reflexivity].
  eapply ot_step in H; [|apply (os_poll_lookup id "dc" 0 reg3 reg3 0); vm_compute; reflexivity].
  eapply ot_step in H; [|apply (os_poll id "dc" 0 reg3 reg4 (PollMaterial "key" "" "ann" "")); [left|vm_compute; reflexivity]].
  exact H.
Qed.

Lemma material_delivered_once_witness :
  ∃ owner profile key tok code,
    [EvApproved 0 "ann" "ops"; EvMinted 0 "key"; EvDelivered 0 "dc" "key" "" "ann"] `prefix_of`
      [EvApproved 0 owner profile; EvMinted 0 key] ++ token_events 0 tok ++ [EvDelivered 0 code key (default "" tok) owner].
Proof.
  destruct (material_delivered_once id _ _ 0 sample_trace) as (owner & profile & key & tok & code & H & _).
  exists owner, profile, key, tok, code. exact H.
Defined.

Definition operator_request (code profile : string) : ApproveHTTP :=
  mkApprove "POST" (Some dashboardPasswordPrincipal) None code profile "" "" "192.0.2.1".

Lemma approval_by_operator_witness :
  (apiOnboardApprove (λ _, None) ["dev"; "ops"] "dev" [] 0 (operator_request "ab-12" "ops") reg1).1.2 = Approved "ops" ∧ "ops" ∈ ["dev"; "ops"].
Proof.
  split; [vm_compute; reflexivity|].
  destruct (apiOnboardApprove (λ _, None) ["dev"; "ops"] "dev" [] 0 (operator_request "ab-12" "ops") reg1) as [[o' a] j] eqn:E.
  destruct (approval_by_operator _ _ _ _ _ _ _ _ _ _ E) as [_ H].
  assert (a = Approved "ops") as -> by (apply (f_equal (λ x, x.1.2)) in E; vm_compute in E; by rewrite <- E).
  assert (is_Some j) as [j' ->] by (apply (f_equal snd) in E; vm_compute in E; rewrite <- E; by eexists).
  destruct H as ([= ->] & _ & H & _). by apply H.
Defined.

Lemma deleted_device_forgotten_witness :
  HasDevice (on_dev (apiAgentDelete "POST" "100.64.0.7" reg0).1) "100.64.0.7" = false ∧
  ProfileForIP (on_dev (apiAgentDelete "POST" "100.64.0.7" reg0).1) "fd7a:115c:a1e0::7" = "".
Proof.
  destruct (deleted_device_forgotten id "100.64.0.7" reg0 (default ∅ (dev_db sample_devices))) as (H1 & _ & _ & H2).
  - discriminate.
  - vm_compute. reflexivity.
  - split; [exact H1|]. destruct (H2 "fd7a:115c:a1e0::7") as [H _]; [right; vm_compute; reflexivity|exact H].
Defined.

(** The session of another client takes the sample device. *)
Lemma claim_takes_any_address_witness :
  ProfileForIP (on_dev reg2) "100.64.0.7" = "dev" ∧
  let '(o', a) := apiOnboardClaim id None "bearer" 9000000000000 "POST" "dc" "100.64.0.7" "203.0.113.5:4000" "" reg2 in
  a = Claimed "ann" "100.64.0.7" (Ok "bearer") ∧ ProfileForIP (on_dev o') "100.64.0.7" = "ops".
Proof.
  split; [vm_compute; reflexivity|].
  pose proof (claim_takes_any_address id "bearer" 9000000000000 "dc" 0
    (with_approval "ann" "ops" (with_fields "laptop" "" true (mkOnboard "dc" "AB-12" 0 false "" "" "" "" "" "" "" false false)))
    "100.64.0.7" "203.0.113.5:4000" "" reg2 ∅ ltac:(vm_compute; reflexivity) ltac:(vm_compute; reflexivity) ltac:(discriminate)
    ltac:(discriminate) ltac:(discriminate) ltac:(discriminate) ltac:(vm_compute; reflexivity) ltac:(vm_compute; reflexivity)
    ltac:(vm_compute; reflexivity) ltac:(vm_compute; reflexivity) ltac:(discriminate)) as H.
  destruct (apiOnboardClaim _ _ _ _ _ _ _ _ _ _) as [o' a]. destruct H as (H1 & _ & _ & H2). split; [exact H1|exact H2].
Defined.
