(* ===== verification/Routing.v ===== *)
(** * Routing of agent connections: [main.go], [udp_dispatch.go], [runtime/conn_route.go]

    Which part of the gateway takes a connection: interception, an endpoint's own
    protocol runtime, the splice, the transparent relay, or nothing. The profile
    of the peer and the name in its TLS hello are inputs; the routes are values
    that name what is done with the connection. *)
From S2P Require Import Prelude GoStrings NetAddr GoUrl HostMatch Policy Dispatch RelayDest DnsVip.

(** ** Routes *)

Inductive Route :=
| RDrop
| RInternal
(** intercepted as [authority] with a certificate for [certHost] *)
| RMitm (authority certHost : string) (ep : CompiledEndpoint)
(** piped to the resolved name, still encrypted *)
| RSplice (host : string)
(** handed to the endpoint's protocol runtime *)
| RConn (ep : CompiledEndpoint) (dstPort : Z) (hostname : string)
(** piped to the address the agent dialled *)
| RRelay (dstIP : string) (dstPort : Z)
| RDnsTCP (dstIP : string)
| RDashboard.

Definition JoinHostPort (host : string) (port : Z) : string :=
  net_JoinHostPort host (Itoa (Z.to_nat port)).

(** [facet.Lookup(family).Transport()] of the built-in facets. *)
Definition facet_Transport (family : string) : string :=
  if String.eqb family "http" || String.eqb family "k8s" then "https-mitm" else "".

Definition isHTTPSMITMFamily (family : string) : bool :=
  negb (String.eqb family "") && String.eqb (facet_Transport family) "https-mitm".

Definition internalHostname : string := "clawpatrol.internal".

Definition isInternalHost (host : string) : bool :=
  if String.eqb host "" then false
  else
    let h := match net_SplitHostPort host with Ok (h, _) => h | Err _ => host end in
    String.eqb (TrimSuffix (ToLower h) ".") internalHostname.

Definition unknownHostPolicy (policy : option CompiledPolicy) : string :=
  match policy with
  | None => "passthrough"
  | Some p => if String.eqb (pol_UnknownHost p) "" then "passthrough" else pol_UnknownHost p
  end.

(** The endpoint of the peer's profile, or the first when there is no profile. *)
Definition pickEndpointForProfile (candidates : list CompiledEndpoint) (policy : option CompiledPolicy) (profile : string)
    : option CompiledEndpoint :=
  match policy with
  | Some p =>
      if String.eqb profile "" then head candidates
      else match pol_Profiles p !! profile with
           | None => head candidates
           | Some prof => List.find (λ c, bool_decide (is_Some (prof_Endpoints prof !! ep_Name c))) candidates
           end
  | None => head candidates
  end.

(** ** The index by destination *)

Record ConnIndex := mkConnIndex {
  ci_byIP : gmap string (list CompiledEndpoint);
  ci_byHost : gmap string (list CompiledEndpoint)
}.

(** Endpoints are compared by identity, which their name gives. *)
Definition appendUnique (m : gmap string (list CompiledEndpoint)) (k : string) (ep : CompiledEndpoint)
    : gmap string (list CompiledEndpoint) :=
  let l := default [] (m !! k) in
  if existsb (λ e, String.eqb (ep_Name e) (ep_Name ep)) l then m else <[k := l ++ [ep]]> m.

Definition route_host (hostport : string) : string :=
  match net_SplitHostPort hostport with Ok (h, _) => h | Err _ => hostport end.

Section Routing.
(** What endpoints answer through optional interfaces: [ConnRouteHosts] of the
    body, [ConnEndpointRuntime] of the plugin, [TLSTerminates] of the body. *)
Context (route_hosts : CompiledEndpoint -> option (list string)) (conn_runtime : Plugin -> bool)
  (tls_terminates : CompiledEndpoint -> bool).

(** The hosts claimed, in the order the endpoints are visited. *)
Definition conn_tasks (ord : list string) (policy : CompiledPolicy) : list (CompiledEndpoint * string) :=
  range_over ord (pol_Endpoints policy) ≫= λ '(_, ep),
    match ep_Tunnel ep, route_hosts ep with
    | None, Some hosts => pair ep <$> hosts
    | _, _ => []
    end.

(** [lookups] are the same tasks in the order their lookups finish. *)
Definition BuildConnIndex (LookupHost : string -> option (list string)) (ord : list string)
    (lookups : list (CompiledEndpoint * string)) (policy : option CompiledPolicy) : ConnIndex :=
  match policy with
  | None => mkConnIndex ∅ ∅
  | Some p =>
      mkConnIndex
        (foldl (λ m '(ep, hp), foldl (λ m ip, appendUnique m ip ep) m (default [] (LookupHost (route_host hp)))) ∅ lookups)
        (foldl (λ m '(ep, hp), appendUnique (appendUnique m hp ep) (route_host hp) ep) ∅ (conn_tasks ord p))
  end.

(** [ord] is the visiting order of the last loop. *)
Definition conn_Lookup (ord : list string) (idx : ConnIndex) (dstIP : string) : list CompiledEndpoint :=
  match ci_byIP idx !! dstIP with
  | Some (e :: es) => e :: es
  | _ => match ci_byHost idx !! dstIP with
         | Some (e :: es) => e :: es
         | _ => range_over ord (ci_byHost idx) ≫= λ '(hp, eps), if HasPrefix hp (dstIP +:+ ":") then eps else []
         end
  end.

(** ** Interception *)

(** [ord1] and [ord2]: see [HostEndpoint]. *)
Context (ord1 ord2 : list string) (policy : option CompiledPolicy).

Definition httpsMITMEndpoint (profile host : string) (dstPort : Z) : option CompiledEndpoint * string * string :=
  let exact := HostEndpoint ord1 ord2 policy profile host in
  let fallback := (exact, host, host) in
  match exact with
  | Some ep => if isHTTPSMITMFamily (ep_Family ep) then (exact, host, host)
               else if negb (String.eqb host "") && negb (dstPort =? 0)
               then match HostEndpoint ord1 ord2 policy profile (JoinHostPort host dstPort) with
                    | Some ep' => (Some ep', JoinHostPort host dstPort, host)
                    | None => fallback
                    end
               else fallback
  | None => if negb (String.eqb host "") && negb (dstPort =? 0)
            then match HostEndpoint ord1 ord2 policy profile (JoinHostPort host dstPort) with
                 | Some ep' => (Some ep', JoinHostPort host dstPort, host)
                 | None => fallback
                 end
            else fallback
  end.

Definition dispatchConnEndpoint (ep : CompiledEndpoint) (dstPort : Z) (hostname : string) : Route :=
  if conn_runtime (ep_Plugin ep) then RConn ep dstPort hostname else RDrop.

(** [isInternalVIP] on the allocator. *)
Definition isInternalVIP (a : Allocator) (dstIP : string) : bool :=
  match ParseAddr dstIP with
  | None => false
  | Some addr => let '(v4, v6) := InternalVIPs a in bool_decide (addr = v4) || bool_decide (addr = v6)
  end.

(** [handle]; [sni] is [None] when the hello names no server. *)
Definition handle (a : Allocator) (sni : option string) (profile dstIP : string) (dstPort : Z) : Route :=
  match sni with
  | None =>
      if String.eqb dstIP "" then RDrop
      else if isInternalVIP a dstIP then RInternal
      else match httpsMITMEndpoint profile dstIP dstPort with
           | (Some ep, authority, certHost) => if isHTTPSMITMFamily (ep_Family ep) then RMitm authority certHost ep else RDrop
           | _ => RDrop
           end
  | Some host =>
      if isInternalHost host then RInternal
      else match httpsMITMEndpoint profile host dstPort with
           | (None, _, _) =>
               let u := unknownHostPolicy policy in
               if String.eqb u "deny" then RDrop
               else if String.eqb u "inspect" then
                 match (match policy with Some p => pol_Endpoints p !! UnknownInspectEndpoint | None => None end) with
                 | Some ep => RMitm host host ep
                 | None => RDrop
                 end
               else RSplice host
           | (Some ep, authority, certHost) =>
               if isHTTPSMITMFamily (ep_Family ep) then RMitm authority certHost ep
               else if tls_terminates ep then dispatchConnEndpoint ep dstPort host
               else RSplice host
           end
  end.

Definition shouldHandleHTTPSMITM (profile dstIP : string) (dstPort : Z) : bool :=
  if dstPort =? 443 then true
  else if String.eqb dstIP "" || (dstPort =? 0) then false
  else match httpsMITMEndpoint profile dstIP dstPort with
       | (Some ep, _, _) => isHTTPSMITMFamily (ep_Family ep)
       | _ => false
       end.

(** ** Other protocols *)

Context (tailnet : bool).

(** [wgRelay]: the destination is classified before it is dialled. *)
Definition wgRelay (dstIP : string) (dstPort : Z) : Route :=
  match relayDestOK tailnet policy dstIP with Ok _ => RRelay dstIP dstPort | Err _ => RDrop end.

Definition vip_endpoint (a : Allocator) (profile dstIP : string) : option CompiledEndpoint * string :=
  let '(hn, hits) := LookupVIP a dstIP in
  match hits with
  | [] => (None, "")
  | _ => (pickEndpointForProfile (hit_Endpoint <$> hits) policy profile, hn)
  end.

Definition handlePostgresConn (a : Allocator) (idx : ConnIndex) (ord : list string) (profile dstIP : string) : Route :=
  let '(ep, hostname) := vip_endpoint a profile dstIP in
  let ep := match ep with
            | Some ep => Some ep
            | None => pickEndpointForProfile (conn_Lookup ord idx dstIP) policy profile
            end in
  match ep with
  | None => wgRelay dstIP 5432
  | Some ep => if conn_runtime (ep_Plugin ep) then RConn ep 5432 hostname else RDrop
  end.

(** In the peer's profile, when the policy has it, and on the port dialled. *)
Definition hit_matches (profile : string) (dstPort : Z) (h : EndpointHit) : bool :=
  (String.eqb profile "" ||
   match policy with
   | Some p => match pol_Profiles p !! profile with
               | Some prof => bool_decide (is_Some (prof_Endpoints prof !! ep_Name (hit_Endpoint h)))
               | None => true
               end
   | None => true
   end) &&
  negb (negb (dstPort =? 0) && negb (hit_Port h =? 0) && negb (dstPort =? hit_Port h)).

Definition handleVIPConn (a : Allocator) (profile dstIP : string) (dstPort : Z) : Route :=
  let '(hostname, hits) := LookupVIP a dstIP in
  if String.eqb hostname "" then RDrop
  else match List.find (hit_matches profile dstPort) hits with
       | Some h => dispatchConnEndpoint (hit_Endpoint h) (hit_Port h) hostname
       | None => RDrop
       end.

(** [None]: nobody claims the address. *)
Definition tryDirectIPConn (idx : ConnIndex) (ord : list string) (profile dstIP : string) (dstPort : Z) : option Route :=
  match pickEndpointForProfile (conn_Lookup ord idx dstIP) policy profile with
  | None => None
  | Some ep => if conn_runtime (ep_Plugin ep) then Some (dispatchConnEndpoint ep dstPort "") else None
  end.

(** ** Dispatch *)

(** The forwarder's TCP dispatch. *)
Definition tcpDispatch (a : Allocator) (idx : ConnIndex) (ord : list string) (dashPort : Z) (tailscaleIP : string)
    (sni : option string) (profile dstIP : string) (dstPort : Z) : Route :=
  if shouldHandleHTTPSMITM profile dstIP dstPort then handle a sni profile dstIP dstPort
  else if dstPort =? 5432 then handlePostgresConn a idx ord profile dstIP
  else if dstPort =? 53 then RDnsTCP (if String.eqb dstIP tailscaleIP then "" else dstIP)
  else if IsVIP a dstIP then handleVIPConn a profile dstIP dstPort
  else if negb (dashPort =? 0) && (dstPort =? dashPort) then RDashboard
  else match tryDirectIPConn idx ord profile dstIP dstPort with
       | Some r => r
       | None => wgRelay dstIP dstPort
       end.

Inductive udpDisposition := udpPassthrough | udpDNS | udpDrop | udpRelay.

Definition udpPortDisposition (port : Z) : udpDisposition :=
  if port =? 53 then udpDNS else if port =? 443 then udpDrop else udpRelay.

Definition refuseUDPPort (port : Z) : bool := match udpPortDisposition port with udpDrop => true | _ => false end.

Inductive UdpRoute := UServeDNS | UClosed | URelay.

(** What becomes of a UDP flow: refused before it has an endpoint, then
    dispatched, then relayed if the dispatch does not claim it. *)
Definition udpDispatch (dstIP : string) (dstPort : Z) : UdpRoute :=
  if refuseUDPPort dstPort then UClosed
  else match udpPortDisposition dstPort with
       | udpDNS => UServeDNS
       | udpRelay => match relayDestOK tailnet policy dstIP with Ok _ => URelay | Err _ => UClosed end
       | udpDrop => UClosed
       | udpPassthrough => URelay
       end.
End Routing.
