(* ===== verification/RoutingProps.v ===== *)
(** * Properties of routing

    A connection reaches only endpoints of its peer's profile; the relay and the
    splice dial only what they may; and an endpoint without an interceptable
    transport is not intercepted. *)
From S2P Require Import Prelude GoStrings NetAddr GoUrl HostMatch Policy Dispatch Compile CompileProps ProfileProps RelayDest.
From S2P Require Import DnsVip Routing.

Lemma pickEndpointForProfile_in candidates p profile prof ep :
  profile ≠ "" → pol_Profiles p !! profile = Some prof →
  pickEndpointForProfile candidates (Some p) profile = Some ep →
  ep ∈ candidates ∧ is_Some (prof_Endpoints prof !! ep_Name ep).
Proof.
  intros Hne Hprof. unfold pickEndpointForProfile. destruct (String.eqb profile "") eqn:E; [by bprop|]. rewrite Hprof.
  intros [Hin Hb]%List.find_some. split; [by apply list_elem_of_In|]. by apply bool_decide_eq_true in Hb.
Qed.

Section Dispatch.
Context (route_hosts : CompiledEndpoint -> option (list string)) (conn_runtime : Plugin -> bool)
  (tls_terminates : CompiledEndpoint -> bool) (ord1 ord2 : list string).

Section AnyPolicy.
Context (policy : option CompiledPolicy) (tailnet : bool).
Notation dispatch := (tcpDispatch conn_runtime tls_terminates ord1 ord2 policy tailnet).

(** The endpoint an interception picks is the one the profile resolves the host
    or the authority to. *)
Lemma httpsMITMEndpoint_resolves profile host port ep authority cert :
  httpsMITMEndpoint ord1 ord2 policy profile host port = (Some ep, authority, cert) →
  HostEndpoint ord1 ord2 policy profile authority = Some ep ∧ cert = host.
Proof.
  unfold httpsMITMEndpoint. destruct (HostEndpoint ord1 ord2 policy profile host) as [e|] eqn:E.
  - destruct (isHTTPSMITMFamily (ep_Family e)); [by intros [= <- <- <-]|].
    destruct (_ && _); [|by intros [= <- <- <-]].
    destruct (HostEndpoint _ _ _ _ (JoinHostPort host port)) eqn:E2; by intros [= <- <- <-].
  - destruct (_ && _); [|by intros [=]].
    destruct (HostEndpoint _ _ _ _ (JoinHostPort host port)) eqn:E2; [by intros [= <- <- <-]|by intros [=]].
Qed.

(** Where the routes of [handle] come from. *)
Lemma handle_routes a sni profile dstIP port :
  match handle conn_runtime tls_terminates ord1 ord2 policy a sni profile dstIP port with
  | RMitm authority _ ep =>
      isHTTPSMITMFamily (ep_Family ep) = true ∧ HostEndpoint ord1 ord2 policy profile authority = Some ep ∨
      unknownHostPolicy policy = "inspect" ∧ ∃ p, policy = Some p ∧ pol_Endpoints p !! UnknownInspectEndpoint = Some ep
  | RConn ep _ _ => ∃ authority, HostEndpoint ord1 ord2 policy profile authority = Some ep
  | RSplice host => sni = Some host ∧
      (unknownHostPolicy policy ≠ "deny" ∧ unknownHostPolicy policy ≠ "inspect" ∧
         HostEndpoint ord1 ord2 policy profile host = None ∨
       ∃ ep authority, HostEndpoint ord1 ord2 policy profile authority = Some ep ∧
         isHTTPSMITMFamily (ep_Family ep) = false ∧ tls_terminates ep = false)
  | RRelay _ _ | RDnsTCP _ | RDashboard => False
  | _ => True
  end.
Proof.
  unfold handle. destruct sni as [host|].
  - destruct (isInternalHost host); [done|].
    destruct (httpsMITMEndpoint ord1 ord2 policy profile host port) as [[[ep|] authority] cert] eqn:E.
    + apply httpsMITMEndpoint_resolves in E as [E _]. destruct (isHTTPSMITMFamily (ep_Family ep)) eqn:Ef; [by left|].
      destruct (tls_terminates ep) eqn:Et; [unfold dispatchConnEndpoint; destruct (conn_runtime _); eauto|].
      split; [done|]. right. eauto.
    + destruct (String.eqb (unknownHostPolicy policy) "deny") eqn:Ed; [done|].
      destruct (String.eqb (unknownHostPolicy policy) "inspect") eqn:Ei; bprop.
      * destruct policy as [p|]; [|done]. destruct (pol_Endpoints p !! _) eqn:Ep; [|done]. right. eauto.
      * split; [done|]. left. split; [done|]. split; [done|]. unfold httpsMITMEndpoint in E.
        destruct (HostEndpoint ord1 ord2 policy profile host) as [e|] eqn:Eh; [|done].
        destruct (isHTTPSMITMFamily (ep_Family e)); [done|]. destruct (_ && _); [|done].
        by destruct (HostEndpoint _ _ _ _ (JoinHostPort host port)).
  - destruct (String.eqb dstIP ""); [done|]. destruct (isInternalVIP a dstIP); [done|].
    destruct (httpsMITMEndpoint ord1 ord2 policy profile dstIP port) as [[[ep|] authority] cert] eqn:E; [|done].
    apply httpsMITMEndpoint_resolves in E as [E _]. destruct (isHTTPSMITMFamily (ep_Family ep)) eqn:Ef; [by left|done].
Qed.

Lemma wgRelay_ok ip port ip' port' : wgRelay policy tailnet ip port = RRelay ip' port' → ip' = ip ∧ relayDestOK tailnet policy ip' = Ok tt.
Proof. unfold wgRelay. destruct (relayDestOK tailnet policy ip) as [[]|] eqn:E; by intros [= <- <-]. Qed.

Lemma wgRelay_cases ip port : wgRelay policy tailnet ip port = RRelay ip port ∨ wgRelay policy tailnet ip port = RDrop.
Proof. unfold wgRelay. destruct (relayDestOK _ _ _); auto. Qed.

(** C34. The transparent relays carry a TCP connection or a UDP flow only to an
    address they classified, and never a UDP flow to port 443 or 53: such a
    flow would bypass interception and the virtual addresses. *)
Theorem relays_only_classified a idx ord dash tsIP sni profile dstIP dstPort :
  (∀ ip port, dispatch a idx ord dash tsIP sni profile dstIP dstPort = RRelay ip port →
     ip = dstIP ∧ relayDestOK tailnet policy ip = Ok tt) ∧
  (udpDispatch policy tailnet dstIP dstPort = URelay →
     dstPort ≠ 443 ∧ dstPort ≠ 53 ∧ relayDestOK tailnet policy dstIP = Ok tt).
Proof.
  split.
  - intros ip port. unfold tcpDispatch. destruct (shouldHandleHTTPSMITM _ _ _ _ _ _).
    { pose proof (handle_routes a sni profile dstIP dstPort) as H. intros E. by rewrite E in H. }
    destruct (dstPort =? 5432).
    { unfold handlePostgresConn. destruct (vip_endpoint _ _ _ _) as [ep hn].
      destruct (match ep with Some _ => _ | None => _ end); [by destruct (conn_runtime _)|apply wgRelay_ok]. }
    destruct (dstPort =? 53); [done|]. destruct (IsVIP a dstIP).
    { unfold handleVIPConn, dispatchConnEndpoint. destruct (LookupVIP a dstIP) as [hn hits].
      destruct (String.eqb hn ""); [done|]. destruct (List.find _ hits); [by destruct (conn_runtime _)|done]. }
    destruct (_ && _); [done|]. unfold tryDirectIPConn, dispatchConnEndpoint.
    destruct (pickEndpointForProfile _ _ _) as [ep|]; [|apply wgRelay_ok].
    destruct (conn_runtime _) eqn:Ec; [done|apply wgRelay_ok].
  - unfold udpDispatch, refuseUDPPort, udpPortDisposition.
    destruct (dstPort =? 53) eqn:E1; [done|]. destruct (dstPort =? 443) eqn:E2; [done|]. bprop.
    destruct (relayDestOK tailnet policy dstIP) as [[]|]; [|done]. by intros _.
Qed.

(** A connection to a host an endpoint claims is piped through undecrypted, past
    the endpoint's rules and credentials and whatever unknown_host says, when
    the endpoint's family has no interceptable transport. The ClickHouse HTTPS
    endpoint is in the sql family, which has none. *)
Theorem claimed_host_spliced a profile dstIP host ep :
  isInternalHost host = false → HostEndpoint ord1 ord2 policy profile host = Some ep →
  HostEndpoint ord1 ord2 policy profile (JoinHostPort host 443) = None →
  isHTTPSMITMFamily (ep_Family ep) = false → tls_terminates ep = false →
  handle conn_runtime tls_terminates ord1 ord2 policy a (Some host) profile dstIP 443 = RSplice host.
Proof.
  intros Hi He Hj Hf Ht. unfold handle, httpsMITMEndpoint. rewrite Hi, He, Hf, Hj.
  destruct (_ && _); by rewrite Hf, Ht.
Qed.
End AnyPolicy.

(** ** Profiles *)

Lemma vip_endpoint_picked pol a profile dstIP ep hn :
  vip_endpoint pol a profile dstIP = (Some ep, hn) → ∃ l, pickEndpointForProfile l pol profile = Some ep.
Proof. unfold vip_endpoint. destruct (LookupVIP a dstIP) as [h [|hit hits]]; [done|]. intros [= H _]. eauto. Qed.

Section Compiled.
Context (NewMatcher : string -> string -> result (option Matcher) string) (ParseDuration : string -> option Z).
Context (ro : RangeOrders) (gw : Gateway) (p : SrcPolicy) (pol : CompiledPolicy) (tailnet : bool).
Hypothesis Hord : orders_ok ro p.
Hypothesis Hpol : gw_Policy gw = Some p.
Hypothesis Hcompile : Compile NewMatcher ParseDuration ro (Some gw) = Ok pol.

(** One of the profile's credentials is bound to the endpoint. *)
Definition bound_in (pr : Profile) (ep : CompiledEndpoint) : Prop :=
  ∃ credName ent, credName ∈ pr_Credentials pr ∧ p_Credentials p !! credName = Some ent ∧
    ep_Name ep ∈ CredentialEndpointTargets ent.

Lemma host_in_scope profile pr host ep :
  p_Profiles p !! profile = Some pr → HostEndpoint ord1 ord2 (Some pol) profile host = Some ep → bound_in pr ep.
Proof. intros Hpr He. by destruct (host_endpoint_in_scope _ _ _ _ _ _ Hord Hpol Hcompile _ _ _ _ _ _ Hpr He) as (_ & _ & ?). Qed.

Lemma listed_in_scope profile pr prof ep :
  p_Profiles p !! profile = Some pr → pol_Profiles pol !! profile = Some prof →
  is_Some (prof_Endpoints prof !! ep_Name ep) → bound_in pr ep.
Proof. intros Hpr Hprof [ce Hce]. by eapply (profile_endpoint_in_scope _ _ _ _ _ _ Hord Hpol Hcompile). Qed.

(** C2. Whatever the destination, the name in the hello and the port, a connection of
    a peer with a declared profile is given only to an endpoint that one of the
    profile's credentials is bound to, or, under unknown_host = inspect, to the
    endpoint that policy names. *)
Theorem connections_stay_in_profile a idx ord dash tsIP sni profile dstIP dstPort pr :
  p_Profiles p !! profile = Some pr → profile ≠ "" →
  match tcpDispatch conn_runtime tls_terminates ord1 ord2 (Some pol) tailnet a idx ord dash tsIP sni profile dstIP dstPort with
  | RMitm _ _ ep => bound_in pr ep ∨ pol_UnknownHost pol = "inspect" ∧ pol_Endpoints pol !! UnknownInspectEndpoint = Some ep
  | RConn ep _ _ => bound_in pr ep
  | _ => True
  end.
Proof.
  intros Hpr Hne. pose proof (pol_profile _ _ _ _ _ _ Hord Hpol Hcompile _ _ Hpr) as Hprof.
  set (prof := compile_profile _ _ _ _ _) in Hprof.
  assert (∀ l ep, pickEndpointForProfile l (Some pol) profile = Some ep → bound_in pr ep) as Hpick.
  { intros l ep Hep. eapply listed_in_scope; [done..|]. by eapply pickEndpointForProfile_in in Hep as [_ ?]. }
  unfold tcpDispatch. destruct (shouldHandleHTTPSMITM _ _ _ _ _ _).
  { pose proof (handle_routes (Some pol) a sni profile dstIP dstPort) as H.
    destruct (handle _ _ _ _ _ _ _ _ _ _); try done.
    - destruct H as [[_ H]|[Hu (p' & [= <-] & Hp')]]; [left; by eapply host_in_scope|]. right. split; [|done].
      unfold unknownHostPolicy in Hu. by destruct (String.eqb (pol_UnknownHost pol) "").
    - destruct H as [authority H]. by eapply host_in_scope. }
  destruct (dstPort =? 5432).
  { unfold handlePostgresConn. destruct (vip_endpoint _ _ _ _) as [[ep|] hn] eqn:Ev.
    - apply vip_endpoint_picked in Ev as [l Hl]. destruct (conn_runtime _); [by eapply Hpick|done].
    - destruct (pickEndpointForProfile _ _ _) as [ep|] eqn:Ep.
      + destruct (conn_runtime _); [by eapply Hpick|done].
      + by destruct (wgRelay_cases (Some pol) tailnet dstIP 5432) as [-> | ->]. }
  destruct (dstPort =? 53); [done|]. destruct (IsVIP a dstIP).
  { unfold handleVIPConn, dispatchConnEndpoint. destruct (LookupVIP a dstIP) as [hn hits]. destruct (String.eqb hn ""); [done|].
    destruct (List.find _ hits) as [h|] eqn:Ef; [|done]. destruct (conn_runtime _); [|done].
    apply List.find_some in Ef as [_ Hm]. unfold hit_matches in Hm. apply andb_true_iff in Hm as [Hm _].
    apply orb_true_iff in Hm as [Hm|Hm]; [by bprop|]. rewrite Hprof in Hm. apply bool_decide_eq_true in Hm.
    by eapply listed_in_scope. }
  destruct (_ && _); [done|]. unfold tryDirectIPConn, dispatchConnEndpoint.
  destruct (pickEndpointForProfile _ _ _) as [ep|] eqn:Ep.
  - destruct (conn_runtime _); [by eapply Hpick|]. by destruct (wgRelay_cases (Some pol) tailnet dstIP dstPort) as [-> | ->].
  - by destruct (wgRelay_cases (Some pol) tailnet dstIP dstPort) as [-> | ->].
Qed.
End Compiled.
End Dispatch.

(** ** Witnesses *)

Definition no_vips : Allocator := mkAlloc DefaultCIDR4 DefaultCIDR6 ∅ ∅ ∅ ∅ [] [] ∅ [].
Definition no_index : ConnIndex := mkConnIndex ∅ ∅.

(** A gateway that denies unknown hosts, with a ClickHouse endpoint under a rule
    that denies everything. *)
Definition clickhouse_https_plugin : Plugin := mkPlugin "endpoint" "clickhouse_https" "sql" None None.

Definition warehouse_policy : SrcPolicy :=
  mkSrcPolicy ∅ {["tok" := tok_entity]}
    {["api" := mkEntity "api" clickhouse_https_plugin
        (mkBody (Some ["warehouse.example.com"]) None None None None) empty_framework]}
    {["none" := mkSrcRule "none" "sql" ["api"] 0 false "" "" "deny" "" []]} ∅ {["dev" := dev_pr]} ["tok"].

Definition warehouse : CompiledPolicy :=
  compiled (Compile no_matcher no_duration (with_rule_order ["none"] warehouse_policy)
    (Some (mkGateway (Some (mkDefaults "deny" "" "" "" [] 0 0 "")) (Some warehouse_policy) ""))).

Lemma claimed_host_spliced_witness :
  pol_UnknownHost warehouse = "deny" ∧ (rule_Name <$> ep_Rules (api_of warehouse)) = ["none"] ∧
  handle (λ _, false) (λ _, false) [] [] (Some warehouse) no_vips (Some "warehouse.example.com") "dev" "192.0.2.7" 443 =
    RSplice "warehouse.example.com".
Proof.
  split; [vm_compute; reflexivity|]. split; [vm_compute; reflexivity|].
  apply (claimed_host_spliced (λ _, false) (λ _, false) [] [] (Some warehouse) no_vips "dev" "192.0.2.7"
    "warehouse.example.com" (api_of warehouse)); vm_compute; reflexivity.
Defined.

Lemma connections_stay_in_profile_witness :
  tcpDispatch (λ _, false) (λ _, false) [] [] (Some (dev_policy "")) false no_vips no_index [] 0 "" (Some "api.example.com") "dev"
    "192.0.2.7" 443 = RMitm "api.example.com" "api.example.com" (api_of (dev_policy "")) ∧
  bound_in (small_policy ranked_rules) dev_pr (api_of (dev_policy "")).
Proof.
  pose proof (connections_stay_in_profile (λ _, false) (λ _, false) [] [] no_matcher no_duration dev_orders
    (small_gateway "" ranked_rules) (small_policy ranked_rules) (dev_policy "") false dev_orders_ok eq_refl
    ltac:(vm_compute; reflexivity) no_vips no_index [] 0 "" (Some "api.example.com") "dev" "192.0.2.7" 443 dev_pr
    eq_refl ltac:(done)) as H.
  assert (tcpDispatch (λ _, false) (λ _, false) [] [] (Some (dev_policy "")) false no_vips no_index [] 0 "" (Some "api.example.com")
    "dev" "192.0.2.7" 443 = RMitm "api.example.com" "api.example.com" (api_of (dev_policy ""))) as E
    by (vm_compute; reflexivity).
  split; [exact E|]. rewrite E in H. destruct H as [H|[H _]]; [exact H|]. vm_compute in H. discriminate H.
Defined.
