(* ===== verification/PeersProps.v ===== *)
(** * Properties of peer identification

    An address takes another device's profile only on the word of the control
    plane, and a peer nobody registered reaches no endpoint. *)
From S2P Require Import Prelude GoStrings NetAddr GoUrl HostMatch Policy Dispatch Compile CompileProps ProfileProps RelayDest.
From S2P Require Import DnsVip Devices DevicesProps Peers Routing RoutingProps.

(** ** Aliases *)

Lemma unique_scan_spec known id l found c :
  unique_scan known id found l = c → c ≠ "" →
  (c = found ∨ (c, id) ∈ l ∧ c ∈ known) ∧ (found ≠ "" → c = found) ∧
  (∀ ip, (ip, id) ∈ l → ip ∈ known → ip ≠ "" → ip = c).
Proof.
  revert found. induction l as [|[ip i] l IH]; intros found Hc Hne; cbn in Hc; [subst; split_and!; auto; set_solver|].
  destruct (negb (String.eqb i id) || negb (bool_decide (ip ∈ known))) eqn:E.
  - destruct (IH _ Hc Hne) as (H1 & H2 & H3). split_and!; [set_solver|done|]. intros ip' [Heq|?]%elem_of_cons Hk Hi; [|by apply H3].
    injection Heq as -> ->. rewrite String.eqb_refl, bool_decide_true in E by done. done.
  - apply orb_false_iff in E as [Ei Ek]. apply negb_false_iff in Ei, Ek. apply bool_decide_eq_true in Ek. apply String.eqb_eq in Ei as ->.
    destruct (negb (String.eqb found "") && negb (String.eqb found ip)) eqn:Ef; [by subst|].
    destruct (IH _ Hc Hne) as (H1 & H2 & H3).
    assert (found ≠ "" → c = found) as Hf.
    { intros Hf. apply andb_false_iff in Ef as [Ef|Ef]; bprop; [done|]. subst found. by apply H2. }
    split_and!; [|done|].
    + destruct H1 as [->|[? ?]]; [right; split; [left|done]|right; split; [by right|done]].
    + intros ip' [Heq|?]%elem_of_cons Hk Hi; [|by apply H3]. injection Heq as ->. symmetry. by apply H2.
Qed.

Lemma uniqueIPForNodeID_spec r id c :
  uniqueIPForNodeIDLocked r id = c → c ≠ "" →
  id ≠ "" ∧ HasDevice r c = true ∧ NodeIDForIP r c = id ∧
  ∀ d, HasDevice r d = true → NodeIDForIP r d = id → d = c.
Proof.
  unfold uniqueIPForNodeIDLocked. destruct (String.eqb_spec id "") as [->|Hid]; [by intros <-|]. intros Hc Hne.
  destruct (unique_scan_spec _ _ _ _ _ Hc Hne) as (H1 & _ & H3). destruct H1 as [?|[H1 Hk]]; [done|].
  apply elem_of_map_to_list in H1. unfold HasDevice, NodeIDForIP, at_key. split_and!; [done|by apply bool_decide_eq_true| |].
  - destruct (String.eqb_spec c ""); [done|]. by rewrite H1.
  - intros d Hd%bool_decide_eq_true Hn. destruct (String.eqb_spec d "") as [->|Hde]; [by subst|]. apply H3; [|done|done].
    apply elem_of_map_to_list. by destruct (nodeIDByIP r !! d); cbn in Hn; subst.
Qed.

(** The control plane's word that an address belongs to the device at [c]. *)
Definition same_node (w : Node) (r : Devices) (c : string) : Prop :=
  c ∈ addr_String <$> node_Addresses w ∧ (NodeIDForIP r c = "" ∨ NodeIDForIP r c = node_StableID w) ∨
  node_StableID w ≠ "" ∧ NodeIDForIP r c = node_StableID w ∧
  ∀ d, HasDevice r d = true → NodeIDForIP r d = node_StableID w → d = c.

(** What folding an address onto a device does to profiles and aliases. *)
Definition folded (peer c : string) (r r' : Devices) : Prop :=
  AgentIPFor r' peer = c ∧ (ProfileForIP r c ≠ "" → ProfileForIP r' peer = ProfileForIP r c) ∧
  ∀ ip, ip ≠ peer → ProfileForIP r' ip = ProfileForIP r ip ∧ AgentIPFor r' ip = AgentIPFor r ip.

Lemma setNodeID_profiles k n r :
  profileByIP (setNodeIDLocked k n r) = profileByIP r ∧ canonicalByAlias (setNodeIDLocked k n r) = canonicalByAlias r.
Proof.
  unfold setNodeIDLocked. destruct (String.eqb _ _); [done|].
  destruct (upsert_maps k (put_node k n r)) as (_ & _ & -> & _ & _ & -> & _). done.
Qed.

Lemma registerIPAlias_folded peer c r r0 :
  c ≠ "" → profileByIP r0 = profileByIP r → canonicalByAlias r0 = canonicalByAlias r → folded peer c r (registerIPAliasLocked peer c r0).
Proof.
  intros Hc Hp Hal. destruct (alias_maps peer c r0) as (_ & _ & H1 & H2). unfold folded, AgentIPFor, ProfileForIP.
  rewrite H1, H2, Hp, Hal. autorewrite with dev. split_and!.
  - by destruct (String.eqb_spec c "").
  - intros Hne. destruct (String.eqb_spec (at_key (profileByIP r) c) ""); [done|]. by autorewrite with dev.
  - intros ip Hip. split; [|by rewrite at_key_insert_ne].
    destruct (String.eqb (at_key (profileByIP r) c) ""); [done|]. by rewrite at_key_insert_ne.
Qed.

Lemma FoldAliasOntoDevice_spec peer c id r r' b :
  FoldAliasOntoDevice peer c id r = (r', b) →
  if b then c ≠ "" ∧ c ≠ peer ∧ HasDevice r c = true ∧ (NodeIDForIP r c = "" ∨ NodeIDForIP r c = id) ∧ folded peer c r r' else r' = r.
Proof.
  unfold FoldAliasOntoDevice. destruct (_ || _) eqn:E1; [by intros [= <- <-]|].
  destruct (HasDevice r c) eqn:Eh; [|by intros [= <- <-]]. cbv zeta. cbn [negb]. destruct (_ && _) eqn:E2; [by intros [= <- <-]|].
  intros [= <- <-]. apply orb_false_iff in E1 as [[E1 Ec]%orb_false_iff E3]. bprop. split_and!; [done|done|done| |].
  - unfold NodeIDForIP. destruct (String.eqb_spec c ""); [done|]. apply andb_false_iff in E2 as [E2|E2]; bprop; auto.
  - destruct (String.eqb id ""); apply registerIPAlias_folded; try done; by destruct (setNodeID_profiles c id r).
Qed.

(** The walk either folds the address onto a device of the same node or changes
    nothing. *)
Lemma fold_addresses_spec peer w addrs r r' c :
  incl addrs (node_Addresses w) → fold_addresses peer (node_StableID w) addrs r = (r', c) →
  if String.eqb c "" then r' = r else c ≠ peer ∧ HasDevice r c = true ∧ same_node w r c ∧ folded peer c r r'.
Proof.
  induction addrs as [|a addrs IH]; intros Hin H; cbn in H.
  - unfold FoldAliasOntoNode in H. destruct (_ || _); [by injection H as <- <-|]. cbv zeta in H.
    destruct (_ || _) eqn:E; [by injection H as <- <-|]. injection H as <- <-. apply orb_false_iff in E as [E1 E2]. rewrite E1. bprop.
    destruct (uniqueIPForNodeID_spec r (node_StableID w) _ eq_refl E1) as (H1 & H2 & H3 & H4).
    split_and!; [done|done|by right|by apply registerIPAlias_folded].
  - apply incl_cons_inv in Hin as [Ha Hin]. destruct (String.eqb (addr_String a) peer); [by apply IH|].
    destruct (FoldAliasOntoDevice peer (addr_String a) (node_StableID w) r) as [r1 b] eqn:Ef.
    apply FoldAliasOntoDevice_spec in Ef. destruct b; [|subst r1; by apply IH]. injection H as <- <-.
    destruct Ef as (H1 & H2 & H3 & H4 & H5). destruct (String.eqb_spec (addr_String a) ""); [done|].
    split_and!; [done|done| |done]. left. split; [|done]. apply list_elem_of_fmap. exists a. by rewrite list_elem_of_In.
Qed.

(** ** The profile of a peer *)

Section Profile.
Context (lc : option (string -> option Node)) (ord : list string) (src : option SrcPolicy).

Lemma lazy_resolve_spec now peer r r' c :
  lazy_resolve lc now peer r = (r', c) →
  if String.eqb c "" then r' = r ∨ r' = put_tried peer now r
  else ∃ whois w, lc = Some whois ∧ whois peer = Some w ∧ c ≠ peer ∧ HasDevice r c = true ∧ same_node w r c ∧ folded peer c r r'.
Proof.
  unfold lazy_resolve, ClaimAliasResolve, resolveTsnetAlias. destruct lc as [whois|]; [|intros [= <- <-]; cbn; auto].
  destruct (String.eqb peer "") eqn:Ep; [intros [= <- <-]; cbn; auto|]. destruct (HasDevice r peer); [intros [= <- <-]; cbn; auto|].
  destruct (bool_decide _); [intros [= <- <-]; cbn; auto|]. destruct (match _ with Some _ => _ | None => _ end); [intros [= <- <-]; cbn; auto|].
  destruct (whois peer) as [w|] eqn:Ew; [|intros [= <- <-]; cbn; auto]. intros H. apply fold_addresses_spec in H; [|apply incl_refl].
  destruct (String.eqb c ""); [auto|]. exists whois, w. split; [done|]. split; [done|]. exact H.
Qed.

(** C19. A peer is served under a profile that is its own, that of a device the
    control plane says is the same node, or the one for peers without a device;
    nothing else, a host name included, gives it a profile. *)
Theorem profileFor_exact pol now peer r r' p :
  profileFor lc ord src pol now peer r = (r', p) →
  p ≠ "" ∧ ProfileForIP r peer = p ∨
  ProfileForIP r peer = "" ∧
    ((∃ whois w c, lc = Some whois ∧ whois peer = Some w ∧ HasDevice r c = true ∧ same_node w r c ∧
        p ≠ "" ∧ ProfileForIP r c = p ∧ ProfileForIP r' peer = p) ∨
     p = unknownPeerProfile ord src pol r' peer).
Proof.
  unfold profileFor. cbv zeta. destruct (String.eqb (ProfileForIP r peer) "") eqn:E; cbn [negb]; bprop; [|intros [= <- <-]; by left].
  destruct (lazy_resolve lc now peer r) as [r1 c] eqn:El. apply lazy_resolve_spec in El. intros H. right. split; [done|].
  destruct (String.eqb c ""); cbn in H; [injection H as <- <-; by right|].
  destruct El as (whois & w & H1 & H2 & H3 & H4 & H5 & H6 & H7 & H8). destruct (H8 c H3) as [Hp _]. rewrite Hp in H.
  destruct (String.eqb (ProfileForIP r c) "") eqn:Ec; cbn in H; bprop; injection H as <- <-; [by right|].
  left. exists whois, w, c. split_and!; try done. by apply H7.
Qed.

Section Unknown.
Context (NewMatcher : string -> string -> result (option Matcher) string) (ParseDuration : string -> option Z).
Context (ro : RangeOrders) (gw : Gateway) (p : SrcPolicy) (pol : CompiledPolicy) (tailnet : bool).
Context (conn_runtime : Plugin -> bool) (tls_terminates : CompiledEndpoint -> bool) (ord1 ord2 : list string).
Hypothesis Hpol : gw_Policy gw = Some p.
Hypothesis Hcompile : Compile NewMatcher ParseDuration ro (Some gw) = Ok pol.

Lemma pick_no_profile l :
  pol_UnknownPeer pol = UnknownPeerNoProfile → pickEndpointForProfile l (Some pol) UnknownPeerEmptyProfile = None.
Proof.
  intros Hup. unfold pickEndpointForProfile. cbn [String.eqb UnknownPeerEmptyProfile].
  rewrite (no_profile_registered _ _ _ _ _ _ Hpol Hcompile Hup). destruct (List.find _ l) as [e|] eqn:E; [|done].
  apply List.find_some in E as [_ E]. apply bool_decide_eq_true in E. cbn in E. rewrite lookup_empty in E. by destruct E.
Qed.

(** Under [unknown_peer = "no_profile"], a peer with no device of its own and
    no node that is a known device reaches no endpoint, whatever it dials; what
    is left to it is what any unknown host gets. *)
Theorem unknown_peer_reaches_nothing now peer r a idx ordi dash tsIP sni dstIP dstPort :
  pol_UnknownPeer pol = UnknownPeerNoProfile →
  ProfileForIP r peer = "" → hasDeviceRow r peer = false → (lazy_resolve lc now peer r).2 = "" →
  let profile := (profileFor lc ord src (Some pol) now peer r).2 in
  match tcpDispatch conn_runtime tls_terminates ord1 ord2 (Some pol) tailnet a idx ordi dash tsIP sni profile dstIP dstPort with
  | RMitm _ _ ep => pol_UnknownHost pol = "inspect" ∧ pol_Endpoints pol !! UnknownInspectEndpoint = Some ep
  | RConn _ _ _ => False
  | _ => True
  end.
Proof.
  intros Hup Hp Hrow Hres. cbv zeta.
  assert ((profileFor lc ord src (Some pol) now peer r).2 = UnknownPeerEmptyProfile) as ->.
  { unfold profileFor. cbv zeta. rewrite Hp. destruct (lazy_resolve lc now peer r) as [r1 c] eqn:El. cbn [snd] in Hres. subst c.
    apply lazy_resolve_spec in El. cbn in El |- *. unfold unknownPeerProfile. rewrite Hup, String.eqb_refl.
    assert (hasDeviceRow r1 peer = false) as -> by (by destruct El as [-> | ->]). done. }
  assert (∀ h, HostEndpoint ord1 ord2 (Some pol) UnknownPeerEmptyProfile h = None) as Hh.
  { intros h. unfold HostEndpoint. by rewrite (no_profile_registered _ _ _ _ _ _ Hpol Hcompile Hup). }
  unfold tcpDispatch. destruct (shouldHandleHTTPSMITM _ _ _ _ _ _).
  { pose proof (handle_routes conn_runtime tls_terminates ord1 ord2 (Some pol) a sni UnknownPeerEmptyProfile dstIP dstPort) as H.
    destruct (handle _ _ _ _ _ _ _ _ _ _); try done.
    - destruct H as [[_ H]|[Hu (p' & [= <-] & Hp')]]; [by rewrite Hh in H|]. split; [|done].
      unfold unknownHostPolicy in Hu. by destruct (String.eqb (pol_UnknownHost pol) "").
    - destruct H as [authority H]. by rewrite Hh in H. }
  destruct (dstPort =? 5432).
  { unfold handlePostgresConn. destruct (vip_endpoint _ _ _ _) as [[ep|] hn] eqn:Ev.
    - apply vip_endpoint_picked in Ev as [l Hl]. by rewrite pick_no_profile in Hl.
    - rewrite pick_no_profile by done. by destruct (wgRelay_cases (Some pol) tailnet dstIP 5432) as [-> | ->]. }
  destruct (dstPort =? 53); [done|]. destruct (IsVIP a dstIP).
  { unfold handleVIPConn. destruct (LookupVIP a dstIP) as [hn hits]. destruct (String.eqb hn ""); [done|].
    destruct (List.find _ hits) as [h|] eqn:Ef; [|done]. apply List.find_some in Ef as [_ Hm]. unfold hit_matches in Hm.
    rewrite (no_profile_registered _ _ _ _ _ _ Hpol Hcompile Hup) in Hm. cbn in Hm. by rewrite lookup_empty in Hm. }
  destruct (_ && _); [done|]. unfold tryDirectIPConn. rewrite pick_no_profile by done.
  by destruct (wgRelay_cases (Some pol) tailnet dstIP dstPort) as [-> | ->].
Qed.
End Unknown.
End Profile.

(** ** Witnesses *)

(** The tailnet knows one node, with the address of the sample device and
    another. *)
Definition sample_whois (ip : string) : option Node :=
  if String.eqb ip "fd7a:115c:a1e0::8"
  then Some (mkNode "n1" [Addr4 1681915911; Addr6 (from_bytes [253;122;17;92;161;224;0;0;0;0;0;0;0;0;0;8]) ""] "laptop") else None.

Lemma profileFor_exact_witness :
  (profileFor (Some sample_whois) [] None None 0 "fd7a:115c:a1e0::8" sample_devices).2 = "dev" ∧
  ∃ w c, sample_whois "fd7a:115c:a1e0::8" = Some w ∧ HasDevice sample_devices c = true ∧ same_node w sample_devices c.
Proof.
  destruct (profileFor (Some sample_whois) [] None None 0 "fd7a:115c:a1e0::8" sample_devices) as [r' p] eqn:E.
  assert (p = "dev") as -> by (apply (f_equal snd) in E; vm_compute in E; by rewrite <- E). split; [reflexivity|].
  destruct (profileFor_exact (Some sample_whois) [] None None 0 "fd7a:115c:a1e0::8" sample_devices r' "dev" E)
    as [[_ H]|[_ [(whois & w & c & [= <-] & Hw & Hd & Hn & _)|H]]].
  - vm_compute in H. discriminate H.
  - exists w, c. split; [exact Hw|]. split; [exact Hd|exact Hn].
  - exfalso. revert H. apply (f_equal fst) in E. cbn [fst] in E. rewrite <- E. vm_compute. discriminate.
Defined.

Lemma unknown_peer_reaches_nothing_witness :
  tcpDispatch (λ _, true) (λ _, false) [] [] (Some (dev_policy "no_profile")) false no_vips no_index [] 0 "" (Some "api.example.com")
    (profileFor None [] None (Some (dev_policy "no_profile")) 0 "198.51.100.9" sample_devices).2 "192.0.2.7" 443 = RDrop ∧
  match tcpDispatch (λ _, true) (λ _, false) [] [] (Some (dev_policy "no_profile")) false no_vips no_index [] 0 "" (Some "api.example.com")
    (profileFor None [] None (Some (dev_policy "no_profile")) 0 "198.51.100.9" sample_devices).2 "192.0.2.7" 443 with
  | RMitm _ _ _ | RConn _ _ _ => False | _ => True end.
Proof.
  pose proof (unknown_peer_reaches_nothing None [] None no_matcher no_duration dev_orders (small_gateway "no_profile" ranked_rules)
    (small_policy ranked_rules) (dev_policy "no_profile") false (λ _, true) (λ _, false) [] [] eq_refl ltac:(vm_compute; reflexivity)
    0 "198.51.100.9" sample_devices no_vips no_index [] 0 "" (Some "api.example.com") "192.0.2.7" 443
    ltac:(vm_compute; reflexivity) ltac:(vm_compute; reflexivity) ltac:(vm_compute; reflexivity) ltac:(vm_compute; reflexivity)) as H.
  split; [vm_compute; reflexivity|]. cbv zeta in H.
  destruct (tcpDispatch _ _ _ _ _ _ _ _ _ _ _ _ _ _ _) eqn:E; try exact I; [|exact H]. vm_compute in E. discriminate E.
Defined.
