(* ===== verification/HitlStore.v ===== *)
(** * The store of parked operations: [cmd/clawpatrol/hitl_operation_store.go]

    A request that needs a human is parked as a row of [hitl_operations]; an
    approval turns the row into a one-shot retry grant that the matching retry
    consumes. The table is a map from primary key to row and every SQL statement
    is one atomic function on it. Other statements may run between the statements
    of an operation: the operations that read and then write take the effect of
    such interference as an argument. Also modelled here: the callers in
    [hitl_async_runtime.go], [hitl_retry_relay.go] and the maintenance of
    [main.go]. *)
From S2P Require Import Prelude GoStrings.

(** ** Data *)

Inductive HITLOperationState :=
| SyncWaiting
| PendingApproval
| ApprovedWaitingForRetry
| Denied
| Expired
| ExecutingUpstream
| UpstreamSucceeded
| UpstreamFailed
| ClientDisconnected
| OtherState (s : string).

#[global] Instance HITLOperationState_eq_dec : EqDecision HITLOperationState.
Proof. solve_decision. Defined.

Definition isKnownHITLOperationState (s : HITLOperationState) : bool :=
  match s with OtherState _ => false | _ => true end.

Definition isTerminalHITLOperationState (s : HITLOperationState) : bool :=
  match s with
  | Denied | Expired | UpstreamSucceeded | UpstreamFailed | ClientDisconnected => true
  | _ => false
  end.

Inductive StoreError :=
| ErrNotFound
| ErrConflict
| ErrRetryNotApproved
| ErrRetryExpired
| ErrRetryMismatch
| ErrGrantAlreadyConsumed
| ErrInvalid (what : string)
| ErrDuplicateKey.

(** The columns written at creation and never updated. Times are nanoseconds;
    an input time is [None] when it is the zero [time.Time]. *)
Record OpColumns := mkColumns {
  c_ProfileID : string;
  c_PrincipalID : string;
  c_EndpointID : string;
  c_ApprovalRuleID : string;
  c_ApproverID : string;
  c_Method : string;
  c_Scheme : string;
  c_Host : string;
  c_RedactedPath : string;
  c_RedactedQuery : string;
  c_RedactedHeadersJSON : string;
  c_AuthBindingID : string;
  c_FingerprintVersion : string;
  c_HMACKeyID : string;
  c_RequestFingerprint : string;
  c_StatusTokenHash : string;
  c_CreatedAt : Z;
  c_SyncWaitDeadline : Z;
  c_ApprovalExpiresAt : Z
}.

Record HITLOperation := mkOp {
  op_ID : string;
  op_State : HITLOperationState;
  op_Version : Z;
  op_Columns : OpColumns;
  op_RetryExpiresAt : option Z;
  op_ExpiredReason : string;
  op_TerminalAt : option Z;
  op_TerminalRetentionExpiresAt : option Z;
  op_UpstreamCalled : bool;
  op_GrantConsumedAt : option Z;
  op_GrantConsumedBy : string;
  op_ApproverMessageRef : string;
  op_LastError : string
}.

Notation Store := (gmap string HITLOperation).

Record HITLOperationCreate := mkCreate {
  cr_ID : string;
  cr_State : HITLOperationState;
  (** the descriptive columns, with the hash as given and the times unset *)
  cr_Columns : OpColumns;
  cr_StatusToken : string;
  cr_CreatedAt : option Z;
  cr_SyncWaitDeadline : option Z;
  cr_ApprovalExpiresAt : option Z;
  cr_RetryExpiresAt : option Z
}.

Record HITLOperationTransition := mkTransition {
  tr_ID : string;
  tr_FromState : HITLOperationState;
  tr_ToState : HITLOperationState;
  tr_ExpectedVersion : Z;
  tr_Now : option Z;
  tr_RetryExpiresAt : option Z;
  tr_ExpiredReason : string;
  tr_TerminalRetentionExpiresAt : option Z;
  tr_UpstreamCalled : bool;
  tr_LastError : string
}.

Record HITLRetryGrantConsume := mkConsume {
  co_ID : string;
  co_ProfileID : string;
  co_PrincipalID : string;
  co_AuthBindingID : string;
  co_FingerprintVersion : string;
  co_HMACKeyID : string;
  co_RequestFingerprint : string;
  co_ConsumedBy : string;
  co_Now : option Z
}.

Definition is_empty (s : string) : bool := String.eqb s "".
Definition state_is_empty (s : HITLOperationState) : bool := bool_decide (s = OtherState "").

(** ** Creation *)

Section Create.
(** [hashHITLOperationStatusToken]: SHA-256 in hex. *)
Context (hash : string -> string).

Definition verifyHITLOperationStatusTokenHash (token expectedHash : string) : bool :=
  if is_empty token || is_empty expectedHash then false
  else String.eqb (hash token) expectedHash.

Definition set_hash (c : OpColumns) (h : string) (created sync approval : Z) : OpColumns :=
  mkColumns (c_ProfileID c) (c_PrincipalID c) (c_EndpointID c) (c_ApprovalRuleID c) (c_ApproverID c)
    (c_Method c) (c_Scheme c) (c_Host c) (c_RedactedPath c) (c_RedactedQuery c) (c_RedactedHeadersJSON c)
    (c_AuthBindingID c) (c_FingerprintVersion c) (c_HMACKeyID c) (c_RequestFingerprint c) h
    created sync approval.

(** The required columns, in the order of the literal; the loop ranges over a
    map, so which missing one is reported is not determined. *)
Definition required_columns (id : string) (c : OpColumns) (h : string) : list string :=
  [id; c_ProfileID c; c_PrincipalID c; c_EndpointID c; c_ApprovalRuleID c; c_ApproverID c;
   c_Method c; c_Scheme c; c_Host c; c_RedactedPath c; c_AuthBindingID c; c_FingerprintVersion c;
   c_HMACKeyID c; c_RequestFingerprint c; h].

Definition validateHITLOperationCreate (id : string) (state : HITLOperationState) (h : string)
    (inp : HITLOperationCreate) : result (Z * Z * Z) StoreError :=
  if existsb is_empty (required_columns id (cr_Columns inp) h) then Err (ErrInvalid "missing column")
  else if negb (isKnownHITLOperationState state) then Err (ErrInvalid "unknown state")
  else match cr_CreatedAt inp, cr_SyncWaitDeadline inp, cr_ApprovalExpiresAt inp with
       | Some c, Some s, Some a => Ok (c, s, a)
       | _, _, _ => Err (ErrInvalid "missing operation timestamps")
       end.

(** [newID] and [minted] are the random identifier and token. Returns the row
    and the token that only [Create] hands out. *)
Definition Create (newID minted : string) (t : Store) (inp : HITLOperationCreate)
    : Store * result (HITLOperation * string) StoreError :=
  let id := if is_empty (cr_ID inp) then newID else cr_ID inp in
  let state := if state_is_empty (cr_State inp) then SyncWaiting else cr_State inp in
  let h0 := c_StatusTokenHash (cr_Columns inp) in
  let '(token, h) :=
    if is_empty (cr_StatusToken inp) && is_empty h0 then (minted, hash minted)
    else (cr_StatusToken inp, if is_empty h0 then hash (cr_StatusToken inp) else h0) in
  match validateHITLOperationCreate id state h inp with
  | Err e => (t, Err e)
  | Ok (created, sync, approval) =>
      match t !! id with
      | Some _ => (t, Err ErrDuplicateKey)
      | None =>
          let op := mkOp id state 1 (set_hash (cr_Columns inp) h created sync approval) (cr_RetryExpiresAt inp)
                      "" None None false None "" "" "" in
          (<[id := op]> t, Ok (op, token))
      end
  end.

(** ** Reads *)

Definition get (t : Store) (id : string) : result HITLOperation StoreError :=
  match t !! id with Some op => Ok op | None => Err ErrNotFound end.

Definition GetForPrincipal (t : Store) (id profileID principalID : string) : result HITLOperation StoreError :=
  match t !! id with
  | Some op => if String.eqb (c_ProfileID (op_Columns op)) profileID &&
                  String.eqb (c_PrincipalID (op_Columns op)) principalID
               then Ok op else Err ErrNotFound
  | None => Err ErrNotFound
  end.

Definition is_parked (op : HITLOperation) : bool :=
  bool_decide (op_State op = SyncWaiting) || bool_decide (op_State op = PendingApproval).

(** Newest first. *)
Definition ListParkedForPrincipal (t : Store) (profileID principalID : string) : list HITLOperation :=
  stable_sort (λ a b, c_CreatedAt (op_Columns b) <? c_CreatedAt (op_Columns a))
    (List.filter (λ op, String.eqb (c_ProfileID (op_Columns op)) profileID &&
                        String.eqb (c_PrincipalID (op_Columns op)) principalID && is_parked op)
       (map_to_list t).*2).

Definition GetForStatusToken (t : Store) (id token : string) : result HITLOperation StoreError :=
  if is_empty id || is_empty token then Err ErrNotFound
  else match t !! id with
       | None => Err ErrNotFound
       | Some op => if verifyHITLOperationStatusTokenHash token (c_StatusTokenHash (op_Columns op))
                    then Ok op else Err ErrNotFound
       end.
End Create.

(** ** Updates *)

Definition set_message_ref (ref : string) (op : HITLOperation) : HITLOperation :=
  mkOp (op_ID op) (op_State op) (op_Version op) (op_Columns op) (op_RetryExpiresAt op) (op_ExpiredReason op)
    (op_TerminalAt op) (op_TerminalRetentionExpiresAt op) (op_UpstreamCalled op) (op_GrantConsumedAt op)
    (op_GrantConsumedBy op) ref (op_LastError op).

Definition SetApproverMessageRef (t : Store) (id ref : string) : Store * result HITLOperation StoreError :=
  if is_empty id || is_empty ref then (t, Err (ErrInvalid "incomplete message ref"))
  else match t !! id with
       | None => (t, Err ErrNotFound)
       | Some op => (<[id := set_message_ref ref op]> t, Ok (set_message_ref ref op))
       end.

(** The [SET] list of [Transition]. *)
Definition apply_transition (tr : HITLOperationTransition) (now : Z) (op : HITLOperation) : HITLOperation :=
  let terminal := isTerminalHITLOperationState (tr_ToState tr) in
  mkOp (op_ID op) (tr_ToState tr) (op_Version op + 1) (op_Columns op)
    (match tr_RetryExpiresAt tr with Some r => Some r | None => op_RetryExpiresAt op end)
    (if is_empty (tr_ExpiredReason tr) then op_ExpiredReason op else tr_ExpiredReason tr)
    (if terminal then Some now else op_TerminalAt op)
    (if terminal then match tr_TerminalRetentionExpiresAt tr with
                      | Some r => Some r
                      | None => op_TerminalRetentionExpiresAt op
                      end
     else op_TerminalRetentionExpiresAt op)
    (if tr_UpstreamCalled tr || bool_decide (tr_ToState tr = ExecutingUpstream) then true else op_UpstreamCalled op)
    (op_GrantConsumedAt op) (op_GrantConsumedBy op) (op_ApproverMessageRef op)
    (if is_empty (tr_LastError tr) then op_LastError op else tr_LastError tr).

Definition Transition (t : Store) (tr : HITLOperationTransition) : Store * result HITLOperation StoreError :=
  match tr_Now tr with
  | None => (t, Err (ErrInvalid "incomplete transition"))
  | Some now =>
      if is_empty (tr_ID tr) || state_is_empty (tr_FromState tr) || state_is_empty (tr_ToState tr) ||
         (tr_ExpectedVersion tr <=? 0)
      then (t, Err (ErrInvalid "incomplete transition"))
      else if negb (isKnownHITLOperationState (tr_FromState tr)) || negb (isKnownHITLOperationState (tr_ToState tr))
      then (t, Err (ErrInvalid "unknown transition state"))
      else match t !! tr_ID tr with
           | Some op =>
               if bool_decide (op_State op = tr_FromState tr) && (op_Version op =? tr_ExpectedVersion tr)
               then (<[tr_ID tr := apply_transition tr now op]> t, Ok (apply_transition tr now op))
               else (t, Err ErrConflict)
           | None => (t, Err ErrConflict)
           end
  end.

(** ** Maintenance *)

Definition set_terminal (to : HITLOperationState) (now retention : Z) (reason : string) (called : bool)
    (lastError : string) (op : HITLOperation) : HITLOperation :=
  mkOp (op_ID op) to (op_Version op + 1) (op_Columns op) (op_RetryExpiresAt op)
    (if is_empty reason then op_ExpiredReason op else reason) (Some now) (Some retention)
    (if called then true else op_UpstreamCalled op) (op_GrantConsumedAt op) (op_GrantConsumedBy op)
    (op_ApproverMessageRef op) (if is_empty lastError then op_LastError op else lastError).

(** The new table and the number of rows changed. *)
Definition updateTerminalStateWhere (from to : HITLOperationState) (now retention : Z) (reason : string)
    (called : bool) (lastError : string) (extra : HITLOperation -> bool) (t : Store) : Store * Z :=
  let hit op := bool_decide (op_State op = from) && extra op in
  ((λ op, if hit op then set_terminal to now retention reason called lastError op else op) <$> t,
   Z.of_nat (size (filter (λ kv : string * HITLOperation, hit kv.2 = true) t))).

Definition due (deadline : option Z) (now : Z) : bool :=
  match deadline with Some d => d <=? now | None => false end.

Definition updateTerminalByDeadline (from : HITLOperationState) (column : HITLOperation -> option Z)
    (now retention : Z) (reason : string) (t : Store) : Store * Z :=
  let to := if bool_decide (from = SyncWaiting) then ClientDisconnected else Expired in
  updateTerminalStateWhere from to now retention reason false "" (λ op, due (column op) now) t.

Record MaintenanceResult := mkMaintenance {
  PendingApprovalExpired : Z;
  ApprovedRetryExpired : Z;
  SyncWaitingRecovered : Z;
  ExecutingRecovered : Z;
  PurgedTerminal : Z
}.

Definition retention_expires (now terminalRetention : Z) : Z :=
  if 0 <? terminalRetention then now + terminalRetention else now.

(** [now] is not the zero time. *)
Definition ExpireDueOperations (now terminalRetention : Z) (t : Store) : Store * MaintenanceResult :=
  let r := retention_expires now terminalRetention in
  let '(t1, n1) := updateTerminalByDeadline PendingApproval (λ op, Some (c_ApprovalExpiresAt (op_Columns op)))
                     now r "approval_ttl_expired" t in
  let '(t2, n2) := updateTerminalByDeadline ApprovedWaitingForRetry op_RetryExpiresAt
                     now r "approved_retry_ttl_expired" t1 in
  (t2, mkMaintenance n1 n2 0 0 0).

Definition RecoverStaleInProgressOperations (now terminalRetention : Z) (t : Store) : Store * MaintenanceResult :=
  let r := retention_expires now terminalRetention in
  let '(t1, n1) := updateTerminalByDeadline SyncWaiting (λ op, Some (c_SyncWaitDeadline (op_Columns op)))
                     now r "" t in
  let '(t2, n2) := updateTerminalStateWhere ExecutingUpstream UpstreamFailed now r "" true
                     "gateway restarted while HITL operation was executing upstream" (λ _, true) t1 in
  (t2, mkMaintenance 0 0 n1 n2 0).

Definition purgeable (now : Z) (op : HITLOperation) : bool :=
  isTerminalHITLOperationState (op_State op) && due (op_TerminalRetentionExpiresAt op) now.

Definition PurgeTerminalOperations (now : Z) (t : Store) : Store * Z :=
  (filter (λ kv : string * HITLOperation, purgeable now kv.2 = false) t,
   Z.of_nat (size (filter (λ kv : string * HITLOperation, purgeable now kv.2 = true) t))).

Definition hitlOperationTerminalRetention : Z := 7 * 24 * 3600 * 10 ^ 9.

Definition runHITLOperationStartupMaintenance (now : Z) (t : Store) : Store * MaintenanceResult :=
  let '(t1, rec) := RecoverStaleInProgressOperations now hitlOperationTerminalRetention t in
  let '(t2, exp) := ExpireDueOperations now hitlOperationTerminalRetention t1 in
  let '(t3, purged) := PurgeTerminalOperations now t2 in
  (t3, mkMaintenance (PendingApprovalExpired exp) (ApprovedRetryExpired exp) (SyncWaitingRecovered rec)
         (ExecutingRecovered rec) purged).

(** ** The retry grant *)

(** The checks on a row, in order; [None] when all pass. *)
Definition consume_check (inp : HITLRetryGrantConsume) (now : Z) (op : HITLOperation) : option StoreError :=
  match op_GrantConsumedAt op with
  | Some _ => Some ErrGrantAlreadyConsumed
  | None =>
      if negb (bool_decide (op_State op = ApprovedWaitingForRetry)) then Some ErrRetryNotApproved
      else match op_RetryExpiresAt op with
           | None => Some ErrRetryExpired
           | Some r =>
               if negb (now <? r) then Some ErrRetryExpired
               else if negb (String.eqb (c_AuthBindingID (op_Columns op)) (co_AuthBindingID inp)) ||
                       negb (String.eqb (c_FingerprintVersion (op_Columns op)) (co_FingerprintVersion inp)) ||
                       negb (String.eqb (c_HMACKeyID (op_Columns op)) (co_HMACKeyID inp)) ||
                       negb (String.eqb (c_RequestFingerprint (op_Columns op)) (co_RequestFingerprint inp))
               then Some ErrRetryMismatch
               else None
           end
  end.

Definition set_consumed (now : Z) (by_ : string) (op : HITLOperation) : HITLOperation :=
  mkOp (op_ID op) ExecutingUpstream (op_Version op + 1) (op_Columns op) (op_RetryExpiresAt op)
    (op_ExpiredReason op) (op_TerminalAt op) (op_TerminalRetentionExpiresAt op) true (Some now) by_
    (op_ApproverMessageRef op) (op_LastError op).

(** The [WHERE] clause of the consuming statement. *)
Definition consume_where (inp : HITLRetryGrantConsume) (now version : Z) (op : HITLOperation) : bool :=
  String.eqb (c_ProfileID (op_Columns op)) (co_ProfileID inp) &&
  String.eqb (c_PrincipalID (op_Columns op)) (co_PrincipalID inp) &&
  bool_decide (op_State op = ApprovedWaitingForRetry) && (op_Version op =? version) &&
  match op_GrantConsumedAt op with None => true | Some _ => false end &&
  match op_RetryExpiresAt op with Some r => now <? r | None => false end &&
  String.eqb (c_AuthBindingID (op_Columns op)) (co_AuthBindingID inp) &&
  String.eqb (c_FingerprintVersion (op_Columns op)) (co_FingerprintVersion inp) &&
  String.eqb (c_HMACKeyID (op_Columns op)) (co_HMACKeyID inp) &&
  String.eqb (c_RequestFingerprint (op_Columns op)) (co_RequestFingerprint inp).

(** The statement: the new table and whether a row changed. *)
Definition consume_update (inp : HITLRetryGrantConsume) (now version : Z) (t : Store) : Store * bool :=
  match t !! co_ID inp with
  | Some op => if consume_where inp now version op
               then (<[co_ID inp := set_consumed now (co_ConsumedBy inp) op]> t, true)
               else (t, false)
  | None => (t, false)
  end.

Definition consume_incomplete (inp : HITLRetryGrantConsume) : bool :=
  existsb is_empty [co_ID inp; co_ProfileID inp; co_PrincipalID inp; co_AuthBindingID inp;
                    co_FingerprintVersion inp; co_HMACKeyID inp; co_RequestFingerprint inp; co_ConsumedBy inp].

(** [env1] and [env2] are what other statements do to the table between the
    first read and the update, and between the update and the last read. *)
Definition ConsumeRetryGrant (env1 env2 : Store -> Store) (t : Store) (inp : HITLRetryGrantConsume)
    : Store * result HITLOperation StoreError :=
  match co_Now inp with
  | None => (t, Err (ErrInvalid "incomplete retry consume"))
  | Some now =>
      if consume_incomplete inp then (t, Err (ErrInvalid "incomplete retry consume"))
      else match GetForPrincipal t (co_ID inp) (co_ProfileID inp) (co_PrincipalID inp) with
           | Err e => (t, Err e)
           | Ok op =>
               match consume_check inp now op with
               | Some e => (t, Err e)
               | None =>
                   let '(t1, changed) := consume_update inp now (op_Version op) (env1 t) in
                   let t2 := env2 t1 in
                   let latest := GetForPrincipal t2 (co_ID inp) (co_ProfileID inp) (co_PrincipalID inp) in
                   if changed then (t2, latest)
                   else match latest with
                        | Err e => (t2, Err e)
                        | Ok op' => (t2, Err (default ErrConflict (consume_check inp now op')))
                        end
               end
           end
  end.

(** ** Callers *)

Definition HITLAsyncDefaultApprovedRetryTTL : Z := 5 * 60 * 10 ^ 9.

(** The transition [resolveAsyncHITLGrant] asks for, from the row it read. *)
Definition resolve_transition (op : HITLOperation) (allow : bool) (now : Z) : HITLOperationTransition :=
  let retry := if allow then
                 match op_RetryExpiresAt op with
                 | Some r => if now <? r then Some r else Some (now + HITLAsyncDefaultApprovedRetryTTL)
                 | None => Some (now + HITLAsyncDefaultApprovedRetryTTL)
                 end
               else None in
  mkTransition (op_ID op) (op_State op) (if allow then ApprovedWaitingForRetry else Denied) (op_Version op)
    (Some now) retry "" None false "".

(** [resolveAsyncHITLGrant] on an operator's decision; [env] is interference
    between its read and its update. *)
Definition resolveAsyncHITLGrant (env : Store -> Store) (t : Store) (operationID : string) (allow : bool) (now : Z)
    : Store * result HITLOperation StoreError :=
  match get t operationID with
  | Err e => (t, Err e)
  | Ok op => Transition (env t) (resolve_transition op allow now)
  end.

Definition transitionAsyncHITLOperation (t : Store) (op : HITLOperation) (to : HITLOperationState)
    (lastErr : string) (now : Z) : Store * result HITLOperation StoreError :=
  if is_empty (op_ID op) then (t, Ok op)
  else Transition t (mkTransition (op_ID op) (op_State op) to (op_Version op) (Some now) None "" None false lastErr).

(** A nil error is [Ok]. *)
Definition transitionConsumedHITLRetryGrant (t : Store) (op : HITLOperation) (to : HITLOperationState)
    (lastErr : string) (now : Z) : Store * result unit StoreError :=
  if is_empty (op_ID op) || negb (bool_decide (op_State op = ExecutingUpstream)) then (t, Ok tt)
  else match Transition t (mkTransition (op_ID op) (op_State op) to (op_Version op) (Some now) None "" None true lastErr) with
       | (t', Ok _) => (t', Ok tt)
       | (t', Err e) => (t', Err e)
       end.
