(* ===== verification/HitlProps.v ===== *)
(** * Retry grants are spent once

    Traces of the statements on [hitl_operations]: a grant is consumed at most
    once, updates are never lost, and start-up maintenance leaves no overdue
    operation behind. *)
From S2P Require Import Prelude GoStrings HitlStore.

(** ** Traces of statements *)

Inductive HitlEvent :=
| EvCreate (id : string)
| EvConsume (id : string)
| EvOther.

#[global] Instance HitlEvent_eq_dec : EqDecision HitlEvent.
Proof. solve_decision. Defined.

(** One committed statement, by whichever connection. *)
Inductive hitl_step : Store -> HitlEvent -> Store -> Prop :=
| st_create hash newID minted t inp t' op token :
    Create hash newID minted t inp = (t', Ok (op, token)) → hitl_step t (EvCreate (op_ID op)) t'
| st_transition t tr : hitl_step t EvOther (Transition t tr).1
| st_message_ref t id ref : hitl_step t EvOther (SetApproverMessageRef t id ref).1
| st_terminal from to now retention reason called lastError extra t :
    hitl_step t EvOther (updateTerminalStateWhere from to now retention reason called lastError extra t).1
| st_purge now t : hitl_step t EvOther (PurgeTerminalOperations now t).1
| st_consume inp now version t t' :
    consume_update inp now version t = (t', true) → hitl_step t (EvConsume (co_ID inp)) t'.

Inductive hitl_trace : Store -> list HitlEvent -> Store -> Prop :=
| trace_nil t : hitl_trace t [] t
| trace_cons t ev t1 evs t2 : hitl_step t ev t1 → hitl_trace t1 evs t2 → hitl_trace t (ev :: evs) t2.

Definition count_events (ev : HitlEvent) (evs : list HitlEvent) : nat :=
  length (List.filter (λ e, bool_decide (e = ev)) evs).

(** ** What a statement does to one row *)

(** The row is untouched, or rewritten with its version raised (or unchanged,
    for the message reference); a spent grant stays spent and an unspent one
    stays unspent. *)
Definition row_kept (op op' : HITLOperation) : Prop :=
  op_ID op' = op_ID op ∧ op_Version op <= op_Version op' ∧ op_Columns op' = op_Columns op ∧
  op_GrantConsumedAt op' = op_GrantConsumedAt op.

#[global] Instance row_kept_refl : Reflexive row_kept.
Proof. intros op. by repeat split. Qed.

Lemma apply_transition_kept tr now op : row_kept op (apply_transition tr now op).
Proof. repeat split; simpl; lia. Qed.

Lemma Create_spec hash newID minted t inp t' op token :
  Create hash newID minted t inp = (t', Ok (op, token)) →
  t !! op_ID op = None ∧ t' = <[op_ID op := op]> t ∧ op_Version op = 1 ∧ op_GrantConsumedAt op = None.
Proof.
  unfold Create. cbv zeta. set (id := if is_empty (cr_ID inp) then newID else cr_ID inp).
  destruct (if is_empty (cr_StatusToken inp) && _ then _ else _) as [tok h].
  destruct (validateHITLOperationCreate _ _ _ _) as [[[c s] ap]|]; [|done].
  destruct (t !! id) eqn:E; [done|]. intros H. by simplify_eq/=.
Qed.

Lemma consume_update_spec inp now version t t' :
  consume_update inp now version t = (t', true) →
  ∃ op, t !! co_ID inp = Some op ∧ consume_where inp now version op = true ∧
    t' = <[co_ID inp := set_consumed now (co_ConsumedBy inp) op]> t.
Proof.
  unfold consume_update. destruct (t !! co_ID inp) as [op|]; [|done].
  destruct (consume_where inp now version op) eqn:E; [|done]. intros H. simplify_eq. eauto.
Qed.

Lemma consume_where_spec inp now version op :
  consume_where inp now version op = true →
  op_State op = ApprovedWaitingForRetry ∧ op_Version op = version ∧ op_GrantConsumedAt op = None ∧
  (∃ r, op_RetryExpiresAt op = Some r ∧ now < r) ∧
  c_ProfileID (op_Columns op) = co_ProfileID inp ∧ c_PrincipalID (op_Columns op) = co_PrincipalID inp ∧
  c_AuthBindingID (op_Columns op) = co_AuthBindingID inp ∧
  c_FingerprintVersion (op_Columns op) = co_FingerprintVersion inp ∧
  c_HMACKeyID (op_Columns op) = co_HMACKeyID inp ∧
  c_RequestFingerprint (op_Columns op) = co_RequestFingerprint inp.
Proof.
  unfold consume_where. intros H. bprop.
  match goal with H : bool_decide _ = true |- _ => apply bool_decide_eq_true in H end.
  destruct (op_GrantConsumedAt op); [done|]. destruct (op_RetryExpiresAt op) as [r|]; [|done]. bprop.
  split_and!; eauto.
Qed.

(** The effect of a step on a row that exists before and after. *)
Lemma hitl_step_row t ev t' id op :
  hitl_step t ev t' → t !! id = Some op →
  (t' !! id = None ∧ ev ≠ EvConsume id) ∨
  ∃ op', t' !! id = Some op' ∧
    ((ev ≠ EvConsume id ∧ row_kept op op') ∨
     (ev = EvConsume id ∧ op_GrantConsumedAt op = None ∧ op_GrantConsumedAt op' ≠ None ∧
      op_ID op' = op_ID op ∧ op_Version op' = op_Version op + 1 ∧ op_Columns op' = op_Columns op)).
Proof.
  intros Hs Hid. assert (row_kept op op) as Hrefl by reflexivity. destruct Hs.
  - apply Create_spec in H as (Hnone & -> & _). right. exists op.
    rewrite lookup_insert_ne by congruence. auto.
  - right. unfold Transition. repeat (dcase; try (exists op; by auto)). simpl. rename h into o.
    destruct (decide (tr_ID tr = id)) as [<-|]; [|rewrite lookup_insert_ne by done; by eauto].
    rewrite lookup_insert_eq. simplify_eq. eexists. split; [done|]. left. split; [done|]. apply apply_transition_kept.
  - right. unfold SetApproverMessageRef. repeat (dcase; try (exists op; by auto)). simpl.
    destruct (decide (id0 = id)) as [<-|]; [|rewrite lookup_insert_ne by done; by eauto].
    rewrite lookup_insert_eq. simplify_eq. eexists. split; [done|]. left. by repeat split.
  - right. unfold updateTerminalStateWhere. simpl. rewrite lookup_fmap, Hid. simpl. eexists. split; [done|].
    left. split; [done|]. destruct (_ && _); [|done]. repeat split; simpl; lia.
  - unfold PurgeTerminalOperations. simpl. destruct (purgeable now op) eqn:E.
    + left. split; [|done]. apply map_lookup_filter_None_2. right. intros x Hx. simplify_eq/=. by rewrite E.
    + right. exists op. split; [|by left]. by apply map_lookup_filter_Some_2.
  - apply consume_update_spec in H as (o & Ho & Hw & ->). right.
    destruct (decide (co_ID inp = id)) as [<-|Hne].
    + rewrite lookup_insert_eq. simplify_eq. eexists. split; [done|]. right.
      apply consume_where_spec in Hw as (_ & _ & Hc & _). by repeat split.
    + rewrite lookup_insert_ne by done. exists op. split; [done|]. left. split; [congruence|done].
Qed.

(** A row appears only by creation, unspent. *)
Lemma hitl_step_new t ev t' id op' :
  hitl_step t ev t' → t !! id = None → t' !! id = Some op' → ev = EvCreate id ∧ op_GrantConsumedAt op' = None.
Proof.
  intros Hs Hid Hid'. destruct Hs.
  - apply Create_spec in H as (Hnone & -> & _ & Hc). apply lookup_insert_Some in Hid' as [[<- <-]|[_ ?]]; [done|congruence].
  - exfalso. unfold Transition in Hid'. repeat (dcase_in Hid'; simpl in Hid'; try congruence).
    apply lookup_insert_Some in Hid' as [[<- <-]|[_ ?]]; congruence.
  - exfalso. unfold SetApproverMessageRef in Hid'. repeat (dcase_in Hid'; simpl in Hid'; try congruence).
    apply lookup_insert_Some in Hid' as [[<- <-]|[_ ?]]; congruence.
  - exfalso. simpl in Hid'. rewrite lookup_fmap, Hid in Hid'. done.
  - exfalso. simpl in Hid'. apply map_lookup_filter_Some in Hid' as [? _]. congruence.
  - exfalso. apply consume_update_spec in H as (o & Ho & _ & ->).
    apply lookup_insert_Some in Hid' as [[<- <-]|[_ ?]]; congruence.
Qed.

(** ** At most one consumption per creation *)

Definition unspent (t : Store) (id : string) : nat :=
  match t !! id with Some op => match op_GrantConsumedAt op with None => 1 | Some _ => 0 end | None => 0 end.

Lemma hitl_step_budget t ev t' id :
  hitl_step t ev t' →
  (unspent t' id + (if bool_decide (ev = EvConsume id) then 1 else 0) <=
   unspent t id + (if bool_decide (ev = EvCreate id) then 1 else 0))%nat.
Proof.
  intros Hs. unfold unspent at 2. destruct (t !! id) as [op|] eqn:Hid.
  - destruct (hitl_step_row _ _ _ _ _ Hs Hid) as [[Hn Hne]|(op' & Hid' & [[Hne (_ & _ & _ & Hk)]|(-> & Hc & Hc' & _)])].
    + unfold unspent. rewrite Hn, bool_decide_eq_false_2 by done. lia.
    + unfold unspent. rewrite Hid', Hk, bool_decide_eq_false_2 by done. lia.
    + unfold unspent. rewrite Hid', Hc. destruct (op_GrantConsumedAt op'); [|done].
      rewrite bool_decide_eq_true_2 by done. lia.
  - assert (ev ≠ EvConsume id) as Hne.
    { destruct Hs; try done. apply consume_update_spec in H as (o & Ho & _). congruence. }
    rewrite (bool_decide_eq_false_2 _ Hne). unfold unspent. destruct (t' !! id) as [op'|] eqn:Hid'; [|lia].
    destruct (hitl_step_new _ _ _ _ _ Hs Hid Hid') as [-> ->]. by rewrite bool_decide_eq_true_2.
Qed.

Lemma hitl_trace_budget t evs t' id :
  hitl_trace t evs t' →
  (unspent t' id + count_events (EvConsume id) evs <= unspent t id + count_events (EvCreate id) evs)%nat.
Proof.
  induction 1 as [|t ev t1 evs t2 Hs _ IH]; [unfold count_events; simpl; lia|].
  pose proof (hitl_step_budget _ _ _ id Hs) as Hb. unfold count_events in *. simpl.
  repeat case_bool_decide; simpl; lia.
Qed.

(** C6. A retry grant is spent at most once: over any interleaving of statements
    from an empty table, an identifier is consumed no more often than it was
    created. *)
Theorem grant_consumed_once evs t id :
  hitl_trace ∅ evs t → (count_events (EvConsume id) evs <= count_events (EvCreate id) evs)%nat.
Proof. intros H. pose proof (hitl_trace_budget _ _ _ id H) as Hb. unfold unspent in Hb. rewrite lookup_empty in Hb. lia. Qed.

(** A retry that succeeded: the row its update found, and what it did to it. *)
Lemma consume_Ok env1 env2 t inp t' op' :
  ConsumeRetryGrant env1 env2 t inp = (t', Ok op') →
  ∃ now version op, co_Now inp = Some now ∧ env1 t !! co_ID inp = Some op ∧
    consume_where inp now version op = true ∧
    t' = env2 (<[co_ID inp := set_consumed now (co_ConsumedBy inp) op]> (env1 t)).
Proof.
  unfold ConsumeRetryGrant. destruct (co_Now inp) as [now|]; [|done].
  destruct (consume_incomplete inp); [done|]. destruct (GetForPrincipal t _ _ _) as [op0|]; [|done].
  destruct (consume_check inp now op0); [done|].
  destruct (consume_update inp now (op_Version op0) (env1 t)) as [t1 []] eqn:Eu.
  - intros H. simplify_eq. apply consume_update_spec in Eu as (op & Hop & Hw & ->).
    by exists now, (op_Version op0), op.
  - destruct (GetForPrincipal _ _ _ _); done.
Qed.

(** Consuming is safe under interference: whatever other statements do between
    the read, the update and the last read, a grant is spent only on a row that
    is, at the moment of the update, approved, unspent, unexpired and bound to
    the same profile, principal, credential and request fingerprint; the row
    then executes under the caller's name, at a new version. *)
Theorem ConsumeRetryGrant_safe env1 env2 t inp t' op' :
  ConsumeRetryGrant env1 env2 t inp = (t', Ok op') →
  ∃ now op, co_Now inp = Some now ∧ env1 t !! co_ID inp = Some op ∧
    t' = env2 (<[co_ID inp := set_consumed now (co_ConsumedBy inp) op]> (env1 t)) ∧
    op_State op = ApprovedWaitingForRetry ∧ op_GrantConsumedAt op = None ∧
    (∃ r, op_RetryExpiresAt op = Some r ∧ now < r) ∧
    c_ProfileID (op_Columns op) = co_ProfileID inp ∧ c_PrincipalID (op_Columns op) = co_PrincipalID inp ∧
    c_AuthBindingID (op_Columns op) = co_AuthBindingID inp ∧
    c_FingerprintVersion (op_Columns op) = co_FingerprintVersion inp ∧
    c_HMACKeyID (op_Columns op) = co_HMACKeyID inp ∧
    c_RequestFingerprint (op_Columns op) = co_RequestFingerprint inp.
Proof.
  intros (now & v & op & Hnow & Hop & Hw & ->)%consume_Ok.
  apply consume_where_spec in Hw as (H1 & H2 & H3 & H4 & H5 & H6 & H7 & H8 & H9 & H10).
  exists now, op. split_and!; done.
Qed.

(** Without interference the checks decide: a complete request on an existing
    row of the principal succeeds exactly when every check passes. *)
Theorem ConsumeRetryGrant_complete t inp now op :
  co_Now inp = Some now → consume_incomplete inp = false →
  GetForPrincipal t (co_ID inp) (co_ProfileID inp) (co_PrincipalID inp) = Ok op →
  ConsumeRetryGrant id id t inp =
  match consume_check inp now op with
  | Some e => (t, Err e)
  | None => (<[co_ID inp := set_consumed now (co_ConsumedBy inp) op]> t,
             Ok (set_consumed now (co_ConsumedBy inp) op))
  end.
Proof.
  intros Hnow Hinc Hget. unfold ConsumeRetryGrant. rewrite Hnow, Hinc, Hget.
  destruct (consume_check inp now op) as [e|] eqn:Ec; [done|].
  unfold GetForPrincipal in *. destruct (t !! co_ID inp) as [op0|] eqn:Eop; [|done].
  destruct (String.eqb (c_ProfileID (op_Columns op0)) (co_ProfileID inp) &&
    String.eqb (c_PrincipalID (op_Columns op0)) (co_PrincipalID inp)) eqn:Ep; [|done]. injection Hget as <-.
  assert (consume_where inp now (op_Version op0) op0 = true) as Hw.
  { unfold consume_where. rewrite Ep, Z.eqb_refl. revert Ec. unfold consume_check.
    destruct (op_GrantConsumedAt op0); [done|]. destruct (bool_decide (op_State op0 = _)); [|done].
    destruct (op_RetryExpiresAt op0) as [r|]; [|done]. destruct (now <? r); [|done]. cbn [negb andb].
    repeat (destruct (String.eqb _ _); [|done]). done. }
  unfold consume_update, id. rewrite Eop, Hw, lookup_insert_eq. cbn [set_consumed op_Columns]. by rewrite Ep.
Qed.

(** ** No lost updates *)

Lemma hitl_trace_gone t evs t' id :
  hitl_trace t evs t' → EvCreate id ∉ evs → t !! id = None → t' !! id = None.
Proof.
  induction 1 as [|t ev t1 evs t2 Hs _ IH]; intros Hno Hid; [done|].
  apply not_elem_of_cons in Hno as [Hev Hno]. apply IH; [done|]. destruct (t1 !! id) as [o|] eqn:E; [|done].
  by destruct (hitl_step_new _ _ _ _ _ Hs Hid E) as [-> _].
Qed.

Lemma hitl_trace_row t evs t' id op op' :
  hitl_trace t evs t' → EvCreate id ∉ evs → t !! id = Some op → t' !! id = Some op' →
  op_Version op <= op_Version op' ∧ op_Columns op' = op_Columns op.
Proof.
  intros H. revert op. induction H as [|t ev t1 evs t2 Hs Htr IH]; intros op Hno Hid Hid'; [by simplify_eq|].
  apply not_elem_of_cons in Hno as [Hev Hno].
  destruct (hitl_step_row _ _ _ _ _ Hs Hid) as [[Hn _]|(op1 & Hid1 & Hcase)].
  - rewrite (hitl_trace_gone _ _ _ _ Htr Hno Hn) in Hid'. done.
  - destruct (IH op1 Hno Hid1 Hid') as [Hv Hc].
    destruct Hcase as [[_ (_ & Hv1 & Hc1 & _)]|(_ & _ & _ & _ & Hv1 & Hc1)]; split; try congruence; lia.
Qed.

Lemma Transition_Ok t tr t' op' :
  Transition t tr = (t', Ok op') →
  ∃ op, t !! tr_ID tr = Some op ∧ op_State op = tr_FromState tr ∧ op_Version op = tr_ExpectedVersion tr ∧
    t' = <[tr_ID tr := op']> t ∧ op_State op' = tr_ToState tr ∧ op_Version op' = op_Version op + 1.
Proof.
  unfold Transition. intros H. repeat (dcase_in H; try done). simplify_eq. bprop.
  match goal with H : bool_decide _ = true |- _ => apply bool_decide_eq_true in H end. eauto 10.
Qed.

(** Optimistic concurrency: of two transitions prepared from the same read of a
    row, at most one takes effect. After the first has succeeded, and whatever
    statements follow short of creating the row anew, the second reports a
    conflict and changes nothing. *)
Theorem Transition_no_lost_update t tr1 t1 op1 evs t2 tr2 :
  Transition t tr1 = (t1, Ok op1) → hitl_trace t1 evs t2 → EvCreate (tr_ID tr1) ∉ evs →
  tr_ID tr2 = tr_ID tr1 → tr_ExpectedVersion tr2 = tr_ExpectedVersion tr1 →
  ∃ e, Transition t2 tr2 = (t2, Err e).
Proof.
  intros H1 Htr Hno Hid Hver. destruct (Transition_Ok _ _ _ _ H1) as (op & _ & _ & Hv & -> & _ & Hv').
  destruct (Transition t2 tr2) as [t3 [op3|e]] eqn:E2.
  - exfalso. destruct (Transition_Ok _ _ _ _ E2) as (op2 & Hop2 & _ & Hv2 & _). rewrite Hid in Hop2.
    destruct (hitl_trace_row _ _ _ _ op1 op2 Htr Hno) as [Hle _]; [apply lookup_insert_eq|done|]. lia.
  - exists e. unfold Transition in E2. repeat (dcase_in E2; simplify_eq; try done).
Qed.

(** ** Start-up maintenance *)

(** The operation still waits for something that can happen. *)
Definition overdue (now : Z) (op : HITLOperation) : bool :=
  match op_State op with
  | SyncWaiting => c_SyncWaitDeadline (op_Columns op) <=? now
  | PendingApproval => c_ApprovalExpiresAt (op_Columns op) <=? now
  | ApprovedWaitingForRetry => due (op_RetryExpiresAt op) now
  | ExecutingUpstream => true
  | _ => false
  end.

(** What one run does to one row. *)
Definition maintained (now : Z) (op : HITLOperation) : option HITLOperation :=
  let r := now + hitlOperationTerminalRetention in
  if purgeable now op then None
  else if negb (overdue now op) then Some op
  else Some match op_State op with
            | SyncWaiting => set_terminal ClientDisconnected now r "" false "" op
            | PendingApproval => set_terminal Expired now r "approval_ttl_expired" false "" op
            | ApprovedWaitingForRetry => set_terminal Expired now r "approved_retry_ttl_expired" false "" op
            | _ => set_terminal UpstreamFailed now r "" true
                     "gateway restarted while HITL operation was executing upstream" op
            end.

(** The effect of one statement on one row. *)
Definition close_row from to now r reason called err (extra : HITLOperation -> bool) op : HITLOperation :=
  if bool_decide (op_State op = from) && extra op then set_terminal to now r reason called err op else op.

Lemma close_row_hit from to now r reason called err extra op :
  op_State op = from → extra op = true →
  close_row from to now r reason called err extra op = set_terminal to now r reason called err op.
Proof. intros H1 H2. unfold close_row. by rewrite bool_decide_eq_true_2, H2. Qed.

Lemma close_row_miss from to now r reason called err extra op :
  op_State op ≠ from ∨ extra op = false → close_row from to now r reason called err extra op = op.
Proof.
  unfold close_row. intros [H| ->]; [by rewrite bool_decide_eq_false_2|]. by rewrite andb_false_r.
Qed.

Lemma updateTerminal_lookup from to now r reason called err extra t id :
  (updateTerminalStateWhere from to now r reason called err extra t).1 !! id =
  close_row from to now r reason called err extra <$> t !! id.
Proof. unfold updateTerminalStateWhere. simpl. apply lookup_fmap. Qed.

Lemma purge_lookup now t id :
  (PurgeTerminalOperations now t).1 !! id = t !! id ≫= λ op, if purgeable now op then None else Some op.
Proof.
  unfold PurgeTerminalOperations. simpl. destruct (t !! id) as [op|] eqn:E; simpl.
  - destruct (purgeable now op) eqn:Ep.
    + apply map_lookup_filter_None_2. right. intros x Hx. simplify_eq/=. by rewrite Ep.
    + by apply map_lookup_filter_Some_2.
  - apply map_lookup_filter_None_2. by left.
Qed.

Lemma purgeable_new now to reason called err op :
  purgeable now (set_terminal to now (now + hitlOperationTerminalRetention) reason called err op) = false.
Proof.
  unfold purgeable, due. simpl. rewrite andb_comm.
  rewrite (proj2 (Z.leb_gt _ _)); [done|]. unfold hitlOperationTerminalRetention. lia.
Qed.

Lemma startup_lookup now t id :
  (runHITLOperationStartupMaintenance now t).1 !! id = t !! id ≫= maintained now.
Proof.
  unfold runHITLOperationStartupMaintenance, RecoverStaleInProgressOperations, ExpireDueOperations,
    updateTerminalByDeadline, retention_expires.
  change (0 <? hitlOperationTerminalRetention) with true. cbv iota zeta.
  repeat match goal with
  | |- context [updateTerminalStateWhere ?a ?b ?c ?d ?e ?f ?g ?h ?i] =>
      let E := fresh in pose proof (updateTerminal_lookup a b c d e f g h i id) as E;
      destruct (updateTerminalStateWhere a b c d e f g h i); cbn [fst] in E
  end.
  match goal with |- context [PurgeTerminalOperations ?n ?x] => pose proof (purge_lookup n x id) as Hp end.
  destruct (PurgeTerminalOperations _ _) as [t5 n5]. cbn [fst] in *. rewrite Hp.
  repeat match goal with H : _ !! id = _ <$> _ |- _ => rewrite H; clear H end.
  destruct (t !! id) as [op|]; [|done]. cbn [fmap option_fmap option_map mbind option_bind]. unfold maintained, overdue.
  assert (isTerminalHITLOperationState (op_State op) = false → purgeable now op = false) as Hnp
    by (unfold purgeable; by intros ->).
  destruct (op_State op) eqn:Es; try rewrite (Hnp eq_refl); clear Hnp; cbn [due negb];
    try (destruct (_ <=? now) eqn:Ed); try (destruct (due (op_RetryExpiresAt op) now) eqn:Er);
    repeat match goal with
    | |- context [close_row ?a ?b ?c ?d ?e ?f ?g ?h op] =>
        first [ rewrite (close_row_hit a b c d e f g h op) by (done || cbn [due]; done)
              | rewrite (close_row_miss a b c d e f g h op) by (first [left; congruence | right; done]) ]
    | |- context [close_row ?a ?b ?c ?d ?e ?f ?g ?h (set_terminal ?i ?j ?k ?l ?m ?n op)] =>
        rewrite (close_row_miss a b c d e f g h (set_terminal i j k l m n op)) by (left; done)
    end; rewrite ?purgeable_new; cbn [negb]; try done.
  all: try (assert (purgeable now op = false) as -> by (unfold purgeable; by rewrite Es)); done.
Qed.

(** Start-up maintenance: afterwards no operation is left executing or waiting
    past its deadline; an operation that was not overdue and not due for purging
    is unchanged; an overdue one is closed, its grant state intact, at a new
    version; and only a closed operation whose retention has elapsed is deleted. *)
Theorem startup_maintenance_correct now t id :
  let t' := (runHITLOperationStartupMaintenance now t).1 in
  (∀ op', t' !! id = Some op' → overdue now op' = false) ∧
  (∀ op, t !! id = Some op → overdue now op = false → purgeable now op = false → t' !! id = Some op) ∧
  (∀ op, t !! id = Some op → overdue now op = true →
     ∃ op', t' !! id = Some op' ∧ isTerminalHITLOperationState (op_State op') = true ∧ row_kept op op' ∧
       op_Version op' = op_Version op + 1) ∧
  (∀ op, t !! id = Some op → t' !! id = None →
     isTerminalHITLOperationState (op_State op) = true ∧
     ∃ r, op_TerminalRetentionExpiresAt op = Some r ∧ r <= now).
Proof.
  cbv zeta. rewrite startup_lookup.
  assert (∀ op, overdue now op = true → purgeable now op = false) as Hop.
  { intros op. unfold overdue, purgeable. by destruct (op_State op). }
  destruct (t !! id) as [op|]; simpl; [|by split_and!].
  unfold maintained. destruct (purgeable now op) eqn:Ep.
  - split; [done|]. split; [intros ? [= <-]; congruence|]. split; [intros ? [= <-] Ho; by rewrite Hop in Ep|].
    intros ? [= <-] _. unfold purgeable in Ep. bprop. split; [done|].
    unfold due in *. destruct (op_TerminalRetentionExpiresAt op) as [r|]; [|done]. bprop. eauto.
  - destruct (overdue now op) eqn:Eo; cbn [negb].
    + split; [intros op' [= <-]; unfold overdue in *; by destruct (op_State op)|].
      split; [intros ? [= <-]; congruence|]. split; [|done].
      intros ? [= <-] _. eexists. split; [done|]. unfold overdue in Eo.
      destruct (op_State op); try done; (split; [done|]; split; [|done]); repeat split; simpl; lia.
    + split; [by intros op' [= <-]|]. split; [done|]. split; [|done]. intros ? [= <-]; congruence.
Qed.

(** An operator's decision does not look at the state or the deadline of the
    operation: for a stored operation in any known state (denied and expired
    ones too) and past its approval deadline or not, an approval makes it a
    retry grant that is valid from now on, and a refusal denies it. *)
Theorem resolveAsyncHITLGrant_unconditional t id op allow now :
  t !! id = Some op → op_ID op = id → id ≠ "" → 0 < op_Version op →
  isKnownHITLOperationState (op_State op) = true →
  ∃ op', resolveAsyncHITLGrant (λ t, t) t id allow now = (<[id := op']> t, Ok op') ∧
    op_Version op' = op_Version op + 1 ∧ op_Columns op' = op_Columns op ∧
    op_GrantConsumedAt op' = op_GrantConsumedAt op ∧
    if allow then op_State op' = ApprovedWaitingForRetry ∧ ∃ r, op_RetryExpiresAt op' = Some r ∧ now < r
    else op_State op' = Denied ∧ op_TerminalAt op' = Some now.
Proof.
  intros Hop Hid Hne Hv Hk. unfold resolveAsyncHITLGrant, get. rewrite Hop. unfold Transition. cbn [resolve_transition tr_Now tr_ID tr_FromState tr_ToState tr_ExpectedVersion].
  rewrite Hid, Hop, Hk. unfold is_empty. rewrite (proj2 (String.eqb_neq id "")) by done.
  rewrite (proj2 (Z.leb_gt _ _)) by done.
  assert (state_is_empty (op_State op) = false) as -> by (unfold state_is_empty; apply bool_decide_eq_false_2; by intros Heq; rewrite Heq in Hk).
  assert (isKnownHITLOperationState (if allow then ApprovedWaitingForRetry else Denied) = true) as -> by (by destruct allow).
  assert (state_is_empty (if allow then ApprovedWaitingForRetry else Denied) = false) as -> by (by destruct allow).
  rewrite bool_decide_eq_true_2, Z.eqb_refl by done. cbn [orb negb andb].
  eexists. split; [done|]. do 3 (split; [done|]). destruct allow; [|done]. split; [done|].
  cbn [apply_transition resolve_transition op_RetryExpiresAt tr_RetryExpiresAt].
  destruct (op_RetryExpiresAt op) as [r|]; [destruct (now <? r) eqn:E; bprop|]; eexists; (split; [done|]);
    unfold HITLAsyncDefaultApprovedRetryTTL; lia.
Qed.

(** ** Witnesses *)

Definition demo_columns : OpColumns :=
  mkColumns "dev" "agent-1" "api" "review" "alice" "POST" "https" "api.example.com" "/v1" "" "" "credential:v1:x"
    "v1" "hitl-hmac:v1" "hmac-sha256:aa" "" 0 0 0.

Definition demo_create : HITLOperationCreate :=
  mkCreate "op1" PendingApproval demo_columns "" (Some 1) (Some 10) (Some 100) (Some 1000).

Definition demo_hash (s : string) : string := "h" +:+ s.

Definition demo_op : HITLOperation :=
  mkOp "op1" PendingApproval 1 (set_hash demo_columns "htoken" 1 10 100) (Some 1000) "" None None false None "" "" "".

Definition t_parked : Store := {["op1" := demo_op]}.

Definition demo_approve : HITLOperationTransition := resolve_transition demo_op true 50.
Definition approved_op : HITLOperation := apply_transition demo_approve 50 demo_op.
Definition t_approved : Store := <["op1" := approved_op]> t_parked.

Definition demo_consume : HITLRetryGrantConsume :=
  mkConsume "op1" "dev" "agent-1" "credential:v1:x" "v1" "hitl-hmac:v1" "hmac-sha256:aa" "agent-1" (Some 60).

Definition t_spent : Store := <["op1" := set_consumed 60 "agent-1" approved_op]> t_approved.

Lemma grant_consumed_once_witness :
  (count_events (EvConsume "op1") [EvCreate "op1"; EvOther; EvConsume "op1"; EvOther] <=
   count_events (EvCreate "op1") [EvCreate "op1"; EvOther; EvConsume "op1"; EvOther])%nat.
Proof.
  apply (grant_consumed_once _ (PurgeTerminalOperations 70 t_spent).1).
  eapply trace_cons; [apply (st_create demo_hash "x" "token" ∅ demo_create t_parked demo_op "token"); vm_compute; reflexivity|].
  eapply trace_cons; [apply (st_transition t_parked demo_approve)|].
  eapply trace_cons; [apply (st_consume demo_consume 60 2); vm_compute; reflexivity|].
  eapply trace_cons; [apply (st_purge 70)|]. apply trace_nil.
Defined.

Lemma ConsumeRetryGrant_safe_witness :
  ∃ now op, co_Now demo_consume = Some now ∧ t_approved !! "op1" = Some op ∧
    op_State op = ApprovedWaitingForRetry ∧ op_GrantConsumedAt op = None.
Proof.
  destruct (ConsumeRetryGrant_safe id id t_approved demo_consume t_spent (set_consumed 60 "agent-1" approved_op))
    as (now & op & H1 & H2 & _ & H3 & H4 & _); [vm_compute; reflexivity|]. by exists now, op.
Defined.

Lemma ConsumeRetryGrant_complete_witness :
  ConsumeRetryGrant id id t_approved demo_consume = (t_spent, Ok (set_consumed 60 "agent-1" approved_op)).
Proof.
  rewrite (ConsumeRetryGrant_complete t_approved demo_consume 60 approved_op); vm_compute; reflexivity.
Defined.

Lemma Transition_no_lost_update_witness :
  ∃ e, Transition t_approved (resolve_transition demo_op false 51) = (t_approved, Err e).
Proof.
  apply (Transition_no_lost_update t_parked demo_approve t_approved approved_op [] t_approved);
    [vm_compute; reflexivity|apply trace_nil|set_solver|reflexivity|reflexivity].
Defined.

Lemma startup_maintenance_correct_witness :
  overdue 5000 approved_op = true ∧
  ∃ op', (runHITLOperationStartupMaintenance 5000 t_approved).1 !! "op1" = Some op' ∧
    isTerminalHITLOperationState (op_State op') = true.
Proof.
  split; [reflexivity|].
  destruct (startup_maintenance_correct 5000 t_approved "op1") as (_ & _ & H & _).
  destruct (H approved_op) as (op' & H1 & H2 & _); [reflexivity|reflexivity|]. exists op'. split; [exact H1|exact H2].
Defined.

(** Approved 400 time units after its approval deadline. *)
Lemma resolveAsyncHITLGrant_unconditional_witness :
  c_ApprovalExpiresAt (op_Columns demo_op) = 100 ∧
  ∃ op', resolveAsyncHITLGrant (λ t, t) t_parked "op1" true 500 = (<["op1" := op']> t_parked, Ok op') ∧
    op_State op' = ApprovedWaitingForRetry.
Proof.
  split; [reflexivity|].
  destruct (resolveAsyncHITLGrant_unconditional t_parked "op1" demo_op true 500) as (op' & H1 & _ & _ & _ & H2 & _);
    [reflexivity|reflexivity|discriminate|reflexivity|reflexivity|]. by exists op'.
Defined.
