(* ===== verification/Fingerprint.v ===== *)
(** * Request fingerprints: [cmd/clawpatrol/hitl_fingerprint.go]

    The canonical encoding of a request, its keyed fingerprint, the binding to a
    credential, and the two users of them: parking a request
    ([maybeStartAsyncHITLOperation]) and spending its grant on a retry
    ([consumeHITLRetryGrantForRequest]). HMAC-SHA-256, SHA-256 and base64 are
    parameters. *)
From S2P Require Import Prelude GoStrings GoHttp NetAddr HostMatch Policy Dispatch HitlStore.

Definition HITLFingerprintVersionV1 : string := "v1".
Definition hitlRequestFingerprintDomainV1 : string := "clawpatrol hitl request fingerprint v1".
Definition hitlBodyFingerprintDomainV1 : string := "clawpatrol hitl body fingerprint v1".

Record HITLFingerprintKey := mkKey { key_ID : string; key_Root : string }.
Record HITLFingerprintHeader := mkHeader { h_Name : string; h_Values : list string }.

Record FingerprintInput := mkInput {
  in_Key : HITLFingerprintKey;
  in_ProfileID : string;
  in_PrincipalID : string;
  in_EndpointID : string;
  in_ApprovalRuleID : string;
  in_Method : string;
  in_Scheme : string;
  in_Host : string;
  in_Path : string;
  in_RawQuery : string;
  in_SelectedHeaders : list HITLFingerprintHeader;
  in_RawBody : string;
  in_AuthBindingID : string
}.

Record FingerprintResult := mkFingerprint {
  fp_Version : string;
  fp_HMACKeyID : string;
  fp_BodyHMAC : string;
  fp_RequestFingerprint : string
}.

Inductive FingerprintError :=
| MissingField
| MissingRootKey
| EmptyHeaderName
| ForbiddenHeader (name : string)
| DuplicateHeader (name : string).

(** ** Headers *)

Definition isForbiddenHITLFingerprintHeader (name : string) : bool :=
  let name := ToLower name in
  existsb (Contains name) ["auth"; "token"; "secret"; "key"; "password"; "cookie"] ||
  existsb (String.eqb name) ["user-agent"; "date"; "x-request-id"; "traceparent"; "via"; "connection";
                             "transfer-encoding"; "accept-encoding"] ||
  HasPrefix name "x-b3-".

Fixpoint select_headers (headers : gmap string (list string)) (allowlist : list string) (seen : gset string)
    : result (list HITLFingerprintHeader) FingerprintError :=
  match allowlist with
  | [] => Ok []
  | name :: rest =>
      let name := ToLower (TrimSpace name) in
      if String.eqb name "" then Err EmptyHeaderName
      else if isForbiddenHITLFingerprintHeader name then Err (ForbiddenHeader name)
      else if bool_decide (name ∈ seen) then Err (DuplicateHeader name)
      else
        let? sel := select_headers headers rest ({[name]} ∪ seen) in
        match header_Values headers name with
        | [] => Ok sel
        | values => Ok (mkHeader name (TrimSpace <$> values) :: sel)
        end
  end.

Definition SelectHITLFingerprintHeaders (headers : gmap string (list string)) (allowlist : list string)
    : result (list HITLFingerprintHeader) FingerprintError :=
  select_headers headers allowlist ∅.

Fixpoint normalizeHITLFingerprintHeaders (l : list HITLFingerprintHeader)
    : result (list HITLFingerprintHeader) FingerprintError :=
  match l with
  | [] => Ok []
  | h :: rest =>
      let name := ToLower (TrimSpace (h_Name h)) in
      if String.eqb name "" then Err EmptyHeaderName
      else if isForbiddenHITLFingerprintHeader name then Err (ForbiddenHeader name)
      else let? out := normalizeHITLFingerprintHeaders rest in Ok (mkHeader name (TrimSpace <$> h_Values h) :: out)
  end.

(** ** The canonical encoding *)

Definition newline : ascii := ascii_of_nat 10.

Definition writeHITLCanonicalField (name value : string) : string :=
  Itoa (String.length name) +:+ String ":" (name +:+ String "="
    (Itoa (String.length value) +:+ String ":" (value +:+ String newline ""))).

Definition encode_values (l : list string) : string :=
  foldr (λ v rest, writeHITLCanonicalField "selected_header_value" (TrimSpace v) +:+ rest) "" l.

Definition encode_header (h : HITLFingerprintHeader) : string :=
  writeHITLCanonicalField "selected_header_name" (ToLower (h_Name h)) +:+
  (writeHITLCanonicalField "selected_header_value_count" (Itoa (length (h_Values h))) +:+ encode_values (h_Values h)).

Definition encode_headers (l : list HITLFingerprintHeader) : string := foldr (λ h rest, encode_header h +:+ rest) "" l.

(** The fields before the headers, in order. *)
Definition leading_fields (i : FingerprintInput) : list (string * string) :=
  [("fingerprint_version", HITLFingerprintVersionV1); ("profile_id", in_ProfileID i);
   ("principal_id", in_PrincipalID i); ("endpoint_id", in_EndpointID i);
   ("approval_rule_id", in_ApprovalRuleID i); ("method", ToUpper (in_Method i));
   ("scheme", ToLower (in_Scheme i)); ("host", ToLower (in_Host i)); ("path", in_Path i);
   ("raw_query", in_RawQuery i); ("selected_header_count", Itoa (length (in_SelectedHeaders i)))].

Definition encode_fields (l : list (string * string)) (tail : string) : string :=
  foldr (λ '(n, v) rest, writeHITLCanonicalField n v +:+ rest) tail l.

Definition canonicalHITLRequestV1 (i : FingerprintInput) (bodyHMAC : string) : string :=
  encode_fields (leading_fields i)
    (encode_headers (in_SelectedHeaders i) +:+
     encode_fields [("body_hmac", bodyHMAC); ("auth_binding_id", in_AuthBindingID i)] "").

(** [hex.EncodeToString]. *)
Fixpoint hex_encode (s : string) : string :=
  match s with
  | EmptyString => ""
  | String c s' =>
      let n := Z.of_N (N_of_ascii c) in
      String (hex_digit (n / 16)) (String (hex_digit (n mod 16)) (hex_encode s'))
  end.

(** ** Fingerprints *)

Section Fingerprint.
(** HMAC-SHA-256 of a message under a key; SHA-256; raw URL base64. *)
Context (hmac : string -> string -> string) (sha256 : string -> string) (base64 : string -> string).

Definition deriveHITLHMACKey (root domain : string) : string := hmac root domain.

Definition validateHITLFingerprintInput (i : FingerprintInput) : result unit FingerprintError :=
  if existsb (λ v, String.eqb (TrimSpace v) "")
       [key_ID (in_Key i); in_ProfileID i; in_PrincipalID i; in_EndpointID i; in_ApprovalRuleID i; in_Method i;
        in_Scheme i; in_Host i; in_Path i; in_AuthBindingID i]
  then Err MissingField
  else if String.eqb (key_Root (in_Key i)) "" then Err MissingRootKey
  else Ok tt.

Definition set_headers (i : FingerprintInput) (l : list HITLFingerprintHeader) : FingerprintInput :=
  mkInput (in_Key i) (in_ProfileID i) (in_PrincipalID i) (in_EndpointID i) (in_ApprovalRuleID i) (in_Method i)
    (in_Scheme i) (in_Host i) (in_Path i) (in_RawQuery i) l (in_RawBody i) (in_AuthBindingID i).

Definition body_hmac (i : FingerprintInput) : string :=
  "hmac-sha256:" +:+ hex_encode (hmac (deriveHITLHMACKey (key_Root (in_Key i)) hitlBodyFingerprintDomainV1) (in_RawBody i)).

Definition request_key (i : FingerprintInput) : string :=
  deriveHITLHMACKey (key_Root (in_Key i)) hitlRequestFingerprintDomainV1.

Definition ComputeHITLRequestFingerprint (i : FingerprintInput) : result FingerprintResult FingerprintError :=
  let? _ := validateHITLFingerprintInput i in
  let? headers := normalizeHITLFingerprintHeaders (in_SelectedHeaders i) in
  let i := set_headers i headers in
  Ok (mkFingerprint HITLFingerprintVersionV1 (key_ID (in_Key i)) (body_hmac i)
        ("hmac-sha256:" +:+ hex_encode (hmac (request_key i) (canonicalHITLRequestV1 i (body_hmac i))))).

Definition BuildHITLCredentialAuthBindingID (profileID credentialID generation subjectID : string)
    : result string FingerprintError :=
  if existsb (String.eqb "") [profileID; credentialID; generation] then Err MissingField
  else Ok ("credential:v1:" +:+ base64 (sha256
         (encode_fields [("kind", "credential"); ("version", HITLFingerprintVersionV1); ("profile_id", profileID);
                         ("credential_id", credentialID); ("generation", generation); ("subject_id", subjectID)] ""))).

(** The latest [updated_ns] of the credential's secrets and of its OAuth row. *)
Definition hitlCredentialGeneration (secretNS oauthNS : option Z) (credentialID : string) : string :=
  match secretNS with
  | Some s => if 0 <? s then "credential-secret:" +:+ Itoa (Z.to_nat s)
              else match oauthNS with
                   | Some o => if 0 <? o then "oauth-credential:" +:+ Itoa (Z.to_nat o) else "env-or-empty:" +:+ credentialID
                   | None => "env-or-empty:" +:+ credentialID
                   end
  | None => match oauthNS with
            | Some o => if 0 <? o then "oauth-credential:" +:+ Itoa (Z.to_nat o) else "env-or-empty:" +:+ credentialID
            | None => "env-or-empty:" +:+ credentialID
            end
  end.

(** The credential store: latest secret and OAuth updates by name. *)
Record CredentialTimes := mkTimes { ct_secret : string -> option Z; ct_oauth : string -> option Z }.

Definition buildHITLAuthBindingID (db : CredentialTimes) (profileID : string) (cc : option CompiledCredential)
    : result string FingerprintError :=
  match cc with
  | Some c =>
      let id := ent_Name (cc_Credential c) in
      BuildHITLCredentialAuthBindingID profileID id (hitlCredentialGeneration (ct_secret db id) (ct_oauth db id) id) ""
  | None => BuildHITLCredentialAuthBindingID profileID "none" "none" ""
  end.

(** ** Parking a request and retrying it *)

(** What the relay knows of an HTTP request. *)
Record HTTPRequest := mkHTTP {
  http_Method : string;
  http_Host : string;
  http_Path : string;
  http_EscapedPath : string;
  http_RawQuery : string;
  http_Headers : gmap string (list string)
}.

(** The approver's async settings. *)
Record AsyncApprover := mkApprover {
  ap_Enabled : bool;
  ap_SyncWait : Z;
  ap_ApprovalTTL : Z;
  ap_RetryTTL : Z;
  ap_MaxBody : Z;
  ap_FingerprintBody : string
}.

Inductive RelayHitlError := FpError (e : FingerprintError) | StError (e : StoreError).

Definition lift_fp {A} (r : result A FingerprintError) : result A RelayHitlError :=
  match r with Ok a => Ok a | Err e => Err (FpError e) end.
Definition lift_st {A} (r : result A StoreError) : result A RelayHitlError :=
  match r with Ok a => Ok a | Err e => Err (StError e) end.

Definition fingerprint_input (key : HITLFingerprintKey) (profile principal : string) (ep : CompiledEndpoint)
    (rule : CompiledRule) (r : HTTPRequest) (headers : list HITLFingerprintHeader) (body binding : string)
    : FingerprintInput :=
  mkInput key profile principal (ep_Name ep) (rule_Name rule) (http_Method r) "https" (http_Host r) (http_Path r)
    (http_RawQuery r) headers body binding.

(** [maybeStartAsyncHITLOperation] once its database, policy and pointers are
    present. [Ok None]: not eligible for a grant. *)
Definition maybeStartAsyncHITLOperation (newID minted : string) (db : CredentialTimes) (key : HITLFingerprintKey)
    (publicURL : string) (policy : CompiledPolicy) (profile principal : string) (ep : CompiledEndpoint)
    (rule : CompiledRule) (approverID : string) (ap : AsyncApprover) (req : Request) (r : HTTPRequest)
    (body : string) (truncated : bool) (now : Z) (t : Store)
    : Store * result (option (HITLOperation * string)) RelayHitlError :=
  if String.eqb publicURL "" || String.eqb profile "" || String.eqb principal "" || String.eqb approverID ""
  then (t, Ok None)
  else if negb (match pol_Profiles policy !! profile with Some p => prof_HITLAsyncGrants p | None => false end) ||
          negb (ap_Enabled ap)
  then (t, Ok None)
  else if ap_SyncWait ap <=? 0 then (t, Ok None)
  else if negb (String.eqb (ap_FingerprintBody ap) "raw") || truncated || (ap_MaxBody ap <? Z.of_nat (String.length body))
  then (t, Ok None)
  else
    match buildHITLAuthBindingID db profile (ResolveCredential (Some policy) profile (Some ep) (Some req)) with
    | Err e => (t, Err (FpError e))
    | Ok binding =>
        match SelectHITLFingerprintHeaders (http_Headers r) [] with
        | Err e => (t, Err (FpError e))
        | Ok headers =>
            match ComputeHITLRequestFingerprint
                    (fingerprint_input key profile principal ep rule r headers body binding) with
            | Err e => (t, Err (FpError e))
            | Ok fp =>
                let columns := mkColumns profile principal (ep_Name ep) (rule_Name rule) approverID (http_Method r)
                                 "https" (http_Host r) (http_EscapedPath r) "" "" binding (fp_Version fp)
                                 (fp_HMACKeyID fp) (fp_RequestFingerprint fp) "" 0 0 0 in
                match Create (λ tok, hex_encode (sha256 tok)) newID minted t
                        (mkCreate "" SyncWaiting columns "" (Some now) (Some (now + ap_SyncWait ap))
                           (Some (now + ap_ApprovalTTL ap)) (Some (now + ap_RetryTTL ap))) with
                | (t', Ok op) => (t', Ok (Some op))
                | (t', Err e) => (t', Err (StError e))
                end
            end
        end
    end.

(** [consumeHITLRetryGrantForRequest] with its pointers present. *)
Definition consumeHITLRetryGrantForRequest (env1 env2 : Store -> Store) (db : CredentialTimes)
    (key : HITLFingerprintKey) (policy : CompiledPolicy) (operationID profile principal : string)
    (ep : CompiledEndpoint) (rule : CompiledRule) (req : Request) (r : HTTPRequest) (body : string)
    (truncated : bool) (now : Z) (t : Store) : Store * result HITLOperation RelayHitlError :=
  if String.eqb operationID "" || truncated then (t, Err (StError ErrRetryMismatch))
  else
    match buildHITLAuthBindingID db profile (ResolveCredential (Some policy) profile (Some ep) (Some req)) with
    | Err e => (t, Err (FpError e))
    | Ok binding =>
        match ComputeHITLRequestFingerprint (fingerprint_input key profile principal ep rule r [] body binding) with
        | Err e => (t, Err (FpError e))
        | Ok fp =>
            let '(t', res) := ConsumeRetryGrant env1 env2 t
              (mkConsume operationID profile principal binding (fp_Version fp) (fp_HMACKeyID fp)
                 (fp_RequestFingerprint fp) principal (Some now)) in
            (t', lift_st res)
        end
    end.
End Fingerprint.

(** ** The encoding is injective *)

Lemma field_inj n v v' r r' :
  writeHITLCanonicalField n v +:+ r = writeHITLCanonicalField n v' +:+ r' → v = v' ∧ r = r'.
Proof.
  assert (∀ k w x, writeHITLCanonicalField k w +:+ x = Itoa (String.length k) +:+ String ":" (k +:+ String "="
    (Itoa (String.length w) +:+ String ":" (w +:+ String newline x)))) as Hw.
  { intros k w x. unfold writeHITLCanonicalField. rewrite !str_app_assoc. cbn [String.append].
    rewrite !str_app_assoc. cbn [String.append]. rewrite !str_app_assoc. cbn [String.append].
    rewrite !str_app_assoc. done. }
  rewrite !Hw. clear Hw. intros H. apply str_app_inj_l in H. injection H as H. apply str_app_inj_l in H.
  injection H as H. apply cut_inj in H as [Hl H]; [|by apply digits_no_byte, Itoa_digits..].
  apply Itoa_inj in Hl. apply str_app_inj_len in H as [-> H]; [|done]. by injection H as ->.
Qed.

#[local] Opaque writeHITLCanonicalField.

Lemma encode_fields_app l a b : encode_fields l a +:+ b = encode_fields l (a +:+ b).
Proof. induction l as [|[n v] l IH]; simpl; [done|]. by rewrite str_app_assoc, IH. Qed.

Lemma encode_fields_inj l l' t t' :
  l.*1 = l'.*1 → encode_fields l t = encode_fields l' t' → l = l' ∧ t = t'.
Proof.
  revert l'. induction l as [|[n v] l IH]; intros [|[n' v'] l'] Hn; simplify_eq/=; [done|].
  intros [-> H]%field_inj. by destruct (IH l' H0 H) as [-> ->].
Qed.

Lemma encode_values_inj l l' t t' :
  length l = length l' → encode_values l +:+ t = encode_values l' +:+ t' →
  TrimSpace <$> l = TrimSpace <$> l' ∧ t = t'.
Proof.
  revert l'. induction l as [|v l IH]; intros [|v' l'] Hl; simplify_eq/=; [done|].
  rewrite !str_app_assoc. intros [Hv H]%field_inj. destruct (IH l' Hl H) as [-> ->]. by rewrite Hv.
Qed.

(** A header up to the letter case of its name and outer blanks of its values. *)
Definition header_norm (h : HITLFingerprintHeader) : string * list string := (ToLower (h_Name h), TrimSpace <$> h_Values h).

Lemma encode_headers_inj l l' t t' :
  length l = length l' → encode_headers l +:+ t = encode_headers l' +:+ t' →
  header_norm <$> l = header_norm <$> l' ∧ t = t'.
Proof.
  revert l'. induction l as [|h l IH]; intros [|h' l'] Hl; simplify_eq/=; [done|].
  unfold encode_header. rewrite !str_app_assoc. intros [Hn H]%field_inj.
  apply field_inj in H as [Hc H]. apply Itoa_inj in Hc.
  apply encode_values_inj in H as [Hv H]; [|done]. destruct (IH l' Hl H) as [-> ->].
  split; [|done]. unfold header_norm at 1 3. by rewrite Hn, Hv.
Qed.

(** What a fingerprint sees of a request. *)
Definition request_view (i : FingerprintInput) :=
  (in_ProfileID i, in_PrincipalID i, in_EndpointID i, in_ApprovalRuleID i,
   (ToUpper (in_Method i), ToLower (in_Scheme i), ToLower (in_Host i), in_Path i, in_RawQuery i),
   header_norm <$> in_SelectedHeaders i, in_AuthBindingID i).

Lemma canonical_inj i j b c :
  canonicalHITLRequestV1 i b = canonicalHITLRequestV1 j c → request_view i = request_view j ∧ b = c.
Proof.
  unfold canonicalHITLRequestV1. intros H. apply encode_fields_inj in H as [Hl H]; [|done].
  injection Hl as H1 H2 H3 H4 H5 H6 H7 H8 H9 H10. apply Itoa_inj in H10.
  apply encode_headers_inj in H as [Hh H]; [|done]. apply encode_fields_inj in H as [Ht _]; [|done].
  injection Ht as Hb Ha. split; [|done]. unfold request_view. congruence.
Qed.

Lemma hex_digit_inj a b : 0 <= a < 16 → 0 <= b < 16 → hex_digit a = hex_digit b → a = b.
Proof.
  assert (∀ d, 0 <= d < 16 → Z.of_N (N_of_ascii (hex_digit d)) = (if d <? 10 then 48 + d else 87 + d)) as Hv.
  { intros d Hd. unfold hex_digit. set (n := if d <? 10 then _ else _).
    assert (0 <= n < 256) by (unfold n; destruct (d <? 10); lia).
    rewrite <- Nat2N.id at 1 || idtac. unfold ascii_of_nat. rewrite N_ascii_embedding by lia. lia. }
  intros Ha Hb H. apply (f_equal (λ c, Z.of_N (N_of_ascii c))) in H. rewrite !Hv in H by done.
  destruct (a <? 10) eqn:E1, (b <? 10) eqn:E2; bprop; lia.
Qed.

Lemma hex_encode_inj a b : hex_encode a = hex_encode b → a = b.
Proof.
  revert b. induction a as [|c a IH]; intros [|d b]; cbn [hex_encode]; try done. intros [= H1 H2 H3].
  assert (∀ x, 0 <= Z.of_N (N_of_ascii x) < 256) as Hr.
  { intros x. pose proof (N_ascii_bounded x). lia. }
  pose proof (Hr c). pose proof (Hr d).
  apply hex_digit_inj in H1; [|split; [apply Z.div_pos|apply Z.div_lt_upper_bound]; lia..].
  apply hex_digit_inj in H2; [|apply Z.mod_pos_bound; lia..].
  rewrite (IH b H3). f_equal.
  assert (Z.of_N (N_of_ascii c) = Z.of_N (N_of_ascii d)) as Heq.
  { rewrite (Z.div_mod (Z.of_N (N_of_ascii c)) 16), (Z.div_mod (Z.of_N (N_of_ascii d)) 16) by lia. congruence. }
  apply N2Z.inj in Heq. rewrite <- (ascii_N_embedding c), <- (ascii_N_embedding d). by rewrite Heq.
Qed.
