(* ===== verification/FingerprintProps.v ===== *)
(** * An approval covers one request

    From the request a human saw to the retry that spends the grant: the retry
    is the same request, or the keyed hash collides. *)
From S2P Require Import Prelude GoStrings NetAddr HostMatch Policy Dispatch HitlStore HitlProps Fingerprint.

Section Bound.
Context (hmac : string -> string -> string) (sha256 : string -> string) (base64 : string -> string).

(** Two different messages with the same code under the same key. *)
Definition collision (key m1 m2 : string) : Prop := m1 ≠ m2 ∧ hmac key m1 = hmac key m2.

Definition body_key (i : FingerprintInput) : string :=
  deriveHITLHMACKey hmac (key_Root (in_Key i)) hitlBodyFingerprintDomainV1.

Definition normalized (i : FingerprintInput) : FingerprintInput :=
  match normalizeHITLFingerprintHeaders (in_SelectedHeaders i) with Ok l => set_headers i l | Err _ => i end.

Definition canonical (i : FingerprintInput) : string :=
  canonicalHITLRequestV1 (normalized i) (body_hmac hmac (normalized i)).

Lemma Compute_Ok i f :
  ComputeHITLRequestFingerprint hmac i = Ok f →
  fp_Version f = HITLFingerprintVersionV1 ∧ fp_HMACKeyID f = key_ID (in_Key i) ∧
  fp_RequestFingerprint f = "hmac-sha256:" +:+ hex_encode (hmac (request_key hmac i) (canonical i)).
Proof.
  unfold ComputeHITLRequestFingerprint, canonical, normalized. destruct (validateHITLFingerprintInput i); [|done].
  destruct (normalizeHITLFingerprintHeaders (in_SelectedHeaders i)); [|done]. intros [= <-]. done.
Qed.

Lemma body_hmac_normalized i : body_hmac hmac (normalized i) = body_hmac hmac i.
Proof. unfold normalized. by destruct (normalizeHITLFingerprintHeaders _). Qed.

Lemma fingerprint_eq i j f g :
  ComputeHITLRequestFingerprint hmac i = Ok f → ComputeHITLRequestFingerprint hmac j = Ok g →
  key_Root (in_Key i) = key_Root (in_Key j) → fp_RequestFingerprint f = fp_RequestFingerprint g →
  (request_view (normalized i) = request_view (normalized j) ∧ in_RawBody i = in_RawBody j) ∨
  collision (request_key hmac i) (canonical i) (canonical j) ∨
  collision (body_key i) (in_RawBody i) (in_RawBody j).
Proof.
  intros (_ & _ & Hf)%Compute_Ok (_ & _ & Hg)%Compute_Ok Hroot Hfg.
  rewrite Hf, Hg in Hfg. apply str_app_inj_l, hex_encode_inj in Hfg.
  assert (request_key hmac j = request_key hmac i) as Hk by (unfold request_key; by rewrite Hroot).
  rewrite Hk in Hfg. destruct (decide (canonical i = canonical j)) as [Hc|Hc]; [|by right; left].
  unfold canonical in Hc. apply canonical_inj in Hc as [Hv Hb].
  rewrite !body_hmac_normalized in Hb. unfold body_hmac in Hb. apply str_app_inj_l, hex_encode_inj in Hb.
  destruct (decide (in_RawBody i = in_RawBody j)) as [|Hne]; [by left|]. right. right. split; [done|].
  unfold body_key. by rewrite Hroot in *.
Qed.

(** Equal fingerprints under one root key mean the same profile, principal,
    endpoint, rule, method, scheme, host, path, query, selected headers,
    credential binding and body (up to letter case where HTTP ignores it and
    outer blanks of header values), or exhibit a collision of the keyed hash. *)
Theorem fingerprint_binds_request i j f g :
  ComputeHITLRequestFingerprint hmac i = Ok f → ComputeHITLRequestFingerprint hmac j = Ok g →
  key_Root (in_Key i) = key_Root (in_Key j) → fp_RequestFingerprint f = fp_RequestFingerprint g →
  (request_view (normalized i) = request_view (normalized j) ∧ in_RawBody i = in_RawBody j) ∨
  collision (request_key hmac i) (canonical i) (canonical j) ∨
  collision (body_key i) (in_RawBody i) (in_RawBody j).
Proof. apply fingerprint_eq. Qed.

Lemma Create_columns hash newID minted t inp t' op token :
  Create hash newID minted t inp = (t', Ok (op, token)) →
  t' !! op_ID op = Some op ∧ ∃ h c s a, op_Columns op = set_hash (cr_Columns inp) h c s a.
Proof.
  intros H. destruct (Create_spec _ _ _ _ _ _ _ _ H) as (_ & -> & _). split; [apply lookup_insert_eq|].
  unfold Create in H. cbv zeta in H. destruct (if is_empty (cr_StatusToken inp) && _ then _ else _) as [tok h].
  destruct (validateHITLOperationCreate _ _ _ _) as [[[c s] ap]|]; [|done].
  destruct (_ !! _); [done|]. simplify_eq/=. by exists h, c, s, ap.
Qed.

(** ** The credential a grant is tied to *)

(** The credential a request resolves to, with its last stored change: of its
    secret when it has one, else of its OAuth row. *)
Definition last_change (db : CredentialTimes) (id : string) : option (bool * Z) :=
  match ct_secret db id, ct_oauth db id with
  | Some s, o => if 0 <? s then Some (true, s) else
                   match o with Some o => if 0 <? o then Some (false, o) else None | None => None end
  | None, Some o => if 0 <? o then Some (false, o) else None
  | None, None => None
  end.

Definition credential_state (db : CredentialTimes) (cc : option CompiledCredential) : option (string * option (bool * Z)) :=
  (λ c, let id := ent_Name (cc_Credential c) in (id, last_change db id)) <$> cc.

(** The text whose digest is the binding. *)
Definition binding_text (db : CredentialTimes) (profileID : string) (cc : option CompiledCredential) : string :=
  let '(id, generation) :=
    match cc with
    | Some c => let id := ent_Name (cc_Credential c) in (id, hitlCredentialGeneration (ct_secret db id) (ct_oauth db id) id)
    | None => ("none", "none")
    end in
  encode_fields [("kind", "credential"); ("version", HITLFingerprintVersionV1); ("profile_id", profileID);
                 ("credential_id", id); ("generation", generation); ("subject_id", "")] "".

Lemma generation_inj db db2 id :
  hitlCredentialGeneration (ct_secret db id) (ct_oauth db id) id =
  hitlCredentialGeneration (ct_secret db2 id) (ct_oauth db2 id) id → last_change db id = last_change db2 id.
Proof.
  unfold hitlCredentialGeneration, last_change.
  destruct (ct_secret db id) as [a|], (ct_oauth db id) as [b|], (ct_secret db2 id) as [c|], (ct_oauth db2 id) as [d|];
    repeat match goal with |- context [0 <? ?x] => let E := fresh "E" in destruct (0 <? x) eqn:E; bprop end;
    intros H; try done; apply (str_app_inj_l _ _ _) in H; apply Itoa_inj in H; do 2 f_equal; lia.
Qed.

Lemma generation_not_none s o id : hitlCredentialGeneration s o id ≠ "none".
Proof. unfold hitlCredentialGeneration. destruct s as [s|], o as [o|]; repeat case_match; done. Qed.

Lemma binding_eq db db2 profile cc cc2 b :
  buildHITLAuthBindingID sha256 base64 db profile cc = Ok b →
  buildHITLAuthBindingID sha256 base64 db2 profile cc2 = Ok b →
  credential_state db cc = credential_state db2 cc2 ∨
  (binding_text db profile cc ≠ binding_text db2 profile cc2 ∧
   base64 (sha256 (binding_text db profile cc)) = base64 (sha256 (binding_text db2 profile cc2))).
Proof.
  assert (∀ db cc, buildHITLAuthBindingID sha256 base64 db profile cc = Ok b →
    b = "credential:v1:" +:+ base64 (sha256 (binding_text db profile cc))) as Hb.
  { intros d [c|]; cbn [buildHITLAuthBindingID]; unfold BuildHITLCredentialAuthBindingID; destruct (existsb _ _); try done;
      by intros [= <-]. }
  intros H1%Hb H2%Hb. rewrite H1 in H2. apply str_app_inj_l in H2.
  destruct (decide (binding_text db profile cc = binding_text db2 profile cc2)) as [He|Hne]; [left|by right].
  unfold binding_text in He. destruct cc as [c|], cc2 as [c2|]; apply encode_fields_inj in He as [He _]; try done;
    injection He as Hid Hgen.
  - cbn. rewrite Hid in *. f_equal. f_equal. by apply generation_inj.
  - by apply generation_not_none in Hgen.
  - symmetry in Hgen. by apply generation_not_none in Hgen.
Qed.

(** The columns of a parked request. *)
Lemma start_spec newID minted db key url policy profile principal ep rule apID ap req r body trunc now t t1 op tok :
  maybeStartAsyncHITLOperation hmac sha256 base64 newID minted db key url policy profile principal ep rule apID ap
    req r body trunc now t = (t1, Ok (Some (op, tok))) →
  ∃ binding fp,
    buildHITLAuthBindingID sha256 base64 db profile (ResolveCredential (Some policy) profile (Some ep) (Some req)) = Ok binding ∧
    ComputeHITLRequestFingerprint hmac (fingerprint_input key profile principal ep rule r [] body binding) = Ok fp ∧
    t1 !! op_ID op = Some op ∧ c_ProfileID (op_Columns op) = profile ∧ c_PrincipalID (op_Columns op) = principal ∧
    c_AuthBindingID (op_Columns op) = binding ∧ c_RequestFingerprint (op_Columns op) = fp_RequestFingerprint fp.
Proof.
  unfold maybeStartAsyncHITLOperation. intros H.
  destruct (_ || _ || _ || _); [done|]. destruct (_ || negb (ap_Enabled ap)); [done|].
  destruct (ap_SyncWait ap <=? 0); [done|]. destruct (_ || _ || _); [done|].
  destruct (buildHITLAuthBindingID _ _ _ _ _) as [binding|]; [|done].
  change (SelectHITLFingerprintHeaders (http_Headers r) []) with (@Ok (list HITLFingerprintHeader) FingerprintError []) in H.
  cbv iota in H. destruct (ComputeHITLRequestFingerprint _ _) as [fp|] eqn:Ef; [|done].
  destruct (Create _ _ _ _ _) as [t' [[o k]|]] eqn:Ec; [|done]. simplify_eq.
  apply Create_columns in Ec as [Hl (h & c & s & a & Hc)]. exists binding, fp. rewrite Hc. done.
Qed.

(** A grant that was spent: the binding and the fingerprint of the request, the
    row its statement found and what it left. *)
Lemma spend_spec env1 env2 db key policy id profile principal ep rule req r body trunc now t t' op :
  consumeHITLRetryGrantForRequest hmac sha256 base64 env1 env2 db key policy id profile principal ep rule req r body
    trunc now t = (t', Ok op) →
  trunc = false ∧
  ∃ binding fp row,
    buildHITLAuthBindingID sha256 base64 db profile (ResolveCredential (Some policy) profile (Some ep) (Some req)) = Ok binding ∧
    ComputeHITLRequestFingerprint hmac (fingerprint_input key profile principal ep rule r [] body binding) = Ok fp ∧
    env1 t !! id = Some row ∧ op_State row = ApprovedWaitingForRetry ∧ op_GrantConsumedAt row = None ∧
    (∃ e, op_RetryExpiresAt row = Some e ∧ now < e) ∧
    c_ProfileID (op_Columns row) = profile ∧ c_PrincipalID (op_Columns row) = principal ∧
    c_AuthBindingID (op_Columns row) = binding ∧ c_RequestFingerprint (op_Columns row) = fp_RequestFingerprint fp ∧
    t' = env2 (<[id := set_consumed now principal row]> (env1 t)).
Proof.
  unfold consumeHITLRetryGrantForRequest. destruct (String.eqb id ""), trunc; simpl; try done.
  destruct (buildHITLAuthBindingID _ _ _ _ _) as [binding|]; [|done].
  destruct (ComputeHITLRequestFingerprint hmac _) as [fp|] eqn:Ef; [|done].
  destruct (ConsumeRetryGrant env1 env2 t _) as [t4 [op4|]] eqn:Ec; [|done]. intros [= <- _].
  apply consume_Ok in Ec as (n & v & row & [= <-] & Hrow & Hw & Ht').
  apply consume_where_spec in Hw as (Hst & _ & Hsp & Hex & Q1 & Q2 & Q3 & _ & _ & Q4).
  cbn [co_ID co_ProfileID co_PrincipalID co_AuthBindingID co_RequestFingerprint co_ConsumedBy] in *.
  split; [done|]. by exists binding, fp, row.
Qed.

(** Two requests a person cannot tell apart: same endpoint, rule, method, host,
    path, query and body. *)
Definition same_request (ep ep2 : CompiledEndpoint) (rule rule2 : CompiledRule) (r r2 : HTTPRequest) (body body2 : string) : Prop :=
  ep_Name ep2 = ep_Name ep ∧ rule_Name rule2 = rule_Name rule ∧ ToUpper (http_Method r2) = ToUpper (http_Method r) ∧
  ToLower (http_Host r2) = ToLower (http_Host r) ∧ http_Path r2 = http_Path r ∧ http_RawQuery r2 = http_RawQuery r ∧
  body2 = body.

(** C9. One approval, one request: let a request be parked, let any statements
    follow, and let a later request spend the grant, under any interference.
    Then the later request has the profile and the principal of the parked one,
    the same binding; the two resolve to the same credential in the same stored
    state, or the digests of the two binding texts collide; and they have the
    same endpoint, rule, method, host, path, query and body, or the keyed hash
    collides on the two canonical texts or on the two bodies. *)
Theorem grant_bound_to_request
    newID minted db key url policy profile principal ep rule apID ap req r body trunc now t t1 op tok evs
    env1 env2 db2 policy2 profile2 principal2 ep2 rule2 req2 r2 body2 trunc2 now2 t2 t3 op' :
  maybeStartAsyncHITLOperation hmac sha256 base64 newID minted db key url policy profile principal ep rule apID ap
    req r body trunc now t = (t1, Ok (Some (op, tok))) →
  hitl_trace t1 evs (env1 t2) → EvCreate (op_ID op) ∉ evs →
  consumeHITLRetryGrantForRequest hmac sha256 base64 env1 env2 db2 key policy2 (op_ID op) profile2 principal2 ep2
    rule2 req2 r2 body2 trunc2 now2 t2 = (t3, Ok op') →
  let cc := ResolveCredential (Some policy) profile (Some ep) (Some req) in
  let cc2 := ResolveCredential (Some policy2) profile (Some ep2) (Some req2) in
  let text := binding_text db profile cc in let text2 := binding_text db2 profile cc2 in
  profile2 = profile ∧ principal2 = principal ∧
  (credential_state db2 cc2 = credential_state db cc ∨
   text2 ≠ text ∧ base64 (sha256 text2) = base64 (sha256 text)) ∧
  ∃ binding,
    buildHITLAuthBindingID sha256 base64 db profile cc = Ok binding ∧
    buildHITLAuthBindingID sha256 base64 db2 profile cc2 = Ok binding ∧
    let i := fingerprint_input key profile principal ep rule r [] body binding in
    let j := fingerprint_input key profile principal ep2 rule2 r2 [] body2 binding in
    same_request ep ep2 rule rule2 r r2 body body2 ∨
    collision (request_key hmac i) (canonical i) (canonical j) ∨
    collision (body_key i) body body2.
Proof.
  intros (b & fp & Hb & Hfp & Hrow & Hp & Hpr & Hcb & Hf)%start_spec Htr Hno
    (_ & b2 & fp2 & row & Hb2 & Hfp2 & Hrow2 & _ & _ & _ & Q1 & Q2 & Q3 & Q4 & _)%spend_spec. cbv zeta.
  destruct (hitl_trace_row _ _ _ _ _ _ Htr Hno Hrow Hrow2) as [_ Hcol]. rewrite Hcol in *.
  assert (profile2 = profile) as -> by congruence. assert (principal2 = principal) as -> by congruence.
  assert (b2 = b) as -> by congruence. split; [done|]. split; [done|].
  split; [destruct (binding_eq _ _ _ _ _ _ Hb2 Hb); auto|]. exists b. split; [done|]. split; [done|].
  destruct (fingerprint_eq _ _ _ _ Hfp Hfp2 eq_refl) as [[Hv H2]|H]; [congruence| |by right].
  left. unfold request_view in Hv. cbn in Hv, H2. unfold same_request. split_and!; congruence.
Qed.
End Bound.

(** ** A keyed hash without collisions, and a request retried *)

Definition demo_hmac (k m : string) : string := k +:+ m.

Lemma demo_hmac_no_collision k m m' : ¬ collision demo_hmac k m m'.
Proof. intros [Hne H]. by apply str_app_inj_l in H. Qed.

Definition demo_key : HITLFingerprintKey := mkKey "hitl-hmac:v1" "root".
Definition async_policy : CompiledPolicy :=
  mkPolicy "deny" "deny" "closed" "public" [] 0 0 "deny" "" {["dev" := mkProfile "dev" [] ∅ ∅ [] ∅ true]} ∅ ∅ ∅ ∅.
Definition demo_times : CredentialTimes := mkTimes (λ _, None) (λ _, None).
Definition demo_approver : AsyncApprover := mkApprover true 10 100 1000 4096 "raw".
Definition demo_rule : CompiledRule := test_rule "review" 0 None (mkOutcome "" "" [mkStage "alice"]).
Definition demo_http (host : string) : HTTPRequest := mkHTTP "POST" host "/v1" "/v1" "" ∅.
Definition demo_input (host : string) : FingerprintInput :=
  fingerprint_input demo_key "dev" "agent-1" (test_endpoint "api" []) demo_rule (demo_http host) [] "pay" "binding".

Definition demo_park (t : Store) :=
  maybeStartAsyncHITLOperation demo_hmac id id "op1" "token" demo_times demo_key "https://gw" async_policy "dev" "agent-1"
    (test_endpoint "api" []) demo_rule "alice" demo_approver test_request (demo_http "api.example.com") "pay" false 1 t.

Definition demo_retry (t : Store) :=
  consumeHITLRetryGrantForRequest demo_hmac id id id id demo_times demo_key async_policy "op1" "dev" "agent-1"
    (test_endpoint "api" []) demo_rule test_request (demo_http "API.example.com") "pay" false 60 t.

Definition parked_op : HITLOperation :=
  match demo_park ∅ with (_, Ok (Some (op, _))) => op | _ => demo_op end.
Definition parked_approval : HITLOperationTransition := resolve_transition parked_op true 50.
Definition approved_store : Store := (Transition (demo_park ∅).1 parked_approval).1.
Definition retried_op : HITLOperation := match demo_retry approved_store with (_, Ok op) => op | _ => demo_op end.

Lemma fingerprint_binds_request_witness :
  request_view (normalized (demo_input "api.example.com")) = request_view (normalized (demo_input "API.example.com")).
Proof.
  destruct (fingerprint_binds_request demo_hmac (demo_input "api.example.com") (demo_input "API.example.com")
    (match ComputeHITLRequestFingerprint demo_hmac (demo_input "api.example.com") with
     | Ok f => f | Err _ => mkFingerprint "" "" "" "" end)
    (match ComputeHITLRequestFingerprint demo_hmac (demo_input "api.example.com") with
     | Ok f => f | Err _ => mkFingerprint "" "" "" "" end)) as [[H _]|[H|H]];
    [vm_compute; reflexivity|vm_compute; reflexivity|reflexivity|reflexivity|exact H|
     by apply demo_hmac_no_collision in H..].
Defined.

Lemma grant_bound_to_request_witness :
  (demo_retry approved_store).2 = Ok retried_op ∧
  same_request (test_endpoint "api" []) (test_endpoint "api" []) demo_rule demo_rule (demo_http "api.example.com")
    (demo_http "API.example.com") "pay" "pay".
Proof.
  split; [vm_compute; reflexivity|].
  destruct (grant_bound_to_request demo_hmac id id "op1" "token" demo_times demo_key "https://gw" async_policy "dev"
    "agent-1" (test_endpoint "api" []) demo_rule "alice" demo_approver test_request (demo_http "api.example.com") "pay"
    false 1 ∅ (demo_park ∅).1 parked_op "token" [EvOther] id id demo_times async_policy "dev" "agent-1"
    (test_endpoint "api" []) demo_rule test_request (demo_http "API.example.com") "pay" false 60 approved_store
    (demo_retry approved_store).1 retried_op) as (_ & _ & _ & binding & _ & _ & [H|[H|H]]).
  - vm_compute. reflexivity.
  - eapply trace_cons; [apply (st_transition (demo_park ∅).1 parked_approval)|]. apply trace_nil.
  - set_solver.
  - vm_compute. reflexivity.
  - exact H.
  - by apply demo_hmac_no_collision in H.
  - by apply demo_hmac_no_collision in H.
Defined.
