(* ===== verification/HitlRegistry.v ===== *)
(** * The pool of pending approvals: [HITLRegistry] in [cmd/clawpatrol/web.go]

    The registry holds the prompts operators can answer. A decision travels to
    the waiting approver over a channel of capacity one that both hold, so
    channels live in a heap of their own. Every operation is the body of the
    mutex's critical section; [DecideWithResult] has two when the prompt stands
    for a durable operation. The calls that edit posted messages are returned
    as a list. *)
From S2P Require Import Prelude GoStrings.

(** ** Values of [internal/config/runtime/runtime.go] *)

Notation HITLState := string (only parsing).
Definition HITLStatePending : HITLState := "pending".
Definition HITLStateApproved : HITLState := "approved".
Definition HITLStateDenied : HITLState := "denied".
Definition HITLStateTimedOut : HITLState := "timed_out".
Definition HITLStateClientDisconnected : HITLState := "client_disconnected".
Definition HITLStateCanceled : HITLState := "canceled".
Definition HITLStateUnknown : HITLState := "unknown".

Definition OpStateSyncWaiting : string := "sync_waiting".
Definition OpStatePendingApproval : string := "pending_approval".
Definition OpStateApproved : string := "approved".
Definition OpStateApprovedWaitingForRetry : string := "approved_waiting_for_retry".
Definition OpStateDenied : string := "denied".
Definition OpStateExpired : string := "expired".
Definition OpStateExecutingUpstream : string := "executing_upstream".
Definition OpStateUpstreamSucceeded : string := "upstream_succeeded".
Definition OpStateUpstreamFailed : string := "upstream_failed".
Definition OpStateClientDisconnected : string := "client_disconnected".

Definition EffectExecuteUpstream : string := "execute_upstream".
Definition EffectCreateRetryGrant : string := "create_retry_grant".

Record HITLResolveResult := mkResult { res_OK : bool; res_State : HITLState; res_Reason : string }.

Record HITLDecision := mkHITLDecision { hd_Allow : bool; hd_Reason : string; hd_By : string }.

(** The zero [time.Time] is [None]. *)
Record HITLPending := mkPending {
  p_ID : string;
  p_OperationID : string;
  p_AgentIP : string;
  p_Host : string;
  p_Method : string;
  p_Path : string;
  p_OperationState : string;
  p_ApprovalEffect : string;
  p_UpstreamCalled : bool;
  p_ApprovalMessage : string;
  p_Endpoint : string;
  p_Family : string;
  p_UA : string;
  p_BodySample : string;
  p_Reason : string;
  p_Approvers : list string;
  p_CreatedAt : option Z;
  p_ExpiresAt : option Z
}.

Definition zero_pending : HITLPending :=
  mkPending "" "" "" "" "" "" "" "" false "" "" "" "" "" "" [] None None.

Definition HITLApprovalEffectForOperationState (state : string) : string :=
  if String.eqb state OpStatePendingApproval then EffectCreateRetryGrant else EffectExecuteUpstream.

Definition lines (l : list string) : string := String.concat (String (ascii_of_nat 10) "") l.

Definition upstream_message (state : string) : option string :=
  if String.eqb state OpStateExecutingUpstream then
    Some (lines ["The client retried the approved request."; "Forwarding upstream now."])
  else if String.eqb state OpStateUpstreamSucceeded then Some "Done. The approved request completed upstream."
  else if String.eqb state OpStateUpstreamFailed then
    Some (lines ["Approved and retried, but the forwarding attempt failed or did not complete successfully.";
                 "The upstream side effect status may be unknown."])
  else None.

Definition state_message (state : string) : option string :=
  if String.eqb state OpStatePendingApproval then
    Some (lines ["The original synchronous wait ended and Claw Patrol returned an async polling response to the client.";
                 "Upstream has not been called."; "Approve will not send the request upstream now.";
                 "Approve will allow the client to retry the same request once."])
  else if String.eqb state OpStateApproved then
    Some (lines ["Approved."; "The client was still connected, so the decision applies to the held request directly; no client retry is needed."])
  else if String.eqb state OpStateApprovedWaitingForRetry then
    Some (lines ["Approved."; "Waiting for the client to retry the original request."; "Upstream has not been called yet."])
  else if String.eqb state OpStateDenied then Some (lines ["Denied."; "Upstream was not called."])
  else if String.eqb state OpStateExpired then Some (lines ["Approval expired."; "Upstream was not called."])
  else if String.eqb state OpStateClientDisconnected then
    Some (lines ["The original client disconnected before approval completed."; "Upstream was not called."; "This prompt is stale."])
  else None.

Definition HITLApprovalMessage (state effect : string) (upstreamCalled : bool) : string :=
  match (if upstreamCalled then upstream_message state else None) with
  | Some m => m
  | None =>
      match state_message state with
      | Some m => m
      | None =>
          if String.eqb effect EffectCreateRetryGrant then
            lines ["Upstream has not been called."; "Approve will not send the request upstream now.";
                   "Approve will allow the client to retry the same request once."]
          else lines ["Pending human approval.";
                 "If approved soon, Claw Patrol will send this request upstream immediately and return the real upstream response to the client."]
      end
  end.

Definition set_effect (p : HITLPending) (state effect message : string) : HITLPending :=
  mkPending (p_ID p) (p_OperationID p) (p_AgentIP p) (p_Host p) (p_Method p) (p_Path p) state effect
    (p_UpstreamCalled p) message (p_Endpoint p) (p_Family p) (p_UA p) (p_BodySample p) (p_Reason p) (p_Approvers p)
    (p_CreatedAt p) (p_ExpiresAt p).

Definition NormalizeHITLPendingApproval (p : HITLPending) : HITLPending :=
  let state := if String.eqb (p_OperationState p) "" then OpStateSyncWaiting else p_OperationState p in
  let effect := if String.eqb (p_ApprovalEffect p) "" then HITLApprovalEffectForOperationState state
                else p_ApprovalEffect p in
  let message := if String.eqb (p_ApprovalMessage p) "" then HITLApprovalMessage state effect (p_UpstreamCalled p)
                 else p_ApprovalMessage p in
  set_effect p state effect message.

(** ** Channels *)

(** Channels of capacity one, by address. *)
Notation Chans := (gmap nat (option HITLDecision)).

Definition make_chan (h : Chans) : Chans * nat := let ch := fresh (dom h) in (<[ch := None]> h, ch).

(** [ch <- d]; [None] when the buffer is full and the sender blocks. *)
Definition send (h : Chans) (ch : nat) (d : HITLDecision) : option Chans :=
  match h !! ch with Some None => Some (<[ch := Some d]> h) | _ => None end.

(** [select { case d := <-ch: ...; default: }] *)
Definition try_recv (h : Chans) (ch : nat) : Chans * option HITLDecision :=
  match h !! ch with Some (Some d) => (<[ch := None]> h, Some d) | _ => (h, None) end.

(** ** The registry *)

Definition hitlTerminalTTL : Z := 30 * 60 * 10 ^ 9.

Record pendingEntry := mkPendingEntry { pe_p : HITLPending; pe_decision : nat; pe_messageRefs : list string }.

Record terminalHITLEntry := mkTerminal {
  te_result : HITLResolveResult;
  te_pending : HITLPending;
  te_refs : list string;
  te_decidedBy : string;
  te_expiresAt : Z
}.

Record HITLRegistry := mkRegistry {
  reg_pending : gmap string pendingEntry;
  reg_terminal : gmap string terminalHITLEntry
}.

Definition newHITLRegistry : HITLRegistry := mkRegistry ∅ ∅.

(** One call of [pendingMessageUpdater]. *)
Record MessageUpdate := mkUpdate {
  mu_pending : HITLPending;
  mu_ref : string;
  mu_result : HITLResolveResult;
  mu_decidedBy : string
}.

Definition pruneTerminalLocked (now : Z) (r : HITLRegistry) : HITLRegistry :=
  mkRegistry (reg_pending r) (filter (λ kv, now < te_expiresAt kv.2) (reg_terminal r)).

Definition set_created (p : HITLPending) (id : string) (created : Z) : HITLPending :=
  mkPending id (p_OperationID p) (p_AgentIP p) (p_Host p) (p_Method p) (p_Path p) (p_OperationState p)
    (p_ApprovalEffect p) (p_UpstreamCalled p) (p_ApprovalMessage p) (p_Endpoint p) (p_Family p) (p_UA p)
    (p_BodySample p) (p_Reason p) (p_Approvers p)
    (Some (match p_CreatedAt p with Some t => t | None => created end)) (p_ExpiresAt p).

(** [Add] with the random id and the two clock readings it takes. *)
Definition Add (id : string) (created now : Z) (p : HITLPending) (r : HITLRegistry) (h : Chans)
    : HITLRegistry * Chans * nat :=
  let p := set_created p id created in
  let '(h', ch) := make_chan h in
  let r' := pruneTerminalLocked now r in
  (mkRegistry (<[id := mkPendingEntry p ch []]> (reg_pending r')) (delete id (reg_terminal r')), h', ch).

Definition Discard (id : string) (r : HITLRegistry) : HITLRegistry :=
  mkRegistry (delete id (reg_pending r)) (reg_terminal r).

Definition Update (id : string) (mutate : HITLPending -> HITLPending) (r : HITLRegistry) : HITLRegistry * bool :=
  match reg_pending r !! id with
  | None => (r, false)
  | Some e =>
      let e' := mkPendingEntry (NormalizeHITLPendingApproval (mutate (pe_p e))) (pe_decision e) (pe_messageRefs e) in
      (mkRegistry (<[id := e']> (reg_pending r)) (reg_terminal r), true)
  end.

Definition time_before (a b : option Z) : bool :=
  match a, b with
  | None, Some _ => true
  | Some x, Some y => x <? y
  | _, None => false
  end.

Definition pending_less (a b : HITLPending) : bool :=
  if negb (bool_decide (p_CreatedAt a = p_CreatedAt b)) then time_before (p_CreatedAt a) (p_CreatedAt b)
  else String.ltb (p_ID a) (p_ID b).

(** [List], the range over the map giving the keys in the order [ord]. *)
Definition List_ (ord : list string) (now : Z) (r : HITLRegistry) : HITLRegistry * list HITLPending :=
  let r' := pruneTerminalLocked now r in
  (r', stable_sort pending_less (pe_p <$> omap (λ k, reg_pending r' !! k) ord)).

Definition staleHITLResolveResult (res : HITLResolveResult) : HITLResolveResult :=
  mkResult false (res_State res) (res_Reason res).

Definition terminalHITLPending (p : HITLPending) : HITLPending :=
  mkPending (p_ID p) (p_OperationID p) (p_AgentIP p) (p_Host p) (p_Method p) (p_Path p) (p_OperationState p)
    (p_ApprovalEffect p) (p_UpstreamCalled p) (p_ApprovalMessage p) (p_Endpoint p) (p_Family p) (p_UA p)
    "" (p_Reason p) (p_Approvers p) (p_CreatedAt p) (p_ExpiresAt p).

Definition unknown_result : HITLResolveResult := mkResult false HITLStateUnknown "unknown or expired HITL request".

(** The answer for an id that is not pending. *)
Definition stale_result (r : HITLRegistry) (id : string) : HITLResolveResult :=
  match reg_terminal r !! id with Some t => te_result t | None => unknown_result end.

Definition updateRecordedMessageRefs (p : HITLPending) (refs : list string) (res : HITLResolveResult) (by_ : string)
    : list MessageUpdate :=
  (λ ref, mkUpdate p ref res by_) <$> List.filter (λ ref, negb (String.eqb (TrimSpace ref) "")) refs.

(** ** Decisions *)

(** The prompt stands for a durable operation that waits for approval. *)
Definition is_async (p : HITLPending) : bool :=
  negb (String.eqb (p_OperationID p) "") && String.eqb (p_OperationState p) OpStatePendingApproval &&
  String.eqb (p_ApprovalEffect p) EffectCreateRetryGrant.

Definition decision_state (d : HITLDecision) : HITLState := if hd_Allow d then HITLStateApproved else HITLStateDenied.

Definition decision_reason (d : HITLDecision) : string :=
  let reason := TrimSpace (hd_Reason d) in
  if String.eqb reason "" then
    if negb (String.eqb (hd_By d) "") then decision_state d +:+ " by " +:+ hd_By d else decision_state d
  else reason.

(** The first critical section of [DecideWithResult]. *)
Inductive DecideStep :=
| DReturns (r : HITLRegistry) (res : HITLResolveResult)
| DResolves (r : HITLRegistry) (operationID : string)
| DSends (r : HITLRegistry) (h : Chans) (res : HITLResolveResult) (updates : list MessageUpdate)
| DBlocks.

Definition decide_locked (has_resolver : bool) (now : Z) (id : string) (d : HITLDecision) (r : HITLRegistry) (h : Chans)
    : DecideStep :=
  let r := pruneTerminalLocked now r in
  match reg_pending r !! id with
  | None => DReturns r (stale_result r id)
  | Some e =>
      if is_async (pe_p e) then
        if has_resolver then DResolves (Discard id r) (p_OperationID (pe_p e))
        else DReturns r (mkResult false HITLStateUnknown "async HITL retry-grant resolver is unavailable")
      else
        match send h (pe_decision e) d with
        | None => DBlocks
        | Some h' =>
            let t := mkTerminal (mkResult false (decision_state d) (decision_reason d)) (terminalHITLPending (pe_p e))
                       (pe_messageRefs e) (hd_By d) (now + hitlTerminalTTL) in
            let res := mkResult true (decision_state d) (decision_reason d) in
            DSends (mkRegistry (delete id (reg_pending r)) (<[id := t]> (reg_terminal r))) h' res
              (updateRecordedMessageRefs (pe_p e) (pe_messageRefs e) res (hd_By d))
        end
  end.

(** The second critical section, after the resolver answered [res]. *)
Definition decide_resolved (now : Z) (id : string) (res : HITLResolveResult) (r : HITLRegistry) : HITLRegistry :=
  mkRegistry (reg_pending r)
    (<[id := mkTerminal (staleHITLResolveResult res) zero_pending [] "" (now + hitlTerminalTTL)]> (reg_terminal r)).

(** [DecideWithResult] with nothing between its sections; [None] when the send
    blocks. *)
Definition DecideWithResult (resolver : option (string -> HITLDecision -> HITLResolveResult)) (now : Z) (id : string)
    (d : HITLDecision) (r : HITLRegistry) (h : Chans) : option (HITLRegistry * Chans * HITLResolveResult * list MessageUpdate) :=
  match decide_locked (bool_decide (is_Some resolver)) now id d r h with
  | DReturns r' res => Some (r', h, res, [])
  | DResolves r' op =>
      match resolver with
      | Some f => let res := f op d in Some (decide_resolved now id res r', h, res, [])
      | None => None
      end
  | DSends r' h' res us => Some (r', h', res, us)
  | DBlocks => None
  end.

(** ** Cancellation and message references *)

Definition resolve (id : string) (state : HITLState) (reason : string) (now : Z) (r : HITLRegistry)
    : HITLRegistry * option pendingEntry * HITLResolveResult :=
  let r := pruneTerminalLocked now r in
  match reg_pending r !! id with
  | None => (r, None, stale_result r id)
  | Some e =>
      let t := mkTerminal (mkResult false state reason) (terminalHITLPending (pe_p e)) (pe_messageRefs e) ""
                 (now + hitlTerminalTTL) in
      (mkRegistry (delete id (reg_pending r)) (<[id := t]> (reg_terminal r)), Some e, mkResult true state reason)
  end.

Definition Cancel (id : string) (state : HITLState) (reason : string) (now : Z) (r : HITLRegistry)
    : HITLRegistry * HITLResolveResult * list MessageUpdate :=
  let state := if String.eqb state "" || String.eqb state HITLStatePending || String.eqb state HITLStateUnknown
               then HITLStateCanceled else state in
  let reason := if String.eqb (TrimSpace reason) "" then state else reason in
  let '(r', e, res) := resolve id state reason now r in
  (r', res, match e with
            | Some e => if res_OK res then updateRecordedMessageRefs (pe_p e) (pe_messageRefs e) res "" else []
            | None => []
            end).

Definition add_ref (ref : string) (e : pendingEntry) : pendingEntry :=
  mkPendingEntry (pe_p e) (pe_decision e) (pe_messageRefs e ++ [ref]).

Definition add_terminal_ref (ref : string) (t : terminalHITLEntry) : terminalHITLEntry :=
  mkTerminal (te_result t) (te_pending t) (te_refs t ++ [ref]) (te_decidedBy t) (te_expiresAt t).

Definition RecordMessageRef (id ref : string) (now : Z) (r : HITLRegistry) : HITLRegistry * list MessageUpdate :=
  if String.eqb (TrimSpace id) "" || String.eqb (TrimSpace ref) "" then (r, [])
  else
    let r := pruneTerminalLocked now r in
    match reg_pending r !! id with
    | Some e => (mkRegistry (<[id := add_ref ref e]> (reg_pending r)) (reg_terminal r), [])
    | None =>
        match reg_terminal r !! id with
        | Some t => (mkRegistry (reg_pending r) (<[id := add_terminal_ref ref t]> (reg_terminal r)),
                     updateRecordedMessageRefs (te_pending t) [ref] (te_result t) (te_decidedBy t))
        | None => (r, [])
        end
    end.
