(* ===== verification/Approver.v ===== *)
(** * Waiting for a human: [internal/config/plugins/approvers]

    What [HumanApprover.Approve] and [DashboardApprover.Approve] do between
    publishing a prompt and returning, against operators who answer it at any
    moment. *)
From S2P Require Import Prelude GoStrings HitlRegistry.

(** ** The approver's own moves *)

Definition ApproveDecisionAsyncPending : string := "async_pending".

Record ApproveVerdict := mkVerdict {
  v_Decision : string;
  v_Reason : string;
  v_By : string;
  v_ApproverName : string;
  v_ApproverType : string
}.

(** [ctx.Err()] once [ctx.Done()] fires. *)
Inductive CtxErr := CtxCanceled | CtxDeadlineExceeded.

#[global] Instance CtxErr_eq_dec : EqDecision CtxErr.
Proof. solve_decision. Defined.

(** What [Approve] returns. *)
Inductive ApproveReturn := Verdict (v : ApproveVerdict) | CtxError (e : CtxErr).

Definition decision (allow : bool) : string := if allow then "allow" else "deny".

Definition verdictFromDecision (d : HITLDecision) : ApproveVerdict :=
  mkVerdict (decision (hd_Allow d)) (hd_Reason d) (hd_By d) "" "".

Definition terminalDecisionVerdict (res : HITLResolveResult) (h : Chans) (ch : nat) : Chans * option ApproveVerdict :=
  if String.eqb (res_State res) HITLStateApproved || String.eqb (res_State res) HITLStateDenied then
    match try_recv h ch with
    | (h', Some d) => (h', Some (verdictFromDecision d))
    | (h', None) => (h', Some (mkVerdict (decision (String.eqb (res_State res) HITLStateApproved)) (res_Reason res) "" "" ""))
    end
  else (h, None).

Definition hitlCancelStateForContext (err : CtxErr) : HITLState * string :=
  match err with
  | CtxCanceled => (HITLStateClientDisconnected, "original client connection closed before approval; upstream request was not sent")
  | CtxDeadlineExceeded => (HITLStateCanceled, "context deadline exceeded")
  end.

(** The parts of an [ApproveRequest] and of its endpoint that reach the prompt. *)
Record ApproveRequest := mkApproveRequest {
  ar_AsyncOperationID : string;
  ar_AsyncPendingOnSyncTimeout : bool;
  ar_AgentIP : string;
  ar_Host : string;
  ar_Method : string;
  ar_Path : string;
  ar_EndpointLabel : string;
  ar_Family : string;
  ar_UA : string;
  ar_BodySample : string;
  ar_Reason : string;
  ar_ApproverName : string
}.

Definition buildPending (now : Z) (req : ApproveRequest) : HITLPending :=
  NormalizeHITLPendingApproval
    (mkPending "" (ar_AsyncOperationID req) (ar_AgentIP req) (ar_Host req) (ar_Method req) (ar_Path req) "" "" false ""
       (ar_EndpointLabel req) (ar_Family req) (ar_UA req) (ar_BodySample req) (ar_Reason req) [ar_ApproverName req]
       (Some now) None).

Definition set_expires (p : HITLPending) (t : option Z) : HITLPending :=
  mkPending (p_ID p) (p_OperationID p) (p_AgentIP p) (p_Host p) (p_Method p) (p_Path p) (p_OperationState p)
    (p_ApprovalEffect p) (p_UpstreamCalled p) (p_ApprovalMessage p) (p_Endpoint p) (p_Family p) (p_UA p)
    (p_BodySample p) (p_Reason p) (p_Approvers p) (p_CreatedAt p) t.

(** Seconds, as the configuration has them, to nanoseconds. *)
Definition approvalTimeout (own : Z) (policyTimeout : option Z) : Z :=
  let t := own * 10 ^ 9 in
  let t := match policyTimeout with Some p => if t <=? 0 then p * 10 ^ 9 else t | None => t end in
  if t <=? 0 then 10 * 60 * 10 ^ 9 else t.

Definition HITLAsyncApprovalTTL (own : Z) (policyTimeout : option Z) (syncWait : Z) : Z :=
  let ttl := approvalTimeout own policyTimeout - syncWait in if ttl <? 0 then 0 else ttl.

(** A call of [Approve]. [call_timeout] is [None] for the dashboard approver,
    which arms no timer and never falls back to an asynchronous grant; the two
    reasons are the strings [fmt.Sprintf] renders from the approver's name. *)
Record ApproverCall := mkApproverCall {
  call_req : ApproveRequest;
  call_timeout : option Z;
  call_timeoutReason : string;
  call_asyncReason : string
}.

(** A human approver of the configuration, as far as [Approve] and its prompt
    could use it: its timeout in seconds and the number of approvals asked for. *)
Record HumanApprover := mkHumanApprover { ha_Timeout : Z; ha_RequireApprovers : Z }.

(** The call [HumanApprover.Approve] makes of a request. *)
Definition human_call (h : HumanApprover) (policyTimeout : option Z) (req : ApproveRequest) (timeoutReason asyncReason : string)
    : ApproverCall :=
  mkApproverCall req (Some (approvalTimeout (ha_Timeout h) policyTimeout)) timeoutReason asyncReason.

(** The prompt the call publishes. *)
Definition call_pending (now : Z) (c : ApproverCall) : HITLPending :=
  let p := buildPending now (call_req c) in
  match call_timeout c with Some t => set_expires p (Some (now + t)) | None => p end.

(** The mutation that turns the held prompt into an asynchronous one. *)
Definition to_async (operationID : string) (p : HITLPending) : HITLPending :=
  NormalizeHITLPendingApproval
    (mkPending (p_ID p) operationID (p_AgentIP p) (p_Host p) (p_Method p) (p_Path p) OpStatePendingApproval
       EffectCreateRetryGrant false "" (p_Endpoint p) (p_Family p) (p_UA p) (p_BodySample p) (p_Reason p)
       (p_Approvers p) (p_CreatedAt p) (p_ExpiresAt p)).

Definition falls_back (c : ApproverCall) (err : CtxErr) : bool :=
  bool_decide (is_Some (call_timeout c)) && ar_AsyncPendingOnSyncTimeout (call_req c) &&
  bool_decide (err = CtxDeadlineExceeded) && negb (String.eqb (ar_AsyncOperationID (call_req c)) "").

(** Where the goroutine of a call stands. *)
Inductive WaitState :=
| Waiting
| UpdateFailed (err : CtxErr)
| CancelReturned (res : HITLResolveResult) (fallback : ApproveReturn)
| Returning (o : ApproveReturn)
| Finished (o : ApproveReturn).

(** ** Interleavings *)

(** The shared state, where one call stands, the resolver calls in flight (id
    and the clock reading of the decision), and, as a record of the run, the
    decision operators were told was accepted for the call's prompt and when. *)
Record Sys := mkSys {
  s_reg : HITLRegistry;
  s_chans : Chans;
  s_wait : WaitState;
  s_inflight : list (string * Z);
  s_accepted : option (HITLDecision * Z)
}.

(** The goroutine reads its channel within [hitlTerminalTTL] of the decision. *)
Definition prompt (now : Z) (a : option (HITLDecision * Z)) : Prop :=
  match a with Some (_, at_) => now < at_ + hitlTerminalTTL | None => True end.

Definition accept (id id' : string) (d : HITLDecision) (now : Z) (a : option (HITLDecision * Z)) :=
  if String.eqb id' id then Some (d, now) else a.

(** One critical section or channel operation, by the call for prompt [id] with
    channel [ch] or by anyone else. Others never cancel, update, discard or
    re-publish [id]: the registry draws ids at random and hands each to one
    call. *)
Inductive sys_step (c : ApproverCall) (id : string) (ch : nat) : Sys -> Sys -> Prop :=
| sp_recv r h h' d i a :
    try_recv h ch = (h', Some d) →
    sys_step c id ch (mkSys r h Waiting i a) (mkSys r h' (Returning (Verdict (verdictFromDecision d))) i a)
| sp_timer r h i a now r' res us t :
    call_timeout c = Some t → prompt now a →
    Cancel id HITLStateTimedOut (call_timeoutReason c) now r = (r', res, us) →
    sys_step c id ch (mkSys r h Waiting i a)
      (mkSys r' h (CancelReturned res (Verdict (mkVerdict "" (call_timeoutReason c) "" "" ""))) i a)
| sp_fallback r h i a err r' ok :
    falls_back c err = true → Update id (to_async (ar_AsyncOperationID (call_req c))) r = (r', ok) →
    sys_step c id ch (mkSys r h Waiting i a)
      (mkSys r' h (if ok then Finished (Verdict (mkVerdict ApproveDecisionAsyncPending (call_asyncReason c) "" "" ""))
                   else UpdateFailed err) i a)
| sp_ctx r h w i a err now r' res us :
    (w = Waiting ∧ falls_back c err = false ∨ w = UpdateFailed err) → prompt now a →
    Cancel id (hitlCancelStateForContext err).1 (hitlCancelStateForContext err).2 now r = (r', res, us) →
    sys_step c id ch (mkSys r h w i a) (mkSys r' h (CancelReturned res (CtxError err)) i a)
| sp_verdict r h i a res fallback h' v :
    terminalDecisionVerdict res h ch = (h', v) →
    sys_step c id ch (mkSys r h (CancelReturned res fallback) i a)
      (mkSys r h' (Returning (match v with Some v => Verdict v | None => fallback end)) i a)
| sp_discard r h i a o :
    sys_step c id ch (mkSys r h (Returning o) i a) (mkSys (Discard id r) h (Finished o) i a)
| sp_decide_returns r h w i a resolver now id' d r' res :
    prompt now a → decide_locked resolver now id' d r h = DReturns r' res →
    sys_step c id ch (mkSys r h w i a) (mkSys r' h w i a)
| sp_decide_sends r h w i a resolver now id' d r' h' res us :
    prompt now a → decide_locked resolver now id' d r h = DSends r' h' res us →
    sys_step c id ch (mkSys r h w i a) (mkSys r' h' w i (accept id id' d now a))
| sp_decide_async r h w i a resolver now id' d r' op :
    prompt now a → decide_locked resolver now id' d r h = DResolves r' op →
    sys_step c id ch (mkSys r h w i a) (mkSys r' h w ((id', now) :: i) a)
| sp_decide_resolved r h w i a id' now res :
    (id', now) ∈ i → sys_step c id ch (mkSys r h w i a) (mkSys (decide_resolved now id' res r) h w i a)
| sp_add r h w i a id' created now p r' h' ch' :
    id' ≠ id → prompt now a → Add id' created now p r h = (r', h', ch') →
    sys_step c id ch (mkSys r h w i a) (mkSys r' h' w i a)
| sp_other_cancel r h w i a id' state reason now r' res us :
    id' ≠ id → prompt now a → Cancel id' state reason now r = (r', res, us) →
    sys_step c id ch (mkSys r h w i a) (mkSys r' h w i a)
| sp_other_update r h w i a id' mutate r' ok :
    id' ≠ id → Update id' mutate r = (r', ok) → sys_step c id ch (mkSys r h w i a) (mkSys r' h w i a)
| sp_other_discard r h w i a id' :
    id' ≠ id → sys_step c id ch (mkSys r h w i a) (mkSys (Discard id' r) h w i a)
| sp_other_recv r h w i a ch' h' d :
    ch' ≠ ch → try_recv h ch' = (h', d) → sys_step c id ch (mkSys r h w i a) (mkSys r h' w i a)
| sp_ref r h w i a id' ref now :
    prompt now a → sys_step c id ch (mkSys r h w i a) (mkSys (RecordMessageRef id' ref now r).1 h w i a)
| sp_list r h w i a ord now :
    prompt now a → sys_step c id ch (mkSys r h w i a) (mkSys (List_ ord now r).1 h w i a).
