(* ===== verification/ApproverProps.v ===== *)
(** * Operators and waiting requests agree

    The registry's invariant over every operation, and the agreement between
    what an operator was told and what the waiting call returned. *)
From S2P Require Import Prelude GoStrings HitlRegistry Approver.

(** ** The registry's invariant *)

(** Every pending prompt has an empty channel of its own, and what is kept of a
    resolved prompt never says that the caller resolved it. *)
Definition registry_ok (r : HITLRegistry) (h : Chans) : Prop :=
  (∀ id e, reg_pending r !! id = Some e → h !! pe_decision e = Some None) ∧
  (∀ id1 id2 e1 e2, reg_pending r !! id1 = Some e1 → reg_pending r !! id2 = Some e2 →
     pe_decision e1 = pe_decision e2 → id1 = id2) ∧
  (∀ id t, reg_terminal r !! id = Some t → res_OK (te_result t) = false).

(** The prompts of [r'] are prompts of [r], with the same channels. *)
Definition pend_sub (r' r : HITLRegistry) : Prop :=
  ∀ id e', reg_pending r' !! id = Some e' → ∃ e, reg_pending r !! id = Some e ∧ pe_decision e' = pe_decision e.

Definition terminal_sub (r' r : HITLRegistry) : Prop :=
  ∀ id t', reg_terminal r' !! id = Some t' →
    res_OK (te_result t') = false ∨ ∃ t, reg_terminal r !! id = Some t ∧ te_result t' = te_result t.

Lemma registry_ok_sub r r' h : registry_ok r h → pend_sub r' r → terminal_sub r' r → registry_ok r' h.
Proof.
  intros (H1 & H2 & H3) Hp Ht. split_and!.
  - intros id e' (e & He & ->)%Hp. eauto.
  - intros id1 id2 e1 e2 (f1 & Hf1 & ->)%Hp (f2 & Hf2 & ->)%Hp. eauto.
  - intros id t' [H|(t & H & ->)]%Ht; eauto.
Qed.

Lemma prune_terminal now r id t :
  reg_terminal (pruneTerminalLocked now r) !! id = Some t ↔ reg_terminal r !! id = Some t ∧ now < te_expiresAt t.
Proof. simpl. apply map_lookup_filter_Some. Qed.

Lemma prune_sub now r : pend_sub (pruneTerminalLocked now r) r ∧ terminal_sub (pruneTerminalLocked now r) r.
Proof. split; [intros id e He; eauto|]. intros id t [Ht _]%prune_terminal. eauto. Qed.

(** A prompt removed and its outcome kept. *)
Lemma close_sub r now id t :
  res_OK (te_result t) = false →
  pend_sub (mkRegistry (delete id (reg_pending r)) (<[id := t]> (reg_terminal (pruneTerminalLocked now r)))) r ∧
  terminal_sub (mkRegistry (delete id (reg_pending r)) (<[id := t]> (reg_terminal (pruneTerminalLocked now r)))) r.
Proof.
  intros Hok. split.
  - intros id' e'; cbn [reg_pending]. intros [_ He]%lookup_delete_Some. eauto.
  - intros id' t'; cbn [reg_terminal]. intros [[-> <-]|[_ Ht]]%lookup_insert_Some; [by left|].
    apply (proj2 (prune_sub now r)) in Ht. done.
Qed.

(** ** Operations *)

Lemma Cancel_cases id state reason now r r' res us :
  Cancel id state reason now r = (r', res, us) →
  (reg_pending r !! id = None ∧ r' = pruneTerminalLocked now r ∧ res = stale_result r' id) ∨
  (∃ e t, reg_pending r !! id = Some e ∧
     r' = mkRegistry (delete id (reg_pending r)) (<[id := t]> (reg_terminal (pruneTerminalLocked now r))) ∧
     res_OK (te_result t) = false ∧
     (state ∈ [HITLStateTimedOut; HITLStateClientDisconnected; HITLStateCanceled] → res_State res = state)).
Proof.
  unfold Cancel, resolve. cbv zeta. cbn [reg_pending pruneTerminalLocked].
  destruct (reg_pending r !! id) as [e|] eqn:E; intros H; simplify_eq; [right|by left].
  eexists e, _. split; [reflexivity|]. split; [reflexivity|]. split; [reflexivity|].
  intros Hin. cbn [res_State]. repeat (apply elem_of_cons in Hin as [->|Hin]; [reflexivity|]). by apply elem_of_nil in Hin.
Qed.

Lemma Cancel_ok id state reason now r r' res us h :
  Cancel id state reason now r = (r', res, us) → registry_ok r h → registry_ok r' h.
Proof.
  intros [(_ & -> & _)|(e & t & He & -> & Hok & _)]%Cancel_cases H; eapply registry_ok_sub;
    [exact H|apply prune_sub..|exact H|apply close_sub; exact Hok|apply close_sub; exact Hok].
Qed.

Lemma Update_cases id mutate r r' ok :
  Update id mutate r = (r', ok) →
  (reg_pending r !! id = None ∧ r' = r ∧ ok = false) ∨
  (∃ e, reg_pending r !! id = Some e ∧ ok = true ∧
     r' = mkRegistry (<[id := mkPendingEntry (NormalizeHITLPendingApproval (mutate (pe_p e))) (pe_decision e)
                               (pe_messageRefs e)]> (reg_pending r)) (reg_terminal r)).
Proof. unfold Update. destruct (reg_pending r !! id) as [e|] eqn:E; intros H; simplify_eq; [right|left]; eauto. Qed.

(** A prompt rewritten in place. *)
Lemma rewrite_sub r id e e' :
  reg_pending r !! id = Some e → pe_decision e' = pe_decision e →
  pend_sub (mkRegistry (<[id := e']> (reg_pending r)) (reg_terminal r)) r.
Proof.
  intros He Hd id' e2; cbn [reg_pending]. intros [[-> <-]|[_ H]]%lookup_insert_Some; eauto.
Qed.

Lemma terminal_sub_refl r p : terminal_sub (mkRegistry p (reg_terminal r)) r.
Proof. intros id t Ht. right. eauto. Qed.

Lemma Update_ok id mutate r r' ok h : Update id mutate r = (r', ok) → registry_ok r h → registry_ok r' h.
Proof.
  intros [(_ & -> & _)|(e & He & _ & ->)]%Update_cases H; [done|].
  eapply registry_ok_sub; [exact H|by eapply rewrite_sub|apply terminal_sub_refl].
Qed.

Lemma Discard_sub id r : pend_sub (Discard id r) r.
Proof. intros id' e'; cbn [Discard reg_pending]. intros [_ He]%lookup_delete_Some. eauto. Qed.

Lemma Discard_ok id r h : registry_ok r h → registry_ok (Discard id r) h.
Proof. intros H. eapply registry_ok_sub; [exact H|apply Discard_sub|apply terminal_sub_refl]. Qed.

Lemma RecordMessageRef_ok id ref now r h : registry_ok r h → registry_ok (RecordMessageRef id ref now r).1 h.
Proof.
  intros H. unfold RecordMessageRef. destruct (_ || _); [done|]. cbv zeta.
  set (q := pruneTerminalLocked now r).
  assert (registry_ok q h) as Hq by (eapply registry_ok_sub; [exact H|apply prune_sub..]).
  destruct (reg_pending q !! id) as [e|] eqn:Ee; cbn [fst].
  - eapply registry_ok_sub; [exact Hq|by eapply rewrite_sub|apply terminal_sub_refl].
  - destruct (reg_terminal q !! id) as [t|] eqn:Et; cbn [fst]; [|done].
    eapply registry_ok_sub; [exact Hq|intros id' e' He'; eauto|].
    intros id' t'; cbn [reg_terminal]. intros [[<- <-]|[_ Ht]]%lookup_insert_Some; right; eauto.
Qed.

Lemma decide_resolved_ok now id res r h : registry_ok r h → registry_ok (decide_resolved now id res r) h.
Proof.
  intros H. eapply registry_ok_sub; [exact H|intros id' e' He'; eauto|].
  intros id' t'; cbn [decide_resolved reg_terminal]. intros [[<- <-]|[_ Ht]]%lookup_insert_Some; [by left|right; eauto].
Qed.

Lemma try_recv_ok h ch h' d r : try_recv h ch = (h', d) → registry_ok r h → registry_ok r h'.
Proof.
  unfold try_recv. destruct (h !! ch) as [[d'|]|] eqn:E; intros H; simplify_eq; try done.
  intros (H1 & H2 & H3). split_and!; [|done..]. intros id e He.
  destruct (decide (pe_decision e = ch)) as [<-|Hn]; [by rewrite lookup_insert_eq|rewrite lookup_insert_ne by done; eauto].
Qed.

Lemma Add_cases id created now p r h r' h' ch :
  Add id created now p r h = (r', h', ch) →
  ch ∉ dom h ∧ h' = <[ch := None]> h ∧
  r' = mkRegistry (<[id := mkPendingEntry (set_created p id created) ch []]> (reg_pending r))
         (delete id (reg_terminal (pruneTerminalLocked now r))).
Proof.
  unfold Add, make_chan. cbv zeta. intros H. injection H as <- <- <-. split_and!; [apply is_fresh|done..].
Qed.

Lemma Add_ok id created now p r h r' h' ch :
  Add id created now p r h = (r', h', ch) → registry_ok r h → registry_ok r' h'.
Proof.
  intros (Hf & -> & ->)%Add_cases (H1 & H2 & H3).
  assert (∀ i e, reg_pending r !! i = Some e → pe_decision e ≠ ch) as Hne.
  { intros i e He Heq. apply H1 in He. rewrite Heq in He. by apply Hf, elem_of_dom. }
  split_and!; cbn [reg_pending reg_terminal].
  - intros i e [[<- <-]|[_ He]]%lookup_insert_Some; cbn [pe_decision]; [apply lookup_insert_eq|].
    rewrite lookup_insert_ne by (symmetry; eauto). eauto.
  - intros i j e f [[<- <-]|[_ He]]%lookup_insert_Some [[<- <-]|[_ Hf']]%lookup_insert_Some; cbn [pe_decision]; intros Heq;
      [done|by apply Hne in Hf'|by apply Hne in He|eauto].
  - intros i t [_ [Ht _]%prune_terminal]%lookup_delete_Some. eauto.
Qed.

(** The ways through the first section of a decision. *)
Lemma decide_locked_cases resolver now id d r h :
  registry_ok r h →
  match decide_locked resolver now id d r h with
  | DReturns r' res => r' = pruneTerminalLocked now r ∧ res_OK res = false ∧
      (∀ e, reg_pending r !! id = Some e → is_async (pe_p e) = true ∧ resolver = false)
  | DResolves r' op => ∃ e, reg_pending r !! id = Some e ∧ is_async (pe_p e) = true ∧ resolver = true ∧
      r' = Discard id (pruneTerminalLocked now r)
  | DSends r' h' res us => ∃ e t, reg_pending r !! id = Some e ∧ is_async (pe_p e) = false ∧
      res = mkResult true (decision_state d) (decision_reason d) ∧
      te_result t = mkResult false (decision_state d) (decision_reason d) ∧ te_expiresAt t = now + hitlTerminalTTL ∧
      h' = <[pe_decision e := Some d]> h ∧
      r' = mkRegistry (delete id (reg_pending r)) (<[id := t]> (reg_terminal (pruneTerminalLocked now r)))
  | DBlocks => False
  end.
Proof.
  intros (H1 & _ & H3). unfold decide_locked. cbv zeta. cbn [reg_pending pruneTerminalLocked].
  destruct (reg_pending r !! id) as [e|] eqn:E.
  - destruct (is_async (pe_p e)) eqn:Ea; [destruct resolver|].
    + exists e. done.
    + split_and!; [done..|]. intros ? [= <-]. done.
    + unfold send. rewrite (H1 _ _ E). by eexists e, (mkTerminal _ _ _ _ _).
  - split_and!; [done| |done]. unfold stale_result.
    destruct (reg_terminal (pruneTerminalLocked now r) !! id) as [t|] eqn:Et; [|done].
    apply prune_terminal in Et as [Et _]. eauto.
Qed.

Lemma sent_ok r h id e t now d :
  registry_ok r h → reg_pending r !! id = Some e → res_OK (te_result t) = false →
  registry_ok (mkRegistry (delete id (reg_pending r)) (<[id := t]> (reg_terminal (pruneTerminalLocked now r))))
    (<[pe_decision e := Some d]> h).
Proof.
  intros Hok He Ht. destruct (registry_ok_sub r _ h Hok (proj1 (close_sub r now id t Ht)) (proj2 (close_sub r now id t Ht)))
    as (H1 & H2 & H3). destruct Hok as (_ & Hinj & _). split_and!; [|done..].
  intros id' e'; cbn [reg_pending]. intros [Hne He']%lookup_delete_Some.
  rewrite lookup_insert_ne; [apply (H1 id'); by apply lookup_delete_Some|]. intros Heq. by eapply Hne, Hinj.
Qed.

Lemma decide_locked_ok resolver now id d r h :
  registry_ok r h →
  match decide_locked resolver now id d r h with
  | DReturns r' _ | DResolves r' _ => registry_ok r' h
  | DSends r' h' _ _ => registry_ok r' h'
  | DBlocks => False
  end.
Proof.
  intros H. pose proof (decide_locked_cases resolver now id d r h H) as Hc.
  assert (registry_ok (pruneTerminalLocked now r) h) as Hp by (eapply registry_ok_sub; [exact H|apply prune_sub..]).
  destruct (decide_locked resolver now id d r h); [by destruct Hc as [-> _]| | |done].
  - destruct Hc as (e & _ & _ & _ & ->). by apply Discard_ok.
  - destruct Hc as (e & t & He & _ & _ & Ht & _ & -> & ->). apply sent_ok; [done|done|by rewrite Ht].
Qed.

(** ** Reachable registries *)

Inductive reachable : HITLRegistry -> Chans -> Prop :=
| re_new : reachable newHITLRegistry ∅
| re_add id created now p r h r' h' ch : reachable r h → Add id created now p r h = (r', h', ch) → reachable r' h'
| re_discard id r h : reachable r h → reachable (Discard id r) h
| re_update id mutate r h r' ok : reachable r h → Update id mutate r = (r', ok) → reachable r' h
| re_cancel id state reason now r h r' res us :
    reachable r h → Cancel id state reason now r = (r', res, us) → reachable r' h
| re_ref id ref now r h : reachable r h → reachable (RecordMessageRef id ref now r).1 h
| re_list ord now r h : reachable r h → reachable (List_ ord now r).1 h
| re_recv ch r h h' d : reachable r h → try_recv h ch = (h', d) → reachable r h'
| re_returns resolver now id d r h r' res :
    reachable r h → decide_locked resolver now id d r h = DReturns r' res → reachable r' h
| re_resolves resolver now id d r h r' op :
    reachable r h → decide_locked resolver now id d r h = DResolves r' op → reachable r' h
| re_sends resolver now id d r h r' h' res us :
    reachable r h → decide_locked resolver now id d r h = DSends r' h' res us → reachable r' h'
| re_resolved now id res r h : reachable r h → reachable (decide_resolved now id res r) h.

Lemma reachable_ok r h : reachable r h → registry_ok r h.
Proof.
  induction 1 as [|????????? _ IH H|??? _ IH|?????? _ IH H|????????? _ IH H|????? _ IH|???? _ IH|????? _ IH H
    |???????? _ IH H|???????? _ IH H|?????????? _ IH H|????? _ IH].
  - split_and!; intros *; cbn; rewrite ?lookup_empty; done.
  - by eapply Add_ok.
  - by apply Discard_ok.
  - by eapply Update_ok.
  - by eapply Cancel_ok.
  - by apply RecordMessageRef_ok.
  - cbn [List_ fst]. eapply registry_ok_sub; [exact IH|apply prune_sub..].
  - by eapply try_recv_ok.
  - pose proof (decide_locked_ok resolver now id d r h IH) as Hd. by rewrite H in Hd.
  - pose proof (decide_locked_ok resolver now id d r h IH) as Hd. by rewrite H in Hd.
  - pose proof (decide_locked_ok resolver now id d r h IH) as Hd. by rewrite H in Hd.
  - by apply decide_resolved_ok.
Qed.

(** A decision on a prompt that is gone, while its outcome is kept. *)
Lemma decide_stale resolver now id d r h t :
  reg_pending r !! id = None → reg_terminal r !! id = Some t → now < te_expiresAt t →
  DecideWithResult resolver now id d r h = Some (pruneTerminalLocked now r, h, te_result t, []).
Proof.
  intros Hp Ht Hn. unfold DecideWithResult, decide_locked. cbv zeta.
  change (reg_pending (pruneTerminalLocked now r) !! id) with (reg_pending r !! id). rewrite Hp.
  unfold stale_result. by rewrite (proj2 (prune_terminal now r id t)).
Qed.

(** In every state the registry can reach, a decision returns: it never blocks
    on the prompt's channel with the lock held. A decision reported as
    accepted found the prompt pending and removed it, and until the outcome
    expires every further decision changes nothing and is told the same state
    as not its own. *)
Theorem decision_accepted_once resolver now id d r h :
  reachable r h →
  ∃ r' h' res us, DecideWithResult resolver now id d r h = Some (r', h', res, us) ∧
    (res_OK res = true →
     is_Some (reg_pending r !! id) ∧
     ∀ now' d', now' < now + hitlTerminalTTL →
       ∃ r'' res', DecideWithResult resolver now' id d' r' h' = Some (r'', h', res', []) ∧
         reg_pending r'' = reg_pending r' ∧ res_OK res' = false ∧ res_State res' = res_State res).
Proof.
  intros Hr%reachable_ok. pose proof (decide_locked_cases (bool_decide (is_Some resolver)) now id d r h Hr) as Hc.
  unfold DecideWithResult at 1. destruct (decide_locked _ now id d r h) as [r' res|r' op|r' h' res us|].
  - destruct Hc as (_ & Hf & _). exists r', h, res, []. rewrite Hf. done.
  - destruct resolver as [f|]; [|by destruct Hc as (e & _ & _ & ? & _)].
    destruct Hc as (e & He & _ & _ & ->). eexists _, _, _, _. split; [reflexivity|]. intros _. split; [by rewrite He|].
    intros now' d' Hn. eexists _, _. erewrite decide_stale; [|apply lookup_delete_eq|apply lookup_insert_eq|exact Hn].
    split_and!; reflexivity.
  - destruct Hc as (e & t & He & _ & -> & Ht & Hx & -> & ->). eexists _, _, _, _. split; [reflexivity|].
    intros _. split; [by rewrite He|]. intros now' d' Hn. eexists _, _.
    erewrite decide_stale; [|apply lookup_delete_eq|apply lookup_insert_eq|by rewrite Hx].
    rewrite Ht. split_and!; reflexivity.
  - done.
Qed.

(** ** One call among everything else *)

(** The prompt is published, held by the call and unanswered. *)
Definition held (id : string) (ch : nat) (r : HITLRegistry) (i : list (string * Z)) : Prop :=
  id ∉ i.*1 ∧ ∃ e, reg_pending r !! id = Some e ∧ pe_decision e = ch ∧ is_async (pe_p e) = false.

(** The prompt is answered and the answer is on its way. *)
Definition delivered (id : string) (ch : nat) (d : HITLDecision) (at_ : Z) (r : HITLRegistry) (h : Chans)
    (i : list (string * Z)) : Prop :=
  id ∉ i.*1 ∧ reg_pending r !! id = None ∧ h !! ch = Some (Some d) ∧
  ∃ t, reg_terminal r !! id = Some t ∧ res_State (te_result t) = decision_state d ∧
    te_expiresAt t = at_ + hitlTerminalTTL.

(** The call reports no answer of a human. *)
Definition undecided (o : ApproveReturn) : Prop :=
  match o with Verdict v => v_Decision v = "" ∨ v_Decision v = ApproveDecisionAsyncPending | CtxError _ => True end.

Definition phase (id : string) (ch : nat) (s : Sys) : Prop :=
  let r := s_reg s in
  match s_wait s, s_accepted s with
  | Waiting, None => held id ch r (s_inflight s)
  | UpdateFailed _, None => False
  | (Waiting | UpdateFailed _), Some (d, at_) => delivered id ch d at_ r (s_chans s) (s_inflight s)
  | CancelReturned res fallback, None =>
      reg_pending r !! id = None ∧ undecided fallback ∧ res_State res ≠ HITLStateApproved ∧ res_State res ≠ HITLStateDenied
  | CancelReturned res fallback, Some (d, _) =>
      reg_pending r !! id = None ∧ s_chans s !! ch = Some (Some d) ∧ res_State res = decision_state d
  | Returning o, None => reg_pending r !! id = None ∧ undecided o
  | Finished o, None =>
      (∀ e, reg_pending r !! id = Some e → is_async (pe_p e) = true) ∧ undecided o
  | (Returning o | Finished o), Some (d, _) => reg_pending r !! id = None ∧ o = Verdict (verdictFromDecision d)
  end.

Definition own_channel (id : string) (ch : nat) (r : HITLRegistry) : Prop :=
  ∀ id' e, reg_pending r !! id' = Some e → id' ≠ id → pe_decision e ≠ ch.

Definition inv (id : string) (ch : nat) (s : Sys) : Prop :=
  registry_ok (s_reg s) (s_chans s) ∧ own_channel id ch (s_reg s) ∧ ch ∈ dom (s_chans s) ∧ phase id ch s.

(** What a step of someone else leaves alone. *)
Definition frame (id : string) (ch : nat) (a : option (HITLDecision * Z)) (r r' : HITLRegistry) (h h' : Chans)
    (i i' : list (string * Z)) : Prop :=
  (∀ e, reg_pending r !! id = Some e →
     ∃ e', reg_pending r' !! id = Some e' ∧ pe_p e' = pe_p e ∧ pe_decision e' = pe_decision e) ∧
  (reg_pending r !! id = None → reg_pending r' !! id = None) ∧
  h' !! ch = h !! ch ∧
  (id ∉ i.*1 → id ∉ i'.*1 ∧
   ∀ d at_ t, a = Some (d, at_) → reg_terminal r !! id = Some t → te_expiresAt t = at_ + hitlTerminalTTL →
     ∃ t', reg_terminal r' !! id = Some t' ∧ te_result t' = te_result t ∧ te_expiresAt t' = te_expiresAt t).

Lemma phase_frame id ch r r' h h' w i i' a :
  frame id ch a r r' h h' i i' → phase id ch (mkSys r h w i a) → phase id ch (mkSys r' h' w i' a).
Proof.
  intros (F1 & F2 & F3 & F4).
  assert (∀ d at_, a = Some (d, at_) → delivered id ch d at_ r h i → delivered id ch d at_ r' h' i') as Hdel.
  { intros d at_ Ha (Hi & Hp & Hch & t & Ht & Hs & Hx). apply F4 in Hi as [Hi F5].
    destruct (F5 d at_ t Ha Ht Hx) as (t' & Ht' & E1 & E2). split_and!; [done|auto|congruence|].
    exists t'. split_and!; congruence. }
  destruct w, a as [[d at_]|]; cbn [phase s_wait s_accepted s_reg s_chans s_inflight]; try by eauto.
  - intros (Hi & e & He & Hc & Ha). split; [by apply F4|]. destruct (F1 e He) as (e' & He' & E1 & E2).
    exists e'. split_and!; congruence.
  - intros (? & ? & ?). split_and!; [auto|congruence|done].
  - intros (? & ?). split; auto.
  - intros (? & ?). split; auto.
  - intros (? & ?). split; auto.
  - intros (? & ?). split; auto.
  - intros (Ha & ?). split; [|done]. intros e' He'. destruct (reg_pending r !! id) as [e|] eqn:E.
    + destruct (F1 e eq_refl) as (e2 & He2 & E1 & _). simplify_eq. rewrite E1. auto.
    + rewrite F2 in He' by done. done.
Qed.

Lemma prune_frame id ch a r h i now :
  prompt now a → frame id ch a r (pruneTerminalLocked now r) h h i i.
Proof.
  intros Hp. split_and!; [eauto|done|done|]. intros Hi. split; [done|]. intros d at_ t -> Ht Hx.
  exists t. split_and!; [|done..]. apply prune_terminal. cbn [prompt] in Hp. by rewrite Hx.
Qed.

(** A change at another id, on top of a frame. *)
Lemma frame_other id ch a r q h h' i p t :
  frame id ch a r q h h i i → h' !! ch = h !! ch →
  p !! id = reg_pending q !! id → t !! id = reg_terminal q !! id → frame id ch a r (mkRegistry p t) h h' i i.
Proof.
  intros (F1 & F2 & F3 & F4) Hh Hp Ht. split_and!; cbn [reg_pending reg_terminal]; [|intros; rewrite Hp; auto|done|].
  - intros e He. rewrite Hp. auto.
  - intros Hi. split; [done|]. intros. rewrite Ht. by eapply F4.
Qed.

Lemma frame_refl id ch a r h i : frame id ch a r r h h i i.
Proof. split_and!; [eauto|done|done|]. intros; split; [done|]. eauto. Qed.

Lemma inv_frame id ch r r' h h' w i i' a :
  inv id ch (mkSys r h w i a) → registry_ok r' h' → own_channel id ch r' → ch ∈ dom h' →
  frame id ch a r r' h h' i i' → inv id ch (mkSys r' h' w i' a).
Proof. intros (_ & _ & _ & Hp) Hok Hown Hd Hf. split_and!; [done..|]. by eapply phase_frame. Qed.

Lemma own_channel_sub id ch r r' : pend_sub r' r → own_channel id ch r → own_channel id ch r'.
Proof. intros Hs Ho id' e' (e & He & ->)%Hs. eauto. Qed.

Lemma prune_inv id ch r h w i a now :
  prompt now a → inv id ch (mkSys r h w i a) → inv id ch (mkSys (pruneTerminalLocked now r) h w i a).
Proof.
  intros Hp H. eapply inv_frame; [exact H| | |apply H|by apply prune_frame].
  - eapply registry_ok_sub; [apply H|apply prune_sub..].
  - eapply own_channel_sub; [apply prune_sub|apply H].
Qed.

(** Cancelling the call's own prompt. *)
Lemma cancel_own id ch r h w i a state reason now r' res us fallback :
  inv id ch (mkSys r h w i a) → w = Waiting ∨ (∃ e, w = UpdateFailed e) → prompt now a →
  state ∈ [HITLStateTimedOut; HITLStateClientDisconnected; HITLStateCanceled] → undecided fallback →
  Cancel id state reason now r = (r', res, us) → inv id ch (mkSys r' h (CancelReturned res fallback) i a).
Proof.
  intros (Hok & Hown & Hd & Hph) Hw Hpr Hst Hfb Hc.
  assert (registry_ok r' h) as Hok' by (by eapply Cancel_ok).
  apply Cancel_cases in Hc as [(Hn & -> & ->)|(e & t & He & -> & Ht & Hs)].
  - split_and!; [done| |done|].
    { eapply own_channel_sub; [apply prune_sub|done]. }
    assert (∃ d at_, a = Some (d, at_) ∧ delivered id ch d at_ r h i) as (d & at_ & -> & (_ & _ & Hch & t & Ht & Hs & Hx)).
    { destruct Hw as [->|[e ->]], a as [[d at_]|]; cbn [phase s_wait s_accepted s_reg s_inflight s_chans] in Hph; eauto; [|done].
      destruct Hph as (_ & e & He & _). cbn in He. congruence. }
    cbn [phase s_wait s_accepted s_reg s_chans]. split_and!; [done..|]. unfold stale_result.
    by rewrite (proj2 (prune_terminal now r id t)) by (cbn [prompt] in Hpr; by rewrite Hx).
  - split_and!; [done| |done|].
    { eapply own_channel_sub; [by apply close_sub|done]. }
    destruct a as [[d at_]|].
    { exfalso. destruct Hw as [->|[x ->]]; destruct Hph as (_ & Hn & _); cbn in Hn; congruence. }
    cbn [phase s_wait s_accepted s_reg reg_pending]. rewrite (Hs Hst). split_and!; [apply lookup_delete_eq|done|..].
    all: intros ->; by repeat (apply elem_of_cons in Hst as [Hst|Hst]; [done|]); apply elem_of_nil in Hst.
Qed.

Lemma is_async_to_async op p : op ≠ "" → is_async (NormalizeHITLPendingApproval (to_async op p)) = true.
Proof. intros Hop. unfold is_async. cbn. apply String.eqb_neq in Hop. by rewrite Hop. Qed.

(** Turning the call's own prompt into an asynchronous one. *)
Lemma fallback_own c id ch r h i a err r' ok :
  inv id ch (mkSys r h Waiting i a) → falls_back c err = true →
  Update id (to_async (ar_AsyncOperationID (call_req c))) r = (r', ok) →
  inv id ch (mkSys r' h (if ok then Finished (Verdict (mkVerdict ApproveDecisionAsyncPending (call_asyncReason c) "" "" ""))
                         else UpdateFailed err) i a).
Proof.
  intros (Hok & Hown & Hd & Hph) Hfb Hu. assert (registry_ok r' h) as Hok' by (by eapply Update_ok).
  unfold falls_back in Hfb. bprop. apply Update_cases in Hu as [(Hn & -> & ->)|(e & He & -> & ->)].
  - split_and!; [done..|]. destruct a as [[d at_]|]; [exact Hph|].
    destruct Hph as (_ & e & He & _). cbn in He. congruence.
  - destruct a as [[d at_]|].
    { exfalso. destruct Hph as (_ & Hn & _). cbn in Hn. congruence. }
    split_and!; [done| |done|].
    { eapply own_channel_sub; [by eapply rewrite_sub|done]. }
    cbn [phase s_wait s_accepted s_reg reg_pending]. split; [|by right].
    intros e'. rewrite lookup_insert_eq. intros [= <-]. cbn [pe_p]. by apply is_async_to_async.
Qed.

Lemma recv_own id ch r h h' i a d :
  inv id ch (mkSys r h Waiting i a) → try_recv h ch = (h', Some d) →
  inv id ch (mkSys r h' (Returning (Verdict (verdictFromDecision d))) i a).
Proof.
  intros (Hok & Hown & Hd & Hph) Hr. assert (registry_ok r h') as Hok' by (by eapply try_recv_ok).
  unfold try_recv in Hr. destruct (h !! ch) as [[d'|]|] eqn:E; simplify_eq.
  split_and!; [done|done|cbn [s_chans]; rewrite dom_insert; set_solver|].
  destruct a as [[d2 at_]|].
  - destruct Hph as (_ & Hn & Hch & _). cbn [s_chans s_reg] in *. split; [done|]. congruence.
  - destruct Hph as (_ & e & He & Hc & _). destruct Hok as (H1 & _). apply H1 in He. cbn in He, Hc. congruence.
Qed.

Lemma verdict_own id ch r h h' i a res fallback v :
  inv id ch (mkSys r h (CancelReturned res fallback) i a) → terminalDecisionVerdict res h ch = (h', v) →
  inv id ch (mkSys r h' (Returning (match v with Some v => Verdict v | None => fallback end)) i a).
Proof.
  intros (Hok & Hown & Hd & Hph) Hv. unfold terminalDecisionVerdict in Hv.
  destruct a as [[d at_]|]; cbn [phase s_wait s_accepted s_reg s_chans] in Hph.
  - destruct Hph as (Hn & Hch & Hs).
    rewrite Hs in Hv. replace (String.eqb (decision_state d) HITLStateApproved || String.eqb (decision_state d) HITLStateDenied)
      with true in Hv by (unfold decision_state; by destruct (hd_Allow d)).
    destruct (try_recv h ch) as [h2 o] eqn:E. assert (registry_ok r h2) as Hok2 by (by eapply try_recv_ok).
    unfold try_recv in E. rewrite Hch in E. simplify_eq.
    split_and!; [done|done|cbn [s_chans]; rewrite dom_insert; set_solver|]. done.
  - destruct Hph as (Hn & Hfb & Ha & Hde). apply String.eqb_neq in Ha, Hde. rewrite Ha, Hde in Hv. simplify_eq/=.
    split_and!; done.
Qed.

Lemma discard_own id ch r h i a o :
  inv id ch (mkSys r h (Returning o) i a) → inv id ch (mkSys (Discard id r) h (Finished o) i a).
Proof.
  intros (Hok & Hown & Hd & Hph). assert (reg_pending (Discard id r) !! id = None) as Hn by apply lookup_delete_eq.
  split_and!; [by apply Discard_ok| |done|].
  - eapply own_channel_sub; [apply Discard_sub|exact Hown].
  - destruct a as [[d at_]|]; cbn [phase s_wait s_accepted s_reg] in *; destruct Hph as [_ ?]; split; try done.
    intros e He. congruence.
Qed.

(** ** Steps of others *)

Lemma recv_other id ch r h h' w i a ch' d :
  inv id ch (mkSys r h w i a) → ch' ≠ ch → try_recv h ch' = (h', d) → inv id ch (mkSys r h' w i a).
Proof.
  intros H Hne Hr. assert (registry_ok r h') as Hok' by (eapply try_recv_ok; [done|apply H]).
  unfold try_recv in Hr. assert (h' !! ch = h !! ch ∧ ch ∈ dom h') as [Hl Hd].
  { destruct H as (_ & _ & Hd & _). cbn [s_chans] in Hd.
    destruct (h !! ch') as [[d'|]|]; simplify_eq; [|done..]. rewrite lookup_insert_ne, dom_insert by done. set_solver. }
  eapply inv_frame; [exact H|done|apply H|done|]. split_and!; [eauto|done|done|]. intros; split; [done|]. eauto.
Qed.

Lemma ref_other id ch r h w i a id' ref now :
  inv id ch (mkSys r h w i a) → prompt now a → inv id ch (mkSys (RecordMessageRef id' ref now r).1 h w i a).
Proof.
  intros H Hp. pose proof (RecordMessageRef_ok id' ref now r h (proj1 H)) as Hok'.
  unfold RecordMessageRef in *. destruct (_ || _); [done|]. cbv zeta in *.
  apply (prune_inv _ _ _ _ _ _ _ now Hp) in H. set (q := pruneTerminalLocked now r) in *.
  destruct (reg_pending q !! id') as [e|] eqn:Ee; cbn [fst] in *.
  - eapply inv_frame; [exact H|done| |apply H|].
    { eapply own_channel_sub; [by eapply rewrite_sub|apply H]. }
    split_and!; [|cbn [reg_pending]|done|cbn [reg_terminal]; intros; split; [done|]; eauto].
    + intros f Hf. cbn [reg_pending]. destruct (decide (id' = id)) as [->|Hne].
      * rewrite lookup_insert_eq. simplify_eq. by eexists.
      * rewrite lookup_insert_ne by done. eauto.
    + intros Hn. destruct (decide (id' = id)) as [->|Hne]; [congruence|by rewrite lookup_insert_ne].
  - destruct (reg_terminal q !! id') as [t|] eqn:Et; cbn [fst] in *; [|done].
    eapply inv_frame; [exact H|done|apply H|apply H|].
    split_and!; [eauto|done|done|]. intros Hi. split; [done|]. intros d at_ u _ Hu _. cbn [reg_terminal].
    destruct (decide (id' = id)) as [->|Hne]; [|rewrite lookup_insert_ne by done; eauto].
    rewrite lookup_insert_eq. simplify_eq. by eexists.
Qed.

Lemma add_other id ch r h w i a id' created now p r' h' ch' :
  inv id ch (mkSys r h w i a) → id' ≠ id → prompt now a → Add id' created now p r h = (r', h', ch') →
  inv id ch (mkSys r' h' w i a).
Proof.
  intros H Hne Hp Ha. assert (registry_ok r' h') as Hok' by (eapply Add_ok; [done|apply H]).
  apply Add_cases in Ha as (Hf & -> & ->). destruct (H) as (_ & Hown & Hd & _). cbn [s_chans s_reg] in Hd, Hown.
  assert (ch' ≠ ch) as Hch by (intros ->; done).
  eapply inv_frame; [exact H|done| |rewrite dom_insert; set_solver|].
  - intros j e; cbn [reg_pending]. intros [[<- <-]|[_ He]]%lookup_insert_Some Hj; [done|eauto].
  - eapply frame_other; [by apply (prune_frame _ _ _ _ _ _ now)|..]; cbn [reg_pending reg_terminal pruneTerminalLocked].
    + by rewrite lookup_insert_ne.
    + by rewrite lookup_insert_ne.
    + by rewrite lookup_delete_ne.
Qed.

Lemma cancel_other id ch r h w i a id' state reason now r' res us :
  inv id ch (mkSys r h w i a) → id' ≠ id → prompt now a → Cancel id' state reason now r = (r', res, us) →
  inv id ch (mkSys r' h w i a).
Proof.
  intros H Hne Hp Hc. assert (registry_ok r' h) as Hok' by (eapply Cancel_ok; [done|apply H]).
  apply Cancel_cases in Hc as [(_ & -> & _)|(e & t & He & -> & Ht & _)]; [by apply prune_inv|].
  eapply inv_frame; [exact H|done| |apply H|].
  - eapply own_channel_sub; [by apply close_sub|apply H].
  - eapply frame_other; [by apply (prune_frame _ _ _ _ _ _ now)|done|..].
    + by rewrite lookup_delete_ne.
    + by rewrite lookup_insert_ne.
Qed.

Lemma update_other id ch r h w i a id' mutate r' ok :
  inv id ch (mkSys r h w i a) → id' ≠ id → Update id' mutate r = (r', ok) → inv id ch (mkSys r' h w i a).
Proof.
  intros H Hne Hu. assert (registry_ok r' h) as Hok' by (eapply Update_ok; [done|apply H]).
  apply Update_cases in Hu as [(_ & -> & _)|(e & He & _ & ->)]; [done|].
  eapply inv_frame; [exact H|done| |apply H|].
  - eapply own_channel_sub; [by eapply rewrite_sub|apply H].
  - eapply frame_other; [apply frame_refl|done|by rewrite lookup_insert_ne|done].
Qed.

Lemma discard_other id ch r h w i a id' :
  inv id ch (mkSys r h w i a) → id' ≠ id → inv id ch (mkSys (Discard id' r) h w i a).
Proof.
  intros H Hne. eapply inv_frame; [exact H|apply Discard_ok, H| |apply H|].
  - eapply own_channel_sub; [apply Discard_sub|apply H].
  - eapply frame_other; [apply frame_refl|done|by rewrite lookup_delete_ne|done].
Qed.

Lemma resolved_any id ch r h w i a id' now res :
  inv id ch (mkSys r h w i a) → (id', now) ∈ i → inv id ch (mkSys (decide_resolved now id' res r) h w i a).
Proof.
  intros H Hin. eapply inv_frame; [exact H|apply decide_resolved_ok, H|apply H|apply H|].
  split_and!; [eauto|done|done|]. intros Hi. split; [done|]. intros d at_ t _ Ht _. cbn [decide_resolved reg_terminal].
  rewrite lookup_insert_ne; [eauto|]. intros ->. apply Hi. apply list_elem_of_fmap. by exists (id, now).
Qed.

Lemma sends_any id ch r h w i a resolver now id' d r' h' res us :
  inv id ch (mkSys r h w i a) → prompt now a → decide_locked resolver now id' d r h = DSends r' h' res us →
  inv id ch (mkSys r' h' w i (accept id id' d now a)).
Proof.
  intros H Hp Hd. pose proof (decide_locked_ok resolver now id' d r h (proj1 H)) as Hok'.
  pose proof (decide_locked_cases resolver now id' d r h (proj1 H)) as Hc. rewrite Hd in Hok', Hc.
  destruct Hc as (e & t & He & Has & _ & Ht & Hx & -> & ->). destruct (H) as (Hok & Hown & Hdm & Hph).
  cbn [s_reg s_chans] in Hown, Hdm.
  assert (own_channel id ch (mkRegistry (delete id' (reg_pending r)) (<[id' := t]> (reg_terminal (pruneTerminalLocked now r))))).
  { eapply own_channel_sub; [apply close_sub; by rewrite Ht|done]. }
  assert (ch ∈ dom (<[pe_decision e := Some d]> h)) by (rewrite dom_insert; set_solver).
  unfold accept. destruct (String.eqb id' id) eqn:E; bprop.
  - subst id'. split_and!; [done..|].
    assert (w = Waiting ∧ a = None ∧ held id ch r i) as (-> & -> & (Hi & e' & He' & Hch & _)).
    { destruct w, a as [[d2 at_]|]; cbn [phase s_wait s_accepted s_reg s_chans s_inflight] in Hph; try done;
        exfalso; try (destruct Hph as (_ & Hn & _); congruence); try (destruct Hph as (Hn & _); congruence).
      destruct Hph as [Ha _]. apply Ha in He. congruence. }
    simplify_eq. cbn [phase s_wait s_accepted s_reg s_chans s_inflight]. split_and!; [done|apply lookup_delete_eq|apply lookup_insert_eq|].
    exists t. rewrite Ht. split_and!; [apply lookup_insert_eq|done|done].
  - eapply inv_frame; [exact H|done..|]. eapply frame_other; [by apply (prune_frame _ _ _ _ _ _ now)|..].
    + rewrite lookup_insert_ne; [done|]. by eapply Hown.
    + by rewrite lookup_delete_ne.
    + by rewrite lookup_insert_ne.
Qed.

Lemma resolves_any id ch r h w i a resolver now id' d r' op :
  inv id ch (mkSys r h w i a) → prompt now a → decide_locked resolver now id' d r h = DResolves r' op →
  inv id ch (mkSys r' h w ((id', now) :: i) a).
Proof.
  intros H Hp Hd. pose proof (decide_locked_ok resolver now id' d r h (proj1 H)) as Hok'.
  pose proof (decide_locked_cases resolver now id' d r h (proj1 H)) as Hc. rewrite Hd in Hok', Hc.
  destruct Hc as (e & He & Has & _ & ->). apply (prune_inv _ _ _ _ _ _ _ now Hp) in H.
  destruct (decide (id' = id)) as [->|Hne].
  - destruct H as (_ & Hown & Hdm & Hph). split_and!; [done| |done|].
    { eapply own_channel_sub; [apply Discard_sub|done]. }
    assert (reg_pending (Discard id (pruneTerminalLocked now r)) !! id = None) as Hn by apply lookup_delete_eq.
    destruct w, a as [[d2 at_]|]; cbn [phase s_wait s_accepted s_reg s_chans s_inflight pruneTerminalLocked reg_pending] in Hph;
      try done; try (exfalso; destruct Hph as (_ & Hq & _); cbn in Hq; congruence); try (exfalso; destruct Hph as (Hq & _); congruence).
    + destruct Hph as (_ & e' & He' & _ & Hs). cbn in He'. congruence.
    + destruct Hph as [_ Ho]. split; [|done]. intros e' He'. cbn [s_reg] in He'. congruence.
  - eapply inv_frame; [exact H|done| |apply H|].
    { eapply own_channel_sub; [apply Discard_sub|apply H]. }
    split_and!; cbn [Discard reg_pending reg_terminal].
    + intros f Hf. rewrite lookup_delete_ne by done. eauto.
    + intros Hn. by rewrite lookup_delete_ne.
    + done.
    + intros Hi. split; [|eauto]. cbn. set_solver.
Qed.

Lemma inv_step c id ch s s' : sys_step c id ch s s' → inv id ch s → inv id ch s'.
Proof.
  intros Hs H. destruct Hs.
  - by eapply recv_own.
  - eapply cancel_own; [exact H|by left|done| |by left|done]. set_solver.
  - by eapply fallback_own.
  - eapply cancel_own; [exact H| |done| |done|done].
    + destruct_or!; [left|right]; naive_solver.
    + destruct err; set_solver.
  - by eapply verdict_own.
  - by apply discard_own.
  - pose proof (decide_locked_cases resolver now id' d r h (proj1 H)) as Hc. rewrite H1 in Hc.
    destruct Hc as (-> & _ & _). by apply prune_inv.
  - by eapply sends_any.
  - by eapply resolves_any.
  - by apply resolved_any.
  - by eapply add_other.
  - by eapply cancel_other.
  - by eapply update_other.
  - by apply discard_other.
  - by eapply recv_other.
  - by apply ref_other.
  - cbn [List_ fst]. by apply prune_inv.
Qed.

(** A call right after it published its prompt. *)
Definition published (c : ApproverCall) (id : string) (ch : nat) (s : Sys) : Prop :=
  ∃ r0 h0 created now i, reachable r0 h0 ∧ id ∉ i.*1 ∧
    Add id created now (call_pending created c) r0 h0 = (s_reg s, s_chans s, ch) ∧
    s_wait s = Waiting ∧ s_inflight s = i ∧ s_accepted s = None.

Lemma call_pending_sync now c id created : is_async (set_created (call_pending now c) id created) = false.
Proof. unfold call_pending. destruct (call_timeout c); unfold is_async; cbn; by rewrite andb_false_r. Qed.

Lemma published_inv c id ch s : published c id ch s → inv id ch s.
Proof.
  destruct s as [r h w i a]. intros (r0 & h0 & created & now & i' & Hr%reachable_ok & Hi & Ha & Hw & Hi' & Hacc).
  cbn [s_reg s_chans s_wait s_inflight s_accepted] in *. subst. split_and!; [by eapply Add_ok|..]; apply Add_cases in Ha as (Hf & -> & ->); cbn [s_reg s_chans].
  - intros id' e; cbn [reg_pending]. intros [[<- _]|[_ He]]%lookup_insert_Some Hne; [done|].
    intros Heq. apply Hf. destruct Hr as (H1 & _). apply H1 in He. rewrite Heq in He. by apply elem_of_dom.
  - rewrite dom_insert. set_solver.
  - cbn [phase s_wait s_accepted s_reg s_inflight]. split; [done|]. eexists. split; [apply lookup_insert_eq|].
    split; [done|]. apply call_pending_sync.
Qed.

(** C10. For the prompt of one call, whatever happens concurrently: if an operator
    was told that an answer to it was accepted and sent to the held request, the
    call returns that answer, also when its timer or its context fired in the
    meantime; if no answer was accepted, the call reports none. The steps after
    an accepted answer happen within the thirty minutes the outcome of a prompt
    is kept. One accepted answer decides, also for an approver that is configured
    to require several. *)
Theorem operator_and_request_agree c id ch s s' o :
  published c id ch s → rtc (sys_step c id ch) s s' → s_wait s' = Finished o →
  match s_accepted s' with Some (d, _) => o = Verdict (verdictFromDecision d) | None => undecided o end.
Proof.
  intros Hp%published_inv Hs Hf.
  assert (inv id ch s') as (_ & _ & _ & Hph) by (induction Hs; eauto using inv_step).
  unfold phase in Hph. rewrite Hf in Hph. by destruct (s_accepted s') as [[d at_]|]; destruct Hph.
Qed.

(** The number of approvals an approver requires is not read: whatever it is, the
    first answer that an operator gives to a published prompt is what the call
    returns. *)
Theorem require_approvers_ignored h policyTimeout req reason1 reason2 id ch s (now : Z) d :
  let c := human_call h policyTimeout req reason1 reason2 in
  published c id ch s →
  ∃ s', rtc (sys_step c id ch) s s' ∧ s_wait s' = Finished (Verdict (verdictFromDecision d)).
Proof.
  cbv zeta. intros Hp. pose proof (published_inv _ _ _ _ Hp) as ((H1 & _) & _ & _ & Hph).
  destruct s as [r hs w i a]. destruct Hp as (_ & _ & _ & _ & _ & _ & _ & _ & Hw & _ & Ha). cbn in Hw, Ha. subst w a.
  destruct Hph as (_ & e & He & Hch & Hasync). cbn [s_reg s_chans] in *.
  assert (∃ r' res us, decide_locked false now id d r hs = DSends r' (<[pe_decision e := Some d]> hs) res us) as (r' & res & us & Hd).
  { unfold decide_locked. cbv zeta. change (reg_pending (pruneTerminalLocked now r) !! id) with (reg_pending r !! id).
    rewrite He, Hasync. unfold send. rewrite (H1 _ _ He). by eexists _, _, _. }
  eexists (mkSys _ _ (Finished (Verdict (verdictFromDecision d))) _ _). split; [|reflexivity].
  eapply rtc_l; [eapply sp_decide_sends; [exact I|exact Hd]|].
  eapply rtc_l; [eapply (sp_recv _ _ _ _ _ _ d)|eapply rtc_l; [apply sp_discard|apply rtc_refl]].
  unfold try_recv. by rewrite <- Hch, lookup_insert_eq.
Qed.

(** ** An answer that arrives just before the timer *)

Definition demo_call : ApproverCall :=
  mkApproverCall (mkApproveRequest "" false "10.55.0.2" "api.example.com" "POST" "/v1" "api" "http" "" "" "" "alice")
    (Some (600 * 10 ^ 9)) "timed out" "async".
Definition yes : HITLDecision := mkHITLDecision true "" "dashboard:bob".

Definition demo_added := Add "p1" 0 0 (call_pending 0 demo_call) newHITLRegistry ∅.
Definition demo_ch : nat := demo_added.2.
Definition sys0 : Sys := mkSys demo_added.1.1 demo_added.1.2 Waiting [] None.

(** Bob approves at time 5. *)
Definition sys1 : Sys :=
  match decide_locked true 5 "p1" yes (s_reg sys0) (s_chans sys0) with
  | DSends r h _ _ => mkSys r h Waiting [] (Some (yes, 5))
  | _ => sys0
  end.

(** The timer wins the race at time 6, and the cancellation comes too late. *)
Definition demo_cancel := Cancel "p1" HITLStateTimedOut "timed out" 6 (s_reg sys1).
Definition sys2 : Sys :=
  mkSys demo_cancel.1.1 (s_chans sys1) (CancelReturned demo_cancel.1.2 (Verdict (mkVerdict "" "timed out" "" "" ""))) []
    (Some (yes, 5)).
Definition sys3 : Sys :=
  mkSys (s_reg sys2) (terminalDecisionVerdict demo_cancel.1.2 (s_chans sys2) demo_ch).1
    (Returning (Verdict (verdictFromDecision yes))) [] (Some (yes, 5)).
Definition sys4 : Sys :=
  mkSys (Discard "p1" (s_reg sys3)) (s_chans sys3) (Finished (Verdict (verdictFromDecision yes))) [] (Some (yes, 5)).

Lemma decision_accepted_once_witness :
  ∃ r' h' res us, DecideWithResult None 5 "p1" yes (s_reg sys0) (s_chans sys0) = Some (r', h', res, us) ∧
    res_OK res = true ∧
    ∃ r'' res', DecideWithResult None 7 "p1" (mkHITLDecision false "" "slack:eve") r' h' = Some (r'', h', res', []) ∧
      res_OK res' = false ∧ res_State res' = HITLStateApproved.
Proof.
  destruct (decision_accepted_once None 5 "p1" yes (s_reg sys0) (s_chans sys0)) as (r' & h' & res & us & Hd & H).
  { eapply (re_add "p1" 0 0 (call_pending 0 demo_call)); [apply re_new|]. vm_compute. reflexivity. }
  assert (res = mkResult true "approved" "approved by dashboard:bob") as -> by (vm_compute in Hd; congruence).
  destruct (H eq_refl) as [_ H2]. destruct (H2 7 (mkHITLDecision false "" "slack:eve") eq_refl) as (r'' & res' & E1 & _ & E2 & E3).
  eexists r', h', _, us. split; [exact Hd|]. split; [reflexivity|]. exists r'', res'. split; [exact E1|]. split; [exact E2|exact E3].
Defined.

Lemma operator_and_request_agree_witness :
  s_wait sys2 = CancelReturned (mkResult false HITLStateApproved "approved by dashboard:bob")
                  (Verdict (mkVerdict "" "timed out" "" "" "")) ∧
  Verdict (verdictFromDecision yes) = Verdict (mkVerdict "allow" "" "dashboard:bob" "" "").
Proof.
  split; [vm_compute; reflexivity|].
  apply (operator_and_request_agree demo_call "p1" demo_ch sys0 sys4 (Verdict (mkVerdict "allow" "" "dashboard:bob" "" ""))).
  - exists newHITLRegistry, ∅, 0, 0, []. split; [apply re_new|]. split; [apply not_elem_of_nil|].
    split; [vm_compute; reflexivity|]. repeat split.
  - apply (rtc_l _ _ sys1); [refine (sp_decide_sends demo_call "p1" demo_ch (s_reg sys0) (s_chans sys0) Waiting [] None true 5 "p1" yes
      (s_reg sys1) (s_chans sys1) _ _ I _); vm_compute; reflexivity|].
    apply (rtc_l _ _ sys2); [refine (sp_timer demo_call "p1" demo_ch (s_reg sys1) (s_chans sys1) [] (Some (yes, 5)) 6 _ _ _ (600 * 10 ^ 9)
      eq_refl eq_refl _); vm_compute; reflexivity|].
    apply (rtc_l _ _ sys3); [refine (sp_verdict demo_call "p1" demo_ch (s_reg sys2) (s_chans sys2) [] (Some (yes, 5)) demo_cancel.1.2
      (Verdict (mkVerdict "" "timed out" "" "" "")) (s_chans sys3) (Some (verdictFromDecision yes)) _); vm_compute; reflexivity|].
    apply (rtc_l _ _ sys4); [apply (sp_discard _ _ _ (s_reg sys3) (s_chans sys3) [])|]. apply rtc_refl.
  - reflexivity.
Defined.
