(* ===== verification/ApproveChain.v ===== *)
(** * The approve chain and body inspection: [cmd/clawpatrol/main.go]

    [runApproveChain] with the resolution of undecided verdicts, and the
    buffering of a request body for the rules. *)
From S2P Require Import Prelude GoStrings NetAddr GoUrl Policy Dispatch HitlRegistry Approver.

(** ** The chain *)

(** What the dispatcher passes to every stage. *)
Record runApproveCtx := mkApproveCtx {
  rc_AgentIP : string;
  rc_Host : string;
  rc_Method : string;
  rc_Path : string;
  rc_UA : string;
  rc_BodySample : string;
  rc_Reason : string;
  rc_Endpoint : CompiledEndpoint;
  rc_Rule : CompiledRule;
  rc_Profile : string;
  rc_Request : Request;
  rc_AsyncOperationID : string;
  rc_AsyncPendingOnSyncTimeout : bool;
  rc_AsyncSyncWaitTimeout : Z
}.

(** One call of [Approve]: the stage, the context and the deadline of the stage
    context, if it has one. *)
Record StageCall := mkStageCall { sc_Stage : ApproveStage; sc_Ctx : runApproveCtx; sc_Timeout : option Z }.

Definition stage_timeout (c : runApproveCtx) : option Z :=
  if rc_AsyncPendingOnSyncTimeout c && (0 <? rc_AsyncSyncWaitTimeout c) && negb (String.eqb (rc_AsyncOperationID c) "")
  then Some (rc_AsyncSyncWaitTimeout c) else None.

Definition resolveUndecidedVerdict (policy : option CompiledPolicy) (name approverType : string) (v : ApproveVerdict)
    : ApproveVerdict :=
  let reason := if String.eqb (v_Reason v) "" then "approver " +:+ name +:+ " timed out" else v_Reason v in
  if String.eqb approverType "llm_approver" &&
     match policy with Some p => String.eqb (pol_LLMFailMode p) "open" | None => false end
  then mkVerdict "allow" ("llm_fail_mode = open: " +:+ reason) (if String.eqb (v_By v) "" then "gateway" else v_By v)
         (v_ApproverName v) (v_ApproverType v)
  else mkVerdict "deny" reason (v_By v) (v_ApproverName v) (v_ApproverType v).

(** The name and type of the entity, unless the runtime filled them in. *)
Definition stamp (name approverType : string) (v : ApproveVerdict) : ApproveVerdict :=
  mkVerdict (v_Decision v) (v_Reason v) (v_By v)
    (if String.eqb (v_ApproverName v) "" then name else v_ApproverName v)
    (if String.eqb (v_ApproverType v) "" then approverType else v_ApproverType v).

Definition plain_allow : ApproveVerdict := mkVerdict "allow" "" "" "" "".

Section Chain.
(** The state approvers act on while the chain waits for them. *)
Context {W : Type}.

(** [runtime.ApproverRuntime]: a verdict, and the text of the error if there is
    one. *)
Definition ApproverRT : Type := StageCall -> W -> W * (ApproveVerdict * option string).

(** The approver a body implements, if any, and the built-in one. *)
Context (approver_of : Entity -> option ApproverRT) (dashboard : ApproverRT).

Definition find_approver (policy : option CompiledPolicy) (name : string) : option ApproverRT * string :=
  if String.eqb name "dashboard" then (Some dashboard, "dashboard")
  else match policy with
       | Some p => match pol_Approvers p !! name with
                   | Some ent => (approver_of ent, plugin_Type (ent_Plugin ent))
                   | None => (None, "")
                   end
       | None => (None, "")
       end.

(** The verdict of one stage, final, and whether it allowed only because an
    undecided verdict was resolved that way. *)
Definition run_stage (policy : option CompiledPolicy) (c : runApproveCtx) (st : ApproveStage) (w : W)
    : W * ApproveVerdict * bool :=
  let '(ar, approverType) := find_approver policy (stage_Name st) in
  match ar with
  | None => (w, mkVerdict "deny" ("approver " +:+ stage_Name st +:+ " not found") "gateway" (stage_Name st) "", false)
  | Some approve =>
      let '(w, (v, err)) := approve (mkStageCall st c (stage_timeout c)) w in
      let v := stamp (stage_Name st) approverType v in
      match err with
      | Some e => (w, mkVerdict "deny" e "gateway" (v_ApproverName v) (v_ApproverType v), false)
      | None =>
          if String.eqb (v_Decision v) ""
          then let v := resolveUndecidedVerdict policy (stage_Name st) approverType v in
               (w, v, String.eqb (v_Decision v) "allow")
          else (w, v, false)
      end
  end.

(** [failOpen] is the first stage that failed open. *)
Fixpoint run_stages (policy : option CompiledPolicy) (c : runApproveCtx) (stages : list ApproveStage)
    (failOpen : option ApproveVerdict) (w : W) : W * ApproveVerdict :=
  match stages with
  | [] => (w, default plain_allow failOpen)
  | st :: rest =>
      let '(w, v, opened) := run_stage policy c st w in
      let failOpen := if opened then match failOpen with Some f => Some f | None => Some v end else failOpen in
      if negb (String.eqb (v_Decision v) "allow") then (w, v) else run_stages policy c rest failOpen w
  end.

Definition runApproveChain (policy : option CompiledPolicy) (stages : list ApproveStage) (c : runApproveCtx) (w : W)
    : W * ApproveVerdict := run_stages policy c stages None w.

(** ** All must allow *)

(** The stages run in order, each allowing, from one state to another. *)
Inductive all_allow (policy : option CompiledPolicy) (c : runApproveCtx) : list ApproveStage -> W -> W -> Prop :=
| allow_nil w : all_allow policy c [] w w
| allow_cons st rest w w1 w2 v opened :
    run_stage policy c st w = (w1, v, opened) → v_Decision v = "allow" → all_allow policy c rest w1 w2 →
    all_allow policy c (st :: rest) w w2.

(** The stages up to the first that does not allow. *)
Inductive first_refusal (policy : option CompiledPolicy) (c : runApproveCtx)
    : list ApproveStage -> W -> W -> ApproveVerdict -> Prop :=
| refusal_here st rest w w1 v opened :
    run_stage policy c st w = (w1, v, opened) → v_Decision v ≠ "allow" → first_refusal policy c (st :: rest) w w1 v
| refusal_later st rest w w1 w2 v v' opened :
    run_stage policy c st w = (w1, v', opened) → v_Decision v' = "allow" → first_refusal policy c rest w1 w2 v →
    first_refusal policy c (st :: rest) w w2 v.

Lemma run_stage_opened policy c st w w' v :
  run_stage policy c st w = (w', v, true) → v_Decision v = "allow".
Proof.
  unfold run_stage. destruct (find_approver policy (stage_Name st)) as [[a|] t]; [|by intros [= <- <-]].
  destruct (a _ w) as [w1 [v1 [e|]]]; [by intros [= <- <-]|].
  destruct (String.eqb _ ""); [|done]. intros [= <- <- H]. by apply String.eqb_eq.
Qed.

Lemma run_stages_spec policy c stages failOpen w w' v :
  (∀ f, failOpen = Some f → v_Decision f = "allow") →
  run_stages policy c stages failOpen w = (w', v) →
  v_Decision v = "allow" ∧ all_allow policy c stages w w' ∨
  v_Decision v ≠ "allow" ∧ first_refusal policy c stages w w' v.
Proof.
  revert failOpen w. induction stages as [|st rest IH]; intros failOpen w Hf Hr; simpl in Hr.
  - injection Hr as <- <-. left. split; [|constructor]. destruct failOpen as [f|]; [by apply Hf|done].
  - destruct (run_stage policy c st w) as [[w1 v1] opened] eqn:Es.
    destruct (String.eqb (v_Decision v1) "allow") eqn:Ed; bprop; cbn [negb] in Hr.
    + apply IH in Hr as [[Hv Ha]|[Hv Hr]].
      * left. split; [done|]. by econstructor.
      * right. split; [done|]. by eapply refusal_later.
      * intros f. destruct opened; [|apply Hf]. destruct failOpen; [apply Hf|]. by intros [= <-].
    + injection Hr as <- <-. right. split; [done|]. by econstructor.
Qed.

Lemma refusal_excludes_allow policy c stages w w1 w2 v :
  all_allow policy c stages w w1 → first_refusal policy c stages w w2 v → False.
Proof.
  intros Ha. revert w2 v. induction Ha as [|st rest w wa wb va oa Hs Hv Ha IH]; intros w2 v Hr;
    inversion Hr as [? ? ? ? ? ? Hs'|? ? ? ? ? ? ? ? Hs']; subst.
  all: rewrite Hs in Hs'; injection Hs' as <- <- <-; first [done|by eapply IH].
Qed.

(** C17. A chain allows exactly when every stage, asked in order, allows; otherwise it
    ends with the verdict of the first stage that does not, and no later
    approver is asked. *)
Theorem runApproveChain_all_must_allow policy stages c w w' v :
  runApproveChain policy stages c w = (w', v) →
  (v_Decision v = "allow" ↔ all_allow policy c stages w w') ∧
  (v_Decision v ≠ "allow" ↔ first_refusal policy c stages w w' v).
Proof.
  intros Hr. destruct (run_stages_spec policy c stages None w w' v) as [[Hv Ha]|[Hv Hf]]; [done|done| |]; split; split.
  all: try done.
  - intros Hf. exfalso. by eapply refusal_excludes_allow.
  - intros Ha. exfalso. by eapply refusal_excludes_allow.
Qed.

(** A stage allows only if its approver said so, or the approver is an LLM one
    that could not decide and the policy fails open; an error, an unknown
    approver and a silent human all deny. *)
Theorem stage_allows policy c st w w' v opened :
  run_stage policy c st w = (w', v, opened) → v_Decision v = "allow" →
  ∃ approve t v0, find_approver policy (stage_Name st) = (Some approve, t) ∧
    approve (mkStageCall st c (stage_timeout c)) w = (w', (v0, None)) ∧
    (v_Decision v0 = "allow" ∨
     v_Decision v0 = "" ∧ t = "llm_approver" ∧ ∃ p, policy = Some p ∧ pol_LLMFailMode p = "open").
Proof.
  unfold run_stage. destruct (find_approver policy (stage_Name st)) as [[a|] t]; [|by intros [= <- <- _]].
  destruct (a _ w) as [w1 [v1 [e|]]] eqn:Ea; [by intros [= <- <- _]|].
  cbn [stamp v_Decision]. destruct (String.eqb (v_Decision v1) "") eqn:Ed; bprop.
  - intros [= <- <- _] Hv. exists a, t, v1. split; [done|]. split; [done|]. right. split; [done|].
    unfold resolveUndecidedVerdict in Hv.
    destruct (String.eqb t "llm_approver") eqn:Et; [|done]. bprop. split; [done|].
    destruct policy as [p|]; [|done]. destruct (String.eqb (pol_LLMFailMode p) "open") eqn:Ep; [|done]. bprop. eauto.
  - intros [= <- <- _] Hv. exists a, t, v1. auto.
Qed.
End Chain.

(** ** Buffering the body *)

(** A body as the reader delivers it: its bytes, the error it ends with ([None]
    at a clean end), and whether the error comes with the last bytes. After
    the end the reader repeats the error. *)
Record Stream := mkStream { st_data : string; st_err : option string; st_eager : bool }.

(** [io.ReadAll] of [io.LimitReader]: what was read, the error, and the rest. *)
Definition read_limited (n : nat) (s : Stream) : string * option string * Stream :=
  let len := String.length (st_data s) in
  if (len <? n)%nat then (st_data s, st_err s, mkStream "" (st_err s) false)
  else if (len =? n)%nat then (st_data s, if st_eager s then st_err s else None, mkStream "" (st_err s) false)
  else (str_take n (st_data s), None, mkStream (str_drop n (st_data s)) (st_err s) (st_eager s)).

(** [io.MultiReader] of bytes and a stream. *)
Definition multi_reader (b : string) (s : Stream) : Stream := mkStream (b +:+ st_data s) (st_err s) (st_eager s).

Record bufferedHTTPBodyResult := mkBuffered {
  bb_body : string;
  bb_truncated : bool;
  bb_complete : bool;
  bb_readErr : option string
}.

(** The result and the body left on the request. *)
Definition bufferHTTPBodyForMatchResult (body : option Stream) (capBytes : nat)
    : bufferedHTTPBodyResult * option Stream :=
  match body with
  | None => (mkBuffered "" false true None, None)
  | Some s =>
      let '(b, err, rest) := read_limited (S capBytes) s in
      let body' := Some (multi_reader b rest) in
      match err with
      | Some e => (mkBuffered (str_take capBytes b) true false (Some e), body')
      | None =>
          if (capBytes <? String.length b)%nat then (mkBuffered (str_take capBytes b) true false None, body')
          else (mkBuffered b false true None, body')
      end
  end.

Lemma read_limited_rest n s b err rest :
  read_limited n s = (b, err, rest) →
  b +:+ st_data rest = st_data s ∧ st_err rest = st_err s ∧ b = str_take n (st_data s) ∧
  (err = None ∨ err = st_err s ∧ (String.length (st_data s) <= n)%nat) ∧
  (err = None → st_err s = None ∨ (n <= String.length (st_data s))%nat).
Proof.
  unfold read_limited. destruct (_ <? _)%nat eqn:E1.
  - intros [= <- <- <-]. apply Nat.ltb_lt in E1. cbn. rewrite str_app_nil_r, str_take_all by lia. split_and!; auto.
    right. split; [done|lia].
  - apply Nat.ltb_ge in E1. destruct (_ =? _)%nat eqn:E2.
    + apply Nat.eqb_eq in E2. intros [= <- <- <-]. cbn. rewrite str_app_nil_r, str_take_all by lia.
      split_and!; auto; destruct (st_eager s); auto. right. split; [done|lia].
    + intros [= <- <- <-]. cbn. rewrite str_take_drop. split_and!; auto.
Qed.

Lemma str_take_take n m s : (n <= m)%nat → str_take n (str_take m s) = str_take n s.
Proof. revert m s. induction n as [|n IH]; intros [|m] [|c s] H; try done; try lia. cbn. by rewrite IH by lia. Qed.

Lemma bufferHTTPBody_forward s cap :
  let body' := (bufferHTTPBodyForMatchResult (Some s) cap).2 in
  st_data <$> body' = Some (st_data s) ∧ st_err <$> body' = Some (st_err s).
Proof.
  unfold bufferHTTPBodyForMatchResult. destruct (read_limited (S cap) s) as [[b err] rest] eqn:Er.
  apply read_limited_rest in Er as (Hd & He & _). destruct err; [|destruct (_ <? _)%nat]; cbn; by rewrite Hd, He.
Qed.

(** What the rules see of a body and what the upstream gets of it: the rules get
    the first [cap] bytes, flagged truncated exactly when the body is longer or
    does not end cleanly, and the body left on the request is the original,
    byte for byte and with its final error. *)
Theorem bufferHTTPBody_correct s cap :
  let '(r, body') := bufferHTTPBodyForMatchResult (Some s) cap in
  bb_body r = str_take cap (st_data s) ∧
  (bb_truncated r = true ↔ (cap < String.length (st_data s))%nat ∨ st_err s ≠ None) ∧
  bb_complete r = negb (bb_truncated r) ∧
  st_data <$> body' = Some (st_data s) ∧ st_err <$> body' = Some (st_err s).
Proof.
  unfold bufferHTTPBodyForMatchResult. destruct (read_limited (S cap) s) as [[b err] rest] eqn:Er.
  apply read_limited_rest in Er as (Hd & He & Hb & Herr & Hnone).
  assert (str_take cap b = str_take cap (st_data s)) as Ht by (rewrite Hb; apply str_take_take; lia).
  destruct err as [e|].
  - cbn. rewrite Hd, He, Ht. split; [done|]. split; [|done]. split; [|done]. intros _. right.
    destruct Herr as [?|[<- _]]; [done|]. by intros [=].
  - destruct (cap <? String.length b)%nat eqn:El; cbn; rewrite Hd, He.
    + apply Nat.ltb_lt in El. split; [done|]. split; [|done]. split; [|done]. intros _. left.
      rewrite <- Hd, str_length_app. lia.
    + apply Nat.ltb_ge in El. assert (String.length (st_data s) <= cap)%nat as Hlen.
      { destruct (decide (String.length (st_data s) <= cap)%nat); [done|]. rewrite Hb, str_length_take in El by lia. lia. }
      rewrite Hb. rewrite !str_take_all by lia. split; [done|]. split; [|done]. split; [done|].
      intros [?|Hne]; [lia|]. destruct (Hnone eq_refl); [done|lia].
Qed.
