(* ===== verification/Llm.v ===== *)
(** * The LLM approver: [internal/config/plugins/approvers/llm.go]

    A model judges a request against the operator's policy text. Its answer is
    prose, read by [parseJudgeVerdict]. A call that does not complete leaves the
    verdict open and the approve chain resolves it by [llm_fail_mode]; a
    misconfiguration denies. The model API, JSON decoding and the credential are
    parameters. *)
From S2P Require Import Prelude GoStrings NetAddr GoUrl GoHttp Policy Dispatch HitlRegistry Approver ApproveChain.

Definition LFb : ascii := ascii_of_nat 10.
Definition nl : string := String LFb "".

(** ** Prompts *)

Record LLMApprover := mkLLM { llm_Model : string; llm_Credential : string; llm_Policy : string }.

Definition truncate (s : string) (n : nat) : string :=
  let s := TrimSpace s in if (n <? String.length s)%nat then str_take n s +:+ "…" else s.

Definition indent (s prefix : string) : string := Join ((λ l, prefix +:+ l) <$> SplitByte s LFb) nl.

(** The prompt for a judge and, with another text for a missing policy, for a classifier. *)
Definition request_prompt (missing : string) (c : runApproveCtx) (policyText : string) : string :=
  "Policy:" +:+ nl +:+
  (if negb (String.eqb policyText "") then policyText else if negb (String.eqb (rc_Reason c) "") then rc_Reason c else missing) +:+
  nl +:+ nl +:+ "Request:" +:+ nl +:+
  "  method: " +:+ rc_Method c +:+ nl +:+ "  host: " +:+ rc_Host c +:+ nl +:+ "  path: " +:+ rc_Path c +:+ nl +:+
  (if negb (String.eqb (rc_UA c) "") then "  user-agent: " +:+ rc_UA c +:+ nl else "") +:+
  (if negb (String.eqb (rc_BodySample c) "") then "  body:" +:+ nl +:+ indent (truncate (rc_BodySample c) 4000) "    " +:+ nl else "").

Definition buildJudgePrompt : runApproveCtx -> string -> string :=
  request_prompt "(none — fall back to default-deny when uncertain)".
Definition buildClassifierPrompt : runApproveCtx -> string -> string := request_prompt "(none)".

(** ** Reading the answer *)

(** [strings.Trim] with the punctuation a model may put around its word. *)
Definition is_punct (c : ascii) : bool :=
  existsb (Ascii.eqb c) ["."; ","; ";"; ":"; "!"; "?"; quote_byte; "'"; "`"]%char.

Definition parseJudgeVerdict (text : string) : string * string :=
  let text := TrimSpace text in
  if String.eqb text "" then ("deny", "llm returned empty response")
  else
    let '(line, rest) := match IndexByte text LFb with
                         | Some i => (str_take i text, Some (str_drop (S i) text))
                         | None => (text, None)
                         end in
    let first := trim_by is_punct (ToLower (TrimSpace line)) in
    let reason := match rest with Some r => TrimSpace r | None => "" end in
    if String.eqb first "allow" then ("allow", reason)
    else if String.eqb first "deny" then ("deny", reason)
    else
      let lower := ToLower text in
      if Contains lower "deny" && negb (Contains lower "allow") then ("deny", text)
      else if Contains lower "allow" && negb (Contains lower "deny") then ("allow", text)
      else ("deny", "ambiguous llm response: " +:+ truncate text 200).

(** ** What an answer says *)

Definition punctuation (c : ascii) : bool := one_of_bytes ".,;:!?'`" c || Ascii.eqb c (ascii_of_nat 34).

(** A line that is the word, in any letter case, inside punctuation inside spaces. *)
Definition line_says (word line : string) : Prop :=
  ∃ sp pu pu' sp', ToLower line = sp +:+ ((pu +:+ (word +:+ pu')) +:+ sp') ∧
    str_forall is_space sp = true ∧ str_forall is_space sp' = true ∧
    str_forall punctuation pu = true ∧ str_forall punctuation pu' = true.

Definition first_line (text line : string) : Prop :=
  no_byte LFb line = true ∧ (text = line ∨ ∃ rest, text = line +:+ String LFb rest).

(** The answer approves: its first line is the word [allow], or the word occurs
    somewhere and [deny] nowhere. *)
Definition reads_allow (text : string) : Prop :=
  (∃ line, first_line (TrimSpace text) line ∧ line_says "allow" line) ∨
  (∃ a b, ToLower (TrimSpace text) = a +:+ ("allow" +:+ b)) ∧ ¬ (∃ a b, ToLower (TrimSpace text) = a +:+ ("deny" +:+ b)).

Lemma is_punct_spec c : is_punct c = punctuation c.
Proof. by byte_cases c. Qed.

Lemma punctuation_not_space c : punctuation c = true → is_space c = false.
Proof. by byte_cases c. Qed.

Lemma is_space_lower c : is_space (lower_byte c) = is_space c.
Proof. by byte_cases c. Qed.

Lemma trim_left_skip p l s : str_forall p l = true → trim_left_by p (l +:+ s) = trim_left_by p s.
Proof. induction l as [|c l IH]; cbn; [done|]. intros [-> H]%andb_true_iff. by apply IH. Qed.

Lemma trim_right_skip p s r : str_forall p r = true → trim_right_by p (s +:+ r) = trim_right_by p s.
Proof.
  intros Hr. assert (trim_right_by p r = "") as Hn.
  { induction r as [|c r IH]; cbn in *; [done|]. apply andb_true_iff in Hr as [-> H]. by rewrite IH. }
  induction s as [|c s IH]; cbn; [done|]. by rewrite IH.
Qed.

Lemma trim_right_clean p s : str_forall (λ c, negb (p c)) s = true → trim_right_by p s = s.
Proof.
  induction s as [|c s IH]; cbn; [done|]. intros [Hc Hs]%andb_true_iff. rewrite IH by done.
  destruct s; [|done]. by destruct (p c).
Qed.

(** What stands between trimmed bytes is what is left. *)
Lemma trim_between p l c m r :
  str_forall p l = true → str_forall p r = true → str_forall (λ d, negb (p d)) (String c m) = true →
  trim_by p (l +:+ (String c m +:+ r)) = String c m.
Proof.
  intros Hl Hr Hm. unfold trim_by. rewrite trim_left_skip by done.
  assert (trim_left_by p (String c m +:+ r) = String c m +:+ r) as ->.
  { cbn in Hm |- *. apply andb_true_iff in Hm as [Hc _]. by destruct (p c). }
  rewrite trim_right_skip by done. by apply trim_right_clean.
Qed.

Lemma trim_map p f s : (∀ c, p (f c) = p c) → trim_by p (str_map f s) = str_map f (trim_by p s).
Proof.
  intros Hf. unfold trim_by.
  assert (trim_left_by p (str_map f s) = str_map f (trim_left_by p s)) as ->.
  { induction s as [|c s IH]; cbn; [done|]. rewrite Hf. by destruct (p c). }
  generalize (trim_left_by p s). intros t. induction t as [|c t IH]; cbn; [done|]. rewrite IH, Hf.
  destruct (trim_right_by p t); cbn; [by destruct (p c)|done].
Qed.

(** The test of the first line is [line_says]. *)
Lemma first_word_spec line word c w :
  word = String c w → str_forall (λ d, negb (punctuation d) && negb (is_space d)) word = true →
  trim_by is_punct (ToLower (TrimSpace line)) = word ↔ line_says word line.
Proof.
  intros Hw Hc. unfold ToLower, TrimSpace. rewrite <- (trim_map is_space lower_byte) by apply is_space_lower.
  fold (ToLower line). split.
  - intros H. destruct (trim_by_spec is_space (ToLower line)) as (sp & sp' & H1 & Hsp & Hsp').
    destruct (trim_by_spec is_punct (trim_by is_space (ToLower line))) as (pu & pu' & H2 & Hpu & Hpu').
    rewrite H in H2. exists sp, pu, pu', sp'. rewrite <- H2.
    split_and!; [done..| |]; by eapply str_forall_impl; [|done]; intros d; rewrite is_punct_spec.
  - intros (sp & pu & pu' & sp' & -> & Hsp & Hsp' & Hpu & Hpu').
    assert (∃ d m, pu +:+ (word +:+ pu') = String d m) as (d & m & Hd).
    { destruct pu as [|d pu]; [|by do 2 eexists]. rewrite Hw. by do 2 eexists. }
    rewrite Hd, trim_between; [|done..|].
    + rewrite <- Hd, Hw. apply trim_between; [by eapply str_forall_impl; [|done]; intros e; rewrite is_punct_spec..|].
      rewrite <- Hw. eapply str_forall_impl; [|done]. intros e. rewrite is_punct_spec. by intros [? _]%andb_true_iff.
    + rewrite <- Hd, !str_forall_app, !andb_true_iff. split_and!; (eapply str_forall_impl; [|done]); intros e.
      * intros ?%punctuation_not_space. by destruct (is_space e).
      * by intros [_ ?]%andb_true_iff.
      * intros ?%punctuation_not_space. by destruct (is_space e).
Qed.

Lemma no_byte_index c s : no_byte c s = true ↔ IndexByte s c = None.
Proof.
  unfold no_byte. induction s as [|d s IH]; cbn; [done|]. destruct (Ascii.eqb d c) eqn:E; cbn; [done|].
  rewrite IH. by destruct (IndexByte s c).
Qed.

Lemma first_line_cut text :
  first_line text (match IndexByte text LFb with Some i => str_take i text | None => text end).
Proof.
  unfold first_line. destruct (IndexByte text LFb) as [i|] eqn:E.
  - apply IndexByte_Some in E as (a & b & -> & <- & Ha). rewrite str_take_app. split; [by apply no_byte_index|]. right. by exists b.
  - split; [by apply no_byte_index|by left].
Qed.

Lemma first_line_unique text l1 l2 : first_line text l1 → first_line text l2 → l1 = l2.
Proof.
  assert (∀ l r, no_byte LFb (l +:+ String LFb r) = false) as Hno.
  { intros l r. unfold no_byte. rewrite str_forall_app. cbn. apply andb_false_r. }
  intros [H1 [->|[r1 ->]]] [H2 [H|[r2 H]]].
  - done.
  - exfalso. rewrite H, Hno in H1. done.
  - exfalso. rewrite <- H, Hno in H2. done.
  - by apply (cut_inj LFb) in H as [-> _].
Qed.

Lemma Contains_sub s a t b : s = a +:+ (t +:+ b) → Contains s t = true.
Proof. intros ->. apply Contains_app. Qed.

(** A verdict word on the first line stands in the text. *)
Lemma first_line_contains text i word :
  trim_by is_punct (ToLower (TrimSpace (str_take i text))) = word → Contains (ToLower text) word = true.
Proof.
  intros <-. destruct (trim_by_spec is_space (str_take i text)) as (l1 & r1 & H1 & _).
  destruct (trim_by_spec is_punct (ToLower (TrimSpace (str_take i text)))) as (l2 & r2 & H2 & _).
  unfold TrimSpace in *. apply (Contains_sub _ (ToLower l1 +:+ l2) _ (r2 +:+ (ToLower r1 +:+ ToLower (str_drop i text)))).
  rewrite <- (str_take_drop i text) at 1. rewrite H1 at 1. rewrite !ToLower_app, H2 at 1. by rewrite !str_app_assoc.
Qed.

Lemma parseJudgeVerdict_decides text : fst (parseJudgeVerdict text) = "allow" ∨ fst (parseJudgeVerdict text) = "deny".
Proof. unfold parseJudgeVerdict. repeat case_match; cbn; auto. Qed.

(** The reader of the code gives [allow] for exactly the answers that read as
    [allow]. *)
Lemma parseJudgeVerdict_allow text : fst (parseJudgeVerdict text) = "allow" ↔ reads_allow text.
Proof.
  unfold parseJudgeVerdict, reads_allow. set (t := TrimSpace text).
  pose proof (first_line_cut t) as Hl. set (line := match IndexByte t LFb with Some i => str_take i t | None => t end) in *.
  assert ((∃ l, first_line t l ∧ line_says "allow" l) ↔ trim_by is_punct (ToLower (TrimSpace line)) = "allow") as ->.
  { rewrite (first_word_spec line "allow" "a" "llow") by done. split; [|eauto].
    intros (l & Hl' & Hs). by rewrite (first_line_unique t line l). }
  rewrite <- !Contains_spec. destruct (String.eqb_spec t "") as [Et|Et].
  { unfold line. rewrite Et. cbn. split; [done|]. by intros [?|[? _]]. }
  assert (∃ rest, match IndexByte t LFb with Some i => (str_take i t, Some (str_drop (S i) t)) | None => (t, None) end =
    (line, rest)) as [rest ->] by (unfold line; destruct (IndexByte t LFb); by eexists).
  assert (∃ i, line = str_take i t) as [i Hi].
  { unfold line. destruct (IndexByte t LFb) as [i|]; [by exists i|]. exists (String.length t). by rewrite str_take_all. }
  destruct (String.eqb_spec (trim_by is_punct (ToLower (TrimSpace line))) "allow") as [Ea|Ea]; [by split; auto|].
  destruct (String.eqb_spec (trim_by is_punct (ToLower (TrimSpace line))) "deny") as [Ed|Ed].
  { rewrite Hi in Ed. apply first_line_contains in Ed. cbn. split; [done|]. by intros [?|[_ ?]]. }
  destruct (Contains (ToLower t) "allow"), (Contains (ToLower t) "deny"); cbn; split; try done; auto; by intros [?|[? ?]].
Qed.

(** ** The call *)

Inductive ModelFamily := Anthropic | OpenAI.

Definition model_family (model : string) : option ModelFamily :=
  if HasPrefix model "claude-" then Some Anthropic
  else if HasPrefix model "gpt-" || HasPrefix model "o" then Some OpenAI
  else None.

(** The request to the model API: its URL, model, system and user text, and headers. *)
Record JudgeRequest := mkJudge {
  jr_URL : string;
  jr_Model : string;
  jr_System : string;
  jr_User : string;
  jr_Header : Header
}.

Definition judge_request (f : ModelFamily) (model system user : string) : JudgeRequest :=
  match f with
  | Anthropic =>
      mkJudge "https://api.anthropic.com/v1/messages" model system user
        (header_Set (header_Set ∅ "Content-Type" "application/json") "anthropic-version" "2023-06-01")
  | OpenAI => mkJudge "https://api.openai.com/v1/responses" model system user (header_Set ∅ "Content-Type" "application/json")
  end.

Inductive JudgeOutcome := CallFailed (msg : string) | Replied (status : Z) (body : string).

Definition llmStatusIsOutage (status : Z) : bool := (status =? 429) || (500 <=? status).

Definition llmUndecided (reason : string) : ApproveVerdict := mkVerdict "" reason "" "" "".
Definition llmDeny (reason : string) : ApproveVerdict := mkVerdict "deny" reason "" "" "".

Record HITLSummary := mkSummary { hs_Subject : string; hs_Label : string; hs_Confidence : Z; hs_Summary : string }.

Section Judge.
(** [encoding/json]: the (type, text) blocks of an Anthropic answer, the texts
    of an OpenAI one, a summary; the credential as an [HTTPCredentialRuntime];
    the secret store; the HTTP client. *)
Context {W : Type} (anthropic_content : string -> result (list (string * string)) string)
  (openai_output : string -> result (list (list string)) string) (unmarshal_summary : string -> option HITLSummary)
  (injector : Entity -> option (Secret -> JudgeRequest -> result JudgeRequest string))
  (secrets : string -> result Secret string) (send : JudgeRequest -> W -> W * JudgeOutcome).

Definition first_text (l : list string) : option string := List.find (λ t, negb (String.eqb t "")) l.

Definition decode_answer (f : ModelFamily) (body : string) : result string string :=
  match f with
  | Anthropic =>
      let? blocks := anthropic_content body in
      match first_text (snd <$> List.filter (λ b, String.eqb (fst b) "text") blocks) with
      | Some t => Ok t
      | None => Err "anthropic response had no text content"
      end
  | OpenAI =>
      let? outs := openai_output body in
      match first_text (concat outs) with
      | Some t => Ok t
      | None => Err "openai response had no output text"
      end
  end.

(** What both calls check and prepare: the family and the authenticated request. *)
Definition prepare (who : string) (a : LLMApprover) (policy : option CompiledPolicy) (system user : string)
    : result (ModelFamily * JudgeRequest) string :=
  if String.eqb (llm_Model a) "" then Err (who +:+ " has no model")
  else if String.eqb (llm_Credential a) "" then Err (who +:+ " has no credential")
  else match policy with
       | None => Err "no policy on request"
       | Some p =>
           match pol_Credentials p !! llm_Credential a with
           | None => Err ("credential " +:+ llm_Credential a +:+ " not declared")
           | Some ent =>
               match model_family (llm_Model a) with
               | None => Err ("unknown model family: " +:+ llm_Model a)
               | Some f =>
                   match injector ent with
                   | None => Err ("credential " +:+ llm_Credential a +:+ " does not satisfy HTTPCredentialRuntime")
                   | Some inject =>
                       match secrets (llm_Credential a) with
                       | Err e => Err ("secret fetch: " +:+ e)
                       | Ok sec =>
                           match inject sec (judge_request f (llm_Model a) system user) with
                           | Err e => Err ("credential inject: " +:+ e)
                           | Ok r => Ok (f, r)
                           end
                       end
                   end
               end
           end
       end.

(** The system prompts. *)
Context (llmJudgeSystem llmClassifierSystem : string).

(** [LLMApprover.Approve] *)
Definition llm_Approve (a : LLMApprover) (policy : option CompiledPolicy) (c : runApproveCtx) (w : W) : W * ApproveVerdict :=
  match prepare "llm approver" a policy llmJudgeSystem (buildJudgePrompt c (llm_Policy a)) with
  | Err reason => (w, llmDeny reason)
  | Ok (f, hreq) =>
      let '(w, out) := send hreq w in
      (w,
       match out with
       | CallFailed e => llmUndecided ("llm call: " +:+ e)
       | Replied status body =>
           if negb (status =? 200) then
             let reason := "llm http " +:+ Itoa (Z.to_nat status) +:+ ": " +:+ str_take 1024 body in
             if llmStatusIsOutage status then llmUndecided reason else llmDeny reason
           else match decode_answer f body with
                | Err e => llmUndecided ("llm response decode: " +:+ e)
                | Ok text =>
                    let '(verdict, reason) := parseJudgeVerdict text in
                    mkVerdict verdict reason ("llm:" +:+ llm_Model a) "" ""
                end
       end)
  end.

(** [LLMApprover.Summarize] *)
Definition Summarize (a : LLMApprover) (policy : option CompiledPolicy) (c : runApproveCtx) (w : W)
    : W * result HITLSummary string :=
  match prepare "llm classifier" a policy llmClassifierSystem (buildClassifierPrompt c (llm_Policy a)) with
  | Err reason => (w, Err reason)
  | Ok (f, hreq) =>
      let '(w, out) := send hreq w in
      (w,
       match out with
       | CallFailed e => Err ("llm call: " +:+ e)
       | Replied status body =>
           if negb (status =? 200) then Err ("llm http " +:+ Itoa (Z.to_nat status) +:+ ": " +:+ str_take 1024 body)
           else match decode_answer f body with
                | Err e => Err ("llm response decode: " +:+ e)
                | Ok text =>
                    match unmarshal_summary (TrimSpace text) with
                    | Some s => Ok s
                    | None => Err ("classifier json parse (raw: " +:+ truncate (TrimSpace text) 200 +:+ ")")
                    end
                end
       end)
  end.

(** The approver as a stage of the chain. *)
Definition llm_stage (a : LLMApprover) (policy : option CompiledPolicy) : ApproverRT (W := W) :=
  λ call w, let '(w, v) := llm_Approve a policy (sc_Ctx call) w in (w, (v, None)).

(** ** What lets a request through *)

(** The text taken from an answer: the first non-empty text block of an
    Anthropic message, the first non-empty text of an OpenAI response. *)
Definition answer_text (f : ModelFamily) (body text : string) : Prop :=
  text ≠ "" ∧
  match f with
  | Anthropic => ∃ before after, anthropic_content body = Ok (before ++ ("text", text) :: after) ∧
      ∀ block, block ∈ before → block.1 = "text" → block.2 = ""
  | OpenAI => ∃ outs before after, openai_output body = Ok outs ∧ concat outs = before ++ text :: after ∧
      ∀ t, t ∈ before → t = ""
  end.

(** The judge did not answer: no response, a rate limit or a server error, or a
    response without a text in it. *)
Definition outage (f : ModelFamily) (out : JudgeOutcome) : Prop :=
  match out with
  | CallFailed _ => True
  | Replied status body => status = 429 ∨ 500 <= status ∨ (status = 200 ∧ ¬ ∃ text, answer_text f body text)
  end.

(** The judge answered, and its answer reads as [allow]. *)
Definition judged_allow (f : ModelFamily) (out : JudgeOutcome) : Prop :=
  ∃ body text, out = Replied 200 body ∧ answer_text f body text ∧ reads_allow text.

(** The call that can be made: a model of a known family, and a credential that
    is declared, has a secret and signs requests. *)
Inductive callable (a : LLMApprover) (p : CompiledPolicy) (system user : string) : ModelFamily -> JudgeRequest -> Prop :=
| callable_as f ent inject sec hreq :
    match f with
    | Anthropic => ∃ m, llm_Model a = "claude-" +:+ m
    | OpenAI => ∃ m, llm_Model a = "gpt-" +:+ m ∨ llm_Model a = "o" +:+ m
    end →
    llm_Credential a ≠ "" → pol_Credentials p !! llm_Credential a = Some ent → injector ent = Some inject →
    secrets (llm_Credential a) = Ok sec → inject sec (judge_request f (llm_Model a) system user) = Ok hreq →
    callable a p system user f hreq.

Lemma model_family_spec model f :
  model_family model = Some f ↔
  match f with
  | Anthropic => ∃ m, model = "claude-" +:+ m
  | OpenAI => ∃ m, model = "gpt-" +:+ m ∨ model = "o" +:+ m
  end.
Proof.
  unfold model_family. destruct (HasPrefix model "claude-") eqn:Ec.
  { apply HasPrefix_spec in Ec as [m ->]. destruct f; split; try done; [by exists m|]. by intros [? [|]]. }
  assert (¬ ∃ m, model = "claude-" +:+ m) as Hc by (rewrite <- HasPrefix_spec; congruence).
  destruct (HasPrefix model "gpt-") eqn:Eg; cbn [orb].
  { apply HasPrefix_spec in Eg as [m ->]. destruct f; split; try done. intros _. exists m. by left. }
  destruct (HasPrefix model "o") eqn:Eo.
  { apply HasPrefix_spec in Eo as [m ->]. destruct f; split; try done. intros _. exists m. by right. }
  split; [done|]. destruct f; [done|]. intros [m [H|H]]; [rewrite (proj2 (HasPrefix_spec _ _)) in Eg|
    rewrite (proj2 (HasPrefix_spec _ _)) in Eo]; eauto; done.
Qed.

Lemma prepare_callable who a p system user f hreq :
  prepare who a (Some p) system user = Ok (f, hreq) ↔ callable a p system user f hreq.
Proof.
  unfold prepare. split.
  - intros H. destruct (String.eqb_spec (llm_Model a) ""); [done|]. destruct (String.eqb_spec (llm_Credential a) ""); [done|].
    repeat case_match; simplify_eq. econstructor; try done. by apply model_family_spec.
  - intros [f' ent inject sec h Hm Hc Hent Hi Hs Hh]. rewrite (proj2 (String.eqb_neq _ _) Hc).
    assert (String.eqb (llm_Model a) "" = false) as ->.
    { apply String.eqb_neq. intros E. rewrite E in Hm. destruct f'; [by destruct Hm|by destruct Hm as [? [|]]]. }
    apply model_family_spec in Hm. by rewrite Hent, Hm, Hi, Hs, Hh.
Qed.

Lemma first_text_spec l t :
  first_text l = Some t ↔ t ≠ "" ∧ ∃ before after, l = before ++ t :: after ∧ ∀ x, x ∈ before → x = "".
Proof.
  unfold first_text. rewrite find_Some_first. split.
  - intros (l1 & l2 & -> & Ht & Hl). bprop. split; [done|]. exists l1, l2. split; [done|].
    intros x Hx. rewrite Forall_forall in Hl. specialize (Hl x Hx). by bprop.
  - intros (Ht & l1 & l2 & -> & Hl). exists l1, l2. split_and!; [done|by rewrite (proj2 (String.eqb_neq _ _) Ht)|].
    apply Forall_forall. intros x Hx. by rewrite (Hl x Hx).
Qed.

Lemma first_block_spec blocks t :
  first_text (snd <$> List.filter (λ b, String.eqb (fst b) "text") blocks) = Some t ↔
  t ≠ "" ∧ ∃ before after, blocks = before ++ ("text", t) :: after ∧ ∀ b, b ∈ before → b.1 = "text" → b.2 = "".
Proof.
  induction blocks as [|[ty x] blocks IH]; cbn [List.filter fst].
  - split; [done|]. by intros (_ & [|? ?] & ? & ? & _).
  - destruct (String.eqb_spec ty "text") as [->|Hty].
    + cbn [fmap list_fmap snd first_text List.find]. destruct (String.eqb_spec x "") as [->|Hx]; cbn [negb].
      * unfold first_text in IH. rewrite IH. split; intros (Ht & b & a & H & Hb); (split; [done|]).
        -- exists (("text", "") :: b), a. rewrite H. split; [done|]. intros y [->|Hy]%elem_of_cons; [done|by apply Hb].
        -- destruct b as [|y b]; cbn in H; [by simplify_eq|]. injection H as _ H. exists b, a. split; [done|].
           intros z Hz. apply Hb. by right.
      * split; [intros [= <-]; split; [done|]; exists [], blocks; split; [done|]; intros ? ?%elem_of_nil; done|].
        intros (Ht & b & a & H & Hb). destruct b as [|y b]; cbn in H; [by simplify_eq|]. injection H as <- H.
        by specialize (Hb ("text", x) ltac:(left) eq_refl).
    + rewrite IH. split; intros (Ht & b & a & H & Hb); (split; [done|]).
      * exists ((ty, x) :: b), a. rewrite H. split; [done|]. intros y [->|Hy]%elem_of_cons; [done|by apply Hb].
      * destruct b as [|y b]; cbn in H; [by simplify_eq|]. injection H as _ H. exists b, a. split; [done|].
        intros z Hz. apply Hb. by right.
Qed.

Lemma decode_answer_spec f body text : decode_answer f body = Ok text ↔ answer_text f body text.
Proof.
  unfold decode_answer, answer_text. destruct f.
  - destruct (anthropic_content body) as [blocks|e]; cbn.
    + destruct (first_text _) as [t|] eqn:E; split.
      * intros [= <-]. apply first_block_spec in E as (? & b & a & -> & ?). split; [done|]. by exists b, a.
      * intros (Ht & b & a & [= ->] & Hb). f_equal. assert (first_text (snd <$> List.filter (λ b, String.eqb (fst b) "text") (b ++ ("text", text) :: a)) = Some text)
          by (apply first_block_spec; eauto). congruence.
      * done.
      * intros (Ht & b & a & [= ->] & Hb). assert (first_text (snd <$> List.filter (λ b, String.eqb (fst b) "text") (b ++ ("text", text) :: a)) = Some text)
          by (apply first_block_spec; eauto). congruence.
    + split; [done|]. by intros (_ & ? & ? & ? & _).
  - destruct (openai_output body) as [outs|e]; cbn.
    + destruct (first_text (concat outs)) as [t|] eqn:E; split.
      * intros [= <-]. apply first_text_spec in E as (? & b & a & ? & ?). split; [done|]. by exists outs, b, a.
      * intros (Ht & ? & b & a & [= <-] & Ho & Hb). f_equal. assert (first_text (concat outs) = Some text) by (apply first_text_spec; eauto). congruence.
      * done.
      * intros (Ht & ? & b & a & [= <-] & Ho & Hb). assert (first_text (concat outs) = Some text) by (apply first_text_spec; eauto). congruence.
    + split; [done|]. by intros (_ & ? & ? & ? & ? & _).
Qed.

(** The verdict of a call that was made. *)
Lemma llm_Approve_called a policy c w f hreq :
  prepare "llm approver" a policy llmJudgeSystem (buildJudgePrompt c (llm_Policy a)) = Ok (f, hreq) →
  let v := snd (llm_Approve a policy c w) in
  let out := snd (send hreq w) in
  (v_Decision v = "allow" ↔ judged_allow f out) ∧ (v_Decision v = "" ↔ outage f out).
Proof.
  intros Hp. cbn zeta. unfold llm_Approve, judged_allow, outage. rewrite Hp. destruct (send hreq w) as [w' out]. cbn [snd].
  destruct out as [e|status body].
  { split; [split; [done|intros (? & ? & ? & _); done]|done]. }
  destruct (Z.eqb_spec status 200) as [->|Es]; cbn [negb].
  - destruct (decode_answer f body) as [text|e] eqn:Ed; cbn [llmUndecided v_Decision].
    + pose proof (proj1 (decode_answer_spec f body text) Ed) as Ha.
      destruct (parseJudgeVerdict text) as [vd reason] eqn:Ev. cbn [v_Decision].
      pose proof (parseJudgeVerdict_decides text) as Hd. pose proof (parseJudgeVerdict_allow text) as Hr.
      rewrite Ev in Hd, Hr. cbn [fst] in Hd, Hr. split; split.
      * intros ->. exists body, text. by rewrite <- Hr.
      * intros (b & t & [= <-] & Ht & Hv). apply decode_answer_spec in Ht. rewrite Ed in Ht. injection Ht as <-. by apply Hr.
      * intros ->. by destruct Hd.
      * intros [?|[?|[_ []]]]; [lia..|eauto].
    + assert (¬ ∃ t, answer_text f body t) as Hn by (intros [t Ht%decode_answer_spec]; congruence).
      split; split; try done; [intros (b & t & [= <-] & Ht & _); exfalso; eauto|auto].
  - assert (llmStatusIsOutage status = true ↔ status = 429 ∨ 500 <= status) as Ho
      by (unfold llmStatusIsOutage; rewrite orb_true_iff, Z.eqb_eq, Z.leb_le; done).
    destruct (llmStatusIsOutage status); cbn [llmUndecided llmDeny v_Decision]; split; split; try done.
    + intros (b & t & [= ? _] & _); done.
    + intros _. destruct (proj1 Ho eq_refl); auto.
    + intros (b & t & [= ? _] & _); done.
    + intros [?|[?|[? _]]]; [|by discriminate (proj2 Ho (or_intror H))|done]. by discriminate (proj2 Ho (or_introl H)).
Qed.
End Judge.

(** ** The theorems *)

(** C29. An LLM stage of the chain allows in exactly two ways, and only if the call
    could be made (a model of a known family, a declared credential with a secret
    that signs the request). Either the judge answered 200 with a text whose first
    line is the word [allow], or in which [allow] occurs and [deny] does not; or
    the policy says [llm_fail_mode = "open"] and the judge gave no answer: the
    call failed, the status was 429 or at least 500, or a 200 held no text. So a
    missing model or credential, an unknown family and any other status deny
    whatever the fail mode. *)
Theorem llm_stage_allows {W} anthropic openai injector secrets (send : JudgeRequest -> W -> W * JudgeOutcome) sys
    (approver_of : Entity -> option (ApproverRT (W := W))) dashboard p c st ent a w :
  stage_Name st ≠ "dashboard" → pol_Approvers p !! stage_Name st = Some ent → plugin_Type (ent_Plugin ent) = "llm_approver" →
  approver_of ent = Some (llm_stage anthropic openai injector secrets send sys a (Some p)) →
  v_Decision (run_stage approver_of dashboard (Some p) c st w).1.2 = "allow" ↔
  ∃ f hreq, callable injector secrets a p sys (buildJudgePrompt c (llm_Policy a)) f hreq ∧
    (judged_allow anthropic openai f (snd (send hreq w)) ∨
     pol_LLMFailMode p = "open" ∧ outage anthropic openai f (snd (send hreq w))).
Proof.
  intros Hn He Ht Ha. unfold run_stage, find_approver. rewrite (proj2 (String.eqb_neq _ _) Hn), He, Ha, Ht.
  unfold llm_stage. cbn [sc_Ctx].
  setoid_rewrite <- (prepare_callable injector secrets "llm approver").
  destruct (prepare injector secrets "llm approver" a (Some p) sys (buildJudgePrompt c (llm_Policy a))) as [[f hreq]|e] eqn:Ep.
  - destruct (llm_Approve_called anthropic openai injector secrets send sys a (Some p) c w f hreq Ep) as [Hal Hun].
    destruct (llm_Approve anthropic openai injector secrets send sys a (Some p) c w) as [w' v] eqn:Ev. cbn [snd] in *.
    unfold stamp. cbn [v_Decision]. destruct (String.eqb (v_Decision v) "") eqn:Ed; cbn [fst snd].
    + bprop. unfold resolveUndecidedVerdict. cbn [String.eqb Ascii.eqb Bool.eqb andb v_Decision v_Reason v_By].
      destruct (String.eqb (pol_LLMFailMode p) "open") eqn:Em; cbn [v_Decision]; bprop; split; intros H.
      * exists f, hreq. split; [done|]. right. split; [done|]. by apply Hun.
      * done.
      * done.
      * destruct H as (f' & h' & [= <- <-] & [H|[H _]]); [|done]. apply Hal in H. congruence.
    + bprop. split.
      * intros H. exists f, hreq. split; [done|]. left. by apply Hal.
      * intros (f' & h' & [= <- <-] & [H|[_ H]]); [by apply Hal|]. apply Hun in H. congruence.
  - unfold llm_Approve. rewrite Ep. cbn. split; [done|]. intros (f & h & ? & _). done.
Qed.

(** A refusal can read as an approval: an answer that says "disallow", in any
    place, and nowhere "deny" (as "denied" does not) is read as [allow]. *)
Theorem judge_reads_disallow_as_allow text :
  Contains (ToLower (TrimSpace text)) "disallow" = true → Contains (ToLower (TrimSpace text)) "deny" = false →
  fst (parseJudgeVerdict text) = "allow".
Proof.
  intros Ha Hd. unfold parseJudgeVerdict. set (t := TrimSpace text) in *.
  assert (Contains (ToLower t) "allow" = true) as Hal.
  { apply Contains_spec in Ha as (a & b & H). by apply (Contains_sub _ (a +:+ "dis") _ b); rewrite H, str_app_assoc. }
  assert (∃ i, match IndexByte t LFb with Some i => (str_take i t, Some (str_drop (S i) t)) | None => (t, None) end =
    (str_take i t, match IndexByte t LFb with Some i => Some (str_drop (S i) t) | None => None end)) as [i Hi].
  { destruct (IndexByte t LFb) as [i|]; [by exists i|]. exists (String.length t). by rewrite str_take_all. }
  rewrite Hi. destruct (String.eqb t "") eqn:Et; [bprop; by rewrite Et in Ha|].
  destruct (String.eqb _ "allow"); [done|].
  destruct (String.eqb (trim_by _ _) "deny") eqn:E; [bprop; apply first_line_contains in E; congruence|].
  by rewrite Hd, Hal.
Qed.

Lemma judge_reads_disallow_as_allow_witness :
  fst (parseJudgeVerdict "Verdict: DISALLOWED, the request was denied by policy.") = "allow".
Proof. apply judge_reads_disallow_as_allow; vm_compute; reflexivity. Defined.

(** A stage whose credential is not declared, under [llm_fail_mode = "open"], and
    one whose judge is down. *)
Definition judge : LLMApprover := mkLLM "claude-x" "anthropic" "reads only".
Definition judge_entity : Entity := mkEntity "judge" (mkPlugin "approver" "llm_approver" "" None None) empty_body empty_framework.
Definition open_policy : CompiledPolicy :=
  mkPolicy "" "" "open" "" [] 0 0 "" "" ∅ ∅ ∅ {["judge" := judge_entity]} {["anthropic" := test_entity "anthropic"]}.
Definition test_ctx : runApproveCtx :=
  mkApproveCtx "10.55.0.2" "api" "GET" "/" "" "" "" (test_endpoint "e" []) (test_rule "r" 0 None (verdict "")) "p" test_request
    "" false 0.
Definition down : JudgeRequest -> unit -> unit * JudgeOutcome := λ _ w, (w, CallFailed "timeout").

Lemma llm_stage_allows_witness :
  v_Decision (run_stage (λ _, Some (llm_stage (λ _, Err "") (λ _, Err "") (λ _, Some (λ _ r, Ok r)) (λ _, Ok (mkSecret "k" ∅))
    down "sys" judge (Some open_policy))) (λ _ w, (w, (plain_allow, None))) (Some open_policy) test_ctx (mkStage "judge") tt).1.2 = "allow".
Proof.
  apply (llm_stage_allows (λ _, Err "") (λ _, Err "") (λ _, Some (λ _ r, Ok r)) (λ _, Ok (mkSecret "k" ∅)) down "sys"
    (λ _, Some (llm_stage (λ _, Err "") (λ _, Err "") (λ _, Some (λ _ r, Ok r)) (λ _, Ok (mkSecret "k" ∅)) down "sys" judge (Some open_policy)))
    (λ _ w, (w, (plain_allow, None))) open_policy test_ctx (mkStage "judge") judge_entity judge tt);
    [vm_compute; congruence|vm_compute; reflexivity|reflexivity|reflexivity|].
  eexists Anthropic, _. split; [|right; split; [reflexivity|exact I]].
  eapply callable_as; [by exists "x"|done|vm_compute; reflexivity|reflexivity..].
Defined.
