(* ===== verification/CelMatch.v ===== *)
(** * Rule conditions: [internal/config/match/cel.go]

    A condition is a CEL expression. The gateway compiles it once, lowers the
    case of the literals a lower-cased field is compared with, finds out whether
    it reads fields a request may lack, and evaluates it with those fields
    marked unknown. The expression tree is modelled as [cel-go]'s [ast.Expr];
    the parser, type checker and evaluator of [cel-go] are parameters. *)
From S2P Require Import Prelude GoStrings Policy.

(** ** Expressions *)

Inductive CelLit :=
| LitString (s : string)
| LitBool (b : bool)
| LitInt (n : Z)
| LitUint (n : Z)
| LitDouble (bits : Z)
| LitBytes (s : string)
| LitNull.

Inductive Expr :=
| EUnspecified
| EIdent (name : string)
| ESelect (operand : Expr) (field : string) (testOnly : bool)
| ECall (fn : string) (target : option Expr) (args : list Expr)
| EList (elements : list Expr)
| EMap (entries : list (Expr * Expr))
| EStruct (type_ : string) (fields : list (string * Expr))
| EComprehension (iterRange : Expr) (iterVar accuVar : string) (accuInit loopCondition loopStep result_ : Expr)
| ELiteral (v : CelLit).

(** [operators.Equals], [operators.NotEquals], [operators.In]. *)
Definition opEquals : string := "_==_".
Definition opNotEquals : string := "_!=_".
Definition opIn : string := "@in".

(** The identifiers an expression mentions. *)
Fixpoint collectReferencedVars (e : Expr) : gset string :=
  match e with
  | EIdent x => {[x]}
  | ESelect op _ _ => collectReferencedVars op
  | ECall _ t args =>
      match t with Some t => collectReferencedVars t | None => ∅ end ∪
      ⋃ (collectReferencedVars <$> args)
  | EList els => ⋃ (collectReferencedVars <$> els)
  | EMap ens => ⋃ ((λ '(k, v), collectReferencedVars k ∪ collectReferencedVars v) <$> ens)
  | EStruct _ fs => ⋃ ((λ '(_, v), collectReferencedVars v) <$> fs)
  | EComprehension r _ _ i c s z =>
      collectReferencedVars r ∪ collectReferencedVars i ∪ collectReferencedVars c ∪ collectReferencedVars s ∪
      collectReferencedVars z
  | EUnspecified | ELiteral _ => ∅
  end.

(** ** Paths *)

Record celPath := mkPath { ident : string; field : string }.

#[global] Instance celPath_eq_dec : EqDecision celPath.
Proof. solve_decision. Defined.

Definition parse_path (p : string) : option celPath :=
  match IndexByte p "." with
  | None => None
  | Some i =>
      let x := str_take i p in
      let f := str_drop (S i) p in
      if String.eqb x "" || String.eqb f "" || ContainsByte f "." then None else Some (mkPath x f)
  end.

Inductive CelError :=
| CompileFailed
| NotBool
| BadPath (p : string)
| ProgramFailed.

Fixpoint parsePaths (l : list string) : result (list celPath) CelError :=
  match l with
  | [] => Ok []
  | p :: rest =>
      match parse_path p with
      | None => Err (BadPath p)
      | Some x => let? out := parsePaths rest in Ok (x :: out)
      end
  end.

Definition path_in (paths : list celPath) (x f : string) : bool :=
  existsb (λ p, String.eqb (ident p) x && String.eqb (field p) f) paths.

Definition matchesPath (e : Expr) (paths : list celPath) : bool :=
  match e with ESelect (EIdent x) f _ => path_in paths x f | _ => false end.

Fixpoint referencesPath (paths : list celPath) (e : Expr) : bool :=
  match e with
  | ESelect op f _ =>
      match op with EIdent x => path_in paths x f | _ => false end || referencesPath paths op
  | ECall _ t args =>
      match t with Some t => referencesPath paths t | None => false end || existsb (referencesPath paths) args
  | EList els => existsb (referencesPath paths) els
  | EMap ens => existsb (λ '(k, v), referencesPath paths k || referencesPath paths v) ens
  | EStruct _ fs => existsb (λ '(_, v), referencesPath paths v) fs
  | EComprehension r _ _ i c s z =>
      referencesPath paths r || referencesPath paths i || referencesPath paths c || referencesPath paths s ||
      referencesPath paths z
  | EUnspecified | EIdent _ | ELiteral _ => false
  end.

(** ** Literals compared with a lower-cased field *)

(** What the walk does to a node because of its parent: nothing, lower the
    literal, or lower the literals of the list. *)
Inductive Mode := Keep | Lower | LowerElements.

Definition arg_modes (paths : list celPath) (fn : string) (target : option Expr) (args : list Expr) : list Mode :=
  if String.eqb fn opEquals || String.eqb fn opNotEquals then
    match args with
    | [a; b] => if matchesPath a paths then [Keep; Lower] else if matchesPath b paths then [Lower; Keep] else []
    | _ => []
    end
  else if String.eqb fn opIn then
    match args with [a; _] => if matchesPath a paths then [Keep; LowerElements] else [] | _ => [] end
  else if existsb (String.eqb fn) ["startsWith"; "endsWith"; "contains"] then
    match target with
    | Some t => if matchesPath t paths then (λ _, Lower) <$> args else []
    | None => []
    end
  else [].

Definition lower_literal (v : CelLit) : CelLit := match v with LitString s => LitString (ToLower s) | _ => v end.

Fixpoint normalize (paths : list celPath) (m : Mode) (e : Expr) : Expr :=
  match e with
  | ELiteral v => match m with Lower => ELiteral (lower_literal v) | _ => e end
  | ECall fn t args =>
      ECall fn (match t with Some t => Some (normalize paths Keep t) | None => None end)
        ((fix walk (ms : list Mode) (l : list Expr) : list Expr :=
            match l with
            | [] => []
            | a :: l' => normalize paths (List.hd Keep ms) a :: walk (List.tl ms) l'
            end) (arg_modes paths fn t args) args)
  | ESelect op f b => ESelect (normalize paths Keep op) f b
  | EList els => EList (normalize paths (match m with LowerElements => Lower | _ => Keep end) <$> els)
  | EMap ens => EMap ((λ '(k, v), (normalize paths Keep k, normalize paths Keep v)) <$> ens)
  | EStruct t fs => EStruct t ((λ '(n, v), (n, normalize paths Keep v)) <$> fs)
  | EComprehension r x y i c s z =>
      EComprehension (normalize paths Keep r) x y (normalize paths Keep i) (normalize paths Keep c)
        (normalize paths Keep s) (normalize paths Keep z)
  | EUnspecified | EIdent _ => e
  end.

Definition normalizeWantLiterals (root : Expr) (paths : list celPath) : Expr := normalize paths Keep root.

(** ** Evaluation *)

Inductive CelValue :=
| VString (s : string)
| VInt (n : Z)
| VList (l : list string)
| VMap (m : gmap string string)
| VMultiMap (m : gmap string (list string))
| VJSON (repr : string).

(** The bindings of a request: the value of each field of each variable. *)
Notation Activation := (gmap (string * string) CelValue).

(** What [cel.Program.Eval] returns: a bool, an unknown with the attributes it
    depends on, an error, or another value. *)
Inductive EvalOut :=
| EvBool (b : bool)
| EvUnknown (trails : list string)
| EvError (msg : string)
| EvOther (repr : string).

Definition unevaluable (detail : string) : Decision := mkDecision Unevaluable detail.

Fixpoint dedup (seen : list string) (l : list string) : list string :=
  match l with
  | [] => []
  | x :: l' => if existsb (String.eqb x) seen then dedup seen l' else x :: dedup (x :: seen) l'
  end.

Definition unknownDetail (trails : list string) (req : option Request) : string :=
  let causes :=
    match req with
    | Some r => (if req_Truncated r then ["bytes truncated at the inspection buffer"] else []) ++
                (if req_Unparseable r then ["statement unparseable"] else [])
    | None => []
    end in
  let cause := Join causes "; " in
  let cause := if String.eqb cause "" then "unavailable" else cause in
  "facet value(s) the gateway does not have (" +:+ cause +:+ "): " +:+ Join (dedup [] trails) ", ".

Section Cel.
(** [cel-go]: type-checked compilation (with whether the condition yields a
    bool), program construction, evaluation with a list of unknown attributes. *)
Context (compile : string -> option (Expr * bool)) (program_ok : Expr -> bool)
  (eval : Expr -> Activation -> list celPath -> EvalOut).

Record celMatcher := mkCelMatcher {
  prog : Expr;
  buildAct : option Request -> option Activation;
  refs : gset string;
  inspectsTruncatable : bool;
  truncatedUnknowns : list celPath;
  unparseableUnknowns : list celPath
}.

(** The paths to mark unknown, when the expression reads one of them. *)
Definition gate_unknowns (e : Expr) (l : list string) : result (list celPath) CelError :=
  match l with
  | [] => Ok []
  | _ => let? paths := parsePaths l in Ok (if referencesPath paths e then paths else [])
  end.

Definition CompileCondition (condition : string) (build : option Request -> option Activation)
    (lowercasedPaths truncatablePaths unparseablePaths : list string) : result celMatcher CelError :=
  match compile condition with
  | None => Err CompileFailed
  | Some (ast, yields_bool) =>
      if negb yields_bool then Err NotBool
      else
        let? ast := match lowercasedPaths with
                    | [] => Ok ast
                    | _ => let? paths := parsePaths lowercasedPaths in Ok (normalizeWantLiterals ast paths)
                    end in
        let? trunc := gate_unknowns ast truncatablePaths in
        let? unparse := gate_unknowns ast unparseablePaths in
        if negb (program_ok ast) then Err ProgramFailed
        else Ok (mkCelMatcher ast build (collectReferencedVars ast)
                   (match trunc with [] => false | _ => true end) trunc unparse)
  end.

(** The attributes marked unknown for a request. *)
Definition unknown_patterns (m : celMatcher) (req : option Request) : list celPath :=
  match req with
  | None => []
  | Some r => (if req_Truncated r then truncatedUnknowns m else []) ++
              (if req_Unparseable r then unparseableUnknowns m else [])
  end.

(** [celMatcher.Match] *)
Definition cel_Match (m : celMatcher) (req : option Request) : Decision :=
  match buildAct m req with
  | None => unevaluable "facet activation could not be built for this request"
  | Some act =>
      match eval (prog m) act (unknown_patterns m req) with
      | EvUnknown trails => unevaluable ("condition depends on " +:+ unknownDetail trails req)
      | EvError msg => unevaluable ("evaluation error: " +:+ msg)
      | EvOther repr => unevaluable ("condition yielded non-bool " +:+ repr)
      | EvBool b => mkDecision (ResultOf b) ""
      end
  end.

(** The matcher of the dispatcher's interface. *)
Definition to_Matcher (m : celMatcher) : Matcher := mkMatcher (cel_Match m) (inspectsTruncatable m).
End Cel.

(** [match.PassThrough] *)
Definition PassThrough : Matcher := mkMatcher (λ _, mkDecision Matched "") false.
