(* ===== verification/Facets.v ===== *)
(** * Facets: [internal/config/facet] and [internal/config/plugins/facets]

    The bindings each protocol family gives to rule conditions, which of them a
    request may lack, and the composition of a family's facets into a matcher. *)
From S2P Require Import Prelude GoStrings GoUrl Policy CelMatch.

(** [facet.CELContrib]. [env_name] stands for the variable and type
    declarations handed to [cel.NewEnv]. *)
Record CELContrib := mkContrib {
  env_name : string;
  AddActivation : option Request -> Activation -> option Activation;
  LowercasedPaths : list string;
  TruncatablePaths : list string;
  UnparseablePaths : list string
}.

(** Binding a variable to a struct binds every field of it. *)
Definition bind_fields (x : string) (fs : list (string * CelValue)) (act : Activation) : Activation :=
  foldl (λ a '(f, v), <[(x, f) := v]> a) act fs.

(** ** http *)

Section Http.
(** [json.Unmarshal] followed by [structpb.NewValue]. *)
Context (decode_json : string -> option CelValue).

Definition parseBodyJSON (body : string) : CelValue :=
  if String.eqb body "" then VJSON "{}" else default (VJSON "{}") (decode_json body).

Definition PathOf (u : option URL) : string := match u with Some u => url_Path u | None => "" end.

Definition http_addActivation (req : option Request) (act : Activation) : option Activation :=
  match req with
  | None => None
  | Some r =>
      Some (bind_fields "http"
        [("method", VString (ToLower (req_Method r)));
         ("path", VString (PathOf (req_URL r)));
         ("headers", VMultiMap (list_to_map (req_Headers r)));
         ("body", VString (req_Body r));
         ("query", VMultiMap (match req_URL r with Some u => ParseQuery (url_RawQuery u) | None => ∅ end));
         ("body_json", parseBodyJSON (req_Body r))] act)
  end.

Definition http_CELContrib : CELContrib :=
  mkContrib "http" http_addActivation ["http.method"] ["http.body"; "http.body_json"] [].
End Http.

(** ** sql *)

Definition databaseOf (r : Request) (m : SqlMeta) : string :=
  if negb (String.eqb (req_Database r) "") then req_Database r else sql_Database m.

Definition sql_addActivation (req : option Request) (act : Activation) : option Activation :=
  match req with
  | None => None
  | Some r =>
      match req_Meta r with
      | MetaSql m =>
          Some (bind_fields "sql"
            [("verb", VString (ToLower (sql_Verb m))); ("tables", VList (sql_Tables m));
             ("functions", VList (sql_Functions m)); ("statement", VString (sql_Statement m));
             ("database", VString (databaseOf r m))] act)
      | _ => None
      end
  end.

Definition sql_CELContrib : CELContrib :=
  mkContrib "sql" sql_addActivation ["sql.verb"] ["sql.verb"; "sql.tables"; "sql.functions"; "sql.statement"]
    ["sql.verb"; "sql.tables"; "sql.functions"].

(** ** k8s *)

Definition k8s_addActivation (req : option Request) (act : Activation) : option Activation :=
  match req with
  | None => None
  | Some r =>
      match req_Meta r with
      | MetaK8s m =>
          Some (bind_fields "k8s"
            [("verb", VString (ToLower (k8s_Verb m))); ("resource", VString (k8s_Resource m));
             ("namespace", VString (k8s_Namespace m)); ("name", VString (k8s_Name m));
             ("params", VMap (k8s_Params m))] act)
      | _ => None
      end
  end.

Definition k8s_CELContrib : CELContrib := mkContrib "k8s" k8s_addActivation ["k8s.verb"] [] [].

(** ** ssh *)

Definition userOf (r : Request) (m : SshMeta) : string :=
  if negb (String.eqb (req_User r) "") then req_User r else ssh_User m.

Definition ssh_addActivation (req : option Request) (act : Activation) : option Activation :=
  match req with
  | None => None
  | Some r =>
      match req_Meta r with
      | MetaSsh m =>
          Some (bind_fields "ssh"
            [("verb", VString (ToLower (ssh_Verb m))); ("command", VString (ssh_Command m));
             ("subsystem", VString (ssh_Subsystem m)); ("forward_host", VString (ssh_ForwardHost m));
             ("forward_port", VInt (ssh_ForwardPort m)); ("user", VString (userOf r m));
             ("stdin", VString (ssh_Stdin m))] act)
      | _ => None
      end
  end.

Definition ssh_CELContrib : CELContrib := mkContrib "ssh" ssh_addActivation ["ssh.verb"] ["ssh.stdin"] [].

(** ** Composition *)

Definition families : gmap string (list string) :=
  list_to_map [("http", ["http"]); ("sql", ["sql"]); ("k8s", ["http"; "k8s"]); ("ssh", ["ssh"])].

Definition Facets (family : string) : list string :=
  match families !! family with Some (f :: fs) => f :: fs | _ => [family] end.

(** A registered facet: its contribution, when it is a [CELContributor], and its
    own [NewMatcher]. *)
Record FacetRuntime := mkFacet {
  fr_CELContrib : option CELContrib;
  fr_NewMatcher : string -> result Matcher CelError
}.

Section Compose.
(** [cel-go], the declarations given by the names of the facets, and the facets
    registered. *)
Context (env_ok : list string -> bool) (compile : list string -> string -> option (Expr * bool))
  (program_ok : Expr -> bool) (eval : Expr -> Activation -> list celPath -> EvalOut)
  (registry : gmap string FacetRuntime).

Fixpoint contributors (names : list string) : option (list CELContrib) :=
  match names with
  | [] => Some []
  | n :: rest =>
      match registry !! n with
      | None => None
      | Some r =>
          match fr_CELContrib r, contributors rest with
          | Some c, Some cs => Some (c :: cs)
          | _, _ => None
          end
      end
  end.

(** The composed activation builder. *)
Fixpoint build_with (cs : list CELContrib) (req : option Request) (act : Activation) : option Activation :=
  match cs with
  | [] => Some act
  | c :: rest => match AddActivation c req act with Some act' => build_with rest req act' | None => None end
  end.

(** What [Compose] returns: not composable, a matcher, or an error. *)
Inductive Composed :=
| NotComposable
| ComposedPass
| ComposedCel (m : celMatcher)
| ComposeError (e : CelError).

Definition compose_paths (sel : CELContrib -> list string) (cs : list CELContrib) : list string := cs ≫= sel.

Definition Compose (family condition : string) : Composed :=
  match contributors (Facets family) with
  | None => NotComposable
  | Some cs =>
      if String.eqb condition "" then ComposedPass
      else
        let env := env_name <$> cs in
        if negb (env_ok env) then ComposeError CompileFailed
        else match CompileCondition (compile env) program_ok condition (λ req, build_with cs req ∅)
                     (compose_paths LowercasedPaths cs) (compose_paths TruncatablePaths cs)
                     (compose_paths UnparseablePaths cs) with
             | Ok m => ComposedCel m
             | Err e => ComposeError e
             end
  end.

Inductive FacetError := UnknownFamily (family : string) | MatcherError (e : CelError).

(** [facet.NewMatcher] *)
Definition NewMatcher (family condition : string) : result Matcher FacetError :=
  match registry !! family with
  | None => Err (UnknownFamily family)
  | Some r =>
      match Compose family condition with
      | ComposedPass => Ok PassThrough
      | ComposedCel m => Ok (to_Matcher eval m)
      | ComposeError e => Err (MatcherError e)
      | NotComposable =>
          match fr_NewMatcher r condition with Ok m => Ok m | Err e => Err (MatcherError e) end
      end
  end.
End Compose.

(** The facets built into the gateway; their own [NewMatcher] is [Compose],
    which [NewMatcher] has already taken. *)
Definition builtin_registry (decode_json : string -> option CelValue) : gmap string FacetRuntime :=
  list_to_map ((λ c, (env_name c, mkFacet (Some c) (λ _, Err CompileFailed))) <$>
    [http_CELContrib decode_json; sql_CELContrib; k8s_CELContrib; ssh_CELContrib]).
