(* ===== verification/K8sPath.v ===== *)
(** * Kubernetes requests: [internal/config/plugins/facets/k8s/k8s.go]

    How a request line becomes the verb, resource, namespace, name and
    parameters a rule reads, and what the facet does before matching. *)
From S2P Require Import Prelude GoStrings NetAddr GoUrl Policy Facets.

(** ** Operations *)

Definition is_specialVerb (s : string) : bool := String.eqb s "watch" || String.eqb s "proxy".
Definition is_specialVerbNoSubresources (s : string) : bool := String.eqb s "proxy".
Definition is_namespaceSubresource (s : string) : bool := String.eqb s "status" || String.eqb s "finalize".

Definition verbFromMethod (method name : string) : option string :=
  let m := ToUpper method in
  if String.eqb m "GET" || String.eqb m "HEAD" then Some (if String.eqb name "" then "list" else "get")
  else if String.eqb m "POST" then Some "create"
  else if String.eqb m "PUT" then Some "update"
  else if String.eqb m "PATCH" then Some "patch"
  else if String.eqb m "DELETE" then Some "delete"
  else None.

Definition boolParams : list string :=
  ["watch"; "allowWatchBookmarks"; "sendInitialEvents"; "orphanDependents";
   "ignoreStoreReadErrorWithClusterBreakingPotential"; "force"; "stdin"; "stdout"; "stderr"; "tty"; "follow";
   "previous"; "timestamps"; "insecureSkipTLSVerifyBackend"].

Definition apiserverBool (v : string) : bool := negb (String.eqb v "0") && negb (EqualFold v "false").

Definition FormatBool (b : bool) : string := if b then "true" else "false".

(** Each entry is rewritten on its own, so the visiting order is immaterial. *)
Definition normalizeBoolParams (p : gmap string string) : gmap string string :=
  map_imap (λ k v, Some (if existsb (String.eqb k) boolParams then FormatBool (apiserverBool v) else v)) p.

Definition isMetaPath (p : string) : bool :=
  if existsb (String.eqb p) ["api"; "apis"; "healthz"; "livez"; "readyz"; "version"; "metrics"; "openapi"] then true
  else if HasPrefix p "openapi/" then true
  else match CutPrefix p "api/" with
       | Some rest => negb (ContainsByte rest "/")
       | None => match CutPrefix p "apis/" with
                 | Some rest => (CountByte rest "/" <=? 1)%nat
                 | None => false
                 end
       end.

(** The segments after the API group and version. *)
Definition strip_group (parts : list string) : option (list string) :=
  match parts with
  | g :: _ :: rest =>
      if String.eqb g "api" then Some rest
      else if String.eqb g "apis" then match rest with _ :: rest' => Some rest' | [] => None end
      else None
  | _ => None
  end.

(** A verb taken from the path, or none. *)
Definition path_verb (parts : list string) : option (string * list string) :=
  match parts with
  | [] => None
  | v :: rest =>
      if is_specialVerb v then match rest with [] => None | _ => Some (v, rest) end else Some ("", parts)
  end.

(** The namespace, and the segments that address the object. *)
Definition path_namespace (parts : list string) : string * list string :=
  match parts with
  | n :: ns :: rest =>
      if String.eqb n "namespaces"
      then (ns, match rest with
                | sub :: _ => if is_namespaceSubresource sub then parts else rest
                | [] => parts
                end)
      else ("", parts)
  | _ => ("", parts)
  end.

(** Resource (with its subresource) and name. *)
Definition path_object (verb : string) (parts : list string) : option (string * string) :=
  match parts with
  | [] => None
  | r :: rest =>
      if String.eqb r "" then None
      else match rest with
           | [] => Some (r, "")
           | [n] => Some (r, n)
           | n :: sub :: _ => Some (if is_specialVerbNoSubresources verb then r else r +:+ "/" +:+ sub, n)
           end
  end.

(** The first value of each parameter. *)
Definition query_params (q : gmap string (list string)) : gmap string string :=
  normalizeBoolParams (omap head q).

(** A read with a true [watch] parameter is a watch. *)
Definition elevate_watch (verb : string) (params : gmap string string) : string :=
  match params !! "watch" with
  | Some v => if apiserverBool v && (String.eqb verb "get" || String.eqb verb "list") then "watch" else verb
  | None => verb
  end.

Definition parse_segments (method : string) (q : gmap string (list string)) (parts : list string) : option K8sMeta :=
  match path_verb parts with
  | None => None
  | Some (pv, parts) =>
      let '(ns, parts) := path_namespace parts in
      match path_object pv parts with
      | None => None
      | Some (resource, name) =>
          match (if String.eqb pv "" then verbFromMethod method name else Some pv) with
          | None => None
          | Some verb =>
              let params := query_params q in
              Some (mkK8sMeta (elevate_watch verb params) resource ns name params)
          end
      end
  end.

Definition meta_request : K8sMeta := mkK8sMeta "meta" "" "" "" ∅.

(** The body of [parsePath] once the URL is parsed. *)
Definition parse_target (method path rawQuery : string) : option K8sMeta :=
  let p := TrimByte path "/" in
  if isMetaPath p then Some meta_request
  else match strip_group (SplitByte p "/") with
       | None => None
       | Some parts => parse_segments method (ParseQuery rawQuery) parts
       end.

Definition parsePath (method rawURL : string) : option K8sMeta :=
  match url_Parse rawURL with
  | None => None
  | Some u => parse_target method (url_Path u) (url_RawQuery u)
  end.

Definition set_meta (m : Meta) (r : Request) : Request :=
  mkRequest (req_Family r) (req_Credential r) (req_PeerIP r) (req_Database r) (req_User r) (req_Method r) (req_URL r)
    (req_Headers r) (req_Body r) m (req_Truncated r) (req_Unparseable r).

Definition k8s_PrepareRequest (r : Request) : Request :=
  match req_URL r with
  | None => r
  | Some u => set_meta (match parsePath (req_Method r) (RequestURI u) with Some m => MetaK8s m | None => MetaNil end) r
  end.

Definition k8s_Report (r : Request) : option (list (string * string) * gmap string string) :=
  match req_Meta r with
  | MetaK8s m => Some ([("verb", k8s_Verb m); ("resource", k8s_Resource m); ("namespace", k8s_Namespace m);
                        ("name", k8s_Name m)], k8s_Params m)
  | _ => None
  end.

Example parse_exec :
  parsePath "POST" "/api/v1/namespaces/prod/pods/web/exec?stdin=1&command=sh" =
  Some (mkK8sMeta "create" "pods/exec" "prod" "web" {["stdin" := "true"; "command" := "sh"]}).
Proof. vm_compute. reflexivity. Qed.

Example parse_group_watch :
  parsePath "get" "/apis/apps/v1/watch/namespaces/prod/deployments" = Some (mkK8sMeta "watch" "deployments" "prod" "" ∅) ∧
  parsePath "GET" "/api/v1/secrets?watch=FALSE" = Some (mkK8sMeta "list" "secrets" "" "" {["watch" := "false"]}) ∧
  parsePath "TRACE" "/api/v1/secrets" = None ∧ parsePath "GET" "/api/v1/" = Some meta_request ∧
  parsePath "GET" "//x/api/v1/pods" = Some (mkK8sMeta "list" "pods" "" "" ∅).
Proof. vm_compute. done. Qed.

(** ** The tuple is that of the request on the wire *)

Lemma valid_encoded_path_byte c :
  one_of_bytes "!$&'()*+,;=:@[]%" c || negb (shouldEscape_path c) = true → path_byte c = true.
Proof. by byte_cases c. Qed.

Lemma escape_path_bytes s : str_forall path_byte (escape_path s) = true.
Proof.
  induction s as [|c s IH]; [done|]. cbn [escape_path]. destruct (shouldEscape_path c) eqn:E; cbn [str_forall].
  - rewrite IH. by byte_cases c.
  - rewrite IH, (valid_encoded_path_byte c); [done|]. rewrite E. apply orb_true_r.
Qed.

(** What [EscapedPath] prints decodes to the path. *)
Lemma EscapedPath_spec u :
  url_Path u ≠ "*" →
  str_forall path_byte (EscapedPath u) = true ∧ unescape false (EscapedPath u) = Some (url_Path u).
Proof.
  intros Hp. unfold EscapedPath.
  destruct (negb (String.eqb (url_RawPath u) "") && valid_encoded_path (url_RawPath u) && _) eqn:E.
  - apply andb_true_iff in E as [[_ Hv]%andb_true_iff Hu]. split.
    + eapply str_forall_impl; [apply valid_encoded_path_byte|done].
    + destruct (unescape false (url_RawPath u)); [|done]. bprop. by subst.
  - destruct (String.eqb (url_Path u) "*") eqn:Es; [by bprop|]. split; [apply escape_path_bytes|apply unescape_escape_path].
Qed.

(** A decoded text starts with a slash exactly when its encoding does, as long
    as the slash itself is not encoded. *)
Definition absolute (s : string) : bool := HasPrefix s "/" && negb (HasPrefix s "//").

Lemma RequestURI_path u :
  url_Opaque u = "" → absolute (EscapedPath u) = true →
  RequestURI u = EscapedPath u +:+ query_suffix (url_ForceQuery u) (url_RawQuery u).
Proof.
  intros Ho [Ha _]%andb_true_iff. unfold RequestURI, query_suffix. rewrite Ho. cbn [String.eqb].
  destruct (String.eqb (EscapedPath u) "") eqn:E; [bprop; by rewrite E in Ha|].
  destruct (url_ForceQuery u || _); [done|]. by rewrite str_app_nil_r.
Qed.

Lemma parsePath_RequestURI method u :
  url_Opaque u = "" → url_Path u ≠ "*" → absolute (EscapedPath u) = true →
  str_forall query_byte (url_RawQuery u) = true →
  parsePath method (RequestURI u) = parse_target method (url_Path u) (url_RawQuery u).
Proof.
  intros Ho Hs Ha Hq. rewrite RequestURI_path by done. destruct (EscapedPath_spec u Hs) as [Hb Hu].
  apply andb_true_iff in Ha as [Ha Ha2]. apply negb_true_iff in Ha2.
  destruct (url_Parse_absolute (EscapedPath u) (url_Path u) (url_ForceQuery u) (url_RawQuery u)) as (v & Hv & Hvp & Hvq & _);
    [done..|]. unfold parsePath. by rewrite Hv, Hvp, Hvq.
Qed.

(** A number sign ends the query the facet reads. *)
Lemma parsePath_fragment method e p q hidden :
  str_forall path_byte e = true → absolute e = true → unescape false e = Some p →
  str_forall query_byte q = true → q ≠ "" → is_Some (unescape false hidden) →
  parsePath method (e +:+ ("?" +:+ (q +:+ String "#" hidden))) = parse_target method p q.
Proof.
  intros He [Ha Ha2%negb_true_iff]%andb_true_iff Hu Hq Hne [h Hh].
  destruct (url_Parse_absolute e p false q) as (v & Hv & Hvp & Hvq & _); [done..|].
  unfold query_suffix in Hv. destruct (String.eqb q "") eqn:E; [by bprop|]. cbn [orb negb] in Hv.
  unfold parsePath, url_Parse in *.
  assert (str_forall query_byte (e +:+ ("?" +:+ q)) = true) as Hall.
  { rewrite !str_forall_app, Hq, (str_forall_impl path_byte); [done| |done].
    intros c. unfold path_byte, query_byte. by destruct (is_ctl c), (Ascii.eqb c "?"). }
  rewrite CutByte_none in Hv by (eapply (str_forall_IndexByte query_byte); done).
  replace (e +:+ ("?" +:+ (q +:+ String "#" hidden))) with ((e +:+ ("?" +:+ q)) +:+ String "#" hidden)
    by (by rewrite !str_app_assoc).
  rewrite CutByte_app by (eapply (str_forall_IndexByte query_byte); done).
  destruct (parse_url false (e +:+ ("?" +:+ q))) as [w|]; [|done].
  assert (url_Path w = p ∧ url_RawQuery w = q) as [Hp Hrq] by (cbn in Hv; by simplify_eq).
  destruct (String.eqb hidden ""); [by rewrite Hp, Hrq|]. unfold set_fragment. rewrite Hh. cbn. by rewrite Hp, Hrq.
Qed.

(** A number sign in the query of a request line is part of the query for the
    HTTP server, for [http.query] and for the upstream, but the facet drops it
    and everything after it: a parameter written behind it is forwarded and yet
    invisible to conditions on [k8s.params], and a watch is reported as a
    list. *)
Theorem k8s_query_hidden_by_fragment r u q hidden :
  req_URL r = Some u → url_Opaque u = "" → url_Path u ≠ "*" → absolute (EscapedPath u) = true →
  url_RawQuery u = q +:+ String "#" hidden →
  str_forall query_byte q = true → q ≠ "" → is_Some (unescape false hidden) →
  req_Meta (k8s_PrepareRequest r) =
  match parse_target (req_Method r) (url_Path u) q with Some m => MetaK8s m | None => MetaNil end.
Proof.
  intros Hr Ho Hs Ha Hraw Hq Hne Hh. unfold k8s_PrepareRequest. rewrite Hr, RequestURI_path by done.
  destruct (EscapedPath_spec u Hs) as [Hb Hu]. unfold query_suffix. rewrite Hraw.
  destruct (String.eqb (q +:+ _) "") eqn:E; [bprop; by apply str_app_nil_inv in E as [? _]|].
  cbn [negb]. rewrite orb_true_r. by erewrite parsePath_fragment by done.
Qed.

(** ** Requests a client sends are read back *)

(** An API request by what it addresses; the verb is "watch" or "proxy" when the
    path carries one. *)
Record K8sTarget := mkTarget {
  t_group : option string;
  t_version : string;
  t_verb : option string;
  t_namespace : option string;
  t_resource : string;
  t_name : option string;
  t_subresource : option string
}.

Definition opt_list {A} (o : option A) : list A := match o with Some x => [x] | None => [] end.

Definition object_segments (t : K8sTarget) : list string :=
  t_resource t :: opt_list (t_name t) ++ opt_list (t_subresource t).

Definition scope_segments (t : K8sTarget) : list string :=
  match t_namespace t with Some ns => ["namespaces"; ns] | None => [] end ++ object_segments t.

Definition group_segments (t : K8sTarget) : list string :=
  match t_group t with Some g => ["apis"; g; t_version t] | None => ["api"; t_version t] end.

Definition segments (t : K8sTarget) : list string := group_segments t ++ opt_list (t_verb t) ++ scope_segments t.

(** The path of the API server's URL layout. *)
Definition render (t : K8sTarget) : string := "/" +:+ Join (segments t) "/".

Definition segment_ok (s : string) : Prop := s ≠ "" ∧ IndexByte s "/" = None.

Record target_ok (t : K8sTarget) : Prop := {
  ok_segments : Forall segment_ok (segments t);
  ok_verb : ∀ v, t_verb t = Some v → v = "watch" ∨ v = "proxy";
  ok_resource : t_verb t = None → t_namespace t = None → t_resource t ≠ "watch" ∧ t_resource t ≠ "proxy";
  ok_namespaces : t_namespace t = None → t_resource t = "namespaces" →
    ∀ s, t_subresource t = Some s → s = "status" ∨ s = "finalize";
  ok_namespaced : is_Some (t_namespace t) → t_resource t ≠ "status" ∧ t_resource t ≠ "finalize";
  ok_subresource : is_Some (t_subresource t) → is_Some (t_name t) ∧ t_verb t ≠ Some "proxy"
}.

Definition target_resource (t : K8sTarget) : string :=
  t_resource t +:+ match t_subresource t with Some s => "/" +:+ s | None => "" end.

(** A namespace is in itself. *)
Definition target_namespace (t : K8sTarget) : string :=
  match t_namespace t with
  | Some ns => ns
  | None => if String.eqb (t_resource t) "namespaces" then default "" (t_name t) else ""
  end.

(** What a request does: the verb of its path, or that of its method. *)
Inductive acts (method : string) (t : K8sTarget) : string -> Prop :=
| acts_path v : t_verb t = Some v → acts method t v
| acts_get n : t_verb t = None → ToUpper method ∈ ["GET"; "HEAD"] → t_name t = Some n → acts method t "get"
| acts_list : t_verb t = None → ToUpper method ∈ ["GET"; "HEAD"] → t_name t = None → acts method t "list"
| acts_write v : t_verb t = None →
    (ToUpper method, v) ∈ [("POST", "create"); ("PUT", "update"); ("PATCH", "patch"); ("DELETE", "delete")] →
    acts method t v.

(** How the API server reads a flag. *)
Definition truthy (v : string) : bool := negb (String.eqb v "0" || String.eqb (ToLower v) "false").

(** The first value of each parameter, flags as the API server reads them. *)
Definition params_of (rawQuery : string) (params : gmap string string) : Prop :=
  ∀ k, params !! k = match ParseQuery rawQuery !! k with
                     | Some (v :: _) => Some (if decide (k ∈ boolParams) then if truthy v then "true" else "false" else v)
                     | _ => None
                     end.

(** Whether the query asks for a watch. *)
Definition asks_watch (rawQuery : string) : Prop :=
  ∃ v vs, ParseQuery rawQuery !! "watch" = Some (v :: vs) ∧ truthy v = true.

Definition target_verb (method : string) (t : K8sTarget) : option string :=
  match t_verb t with Some v => Some v | None => verbFromMethod method (default "" (t_name t)) end.

Lemma acts_verb method t v : target_ok t → acts method t v → target_verb method t = Some v.
Proof.
  intros Ht H. unfold target_verb, verbFromMethod. destruct H as [v ->|n -> Hm Hn| -> Hm Hn|v -> Hv]; [done|..].
  - assert (n ≠ "") as Hne.
    { destruct Ht as [Hseg _ _ _ _ _]. unfold segments, scope_segments, object_segments in Hseg. rewrite Hn in Hseg.
      rewrite !Forall_app in Hseg. destruct Hseg as (_ & _ & _ & [_ [[? _] _]%Forall_cons]%Forall_cons). done. }
    rewrite !elem_of_cons, elem_of_nil in Hm. rewrite Hn. cbn [default]. change (id n) with n. rewrite (proj2 (String.eqb_neq _ _) Hne).
    by destruct Hm as [->|[->|[]]].
  - rewrite !elem_of_cons, elem_of_nil in Hm. rewrite Hn. by destruct Hm as [->|[->|[]]].
  - rewrite !elem_of_cons, elem_of_nil in Hv. by destruct Hv as [[= -> ->]|[[= -> ->]|[[= -> ->]|[[= -> ->]|[]]]]].
Qed.

Lemma apiserverBool_truthy v : apiserverBool v = truthy v.
Proof. unfold apiserverBool, truthy, EqualFold. by rewrite negb_orb. Qed.

Lemma boolParams_in k : existsb (String.eqb k) boolParams = bool_decide (k ∈ boolParams).
Proof.
  apply Bool.eq_iff_eq_true. rewrite existsb_exists, bool_decide_eq_true. split.
  - intros (x & Hx & Hk). bprop. subst. by apply list_elem_of_In.
  - intros H. exists k. split; [by apply list_elem_of_In|apply String.eqb_refl].
Qed.

Lemma query_params_of raw : params_of raw (query_params (ParseQuery raw)).
Proof.
  intros k. unfold query_params, normalizeBoolParams. rewrite map_lookup_imap, lookup_omap.
  destruct (ParseQuery raw !! k) as [[|v vs]|]; cbn -[boolParams existsb decide]; [done| |done].
  rewrite boolParams_in, apiserverBool_truthy. unfold FormatBool. by repeat case_decide; repeat case_bool_decide.
Qed.

Lemma elevate_watch_spec raw v :
  (asks_watch raw ∧ (v = "get" ∨ v = "list") → elevate_watch v (query_params (ParseQuery raw)) = "watch") ∧
  (¬ (asks_watch raw ∧ (v = "get" ∨ v = "list")) → elevate_watch v (query_params (ParseQuery raw)) = v).
Proof.
  unfold elevate_watch. rewrite (query_params_of raw "watch"). unfold asks_watch.
  destruct (ParseQuery raw !! "watch") as [[|x xs]|].
  1, 3: split; [by intros [(? & ? & ? & _) _]|done].
  rewrite decide_True by (rewrite <- (bool_decide_spec ("watch" ∈ boolParams)), <- boolParams_in; done).
  rewrite apiserverBool_truthy. destruct (truthy x) eqn:Ex.
  - change (truthy "true") with true. cbn [andb].
    destruct (String.eqb_spec v "get"), (String.eqb_spec v "list"); cbn [orb]; split; try done;
      intros H; first [by destruct H as [_ [?|?]]|destruct H; split; eauto].
  - change (truthy "false") with false. cbn [andb]. split; [|done]. intros [(y & ys & [= -> ->] & Hy) _]. congruence.
Qed.

Lemma Join_last l x : x ≠ "" → IndexByte x "/" = None → ∃ s c, Join (l ++ [x]) "/" = s +:+ String c "" ∧ Ascii.eqb "/" c = false.
Proof.
  intros Hx Hs. assert (∃ s c, x = s +:+ String c "" ∧ Ascii.eqb "/" c = false) as (s & c & -> & Hc).
  { clear l. induction x as [|b x IH]; [done|]. cbn [IndexByte] in Hs. destruct (Ascii.eqb b "/") eqn:E; [done|].
    destruct x as [|b' x]; [exists "", b; split; [done|]; by rewrite Ascii.eqb_sym|].
    destruct IH as (s & c & Es & Hc); [done|by destruct (IndexByte (String b' x) "/")|].
    exists (String b s), c. split; [|done]. by rewrite Es. }
  exists (Join (l ++ [s]) "/"), c. split; [|done]. clear Hx Hs.
  induction l as [|y l IH]; [done|]. cbn [app]. destruct (l ++ [s +:+ String c ""]) as [|a m] eqn:Ea; [by destruct l|].
  destruct (l ++ [s]) as [|a' m'] eqn:Ea'; [by destruct l|]. rewrite !Join_cons, IH, !str_app_assoc. done.
Qed.

Lemma trim_render t : Forall segment_ok (segments t) → TrimByte (render t) "/" = Join (segments t) "/".
Proof.
  intros Hall. unfold TrimByte, trim_by, render. cbn [trim_left_by String.append Ascii.eqb Bool.eqb].
  assert (trim_left_by (Ascii.eqb "/") (Join (segments t) "/") = Join (segments t) "/") as ->.
  { unfold segments, group_segments. by destruct (t_group t). }
  assert (∃ l x, segments t = l ++ [x]) as (l & x & Hl).
  { clear Hall. assert (segments t ≠ []) as Hne by (unfold segments, group_segments; by destruct (t_group t)).
    destruct (exists_last Hne) as (l & x & ->). eauto. }
  rewrite Hl in *. apply Forall_app in Hall as [_ [[Hx Hs] _]%Forall_cons].
  destruct (Join_last l x Hx Hs) as (s & c & -> & Hc). by apply trim_right_by_last.
Qed.

Lemma CountByte_Join l : l ≠ [] → (length l - 1 <= CountByte (Join l "/") "/")%nat.
Proof.
  induction l as [|x [|y l] IH]; [done|simpl; lia|]. intros _. rewrite Join_cons, !CountByte_app.
  specialize (IH ltac:(done)). cbn [length CountByte] in *. rewrite Ascii.eqb_refl. lia.
Qed.

Lemma isMetaPath_render t : isMetaPath (Join (segments t) "/") = false.
Proof.
  unfold isMetaPath, segments, group_segments.
  set (rest := opt_list (t_verb t) ++ scope_segments t).
  assert (rest ≠ []) as Hr.
  { unfold rest, scope_segments, object_segments. by destruct (t_verb t), (t_namespace t). }
  destruct (t_group t) as [g|]; cbn [app].
  - destruct rest as [|a m]; [done|]. rewrite !Join_cons. cbn.
    rewrite !CountByte_app. cbn [CountByte]. rewrite Ascii.eqb_refl. apply Nat.leb_gt. rewrite CountByte_app. cbn. lia.
  - destruct rest as [|a m]; [done|]. rewrite !Join_cons. cbn. unfold ContainsByte.
    assert (CountByte (t_version t +:+ String "/" (Join (a :: m) "/")) "/" ≠ 0)%nat as Hc.
    { rewrite CountByte_app. cbn [CountByte]. rewrite Ascii.eqb_refl. lia. }
    rewrite CountByte_0 in Hc. cbn in Hc |- *. by destruct (IndexByte _ _).
Qed.

(** Reading the segments of a well-formed target. *)
Lemma parse_segments_render method q t v :
  target_ok t → target_verb method t = Some v →
  parse_segments method q (opt_list (t_verb t) ++ scope_segments t) =
  Some (mkK8sMeta (elevate_watch v (query_params q)) (target_resource t) (target_namespace t)
          (default "" (t_name t)) (query_params q)).
Proof.
  intros [Hseg Hverb Hres Hnm Hns Hsub] Hv. unfold parse_segments.
  assert (path_verb (opt_list (t_verb t) ++ scope_segments t) = Some (default "" (t_verb t), scope_segments t)) as ->.
  { unfold path_verb. destruct (t_verb t) as [w|]; cbn [opt_list app default].
    - assert (is_specialVerb w = true) as -> by (by destruct (Hverb w eq_refl) as [-> | ->]). unfold scope_segments, object_segments. by destruct (t_namespace t).
    - unfold scope_segments, object_segments in *. destruct (t_namespace t) as [ns|]; cbn [app]; [done|].
      destruct (Hres eq_refl eq_refl) as [H1 H2]. unfold is_specialVerb.
      by rewrite (proj2 (String.eqb_neq _ _) H1), (proj2 (String.eqb_neq _ _) H2). }
  assert (path_namespace (scope_segments t) = (target_namespace t, object_segments t)) as ->.
  { unfold path_namespace, scope_segments, object_segments, target_namespace. destruct (t_namespace t) as [ns|]; cbn [app].
    - cbn [String.eqb Ascii.eqb Bool.eqb]. destruct Hns as [H1 H2]; [done|]. unfold is_namespaceSubresource.
      by rewrite (proj2 (String.eqb_neq _ _) H1), (proj2 (String.eqb_neq _ _) H2).
    - destruct (t_name t) as [n|]; cbn [opt_list app default].
      + destruct (String.eqb_spec (t_resource t) "namespaces") as [E|]; [|done].
        destruct (t_subresource t) as [s|]; [|done]. cbn [opt_list]. by destruct (Hnm eq_refl E s eq_refl) as [-> | ->].
      + destruct (t_subresource t) as [s|]; [by destruct Hsub as [[? ?] _]|]. cbn. by destruct (String.eqb _ _). }
  assert (t_resource t ≠ "") as Hne.
  { unfold segments, scope_segments, object_segments in Hseg. rewrite !Forall_app in Hseg.
    destruct Hseg as (_ & _ & _ & [[? _] _]%Forall_cons). done. }
  assert (path_object (default "" (t_verb t)) (object_segments t) = Some (target_resource t, default "" (t_name t))) as ->.
  { unfold path_object, object_segments, target_resource. destruct (String.eqb (t_resource t) "") eqn:E; [by bprop|].
    destruct (t_subresource t) as [s|].
    - destruct Hsub as [[n ->] Hp]; [done|]. cbn [opt_list app default]. unfold is_specialVerbNoSubresources.
      destruct (String.eqb (default "" (t_verb t)) "proxy") eqn:Ep; [|done]. bprop.
      destruct (t_verb t) as [w|]; simpl in Ep; [by subst|done].
    - destruct (t_name t); cbn; by rewrite str_app_nil_r. }
  unfold target_verb in Hv. destruct (t_verb t) as [w|]; cbn [default] in *.
  - simplify_eq. change (id v) with v. destruct (String.eqb v "") eqn:E; [|done]. bprop. subst v. by destruct (Hverb "" eq_refl).
  - by rewrite Hv.
Qed.

(** Reading the path of a well-formed target. *)
Lemma parse_target_render method raw t v :
  target_ok t → target_verb method t = Some v →
  parse_target method (render t) raw =
  Some (mkK8sMeta (elevate_watch v (query_params (ParseQuery raw))) (target_resource t) (target_namespace t)
          (default "" (t_name t)) (query_params (ParseQuery raw))).
Proof.
  intros Ht Hv. unfold parse_target. rewrite trim_render by apply Ht. rewrite isMetaPath_render.
  rewrite (SplitByte_Join (segments t) "/").
  - assert (strip_group (segments t) = Some (opt_list (t_verb t) ++ scope_segments t)) as ->.
    { unfold segments, group_segments. by destruct (t_group t). }
    by apply parse_segments_render.
  - unfold segments, group_segments. by destruct (t_group t).
  - eapply Forall_impl; [apply Ht|]. by intros x [_ Hx].
Qed.

(** A request a client builds for an API object, with any bytes in its segments
    (percent-encoded on the line), is read back as that object: the namespace,
    the resource with its subresource, the name, and the verb of the path or
    of the method. *)
Theorem parsePath_render method t v :
  target_ok t → acts method t v →
  parsePath method (escape_path (render t)) =
  Some (mkK8sMeta v (target_resource t) (target_namespace t) (default "" (t_name t)) ∅).
Proof.
  intros Ht Hv%acts_verb; [|done]. unfold parsePath.
  assert (escape_path (render t) = String "/" (String "a" (escape_path (str_drop 2 (render t))))) as Hesc.
  { unfold render, segments, group_segments. by destruct (t_group t). }
  destruct (url_Parse_absolute (escape_path (render t)) (render t) false "") as (u & Hu & Hp & Hq & _);
    [apply escape_path_bytes|done|by rewrite Hesc|by rewrite Hesc|apply unescape_escape_path|].
  cbn [query_suffix orb negb String.eqb] in Hu. rewrite str_app_nil_r in Hu. rewrite Hu, Hp, Hq.
  rewrite (parse_target_render method "" t v) by done. by vm_compute (query_params _).
Qed.

(** C36. What the facet lets rules read is what the request asks of the API server. For
    a request whose path is that of an API object (with or without an API group,
    a verb prefix, a namespace, a name and a subresource; a namespace is in
    itself), and whose query holds no number sign or control byte, the tuple
    names that resource and subresource, namespace and name. Its parameters are
    the first values of the query, flags read as the API server reads them. Its
    verb is that of the path or of the method, except that a read whose query
    asks for a watch is a watch. *)
Theorem k8s_meta_of_wire r u t v :
  req_URL r = Some u → url_Opaque u = "" → url_Path u = render t → absolute (EscapedPath u) = true →
  str_forall query_byte (url_RawQuery u) = true → target_ok t → acts (req_Method r) t v →
  ∃ verb params,
    req_Meta (k8s_PrepareRequest r) =
      MetaK8s (mkK8sMeta verb (target_resource t) (target_namespace t) (default "" (t_name t)) params) ∧
    params_of (url_RawQuery u) params ∧
    (asks_watch (url_RawQuery u) ∧ (v = "get" ∨ v = "list") → verb = "watch") ∧
    (¬ (asks_watch (url_RawQuery u) ∧ (v = "get" ∨ v = "list")) → verb = v).
Proof.
  intros Hr Ho Hp Ha Hq Ht Hv. unfold k8s_PrepareRequest. rewrite Hr, parsePath_RequestURI, Hp by (done || by rewrite Hp).
  rewrite (parse_target_render (req_Method r) (url_RawQuery u) t v) by (done || by apply acts_verb).
  destruct (elevate_watch_spec (url_RawQuery u) v) as [H1 H2]. do 2 eexists. split_and!; [done|apply query_params_of|done|done].
Qed.

(** ** Witnesses *)

Definition hidden_watch_url : URL := mkURL "" "" "" "/api/v1/secrets" "" false "x#&watch=true" "".
Definition hidden_watch : Request :=
  mkRequest "k8s" "" "10.55.0.2" "" "" "GET" (Some hidden_watch_url) [] "" MetaNil false false.

Lemma k8s_query_hidden_by_fragment_witness :
  ParseRequestURI "/api/v1/secrets?x#&watch=true" = Some hidden_watch_url ∧
  ParseQuery (url_RawQuery hidden_watch_url) !! "watch" = Some ["true"] ∧
  req_Meta (k8s_PrepareRequest hidden_watch) = MetaK8s (mkK8sMeta "list" "secrets" "" "" {["x" := ""]}).
Proof.
  split; [vm_compute; reflexivity|]. split; [vm_compute; reflexivity|].
  rewrite (k8s_query_hidden_by_fragment hidden_watch hidden_watch_url "x" "&watch=true").
  all: vm_compute; eauto; done.
Defined.

Definition plain_watch_url : URL := mkURL "" "" "" "/api/v1/secrets" "" false "watch=1" "".
Definition plain_watch : Request :=
  mkRequest "k8s" "" "10.55.0.2" "" "" "GET" (Some plain_watch_url) [] "" MetaNil false false.

Definition secrets_target : K8sTarget := mkTarget None "v1" None None "secrets" None None.

Lemma k8s_meta_of_wire_witness :
  ∃ params, req_Meta (k8s_PrepareRequest plain_watch) = MetaK8s (mkK8sMeta "watch" "secrets" "" "" params) ∧
    params_of "watch=1" params.
Proof.
  destruct (k8s_meta_of_wire plain_watch plain_watch_url secrets_target "list") as (verb & params & H1 & H2 & H3 & _).
  1-5: reflexivity.
  - split; try done. repeat constructor; done.
  - apply acts_list; [done| |done]. vm_compute (ToUpper _). by left.
  - exists params. rewrite H1, H3; [by split|]. split; [|by right]. exists "1", []. by split; vm_compute.
Defined.

Definition exec_target : K8sTarget := mkTarget None "v1" None (Some "prod") "pods" (Some "web 1") (Some "exec").

Lemma parsePath_render_witness :
  parsePath "POST" "/api/v1/namespaces/prod/pods/web%201/exec" = Some (mkK8sMeta "create" "pods/exec" "prod" "web 1" ∅).
Proof.
  apply (parsePath_render "POST" exec_target "create").
  - split; try done. repeat constructor; done.
  - apply acts_write; [done|]. by left.
Defined.
