(* ===== verification/RequestLoop.v ===== *)
(** * Intercepted HTTPS requests: the loop of [mitmHTTPSWithCertHost] ([main.go])

    What the gateway does with one request on an intercepted connection: rule,
    retry grant, approval, verdict, header rewriting, synthetic answer,
    credential, WebSocket bridge or upstream call; and the loop that reads
    requests. TLS, certificates, body sampling and model-usage accounting are
    left out; the policy is one snapshot per request. *)
From S2P Require Import Prelude GoStrings NetAddr GoUrl GoHttp Sanitize Policy Dispatch HitlStore Fingerprint.
From S2P Require Import HitlRegistry Approver ApproveChain Facets K8sPath.

(** ** Requests and responses *)

Record WireRequest := mkWire {
  wr_Method : string;
  wr_URL : URL;
  wr_Host : string;
  wr_Header : Header;
  wr_Body : option Stream;
  wr_Close : bool
}.

Record Response := mkResponse {
  rs_Status : Z;
  rs_Header : Header;
  rs_Trailer : Header;
  rs_Body : string;
  rs_Close : bool
}.

Definition hitlRetryOperationHeader : string := "Clawpatrol-HITL-Operation".

(** The fields the approval code reads. *)
Definition http_of (r : WireRequest) : HTTPRequest :=
  mkHTTP (wr_Method r) (wr_Host r) (url_Path (wr_URL r)) (EscapedPath (wr_URL r)) (url_RawQuery (wr_URL r)) (wr_Header r).

Definition set_body (r : WireRequest) (b : option Stream) : WireRequest :=
  mkWire (wr_Method r) (wr_URL r) (wr_Host r) (wr_Header r) b (wr_Close r).

Definition isWSUpgrade (r : WireRequest) : bool :=
  Contains (ToLower (header_Get (wr_Header r) "Connection")) "upgrade" &&
  String.eqb (ToLower (header_Get (wr_Header r) "Upgrade")) "websocket".

Definition query_Get (rawQuery name : string) : string := default "" (head (default [] (ParseQuery rawQuery !! name))).

Definition ClickhouseHTTPSDatabaseFromRequest (r : WireRequest) : string :=
  let q := query_Get (url_RawQuery (wr_URL r)) "database" in
  if negb (String.eqb q "") then q else header_Get (wr_Header r) "X-ClickHouse-Database".

(** [facet.Lookup(family).PrepareRequest] of the built-in facets. *)
Definition facet_PrepareRequest (family : string) (r : Request) : Request :=
  if String.eqb family "k8s" then k8s_PrepareRequest r else r.

(** Whether the body is read before matching. *)
Definition buffers_body (r : WireRequest) (retryOperationID : string) : bool :=
  String.eqb (wr_Method r) "POST" || String.eqb (wr_Method r) "PUT" || String.eqb (wr_Method r) "PATCH" ||
  negb (String.eqb retryOperationID "").

Definition retry_operation (r : WireRequest) : string := TrimSpace (header_Get (wr_Header r) hitlRetryOperationHeader).

(** The buffered body and the request with its body re-attached. *)
Definition buffer_request (cap : nat) (r : WireRequest) : bufferedHTTPBodyResult * WireRequest :=
  if buffers_body r (retry_operation r)
  then let '(b, body) := bufferHTTPBodyForMatchResult (wr_Body r) cap in (b, set_body r body)
  else (mkBuffered "" false false None, r).

(** The snapshot the matchers read, before the credential is known. *)
Definition match_request (ep : CompiledEndpoint) (peerIP : string) (buf : bufferedHTTPBodyResult) (r : WireRequest) : Request :=
  facet_PrepareRequest (ep_Family ep)
    (mkRequest (ep_Family ep) "" peerIP
       (if String.eqb (plugin_Type (ep_Plugin ep)) "clickhouse_https" then ClickhouseHTTPSDatabaseFromRequest r else "")
       "" (wr_Method r) (Some (wr_URL r)) (map_to_list (wr_Header r)) (bb_body buf) MetaNil (bb_truncated buf) false).

Definition set_credential (r : Request) (cc : option CompiledCredential) : Request :=
  match cc with
  | Some c => mkRequest (req_Family r) (ent_Name (cc_Credential c)) (req_PeerIP r) (req_Database r) (req_User r)
                (req_Method r) (req_URL r) (req_Headers r) (req_Body r) (req_Meta r) (req_Truncated r) (req_Unparseable r)
  | None => r
  end.

(** Headers never sent upstream, unless the request upgrades to WebSocket. *)
Definition stripped_request_headers : list string :=
  ["Connection"; "Keep-Alive"; "Proxy-Authenticate"; "Proxy-Authorization"; "Te"; "Trailers"; "Transfer-Encoding";
   "Upgrade"; "Cf-Worker"; "Cf-Ray"; "Cf-Ew-Via"; "Cf-Connecting-Ip"; "Cdn-Loop"; "X-Forwarded-For"; "X-Forwarded-Host";
   "X-Forwarded-Proto"; "Via"; "X-HITL-Thread-TS"; "X-HITL-Channel"].

Definition rewrite_request (host : string) (r : WireRequest) : WireRequest :=
  let u := wr_URL r in
  let h := header_Del (wr_Header r) hitlRetryOperationHeader in
  let r' := mkWire (wr_Method r)
              (mkURL "https" (url_Opaque u) host (url_Path u) (url_RawPath u) (url_ForceQuery u) (url_RawQuery u) (url_Fragment u))
              host h (wr_Body r) (wr_Close r) in
  if isWSUpgrade r' then r'
  else mkWire (wr_Method r') (wr_URL r') host (foldl header_Del h stripped_request_headers) (wr_Body r') (wr_Close r').

(** ** Plugins, as the loop calls them *)

(** [HTTPCredentialRuntime], with [RewritesHTTPRequest] when it is declared. *)
Record Injector := mkInjector {
  inj_rewrites : bool;
  InjectHTTP : WireRequest -> Secret -> WireRequest * option string
}.

(** What the loop reaches outside itself. Calls that wait (approvers, the
    upstream, the bridge) also say what other requests did to the store in the
    meantime; [hk_others] says it for the moments between two statements. *)
Record Hooks := mkHooks {
  hk_approver : Entity -> option (@ApproverRT Store);
  hk_dashboard : @ApproverRT Store;
  hk_async : Entity -> option AsyncApprover;
  hk_responder : Plugin -> option (WireRequest -> result (option Response) string);
  hk_injector : Entity -> option Injector;
  hk_signer : Entity -> option (WireRequest -> Secret -> CompiledEndpoint -> WireRequest * option string);
  hk_rewritesWS : Entity -> bool;
  hk_secret : string -> result Secret string;
  hk_roundtrip : WireRequest -> Store -> Store * result Response string;
  hk_bridge : WireRequest -> Store -> Store;
  (** the error of writing a response to the agent *)
  hk_write : Response -> option string;
  hk_others : nat -> Store -> Store;
  hk_clock : nat -> Z;
  (** the identifier and token drawn for a parked operation *)
  hk_newID : string;
  hk_token : string
}.

(** The gateway's own settings. *)
Record GatewayView := mkGatewayView {
  gv_policy : CompiledPolicy;
  gv_publicURL : string;
  gv_bodyBuffer : nat;
  gv_times : CredentialTimes;
  gv_key : HITLFingerprintKey
}.

(** ** Effects *)

(** The audit event, as far as it records the decision. *)
Record Ev := mkEv {
  ev_Rule : string;
  ev_Action : string;
  ev_Status : Z;
  ev_Reason : string;
  ev_Approver : string;
  ev_ApproverType : string;
  ev_ApproverBy : string
}.

Inductive Effect :=
| EmitStart
| EmitEnd (ev : Ev)
(** a status the gateway writes itself: a refusal or an error *)
| Respond (status : Z) (body : string)
(** the 202 that names the parked operation *)
| RespondAccepted (op : HITLOperation)
(** a response written to the agent, upstream's or the endpoint's own *)
| Reply (r : Response)
(** a request handed to the transport, and a connection bridged *)
| Forward (r : WireRequest)
| Bridge (r : WireRequest)
(** log lines: the grant was spent, the chain ended *)
| LogGrant (op : HITLOperation)
| LogChain (v : ApproveVerdict).

(** The shared store, the number of moments passed, the effects so far, and the
    statements the requests of this connection committed: when each ran, the
    store it found and the store it left. *)
Record World := mkWorld {
  w_store : Store;
  w_tick : nat;
  w_trace : list Effect;
  w_commits : list (nat * Store * Store)
}.

(** The loop goes on to the next request or returns. *)
Inductive Ctl := LContinue | LReturn.

Definition M (A : Type) : Type := World -> World * (A + Ctl).

#[global] Instance M_ret : MRet M := λ A a w, (w, inl a).
#[global] Instance M_bind : MBind M := λ A B f m w,
  match m w with
  | (w', inl a) => f a w'
  | (w', inr c) => (w', inr c)
  end.

(** [return] or [continue] of the loop. *)
Definition leave {A} (c : Ctl) : M A := λ w, (w, inr c).
Definition eff (e : Effect) : M unit := λ w, (mkWorld (w_store w) (w_tick w) (w_trace w ++ [e]) (w_commits w), inl tt).

Section Loop.
(** HMAC-SHA-256, SHA-256 and base64; the plugins; the gateway. *)
Context (hmac : string -> string -> string) (sha256 base64 : string -> string) (hk : Hooks) (g : GatewayView).

Definition now : M Z := λ w, (mkWorld (w_store w) (S (w_tick w)) (w_trace w) (w_commits w), inl (hk_clock hk (w_tick w))).

(** A statement on the store, after whatever others committed since the last
    one. *)
Definition stmt {A} (f : Store -> Store * A) : M A := λ w,
  let s := hk_others hk (w_tick w) (w_store w) in
  let '(s', a) := f s in (mkWorld s' (S (w_tick w)) (w_trace w) (w_commits w ++ [(w_tick w, s, s')]), inl a).

(** ** The retry grant *)

Definition hitlRetryRelayFailure (e : RelayHitlError) : Z :=
  match e with StError ErrNotFound => 404 | _ => 409 end.

Definition hitlPeerPrincipalID (peerIP : string) : string := "peer:" +:+ peerIP.

(** [n] is the moment between the first read and the update. *)
Definition consume_for_request (profile principal : string) (ep : CompiledEndpoint) (cr : option CompiledRule)
    (mreq : Request) (r : WireRequest) (buf : bufferedHTTPBodyResult) (t : Z) (n : nat) (s : Store)
    : Store * result HITLOperation RelayHitlError :=
  match cr with
  | None => (s, Err (StError ErrRetryMismatch))
  | Some rule =>
      consumeHITLRetryGrantForRequest hmac sha256 base64 (hk_others hk n) (hk_others hk (S n)) (gv_times g)
        (gv_key g) (gv_policy g) (retry_operation r) profile principal ep rule mreq (http_of r) (bb_body buf)
        (bb_truncated buf) t s
  end.

Definition tick : M nat := λ w, (mkWorld (w_store w) (S (w_tick w)) (w_trace w) (w_commits w), inl (w_tick w)).

(** The operation whose grant was spent, when the request names one. The two
    moments drawn are those between the statements of the spending. *)
Definition retry_stage (profile agentAddr : string) (ep : CompiledEndpoint) (cr : option CompiledRule) (mreq : Request)
    (r : WireRequest) (buf : bufferedHTTPBodyResult) (ev : Ev) : M (option HITLOperation * Ev) :=
  if String.eqb (retry_operation r) "" then mret (None, ev)
  else
    t ← now; n ← tick; _ ← tick;
    res ← stmt (consume_for_request profile (hitlPeerPrincipalID agentAddr) ep cr mreq r buf t n);
    match res with
    | Err e =>
        let status := hitlRetryRelayFailure e in
        eff (Respond status "");;
        eff (EmitEnd (mkEv (ev_Rule ev) "hitl_retry_rejected" status
               (if status =? 404 then "hitl_operation_not_found" else "hitl_retry_mismatch") "" "" ""));;
        leave LReturn
    | Ok op =>
        eff (LogGrant op);;
        mret (Some op, mkEv (ev_Rule ev) "hitl_retry_approved" 0 "" "" "" "")
    end.

(** ** Approval *)

Definition asyncHumanApproverFor (stages : list ApproveStage) : option (string * AsyncApprover) :=
  match stages with
  | [st] =>
      if String.eqb (stage_Name st) "dashboard" then None
      else match pol_Approvers (gv_policy g) !! stage_Name st with
           | None => None
           | Some ent => match hk_async hk ent with
                         | Some ap => if ap_Enabled ap then Some (stage_Name st, ap) else None
                         | None => None
                         end
           end
  | _ => None
  end.

(** The parked operation and how long to wait on it. A failure to park is only
    logged. *)
Definition park (profile agentAddr : string) (ep : CompiledEndpoint) (rule : CompiledRule) (mreq : Request)
    (r : WireRequest) (buf : bufferedHTTPBodyResult) : M (option HITLOperation * Z) :=
  match asyncHumanApproverFor (out_Approve (rule_Outcome rule)) with
  | None => mret (None, 0)
  | Some (approverID, ap) =>
      t ← now;
      res ← stmt (maybeStartAsyncHITLOperation hmac sha256 base64 (hk_newID hk) (hk_token hk) (gv_times g) (gv_key g)
                    (gv_publicURL g) (gv_policy g) profile (hitlPeerPrincipalID agentAddr) ep rule approverID ap mreq
                    (http_of r) (bb_body buf) (bb_truncated buf) t);
      mret (match res with Ok (Some (op, _)) => (Some op, ap_SyncWait ap) | _ => (None, 0) end)
  end.

Definition chain_ctx (agentAddr host profile : string) (ep : CompiledEndpoint) (rule : CompiledRule) (mreq : Request)
    (r : WireRequest) (buf : bufferedHTTPBodyResult) (asyncOp : option HITLOperation) (syncWait : Z) : runApproveCtx :=
  let opID := match asyncOp with Some op => op_ID op | None => "" end in
  mkApproveCtx agentAddr host (wr_Method r) (RequestURI (wr_URL r)) (header_Get (wr_Header r) "User-Agent") (bb_body buf)
    (out_Reason (rule_Outcome rule)) ep rule profile mreq opID (negb (String.eqb opID "")) syncWait.

(** [transitionAsyncHITLOperation], when there is an operation; an error keeps
    the copy at hand. *)
Definition move_async (asyncOp : option HITLOperation) (to : HITLOperationState) (lastErr : string)
    : M (option HITLOperation) :=
  match asyncOp with
  | None => mret None
  | Some op =>
      t ← now;
      res ← stmt (λ s, transitionAsyncHITLOperation s op to lastErr t);
      mret (Some (match res with Ok op' => op' | Err _ => op end))
  end.

(** [transitionConsumedHITLRetryGrant] likewise. *)
Definition close_consumed (consumed : option HITLOperation) (to : HITLOperationState) (lastErr : string) : M unit :=
  match consumed with
  | None => mret tt
  | Some op => t ← now; res ← stmt (λ s, transitionConsumedHITLRetryGrant s op to lastErr t); mret tt
  end.

Definition approved_by (ev : Ev) (action : string) (status : Z) (reason : string) (v : ApproveVerdict) : Ev :=
  mkEv (ev_Rule ev) action status reason (v_ApproverName v) (v_ApproverType v) (v_By v).

(** The parked operation, if the request got past its approvers. *)
Definition approve_stage (profile agentAddr host : string) (ep : CompiledEndpoint) (cr : option CompiledRule)
    (mreq : Request) (r : WireRequest) (buf : bufferedHTTPBodyResult) (bypass : bool) (ev : Ev)
    : M (option HITLOperation * Ev) :=
  match cr with
  | None => mret (None, ev)
  | Some rule =>
      if bool_decide (out_Approve (rule_Outcome rule) = []) || bypass then mret (None, ev)
      else
        parked ← park profile agentAddr ep rule mreq r buf;
        let '(asyncOp, syncWait) := parked in
        v ← stmt (runApproveChain (hk_approver hk) (hk_dashboard hk) (Some (gv_policy g)) (out_Approve (rule_Outcome rule))
                    (chain_ctx agentAddr host profile ep rule mreq r buf asyncOp syncWait));
        eff (LogChain v);;
        if negb (String.eqb (v_Decision v) "allow") then
          if String.eqb (v_Decision v) ApproveDecisionAsyncPending && bool_decide (is_Some asyncOp) then
            op ← move_async asyncOp PendingApproval "";
            match op with
            | Some op => eff (RespondAccepted op)
            | None => mret tt
            end;;
            eff (EmitEnd (approved_by ev "hitl_async_pending" 202 (v_Reason v) v));;
            leave LReturn
          else
            move_async asyncOp Denied (v_Reason v);;
            let reason := if String.eqb (v_Reason v) "" then "denied by approver" else v_Reason v in
            eff (Respond 403 reason);;
            eff (EmitEnd (approved_by ev "denied" 403 reason v));;
            leave LReturn
        else
          op ← move_async asyncOp ExecutingUpstream "";
          mret (op, approved_by ev "approved" 0 (v_Reason v) v)
  end.

(** ** The verdict *)

Definition verdict_stage (cr : option CompiledRule) (consumed : option HITLOperation) (ev : Ev) : M unit :=
  match cr with
  | None => mret tt
  | Some rule =>
      if String.eqb (out_Verdict (rule_Outcome rule)) "deny" then
        let reason := if String.eqb (out_Reason (rule_Outcome rule)) "" then "denied by policy" else out_Reason (rule_Outcome rule) in
        close_consumed consumed UpstreamFailed reason;;
        eff (Respond 403 reason);;
        eff (EmitEnd (mkEv (ev_Rule ev) "deny" 403 reason (ev_Approver ev) (ev_ApproverType ev) (ev_ApproverBy ev)));;
        leave LReturn
      else mret tt
  end.

Definition with_status (ev : Ev) (action : string) (status : Z) (reason : string) : Ev :=
  mkEv (ev_Rule ev) action status reason (ev_Approver ev) (ev_ApproverType ev) (ev_ApproverBy ev).

(** ** Answers the endpoint gives itself *)

Definition sanitize_synth (r : Response) : Response :=
  mkResponse (rs_Status r) (stripAltSvc (stripAuthResponseHeaders (rs_Header r))) (stripAuthResponseHeaders (rs_Trailer r))
    (rs_Body r) (rs_Close r).

Definition synth_stage (ep : CompiledEndpoint) (consumed : option HITLOperation) (r : WireRequest) (ev : Ev) : M unit :=
  match hk_responder hk (ep_Plugin ep) with
  | None => mret tt
  | Some respond =>
      match respond r with
      | Ok (Some resp) =>
          let resp := sanitize_synth resp in
          eff (Reply resp);;
          match hk_write hk resp with
          | None => close_consumed consumed UpstreamSucceeded ""
          | Some e => close_consumed consumed UpstreamFailed e
          end;;
          eff (EmitEnd (with_status ev "synth" (rs_Status resp) (ev_Reason ev)));;
          leave LContinue
      | _ => mret tt
      end
  end.

(** ** Credentials *)

(** Failing to inject is fatal only for a credential that rewrites the
    request. *)
Definition credential_stage (ep : CompiledEndpoint) (cc : option CompiledCredential) (r : WireRequest) (ev : Ev)
    : M WireRequest :=
  match cc with
  | None => mret r
  | Some c =>
      let ent := cc_Credential c in
      if bool_decide (is_Some (hk_injector hk ent)) || bool_decide (is_Some (hk_signer hk ent)) ||
         hk_rewritesWS hk ent && isWSUpgrade r
      then match hk_secret hk (ent_Name ent) with
           | Err _ => mret r
           | Ok sec =>
               if String.eqb (sec_Bytes sec) "" && bool_decide (sec_Extras sec = ∅) then mret r
               else match hk_signer hk ent, hk_injector hk ent with
                    | Some sign, _ => mret (sign r sec ep).1
                    | None, Some inj =>
                        match InjectHTTP inj r sec with
                        | (r', None) => mret r'
                        | (r', Some e) =>
                            if inj_rewrites inj then
                              eff (Respond 502 "");; eff (EmitEnd (with_status ev "error" 502 e));; leave LReturn
                            else mret r'
                        end
                    | None, None => mret r
                    end
           end
      else mret r
  end.

(** ** The upstream *)

Definition ws_stage (consumed : option HITLOperation) (r : WireRequest) (ev : Ev) : M unit :=
  if isWSUpgrade r then
    eff (Bridge r);;
    stmt (λ s, (hk_bridge hk r s, tt));;
    close_consumed consumed UpstreamSucceeded "";;
    eff (EmitEnd (with_status ev "ws" 101 (ev_Reason ev)));;
    leave LReturn
  else mret tt.

Definition sanitize_response (r : Response) : Response :=
  mkResponse (rs_Status r) (stripAltSvc (stripAuthResponseHeadersPreservingBasicChallenge (rs_Header r)))
    (stripAuthResponseHeaders (rs_Trailer r)) (rs_Body r) (rs_Close r).

(** [hitlAsyncFailureReason]. *)
Definition hitlAsyncFailureReason (err : string) : string := TrimSpace err.

Definition forward_stage (consumed asyncOp : option HITLOperation) (r : WireRequest) (ev : Ev) : M unit :=
  eff (Forward r);;
  res ← stmt (hk_roundtrip hk r);
  match res with
  | Err e =>
      move_async asyncOp UpstreamFailed (hitlAsyncFailureReason e);;
      close_consumed consumed UpstreamFailed e;;
      eff (Respond 502 "");;
      eff (EmitEnd (with_status ev "error" 502 e));;
      leave LReturn
  | Ok resp =>
      let resp := sanitize_response resp in
      eff (Reply resp);;
      let writeErr := hk_write hk resp in
      close_consumed consumed (match writeErr with None => UpstreamSucceeded | Some _ => UpstreamFailed end) (default "" writeErr);;
      move_async asyncOp (match writeErr with None => UpstreamSucceeded | Some _ => UpstreamFailed end)
        (hitlAsyncFailureReason (default "" writeErr));;
      eff (EmitEnd (with_status ev (if String.eqb (ev_Action ev) "" then "allow" else ev_Action ev) (rs_Status resp) (ev_Reason ev)));;
      leave (if bool_decide (is_Some writeErr) || wr_Close r || rs_Close resp then LReturn else LContinue)
  end.

(** ** One request, and the loop *)

Definition resolve_and_match (profile peerIP : string) (ep : CompiledEndpoint) (buf : bufferedHTTPBodyResult)
    (r : WireRequest) : Request * option CompiledCredential * option CompiledRule :=
  let mreq := match_request ep peerIP buf r in
  let cc := ResolveCredential (Some (gv_policy g)) profile (Some ep) (Some mreq) in
  let mreq := set_credential mreq cc in
  (mreq, cc, MatchRequest (Some ep) (Some mreq)).

Definition handle_request (profile peerIP agentAddr host : string) (ep : CompiledEndpoint) (r : WireRequest) : M unit :=
  let '(buf, r) := buffer_request (gv_bodyBuffer g) r in
  let '(mreq, cc, cr) := resolve_and_match profile peerIP ep buf r in
  let ev := mkEv (match cr with Some rule => rule_Name rule | None => "" end) "" 0 "" "" "" "" in
  eff EmitStart;;
  consumedEv ← retry_stage profile agentAddr ep cr mreq r buf ev;
  let '(consumed, ev) := consumedEv in
  asyncEv ← approve_stage profile agentAddr host ep cr mreq r buf (bool_decide (is_Some consumed)) ev;
  let '(asyncOp, ev) := asyncEv in
  verdict_stage cr consumed ev;;
  let r := rewrite_request host r in
  synth_stage ep consumed r ev;;
  r ← credential_stage ep cc r ev;
  ws_stage consumed r ev;;
  forward_stage consumed asyncOp r ev.

(** The requests the connection delivers, until a read fails or a request ends
    the connection. *)
Fixpoint serve (profile peerIP agentAddr host : string) (ep : CompiledEndpoint) (reqs : list WireRequest) (w : World) : World :=
  match reqs with
  | [] => w
  | r :: rest =>
      match handle_request profile peerIP agentAddr host ep r w with
      | (w', inr LContinue) => serve profile peerIP agentAddr host ep rest w'
      | (w', _) => w'
      end
  end.
End Loop.
