(* ===== verification/Credentials.v ===== *)
(** * Credential plugins: [internal/config/plugins/credentials]

    What each built-in credential does to an intercepted request: the HTTP
    injectors and signers that the request loop calls after a request has been
    judged, the WebSocket rewriter, and the material handed to the other
    frontends. A secret is what the store of [Secrets] returns. The AWS signer,
    the STS presigner, Google's token source, X.509 parsing and JSON are
    parameters. *)
From S2P Require Import Prelude GoStrings NetAddr GoUrl GoHttp GoEncode Policy ApproveChain RequestLoop.

(** ** Requests *)

Definition set_header (r : WireRequest) (h : Header) : WireRequest :=
  mkWire (wr_Method r) (wr_URL r) (wr_Host r) h (wr_Body r) (wr_Close r).

Definition set_url (r : WireRequest) (u : URL) : WireRequest :=
  mkWire (wr_Method r) u (wr_Host r) (wr_Header r) (wr_Body r) (wr_Close r).

(** [req.Header.Set], [req.Header.Get]. *)
Definition Set_header (r : WireRequest) (name value : string) : WireRequest := set_header r (header_Set (wr_Header r) name value).
Definition Get_header (r : WireRequest) (name : string) : string := header_Get (wr_Header r) name.

Definition set_RawQuery (u : URL) (q : string) : URL :=
  mkURL (url_Scheme u) (url_Opaque u) (url_Host u) (url_Path u) (url_RawPath u) (url_ForceQuery u) q (url_Fragment u).

Definition set_Path (u : URL) (p raw : string) : URL :=
  mkURL (url_Scheme u) (url_Opaque u) (url_Host u) p raw (url_ForceQuery u) (url_RawQuery u) (url_Fragment u).

(** [Request.SetBasicAuth]. *)
Definition basicAuth (username password : string) : string := EncodeToString StdEncoding (username +:+ ":" +:+ password).
Definition SetBasicAuth (r : WireRequest) (username password : string) : WireRequest :=
  Set_header r "Authorization" ("Basic " +:+ basicAuth username password).

(** [q.Has] for one of [names], then [q.Del] and [Encode]. *)
Definition strip_query (names : list string) (u : URL) : URL :=
  let q := ParseQuery (url_RawQuery u) in
  if existsb (λ n, bool_decide (is_Some (q !! n))) names
  then set_RawQuery u (Encode (foldl (λ m n, delete n m) q names)) else u.

(** [io.ReadAll] of a body: the bytes or the error, and what is left to read. *)
Definition ReadAll (s : Stream) : result string string * Stream :=
  (match st_err s with Some e => Err e | None => Ok (st_data s) end, mkStream "" (st_err s) false).

(** A body over bytes in memory. *)
Definition bytes_body (b : string) : Stream := mkStream b None false.

(** An injector's result: the request as it left it, and its error. *)
Notation Injected := (WireRequest * option string)%type.

Definition bearer (token : string) (r : WireRequest) : WireRequest := Set_header r "Authorization" ("Bearer " +:+ token).

Definition empty_secret (sec : Secret) : bool := String.eqb (sec_Bytes sec) "".
Definition extra (sec : Secret) (slot : string) : string := default "" (sec_Extras sec !! slot).

(** ** Tokens in a header *)

Definition AnthropicManualKey_InjectHTTP (r : WireRequest) (sec : Secret) : Injected :=
  if empty_secret sec then (r, None) else (Set_header r "x-api-key" (sec_Bytes sec), None).

(** [ensureBeta]. *)
Definition ensureBeta (h : Header) (beta : string) : Header :=
  let cur := header_Get h "anthropic-beta" in
  if String.eqb cur "" then header_Set h "anthropic-beta" beta
  else if existsb (λ p, String.eqb (TrimSpace p) beta) (SplitByte cur ",") then h
  else header_Set h "anthropic-beta" (cur +:+ "," +:+ beta).

Definition AnthropicOAuthSubscription_InjectHTTP (r : WireRequest) (sec : Secret) : Injected :=
  if empty_secret sec then (r, None)
  else let r := bearer (sec_Bytes sec) r in (set_header r (ensureBeta (wr_Header r) "oauth-2025-04-20"), None).

Definition BasicAuth_InjectHTTP (username : string) (r : WireRequest) (sec : Secret) : Injected :=
  if empty_secret sec then (r, None) else (SetBasicAuth r username (sec_Bytes sec), None).

Definition idempotencyKeyFor (r : WireRequest) : string :=
  let k := Get_header r "X-Clawpatrol-Idempotency-Hint" in
  if negb (String.eqb k "") then k else url_Path (wr_URL r) +:+ "@" +:+ wr_Method r.

Definition BearerToken_InjectHTTP (IdempotencyKey : bool) (r : WireRequest) (sec : Secret) : Injected :=
  if empty_secret sec then (r, None)
  else
    let r := bearer (sec_Bytes sec) r in
    if IdempotencyKey && negb (String.eqb (wr_Method r) "GET") && negb (String.eqb (wr_Method r) "HEAD") &&
       String.eqb (Get_header r "Idempotency-Key") ""
    then (Set_header r "Idempotency-Key" (idempotencyKeyFor r), None) else (r, None).

Definition HeaderToken_InjectHTTP (Header_ Prefix : string) (r : WireRequest) (sec : Secret) : Injected :=
  if String.eqb Header_ "" || empty_secret sec then (r, None)
  else (Set_header r Header_ (Prefix +:+ sec_Bytes sec), None).

Definition NotionOAuth_InjectHTTP (r : WireRequest) (sec : Secret) : Injected :=
  if empty_secret sec then (r, None)
  else let r := bearer (sec_Bytes sec) r in
       if String.eqb (Get_header r "Notion-Version") "" then (Set_header r "Notion-Version" "2022-06-28", None) else (r, None).

Definition NotionMCPOAuth_InjectHTTP (r : WireRequest) (sec : Secret) : Injected :=
  if empty_secret sec then (r, None) else (bearer (sec_Bytes sec) r, None).

(** ** Cookies *)

(** [Request.AddCookie]: line breaks in the name become dashes, bytes a cookie
    value may not hold are dropped, and a value with a space or a comma is
    quoted. *)
Definition sanitizeCookieName (n : string) : string :=
  str_map (λ c, if one_of_bytes (String (ascii_of_nat 10) (String (ascii_of_nat 13) "")) c then "-"%char else c) n.

Definition validCookieValueByte (c : ascii) : bool :=
  let n := N_of_ascii c in
  ((32 <=? n) && (n <? 127))%N && negb (Ascii.eqb c quote_byte) && negb (Ascii.eqb c ";") && negb (Ascii.eqb c backslash).

Fixpoint keep_bytes (p : ascii -> bool) (s : string) : string :=
  match s with EmptyString => "" | String c s' => if p c then String c (keep_bytes p s') else keep_bytes p s' end.

Definition sanitizeCookieValue (v : string) : string :=
  let v := keep_bytes validCookieValueByte v in
  if ContainsByte v " " || ContainsByte v "," then String quote_byte (v +:+ String quote_byte "") else v.

Definition AddCookie (r : WireRequest) (name value : string) : WireRequest :=
  let s := sanitizeCookieName name +:+ "=" +:+ sanitizeCookieValue value in
  let c := Get_header r "Cookie" in
  Set_header r "Cookie" (if negb (String.eqb c "") then c +:+ "; " +:+ s else s).

Definition CookieToken_InjectHTTP (CookieName : string) (r : WireRequest) (sec : Secret) : Injected :=
  if String.eqb CookieName "" || empty_secret sec then (r, None)
  else (AddCookie r CookieName (sec_Bytes sec), None).

(** ** Credentials a client may also put in the query *)

Definition GeminiAPIKey_InjectHTTP (r : WireRequest) (sec : Secret) : Injected :=
  if empty_secret sec then (r, None)
  else let r := Set_header r "x-goog-api-key" (sec_Bytes sec) in (set_url r (strip_query ["key"] (wr_URL r)), None).

Definition ClickhouseCredential_InjectHTTP (User : string) (r : WireRequest) (sec : Secret) : Injected :=
  if String.eqb User "" || empty_secret sec then (r, None)
  else
    let r := SetBasicAuth r User (sec_Bytes sec) in
    let r := set_url r (strip_query ["user"; "password"] (wr_URL r)) in
    (set_header r (header_Del (header_Del (wr_Header r) "X-ClickHouse-User") "X-ClickHouse-Key"), None).

(** [CredentialDisambiguators] of the database credentials. *)
Definition credential_disambiguators (User Database : string) : gmap string string :=
  let out := if negb (String.eqb Database "") then <["database" := Database]> ∅ else ∅ in
  if negb (String.eqb User "") then <["user" := User]> out else out.

(** ** GitHub *)

Definition isGitHubSmartHTTP (r : WireRequest) : bool :=
  if negb (EqualFold (Hostname (wr_URL r)) "github.com") then false
  else
    let path := EscapedPath (wr_URL r) in
    if HasSuffix path ".git/info/refs" then
      let svc := query_Get (url_RawQuery (wr_URL r)) "service" in
      String.eqb svc "git-upload-pack" || String.eqb svc "git-receive-pack"
    else HasSuffix path ".git/git-upload-pack" || HasSuffix path ".git/git-receive-pack".

Definition githubBasicUsername (authz : string) : string :=
  let '(scheme, payload, ok) := CutByte authz " " in
  if negb ok || negb (EqualFold scheme "Basic") then ""
  else match DecodeString StdEncoding (TrimSpace payload) with
       | None => ""
       | Some decoded => let '(username, _, ok) := CutByte decoded ":" in if ok : bool then username else ""
       end.

Definition GitHubOAuth_InjectHTTP (r : WireRequest) (sec : Secret) : Injected :=
  if empty_secret sec then (r, None)
  else if isGitHubSmartHTTP r then
    let username := githubBasicUsername (Get_header r "Authorization") in
    let username := if String.eqb username "" then "x-access-token" else username in
    (Set_header r "Authorization" ("Basic " +:+ EncodeToString StdEncoding (username +:+ ":" +:+ sec_Bytes sec)), None)
  else (bearer (sec_Bytes sec) r, None).

(** ** Discord and Slack *)

Definition phDiscord : string := "MTAwMDAwMDAwMDAwMDAwMDAwMA.clawpatrol-placeholder-do-not-use.xxxxxxxxxxxxxxxxxxxxxxxxxxx".

Definition discordBotTokenSecret (sec : Secret) : string :=
  let v := extra sec "bot" in if negb (String.eqb v "") then v else sec_Bytes sec.

Definition DiscordBotToken_InjectHTTP (r : WireRequest) (sec : Secret) : Injected :=
  let tok := discordBotTokenSecret sec in
  if String.eqb tok "" then (r, None)
  else
    let auth := Get_header r "Authorization" in
    if Contains auth phDiscord then (Set_header r "Authorization" (ReplaceAll auth phDiscord tok), None)
    else if String.eqb auth "" then (Set_header r "Authorization" ("Bot " +:+ tok), None)
    else (r, None).

Definition slackPathPrefersApp (path : string) : bool :=
  existsb (HasPrefix path) ["/api/admin."; "/api/apps."; "/api/auth.test"].

(** [url.ParseQuery] failing: a part that is not a pair. *)
Definition query_malformed (q : string) : bool :=
  existsb (λ part, negb (String.eqb part "") && negb (bool_decide (is_Some (query_pair part)))) (SplitByte q "&").

Definition SlackTokens_InjectHTTP (r : WireRequest) (sec : Secret) : Injected :=
  let bot := extra sec "bot" in
  let app := extra sec "app" in
  let pick := if negb (String.eqb app "") && slackPathPrefersApp (url_Path (wr_URL r)) then app else bot in
  let pick := if String.eqb pick "" then sec_Bytes sec else pick in
  if String.eqb pick "" then (r, None)
  else
    let r := bearer pick r in
    if Contains (Get_header r "Content-Type") "application/x-www-form-urlencoded" then
      match wr_Body r with
      | None => (r, None)
      | Some b =>
          match ReadAll b with
          | (Err _, rest) => (set_body r (Some rest), None)
          | (Ok raw, _) =>
              if negb (query_malformed raw) && negb (String.eqb (query_Get raw "token") "")
              then (set_body r (Some (bytes_body (Encode (delete "token" (ParseQuery raw))))), None)
              else (set_body r (Some (bytes_body raw)), None)
          end
      end
    else (r, None).

(** ** Telegram *)

Definition telegramPlaceholder : string := "0000000000:clawpatrol-placeholder-do-not-use".

Definition TelegramBotToken_InjectHTTP (r : WireRequest) (sec : Secret) : Injected :=
  if empty_secret sec then (r, None)
  else
    let swap s := ReplaceAll s telegramPlaceholder (sec_Bytes sec) in
    let u := wr_URL r in
    let u := if Contains (url_Path u) telegramPlaceholder then set_Path u (swap (url_Path u)) "" else u in
    let u := if Contains (url_RawQuery u) telegramPlaceholder then set_RawQuery u (swap (url_RawQuery u)) else u in
    let r := set_url r u in
    match wr_Body r with
    | None => (r, None)
    | Some b =>
        match ReadAll b with
        | (Err e, rest) => (set_body r (Some rest), Some e)
        | (Ok buf, _) => (set_body r (Some (bytes_body (if Contains buf telegramPlaceholder then swap buf else buf))), None)
        end
    end.

(** ** OpenAI *)

Definition codexAuthAPIHost : string := "auth.openai.com".

Section Codex.
(** [json.Unmarshal] of the claims: [chatgpt_account_id] at the top, and inside
    the auth object. *)
Context (jwt_claims : string -> option (string * string)).

Definition chatgptAccountID (jwt : string) : string :=
  match SplitByte jwt "." with
  | [_; p; _] =>
      let payload := match DecodeString RawURLEncoding p with Some b => Some b | None => DecodeString URLEncoding p end in
      match payload with
      | None => ""
      | Some b => match jwt_claims b with
                  | None => ""
                  | Some (top, nested) => if negb (String.eqb top "") then top else nested
                  end
      end
  | _ => ""
  end.

Definition OpenAICodexOAuth_InjectHTTP (r : WireRequest) (sec : Secret) : Injected :=
  if empty_secret sec then (r, None)
  else if EqualFold (wr_Host r) codexAuthAPIHost || EqualFold (url_Host (wr_URL r)) codexAuthAPIHost then (r, None)
  else
    let r := bearer (sec_Bytes sec) r in
    let id := chatgptAccountID (sec_Bytes sec) in
    if negb (String.eqb id "") then (Set_header r "chatgpt-account-id" id, None) else (r, None).
End Codex.

(** ** AWS *)

Definition emptyPayloadHash : string := "e3b0c44298fc1c149afbf4c8996fb92427ae41e4649b934ca495991b7852b855".
Definition unsignedPayload : string := "UNSIGNED-PAYLOAD".
Definition DefaultBodyBufferLimit : nat := Pos.to_nat (2 ^ 20).

(** Access key id, secret access key, session token. *)
Definition awsCredentialMaterial (sec : Secret) : result (string * string * string) string :=
  let akid := extra sec "access_key_id" in
  let secret := extra sec "secret_access_key" in
  if String.eqb akid "" || String.eqb secret "" then Err "aws_credential: missing access_key_id / secret_access_key"
  else Ok (akid, secret, extra sec "session_token").

(** The text before the first comma or space. *)
Fixpoint before_any (set s : string) : string :=
  match s with EmptyString => "" | String c s' => if one_of_bytes set c then "" else String c (before_any set s') end.

(** Service and region. *)
Definition parseSigV4CredentialScope (authHeader : string) : string * string :=
  let marker := "Credential=" in
  match Index authHeader marker with
  | None => ("", "")
  | Some i =>
      match SplitByte (before_any ", " (str_drop (i + String.length marker) authHeader)) "/" with
      | [_; _; region; service; last] => if String.eqb last "aws4_request" then (service, region) else ("", "")
      | _ => ("", "")
      end
  end.

Definition serviceRegionFromHost (host : string) : string * string :=
  let host := match net_SplitHostPort host with Ok (h, _) => h | Err _ => host end in
  let host := TrimSuffix host ".amazonaws.com" in
  if String.eqb host "" then ("", "")
  else match SplitByte host "." with
       | service :: (_ :: _) as labels => (service, List.last labels "")
       | labels => (List.hd "" labels, "us-east-1")
       end.

Definition awsServiceRegion (authHeader host : string) : string * string :=
  let '(svc, reg) := parseSigV4CredentialScope authHeader in
  if negb (String.eqb svc "") && negb (String.eqb reg "") then (svc, reg) else serviceRegionFromHost host.

Section Aws.
(** SHA-256 in hex; [v4.Signer.SignHTTP] with key id, secret, token, payload hash,
    service and region; the STS presigner with its URL encoded; the endpoint as
    [awsEKSParams]. *)
Context (sha256_hex : string -> string)
  (SignHTTP : string * string * string -> string -> string -> string -> WireRequest -> Injected)
  (presign : string * string * string -> string -> string -> result string string)
  (eks_params : CompiledEndpoint -> option (string * string)) (limit : nat).

(** The hash, and the request with its body restored. *)
Definition hashRequestBody (r : WireRequest) : result string string * WireRequest :=
  match wr_Body r with
  | None => (Ok emptyPayloadHash, r)
  | Some orig =>
      match read_limited (S limit) orig with
      | (_, Some e, rest) => (Err e, set_body r (Some rest))
      | (buf, None, rest) =>
          if (limit <? String.length buf)%nat then (Ok unsignedPayload, set_body r (Some (multi_reader buf rest)))
          else (Ok (sha256_hex buf), set_body r (Some (bytes_body buf)))
      end
  end.

Definition reSignProxiedRequest (r : WireRequest) (sec : Secret) : Injected :=
  match awsCredentialMaterial sec with
  | Err e => (r, Some e)
  | Ok creds =>
      let '(service, region) := awsServiceRegion (Get_header r "Authorization") (url_Host (wr_URL r)) in
      if String.eqb service "" || String.eqb region "" then (r, Some "aws_credential: cannot derive service/region")
      else
        let '(payloadHash, r) :=
          let h := Get_header r "X-Amz-Content-Sha256" in
          if String.eqb h "" then hashRequestBody r else (Ok h, r) in
        match payloadHash with
        | Err e => (r, Some ("aws_credential: hash request body: " +:+ e))
        | Ok ph =>
            SignHTTP creds ph service region
              (set_header r (header_Del (header_Del (wr_Header r) "Authorization") "X-Amz-Security-Token"))
        end
  end.

Definition MintEKSBearer (sec : Secret) (region cluster : string) : result string string :=
  if String.eqb cluster "" || String.eqb region "" then Err "aws_credential: cluster + region are required to mint an EKS bearer"
  else let? creds := awsCredentialMaterial sec in
       let? url := presign creds region cluster in
       Ok ("k8s-aws-v1." +:+ EncodeToString RawURLEncoding url).

Definition AWSCredential_SignHTTPRequest (r : WireRequest) (sec : Secret) (ep : CompiledEndpoint) : Injected :=
  match eks_params ep with
  | None => reSignProxiedRequest r sec
  | Some (cluster, region) =>
      if String.eqb cluster "" || String.eqb region ""
      then (r, Some "aws_credential: kubernetes endpoint missing cluster_name / region")
      else match MintEKSBearer sec region cluster with
           | Err e => (r, Some e)
           | Ok b => (bearer b r, None)
           end
  end.
End Aws.

(** ** Google *)

Section Gke.
(** A token source; SHA-256 in hex; [JWTConfigFromJSON] with its [TokenSource];
    [Token]. *)
Context {TS : Type} (sha256_hex : string -> string) (JWTConfigFromJSON : string -> result TS string)
  (ts_Token : TS -> result string string).

(** [sync.Map.LoadOrStore]. *)
Definition LoadOrStore (m : gmap string TS) (k : string) (v : TS) : TS * gmap string TS :=
  match m !! k with Some actual => (actual, m) | None => (v, <[k := v]> m) end.

(** [tokenSourceForSAKey] on the shared map; [others] is what other requests did
    to it between the lookup and the store. *)
Definition tokenSourceForSAKey (others : gmap string TS -> gmap string TS) (m : gmap string TS) (saKey : string)
    : result TS string * gmap string TS :=
  let key := sha256_hex saKey in
  match m !! key with
  | Some v => (Ok v, m)
  | None =>
      match JWTConfigFromJSON saKey with
      | Err e => (Err ("google_gke_credential: parse sa_key: " +:+ e), others m)
      | Ok ts => let '(actual, m') := LoadOrStore (others m) key ts in (Ok actual, m')
      end
  end.

Definition GoogleGKECredential_SignHTTPRequest (others : gmap string TS -> gmap string TS) (m : gmap string TS)
    (r : WireRequest) (sec : Secret) : Injected * gmap string TS :=
  let saKey := extra sec "sa_key" in
  if String.eqb saKey "" then ((r, Some "google_gke_credential: missing sa_key"), m)
  else match tokenSourceForSAKey others m saKey with
       | (Err e, m') => ((r, Some e), m')
       | (Ok ts, m') =>
           match ts_Token ts with
           | Err e => ((r, Some ("google_gke_credential: mint access token: " +:+ e)), m')
           | Ok tok => ((bearer tok r, None), m')
           end
       end.
End Gke.

(** ** Material for the other frontends *)

Section Mtls.
(** A certificate and a pool; [tls.X509KeyPair], [AppendCertsFromPEM]. *)
Context {Cert Pool : Type} (X509KeyPair : string -> string -> result Cert string) (ParsePool : string -> option Pool).

Record TLSConfig := mkTLSConfig { tls_Certificates : list Cert; tls_RootCAs : option Pool }.

Definition MTLSCredential_ConfigureUpstreamTLS (cfg : TLSConfig) (sec : Secret) : TLSConfig * option string :=
  let certPEM := extra sec "cert" in
  let keyPEM := extra sec "key" in
  if String.eqb certPEM "" || String.eqb keyPEM "" then (cfg, Some "mtls credential missing cert / key")
  else match X509KeyPair certPEM keyPEM with
       | Err e => (cfg, Some ("mtls keypair: " +:+ e))
       | Ok cert =>
           let cfg := mkTLSConfig (tls_Certificates cfg ++ [cert]) (tls_RootCAs cfg) in
           let caPEM := extra sec "ca" in
           if String.eqb caPEM "" then (cfg, None)
           else match ParsePool caPEM with
                | None => (cfg, Some "mtls ca bundle: no PEM blocks parsed")
                | Some pool => (mkTLSConfig (tls_Certificates cfg) (Some pool), None)
                end
       end.
End Mtls.

(** [sshproto.Creds]. *)
Record SSHCreds := mkSSHCreds { ssh_PrivateKey : string; ssh_Passphrase : string; ssh_Password : string; ssh_HostPubkey : string }.

Definition SSHAuth (sec : Secret) : SSHCreds :=
  mkSSHCreds (extra sec "private_key") (extra sec "passphrase") (extra sec "password") (extra sec "host_pubkey").

(** ** The registered HTTP credentials *)

(** The decoded bodies that implement [HTTPCredentialRuntime]. *)
Inductive HTTPCredential :=
  | AnthropicManualKey
  | AnthropicOAuthSubscription
  | BasicAuth (Username : string)
  | BearerToken (IdempotencyKey : bool)
  | ClickhouseCredential (User : string)
  | CookieToken (CookieName : string)
  | DiscordBotToken
  | GeminiAPIKey
  | GitHubOAuth
  | HeaderToken (Header_ Prefix : string)
  | NotionOAuth
  | NotionMCPOAuth
  | OpenAICodexOAuth
  | SlackTokens
  | TelegramBotToken.

Definition InjectHTTP_of (jwt_claims : string -> option (string * string)) (c : HTTPCredential)
    : WireRequest -> Secret -> Injected :=
  match c with
  | AnthropicManualKey => AnthropicManualKey_InjectHTTP
  | AnthropicOAuthSubscription => AnthropicOAuthSubscription_InjectHTTP
  | BasicAuth u => BasicAuth_InjectHTTP u
  | BearerToken i => BearerToken_InjectHTTP i
  | ClickhouseCredential u => ClickhouseCredential_InjectHTTP u
  | CookieToken n => CookieToken_InjectHTTP n
  | DiscordBotToken => DiscordBotToken_InjectHTTP
  | GeminiAPIKey => GeminiAPIKey_InjectHTTP
  | GitHubOAuth => GitHubOAuth_InjectHTTP
  | HeaderToken h p => HeaderToken_InjectHTTP h p
  | NotionOAuth => NotionOAuth_InjectHTTP
  | NotionMCPOAuth => NotionMCPOAuth_InjectHTTP
  | OpenAICodexOAuth => OpenAICodexOAuth_InjectHTTP jwt_claims
  | SlackTokens => SlackTokens_InjectHTTP
  | TelegramBotToken => TelegramBotToken_InjectHTTP
  end.

(** The hook the request loop calls; no built-in declares [RewritesHTTPRequest]. *)
Definition builtin_injector (jwt_claims : string -> option (string * string)) (c : HTTPCredential) : Injector :=
  mkInjector false (InjectHTTP_of jwt_claims c).
