(* ===== verification/Secrets.v ===== *)
(** * Stored secrets: [cmd/clawpatrol/secrets.go], [runtime/secrets.go] and the handlers that write them

    The material a credential plugin gets comes from the dashboard's table, the
    OAuth registry or the environment, in that order. The tables are finite maps
    by primary key; a statement may fail, and then has no effect. The dashboard
    handlers of [cmd/clawpatrol/web.go] that save and clear a credential are
    programs over such statements; they hold the credential's lock, so a handler
    is one step for its credential. [os.Getenv], [os.ReadFile], the OAuth registry
    and the provider's verdict on a token are parameters. *)
From S2P Require Import Prelude GoStrings NetAddr GoUrl Policy Wire.

(** ** The tables *)

(** [credential_verifications]. *)
Record credentialVerification := mkVerification { cv_Status : string; cv_Error : string; cv_VerifiedNS : Z }.

Record SecretDB := mkSecretDB {
  (** [credential_secrets]: by credential and slot, value and [updated_ns] *)
  sd_slots : gmap (string * string) (string * Z);
  sd_verifications : gmap string credentialVerification;
  (** [credentials]: [updated_ns] by id *)
  sd_oauth : gmap string Z;
  (** [gateway_blobs]: by kind and name *)
  sd_blobs : gmap (string * string) (string * Z)
}.

Definition with_slots (db : SecretDB) (s : gmap (string * string) (string * Z)) : SecretDB :=
  mkSecretDB s (sd_verifications db) (sd_oauth db) (sd_blobs db).
Definition with_verifications (db : SecretDB) (v : gmap string credentialVerification) : SecretDB :=
  mkSecretDB (sd_slots db) v (sd_oauth db) (sd_blobs db).

(** The statements. *)
Definition upsert_slot (c slot value : string) (now : Z) (db : SecretDB) : SecretDB :=
  with_slots db (<[(c, slot) := (value, now)]> (sd_slots db)).
Definition delete_slot (c slot : string) (db : SecretDB) : SecretDB := with_slots db (delete (c, slot) (sd_slots db)).
Definition delete_slots (c : string) (db : SecretDB) : SecretDB := with_slots db (filter (λ kv, kv.1.1 ≠ c) (sd_slots db)).
Definition upsert_verification (c : string) (v : credentialVerification) (db : SecretDB) : SecretDB :=
  with_verifications db (<[c := v]> (sd_verifications db)).
Definition delete_verification (c : string) (db : SecretDB) : SecretDB :=
  with_verifications db (delete c (sd_verifications db)).

(** [SELECT slot, value FROM credential_secrets WHERE credential = ?]. *)
Definition select_slots (c : string) (db : SecretDB) : list (string * string) :=
  omap (λ kv, if String.eqb kv.1.1 c then Some (kv.1.2, kv.2.1) else None) (map_to_list (sd_slots db)).

(** The loop of [readCredentialSecrets] over a row. *)
Definition add_slot (sec : Secret) (row : string * string) : Secret :=
  if String.eqb row.1 "" then mkSecret row.2 (sec_Extras sec)
  else mkSecret (sec_Bytes sec) (<[row.1 := row.2]> (sec_Extras sec)).

(** The material, and whether a slot is stored. *)
Definition read_secrets (c : string) (db : SecretDB) : Secret * bool :=
  let rows := select_slots c db in (foldl add_slot (mkSecret "" ∅) rows, negb (bool_decide (rows = []))).

Definition slot_presence (c : string) (db : SecretDB) : gset string := list_to_set (select_slots c db).*1.

(** [credentialUpdatedAt], in seconds. *)
Definition credentialUpdatedAt (db : option SecretDB) (c : string) : Z :=
  match db with
  | None => 0
  | Some db =>
      let best := foldl Z.max 0 (omap (λ kv, if String.eqb kv.1.1 c then Some kv.2.2 else None) (map_to_list (sd_slots db))) in
      Z.quot (Z.max best (default 0 (sd_oauth db !! c))) (10 ^ 9)
  end.

(** ** The reason kept of a rejection *)

Definition verifyReasonMax : nat := 200.
Definition ellipsis : string := String (ascii_of_nat 226) (String (ascii_of_nat 128) (String (ascii_of_nat 166) "")).

(** [utf8.RuneStart]: not a continuation byte. *)
Definition RuneStart (b : ascii) : bool := negb (Z.land (byte_val b) 192 =? 128).

Fixpoint rune_cut (s : string) (cut : nat) : nat :=
  match cut with
  | O => O
  | S k => match str_drop cut s with
           | String b _ => if RuneStart b then cut else rune_cut s k
           | EmptyString => cut
           end
  end.

Definition truncateVerifyReason (s : string) : string :=
  if (String.length s <=? verifyReasonMax)%nat then s else str_take (rune_cut s verifyReasonMax) s +:+ ellipsis.

(** ** Statements that may fail *)

(** The database, the errors the next statements will get, and the probes made. *)
Inductive VerifyResult := VerifyOK | VerifyRejected (reason : string) | VerifyInconclusive (msg : string).

Record World := mkSWorld {
  sw_db : SecretDB;
  sw_faults : list (option string);
  sw_probes : list (string * Secret * VerifyResult)
}.

Definition S_ (A : Type) : Type := World -> World * result A string.

#[export] Instance S_ret : MRet S_ := λ A a w, (w, Ok a).
#[export] Instance S_bind : MBind S_ := λ A B f m w,
  match m w with (w', Ok a) => f a w' | (w', Err e) => (w', Err e) end.

(** One statement: it takes the next fault, and has no effect if that is an
    error. *)
Definition sql {A} (f : SecretDB -> SecretDB * A) : S_ A := λ w,
  match sw_faults w with
  | Some e :: rest => (mkSWorld (sw_db w) rest (sw_probes w), Err e)
  | faults => let '(db, a) := f (sw_db w) in (mkSWorld db (tail faults) (sw_probes w), Ok a)
  end.

Definition exec (f : SecretDB -> SecretDB) : S_ unit := sql (λ db, (f db, tt)).
Definition query {A} (f : SecretDB -> A) : S_ A := sql (λ db, (db, f db)).

Definition lift {A} (r : result A string) : S_ A := λ w, (w, r).

(** The error of a program as a value. *)
Definition attempt {A} (m : S_ A) : S_ (result A string) := λ w, match m w with (w', r) => (w', Ok r) end.

Definition readCredentialSecrets (c : string) : S_ (Secret * bool) := query (read_secrets c).
Definition setCredentialSlot (c slot value : string) (now : Z) : S_ unit := exec (upsert_slot c slot value now).
Definition clearCredentialSecrets (c : string) : S_ unit := exec (delete_slots c).
Definition setCredentialVerification (c status errMsg : string) (now : Z) : S_ unit :=
  exec (upsert_verification c (mkVerification status (truncateVerifyReason errMsg) now)).
Definition clearCredentialVerification (c : string) : S_ unit := exec (delete_verification c).
(** A failed query reads as no verdict. *)
Definition getCredentialVerification (c : string) : S_ (option credentialVerification) :=
  r ← attempt (query (λ db, sd_verifications db !! c)); mret (match r with Ok v => v | Err _ => None end).
Definition credentialSlotPresence (c : string) : S_ (gset string) := query (slot_presence c).

(** [gatewayBlobStore]. *)
Definition blob_Get (kind name : string) : S_ (option string) := query (λ db, fst <$> sd_blobs db !! (kind, name)).
Definition blob_Put (kind name data : string) (now : Z) : S_ unit :=
  exec (λ db, mkSecretDB (sd_slots db) (sd_verifications db) (sd_oauth db) (<[(kind, name) := (data, now)]> (sd_blobs db))).

(** ** The environment *)

Section Env.
Context (getenv : string -> string) (ReadFile : string -> result string string).

Definition envParts : list string := ["CA"; "CERT"; "KEY"; "ACCESS_KEY_ID"; "SECRET_ACCESS_KEY"; "SESSION_TOKEN"].

Definition readEnvSecret (key : string) : result string string :=
  let v := getenv key in
  if String.eqb v "" then Ok ""
  else match v with
       | String "@" path => match ReadFile path with Ok data => Ok data | Err e => Err (key +:+ "=@" +:+ path +:+ ": " +:+ e) end
       | _ => Ok v
       end.

Definition env_base (name : string) : string := "CLAWPATROL_SECRET_" +:+ ToUpper (ReplaceAll name "-" "_").

Fixpoint env_extras (base : string) (parts : list string) (sec : Secret) : result Secret string :=
  match parts with
  | [] => Ok sec
  | part :: rest =>
      let? v := readEnvSecret (base +:+ "_" +:+ part) in
      if String.eqb v "" then env_extras base rest sec
      else env_extras base rest (mkSecret (sec_Bytes sec) (<[ToLower part := v]> (sec_Extras sec)))
  end.

(** [EnvSecretStore.Get]. *)
Definition env_Get (name : string) : result Secret string :=
  if String.eqb name "" then Err "empty credential name"
  else let base := env_base name in
       let? v := readEnvSecret base in
       env_extras base envParts (mkSecret v ∅).
End Env.

(** ** The gateway's store *)

Section Store.
(** The OAuth registry's [Token], when there is one, and the environment. *)
Context (oauth_Token : option (string -> result string string)) (env : string -> result Secret string).

(** [gatewaySecretStore.Get]; [hasDB] is [s.db != nil]. *)
Definition stored_secret (hasDB : bool) (name : string) : S_ (option Secret) :=
  if hasDB then p ← readCredentialSecrets name; mret (if p.2 : bool then Some p.1 else None) else mret None.

Definition store_Get (hasDB : bool) (name : string) : S_ Secret :=
  stored ← stored_secret hasDB name;
  match stored with
  | Some sec => mret sec
  | None =>
      match oauth_Token with
      | Some token =>
          match token name with
          | Err e => lift (Err e)
          | Ok tok => if negb (String.eqb tok "") then mret (mkSecret tok ∅) else lift (env name)
          end
      | None => lift (env name)
      end
  end.

(** [SetCredentialSlot], and the tailnet node state kept through it
    ([secretStateStore] of [credentials/tailscale.go]). *)
Definition store_SetCredentialSlot (hasDB : bool) (name slot value : string) (now : Z) : S_ unit :=
  if hasDB then setCredentialSlot name slot value now else lift (Err "gateway secret store: no db").

Definition ErrStateNotExist : string := "no state with given ID".

Definition ReadState (hasDB : bool) (name id : string) : S_ string :=
  sec ← store_Get hasDB name;
  match sec_Extras sec !! id with Some v => mret v | None => lift (Err ErrStateNotExist) end.

Definition WriteState (hasDB : bool) (name id bs : string) (now : Z) : S_ unit := store_SetCredentialSlot hasDB name id bs now.
End Store.

(** ** Saving and clearing a credential *)

(** [secretsEqual]. *)
Definition secretsEqual (a b : Secret) : bool :=
  String.eqb (sec_Bytes a) (sec_Bytes b) && (size (sec_Extras a) =? size (sec_Extras b))%nat &&
  forallb (λ kv, match sec_Extras b !! kv.1 with Some bv => String.eqb bv kv.2 | None => false end) (map_to_list (sec_Extras a)).

Inductive SaveReply :=
  | SaveError (code : Z) (msg : string)
  | SaveOK
  | SaveVerified
  | SaveRejected (reason : string)
  | SaveUnverified (msg : string).

(** Slot names ([SecretSlotsProvider]) and the probe ([CredentialVerifier]) of a
    credential body, when it has them. *)
Record SlotPlugin := mkSlotPlugin { sp_slots : option (list string); sp_verify : option (Secret -> VerifyResult) }.

Section Handlers.
Context (credentials : gmap string SlotPlugin) (now : Z).

(** The loop over the slots of the body, in some order: an unknown name or a
    failing statement ends the request. *)
Fixpoint write_slots (c : string) (valid : list string) (slots : list (string * string)) : S_ (option SaveReply) :=
  match slots with
  | [] => mret None
  | (slot, v) :: rest =>
      if negb (bool_decide (slot ∈ valid)) then mret (Some (SaveError 400 ("unknown slot: " +:+ slot)))
      else
        r ← attempt (if String.eqb v "" then exec (delete_slot c slot) else setCredentialSlot c slot v now);
        match r with
        | Err e => mret (Some (SaveError 500 e))
        | Ok _ => write_slots c valid rest
        end
  end.

Definition probe (c : string) (verify : Secret -> VerifyResult) (sec : Secret) : S_ VerifyResult := λ w,
  (mkSWorld (sw_db w) (sw_faults w) (sw_probes w ++ [(c, sec, verify sec)]), Ok (verify sec)).

Definition recordVerification (c status reason : string) (reply : SaveReply) : S_ SaveReply :=
  r ← attempt (setCredentialVerification c status reason now);
  mret (match r with
        | Ok _ => reply
        | Err e => SaveError 500 ("credential saved but verification result could not be recorded: " +:+ e)
        end).

(** The rest of [apiCredentialsSet] once the slots are written, for a body that
    verifies. *)
Definition verify_saved (c : string) (verify : Secret -> VerifyResult) (before : Secret) : S_ SaveReply :=
  r ← attempt (readCredentialSecrets c);
  match r with
  | Err e => mret (SaveError 500 e)
  | Ok (sec, found) =>
      if negb found then
        _ ← attempt (clearCredentialVerification c); mret SaveOK
      else
        cleared ← (if negb (secretsEqual before sec) then attempt (clearCredentialVerification c) else mret (Ok tt));
        match cleared with
        | Err e => mret (SaveError 500 e)
        | Ok _ =>
            v ← probe c verify sec;
            match v with
            | VerifyOK => recordVerification c "ok" "" SaveVerified
            | VerifyRejected reason =>
                let reason := truncateVerifyReason reason in recordVerification c "failed" reason (SaveRejected reason)
            | VerifyInconclusive msg => mret (SaveUnverified (truncateVerifyReason ("could not verify: " +:+ msg)))
            end
        end
  end.

Definition apiCredentialsSet (c : string) (slots : list (string * string)) : S_ SaveReply :=
  if String.eqb c "" then mret (SaveError 400 "missing id")
  else match credentials !! c with
       | None => mret (SaveError 404 ("unknown credential: " +:+ c))
       | Some p =>
           match sp_slots p with
           | None => mret (SaveError 400 "credential is OAuth-flow, use /api/oauth/start")
           | Some valid =>
               before ← (match sp_verify p with
                         | Some _ => attempt (readCredentialSecrets c)
                         | None => mret (Ok (mkSecret "" ∅, false))
                         end);
               match before with
               | Err e => mret (SaveError 500 e)
               | Ok (before, _) =>
                   stop ← write_slots c valid slots;
                   match stop with
                   | Some reply => mret reply
                   | None => match sp_verify p with Some verify => verify_saved c verify before | None => mret SaveOK end
                   end
               end
           end
       end.

Definition apiCredentialsClear (c : string) : S_ SaveReply :=
  if String.eqb c "" then mret (SaveError 400 "missing id")
  else if negb (bool_decide (is_Some (credentials !! c))) then mret (SaveError 404 ("unknown credential: " +:+ c))
  else
    r ← attempt (clearCredentialSecrets c);
    match r with
    | Err e => mret (SaveError 500 e)
    | Ok _ => _ ← attempt (clearCredentialVerification c); mret SaveOK
    end.

(** [row.Connected] of a slot credential on the dashboard ([agents.go]). *)
Definition slots_connected (p : SlotPlugin) (present : gset string) (v : option credentialVerification) : bool :=
  let has := negb (bool_decide (present = ∅)) in
  match sp_slots p with
  | None => false
  | Some _ =>
      match sp_verify p, v with
      | Some _, Some v => has && String.eqb (cv_Status v) "ok"
      | _, _ => has
      end
  end.
End Handlers.
