(* ===== verification/SecretsProps.v ===== *)
(** * What the secret store returns, and which verdicts it keeps *)
From S2P Require Import Prelude GoStrings NetAddr GoUrl GoHttp Policy Wire RequestLoop Credentials Secrets.

(** ** Reading slots *)

(** The stored value of a slot. *)
Definition slot_value (c s : string) (db : SecretDB) : option string := fst <$> sd_slots db !! (c, s).

Lemma elem_of_select_slots c db s v : (s, v) ∈ select_slots c db ↔ slot_value c s db = Some v.
Proof.
  unfold select_slots, slot_value. rewrite list_elem_of_omap. split.
  - intros ([[c' s'] [v' t]] & Hin & Hf). cbn in Hf. destruct (String.eqb c' c) eqn:E; [|done]. bprop. subst c'.
    injection Hf as <- <-. apply elem_of_map_to_list in Hin. by rewrite Hin.
  - intros ([v' t] & Hl & ->)%fmap_Some. exists ((c, s), (v', t)). split; [by apply elem_of_map_to_list|]. cbn. by rewrite String.eqb_refl.
Qed.

Lemma NoDup_select_slots c db : NoDup (select_slots c db).*1.
Proof.
  unfold select_slots. pose proof (NoDup_fst_map_to_list (sd_slots db)) as Hnd.
  induction (map_to_list (sd_slots db)) as [|[[c' s'] [v' t]] l IH]; [constructor|].
  cbn in Hnd. apply NoDup_cons in Hnd as [Hn Hnd]. specialize (IH Hnd). cbn. destruct (String.eqb c' c) eqn:E; [|done].
  bprop. subst c'. cbn. constructor; [|done]. intros ([s v] & -> & Hin)%list_elem_of_fmap. apply Hn.
  apply list_elem_of_omap in Hin as ([[c' s''] [v'' t']] & Hin & Hf). cbn in Hf.
  destruct (String.eqb c' c) eqn:E; [|done]. bprop. subst c'. injection Hf as <- <-.
  apply list_elem_of_fmap. by exists ((c, s''), (v'', t')).
Qed.

Lemma add_slot_fold l sec :
  NoDup l.*1 →
  (sec_Bytes (foldl add_slot sec l) = default (sec_Bytes sec) ((list_to_map l : gmap string string) !! "")) ∧
  (∀ s, sec_Extras (foldl add_slot sec l) !! s =
     if String.eqb s "" then sec_Extras sec !! s
     else match (list_to_map l : gmap string string) !! s with Some v => Some v | None => sec_Extras sec !! s end).
Proof.
  revert sec. induction l as [|[k v] l IH]; intros sec Hnd.
  { split; [done|]. intros s. cbn. rewrite lookup_empty. by destruct (String.eqb s ""). }
  cbn in Hnd. apply NoDup_cons in Hnd as [Hk Hnd]. destruct (IH (add_slot sec (k, v)) Hnd) as [HB HE]. cbn [foldl].
  rewrite HB. split.
  - unfold add_slot. cbn [list_to_map foldr fst snd]. destruct (String.eqb k "") eqn:E; bprop.
    + subst k. rewrite lookup_insert_eq. rewrite not_elem_of_list_to_map_1 by done. done.
    + by rewrite lookup_insert_ne by congruence.
  - intros s. rewrite HE. unfold add_slot. cbn [list_to_map foldr fst snd]. destruct (String.eqb s "") eqn:Es; bprop.
    + subst s. destruct (String.eqb k "") eqn:E; [done|]. bprop. cbn. by rewrite lookup_insert_ne by congruence.
    + destruct (String.eqb k "") eqn:E; bprop.
      * subst k. by rewrite lookup_insert_ne by congruence.
      * cbn [sec_Extras]. destruct (decide (k = s)) as [->|Hne].
        -- rewrite !lookup_insert_eq. by rewrite not_elem_of_list_to_map_1.
        -- by rewrite !lookup_insert_ne by congruence.
Qed.

Lemma select_slots_map c db s : (list_to_map (select_slots c db) : gmap string string) !! s = slot_value c s db.
Proof.
  apply option_eq. intros v. rewrite <- elem_of_list_to_map by apply NoDup_select_slots. apply elem_of_select_slots.
Qed.

(** The material of a credential is its slots: the unnamed one is the bytes, the
    others the extras. *)
Lemma read_secrets_spec c db :
  sec_Bytes (read_secrets c db).1 = default "" (slot_value c "" db) ∧
  (∀ s, sec_Extras (read_secrets c db).1 !! s = if String.eqb s "" then None else slot_value c s db) ∧
  ((read_secrets c db).2 = true ↔ ∃ s, is_Some (slot_value c s db)).
Proof.
  unfold read_secrets. cbn [fst snd]. destruct (add_slot_fold (select_slots c db) (mkSecret "" ∅) (NoDup_select_slots c db)) as [HB HE].
  rewrite HB, select_slots_map. split_and!; [done| |].
  - intros s. rewrite HE, select_slots_map. cbn. rewrite lookup_empty. by destruct (slot_value c s db).
  - rewrite negb_true_iff, bool_decide_eq_false. split.
    + destruct (select_slots c db) as [|[s v] l] eqn:E; [done|]. intros _. exists s. exists v. apply elem_of_select_slots. rewrite E. by left.
    + intros (s & v & Hv) E. apply elem_of_select_slots in Hv. rewrite E in Hv. by apply elem_of_nil in Hv.
Qed.

Lemma Secret_eq a b : sec_Bytes a = sec_Bytes b → (∀ s, sec_Extras a !! s = sec_Extras b !! s) → a = b.
Proof. destruct a, b. cbn. intros -> H. f_equal. by apply map_eq. Qed.

(** Databases that agree on the slots of [c] give [c] the same material. *)
Lemma read_secrets_ext c db db' : (∀ s, slot_value c s db' = slot_value c s db) → read_secrets c db' = read_secrets c db.
Proof.
  intros H. destruct (read_secrets_spec c db) as (B & E & F), (read_secrets_spec c db') as (B' & E' & F').
  destruct (read_secrets c db) as [a f], (read_secrets c db') as [a' f']. cbn in *. f_equal.
  - apply Secret_eq; [by rewrite B, B', H|]. intros s. by rewrite E, E', H.
  - assert (f = true ↔ f' = true) as Hf; [|destruct f, f'; intuition congruence].
    rewrite F, F'. by setoid_rewrite H.
Qed.

Lemma slot_value_upsert c s v now db c' s' :
  slot_value c' s' (upsert_slot c s v now db) = if decide ((c, s) = (c', s')) then Some v else slot_value c' s' db.
Proof.
  unfold slot_value, upsert_slot. cbn. destruct (decide _) as [<-|H]; [by rewrite lookup_insert_eq|by rewrite lookup_insert_ne].
Qed.

Lemma slot_value_delete c s db c' s' :
  slot_value c' s' (delete_slot c s db) = if decide ((c, s) = (c', s')) then None else slot_value c' s' db.
Proof.
  unfold slot_value, delete_slot. cbn. destruct (decide _) as [<-|H]; [by rewrite lookup_delete_eq|by rewrite lookup_delete_ne].
Qed.

Lemma slot_value_clear c db c' s' :
  slot_value c' s' (delete_slots c db) = if decide (c' = c) then None else slot_value c' s' db.
Proof.
  unfold slot_value, delete_slots. cbn. destruct (decide _) as [->|H].
  - rewrite map_lookup_filter_None_2; [done|]. right. intros v _. cbn. by intros Hn.
  - destruct (sd_slots db !! (c', s')) as [v|] eqn:E.
    + by rewrite (map_lookup_filter_Some_2 _ _ _ v).
    + by rewrite map_lookup_filter_None_2 by (left; exact E).
Qed.

(** ** Statements without faults *)

Definition clean (w : World) : Prop := sw_faults w = [].

Lemma sql_clean {A} (f : SecretDB -> SecretDB * A) w :
  clean w → sql f w = (mkSWorld (f (sw_db w)).1 [] (sw_probes w), Ok (f (sw_db w)).2).
Proof. unfold sql, clean. intros ->. by destruct (f (sw_db w)). Qed.

Lemma bind_run {A B} (m : S_ A) (f : A -> S_ B) w :
  (m ≫= f) w = match m w with (w', Ok a) => f a w' | (w', Err e) => (w', Err e) end.
Proof. done. Qed.

Lemma ret_run {A} (a : A) (w : World) : (mret a : S_ A) w = (w, Ok a).
Proof. done. Qed.

Lemma query_clean {A} (f : SecretDB -> A) w : clean w → query f w = (w, Ok (f (sw_db w))).
Proof. intros Hw. unfold query. rewrite sql_clean by done. by destruct w; unfold clean in Hw; cbn in *; subst. Qed.

Lemma exec_clean f w : clean w → exec f w = (mkSWorld (f (sw_db w)) [] (sw_probes w), Ok tt).
Proof. apply sql_clean. Qed.

Lemma attempt_run {A} (m : S_ A) w : attempt m w = ((m w).1, Ok (m w).2).
Proof. unfold attempt. by destruct (m w). Qed.

(** ** What a plugin gets *)

(** A slot of a secret as a plugin sees it. *)
Definition secret_slot (sec : Secret) (s : string) : option string :=
  if String.eqb s "" then Some (sec_Bytes sec) else sec_Extras sec !! s.

Section Lookup.
Context (oauth_Token : option (string -> result string string)) (env : string -> result Secret string).

Lemma store_Get_stored c w :
  clean w → (read_secrets c (sw_db w)).2 = true → (store_Get oauth_Token env true c w).2 = Ok (read_secrets c (sw_db w)).1.
Proof.
  intros Hw Hf. unfold store_Get, stored_secret, readCredentialSecrets. by rewrite !bind_run, query_clean, Hf by done.
Qed.

(** What the operator saved is what the plugin gets, before any OAuth token or
    environment variable of that name; the other slots and the other
    credentials are as they were. *)
Theorem saved_slot_is_returned c s v now w w' :
  clean w → setCredentialSlot c s v now w = (w', Ok tt) →
  (∃ sec, (store_Get oauth_Token env true c w').2 = Ok sec ∧ secret_slot sec s = Some v ∧
     ∀ s', s' ≠ s → secret_slot sec s' = secret_slot (read_secrets c (sw_db w)).1 s') ∧
  (∀ c', c' ≠ c → (store_Get oauth_Token env true c' w').2 = (store_Get oauth_Token env true c' w).2).
Proof.
  intros Hw H. unfold setCredentialSlot in H. rewrite exec_clean in H by done. injection H as <-. split.
  - eexists. split; [apply store_Get_stored; [done|]|].
    { apply read_secrets_spec. exists s, v. cbn [sw_db fst]. by rewrite slot_value_upsert, decide_True. }
    cbn [sw_db fst]. destruct (read_secrets_spec c (upsert_slot c s v now (sw_db w))) as (B & E & _).
    destruct (read_secrets_spec c (sw_db w)) as (B0 & E0 & _). unfold secret_slot. split.
    + destruct (String.eqb s "") eqn:Es; [bprop; subst s; by rewrite B, slot_value_upsert, decide_True|].
      by rewrite E, Es, slot_value_upsert, decide_True.
    + intros s' Hs'. destruct (String.eqb s' "") eqn:Es; [bprop; subst s'; by rewrite B, B0, slot_value_upsert, decide_False by congruence|].
      by rewrite E, E0, Es, slot_value_upsert, decide_False by congruence.
  - intros c' Hc'. assert (read_secrets c' (upsert_slot c s v now (sw_db w)) = read_secrets c' (sw_db w)) as Heq.
    { apply read_secrets_ext. intros s'. rewrite slot_value_upsert. by rewrite decide_False by congruence. }
    unfold store_Get, stored_secret, readCredentialSecrets. rewrite !bind_run, !query_clean by done. cbn [sw_db]. rewrite Heq, !ret_run.
    destruct (read_secrets c' (sw_db w)).2; [done|]. destruct oauth_Token as [tok|]; [|done].
    destruct (tok c') as [t|]; [|done]. by destruct (String.eqb t "").
Qed.

(** Node state written through the store is read back. *)
Theorem node_state_roundtrip name id bs now w w' :
  clean w → id ≠ "" → WriteState true name id bs now w = (w', Ok tt) → (ReadState oauth_Token env true name id w').2 = Ok bs.
Proof.
  intros Hw Hid%String.eqb_neq H. unfold WriteState, store_SetCredentialSlot in H.
  destruct (saved_slot_is_returned name id bs now w w' Hw H) as [(sec & Hget & Hslot & _) _].
  unfold ReadState. rewrite bind_run. destruct (store_Get oauth_Token env true name w') as [w2 r]. cbn in Hget. subst r.
  unfold secret_slot in Hslot. rewrite Hid in Hslot. by rewrite Hslot.
Qed.
End Lookup.

(** ** Truncated reasons *)

Lemma rune_cut_spec s n :
  (n <= String.length s)%nat →
  let k := rune_cut s n in
  (k <= n)%nat ∧ (k = 0%nat ∨ k = String.length s ∨ ∃ b r, str_drop k s = String b r ∧ RuneStart b = true).
Proof.
  induction n as [|n IH]; intros Hn; [by split; [|left]|]. cbn [rune_cut].
  destruct (str_drop (S n) s) as [|b r] eqn:E.
  - split; [done|]. right. left. assert (String.length (str_drop (S n) s) = 0%nat) as Hl by by rewrite E. rewrite str_length_drop in Hl. lia.
  - destruct (RuneStart b) eqn:Eb; [split; [done|]; eauto 6|]. destruct (IH ltac:(lia)). split; [lia|done].
Qed.

(** Continuation bytes are stepped over, to the start of their character. *)
Lemma rune_cut_back t k j :
  (∀ i, (0 < i <= j)%nat → ∃ b r, str_drop (k + i) t = String b r ∧ RuneStart b = false) →
  (∃ b r, str_drop k t = String b r ∧ RuneStart b = true) → rune_cut t (k + j) = k.
Proof.
  intros Hc (b & r & Hk & Hb). induction j as [|j IH].
  - rewrite Nat.add_0_r. destruct k; [done|]. cbn [rune_cut]. by rewrite Hk, Hb.
  - destruct (Hc (S j) ltac:(lia)) as (b' & r' & Hd & Hb'). rewrite Nat.add_succ_r in *. cbn [rune_cut]. rewrite Hd, Hb'.
    apply IH. intros i Hi. apply Hc. lia.
Qed.

(** A reason is kept whole up to 200 bytes; a longer one is cut before byte 200,
    never inside a character, and marked; cutting again changes nothing, so
    what the reply shows is what the table holds. *)
Theorem truncateVerifyReason_spec s :
  (String.length (truncateVerifyReason s) <= verifyReasonMax + 3)%nat ∧
  ((String.length s <= verifyReasonMax)%nat → truncateVerifyReason s = s) ∧
  ((verifyReasonMax < String.length s)%nat → ∃ k, (k <= verifyReasonMax)%nat ∧ truncateVerifyReason s = str_take k s +:+ ellipsis ∧
     (k = 0%nat ∨ ∃ b r, str_drop k s = String b r ∧ RuneStart b = true)) ∧
  truncateVerifyReason (truncateVerifyReason s) = truncateVerifyReason s.
Proof.
  assert ((verifyReasonMax < String.length s)%nat → ∃ k, (k <= verifyReasonMax)%nat ∧ truncateVerifyReason s = str_take k s +:+ ellipsis ∧
     (k = 0%nat ∨ ∃ b r, str_drop k s = String b r ∧ RuneStart b = true)) as Hcut.
  { intros Hl. destruct (rune_cut_spec s verifyReasonMax ltac:(lia)) as [Hk Hb]. exists (rune_cut s verifyReasonMax).
    unfold truncateVerifyReason. rewrite (proj2 (Nat.leb_gt _ _)) by lia. split_and!; [done..|].
    destruct Hb as [?|[?|?]]; [auto|lia|auto]. }
  assert ((String.length s <= verifyReasonMax)%nat → truncateVerifyReason s = s) as Hid.
  { intros Hl. unfold truncateVerifyReason. by rewrite (proj2 (Nat.leb_le _ _)). }
  destruct (Nat.le_gt_cases (String.length s) verifyReasonMax) as [Hl|Hl].
  { rewrite !(Hid Hl). split_and!; [lia|done|lia|done]. }
  destruct (Hcut Hl) as (k & Hk & Heq & Hb). split_and!; [|done..|].
  { rewrite Heq, str_length_app, str_length_take by lia. cbn [String.length ellipsis]. lia. }
  rewrite Heq. set (t := str_take k s +:+ ellipsis). assert (String.length (str_take k s) = k) as Hlen by (apply str_length_take; lia).
  assert (∀ j, str_drop (k + j) t = str_drop j ellipsis) as Hdrop.
  { intros j. unfold t. rewrite <- str_drop_drop. by rewrite <- Hlen at 1; rewrite str_drop_app. }
  assert (str_take k t = str_take k s) as Htake by (unfold t; rewrite <- Hlen at 1; apply str_take_app).
  unfold truncateVerifyReason. destruct (Nat.leb_spec (String.length t) verifyReasonMax) as [|Ht]; [done|].
  assert (String.length t = (k + 3)%nat) as Htl by (unfold t; rewrite str_length_app, Hlen; reflexivity).
  enough (rune_cut t verifyReasonMax = k) as -> by (by rewrite Htake).
  unfold verifyReasonMax in *. rewrite Htl in Ht.
  replace 200%nat with (k + (200 - k))%nat by lia. apply rune_cut_back.
  - intros i Hi. rewrite Hdrop. assert (i = 1 ∨ i = 2)%nat as [-> | ->] by lia; cbn; eauto.
  - exists (ascii_of_nat 226). rewrite <- (Nat.add_0_r k), Hdrop. cbn. eauto.
Qed.

(** ** Verdicts *)

Lemma secretsEqual_true a b : secretsEqual a b = true → a = b.
Proof.
  unfold secretsEqual. intros [[HB HS]%andb_true_iff HE]%andb_true_iff. bprop.
  rewrite forallb_forall in HE. apply Secret_eq; [done|]. intros s. f_equal.
  apply map_subseteq_size_eq; [|by rewrite HS]. apply map_subseteq_spec. intros k v Hk.
  specialize (HE (k, v)). cbn in HE. rewrite <- list_elem_of_In, elem_of_map_to_list in HE. specialize (HE Hk).
  destruct (sec_Extras b !! k) as [bv|]; [|done]. bprop. by subst.
Qed.

Section Verdicts.
Context (credentials : gmap string SlotPlugin).

(** A stored "ok" was the provider's answer on exactly the stored material. *)
Definition honest (w : World) : Prop :=
  ∀ c p v, credentials !! c = Some p → is_Some (sp_verify p) → sd_verifications (sw_db w) !! c = Some v → cv_Status v = "ok" →
    (c, (read_secrets c (sw_db w)).1, VerifyOK) ∈ sw_probes w.

(** Steps that leave the verdicts, the probes and the other credentials alone. *)
Definition only_slots (c : string) (w w' : World) : Prop :=
  clean w' ∧ sw_probes w' = sw_probes w ∧ sd_verifications (sw_db w') = sd_verifications (sw_db w) ∧
  ∀ c' s, c' ≠ c → slot_value c' s (sw_db w') = slot_value c' s (sw_db w).

Lemma write_slots_clean now c valid slots w :
  clean w → Forall (λ sv, sv.1 ∈ valid) slots →
  ∃ w', write_slots now c valid slots w = (w', Ok None) ∧ only_slots c w w'.
Proof.
  revert w. induction slots as [|[s v] slots IH]; intros w Hw Hv; [by exists w|].
  apply Forall_cons in Hv as [Hs Hv]. cbn [write_slots]. rewrite bool_decide_eq_true_2 by done. cbn [negb].
  rewrite bind_run, attempt_run. set (m := if String.eqb v "" then _ else _).
  assert (∃ w1, m w = (w1, Ok tt) ∧ only_slots c w w1) as (w1 & Hm & Hc1 & Hp1 & Hv1 & Ho1).
  { unfold m, setCredentialSlot. destruct (String.eqb v ""); rewrite exec_clean by done; eexists; (split; [done|]); split_and!; try done.
    - intros c' s' Hc'. cbn [sw_db]. rewrite slot_value_delete. by rewrite decide_False by congruence.
    - intros c' s' Hc'. cbn [sw_db]. rewrite slot_value_upsert. by rewrite decide_False by congruence. }
  rewrite Hm. cbn [fst snd]. destruct (IH w1 Hc1 Hv) as (w' & -> & Hc & Hp & Hve & Ho). exists w'. split; [done|].
  split_and!; [done|by rewrite Hp|by rewrite Hve|]. intros c' s' Hc'. by rewrite Ho, Ho1.
Qed.

(** Dropping the verdict of [c] is always honest. *)
Lemma honest_dropped c db faults probes faults' probes' db' :
  honest (mkSWorld db faults probes) → probes ⊆ probes' →
  sd_verifications db' = delete c (sd_verifications db) →
  (∀ c' s, c' ≠ c → slot_value c' s db' = slot_value c' s db) → honest (mkSWorld db' faults' probes').
Proof.
  intros Hh Hp Hv Hs c' p v Hc Hver Hl Hok. cbn [sw_db sw_probes sw_faults sd_verifications upsert_verification with_verifications] in *. rewrite Hv in Hl. apply lookup_delete_Some in Hl as [Hne Hl].
  apply Hp. rewrite (read_secrets_ext c' db db') by (intros s; by apply Hs). by eapply Hh.
Qed.

(** Material that has not changed keeps its verdict. *)
Lemma honest_kept c w0 w probes :
  honest w0 → only_slots c w0 w → (read_secrets c (sw_db w)).1 = (read_secrets c (sw_db w0)).1 → sw_probes w0 ⊆ probes →
  honest (mkSWorld (sw_db w) [] probes).
Proof.
  intros Hh (_ & _ & Hv & Hs) Heq Hp c' p v Hc Hver Hl Hok. cbn [sw_db sw_probes] in *. rewrite Hv in Hl. apply Hp.
  destruct (decide (c' = c)) as [->|Hne]; [rewrite Heq; by eapply Hh|].
  rewrite (read_secrets_ext c' (sw_db w0) (sw_db w)) by (intros s; by apply Hs). by eapply Hh.
Qed.

Lemma honest_changed c w0 w db probes faults :
  honest w0 → only_slots c w0 w → sd_verifications db = delete c (sd_verifications (sw_db w)) → sd_slots db = sd_slots (sw_db w) →
  sw_probes w0 ⊆ probes → honest (mkSWorld db faults probes).
Proof.
  intros Hh (_ & _ & Hv & Hs) Hvv Hss Hp. destruct w0 as [db0 f0 p0]. cbn [sw_db sw_probes] in *.
  eapply honest_dropped; [exact Hh|done|by rewrite Hvv, Hv|]. intros c' s Hc'. unfold slot_value. rewrite Hss. by apply Hs.
Qed.

(** A verdict is recorded with the probe it reports. *)
Lemma honest_recorded c db probes st e now sec res :
  honest (mkSWorld db [] probes) → (c, sec, res) ∈ probes → (read_secrets c db).1 = sec → (st = "ok" → res = VerifyOK) →
  honest (mkSWorld (upsert_verification c (mkVerification st e now) db) [] probes).
Proof.
  intros Hh Hin Hsec Hst c' p v Hc' Hver Hl Hok. cbn [sw_db sw_probes sd_verifications upsert_verification with_verifications] in *.
  rewrite (read_secrets_ext c' db) by done. destruct (decide (c = c')) as [<-|Hne].
  - rewrite lookup_insert_eq in Hl. injection Hl as <-. cbn in Hok. by rewrite Hsec, <- (Hst Hok).
  - rewrite lookup_insert_ne in Hl by done. by eapply (Hh c').
Qed.

Lemma verify_saved_honest now c verify w0 w w' r :
  clean w → honest w0 → only_slots c w0 w →
  verify_saved now c verify (read_secrets c (sw_db w0)).1 w = (w', r) → clean w' ∧ honest w'.
Proof.
  intros Hw Hh Ho. pose proof Ho as (_ & Hp & _ & _). unfold verify_saved, readCredentialSecrets, clearCredentialVerification.
  rewrite bind_run, attempt_run, query_clean by done. cbn [fst snd].
  destruct (read_secrets c (sw_db w)) as [sec found] eqn:Er. destruct found; cbn [negb].
  2: { rewrite bind_run, attempt_run, exec_clean by done. cbn [fst snd]. intros [= <- <-]. split; [done|].
       eapply honest_changed; [exact Hh|exact Ho|done|done|by rewrite Hp]. }
  set (same := secretsEqual (read_secrets c (sw_db w0)).1 sec).
  set (w1 := if negb same then mkSWorld (delete_verification c (sw_db w)) [] (sw_probes w) else w).
  assert (∃ m, (if negb same then attempt (exec (delete_verification c)) else mret (Ok tt)) = m ∧ m w = (w1, Ok (Ok tt))) as (m & -> & Hm).
  { eexists. split; [done|]. unfold w1. destruct (negb _); [by rewrite attempt_run, exec_clean|done]. }
  rewrite bind_run, Hm. cbn [fst snd]. unfold probe. rewrite bind_run. set (probes := sw_probes w1 ++ [(c, sec, verify sec)]).
  assert (sw_faults w1 = [] ∧ sw_probes w1 = sw_probes w ∧ sd_slots (sw_db w1) = sd_slots (sw_db w)) as (Hc1 & Hp1 & Hs1)
    by (unfold w1; by destruct (negb _)).
  assert (honest (mkSWorld (sw_db w1) [] probes)) as Hh1.
  { assert (sw_probes w0 ⊆ probes) by (unfold probes; rewrite Hp1, Hp; set_solver). unfold w1, same.
    destruct (secretsEqual _ sec) eqn:Eq; cbn [negb].
    - apply secretsEqual_true in Eq. eapply honest_kept; [exact Hh|exact Ho|by rewrite Er|done].
    - eapply honest_changed; [exact Hh|exact Ho|done..]. }
  unfold recordVerification, setCredentialVerification. rewrite Hc1.
  assert (∀ st e, (st = "ok" → verify sec = VerifyOK) →
    honest (mkSWorld (upsert_verification c (mkVerification st e now) (sw_db w1)) [] probes)) as Hrec.
  { intros st e Hst. eapply honest_recorded; [exact Hh1|apply elem_of_app; right; by left| |done].
    rewrite (read_secrets_ext c (sw_db w)) by (intros s; unfold slot_value; by rewrite Hs1). by rewrite Er. }
  destruct (verify sec) as [|reason|msg] eqn:Ev.
  - rewrite bind_run, attempt_run, exec_clean by done. cbn [fst snd]. intros [= <- <-]. split; [done|]. by apply Hrec.
  - rewrite bind_run, attempt_run, exec_clean by done. cbn [fst snd]. intros [= <- <-]. split; [done|]. by apply Hrec.
  - intros [= <- <-]. by split.
Qed.

(** Requests to the two handlers. *)
Inductive Request := SaveReq (now : Z) (c : string) (slots : list (string * string)) | ClearReq (c : string).

Definition serve_request (w : World) (q : Request) : World :=
  match q with
  | SaveReq now c slots => (apiCredentialsSet credentials now c slots w).1
  | ClearReq c => (apiCredentialsClear credentials c w).1
  end.

(** Every slot a request names is one of the credential's. *)
Definition declared (q : Request) : Prop :=
  match q with
  | SaveReq _ c slots => ∀ p valid, credentials !! c = Some p → sp_slots p = Some valid → Forall (λ sv, sv.1 ∈ valid) slots
  | ClearReq _ => True
  end.

Lemma save_honest now c slots w :
  clean w → honest w → declared (SaveReq now c slots) →
  let w' := (apiCredentialsSet credentials now c slots w).1 in clean w' ∧ honest w'.
Proof.
  intros Hw Hh Hd. cbv zeta. unfold apiCredentialsSet. destruct (String.eqb c ""); [done|].
  destruct (credentials !! c) as [p|] eqn:Ep; [|done]. destruct (sp_slots p) as [valid|] eqn:Es; [|done].
  destruct (write_slots_clean now c valid slots w Hw (Hd p valid Ep Es)) as (w1 & Hws & Ho).
  pose proof Ho as (Hc1 & Hp1 & Hv1 & Hs1).
  destruct (sp_verify p) as [verify|] eqn:Ev.
  - rewrite bind_run, attempt_run. unfold readCredentialSecrets. rewrite query_clean by done. cbn [fst snd].
    destruct (read_secrets c (sw_db w)) as [before f] eqn:Er. rewrite bind_run, Hws.
    destruct (verify_saved now c verify before w1) as [w' r] eqn:Evs. eapply verify_saved_honest; [exact Hc1|exact Hh|exact Ho|].
    rewrite Er. exact Evs.
  - rewrite bind_run, ret_run, bind_run, Hws, ret_run. cbn [fst]. split; [done|]. intros c' p' v Hc' Hver Hl Hok.
    rewrite Hp1. rewrite Hv1 in Hl. destruct (decide (c' = c)) as [->|Hne].
    { rewrite Ep in Hc'. injection Hc' as <-. rewrite Ev in Hver. by destruct Hver. }
    rewrite (read_secrets_ext c' (sw_db w) (sw_db w1)) by (intros s; by apply Hs1). by eapply Hh.
Qed.

Lemma clear_honest c w :
  clean w → honest w → let w' := (apiCredentialsClear credentials c w).1 in clean w' ∧ honest w'.
Proof.
  intros Hw Hh. cbv zeta. unfold apiCredentialsClear. destruct (String.eqb c ""); [done|]. destruct (negb _); [done|].
  unfold clearCredentialSecrets, clearCredentialVerification. rewrite bind_run, attempt_run, exec_clean by done. cbn [fst snd].
  rewrite bind_run, attempt_run, exec_clean by done. cbn [fst]. split; [done|]. destruct w as [db f p]. cbn [sw_db sw_probes].
  eapply honest_dropped; [exact Hh|done|done|]. intros c' s Hc'. unfold slot_value at 1. cbn [delete_verification with_verifications sd_slots].
  change (slot_value c' s (delete_slots c db) = slot_value c' s db). rewrite slot_value_clear. by rewrite decide_False.
Qed.

(** C20. Start with no recorded result and let saves that name declared slots and
    clears follow, in any order, while no statement fails: a credential with a
    verifier and a recorded result that the dashboard shows as connected holds
    exactly the material its provider accepted. *)
Theorem connected_means_verified qs w :
  clean w → sd_verifications (sw_db w) = ∅ → Forall declared qs →
  let w' := foldl serve_request w qs in
  ∀ c p v, credentials !! c = Some p → is_Some (sp_verify p) → sd_verifications (sw_db w') !! c = Some v →
    slots_connected p (slot_presence c (sw_db w')) (Some v) = true →
    (c, (read_secrets c (sw_db w')).1, VerifyOK) ∈ sw_probes w' ∧ (read_secrets c (sw_db w')).2 = true.
Proof.
  intros Hw He Hq. assert (honest w) as Hh by (intros c p v _ _ Hl; by rewrite He in Hl). clear He.
  cbv zeta. assert (clean (foldl serve_request w qs) ∧ honest (foldl serve_request w qs)) as [_ Hh'].
  { revert w Hw Hh. induction Hq as [|q qs Hd _ IH]; intros w Hw Hh; [done|]. cbn [foldl].
    assert (clean (serve_request w q) ∧ honest (serve_request w q)) as [? ?]; [|by apply IH].
    destruct q; [by apply save_honest|by apply clear_honest]. }
  intros c p v Hc Hver Hl Hcon. unfold slots_connected in Hcon. destruct (sp_slots p); [|done].
  destruct (sp_verify p) eqn:Ev; [|by destruct Hver]. rewrite <- Ev in Hver. apply andb_true_iff in Hcon as [Hpres Hok%String.eqb_eq].
  split; [by apply (Hh' c p v)|]. unfold read_secrets. cbn [snd]. apply negb_true_iff, bool_decide_eq_false. intros E.
  apply negb_true_iff, bool_decide_eq_false in Hpres. apply Hpres. unfold slot_presence. by rewrite E.
Qed.
End Verdicts.

(** A save that names an undeclared slot after a declared one is refused, but
    the slot before it is stored and the old verdict stays: the dashboard keeps
    showing the credential as verified with material no provider has seen. *)
Theorem refused_save_keeps_old_verdict credentials now c p valid s v s' v' rest w :
  clean w → c ≠ "" → credentials !! c = Some p → sp_slots p = Some valid → s ∈ valid → v ≠ "" → s' ∉ valid →
  let '(w', r) := apiCredentialsSet credentials now c ((s, v) :: (s', v') :: rest) w in
  r = Ok (SaveError 400 ("unknown slot: " +:+ s')) ∧ sd_verifications (sw_db w') = sd_verifications (sw_db w) ∧
  sw_probes w' = sw_probes w ∧ slot_value c s (sw_db w') = Some v.
Proof.
  intros Hw Hc%String.eqb_neq Hp Hs Hin Hv%String.eqb_neq Hout. unfold apiCredentialsSet. rewrite Hc, Hp, Hs, bind_run.
  assert (∃ b, (match sp_verify p with Some _ => attempt (readCredentialSecrets c) | None => mret (Ok (mkSecret "" ∅, false)) end) w = (w, Ok (Ok b)))
    as ([b f] & ->).
  { destruct (sp_verify p); [|by eexists]. rewrite attempt_run. unfold readCredentialSecrets. rewrite query_clean by done. by eexists. }
  rewrite bind_run. cbn [write_slots]. rewrite bool_decide_eq_true_2, bool_decide_eq_false_2 by done. cbn [negb].
  rewrite bind_run, attempt_run, Hv. unfold setCredentialSlot. rewrite exec_clean by done. cbn [fst snd]. rewrite !ret_run.
  split_and!; try done. cbn [sw_db]. by rewrite slot_value_upsert, decide_True.
Qed.

(** A save whose second statement fails is answered with an error, but the slot
    before it is stored and the old verdict stays: the check that drops it comes
    after the loop. *)
Theorem failed_save_keeps_old_verdict credentials now c p valid verify s v s' v' rest w e faults :
  sw_faults w = None :: None :: Some e :: faults →
  c ≠ "" → credentials !! c = Some p → sp_slots p = Some valid → sp_verify p = Some verify → s ∈ valid → s' ∈ valid → v ≠ "" →
  let '(w', r) := apiCredentialsSet credentials now c ((s, v) :: (s', v') :: rest) w in
  r = Ok (SaveError 500 e) ∧ sd_verifications (sw_db w') = sd_verifications (sw_db w) ∧
  sw_probes w' = sw_probes w ∧ slot_value c s (sw_db w') = Some v.
Proof.
  intros Hf Hc%String.eqb_neq Hp Hs Hver Hin Hin' Hv%String.eqb_neq. destruct w as [db fs probes]. cbn in Hf. subst fs.
  unfold apiCredentialsSet. rewrite Hc, Hp, Hs, Hver. cbn [write_slots]. rewrite !bool_decide_eq_true_2 by done. rewrite Hv. cbn [negb].
  assert (slot_value c s (upsert_slot c s v now db) = Some v) as Hslot by (by rewrite slot_value_upsert, decide_True).
  cbn. destruct (String.eqb v' ""); cbn; by split_and!.
Qed.

(** ** The environment *)

Lemma env_extras_slots getenv ReadFile base parts sec sec' :
  env_extras getenv ReadFile base parts sec = Ok sec' →
  ∀ k v, sec_Extras sec' !! k = Some v → sec_Extras sec !! k = Some v ∨ k ∈ map ToLower parts.
Proof.
  revert sec. induction parts as [|part parts IH]; intros sec; cbn [env_extras map].
  { intros [= <-] k v Hk. by left. }
  destruct (readEnvSecret _ _ _) as [x|]; [|done]. destruct (String.eqb x ""); intros H k v Hk.
  - destruct (IH _ H k v Hk); [by left|right; by right].
  - destruct (IH _ H k v Hk) as [Hl|?]; [|right; by right]. cbn in Hl.
    destruct (decide (ToLower part = k)) as [<-|Hne]; [right; by left|]. rewrite lookup_insert_ne in Hl by done. by left.
Qed.

(** The environment offers no slot but the six it knows; a Google credential has
    none of them, so whatever variables are set it refuses to sign. *)
Theorem gke_never_signs_from_environment {TS} getenv ReadFile sha (parse : string -> result TS string) tok others m name sec r :
  env_Get getenv ReadFile name = Ok sec →
  GoogleGKECredential_SignHTTPRequest sha parse tok others m r sec = ((r, Some "google_gke_credential: missing sa_key"), m).
Proof.
  intros H. assert (extra sec "sa_key" = "") as Hx.
  { unfold env_Get in H. destruct (String.eqb name ""); [done|]. destruct (readEnvSecret _ _ _) as [b|]; [|done]. cbv beta iota in H.
    unfold extra. destruct (sec_Extras sec !! "sa_key") as [v|] eqn:E; [|done].
    destruct (env_extras_slots _ _ _ _ _ _ H _ _ E) as [Hl|Hl]; [done|].
    apply list_elem_of_In in Hl. exfalso. cbn in Hl. intuition discriminate. }
  unfold GoogleGKECredential_SignHTTPRequest. by rewrite Hx.
Qed.

(** Names that differ in dashes and underscores, or in letter case, share their
    variables. *)
Example env_names_shared :
  env_base "stripe-live" = "CLAWPATROL_SECRET_STRIPE_LIVE" ∧ env_base "stripe_live" = env_base "stripe-live" ∧
  env_base "Stripe-Live" = env_base "stripe-live" ∧ env_base "aws" +:+ "_" +:+ "KEY" = env_base "aws-key".
Proof. vm_compute. repeat split. Qed.

(** ** Witnesses *)

Definition slack_verify (sec : Secret) : VerifyResult :=
  if String.eqb (extra sec "bot") "good" then VerifyOK else VerifyRejected "slack auth.test: invalid_auth".
Definition slack_credentials : gmap string SlotPlugin := {["slack" := mkSlotPlugin (Some ["bot"; "app"]) (Some slack_verify)]}.
Definition empty_world : World := mkSWorld (mkSecretDB ∅ ∅ ∅ ∅) [] [].
Definition saves : list Request := [SaveReq 1 "slack" [("bot", "bad")]; SaveReq 2 "slack" [("bot", "good")]].

Lemma connected_means_verified_witness :
  let w := foldl (serve_request slack_credentials) empty_world saves in
  ("slack", (read_secrets "slack" (sw_db w)).1, VerifyOK) ∈ sw_probes w ∧ extra (read_secrets "slack" (sw_db w)).1 "bot" = "good".
Proof.
  cbv zeta. split; [|vm_compute; reflexivity].
  destruct (connected_means_verified slack_credentials saves empty_world) with (c := "slack")
    (p := mkSlotPlugin (Some ["bot"; "app"]) (Some slack_verify)) (v := mkVerification "ok" "" 2) as [H _]; try exact H.
  - reflexivity.
  - reflexivity.
  - apply Forall_cons; split; [|apply Forall_singleton]; intros p valid Hp Hv; vm_compute in Hp; injection Hp as <-;
      injection Hv as <-; apply Forall_singleton; left.
  - vm_compute. reflexivity.
  - exists slack_verify. reflexivity.
  - vm_compute. reflexivity.
  - vm_compute. reflexivity.
Defined.

Lemma refused_save_keeps_old_verdict_witness :
  let w := foldl (serve_request slack_credentials) empty_world saves in
  let '(w', r) := apiCredentialsSet slack_credentials 3 "slack" [("bot", "stolen"); ("bogus", "x")] w in
  r = Ok (SaveError 400 "unknown slot: bogus") ∧ slot_value "slack" "bot" (sw_db w') = Some "stolen" ∧
  sd_verifications (sw_db w') !! "slack" = Some (mkVerification "ok" "" 2).
Proof.
  cbv zeta. pose proof (refused_save_keeps_old_verdict slack_credentials 3 "slack" (mkSlotPlugin (Some ["bot"; "app"]) (Some slack_verify))
    ["bot"; "app"] "bot" "stolen" "bogus" "x" [] (foldl (serve_request slack_credentials) empty_world saves)) as H.
  destruct (apiCredentialsSet _ _ _ _ _) as [w' r]. destruct H as (-> & -> & _ & ->).
  - vm_compute. reflexivity.
  - discriminate.
  - reflexivity.
  - reflexivity.
  - left.
  - discriminate.
  - intros Hin. apply list_elem_of_In in Hin. cbn in Hin. intuition discriminate.
  - split; [reflexivity|]. split; vm_compute; reflexivity.
Defined.

Lemma saved_slot_is_returned_witness :
  (store_Get (Some (λ _, Ok "oauth")) (λ _, Ok (mkSecret "env" ∅)) true "slack" (setCredentialSlot "slack" "" "pasted" 1 empty_world).1).2 =
  Ok (mkSecret "pasted" ∅) ∧
  (store_Get (Some (λ _, Ok "oauth")) (λ _, Ok (mkSecret "env" ∅)) true "other" (setCredentialSlot "slack" "" "pasted" 1 empty_world).1).2 =
  Ok (mkSecret "oauth" ∅).
Proof.
  destruct (saved_slot_is_returned (Some (λ _, Ok "oauth")) (λ _, Ok (mkSecret "env" ∅)) "slack" "" "pasted" 1 empty_world
    (setCredentialSlot "slack" "" "pasted" 1 empty_world).1) as [_ H]; [reflexivity|vm_compute; reflexivity|].
  split; [vm_compute; reflexivity|]. rewrite H by discriminate. vm_compute. reflexivity.
Defined.

Lemma gke_never_signs_from_environment_witness :
  env_Get (λ k, if String.eqb k "CLAWPATROL_SECRET_GKE_SA_KEY" then "{}" else "") (λ _, Err "none") "gke" = Ok (mkSecret "" ∅) ∧
  GoogleGKECredential_SignHTTPRequest (TS := unit) id (λ _, Ok tt) (λ _, Ok "t") id ∅ (mkWire "GET" (mkURL "" "" "" "/" "" false "" "") "h" ∅ None false)
    (mkSecret "" ∅) =
  ((mkWire "GET" (mkURL "" "" "" "/" "" false "" "") "h" ∅ None false, Some "google_gke_credential: missing sa_key"), ∅).
Proof.
  assert (env_Get (λ k, if String.eqb k "CLAWPATROL_SECRET_GKE_SA_KEY" then "{}" else "") (λ _, Err "none") "gke" = Ok (mkSecret "" ∅)) as He
    by (vm_compute; reflexivity).
  split; [exact He|]. apply (gke_never_signs_from_environment _ _ _ _ _ _ _ _ _ _ He).
Defined.
