(* ===== verification/OAuth.v ===== *)
(** * OAuth credentials: the state of one credential ([cmd/clawpatrol/oauth.go])

    Tokens, the verdict remembered of the last refresh, and the critical sections
    of [oauthState]: each is a function on the state, since the code runs it
    under the state's lock. Times are nanoseconds; a zero time is [None]. JSON,
    HTTP and [golang.org/x/oauth2] are parameters: its reuse source hands a token
    out until 60 seconds before its expiry ([Valid]). *)
From S2P Require Import Prelude GoStrings NetAddr GoUrl GoHttp GoEncode Policy.

Definition second : Z := 10 ^ 9.

(** The value of an [int64] after an operation that may overflow. *)
Definition int64 (n : Z) : Z := (n + 2 ^ 63) mod 2 ^ 64 - 2 ^ 63.

(** ** Tokens *)

Record Token := mkToken { AccessToken : string; RefreshToken : string; TokenType : string; Expiry : option Z }.

#[global] Instance Token_eq_dec : EqDecision Token.
Proof. solve_decision. Defined.

Definition oauthReuseEarlyExpiry : Z := 60 * second.
Definition oauthRefreshBackoffBase : Z := 30 * second.
Definition oauthRefreshBackoffMax : Z := 900 * second.

(** [Token.Valid] with the early expiry of the reuse source. *)
Definition Valid (now : Z) (t : Token) : bool :=
  negb (String.eqb (AccessToken t) "") &&
  match Expiry t with None => true | Some e => now <=? e - oauthReuseEarlyExpiry end.

Definition tokenExpired (t : Token) (now : Z) : bool := match Expiry t with None => false | Some e => e <=? now end.

(** ** Refresh failures *)

(** An [error] of a refresh: the two the gateway diagnoses itself, a deadline, a
    cancellation, an [oauth2.RetrieveError] with its HTTP status and error code,
    or any other. *)
Inductive RefreshError :=
  | errNoRefreshToken
  | errNoDynamicClientID
  | DeadlineExceeded
  | Canceled
  | RetrieveError (status : option Z) (code : string)
  | OtherError (text : string).

Inductive refreshState := refreshUnknown | refreshOK | refreshTransient | refreshTerminal.

#[global] Instance refreshState_eq_dec : EqDecision refreshState.
Proof. solve_decision. Defined.

Definition noRefreshToken_text : string := "no refresh token is stored".
Definition noDynamicClientID_text : string := "dynamic client registration was never persisted".

(** Whether a known code is terminal. *)
Definition knownOAuthErrorCodes : gmap string bool :=
  list_to_map [("invalid_grant", true); ("invalid_client", true); ("unauthorized_client", true); ("unsupported_grant_type", true);
    ("invalid_scope", true); ("access_denied", true); ("expired_token", true); ("invalid_request", false);
    ("unsupported_response_type", false); ("server_error", false); ("temporarily_unavailable", false); ("slow_down", false);
    ("authorization_pending", false)].

Definition rejectionStatus (status : Z) : bool := (status =? 400) || (status =? 401) || (status =? 403).

(** An HTTP status as [%d] prints it. *)
Definition Zdecimal (n : Z) : string := if n <? 0 then "-" +:+ Itoa (Z.to_nat (- n)) else Itoa (Z.to_nat n).

Definition classifyRefreshError (err : RefreshError) : refreshState * string :=
  match err with
  | errNoRefreshToken => (refreshTerminal, noRefreshToken_text)
  | errNoDynamicClientID => (refreshTerminal, noDynamicClientID_text)
  | DeadlineExceeded => (refreshTransient, "refresh timed out")
  | Canceled => (refreshTransient, "refresh cancelled")
  | OtherError _ => (refreshTransient, "refresh failed: could not reach the provider")
  | RetrieveError resp code =>
      let status := default 0 resp in
      match knownOAuthErrorCodes !! code with
      | Some terminal =>
          if terminal && rejectionStatus status then (refreshTerminal, "the provider rejected the refresh: " +:+ code)
          else (refreshTransient, "refresh failed: " +:+ code)
      | None =>
          if negb (status =? 0) then (refreshTransient, "refresh failed: provider answered HTTP " +:+ Zdecimal status)
          else (refreshTransient, "refresh failed: unrecognised provider response")
      end
  end.

Definition refreshLogDetail (err : RefreshError) : string :=
  match err with
  | RetrieveError (Some status) _ => "HTTP " +:+ Zdecimal status
  | RetrieveError None _ => "provider rejected the refresh"
  | errNoRefreshToken => noRefreshToken_text
  | errNoDynamicClientID => noDynamicClientID_text
  | DeadlineExceeded => "context deadline exceeded"
  | Canceled => "context canceled"
  | OtherError text => text
  end.

(** The loop doubles once per failure after the first, while below the ceiling. *)
Fixpoint backoff_loop (n : nat) (d : Z) : Z :=
  match n with
  | O => d
  | S k => if d <? oauthRefreshBackoffMax then backoff_loop k (d * 2) else d
  end.

Definition refreshBackoff (failures : nat) : Z := Z.min (backoff_loop (failures - 1) oauthRefreshBackoffBase) oauthRefreshBackoffMax.

(** ** Integrations and configurations *)

(** [config.OAuthConfig] and [config.OAuthIntegration]. *)
Record OAuthConfig := mkOAuthConfig {
  oc_ClientID : string; oc_ClientSecret : string; oc_AuthURL : string; oc_TokenURL : string; oc_DeviceURL : string;
  oc_RegisterURL : string; oc_RedirectURI : string; oc_Scopes : list string
}.

Record OAuthIntegration := mkIntegration { oi_ID : string; oi_Header : string; oi_Prefix : string; oi_Flow : string; oi_OAuth : OAuthConfig }.

(** [oauth2.Config], the fields used. *)
Record Config := mkConfig { ClientID : string; ClientSecret : string; Scopes : list string; RedirectURL : string; AuthURL : string; TokenURL : string }.

Definition sameFlowConfig (a b : Config) : bool :=
  String.eqb (ClientID a) (ClientID b) && String.eqb (ClientSecret a) (ClientSecret b) && String.eqb (TokenURL a) (TokenURL b) &&
  bool_decide (Scopes a = Scopes b).

Definition isAnthropicTokenURL (u : string) : bool := Contains u "anthropic.com/".

(** [resolveTemplate]: replaces [{{secret:NAME}}] by a variable of the
    environment; what a variable holds is scanned again, so fuel bounds the
    rounds. *)
Fixpoint resolveTemplate (getenv : string -> string) (fuel : nat) (out : string) : string :=
  match fuel with
  | O => out
  | S fuel =>
      match Index out "{{secret:" with
      | None => out
      | Some i =>
          match Index (str_drop i out) "}}" with
          | None => out
          | Some j =>
              let name := str_slice (i + 9) (i + j) out in
              resolveTemplate getenv fuel (str_take i out +:+ getenv name +:+ str_drop (i + j + 2) out)
          end
      end
  end.

(** ** The state of a credential *)

Record oauthState := mkState {
  os_cfg : Config;
  (** the generation of the installed token source; [None] for a nil source *)
  os_source : option nat;
  os_header : string;
  os_prefix : string;
  os_id : string;
  os_displayName : string;
  os_avatarURL : string;
  os_clientID : string;
  os_flow : string;
  os_current : option Token;
  os_refresh : refreshState;
  os_refreshReason : string;
  os_refreshing : bool;
  os_retryAfter : option Z;
  os_failures : nat;
  os_gen : nat
}.

(** [newState], with the templates resolved. *)
Definition newState (resolve : string -> string) (it : OAuthIntegration) : oauthState :=
  let o := oi_OAuth it in
  let header := if String.eqb (oi_Header it) "" then "Authorization" else oi_Header it in
  let prefix := if String.eqb (oi_Prefix it) "" && String.eqb header "Authorization" then "Bearer " else oi_Prefix it in
  mkState (mkConfig (resolve (oc_ClientID o)) (resolve (oc_ClientSecret o)) (oc_Scopes o) (oc_RedirectURI o) (oc_AuthURL o) (oc_TokenURL o))
    None header prefix (oi_ID it) "" "" "" (oi_Flow it) None refreshUnknown "" false None 0 0.

(** Replacing what a refresh concluded. *)
Definition set_verdict (s : oauthState) (st : refreshState) (reason : string) (retryAfter : option Z) (failures : nat) : oauthState :=
  mkState (os_cfg s) (os_source s) (os_header s) (os_prefix s) (os_id s) (os_displayName s) (os_avatarURL s) (os_clientID s) (os_flow s)
    (os_current s) st reason (os_refreshing s) retryAfter failures (os_gen s).

Definition set_refreshing (s : oauthState) (b : bool) : oauthState :=
  mkState (os_cfg s) (os_source s) (os_header s) (os_prefix s) (os_id s) (os_displayName s) (os_avatarURL s) (os_clientID s) (os_flow s)
    (os_current s) (os_refresh s) (os_refreshReason s) b (os_retryAfter s) (os_failures s) (os_gen s).

(** A new generation with token [tok] and a source for it: the second critical
    section of [setToken]. *)
Definition install (s : oauthState) (tok : Token) : oauthState :=
  mkState (os_cfg s) (Some (S (os_gen s))) (os_header s) (os_prefix s) (os_id s) (os_displayName s) (os_avatarURL s) (os_clientID s) (os_flow s)
    (Some tok) refreshUnknown "" (os_refreshing s) None 0 (S (os_gen s)).

Definition set_client (s : oauthState) (clientID : string) : oauthState :=
  let c := os_cfg s in
  mkState (mkConfig clientID (ClientSecret c) (Scopes c) (RedirectURL c) (AuthURL c) (TokenURL c)) (os_source s) (os_header s) (os_prefix s)
    (os_id s) (os_displayName s) (os_avatarURL s) clientID (os_flow s) (os_current s) (os_refresh s) (os_refreshReason s) (os_refreshing s)
    (os_retryAfter s) (os_failures s) (os_gen s).

Definition set_profile (s : oauthState) (displayName avatarURL : string) : oauthState :=
  mkState (os_cfg s) (os_source s) (os_header s) (os_prefix s) (os_id s) displayName avatarURL (os_clientID s) (os_flow s)
    (os_current s) (os_refresh s) (os_refreshReason s) (os_refreshing s) (os_retryAfter s) (os_failures s) (os_gen s).

Definition retire (s : oauthState) : oauthState :=
  mkState (os_cfg s) (os_source s) (os_header s) (os_prefix s) (os_id s) (os_displayName s) (os_avatarURL s) (os_clientID s) (os_flow s)
    (os_current s) (os_refresh s) (os_refreshReason s) (os_refreshing s) (os_retryAfter s) (os_failures s) (S (os_gen s)).

(** [noteRefreshSuccess] up to its write; [None] when the generation is
    superseded. *)
Definition noteRefreshSuccess (gen : nat) (t : Token) (s : oauthState) : option oauthState :=
  if negb (gen =? os_gen s)%nat then None
  else Some (mkState (os_cfg s) (os_source s) (os_header s) (os_prefix s) (os_id s) (os_displayName s) (os_avatarURL s) (os_clientID s)
    (os_flow s) (Some t) refreshOK "" (os_refreshing s) None 0 (os_gen s)).

Definition noteRefreshFailure (now : Z) (gen : nat) (err : RefreshError) (s : oauthState) : oauthState :=
  let '(state, reason) := classifyRefreshError err in
  if negb (gen =? os_gen s)%nat then s
  else
    let '(state, reason) :=
      match os_current s with
      | Some t => if String.eqb (RefreshToken t) "" then (refreshTerminal, noRefreshToken_text) else (state, reason)
      | None => (state, reason)
      end in
    if bool_decide (state = refreshTransient)
    then set_verdict s state reason (Some (now + refreshBackoff (S (os_failures s)))) (S (os_failures s))
    else set_verdict s state reason (os_retryAfter s) (os_failures s).

(** The generation of the source to renew through, and the state with the
    attempt marked. *)
Definition claimRefresh (now : Z) (s : oauthState) : option (nat * oauthState) :=
  match os_source s, os_current s with
  | Some g, Some cur =>
      if os_refreshing s then None
      else if bool_decide (os_refresh s = refreshTerminal) then None
      else if String.eqb (RefreshToken cur) "" then None
      else if match os_retryAfter s with Some t => now <? t | None => false end then None
      else match Expiry cur with
           | None => None
           | Some e => if now + oauthReuseEarlyExpiry <? e then None else Some (g, set_refreshing s true)
           end
  | _, _ => None
  end.

(** [inheritRefreshState]: what [s] remembers after [prev]. *)
Definition inheritRefreshState (s prev : oauthState) (tok : Token) : oauthState :=
  let same := match os_current prev with
              | Some cur => String.eqb (AccessToken cur) (AccessToken tok) && String.eqb (RefreshToken cur) (RefreshToken tok) &&
                            sameFlowConfig (os_cfg prev) (os_cfg s)
              | None => false
              end in
  if same then set_verdict s (os_refresh prev) (os_refreshReason prev) (os_retryAfter prev) (os_failures prev) else s.

(** ** Status *)

Record OAuthStatus := mkStatus { st_Connected : bool; st_Expiry : option Z; st_NeedsReauth : bool; st_Reason : string }.

Definition no_status : OAuthStatus := mkStatus false None false "".

Definition Status (now : Z) (s : option oauthState) : OAuthStatus :=
  match s with
  | None => no_status
  | Some s =>
      match os_source s, os_current s with
      | Some _, Some cur =>
          if String.eqb (AccessToken cur) "" then no_status
          else if tokenExpired cur now && String.eqb (RefreshToken cur) ""
          then mkStatus false (Expiry cur) true ("the access token has expired and " +:+ noRefreshToken_text)
          else if bool_decide (os_refresh s = refreshTerminal) then mkStatus false (Expiry cur) true (os_refreshReason s)
          else if bool_decide (os_refresh s = refreshTransient) && tokenExpired cur now
          then mkStatus false (Expiry cur) false (os_refreshReason s)
          else mkStatus true (Expiry cur) false (os_refreshReason s)
      | _, _ => no_status
      end
  end.

(** ** Asking the provider *)

(** A token endpoint's answer: no answer, or a status with what its body parses
    as ([None] when it is not JSON): access token, refresh token, type,
    [expires_in] (an [int64]), error code. *)
Record TokenReply := mkReply { tr_AccessToken : string; tr_RefreshToken : string; tr_TokenType : string; tr_ExpiresIn : Z; tr_Error : string }.

Inductive ProviderAnswer := NoAnswer (e : RefreshError) | Answer (status : Z) (body : option TokenReply).

Definition reply_token (now : Z) (tr : TokenReply) (keep : string) : Token :=
  mkToken (tr_AccessToken tr) (if String.eqb (tr_RefreshToken tr) "" then keep else tr_RefreshToken tr) (tr_TokenType tr)
    (if 0 <? tr_ExpiresIn tr then Some (now + int64 (tr_ExpiresIn tr * second)) else None).

(** The shared end of the two refresh sources: the reply as a token. *)
Definition refresh_answer (now : Z) (keep : string) (a : ProviderAnswer) : result Token RefreshError :=
  match a with
  | NoAnswer e => Err e
  | Answer status body =>
      let code := match body with Some tr => tr_Error tr | None => "" end in
      if negb (status =? 200) then Err (RetrieveError (Some status) code)
      else match body with
           | None => Err (OtherError "invalid JSON")
           | Some tr => if String.eqb (tr_AccessToken tr) "" then Err (RetrieveError (Some status) code) else Ok (reply_token now tr keep)
           end
  end.

(** [anthropicRefreshSource.Token] and [dynamicMCPRefreshSource.Token]. *)
Definition anthropic_Token (now : Z) (a : ProviderAnswer) (current : Token) : result Token RefreshError :=
  if Valid now current then Ok current
  else if String.eqb (RefreshToken current) "" then Err errNoRefreshToken
  else refresh_answer now (RefreshToken current) a.

Definition dynamicMCP_Token (now : Z) (a : ProviderAnswer) (cfg : Config) (current : Token) : result Token RefreshError :=
  if Valid now current then Ok current
  else if String.eqb (RefreshToken current) "" then Err errNoRefreshToken
  else if String.eqb (ClientID cfg) "" then Err errNoDynamicClientID
  else refresh_answer now (RefreshToken current) a.

(** The base source [setToken] chooses; [std] is what [oauth2]'s own source
    returns. *)
Definition base_Token (now : Z) (a : ProviderAnswer) (std : result Token RefreshError) (flow : string) (cfg : Config) (current : Token)
    : result Token RefreshError :=
  if isAnthropicTokenURL (TokenURL cfg) then anthropic_Token now a current
  else if String.eqb flow "dynamic_mcp" || String.eqb flow "notion_mcp" then dynamicMCP_Token now a cfg current
  else std.

(** [exchangeAnthropicCode]. *)
Definition exchangeAnthropicCode (now : Z) (a : ProviderAnswer) : result Token RefreshError :=
  match a with
  | NoAnswer e => Err e
  | Answer status body =>
      if negb (status =? 200) then Err (OtherError "anthropic")
      else match body with None => Err (OtherError "invalid JSON") | Some tr => Ok (reply_token now tr "") end
  end.

(** ** Rows *)

(** A row of [credentials]; [None] is NULL. *)
Record Row := mkRow {
  r_access : string; r_type : string; r_refresh : string; r_expiry_ns : Z; r_updated_ns : Z; r_client_id : option string;
  r_display : option string; r_avatar : option string
}.

Definition nullableString (s : string) : option string := if String.eqb s "" then None else Some s.

(** The upsert of [persist]; [UnixNano] overflows past the year 2262. *)
Definition persist_row (old : option Row) (t : Token) (clientID : string) (now : Z) : Row :=
  mkRow (AccessToken t) (TokenType t) (RefreshToken t) (int64 (default 0 (Expiry t))) now (nullableString clientID)
    (old ≫= r_display) (old ≫= r_avatar).

(** The token [loadFromDB] builds from a row. *)
Definition row_token (r : Row) : Token :=
  mkToken (r_access r) (r_refresh r) (r_type r) (if r_expiry_ns r =? 0 then None else Some (r_expiry_ns r)).

(** The state it builds, before [setToken]. *)
Definition row_state (resolve : string -> string) (it : OAuthIntegration) (r : Row) : oauthState :=
  let s := newState resolve it in
  match r_client_id r with
  | Some c => if String.eqb c "" then s else set_client s c
  | None => s
  end.
