(* ===== verification/OAuthConc.v ===== *)
(** * The OAuth registry under concurrency ([OAuthRegistry] of [cmd/clawpatrol/oauth.go])

    Requests, the background refresher, the dashboard and policy reloads call the
    registry concurrently. A call is a [Job] at one of its program points; running
    a job does what the code does until it next gives up or waits for a lock:
    one critical section of the registry lock or of a state's lock, one database
    statement, or the wait for a provider. Jobs interleave freely. States live in
    a heap, since a reload replaces a state by another for the same credential
    while calls still hold the old one.

    [writeMu] of a state is held across several steps, as is the mutex of a reuse
    source, which spans the provider's answer and the write that follows it. *)
From S2P Require Import Prelude GoStrings NetAddr GoUrl GoHttp GoEncode Policy OAuth.

(** ** The world *)

(** A token source, for a state and one of its generations: the token the reuse
    source hands out, the snapshot of the configuration, its mutex. *)
Record Source := mkSource { src_token : Token; src_cfg : Config; src_busy : bool }.

(** What happens to the row of a credential, with the state and generation that
    caused it. *)
Inductive Event :=
  | Wrote (h gen : nat) (id : string) (t : Token)
  | Deleted (h gen : nat) (id : string).

Record World := mkOWorld {
  ow_integrations : gmap string OAuthIntegration;
  ow_states : gmap string nat;
  ow_heap : gmap nat oauthState;
  ow_sources : gmap (nat * nat) Source;
  (** the states whose [writeMu] is held *)
  ow_locked : gset nat;
  ow_db : gmap string Row;
  ow_log : list Event
}.

Definition with_states (w : World) (m : gmap string nat) : World :=
  mkOWorld (ow_integrations w) m (ow_heap w) (ow_sources w) (ow_locked w) (ow_db w) (ow_log w).
Definition with_state (w : World) (h : nat) (s : oauthState) : World :=
  mkOWorld (ow_integrations w) (ow_states w) (<[h := s]> (ow_heap w)) (ow_sources w) (ow_locked w) (ow_db w) (ow_log w).
Definition with_source (w : World) (k : nat * nat) (s : Source) : World :=
  mkOWorld (ow_integrations w) (ow_states w) (ow_heap w) (<[k := s]> (ow_sources w)) (ow_locked w) (ow_db w) (ow_log w).
Definition with_locked (w : World) (l : gset nat) : World :=
  mkOWorld (ow_integrations w) (ow_states w) (ow_heap w) (ow_sources w) l (ow_db w) (ow_log w).
Definition with_db (w : World) (db : gmap string Row) (log : list Event) : World :=
  mkOWorld (ow_integrations w) (ow_states w) (ow_heap w) (ow_sources w) (ow_locked w) db log.

Definition unlock (w : World) (h : nat) : World := with_locked w (ow_locked w ∖ {[h]}).

(** ** Program points *)

(** What follows a [persist]: nothing more, the end of a refresh (and the
    release of the refresher's claim), the profile of a fresh connection, the
    rest of a reload. *)
Inductive Cont :=
  | Return
  | EndRefresh (h gen : nat) (t : Token) (background : bool)
  | FetchProfile (h gen : nat)
  | AfterLoad (h : nat) (id : string) (r : Row) (rest : list (string * Row)).

Inductive Job :=
  (** [Token] and [Inject]: before [r.get], before [tokenSource] *)
  | JToken (id : string)
  | JSource (h : nat)
  (** [refreshExpiring] before its snapshot, and [claimRefresh] of one state *)
  | JSweep
  | JClaim (h : nat)
  (** [src.Token()]: waiting for the reuse mutex, waiting for the provider *)
  | JCall (h gen : nat) (background : bool)
  | JProvider (h gen : nat) (background : bool)
  | JRelease (h : nat)
  (** [persist]: waiting for [writeMu], before the check, before the statement *)
  | JPersist (h gen : nat) (t : Token) (k : Cont)
  | JCheck (h gen : nat) (t : Token) (k : Cont)
  | JExec (h gen : nat) (t : Token) (id clientID : string) (k : Cont)
  (** [SetWithClient]: lookup, client id, the two sections of [setToken], the
      userinfo call, [persistProfile] *)
  | JSet (id : string) (tok : Token) (clientID : string)
  | JSetClient (h : nat) (tok : Token) (clientID : string)
  | JSnapshot (h : nat) (tok : Token)
  | JInstall (h : nat) (tok : Token) (cfg : Config)
  | JProfile (h gen : nat)
  | JProfileLock (h gen : nat) (name avatar : string)
  | JProfileCheck (h gen : nat) (name avatar : string)
  | JProfileExec (h : nat) (id name avatar : string)
  (** [Revoke]: the map, [retire], waiting for [writeMu], the DELETE *)
  | JRevoke (id : string)
  | JRetire (h : nat) (id : string)
  | JRevokeLock (h gen : nat) (id : string)
  | JDelete (h gen : nat) (id : string)
  (** [loadFromDB]: the query, the next row, [r.get] after its [setToken], the
      inherited verdict, [putState] and the [retire] of the state it displaces *)
  | JLoad
  | JRow (rows : list (string * Row))
  | JGetPrev (h : nat) (id : string) (r : Row) (rest : list (string * Row))
  | JInherit (h : nat) (id : string) (r : Row) (prev : option nat) (rest : list (string * Row))
  | JPut (h : nat) (id : string) (rest : list (string * Row))
  | JRetirePrev (prev : nat) (rest : list (string * Row))
  (** [Register] *)
  | JRegister (id : string) (def : OAuthIntegration).

(** The calls that start from outside. *)
Definition entry (j : Job) : Prop :=
  match j with JToken _ | JSweep | JSet _ _ _ | JRevoke _ | JLoad | JRegister _ _ => True | _ => False end.

(** What the surroundings decide in a step: the time, the provider's answer,
    [oauth2]'s own refresh, the userinfo, the order of the rows of a query,
    whether a statement takes effect. *)
Record Choice := mkChoice {
  ch_now : Z; ch_answer : ProviderAnswer; ch_std : result Token RefreshError; ch_profile : string * string;
  ch_rows : list (string * Row) -> list (string * Row);
  (** a statement fails; the code ignores the error *)
  ch_fails : bool
}.

Section Run.
Context (resolve : string -> string) (ch : Choice).

(** After a [persist]. *)
Definition continue (w : World) (k : Cont) : World * list Job :=
  match k with
  | Return => (w, [])
  | EndRefresh h gen t bg =>
      (match ow_sources w !! (h, gen) with
       | Some src => with_source w (h, gen) (mkSource t (src_cfg src) false)
       | None => w
       end, if bg then [JRelease h] else [])
  | FetchProfile h gen => (w, [JProfile h gen])
  | AfterLoad h id r rest => (w, [JGetPrev h id r rest])
  end.

(** [Token] and [Inject] up to the state they work on. *)
Definition Token_start (w : World) (id : string) : option (World * list Job) :=
  if String.eqb id "" then Some (w, [])
  else match ow_states w !! id with None => Some (w, []) | Some h => Some (w, [JSource h]) end.

(** [s.tokenSource()]. *)
Definition tokenSource_step (w : World) (h : nat) : option (World * list Job) :=
  match ow_heap w !! h with
  | None => None
  | Some s => Some (w, match os_source s with None => [] | Some g => [JCall h g false] end)
  end.

(** The snapshot of [refreshExpiring]: one goroutine per state. *)
Definition refreshExpiring_step (w : World) : option (World * list Job) :=
  Some (w, JClaim <$> (map_to_list (ow_states w)).*2).

Definition claim_step (w : World) (h : nat) : option (World * list Job) :=
  match ow_heap w !! h with
  | None => None
  | Some s => match claimRefresh (ch_now ch) s with
              | None => Some (w, [])
              | Some (g, s') => Some (with_state w h s', [JCall h g true])
              end
  end.

(** [Token] of [oauth2]'s reuse source: wait for its mutex, hand out the token
    while it is valid, else ask the source below it. *)
Definition reuse_step (w : World) (h : nat) (gen : nat) (bg : bool) : option (World * list Job) :=
  match ow_sources w !! (h, gen) with
  | None => None
  | Some src =>
      if src_busy src then None
      else if Valid (ch_now ch) (src_token src) then Some (w, if bg then [JRelease h] else [])
      else Some (with_source w (h, gen) (mkSource (src_token src) (src_cfg src) true), [JProvider h gen bg])
  end.

(** [persistingSource.Token]: the provider has answered; the verdict is noted. *)
Definition persistingSource_step (w : World) (h : nat) (gen : nat) (bg : bool) : option (World * list Job) :=
  match ow_sources w !! (h, gen), ow_heap w !! h with
  | Some src, Some s =>
      match base_Token (ch_now ch) (ch_answer ch) (ch_std ch) (os_flow s) (src_cfg src) (src_token src) with
      | Err e =>
          Some (with_source (with_state w h (noteRefreshFailure (ch_now ch) gen e s)) (h, gen)
                  (mkSource (src_token src) (src_cfg src) false), if bg then [JRelease h] else [])
      | Ok t =>
          match noteRefreshSuccess gen t s with
          | None => Some (continue w (EndRefresh h gen t bg))
          | Some s' => Some (with_state w h s', [JPersist h gen t (EndRefresh h gen t bg)])
          end
      end
  | _, _ => None
  end.

Definition releaseRefresh_step (w : World) (h : nat) : option (World * list Job) :=
  match ow_heap w !! h with None => None | Some s => Some (with_state w h (set_refreshing s false), []) end.

(** The three parts of [persist]. *)
Definition persist_lock (w : World) (h : nat) (gen : nat) (t : Token) (k : Cont) : option (World * list Job) :=
  if bool_decide (h ∈ ow_locked w) then None else Some (with_locked w ({[h]} ∪ ow_locked w), [JCheck h gen t k]).

Definition persist_check (w : World) (h : nat) (gen : nat) (t : Token) (k : Cont) : option (World * list Job) :=
  match ow_heap w !! h with
  | None => None
  | Some s => if (gen =? os_gen s)%nat then Some (w, [JExec h gen t (os_id s) (os_clientID s) k])
              else Some (continue (unlock w h) k)
  end.

Definition persist_exec (w : World) (h : nat) (gen : nat) (t : Token) (id : string) (clientID : string) (k : Cont) : option (World * list Job) :=
  Some (continue (unlock (if ch_fails ch then w else with_db w (<[id := persist_row (ow_db w !! id) t clientID (ch_now ch)]> (ow_db w))
                            (ow_log w ++ [Wrote h gen id t])) h) k).

(** [SetWithClient]: the integration and its state, created when missing. *)
Definition SetWithClient_lookup (w : World) (id : string) (tok : Token) (clientID : string) : option (World * list Job) :=
  match ow_integrations w !! id with
  | None => Some (w, [])
  | Some it =>
      match ow_states w !! id with
      | Some h => Some (w, [JSetClient h tok clientID])
      | None =>
          let h := fresh (dom (ow_heap w)) in
          Some (with_states (with_state w h (newState resolve it)) (<[id := h]> (ow_states w)), [JSetClient h tok clientID])
      end
  end.

Definition SetWithClient_client (w : World) (h : nat) (tok : Token) (clientID : string) : option (World * list Job) :=
  match ow_heap w !! h with
  | None => None
  | Some s => Some (if String.eqb clientID "" then w else with_state w h (set_client s clientID), [JSnapshot h tok])
  end.

(** The two critical sections of [setToken]. *)
Definition setToken_snapshot (w : World) (h : nat) (tok : Token) : option (World * list Job) :=
  match ow_heap w !! h with None => None | Some s => Some (w, [JInstall h tok (os_cfg s)]) end.

Definition setToken_install (w : World) (h : nat) (tok : Token) (cfg : Config) : option (World * list Job) :=
  match ow_heap w !! h with
  | None => None
  | Some s =>
      let s' := install s tok in
      Some (with_source (with_state w h s') (h, os_gen s') (mkSource tok cfg false), [JPersist h (os_gen s') tok (FetchProfile h (os_gen s'))])
  end.

(** The userinfo of a fresh connection, and the three parts of [persistProfile]. *)
Definition SetWithClient_profile (w : World) (h : nat) (gen : nat) : option (World * list Job) :=
  let '(name, avatar) := ch_profile ch in
  Some (w, if String.eqb name "" && String.eqb avatar "" then [] else [JProfileLock h gen name avatar]).

Definition persistProfile_lock (w : World) (h : nat) (gen : nat) (name : string) (avatar : string) : option (World * list Job) :=
  if bool_decide (h ∈ ow_locked w) then None else Some (with_locked w ({[h]} ∪ ow_locked w), [JProfileCheck h gen name avatar]).

Definition persistProfile_check (w : World) (h : nat) (gen : nat) (name : string) (avatar : string) : option (World * list Job) :=
  match ow_heap w !! h with
  | None => None
  | Some s => if (gen =? os_gen s)%nat then Some (with_state w h (set_profile s name avatar), [JProfileExec h (os_id s) name avatar])
              else Some (unlock w h, [])
  end.

Definition persistProfile_exec (w : World) (h : nat) (id : string) (name : string) (avatar : string) : option (World * list Job) :=
  Some (unlock (if ch_fails ch then w else with_db w
          (alter (λ r, mkRow (r_access r) (r_type r) (r_refresh r) (r_expiry_ns r) (r_updated_ns r) (r_client_id r) (Some name) (Some avatar))
             id (ow_db w)) (ow_log w)) h, []).

(** [Revoke]: out of the map, a generation on, the lock, the DELETE. *)
Definition Revoke_forget (w : World) (id : string) : option (World * list Job) :=
  match ow_states w !! id with
  | None => Some (w, [])
  | Some h => Some (with_states w (delete id (ow_states w)), [JRetire h id])
  end.

Definition Revoke_retire (w : World) (h : nat) (id : string) : option (World * list Job) :=
  match ow_heap w !! h with None => None | Some s => Some (with_state w h (retire s), [JRevokeLock h (S (os_gen s)) id]) end.

Definition Revoke_lock (w : World) (h : nat) (gen : nat) (id : string) : option (World * list Job) :=
  if bool_decide (h ∈ ow_locked w) then None else Some (with_locked w ({[h]} ∪ ow_locked w), [JDelete h gen id]).

Definition Revoke_delete (w : World) (h : nat) (gen : nat) (id : string) : option (World * list Job) :=
  Some (unlock (if ch_fails ch then w else with_db w (delete id (ow_db w)) (ow_log w ++ [Deleted h gen id])) h, []).

(** [loadFromDB]: the rows, one row, the inherited verdict. *)
Definition loadFromDB_query (w : World) : option (World * list Job) := Some (w, [JRow (ch_rows ch (map_to_list (ow_db w)))]).

Definition loadFromDB_row (w : World) (rows : list (string * Row)) : option (World * list Job) :=
  match rows with
  | [] => Some (w, [])
  | (id, r) :: rest =>
      match ow_integrations w !! id with
      | None => Some (w, [JRow rest])
      | Some it =>
          let h := fresh (dom (ow_heap w)) in
          let s := install (row_state resolve it r) (row_token r) in
          Some (with_source (with_state w h s) (h, os_gen s) (mkSource (row_token r) (os_cfg s) false),
                [JPersist h (os_gen s) (row_token r) (AfterLoad h id r rest)])
      end
  end.

Definition loadFromDB_prev (w : World) (h : nat) (id : string) (r : Row) (rest : list (string * Row)) : option (World * list Job) :=
  Some (w, [JInherit h id r (ow_states w !! id) rest]).

Definition loadFromDB_inherit (w : World) (h : nat) (id : string) (r : Row) (prev : option nat) (rest : list (string * Row))
    : option (World * list Job) :=
  match ow_heap w !! h with
  | None => None
  | Some s =>
      let s := match prev ≫= (ow_heap w !!.) with Some p => inheritRefreshState s p (row_token r) | None => s end in
      Some (with_state w h (set_profile s (default "" (r_display r)) (default "" (r_avatar r))), [JPut h id rest])
  end.

(** [putState]. *)
Definition putState_swap (w : World) (h : nat) (id : string) (rest : list (string * Row)) : option (World * list Job) :=
  Some (with_states w (<[id := h]> (ow_states w)),
        match ow_states w !! id with
        | Some prev => if (prev =? h)%nat then [JRow rest] else [JRetirePrev prev rest]
        | None => [JRow rest]
        end).

Definition putState_retire (w : World) (prev : nat) (rest : list (string * Row)) : option (World * list Job) :=
  match ow_heap w !! prev with None => None | Some s => Some (with_state w prev (retire s), [JRow rest]) end.

Definition Register (w : World) (id : string) (def : OAuthIntegration) : option (World * list Job) :=
  Some (if String.eqb id "" then w
        else mkOWorld (<[id := mkIntegration id (oi_Header def) (oi_Prefix def) (oi_Flow def) (oi_OAuth def)]> (ow_integrations w))
               (ow_states w) (ow_heap w) (ow_sources w) (ow_locked w) (ow_db w) (ow_log w), []).

(** One step of a job: [None] when it must wait. *)
Definition run (w : World) (j : Job) : option (World * list Job) :=
  match j with
  | JToken id => Token_start w id
  | JSource h => tokenSource_step w h
  | JSweep => refreshExpiring_step w
  | JClaim h => claim_step w h
  | JCall h gen bg => reuse_step w h gen bg
  | JProvider h gen bg => persistingSource_step w h gen bg
  | JRelease h => releaseRefresh_step w h
  | JPersist h gen t k => persist_lock w h gen t k
  | JCheck h gen t k => persist_check w h gen t k
  | JExec h gen t id clientID k => persist_exec w h gen t id clientID k
  | JSet id tok clientID => SetWithClient_lookup w id tok clientID
  | JSetClient h tok clientID => SetWithClient_client w h tok clientID
  | JSnapshot h tok => setToken_snapshot w h tok
  | JInstall h tok cfg => setToken_install w h tok cfg
  | JProfile h gen => SetWithClient_profile w h gen
  | JProfileLock h gen name avatar => persistProfile_lock w h gen name avatar
  | JProfileCheck h gen name avatar => persistProfile_check w h gen name avatar
  | JProfileExec h id name avatar => persistProfile_exec w h id name avatar
  | JRevoke id => Revoke_forget w id
  | JRetire h id => Revoke_retire w h id
  | JRevokeLock h gen id => Revoke_lock w h gen id
  | JDelete h gen id => Revoke_delete w h gen id
  | JLoad => loadFromDB_query w
  | JRow rows => loadFromDB_row w rows
  | JGetPrev h id r rest => loadFromDB_prev w h id r rest
  | JInherit h id r prev rest => loadFromDB_inherit w h id r prev rest
  | JPut h id rest => putState_swap w h id rest
  | JRetirePrev prev rest => putState_retire w prev rest
  | JRegister id def => Register w id def
  end.
End Run.

(** ** Interleavings *)

(** The world and the calls in progress. *)
Notation Sys := (World * list Job)%type.

Inductive step (resolve : string -> string) : Sys -> Sys -> Prop :=
  | step_run ch w w' l1 j l2 js : run resolve ch w j = Some (w', js) → step resolve (w, l1 ++ j :: l2) (w', l1 ++ js ++ l2)
  | step_start w l j : entry j → step resolve (w, l) (w, j :: l).

Definition reachable (resolve : string -> string) (s s' : Sys) : Prop := rtc (step resolve) s s'.

(** The registry at boot: no state, an unlocked empty heap, the rows on disk. *)
Definition boot (db : gmap string Row) : Sys := (mkOWorld ∅ ∅ ∅ ∅ ∅ db [], []).
