(* ===== verification/OAuthProps.v ===== *)
(** * What holds of the OAuth registry under every interleaving *)
From S2P Require Import Prelude GoStrings NetAddr GoUrl GoHttp GoEncode Policy OAuth OAuthConc.

Create HintDb oauth_steps discriminated.
#[export] Hint Unfold
  Token_start tokenSource_step refreshExpiring_step claim_step reuse_step persistingSource_step releaseRefresh_step persist_lock persist_check persist_exec
  SetWithClient_lookup SetWithClient_client setToken_snapshot setToken_install SetWithClient_profile persistProfile_lock persistProfile_check persistProfile_exec Revoke_forget
  Revoke_retire Revoke_lock Revoke_delete loadFromDB_query loadFromDB_prev loadFromDB_inherit putState_swap putState_retire Register loadFromDB_row : oauth_steps.

(** ** Exclusive resources *)

Section Exclusive.
Context (resolve : string -> string) {R : Type} (I : World -> Prop) (res : Job -> option R) (taken : World -> R -> Prop).

(** At most one job holds a resource, and a held resource is taken. *)
Definition exclusive (s : Sys) : Prop := NoDup (omap res s.2) ∧ Forall (taken s.1) (omap res s.2).

(** A job keeps what it held, or takes what was free; it frees only its own. *)
Definition respects : Prop := ∀ ch w j w' js, I w → (∀ r, res j = Some r → taken w r) → run resolve ch w j = Some (w', js) →
  (omap res js = [] ∨ ∃ r, omap res js = [r] ∧ taken w' r ∧ (res j = Some r ∨ ¬ taken w r)) ∧
  (∀ r, taken w r → res j ≠ Some r → taken w' r).

Lemma exclusive_step s s' :
  respects → (∀ j, entry j → res j = None) → I s.1 → exclusive s → step resolve s s' → exclusive s'.
Proof.
  intros Hr He HI [Hn Ht] Hs. destruct Hs as [ch w w' l1 j l2 js Hrun|w l j Hj]; unfold exclusive in *; cbn [fst snd] in *.
  2: { cbn. by rewrite (He j Hj). }
  rewrite !omap_app in *. cbn [omap list_omap] in Hn, Ht.
  assert (∀ r, res j = Some r → taken w r) as Hown.
  { intros r Hj. rewrite Hj, Forall_app, Forall_cons in Ht. by destruct Ht as (_ & ? & _). }
  destruct (Hr ch w j w' js HI Hown Hrun) as [Hjs Hkeep]; clear Hr Hown.
  assert (∀ r, r ∈ omap res l1 ∨ r ∈ omap res l2 → taken w r ∧ res j ≠ Some r) as Hother.
  { intros r1 Hin. destruct (res j) as [r0|] eqn:Ej.
    - apply NoDup_app in Hn as (_ & Hd & [Hn2 _]%NoDup_cons). rewrite Forall_app, Forall_cons, !Forall_forall in Ht.
      destruct Ht as (H1 & _ & H2), Hin as [Hin|Hin]; (split; [by auto|]); intros [= ->]; [|done]. apply (Hd r1 Hin). by left.
    - rewrite Forall_app, !Forall_forall in Ht. destruct Ht as [H1 H2], Hin as [Hin|Hin]; split; auto. }
  assert (NoDup (omap res l1 ++ omap res l2)) as Hn'.
  { destruct (res j) as [r0|]; [|done]. apply NoDup_app in Hn as (H1 & Hd & [_ H2]%NoDup_cons). apply NoDup_app. split_and!; try done.
    intros r Hin Hin2. apply (Hd r Hin). by right. }
  assert (∀ r, r ∈ omap res l1 ∨ r ∈ omap res l2 → taken w' r) as Hot.
  { intros r Hin. destruct (Hother r Hin). by apply Hkeep. }
  destruct Hjs as [->|(r & -> & Htr & Hrj)]; cbn [app].
  - split; [done|]. apply Forall_app. rewrite !Forall_forall. split; auto.
  - assert (¬ (r ∈ omap res l1 ∨ r ∈ omap res l2)) as Hnew.
    { intros Hin. destruct (Hother r Hin) as [Hw Hj]. by destruct Hrj. }
    split.
    + apply NoDup_app in Hn' as (H1 & Hd & H2). apply NoDup_app. split_and!; [done| |apply NoDup_cons; auto].
      intros x Hx [->|Hx2]%elem_of_cons; [auto|]. by apply (Hd x).
    + rewrite Forall_app, Forall_cons, !Forall_forall. split_and!; auto.
Qed.
End Exclusive.

(** ** Generations only grow *)

(** A generation some state has reached. *)
Definition bounded (w : World) (k : nat * nat) : Prop := ∃ s, ow_heap w !! k.1 = Some s ∧ (k.2 <= os_gen s)%nat.

Definition ev_key (e : Event) : nat * nat := match e with Wrote h g _ _ | Deleted h g _ => (h, g) end.

Definition cont_gens (k : Cont) : list (nat * nat) :=
  match k with EndRefresh h g _ _ | FetchProfile h g => [(h, g)] | _ => [] end.

Definition job_gens (j : Job) : list (nat * nat) :=
  match j with
  | JCall h g _ | JProvider h g _ | JProfile h g | JProfileLock h g _ _ | JProfileCheck h g _ _ | JRevokeLock h g _ | JDelete h g _ => [(h, g)]
  | JPersist h g _ k | JCheck h g _ k | JExec h g _ _ _ k => (h, g) :: cont_gens k
  | _ => []
  end.

Record generations (w : World) : Prop := mkGenerations {
  gn_source : ∀ h s g, ow_heap w !! h = Some s → os_source s = Some g → (g <= os_gen s)%nat;
  gn_sources : ∀ k src, ow_sources w !! k = Some src → bounded w k;
  gn_log : Forall (λ e, bounded w (ev_key e)) (ow_log w)
}.

(** What a step may do to the heap: allocate, or move a state on. *)
Definition heap_grows (m m' : gmap nat oauthState) : Prop :=
  ∀ h s, m !! h = Some s → ∃ s', m' !! h = Some s' ∧ (os_gen s <= os_gen s')%nat.

Lemma heap_grows_refl m : heap_grows m m.
Proof. intros h s H. eauto. Qed.

Lemma heap_grows_update m h s s' : m !! h = Some s → (os_gen s <= os_gen s')%nat → heap_grows m (<[h := s']> m).
Proof.
  intros Hh Hg h1 s1 H1. destruct (decide (h = h1)) as [<-|Hne].
  - rewrite lookup_insert_eq. simplify_eq. eauto.
  - rewrite lookup_insert_ne by done. eauto.
Qed.

Lemma heap_grows_fresh m (s : oauthState) : heap_grows m (<[fresh (dom m) := s]> m).
Proof.
  intros h s1 H1. rewrite lookup_insert_ne; [eauto|]. intros <-.
  apply (is_fresh (dom m)), elem_of_dom. eauto.
Qed.

Lemma bounded_mono w w' k : heap_grows (ow_heap w) (ow_heap w') → bounded w k → bounded w' k.
Proof. intros Hm (s & Hs & Hg). destruct (Hm _ _ Hs) as (s' & Hs' & Hg'). exists s'. split; [done|lia]. Qed.

(** *** What the critical sections leave alone *)

Lemma continue_frame w k w' js :
  continue w k = (w', js) →
  ow_heap w' = ow_heap w ∧ ow_locked w' = ow_locked w ∧ ow_db w' = ow_db w ∧ ow_log w' = ow_log w ∧ ow_states w' = ow_states w.
Proof.
  destruct k as [|h g t bg|h g|h id r rest]; cbn; [| |by intros [= <- <-]..]; [by intros [= <- <-]|].
  intros [= <- _]. by destruct (ow_sources w !! (h, g)).
Qed.

Lemma noteRefreshFailure_frame now g e s :
  os_gen (noteRefreshFailure now g e s) = os_gen s ∧ os_source (noteRefreshFailure now g e s) = os_source s ∧
  os_refreshing (noteRefreshFailure now g e s) = os_refreshing s.
Proof.
  unfold noteRefreshFailure. destruct (classifyRefreshError e) as [st reason]. destruct (negb _); [done|].
  destruct (match os_current s with Some _ => _ | None => _ end) as [st' reason']. by destruct (bool_decide _).
Qed.

Lemma noteRefreshSuccess_frame g t s s' :
  noteRefreshSuccess g t s = Some s' →
  g = os_gen s ∧ os_gen s' = os_gen s ∧ os_source s' = os_source s ∧ os_refreshing s' = os_refreshing s.
Proof. unfold noteRefreshSuccess. destruct (Nat.eqb_spec g (os_gen s)); [|done]. intros [= <-]. done. Qed.

Lemma claimRefresh_frame now s g s' :
  claimRefresh now s = Some (g, s') →
  os_source s = Some g ∧ os_gen s' = os_gen s ∧ os_source s' = os_source s ∧ os_refreshing s = false ∧ os_refreshing s' = true.
Proof.
  unfold claimRefresh. destruct (os_source s) as [g'|] eqn:Es; [|done]. destruct (os_current s) as [cur|]; [|done].
  destruct (os_refreshing s); [done|]. destruct (bool_decide _); [done|]. destruct (String.eqb _ _); [done|].
  destruct (match os_retryAfter s with Some _ => _ | None => _ end); [done|]. destruct (Expiry cur) as [e|]; [|done].
  destruct (_ <? e); [done|]. by intros [= <- <-]; cbn.
Qed.

Lemma inheritRefreshState_frame s p tok :
  os_gen (inheritRefreshState s p tok) = os_gen s ∧ os_source (inheritRefreshState s p tok) = os_source s ∧
  os_refreshing (inheritRefreshState s p tok) = os_refreshing s.
Proof. unfold inheritRefreshState. by destruct (match os_current p with Some _ => _ | None => _ end). Qed.

(** Every case of a step, with its equations and what they say. *)
Ltac run_cases H :=
  match type of H with
  | run _ _ _ ?j = Some _ => destruct j; cbn [run] in H; autounfold with oauth_steps in H; simplify_eq/=; repeat (case_match; simplify_eq/=); try done
  end;
  repeat match goal with
    | H : claimRefresh _ _ = Some _ |- _ => apply claimRefresh_frame in H as (? & ? & ? & ? & ?)
    | H : noteRefreshSuccess _ _ _ = Some _ |- _ => apply noteRefreshSuccess_frame in H as (? & ? & ? & ?)
    | H : (_ =? _)%nat = true |- _ => apply Nat.eqb_eq in H; subst
    | |- context [noteRefreshFailure ?n ?g ?e ?s] =>
        let s' := fresh "sf" in
        pose proof (noteRefreshFailure_frame n g e s) as (? & ? & ?); set (s' := noteRefreshFailure n g e s) in *; clearbody s'
    | |- context [inheritRefreshState ?s ?p ?t] =>
        let s' := fresh "si" in
        pose proof (inheritRefreshState_frame s p t) as (? & ? & ?); set (s' := inheritRefreshState s p t) in *; clearbody s'
    end.

(** How one step changes the heap. *)
Definition moves (j : Job) (h : nat) (s s' : oauthState) : Prop :=
  (os_gen s <= os_gen s')%nat ∧ (os_source s' = os_source s ∨ os_source s' = Some (os_gen s')) ∧
  (os_refreshing s' = os_refreshing s ∨ os_refreshing s' = true ∨ j = JRelease h).

Lemma row_state_frame resolve it r : os_refreshing (row_state resolve it r) = false.
Proof. unfold row_state. destruct (r_client_id r) as [c|]; [|done]. by destruct (String.eqb c ""). Qed.

Lemma run_heap resolve ch w j w' js :
  run resolve ch w j = Some (w', js) →
  ow_heap w' = ow_heap w ∨
  (∃ h s s', ow_heap w !! h = Some s ∧ ow_heap w' = <[h := s']> (ow_heap w) ∧ moves j h s s') ∨
  (∃ s, ow_heap w' = <[fresh (dom (ow_heap w)) := s]> (ow_heap w) ∧ os_refreshing s = false ∧
        (os_source s = None ∨ os_source s = Some (os_gen s))).
Proof.
  intros H. run_cases H; try (by left); try (by left; apply (continue_frame _ _ _ _ H)).
  all: try (right; left; eexists _, _, _; split_and!; [eassumption|reflexivity|split_and!; cbn; eauto; lia]).
  all: right; right; eexists; split; [reflexivity|]; cbn; rewrite ?row_state_frame; eauto.
Qed.

Lemma run_grows resolve ch w j w' js : run resolve ch w j = Some (w', js) → heap_grows (ow_heap w) (ow_heap w').
Proof.
  intros [->|[(h & s & s' & Hs & -> & Hg & _)|(s & -> & _)]]%run_heap; [apply heap_grows_refl| |apply heap_grows_fresh].
  by eapply heap_grows_update.
Qed.

(** *** The log and the sources *)

(** The event a step appends to the log. *)
Lemma run_log resolve ch w j w' js :
  run resolve ch w j = Some (w', js) →
  ow_log w' = ow_log w ∨
  (∃ h g t id c k, j = JExec h g t id c k ∧ ow_log w' = ow_log w ++ [Wrote h g id t]) ∨
  (∃ h g id, j = JDelete h g id ∧ ow_log w' = ow_log w ++ [Deleted h g id]).
Proof.
  intros H. run_cases H; try (by left); try (by left; apply (continue_frame _ _ _ _ H)).
  all: try (right; right; by eauto 10).
  right. left. eexists _, _, _, _, _, _. split; [done|]. apply (continue_frame _ _ _ _ H).
Qed.

(** The reuse mutex a call holds: from its turn at the source until the write of
    the token it got has been tried. *)
Definition cont_source (k : Cont) : option (nat * nat) :=
  match k with EndRefresh h g _ _ => Some (h, g) | _ => None end.

Definition holds_reuse (j : Job) : option (nat * nat) :=
  match j with
  | JProvider h g _ => Some (h, g)
  | JPersist _ _ _ k | JCheck _ _ _ k | JExec _ _ _ _ _ k => cont_source k
  | _ => None
  end.

Lemma continue_sources w k w' js x :
  continue w k = (w', js) →
  ow_sources w' !! x = ow_sources w !! x ∨
  (cont_source k = Some x ∧ is_Some (ow_sources w !! x) ∧ is_Some (ow_sources w' !! x)).
Proof.
  destruct k as [|h g t bg|h g|h id r rest]; cbn; intros [= <- _]; try by left.
  destruct (ow_sources w !! (h, g)) as [src|] eqn:Es; [|by left]. cbn.
  destruct (decide ((h, g) = x)) as [<-|Hne]; [|left; by rewrite lookup_insert_ne]. rewrite lookup_insert_eq, Es. eauto.
Qed.

(** What a step does to a source: nothing; its holder, or the call that takes it,
    updates it; or it is new, for a generation just installed. *)
Lemma run_sources resolve ch w j w' js x :
  run resolve ch w j = Some (w', js) →
  ow_sources w' !! x = ow_sources w !! x ∨
  (is_Some (ow_sources w !! x) ∧ is_Some (ow_sources w' !! x) ∧
    (holds_reuse j = Some x ∨ ∃ src, ow_sources w !! x = Some src ∧ src_busy src = false)) ∨
  (∃ s, ow_heap w' !! x.1 = Some s ∧ os_gen s = x.2 ∧ ∀ s0, ow_heap w !! x.1 = Some s0 → os_gen s0 < os_gen s)%nat.
Proof.
  intros H. run_cases H; try (by left).
  all: try (apply (continue_sources _ _ _ _ x) in H as [H|(? & ? & ?)]; [left; by rewrite H|right; left; by eauto]).
  1-3: match goal with |- context [<[?k := _]> _ !! _] => destruct (decide (k = x)) as [<-|Hne] end;
    [right; left; rewrite lookup_insert_eq; by eauto 10|left; by rewrite lookup_insert_ne].
  - destruct (decide ((h, S (os_gen o)) = x)) as [<-|Hne]; [|left; by rewrite lookup_insert_ne].
    right. right. exists (install o tok). cbn. rewrite lookup_insert_eq. split_and!; [done..|]. intros s0 Hs. simplify_eq. lia.
  - match goal with |- context [<[?k := _]> _ !! _] => destruct (decide (k = x)) as [<-|Hne] end; [|left; by rewrite lookup_insert_ne].
    right. right. eexists. cbn. rewrite lookup_insert_eq. split_and!; [done..|]. intros s0 Hs.
    by destruct (is_fresh (dom (ow_heap w))); apply elem_of_dom.
Qed.

(** *** The invariant of generations *)

Definition generations_sys (s : Sys) : Prop := generations s.1 ∧ Forall (λ j, Forall (bounded s.1) (job_gens j)) s.2.

Lemma bounded_now w h s : ow_heap w !! h = Some s → bounded w (h, os_gen s).
Proof. intros Hs. exists s. cbn. split; [done|lia]. Qed.

Lemma generations_run resolve ch w j w' js :
  run resolve ch w j = Some (w', js) → generations w → Forall (bounded w) (job_gens j) → generations w'.
Proof.
  intros H [Hsrc Hsrcs Hlog] Hj. pose proof (run_grows _ _ _ _ _ _ H) as Hm. split.
  - destruct (run_heap _ _ _ _ _ _ H) as [->|[(h & s & s' & Hs & -> & Hg & Hso & _)|(s & -> & _ & Hso)]]; [done| |];
      intros h1 s1 g1 [[<- <-]|[? H1]]%lookup_insert_Some Hg1; eauto; destruct Hso as [Hso|Hso]; rewrite Hso in Hg1; simplify_eq; try lia.
    pose proof (Hsrc _ _ _ Hs Hg1). lia.
  - intros k src Hk. destruct (run_sources _ _ _ _ _ _ k H) as [He|[([src0 Hs0] & _)|(s & Hs & Hgs & _)]].
    + rewrite He in Hk. eapply bounded_mono; eauto.
    + eapply bounded_mono; eauto.
    + exists s. split; [done|lia].
  - destruct (run_log _ _ _ _ _ _ H) as [->|[(h & g & t & id & c & k & -> & ->)|(h & g & id & -> & ->)]].
    2-3: apply Forall_app; split; [|constructor; [|done]; cbn in *; inversion Hj; subst; by eapply bounded_mono].
    all: eapply Forall_impl; [done|]; cbn; intros e; by apply bounded_mono.
Qed.

Lemma continue_gens (P : nat * nat → Prop) w k w' js :
  continue w k = (w', js) → Forall P (cont_gens k) → Forall (λ j, Forall P (job_gens j)) js.
Proof.
  destruct k as [|h g t [|]|h g|h id r rest]; cbn; intros [= _ <-] H; repeat constructor; by inversion H.
Qed.

Lemma job_gens_run resolve ch w j w' js :
  run resolve ch w j = Some (w', js) → generations w → Forall (bounded w) (job_gens j) →
  Forall (λ j, Forall (bounded w') (job_gens j)) js.
Proof.
  intros H Hw Hj. pose proof (run_grows _ _ _ _ _ _ H) as Hm.
  assert (Forall (bounded w') (job_gens j)) as Hj' by (eapply Forall_impl; [done|]; intros k; by apply bounded_mono).
  clear Hj Hm. destruct Hw as [Hsrc _ _]. run_cases H.
  all: try (by repeat constructor).
  all: cbn [job_gens] in Hj'; rewrite ?Forall_cons in Hj'.
  all: try (eapply continue_gens; [eassumption|]; by destruct Hj').
  all: repeat (apply Forall_cons; split); try apply Forall_nil; try (by destruct Hj' as [? ?]).
  all: try done; try (eexists; cbn; rewrite lookup_insert_eq; split; [reflexivity|cbn; lia]).
  - eexists. split; [eassumption|]. by eapply Hsrc.
  - apply Forall_fmap, Forall_forall. intros h _. cbn. constructor.
  - eexists. cbn. rewrite lookup_insert_eq. split; [reflexivity|]. cbn.
    match goal with H : os_gen _ = os_gen _ |- _ => rewrite H end. by eapply Hsrc.
Qed.

Lemma generations_step resolve s s' : step resolve s s' → generations_sys s → generations_sys s'.
Proof.
  intros [ch w w' l1 j l2 js H|w l j Hj] [Hw Hl]; unfold generations_sys in *; cbn [fst snd] in *.
  - rewrite Forall_app, Forall_cons in Hl. destruct Hl as (H1 & Hj & H2). split; [by eapply generations_run|].
    pose proof (run_grows _ _ _ _ _ _ H) as Hm.
    rewrite !Forall_app. split_and!; [|by eapply job_gens_run|]; (eapply Forall_impl; [done|]); cbn; intros j' Hj';
      (eapply Forall_impl; [done|]); cbn; intros k; by apply bounded_mono.
  - split; [done|]. constructor; [|done]. by destruct j.
Qed.

Lemma generations_boot db : generations_sys (boot db).
Proof. split; [|constructor]. split; cbn; [intros ???|intros ??|constructor]; by rewrite lookup_empty. Qed.

(** ** The three exclusions *)

(** [writeMu] of a state. *)
Definition holds_write (j : Job) : option nat :=
  match j with
  | JCheck h _ _ _ | JExec h _ _ _ _ _ | JProfileCheck h _ _ _ | JProfileExec h _ _ _ | JDelete h _ _ => Some h
  | _ => None
  end.

(** The claim of the background refresher on a state. *)
Definition cont_claim (k : Cont) : option nat := match k with EndRefresh h _ _ true => Some h | _ => None end.

Definition holds_claim (j : Job) : option nat :=
  match j with
  | JCall h _ true | JProvider h _ true | JRelease h => Some h
  | JPersist _ _ _ k | JCheck _ _ _ k | JExec _ _ _ _ _ k => cont_claim k
  | _ => None
  end.

Definition claimed (w : World) (h : nat) : Prop := ∃ s, ow_heap w !! h = Some s ∧ os_refreshing s = true.

(** The mutex of a reuse source. *)
Definition busy (w : World) (x : nat * nat) : Prop := ∃ src, ow_sources w !! x = Some src ∧ src_busy src = true.

Lemma continue_holds w k w' js :
  continue w k = (w', js) → omap holds_write js = [] ∧ omap holds_reuse js = [] ∧ omap holds_claim js = option_list (cont_claim k).
Proof. destruct k as [|h g t [|]|h g|h id r rest]; cbn; by intros [= _ <-]. Qed.

(** Cases in which nothing is taken or released. *)
Ltac holds_nothing := split; [left; done|intros ???; set_solver].

Lemma omap_claims {A} (f : Job → option A) l : (∀ h, f (JClaim h) = None) → omap f (JClaim <$> l) = [].
Proof. intros Hf. induction l as [|h l IH]; [done|]. cbn. by rewrite Hf. Qed.

Lemma write_respects resolve : respects resolve (λ _, True) holds_write (λ w h, h ∈ ow_locked w).
Proof.
  intros ch w j w' js _ Hown H. run_cases H; cbn in Hown; try holds_nothing; try (rewrite omap_claims by done; holds_nothing).
  all: try (destruct (continue_holds _ _ _ _ H) as (-> & _ & _); apply continue_frame in H as (_ & -> & _ & _ & _); holds_nothing).
  all: split; [right; eexists; split; [reflexivity|split; [set_solver|]]; auto|intros ???; set_solver].
  all: right; by eapply bool_decide_eq_false_1.
Qed.

Lemma claim_kept resolve ch w j w' js h :
  run resolve ch w j = Some (w', js) → claimed w h → j ≠ JRelease h → claimed w' h.
Proof.
  intros Hrun (s & Hs & Hr) Hj. unfold claimed.
  destruct (run_heap _ _ _ _ _ _ Hrun) as [ ->|[(h1 & s1 & s2 & Hs1 & -> & _ & _ & Hm)|(s1 & -> & _)]]; [by eauto| |].
  - destruct (decide (h1 = h)) as [->|Hne]; [|rewrite lookup_insert_ne by done; by eauto].
    rewrite lookup_insert_eq. simplify_eq. destruct Hm as [Hm|[Hm| ->]]; [exists s2; by rewrite Hm|by eauto|done].
  - rewrite lookup_insert_ne; [by eauto|]. intros <-. apply (is_fresh (dom (ow_heap w))), elem_of_dom. by eauto.
Qed.

Lemma claim_respects resolve : respects resolve (λ _, True) holds_claim claimed.
Proof.
  intros ch w j w' js _ Hown H.
  assert (omap holds_claim js = [] ∨ ∃ h, omap holds_claim js = [h] ∧
    (holds_claim j = Some h ∧ j ≠ JRelease h ∨ ¬ claimed w h ∧ claimed w' h)) as Hjs.
  { clear Hown. run_cases H; try (by left); try (left; by apply omap_claims).
    all: try (destruct (continue_holds _ _ _ _ H) as (_ & _ & ->)).
    all: try (destruct k as [|? ? ? []| |]; try (by left)).
    all: try (right; eexists; split; [reflexivity|]; left; done).
    all: repeat match goal with b : bool |- _ => destruct b end; cbn; try (by left).
    all: try (right; eexists; split; [reflexivity|]; left; done).
    right. exists h. split; [done|]. right. split; [intros (? & ? & ?); congruence|].
    eexists. cbn. by rewrite lookup_insert_eq. }
  pose proof (λ h, claim_kept _ _ _ _ _ _ h H) as Hkept. split.
  - destruct Hjs as [?|(h & ? & [[Hh Hj]|[? ?]])]; [by left|right; exists h; eauto 10..].
  - intros h Hh Hne. apply Hkept; [done|]. by intros ->.
Qed.

Lemma reuse_respects resolve : respects resolve generations holds_reuse busy.
Proof.
  intros ch w j w' js Hgen Hown H. split.
  - run_cases H; cbn in Hown; try (by left); try (left; by apply omap_claims).
    all: try (destruct (continue_holds _ _ _ _ H) as (_ & -> & _); by left).
    all: right; eexists; split; [reflexivity|].
    2-4: split; [exact (Hown _ eq_refl)|by left].
    split; [eexists; cbn; rewrite lookup_insert_eq; by split|]. right. intros (? & ? & ?). congruence.
  - intros x (src & Hs & Hb) Hj.
    destruct (run_sources _ _ _ _ _ _ x H) as [He|[(_ & _ & [?|(src' & ? & ?)])|(s & Hs' & Hg & Hlt)]]; [|done|congruence|].
    + exists src. by rewrite He.
    + destruct (gn_sources _ Hgen _ _ Hs) as (s0 & Hs0 & Hle). specialize (Hlt _ Hs0). lia.
Qed.

(** ** Writes land in the order of the generations *)

(** Every event of state [h] up to now has a generation up to [g]. *)
Definition settled (w : World) (h g : nat) : Prop :=
  Forall (λ e, (ev_key e).1 = h → ((ev_key e).2 <= g)%nat) (ow_log w).

Definition log_ordered (log : list Event) : Prop :=
  ∀ l1 h g id t l2, log = l1 ++ Wrote h g id t :: l2 → Forall (λ e, (ev_key e).1 = h → ((ev_key e).2 <= g)%nat) l1.

(** A write that is about to happen is not behind anything in the log. *)
Definition may_write (w : World) (j : Job) : Prop := match j with JExec h g _ _ _ _ => settled w h g | _ => True end.

Lemma log_ordered_snoc log e :
  log_ordered log →
  (∀ h g id t, e = Wrote h g id t → Forall (λ e, (ev_key e).1 = h → ((ev_key e).2 <= g)%nat) log) →
  log_ordered (log ++ [e]).
Proof.
  intros Hl He l1 h g id t l2 Heq. induction l2 as [|e2 l2 _] using rev_ind.
  - apply app_inj_tail in Heq as [<- ->]. by eapply He.
  - rewrite app_comm_cons, app_assoc in Heq. apply app_inj_tail in Heq as [Heq _]. by eapply Hl.
Qed.

Lemma settled_snoc w w' e h g :
  settled w h g → ow_log w' = ow_log w ++ [e] → (ev_key e).1 ≠ h → settled w' h g.
Proof. intros Hs Hl Hne. unfold settled. rewrite Hl. apply Forall_app. split; [done|]. by constructor. Qed.

Lemma continue_may_write w k w' js v : continue w k = (w', js) → Forall (may_write v) js.
Proof. destruct k as [|h g t []|h g|h id r rest]; cbn; intros [= _ <-]; by repeat constructor. Qed.

Lemma may_write_run resolve ch w j w' js :
  run resolve ch w j = Some (w', js) → generations w → Forall (may_write w') js.
Proof.
  intros H [_ _ Hlog]. run_cases H; try (by repeat constructor); try (by eapply continue_may_write).
  - by apply Forall_fmap, Forall_forall.
  - constructor; [|done]. cbn. eapply Forall_impl; [exact Hlog|]. cbn. intros e (s & Hs & Hle) <-. simplify_eq. lia.
Qed.

(** Another call in progress does not hold what [j] holds. *)
Lemma exclusive_other {R} (res : Job → option R) taken w l1 j l2 j' r :
  exclusive res taken (w, l1 ++ j :: l2) → j' ∈ l1 ++ l2 → res j = Some r → res j' ≠ Some r.
Proof.
  intros [Hn _] Hin Hj Hj'. cbn [snd] in Hn. rewrite omap_app in Hn. cbn [omap list_omap] in Hn. rewrite Hj in Hn.
  apply NoDup_app in Hn as (_ & Hd & [Hn _]%NoDup_cons).
  apply elem_of_app in Hin as [Hin|Hin]; [apply (Hd r)|apply Hn]; [|by left|]; apply list_elem_of_omap; eauto.
Qed.

Definition write_excl : Sys → Prop := exclusive holds_write (λ w h, h ∈ ow_locked w).

Record ordered_sys (s : Sys) : Prop := mkOrdered {
  od_gens : generations_sys s;
  od_excl : write_excl s;
  od_may : Forall (may_write s.1) s.2;
  od_log : log_ordered (ow_log s.1)
}.

Lemma may_write_other resolve ch w l1 j l2 w' js :
  run resolve ch w j = Some (w', js) → write_excl (w, l1 ++ j :: l2) → Forall (may_write w) (l1 ++ l2) → Forall (may_write w') (l1 ++ l2).
Proof.
  intros H He. rewrite !Forall_forall. intros Hm j' Hin. specialize (Hm j' Hin).
  pose proof (λ r, exclusive_other _ _ _ _ _ _ _ r He Hin) as Hne.
  destruct j'; try done. cbn in *.
  destruct (run_log _ _ _ _ _ _ H) as [Hl|[(h' & g' & t' & id' & c' & k' & -> & Hl)|(h' & g' & id' & -> & Hl)]].
  - unfold settled. by rewrite Hl.
  - eapply settled_snoc; [done..|]. cbn. intros ->. by eapply (Hne h).
  - eapply settled_snoc; [done..|]. cbn. intros ->. by eapply (Hne h).
Qed.

Lemma ordered_step resolve s s' : step resolve s s' → ordered_sys s → ordered_sys s'.
Proof.
  intros Hs [Hg He Hm Hl]. split.
  - by eapply generations_step.
  - eapply (exclusive_step _ (λ _, True)); [apply write_respects|by intros []|done..].
  - destruct Hs as [ch w w' l1 j l2 js H|w l j Hj]; cbn [fst snd] in *; [|constructor; [by destruct j|done]].
    rewrite Forall_app, Forall_cons in Hm. destruct Hm as (H1 & _ & H2).
    pose proof (may_write_other _ _ _ _ _ _ _ _ H He (proj2 (Forall_app _ _ _) (conj H1 H2))) as [H1' H2']%Forall_app.
    rewrite !Forall_app. split_and!; [done| |done]. eapply may_write_run; [done|]. apply Hg.
  - destruct Hs as [ch w w' l1 j l2 js H|w l j Hj]; cbn [fst snd] in *; [|done].
    destruct (run_log _ _ _ _ _ _ H) as [Heq|[(h & g & t & id & c & k & -> & Heq)|(h & g & id & -> & Heq)]]; rewrite Heq;
      [done|apply log_ordered_snoc; [done|]..]; [|done].
    rewrite Forall_app, Forall_cons in Hm. destruct Hm as (_ & Hw & _). intros ???? He'. by simplify_eq/=.
Qed.

Lemma exclusive_boot {R} (res : Job → option R) taken db : exclusive res taken (boot db).
Proof. split; constructor. Qed.

Lemma reachable_ordered resolve db s : reachable resolve (boot db) s → ordered_sys s.
Proof.
  intros H. apply (rtc_ind_r (λ s, ordered_sys s) (boot db)) in H; [done| |].
  - split; [apply generations_boot|apply exclusive_boot|constructor|]. by intros [|??] ????? ?.
  - intros x y _ Hxy Hx. by eapply ordered_step.
Qed.

Lemma reachable_exclusive {R} (res : Job → option R) taken resolve db s :
  respects resolve generations res taken → (∀ j, entry j → res j = None) →
  reachable resolve (boot db) s → exclusive res taken s.
Proof.
  intros Hr He H. enough (generations_sys s ∧ exclusive res taken s) by tauto.
  apply (rtc_ind_r (λ s, generations_sys s ∧ exclusive res taken s) (boot db)) in H; [done| |].
  - split; [apply generations_boot|apply exclusive_boot].
  - intros x y _ Hxy [Hg Hx]. split; [by eapply generations_step|]. eapply exclusive_step; [exact Hr|done| |done..]. apply Hg.
Qed.

