(* ===== verification/OAuthTheorems.v ===== *)
(** * What the OAuth registry guarantees *)
From S2P Require Import Prelude GoStrings NetAddr GoUrl GoHttp GoEncode Policy OAuth OAuthConc OAuthProps.

(** ** Schedules *)

(** A schedule: a call that starts, or a step of the job at a position with what
    the surroundings decide. *)
Inductive Move := Start (j : Job) | Step (i : nat) (ch : Choice).

Definition play1 (resolve : string -> string) (m : Move) (s : Sys) : option Sys :=
  match m with
  | Start j => Some (s.1, j :: s.2)
  | Step i ch =>
      j ← s.2 !! i;
      r ← run resolve ch s.1 j;
      Some (r.1, take i s.2 ++ r.2 ++ drop (S i) s.2)
  end.

Fixpoint play (resolve : string -> string) (ms : list Move) (s : Sys) : option Sys :=
  match ms with
  | [] => Some s
  | m :: ms => match play1 resolve m s with Some s' => play resolve ms s' | None => None end
  end.

Definition legal (m : Move) : Prop := match m with Start j => entry j | Step _ _ => True end.

Lemma play_reachable resolve ms s s' : Forall legal ms → play resolve ms s = Some s' → reachable resolve s s'.
Proof.
  revert s. induction ms as [|m ms IH]; intros s Hl; cbn; [intros [= <-]; apply rtc_refl|].
  inversion Hl; subst. destruct (play1 resolve m s) as [s1|] eqn:E; [|done]. intros H. eapply rtc_l; [|by eapply IH].
  destruct s as [w l], m as [j|i ch]; cbn in E; [simplify_eq; by constructor|].
  destruct (l !! i) as [j|] eqn:Hi; [|done]. cbn in E. destruct (run resolve ch w j) as [[w' js]|] eqn:Hr; [|done]. simplify_eq/=.
  rewrite <- (take_drop_middle l i j Hi) at 1. by econstructor.
Qed.

(** ** The row and its log *)

(** The token columns of the table. *)
Definition cols (r : Row) : string * string * string * Z := (r_access r, r_refresh r, r_type r, r_expiry_ns r).

Definition token_cols (t : Token) : string * string * string * Z := (AccessToken t, RefreshToken t, TokenType t, int64 (default 0 (Expiry t))).

(** What the log makes of the columns. *)
Definition apply_event (e : Event) (m : gmap string (string * string * string * Z)) : gmap string (string * string * string * Z) :=
  match e with Wrote _ _ id t => <[id := token_cols t]> m | Deleted _ _ id => delete id m end.

Definition replay (db : gmap string Row) (log : list Event) : gmap string (string * string * string * Z) :=
  foldl (λ m e, apply_event e m) (cols <$> db) log.

Lemma run_db resolve ch w j w' js :
  run resolve ch w j = Some (w', js) →
  (cols <$> ow_db w' = cols <$> ow_db w ∧ ow_log w' = ow_log w) ∨
  ∃ e, ow_log w' = ow_log w ++ [e] ∧ cols <$> ow_db w' = apply_event e (cols <$> ow_db w).
Proof.
  intros H. run_cases H; try (by left).
  all: try (apply continue_frame in H as (_ & _ & Hdb & Hlog & _); cbn in Hdb, Hlog; rewrite Hdb, Hlog; try (by left)).
  - right. eexists. split; [reflexivity|]. cbn. by rewrite fmap_insert.
  - left. split; [|done]. apply map_eq. intros i. rewrite !lookup_fmap.
    destruct (decide (i = id)) as [->|Hne]; [rewrite lookup_alter_eq|by rewrite lookup_alter_ne].
    by destruct (ow_db w !! id).
  - right. eexists. split; [reflexivity|]. cbn. by rewrite fmap_delete.
Qed.

Lemma reachable_replay resolve db s : reachable resolve (boot db) s → cols <$> ow_db s.1 = replay db (ow_log s.1).
Proof.
  intros H. apply (rtc_ind_r (λ s, cols <$> ow_db s.1 = replay db (ow_log s.1)) (boot db)) in H; [done|done|].
  intros x y _ [ch w w' l1 j l2 js Hrun|w l j Hj] IH; cbn [fst] in *; [|done].
  destruct (run_db _ _ _ _ _ _ Hrun) as [[-> ->]|(e & -> & ->)]; [done|].
  rewrite IH. unfold replay. by rewrite foldl_app.
Qed.

(** ** Interleavings *)

(** C15. In every interleaving of requests, refreshes, connections, revocations
    and reloads, the token columns of the table are what the successful writes and
    deletions make of the rows at boot, in their order; and a token written for
    a generation of a state never follows a write or a deletion of a later
    generation of that state: a slow refresh cannot overwrite the token of a newer
    connection, nor bring back a credential revoked through its own state. *)
Theorem writes_follow_generations resolve db s :
  reachable resolve (boot db) s →
  cols <$> ow_db s.1 = replay db (ow_log s.1) ∧
  ∀ l1 h g id t l2, ow_log s.1 = l1 ++ Wrote h g id t :: l2 →
    ∀ e, e ∈ l1 → (ev_key e).1 = h → ((ev_key e).2 <= g)%nat.
Proof.
  intros H. split; [by eapply reachable_replay|]. intros l1 h g id t l2 Hl e He.
  pose proof (od_log _ (reachable_ordered _ _ _ H) _ _ _ _ _ _ Hl) as Hf. rewrite Forall_forall in Hf. by apply Hf.
Qed.

(** C16. In every interleaving at most one background refresh of a state is in
    progress, at most one call waits for the provider through a token source (so
    a refresh token is presented once at a time), and at most one call is between
    taking a state's [writeMu] and releasing it. *)
Theorem one_refresh_at_a_time resolve db s :
  reachable resolve (boot db) s →
  NoDup (omap holds_claim s.2) ∧ NoDup (omap holds_reuse s.2) ∧ NoDup (omap holds_write s.2).
Proof.
  intros H. split_and!.
  - eapply (reachable_exclusive holds_claim claimed); [|by intros []|done]. intros ????? _. by apply claim_respects.
  - eapply (reachable_exclusive holds_reuse busy); [apply reuse_respects|by intros []|done].
  - by destruct (od_excl _ (reachable_ordered _ _ _ H)).
Qed.

(** ** One state *)

Lemma backoff_loop_closed n d : 0 < d → Z.min (backoff_loop n d) oauthRefreshBackoffMax = Z.min (d * 2 ^ Z.of_nat n) oauthRefreshBackoffMax.
Proof.
  revert d. induction n as [|n IH]; intros d Hd; cbn [backoff_loop]; [cbn; by rewrite Z.mul_1_r|].
  assert (1 <= 2 ^ Z.of_nat n) by (apply Z.pow_le_mono_r with (b := 0) (a := 2); lia).
  rewrite Nat2Z.inj_succ, Z.pow_succ_r by lia. destruct (Z.ltb_spec d oauthRefreshBackoffMax).
  - rewrite IH by lia. f_equal. lia.
  - rewrite !Z.min_r; [done| |done]. nia.
Qed.

(** The wait after a run of failures is 30 seconds doubled once per failure
    after the first, and never more than 15 minutes. *)
Theorem refreshBackoff_closed failures :
  refreshBackoff failures = Z.min (oauthRefreshBackoffBase * 2 ^ Z.of_nat (failures - 1)) oauthRefreshBackoffMax.
Proof. apply backoff_loop_closed. done. Qed.

(** A failure the gateway has seen of the current generation stops the
    refresher: until the wait is over when the failure may pass, for good when
    it will not (until a new token is installed). *)
Theorem failed_refresh_waits now now' err s :
  let s' := noteRefreshFailure now (os_gen s) err s in
  (os_refresh s' = refreshTransient ∧ os_failures s' = S (os_failures s) ∧ os_retryAfter s' = Some (now + refreshBackoff (os_failures s'))
   ∧ (now' < now + refreshBackoff (os_failures s') → claimRefresh now' s' = None)) ∨
  (os_refresh s' = refreshTerminal ∧ claimRefresh now' s' = None).
Proof.
  unfold noteRefreshFailure. destruct (classifyRefreshError err) as [st reason] eqn:Ec. rewrite Nat.eqb_refl. cbn [negb].
  assert (st = refreshTransient ∨ st = refreshTerminal) as Hst.
  { revert Ec. destruct err; cbn; repeat case_match; intros [= <- _]; auto. }
  assert (∃ st' reason', match os_current s with
    | Some t => if String.eqb (RefreshToken t) "" then (refreshTerminal, noRefreshToken_text) else (st, reason) | None => (st, reason) end = (st', reason')
    ∧ (st' = refreshTransient ∨ st' = refreshTerminal)) as (st' & reason' & -> & [-> | ->]).
  { destruct (os_current s) as [t|]; [destruct (String.eqb _ _)|]; eauto. }
  - left. rewrite bool_decide_eq_true_2 by done. cbn [set_verdict os_refresh os_failures os_retryAfter]. split_and!; [done..|].
    intros Hlt%Z.ltb_lt. unfold claimRefresh. cbn [set_verdict os_source os_current os_refreshing os_refresh os_retryAfter].
    destruct (os_source s), (os_current s); try done. rewrite Hlt.
    destruct (os_refreshing s); [done|]. cbn. by destruct (String.eqb _ _).
  - right. rewrite bool_decide_eq_false_2 by done. split; [done|]. unfold claimRefresh.
    cbn [set_verdict os_source os_current os_refreshing os_refresh]. rewrite (bool_decide_eq_true_2 (refreshTerminal = _)) by done.
    by destruct (os_source s), (os_current s), (os_refreshing s).
Qed.

(** The error codes that mean the grant is gone, and the texts a failure can have
    besides an HTTP status. *)
Definition terminal_codes : list string :=
  ["invalid_grant"; "invalid_client"; "unauthorized_client"; "unsupported_grant_type"; "invalid_scope"; "access_denied"; "expired_token"].

Definition all_codes : list string :=
  terminal_codes ++ ["invalid_request"; "unsupported_response_type"; "server_error"; "temporarily_unavailable"; "slow_down"; "authorization_pending"].

Definition closed_reasons : list string :=
  [noRefreshToken_text; noDynamicClientID_text; "refresh timed out"; "refresh cancelled"; "refresh failed: could not reach the provider";
   "refresh failed: unrecognised provider response"] ++
  ((λ c, "the provider rejected the refresh: " +:+ c) <$> terminal_codes) ++ ((λ c, "refresh failed: " +:+ c) <$> all_codes).

Lemma known_codes code b :
  knownOAuthErrorCodes !! code = Some b → code ∈ all_codes ∧ bool_decide (code ∈ terminal_codes) = b.
Proof.
  intros H%elem_of_list_to_map_2. repeat (apply elem_of_cons in H as [[= -> ->]|H]; [split; [by eapply bool_decide_unpack|done]|]).
  by apply elem_of_nil in H.
Qed.

Lemma unknown_codes code : knownOAuthErrorCodes !! code = None → code ∉ terminal_codes.
Proof.
  intros H%not_elem_of_list_to_map_2 Hin. apply H. clear H.
  repeat (apply elem_of_cons in Hin as [-> |Hin]; [by eapply bool_decide_unpack|]). by apply elem_of_nil in Hin.
Qed.

Lemma rejectionStatus_spec status : rejectionStatus status = true ↔ status = 400 ∨ status = 401 ∨ status = 403.
Proof. unfold rejectionStatus. rewrite !orb_true_iff, !Z.eqb_eq. tauto. Qed.

Lemma failed_reasons code : code ∈ all_codes → "refresh failed: " +:+ code ∈ closed_reasons.
Proof.
  intros Hc. apply elem_of_app. right. apply elem_of_app. right. by apply (list_elem_of_fmap_2 (λ c, "refresh failed: " +:+ c)).
Qed.

Lemma rejected_reasons code : code ∈ terminal_codes → "the provider rejected the refresh: " +:+ code ∈ closed_reasons.
Proof.
  intros Hc. apply elem_of_app. right. apply elem_of_app. left.
  by apply (list_elem_of_fmap_2 (λ c, "the provider rejected the refresh: " +:+ c)).
Qed.

Ltac not_terminal := split; [done|intros [?|[?|(? & ? & [= -> ->] & ? & ?)]]].

#[local] Opaque closed_reasons terminal_codes all_codes.

(** A refresh failure counts as final exactly when the gateway lacks what a
    refresh needs, or the provider rejects it with status 400, 401 or 403 and a
    known code for a dead grant; and the text shown to an operator comes from a
    fixed list or names an HTTP status, so that it never quotes the provider. *)
Theorem classifyRefreshError_spec err :
  ((classifyRefreshError err).1 = refreshTerminal ↔
     err = errNoRefreshToken ∨ err = errNoDynamicClientID ∨
     ∃ status code, err = RetrieveError (Some status) code ∧ (status = 400 ∨ status = 401 ∨ status = 403) ∧ code ∈ terminal_codes) ∧
  ((classifyRefreshError err).2 ∈ closed_reasons ∨
   ∃ status code, err = RetrieveError (Some status) code ∧
     (classifyRefreshError err).2 = "refresh failed: provider answered HTTP " +:+ Zdecimal status).
Proof.
  destruct err as [| | | |resp code|text]; cbn [classifyRefreshError fst snd];
    try (split; [split; [auto; done|intros [?|[?|(? & ? & ? & _)]]; done]|left; apply (bool_decide_unpack _); vm_compute; exact I]).
  destruct (knownOAuthErrorCodes !! code) as [b|] eqn:Ek.
  - destruct (known_codes _ _ Ek) as [Hall <-]. case_bool_decide as Ht; cbn [andb].
    + destruct (rejectionStatus (default 0 resp)) eqn:Er; cbn [fst snd].
      * apply rejectionStatus_spec in Er. destruct resp as [status|]; cbn in Er; [|lia].
        split; [split; [intros _; right; right; by eauto 10|done]|]. left. by apply rejected_reasons.
      * split; [|left; by apply failed_reasons]. split; [done|]. intros [?|[?|(st & c & [= -> ->] & Hs & _)]]; [done..|].
        by apply rejectionStatus_spec in Hs; cbn in Er; rewrite Er in Hs.
    + cbn [fst snd]. split; [by not_terminal|left; by apply failed_reasons].
  - pose proof (unknown_codes _ Ek). destruct (Z.eqb_spec (default 0 resp) 0) as [E0|E0]; cbn [negb fst snd].
    + split; [by not_terminal|]. left. apply (bool_decide_unpack _). by vm_compute.
    + split; [by not_terminal|]. right. destruct resp as [status|]; [by eauto|done].
Qed.

Lemma int64_id n : - 2 ^ 63 <= n < 2 ^ 63 → int64 n = n.
Proof. intros H. unfold int64. rewrite Z.mod_small; lia. Qed.

(** What the table keeps of a token is the token: a reload builds the one that
    was persisted, when its expiry fits the column and is not the epoch itself. *)
Theorem token_row_roundtrip old t clientID now :
  match Expiry t with Some e => e ≠ 0 ∧ - 2 ^ 63 <= e < 2 ^ 63 | None => True end → row_token (persist_row old t clientID now) = t.
Proof.
  intros He. unfold row_token, persist_row.
  cbn [r_access r_refresh r_type r_expiry_ns]. destruct t as [a r ty [e|]]; cbn [Expiry default AccessToken RefreshToken TokenType id] in *; [|done].
  destruct He as [Hne He]. rewrite (int64_id e He). destruct (Z.eqb_spec e 0); [congruence|done].
Qed.

(** An [expires_in] of three hundred years or more overflows: the token counts as
    expired, and is renewed on every use. *)
Theorem long_expiry_overflows now tr keep :
  9223372037 <= tr_ExpiresIn tr <= 18446744073 →
  ∃ e, Expiry (reply_token now tr keep) = Some e ∧ e < now ∧ Valid now (reply_token now tr keep) = false.
Proof.
  intros Hr. assert (int64 (tr_ExpiresIn tr * second) < 0) as Hneg.
  { unfold int64, second. set (x := tr_ExpiresIn tr) in *.
    assert (x * 10 ^ 9 + 2 ^ 63 = (x * 10 ^ 9 - 2 ^ 63) + 1 * 2 ^ 64) as -> by lia.
    rewrite Z.mod_add by lia. rewrite Z.mod_small; lia. }
  set (d := int64 (tr_ExpiresIn tr * second)) in *. exists (now + d).
  assert (Expiry (reply_token now tr keep) = Some (now + d)) as He
    by (unfold reply_token; cbn [Expiry]; by rewrite (proj2 (Z.ltb_lt 0 (tr_ExpiresIn tr))) by lia).
  split_and!; [done|lia|]. unfold Valid. rewrite He. apply andb_false_iff. right. apply Z.leb_gt.
  unfold oauthReuseEarlyExpiry, second. lia.
Qed.

(** A reply to the exchange of a code that carries no access token is taken for a
    token, which the two refresh sources refuse; the credential that gets it is
    reported as not connected. *)
Theorem exchange_accepts_no_token now now' s tr keep :
  tr_AccessToken tr = "" →
  ∃ t, exchangeAnthropicCode now (Answer 200 (Some tr)) = Ok t ∧ Status now' (Some (install s t)) = no_status ∧
    refresh_answer now keep (Answer 200 (Some tr)) = Err (RetrieveError (Some 200) (tr_Error tr)).
Proof. intros H. eexists. split; [reflexivity|]. cbn. by rewrite H. Qed.

(** The dashboard shows a credential as connected exactly when it has an
    access token, the last refresh did not fail for good, and the token is
    either still good or can be renewed and the last renewal did not fail; it asks
    to connect again exactly when a token is there that cannot be renewed. *)
Theorem Status_spec now s :
  (st_Connected (Status now (Some s)) = true ↔
     ∃ cur, is_Some (os_source s) ∧ os_current s = Some cur ∧ AccessToken cur ≠ "" ∧ os_refresh s ≠ refreshTerminal ∧
       (tokenExpired cur now = false ∨ RefreshToken cur ≠ "" ∧ os_refresh s ≠ refreshTransient)) ∧
  (st_NeedsReauth (Status now (Some s)) = true ↔
     ∃ cur, is_Some (os_source s) ∧ os_current s = Some cur ∧ AccessToken cur ≠ "" ∧
       (os_refresh s = refreshTerminal ∨ tokenExpired cur now = true ∧ RefreshToken cur = "")).
Proof.
  unfold Status. destruct (os_source s) as [g|]; [|split; split; try done; by intros (? & [? ?] & _)].
  destruct (os_current s) as [cur|]; [|split; split; try done; by intros (? & _ & ? & _)].
  destruct (String.eqb_spec (AccessToken cur) ""); [split; split; [done| |done|]; by intros (? & _ & [= <-] & ? & _)|].
  destruct (tokenExpired cur now) eqn:Ee, (String.eqb_spec (RefreshToken cur) ""), (os_refresh s); cbn;
    (split; split; intros Hc;
     [try done; exists cur; split_and!; by eauto| |try done; exists cur; split_and!; by eauto|]);
    destruct Hc as (c & _ & [= <-] & ? & Hc); intuition congruence.
Qed.

(** ** Reloads that race *)

(** Concrete surroundings: a provider that rotates the refresh token. *)
Definition demo_it : OAuthIntegration :=
  mkIntegration "x" "" "" "" (mkOAuthConfig "client" "" "" "https://idp.example/token" "" "" "" []).
Definition demo_old : Token := mkToken "access0" "refresh0" "Bearer" (Some 1).
Definition demo_new : Token := mkToken "access1" "refresh1" "Bearer" (Some (7200 * second)).
Definition demo_db : gmap string Row := {[ "x" := persist_row None demo_old "" 0 ]}.
Definition demo_ch : Choice := mkChoice (3600 * second) (NoAnswer Canceled) (Ok demo_new) ("", "") id false.
Definition demo_resolve : string -> string := id.

Definition go (n : nat) : list Move := repeat (Step 0 demo_ch) n.

(** Registration and the load at boot; then a reload that has read the rows. *)
Definition demo_boot : list Move := Start (JRegister "x" demo_it) :: go 1 ++ Start JLoad :: go 9.
Definition demo_reload : list Move := Start JLoad :: go 1.

(** The revocation of the credential while the reload waits; a request that renews
    the token, then the rest of the reload. *)
Definition demo_revoke : list Move := demo_boot ++ demo_reload ++ Start (JRevoke "x") :: go 4.
Definition demo_refresh : list Move := demo_boot ++ demo_reload ++ Start (JToken "x") :: go 16.

Definition demo_end (ms : list Move) : Sys := default (boot demo_db) (play demo_resolve ms (boot demo_db)).

Lemma demo_reaches ms :
  Forall legal ms → is_Some (play demo_resolve ms (boot demo_db)) → reachable demo_resolve (boot demo_db) (demo_end ms).
Proof. intros Hl [s Hs]. apply (play_reachable _ ms); [done|]. unfold demo_end. by rewrite Hs. Qed.

(** Locks are those of states in the heap, and an integration is registered under
    its own name. *)
Definition rooted (w : World) : Prop :=
  (∀ h, h ∈ ow_locked w → is_Some (ow_heap w !! h)) ∧
  (∀ id it, ow_integrations w !! id = Some it → oi_ID it = id).

Lemma run_locked resolve ch w j w' js h :
  run resolve ch w j = Some (w', js) → h ∈ ow_locked w' → h ∈ ow_locked w ∨ ∃ g, (h, g) ∈ job_gens j.
Proof.
  intros H Hh. run_cases H; auto.
  all: try (apply continue_frame in H as (_ & H & _); rewrite H in Hh); cbn in Hh |- *; set_solver.
Qed.

Lemma continue_integrations w k w' js : continue w k = (w', js) → ow_integrations w' = ow_integrations w.
Proof.
  destruct k as [|h g t bg|h g|h id r rest]; cbn; [| |by intros [= <- <-]..]; [by intros [= <- <-]|].
  intros [= <- _]. by destruct (ow_sources w !! (h, g)).
Qed.

Lemma run_integrations resolve ch w j w' js id it :
  run resolve ch w j = Some (w', js) → ow_integrations w' !! id = Some it →
  ow_integrations w !! id = Some it ∨ oi_ID it = id.
Proof.
  intros H Hi. run_cases H; auto.
  all: try (apply continue_integrations in H; rewrite H in Hi; auto).
  apply lookup_insert_Some in Hi as [[<- <-]|[_ Hi]]; auto.
Qed.

Lemma reachable_rooted resolve db s : reachable resolve (boot db) s → rooted s.1.
Proof.
  intros H. cut (generations_sys s ∧ rooted s.1); [by intros [_ ?]|].
  apply (rtc_ind_r (λ s, generations_sys s ∧ rooted s.1) (boot db)) in H; [done| |].
  - split; [apply generations_boot|]. split; cbn; [set_solver|]. intros id it. by rewrite lookup_empty.
  - intros x y _ Hs [Hg Hr]. split; [by eapply generations_step|].
    destruct Hs as [ch w w' l1 j l2 js Hrun|w l j Hj]; [|done]. cbn [fst] in *. destruct Hr as [Hl Hi], Hg as [_ Hg].
    split; [|intros id it Hit; by destruct (run_integrations _ _ _ _ _ _ _ _ Hrun Hit); [apply Hi|]].
    pose proof (run_grows _ _ _ _ _ _ Hrun) as Hm.
    assert (∀ h, is_Some (ow_heap w !! h) → is_Some (ow_heap w' !! h)) as Hkeep
      by (intros h [s0 Hs0]; destruct (Hm h s0 Hs0) as (s1 & -> & _); eauto).
    intros h Hh. apply Hkeep. destruct (run_locked _ _ _ _ _ _ _ Hrun Hh) as [?|[g Hin]]; [by apply Hl|].
    cbn in Hg. rewrite Forall_app, Forall_cons in Hg. destruct Hg as (_ & Hj & _). rewrite Forall_forall in Hj.
    destruct (Hj _ Hin) as (s0 & Hs0 & _). eauto.
Qed.

(** One job that runs alone for a step. *)
Lemma run_alone resolve ch w j w' j' l1 l2 s :
  run resolve ch w j = Some (w', [j']) → reachable resolve (w', l1 ++ j' :: l2) s → reachable resolve (w, l1 ++ j :: l2) s.
Proof. intros H. apply rtc_l. by apply (step_run resolve ch w w' l1 j l2 [j']). Qed.

Lemma row_state_id resolve it r : os_id (row_state resolve it r) = oi_ID it.
Proof. unfold row_state. destruct (r_client_id r) as [c|]; [|done]. by destruct (String.eqb c ""). Qed.

Lemma row_state_gen resolve it r : os_gen (row_state resolve it r) = 0%nat.
Proof. unfold row_state. destruct (r_client_id r) as [c|]; [|done]. by destruct (String.eqb c ""). Qed.

(** C39. A policy reload brings a revoked credential back. In any reachable state in
    which a reload still has the row of a credential to go through, as it read it,
    while the credential has been revoked, so that it has neither a row nor a
    state, the reload can go on alone to its next row, and by then it has written
    the row it read, after the deletion, and installed a state with its token:
    nothing it does looks at the table again. The dashboard reports the credential
    as connected if the token is live or can be renewed. *)
Theorem reload_resurrects_revoked resolve db w l1 id r rest l2 it ch :
  reachable resolve (boot db) (w, l1 ++ JRow ((id, r) :: rest) :: l2) →
  ow_integrations w !! id = Some it → ow_states w !! id = None → ow_db w !! id = None → ch_fails ch = false →
  ∃ w' h s, reachable resolve (w, l1 ++ JRow ((id, r) :: rest) :: l2) (w', l1 ++ JRow rest :: l2) ∧
    ow_log w' = ow_log w ++ [Wrote h 1 id (row_token r)] ∧
    cols <$> ow_db w' !! id = Some (token_cols (row_token r)) ∧
    ow_states w' !! id = Some h ∧ ow_heap w' !! h = Some s ∧ os_current s = Some (row_token r) ∧
    ∀ now, r_access r ≠ "" → tokenExpired (row_token r) now = false ∨ r_refresh r ≠ "" →
      st_Connected (Status now (Some s)) = true.
Proof.
  intros Hr Hit Hst Hdb Hf. destruct (reachable_rooted _ _ _ Hr) as [Hlock Hid]. cbn [fst] in *. specialize (Hid id it Hit).
  set (h := fresh (dom (ow_heap w))).
  assert (ow_heap w !! h = None) as Hh by (apply not_elem_of_dom; apply is_fresh).
  assert (h ∉ ow_locked w) as Hnl by (intros [? ?]%Hlock; congruence).
  set (s := install (row_state resolve it r) (row_token r)).
  assert (os_gen s = 1%nat ∧ os_id s = id) as [Hg Hi] by (cbn; by rewrite row_state_gen, row_state_id).
  eexists _, h, _. split.
  { eapply (run_alone _ ch); [cbn [run]; unfold loadFromDB_row; rewrite Hit; reflexivity|]. fold h s. rewrite Hg.
    eapply (run_alone _ ch); [cbn [run]; unfold persist_lock; rewrite bool_decide_eq_false_2 by done; reflexivity|].
    eapply (run_alone _ ch); [cbn [run]; unfold persist_check; cbn; rewrite lookup_insert_eq, Hg, Hi; reflexivity|].
    eapply (run_alone _ ch); [cbn [run]; unfold persist_exec; rewrite Hf; reflexivity|].
    eapply (run_alone _ ch); [cbn [run]; reflexivity|]. cbn. rewrite Hst.
    eapply (run_alone _ ch); [cbn [run]; unfold loadFromDB_inherit; cbn; rewrite lookup_insert_eq; reflexivity|].
    eapply (run_alone _ ch); [cbn [run]; unfold putState_swap; cbn; rewrite Hst; reflexivity|]. apply rtc_refl. }
  cbn. rewrite Hdb, !lookup_insert_eq. split_and!; try done. intros now Ha Ht. unfold Status. cbn.
  rewrite (proj2 (String.eqb_neq _ _) Ha). unfold s, install. cbn.
  destruct (tokenExpired (row_token r) now); cbn; [|done].
  destruct Ht as [?|Ht]; [done|]. by rewrite (proj2 (String.eqb_neq _ _) Ht).
Qed.

(** A policy reload that has read a credential's row undoes a renewal that
    completes before the reload reaches the row: table and registry go back to
    the refresh token the provider has replaced. *)
Theorem reload_undoes_rotation :
  ∃ s h st, reachable demo_resolve (boot demo_db) s ∧ s.2 = [] ∧
    ow_log s.1 = [Wrote 0 1 "x" demo_old; Wrote 0 1 "x" demo_new; Wrote 1 1 "x" demo_old] ∧
    ow_states s.1 !! "x" = Some h ∧ ow_heap s.1 !! h = Some st ∧ os_current st = Some demo_old ∧
    row_token <$> ow_db s.1 !! "x" = Some demo_old.
Proof.
  exists (demo_end demo_refresh), 1%nat, (default (newState demo_resolve demo_it) (ow_heap (demo_end demo_refresh).1 !! 1%nat)).
  split; [apply demo_reaches; [repeat constructor|vm_compute; eexists; reflexivity]|]. split_and!; by vm_compute.
Qed.

(** ** Witnesses *)

(** A reload that has read the row of ["x"], which is then revoked. *)
Lemma reload_resurrects_revoked_witness :
  ∃ w r, demo_end demo_revoke = (w, [JRow [("x", r)]]) ∧ ow_db w !! "x" = None ∧
    ∃ w' h s, reachable demo_resolve (w, [JRow [("x", r)]]) (w', [JRow []]) ∧ ow_states w' !! "x" = Some h ∧
      ow_heap w' !! h = Some s ∧ st_Connected (Status (3600 * second) (Some s)) = true.
Proof.
  set (r := persist_row (Some (persist_row None demo_old "" 0)) demo_old "" (3600 * second)).
  assert (demo_end demo_revoke = ((demo_end demo_revoke).1, [JRow [("x", r)]])) as E by (vm_compute; reflexivity).
  exists (demo_end demo_revoke).1, r. split; [exact E|]. split; [vm_compute; reflexivity|].
  destruct (reload_resurrects_revoked demo_resolve demo_db (demo_end demo_revoke).1 [] "x" r [] []
    (mkIntegration "x" (oi_Header demo_it) (oi_Prefix demo_it) (oi_Flow demo_it) (oi_OAuth demo_it)) demo_ch)
    as (w' & h & s & H1 & _ & _ & H2 & H3 & _ & H4).
  - cbn [app]. rewrite <- E. apply demo_reaches; [repeat constructor|vm_compute; eexists; reflexivity].
  - vm_compute. reflexivity.
  - vm_compute. reflexivity.
  - vm_compute. reflexivity.
  - reflexivity.
  - exists w', h, s. split_and!; [exact H1|exact H2|exact H3|]. apply H4; [done|]. right. done.
Defined.

(** A reload after a renewal, as an execution. *)
Lemma writes_follow_generations_witness :
  reachable demo_resolve (boot demo_db) (demo_end demo_refresh) ∧
  cols <$> ow_db (demo_end demo_refresh).1 = replay demo_db (ow_log (demo_end demo_refresh).1).
Proof.
  assert (reachable demo_resolve (boot demo_db) (demo_end demo_refresh)) as H
    by (apply demo_reaches; [repeat constructor|vm_compute; eexists; reflexivity]).
  split; [exact H|]. exact (proj1 (writes_follow_generations _ _ _ H)).
Defined.

(** A background refresh under way, while a request waits for the same source. *)
Definition demo_busy : list Move := demo_boot ++ Start JSweep :: go 3 ++ Start (JToken "x") :: go 2.

Lemma one_refresh_at_a_time_witness :
  omap holds_claim (demo_end demo_busy).2 = [0%nat] ∧ omap holds_reuse (demo_end demo_busy).2 = [(0, 1)%nat] ∧
  NoDup (omap holds_claim (demo_end demo_busy).2).
Proof.
  split_and!; [vm_compute; reflexivity..|].
  exact (proj1 (one_refresh_at_a_time demo_resolve demo_db (demo_end demo_busy)
    (demo_reaches demo_busy ltac:(repeat constructor) ltac:(vm_compute; eexists; reflexivity)))).
Defined.

Lemma token_row_roundtrip_witness :
  Expiry demo_new = Some (7200 * second) ∧ row_token (persist_row None demo_new "client" 0) = demo_new.
Proof. split; [done|]. apply (token_row_roundtrip None demo_new "client" 0). vm_compute. split_and!; congruence. Defined.
