(* ===== verification/OAuthFlow.v ===== *)
(** * Connecting an OAuth credential from the dashboard ([cmd/clawpatrol/oauth.go])

    The handlers that start an authorization, exchange a pasted code and poll a
    device flow. Their sessions are a map under the lock of the dashboard; a
    handler gives the lock up while it waits for a provider, so the handlers are
    jobs that interleave. What ends a flow is a call of [SetWithClient] on the
    registry. HTTP, JSON, random strings and SHA-256 are parameters. *)
From S2P Require Import Prelude GoStrings NetAddr GoUrl GoHttp GoEncode Policy Fingerprint RequestLoop Credentials OAuth.

(** ** Scopes *)

Definition scope_byte (c : ascii) : bool :=
  ((97 <=? N_of_ascii c) && (N_of_ascii c <=? 122) || (48 <=? N_of_ascii c) && (N_of_ascii c <=? 57))%N || Ascii.eqb c ":" || Ascii.eqb c "_".

Definition validOAuthScope (s : string) : bool :=
  negb (String.eqb s "") && (String.length s <=? 64)%nat && str_forall scope_byte s.

(** The loop over the requested scopes: [out] are those so far, in order. *)
Fixpoint add_scopes (out : list string) (requested : list string) : list string :=
  match requested with
  | [] => out
  | s :: requested =>
      let s := TrimSpace s in
      if String.eqb s "" || bool_decide (s ∈ out) || negb (validOAuthScope s) then add_scopes out requested
      else add_scopes (out ++ [s]) requested
  end.

(** [mergeExtraScopes]; [None] is the nil slice. *)
Definition mergeExtraScopes (base : list string) (raw : string) : option (list string) :=
  let raw := TrimSpace raw in
  if String.eqb raw "" then None
  else let out := add_scopes base (SplitByte raw ",") in
       if (length out =? length base)%nat then None else Some out.

(** ** What an operator pastes *)

Definition values_Get (vals : gmap string (list string)) (k : string) : string := default "" (head (default [] (vals !! k))).

(** Code and error. *)
Definition oauthCodeOrError (vals : gmap string (list string)) : string * string :=
  let code := TrimSpace (values_Get vals "code") in
  if negb (String.eqb code "") then (code, "")
  else
    let errCode := TrimSpace (values_Get vals "error") in
    if String.eqb errCode "" then ("", "")
    else let desc := TrimSpace (values_Get vals "error_description") in
         ("", if String.eqb desc "" then errCode else errCode +:+ ": " +:+ desc).

Definition nothing_found (r : string * string) : bool := String.eqb r.1 "" && String.eqb r.2 "".

Definition parseOAuthRawQuery (input : string) : option (string * string) :=
  let raw := TrimPrefix input "?" in
  if query_malformed raw then None
  else let r := oauthCodeOrError (ParseQuery raw) in if nothing_found r then None else Some r.

Definition parseOAuthURL (s : string) : option (string * string) :=
  if negb (Contains s "?") then None
  else
    let candidate := if negb (Contains s "://") && negb (HasPrefix s "/") then "http://" +:+ s else s in
    match url_Parse candidate with
    | None => None
    | Some u => let r := oauthCodeOrError (ParseQuery (url_RawQuery u)) in if nothing_found r then None else Some r
    end.

(** Everything before the first [#] or [?], when that is not the first byte. *)
Definition cut_suffix (s : string) : string :=
  let n := match IndexByte s "#", IndexByte s "?" with Some i, Some j => Nat.min i j | Some i, None => i | None, Some j => j | None, None => O end in
  if (0 <? n)%nat then str_take n s else s.

Definition parseOAuthExchangeInput (input : string) : string * string :=
  let s := TrimSpace input in
  if String.eqb s "" then ("", "")
  else match parseOAuthRawQuery s with
       | Some r => r
       | None => match parseOAuthURL s with Some r => r | None => (TrimSpace (cut_suffix s), "") end
       end.

Definition dashboardRedirectURI (tls : bool) (h : Header) (host path : string) : string :=
  let scheme := if tls || EqualFold (header_Get h "X-Forwarded-Proto") "https" then "https" else "http" in
  scheme +:+ "://" +:+ (if String.eqb host "" then "localhost" else host) +:+ path.

(** [registerOAuthClient]: the client id in the answer ([None]: not JSON). *)
Definition registerOAuthClient (answer : result (Z * option string) string) : result string string :=
  match answer with
  | Err e => Err e
  | Ok (status, body) =>
      if (status <? 200) || (300 <=? status) then Err "register"
      else match body with
           | None => Err "invalid JSON"
           | Some "" => Err "register: empty client_id in response"
           | Some clientID => Ok clientID
           end
  end.

(** ** Sessions *)

Record oauthSession := mkOSession {
  se_verifier : string; se_state : string; se_cfg : Config; se_id : string; se_created : Z; se_dynClientID : string
}.

Definition session_life : Z := 600 * second.

(** What is seen from outside: a session and the challenge sent for it, a
    request to a provider with a code of a session, the token handed to the
    registry with the session it comes from. *)
Inductive FlowEvent :=
  | Started (s : oauthSession) (challenge : string)
  | Exchanged (s : oauthSession) (code : string)
  | Stored (s : oauthSession) (id : string) (t : Token) (clientID : string).

Record Flows := mkFlows { fl_sessions : gmap string oauthSession; fl_trace : list FlowEvent }.

Inductive FlowJob :=
  (** [apiOAuthStart]: a session about to be entered, with its challenge; the
      device flows do not look for old sessions *)
  | FStart (s : oauthSession) (challenge : string) (prune : bool)
  (** [apiOAuthExchange]: before the lookup, waiting for the provider *)
  | FExchange (state code : string)
  | FExchanging (s : oauthSession)
  (** [apiOAuthDevicePoll]: before the lookup, waiting for the provider, before
      the session is deleted *)
  | FPoll (state : string)
  | FPolling (s : oauthSession)
  | FFound (s : oauthSession) (t : Token)
  (** before [SetWithClient] *)
  | FSet (s : oauthSession) (t : Token) (clientID : string).

(** Old sessions go when a browser flow starts. *)
Definition prune_sessions (now : Z) (m : gmap string oauthSession) : gmap string oauthSession :=
  filter (λ kv, now - se_created kv.2 <= session_life) m.

Section Flow.
(** SHA-256, and the environment of the templates. *)
Context (sha256 : string -> string) (resolve : string -> string).

(** The session and challenge of a start; [verifier] and [state] are the random
    strings. *)
Definition pkce_challenge (verifier : string) : string := EncodeToString RawURLEncoding (sha256 verifier).

Definition flow_cfg (it : OAuthIntegration) : Config :=
  let o := oi_OAuth it in
  mkConfig (resolve (oc_ClientID o)) (resolve (oc_ClientSecret o)) (oc_Scopes o) (oc_RedirectURI o) (oc_AuthURL o) (oc_TokenURL o).

Definition with_scopes (it : OAuthIntegration) (scopes : list string) : OAuthIntegration :=
  let o := oi_OAuth it in
  mkIntegration (oi_ID it) (oi_Header it) (oi_Prefix it) (oi_Flow it)
    (mkOAuthConfig (oc_ClientID o) (oc_ClientSecret o) (oc_AuthURL o) (oc_TokenURL o) (oc_DeviceURL o) (oc_RegisterURL o) (oc_RedirectURI o) scopes).

(** What the provider says to a start that asks it: a registered client, a device
    code, the pair of codes of OpenAI. *)
Record StartAnswers := mkStart { sa_register : result (Z * option string) string; sa_device : option string; sa_openai : option (string * string) }.

(** [apiOAuthStart] up to the critical section that enters the session. *)
Definition apiOAuthStart (flow : option OAuthIntegration) (id extra_scopes : string) (tls : bool) (h : Header) (host verifier state : string)
    (now : Z) (a : StartAnswers) : result FlowJob string :=
  match flow with
  | None => Err ("no oauth integration: " +:+ id)
  | Some it =>
      let it := match mergeExtraScopes (oc_Scopes (oi_OAuth it)) extra_scopes with Some s => with_scopes it s | None => it end in
      let o := oi_OAuth it in
      if String.eqb (oi_Flow it) "device" then
        match sa_device a with
        | None => Err "device-code"
        | Some code => Ok (FStart (mkOSession code state (mkConfig (resolve (oc_ClientID o)) "" [] "" "" (oc_TokenURL o)) id now "") "" false)
        end
      else if String.eqb (oi_Flow it) "openai_device" then
        match sa_openai a with
        | None => Err "openai deviceauth"
        | Some (devID, userCode) =>
            if String.eqb devID "" || String.eqb userCode "" then Err "openai deviceauth parse"
            else Ok (FStart (mkOSession (devID +:+ "|" +:+ userCode) state
                      (mkConfig (resolve (oc_ClientID o)) "" [] (oc_RedirectURI o) (oc_AuthURL o) (oc_TokenURL o)) id now "") "" false)
        end
      else if String.eqb (oi_Flow it) "notion_mcp" || String.eqb (oi_Flow it) "dynamic_mcp" then
        let uri := TrimSpace (oc_RedirectURI o) in
        let uri := if String.eqb uri "" then dashboardRedirectURI tls h host "/oauth/callback" else uri in
        match registerOAuthClient (sa_register a) with
        | Err e => Err ("dynamic client registration: " +:+ e)
        | Ok clientID =>
            Ok (FStart (mkOSession verifier state (mkConfig clientID "" (oc_Scopes o) uri (oc_AuthURL o) (oc_TokenURL o)) id now clientID)
                  (pkce_challenge verifier) true)
        end
      else Ok (FStart (mkOSession verifier state (flow_cfg it) id now "") (pkce_challenge verifier) true)
  end.

(** *** Answers to a poll *)

(** [pollDeviceFlow]: the token, or why there is none yet. *)
Definition pollDeviceFlow (now : Z) (a : ProviderAnswer) : result Token string :=
  match a with
  | NoAnswer _ => Err "device poll"
  | Answer _ None => Err "device poll parse"
  | Answer _ (Some tr) =>
      if negb (String.eqb (tr_Error tr) "") then Err (tr_Error tr)
      else if String.eqb (tr_AccessToken tr) "" then Err "authorization_pending"
      else Ok (reply_token now tr "")
  end.

(** [pollOpenAIDeviceFlow]: the poll answers with a code and a verifier, which
    are exchanged for the token. *)
Definition pollOpenAIDeviceFlow (now : Z) (verifier : string) (poll : result (Z * option (string * string)) string) (exchange : ProviderAnswer)
    : result Token string :=
  if negb (ContainsByte verifier "|") then Err "session corrupt"
  else match poll with
       | Err e => Err e
       | Ok (status, body) =>
           if (status =? 202) || (status =? 204) then Err "authorization_pending"
           else match body with
                | Some (code, v) =>
                    if String.eqb code "" || String.eqb v "" then Err "authorization_pending"
                    else match exchange with
                         | NoAnswer _ => Err "openai exchange"
                         | Answer st None => Err (if st =? 200 then "openai exchange parse" else "openai exchange")
                         | Answer st (Some tr) =>
                             if negb (st =? 200) then Err "openai exchange"
                             else if String.eqb (tr_AccessToken tr) "" then Err "openai exchange parse"
                             else Ok (reply_token now tr "")
                         end
                | None => Err "authorization_pending"
                end
       end.

(** [exchangeOAuthCode]; [std] is what [oauth2]'s own exchange returns. *)
Definition exchangeOAuthCode (now : Z) (s : oauthSession) (a : ProviderAnswer) (std : result Token RefreshError) : result Token RefreshError :=
  if isAnthropicTokenURL (TokenURL (se_cfg s)) then exchangeAnthropicCode now a else std.

(** ** Steps *)

(** What the surroundings decide in a step. *)
Record FlowChoice := mkFlowChoice {
  fc_now : Z; fc_answer : ProviderAnswer; fc_std : result Token RefreshError; fc_poll : result (Z * option (string * string)) string;
  (** whether the credential's flow is [openai_device] *)
  fc_openai : bool
}.

Definition flow_run (ch : FlowChoice) (j : FlowJob) (f : Flows) : Flows * list FlowJob :=
  match j with
  | FStart s challenge prune =>
      let m := <[se_state s := s]> (fl_sessions f) in
      (mkFlows (if prune then prune_sessions (fc_now ch) m else m) (fl_trace f ++ [Started s challenge]), [])
  | FExchange state pasted =>
      let '(code, oauthErr) := parseOAuthExchangeInput pasted in
      if negb (String.eqb oauthErr "") || String.eqb code "" || String.eqb state "" then (f, [])
      else match fl_sessions f !! state with
           | None => (f, [])
           | Some s => (mkFlows (delete state (fl_sessions f)) (fl_trace f ++ [Exchanged s code]), [FExchanging s])
           end
  | FExchanging s =>
      match exchangeOAuthCode (fc_now ch) s (fc_answer ch) (fc_std ch) with
      | Err _ => (f, [])
      | Ok t => (f, [FSet s t (se_dynClientID s)])
      end
  | FPoll state => match fl_sessions f !! state with None => (f, []) | Some s => (f, [FPolling s]) end
  | FPolling s =>
      match (if fc_openai ch then pollOpenAIDeviceFlow (fc_now ch) (se_verifier s) (fc_poll ch) (fc_answer ch)
             else pollDeviceFlow (fc_now ch) (fc_answer ch)) with
      | Err _ => (f, [])
      | Ok t => (f, [FFound s t])
      end
  | FFound s t => (mkFlows (delete (se_state s) (fl_sessions f)) (fl_trace f), [FSet s t ""])
  | FSet s t clientID => (mkFlows (fl_sessions f) (fl_trace f ++ [Stored s (se_id s) t clientID]), [])
  end.

(** The calls that start from outside: a start has been answered by
    [apiOAuthStart]. *)
Inductive flow_entry : FlowJob → Prop :=
  | fe_start flow id extra tls h host verifier state now a j :
      apiOAuthStart flow id extra tls h host verifier state now a = Ok j → flow_entry j
  | fe_exchange state code : flow_entry (FExchange state code)
  | fe_poll state : flow_entry (FPoll state).

Inductive flow_step : Flows * list FlowJob → Flows * list FlowJob → Prop :=
  | flow_step_run ch f l1 j l2 f' js : flow_run ch j f = (f', js) → flow_step (f, l1 ++ j :: l2) (f', l1 ++ js ++ l2)
  | flow_step_start f l j : flow_entry j → flow_step (f, l) (f, j :: l).

Definition flows0 : Flows * list FlowJob := (mkFlows ∅ [], []).
End Flow.

(** * What connecting an OAuth credential guarantees *)

(** ** Scopes *)

Lemma add_scopes_spec requested out :
  ∃ added, add_scopes out requested = out ++ added ∧ NoDup added ∧
    ∀ s, s ∈ added → s ∉ out ∧ validOAuthScope s = true ∧ ∃ p, p ∈ requested ∧ s = TrimSpace p.
Proof.
  revert out. induction requested as [|p requested IH]; intros out; cbn [add_scopes].
  { exists []. rewrite app_nil_r. split_and!; [done|constructor|]. by intros s ?%elem_of_nil. }
  destruct (_ || _) eqn:E.
  - destruct (IH out) as (added & -> & Hn & Hs). exists added. split_and!; [done..|].
    intros s (H1 & H2 & q & Hq & ->)%Hs. split_and!; [done..|]. exists q. split; [by right|done].
  - destruct (IH (out ++ [TrimSpace p])) as (added & -> & Hn & Hs). exists (TrimSpace p :: added). rewrite <- app_assoc.
    apply orb_false_iff in E as [[_ E1]%orb_false_iff E2]. apply bool_decide_eq_false in E1. apply negb_false_iff in E2.
    split_and!; [done| |].
    + constructor; [|done]. intros (Hin & _ & _)%Hs. apply Hin. set_solver.
    + intros s [->|Hin]%elem_of_cons; [split_and!; [done..|]; exists p; split; [by left|done]|].
      apply Hs in Hin as (H1 & H2 & q & Hq & ->). split_and!; [set_solver|done|]. exists q. split; [by right|done].
Qed.

(** The scopes asked for at connect time are added to the declared ones, never
    taken away from them: each once, none that is declared, and only such as the
    request lists and the alphabet of scopes allows. *)
Theorem mergeExtraScopes_spec base raw out :
  mergeExtraScopes base raw = Some out →
  ∃ added, out = base ++ added ∧ added ≠ [] ∧ NoDup added ∧
    ∀ s, s ∈ added → s ∉ base ∧ validOAuthScope s = true ∧ ∃ p, p ∈ SplitByte (TrimSpace raw) "," ∧ s = TrimSpace p.
Proof.
  unfold mergeExtraScopes. destruct (String.eqb _ _); [done|].
  destruct (add_scopes_spec (SplitByte (TrimSpace raw) ",") base) as (added & -> & Hn & Hs).
  destruct (Nat.eqb_spec (length (base ++ added)) (length base)) as [|Hl]; [done|]. intros [= <-]. exists added. split_and!; try done.
  intros ->. rewrite app_nil_r in Hl. done.
Qed.

(** ** Sessions *)

Section Sessions.
Context (sha256 : string -> string) (resolve : string -> string).

Notation step := (flow_step sha256 resolve).

Definition started_state (st : string) (e : FlowEvent) : bool := match e with Started s _ => String.eqb (se_state s) st | _ => false end.
Definition exchanged_state (st : string) (e : FlowEvent) : bool := match e with Exchanged s _ => String.eqb (se_state s) st | _ => false end.

Definition count (p : FlowEvent -> bool) (tr : list FlowEvent) : nat := length (List.filter p tr).

Lemma count_app p a b : count p (a ++ b) = (count p a + count p b)%nat.
Proof. unfold count. by rewrite List.filter_app, length_app. Qed.

Definition live (f : Flows) (st : string) : nat := if fl_sessions f !! st then 1 else 0.

(** A session the dashboard knows was started, under its own state, with the
    challenge of its verifier. *)
Definition started (f : Flows) (s : oauthSession) : Prop :=
  ∃ challenge, Started s challenge ∈ fl_trace f ∧ (challenge = "" ∨ challenge = pkce_challenge sha256 (se_verifier s)).

Definition job_session (j : FlowJob) : option oauthSession :=
  match j with FExchanging s | FPolling s | FFound s _ | FSet s _ _ => Some s | _ => None end.

Definition job_ok (f : Flows) (j : FlowJob) : Prop :=
  match j with
  | FStart s challenge _ => challenge = "" ∨ challenge = pkce_challenge sha256 (se_verifier s)
  | FSet s _ clientID => started f s ∧ (clientID = se_dynClientID s ∨ clientID = "")
  | _ => match job_session j with Some s => started f s | None => True end
  end.

Definition event_ok (f : Flows) (e : FlowEvent) : Prop :=
  match e with
  | Started s challenge => challenge = "" ∨ challenge = pkce_challenge sha256 (se_verifier s)
  | Exchanged s _ => started f s
  | Stored s id _ clientID => started f s ∧ id = se_id s ∧ (clientID = se_dynClientID s ∨ clientID = "")
  end.

Record flows_ok (x : Flows * list FlowJob) : Prop := mkFlowsOk {
  fo_keys : ∀ st s, fl_sessions x.1 !! st = Some s → se_state s = st ∧ started x.1 s;
  fo_once : ∀ st, (count (exchanged_state st) (fl_trace x.1) + live x.1 st <= count (started_state st) (fl_trace x.1))%nat;
  fo_events : Forall (event_ok x.1) (fl_trace x.1);
  fo_jobs : Forall (job_ok x.1) x.2
}.

Lemma started_mono f f' s : fl_trace f ⊆ fl_trace f' → started f s → started f' s.
Proof. intros Hs (c & Hin & Hc). exists c. split; [by apply Hs|done]. Qed.

Lemma job_ok_mono f f' j : fl_trace f ⊆ fl_trace f' → job_ok f j → job_ok f' j.
Proof. intros Hs. destruct j; cbn; try done; [..|intros [? ?]; split; [|done]]; by eapply started_mono. Qed.

Lemma event_ok_mono f f' e : fl_trace f ⊆ fl_trace f' → event_ok f e → event_ok f' e.
Proof. intros Hs. destruct e; cbn; try done; [by eapply started_mono|]. intros (? & ? & ?). split; [by eapply started_mono|done]. Qed.

Lemma entry_ok f j : flow_entry sha256 resolve j → job_ok f j.
Proof.
  intros [flow id extra tls h host verifier state now a j' H| |]; [|done..]. unfold apiOAuthStart in H.
  destruct flow as [it|]; [|done]. revert H. set (it' := match mergeExtraScopes _ _ with Some s => _ | None => it end). clearbody it'.
  destruct (String.eqb (oi_Flow it') "device"); [destruct (sa_device a); [intros [= <-]; by left|done]|].
  destruct (String.eqb (oi_Flow it') "openai_device").
  { destruct (sa_openai a) as [[d u]|]; [|done]. destruct (_ || _); [done|]. intros [= <-]. by left. }
  destruct (_ || _); [destruct (registerOAuthClient _); [|done]|]; intros [= <-]; by right.
Qed.

(** A step that only appends to the trace and forgets sessions. *)
Lemma flows_ok_append f f' l1 j l2 js es :
  flows_ok (f, l1 ++ j :: l2) → fl_trace f' = fl_trace f ++ es → Forall (event_ok f') es → Forall (job_ok f') js →
  (∀ st s, fl_sessions f' !! st = Some s → se_state s = st ∧ started f' s) →
  (∀ st, (count (exchanged_state st) es + live f' st <= count (started_state st) es + live f st)%nat) →
  flows_ok (f', l1 ++ js ++ l2).
Proof.
  intros [Hk Ho He Hj] Ht Hes Hjs Hk' Hc. cbn [fst snd] in *. rewrite Forall_app, Forall_cons in Hj. destruct Hj as (H1 & _ & H2).
  assert (fl_trace f ⊆ fl_trace f') as Hsub by (rewrite Ht; set_solver).
  split; cbn [fst snd]; [done| | |].
  - intros st. specialize (Ho st). specialize (Hc st). rewrite Ht, !count_app. lia.
  - rewrite Ht. apply Forall_app. split; [|done]. eapply Forall_impl; [done|]. intros e. by apply event_ok_mono.
  - rewrite !Forall_app. split_and!; [|done|]; (eapply Forall_impl; [done|]); intros x; by apply job_ok_mono.
Qed.

Lemma live_mono f f' st : (∀ s, fl_sessions f' !! st = Some s → fl_sessions f !! st = Some s) → (live f' st <= live f st)%nat.
Proof. unfold live. intros H. destruct (fl_sessions f' !! st) as [s|]; [|destruct (fl_sessions f !! st); lia]. by rewrite (H s). Qed.

Lemma flow_run_ok ch f l1 j l2 f' js :
  flow_run ch j f = (f', js) → flows_ok (f, l1 ++ j :: l2) → flows_ok (f', l1 ++ js ++ l2).
Proof.
  intros Hrun Hok. pose proof Hok as [Hk Ho He Hj]. cbn [fst snd] in *. rewrite Forall_app, Forall_cons in Hj. destruct Hj as (_ & Hj & _).
  assert (∀ js', Forall (job_ok f) js' → flows_ok (f, l1 ++ js' ++ l2)) as Hquiet.
  { intros js' Hjs. eapply (flows_ok_append f f _ _ _ _ []); [done|by rewrite app_nil_r|done..]. }
  destruct j as [s challenge prune|state pasted|s|state|s|s t|s t c]; cbn [flow_run] in Hrun.
  - injection Hrun as <- <-.
    assert (∀ st s0, (if prune then prune_sessions (fc_now ch) (<[se_state s := s]> (fl_sessions f)) else <[se_state s := s]> (fl_sessions f)) !! st = Some s0 →
      (st = se_state s ∧ s0 = s) ∨ fl_sessions f !! st = Some s0) as Hm.
    { intros st s0 Hs. assert (<[se_state s := s]> (fl_sessions f) !! st = Some s0) as Hs'.
      { destruct prune; [|done]. by apply map_lookup_filter_Some in Hs as [? _]. }
      apply lookup_insert_Some in Hs' as [[<- <-]|[_ ?]]; auto. }
    eapply flows_ok_append; [done|reflexivity|by apply Forall_singleton|constructor| |].
    + intros st s0 [[-> ->]|Hs]%Hm; [split; [done|]; exists challenge; split; [set_solver|done]|].
      destruct (Hk st s0 Hs) as [Hst Hsta]. split; [done|]. eapply started_mono; [|done]. cbn. set_solver.
    + intros st. cbn. destruct (String.eqb_spec (se_state s) st) as [<-|Hne]; cbn.
      * unfold live. cbn. destruct (_ !! se_state s); lia.
      * apply live_mono. cbn. intros s0 [[-> _]|Hs]%Hm; done.
  - destruct (parseOAuthExchangeInput pasted) as [code oerr]. destruct (_ || _); [injection Hrun as <- <-; by apply Hquiet|].
    destruct (fl_sessions f !! state) as [s|] eqn:Es; injection Hrun as <- <-; [|by apply Hquiet].
    destruct (Hk _ _ Es) as [Hst Hsta].
    assert (started (mkFlows (delete state (fl_sessions f)) (fl_trace f ++ [Exchanged s code])) s) as Hsta'
      by (eapply started_mono; [|done]; cbn; set_solver).
    eapply flows_ok_append; [done|reflexivity|by apply Forall_singleton|by apply Forall_singleton| |].
    + cbn. intros st s0 [_ Hs]%lookup_delete_Some. destruct (Hk _ _ Hs). split; [done|]. eapply started_mono; [|done]. cbn. set_solver.
    + intros st. unfold count. cbn. rewrite Hst. unfold live. cbn. destruct (String.eqb_spec state st) as [<-|Hne]; cbn.
      * rewrite lookup_delete_eq, Es. lia.
      * by rewrite lookup_delete_ne.
  - destruct (exchangeOAuthCode _ _ _ _); injection Hrun as <- <-; apply Hquiet; [apply Forall_singleton; split; [done|by left]|constructor].
  - destruct (fl_sessions f !! state) as [s|] eqn:Es; injection Hrun as <- <-; apply Hquiet; [|constructor]. apply Forall_singleton. by apply (Hk _ _ Es).
  - destruct (if fc_openai ch then _ else _); injection Hrun as <- <-; apply Hquiet; [by apply Forall_singleton|constructor].
  - injection Hrun as <- <-. eapply (flows_ok_append f _ _ _ _ _ []); [done|by rewrite app_nil_r|constructor| | |].
    + apply Forall_singleton. split; [done|by right].
    + cbn. intros st s0 [_ Hs]%lookup_delete_Some. by apply Hk.
    + intros st. cbn. apply live_mono. cbn. by intros s0 [_ Hs]%lookup_delete_Some.
  - injection Hrun as <- <-. destruct Hj as [Hsta Hc]. eapply flows_ok_append; [done|reflexivity| |constructor| |].
    + apply Forall_singleton. split_and!; [|done..]. eapply started_mono; [|done]. cbn. set_solver.
    + cbn. intros st s0 Hs. destruct (Hk _ _ Hs). split; [done|]. eapply started_mono; [|done]. cbn. set_solver.
    + intros st. by apply live_mono.
Qed.

Lemma flow_step_ok x y : step x y → flows_ok x → flows_ok y.
Proof.
  intros [ch f l1 j l2 f' js Hrun|f l j Hj] Hok; [by eapply flow_run_ok|].
  destruct Hok as [Hk Ho He Hl]. split; [done..|]. constructor; [by apply entry_ok|done].
Qed.

Lemma flows_reachable_ok x : rtc step flows0 x → flows_ok x.
Proof.
  intros H. apply (rtc_ind_r flows_ok flows0) in H; [done| |].
  - split; cbn; [by intros st s; rewrite lookup_empty| |constructor..]. intros st. unfold count, live. cbn. by rewrite lookup_empty.
  - intros y z _ Hyz Hy. by eapply flow_step_ok.
Qed.

(** Under every interleaving of starts, exchanges and polls: a state is exchanged
    at most as often as it was started; every token handed to the registry comes
    from a session that was started, and goes to the credential of that session,
    with the client id registered for it or none; and the challenge sent for a
    session is that of the verifier its exchange presents. *)
Theorem flow_sessions_sound x :
  rtc step flows0 x →
  (∀ st, (count (exchanged_state st) (fl_trace x.1) <= count (started_state st) (fl_trace x.1))%nat) ∧
  (∀ s id t clientID, Stored s id t clientID ∈ fl_trace x.1 →
     started x.1 s ∧ id = se_id s ∧ (clientID = se_dynClientID s ∨ clientID = "")) ∧
  (∀ s code, Exchanged s code ∈ fl_trace x.1 → started x.1 s) ∧
  (∀ s challenge, Started s challenge ∈ fl_trace x.1 → challenge = "" ∨ challenge = pkce_challenge sha256 (se_verifier s)).
Proof.
  intros [Hk Ho He Hj]%flows_reachable_ok. rewrite Forall_forall in He. split_and!.
  - intros st. specialize (Ho st). lia.
  - intros s id t c Hin. exact (He _ Hin).
  - intros s code Hin. exact (He _ Hin).
  - intros s c Hin. exact (He _ Hin).
Qed.
End Sessions.

(** ** What an operator pastes *)

Lemma trim_by_none p s : str_forall (λ c, negb (p c)) s = true → trim_by p s = s.
Proof.
  intros H. unfold trim_by. assert (trim_left_by p s = s) as ->.
  { destruct s as [|c s]; [done|]. cbn in H |- *. apply andb_true_iff in H as [Hc _]. by destruct (p c). }
  induction s as [|c s IH]; [done|]. cbn in H |- *. apply andb_true_iff in H as [Hc Hs]. rewrite (IH Hs).
  destruct s; [by destruct (p c)|done].
Qed.

Definition no_space (s : string) : bool := str_forall (λ c, negb (is_space c)) s.

Lemma hex_digit_no_space n : (n < 16)%N → is_space (hex_digit n) = false.
Proof. intros H. by destruct n as [|[[[[]|[]|]|[[]|[]|]|]|[[[]|[]|]|[[]|[]|]|]|]]; try lia. Qed.

Lemma QueryEscape_no_space s : no_space (QueryEscape s) = true.
Proof.
  unfold no_space. induction s as [|c s IH]; [done|]. cbn [QueryEscape]. destruct (Ascii.eqb c " "); [done|].
  destruct (shouldEscape_query c) eqn:E; cbn [str_forall].
  - pose proof (N_ascii_bounded c) as Hb.
    rewrite !hex_digit_no_space, IH by (first [apply N.Div0.div_lt_upper_bound; lia | apply N.mod_upper_bound; lia]). done.
  - rewrite IH, andb_true_r. destruct (is_space c) eqn:E2; [|done]. exfalso. revert E E2. byte_cases c; done.
Qed.

(** The query of a callback with a code and a state. *)
Definition callback_query (code state : string) : string := Join (query_parts [("code", [code]); ("state", [state])]) "&".

Lemma callback_query_text code state : callback_query code state = "code=" +:+ QueryEscape code +:+ "&state=" +:+ QueryEscape state.
Proof. unfold callback_query. cbn. by rewrite str_app_nil_r || (rewrite ?str_app_assoc; done). Qed.

Lemma callback_query_wellformed code state : query_malformed (callback_query code state) = false.
Proof.
  unfold query_malformed, callback_query. rewrite SplitByte_Join; [|done|repeat constructor; by apply query_part_amp].
  cbn. by rewrite !query_pair_part, !andb_false_r.
Qed.

Lemma callback_query_code code state : values_Get (ParseQuery (callback_query code state)) "code" = code.
Proof.
  unfold callback_query. rewrite ParseQuery_parts. cbn. unfold values_Get, add_value. cbn.
  rewrite lookup_insert_ne by done. by rewrite lookup_insert_eq.
Qed.

(** Pasting the query of a provider's redirect, with or without its question
    mark, gives back the code it carries, whatever bytes the code has. *)
Theorem pasted_callback_code code state :
  TrimSpace code = code → code ≠ "" →
  parseOAuthExchangeInput (callback_query code state) = (code, "") ∧
  parseOAuthExchangeInput ("?" +:+ callback_query code state) = (code, "").
Proof.
  intros Ht Hne.
  assert (no_space (callback_query code state) = true) as Hs.
  { rewrite callback_query_text. unfold no_space. rewrite !str_forall_app. fold (no_space (QueryEscape code)) (no_space (QueryEscape state)).
    by rewrite !QueryEscape_no_space. }
  assert (parseOAuthRawQuery (callback_query code state) = Some (code, "") ∧ parseOAuthRawQuery ("?" +:+ callback_query code state) = Some (code, "")) as [H1 H2].
  { assert (TrimPrefix (callback_query code state) "?" = callback_query code state) as E1 by (by rewrite callback_query_text).
    unfold parseOAuthRawQuery. rewrite E1. change (TrimPrefix ("?" +:+ ?q) "?") with q.
    rewrite callback_query_wellformed. unfold oauthCodeOrError. rewrite callback_query_code, Ht.
    destruct (String.eqb_spec code ""); [done|]. cbn. unfold nothing_found. cbn. by destruct (String.eqb_spec code ""). }
  unfold parseOAuthExchangeInput, TrimSpace.
  rewrite (trim_by_none is_space (callback_query code state)), (trim_by_none is_space ("?" +:+ callback_query code state)) by exact Hs.
  rewrite H1, H2. split; [|done]. rewrite callback_query_text. done.
Qed.

(** ** Sessions that have expired *)

Definition demo_flow : OAuthIntegration :=
  mkIntegration "gh" "" "" "" (mkOAuthConfig "client" "" "https://idp.example/auth" "https://idp.example/token" "" "" "https://cb.example" ["repo"]).
Definition demo_token : Token := mkToken "access" "refresh" "Bearer" None.
Definition at_time (now : Z) : FlowChoice := mkFlowChoice now (NoAnswer Canceled) (Ok demo_token) (Err "") false.

(** A session is not checked against its age when it is exchanged: one that
    nobody's start has removed since can be exchanged after a day. *)
Theorem expired_session_exchanged sha256 resolve :
  ∃ x s, rtc (flow_step sha256 resolve) flows0 x ∧ x.2 = [] ∧ se_created s + session_life < 86400 * second ∧
    fl_trace x.1 = [Started s (pkce_challenge sha256 "verifier"); Exchanged s "code"; Stored s "gh" demo_token ""].
Proof.
  set (s := mkOSession "verifier" "state" (flow_cfg resolve demo_flow) "gh" 0 "").
  exists (mkFlows ∅ [Started s (pkce_challenge sha256 "verifier"); Exchanged s "code"; Stored s "gh" demo_token ""], []), s.
  split; [|by split_and!].
  eapply rtc_l; [apply (flow_step_start _ _ _ _ (FStart s (pkce_challenge sha256 "verifier") true))|].
  { apply (fe_start _ _ (Some demo_flow) "gh" "" false ∅ "" "verifier" "state" 0 (mkStart (Err "") None None)). reflexivity. }
  eapply rtc_l; [apply (flow_step_run _ _ (at_time 0) _ [] _ []); reflexivity|].
  eapply rtc_l; [apply (flow_step_start _ _ _ _ (FExchange "state" "code")); constructor|].
  eapply rtc_l; [apply (flow_step_run _ _ (at_time (86400 * second)) _ [] _ []); reflexivity|].
  eapply rtc_l; [apply (flow_step_run _ _ (at_time (86400 * second)) _ [] _ []); reflexivity|].
  eapply rtc_l; [apply (flow_step_run _ _ (at_time (86400 * second)) _ [] _ []); reflexivity|].
  apply rtc_refl.
Qed.
