(* ===== verification/Notify.v ===== *)
(** * Asking a human: notifiers of [internal/config/plugins/credentials]

    What the Slack and Signal credentials send to an operator about a request
    that waits for approval, and how they change it afterwards: the labels of
    [runtime/hitl.go], the templates of [approvers/template.go], the messages and
    requests of [slack.go] and [signal.go], and the gateway's choice of a message
    to update. A Go map is the list of its pairs in the order a [range] visits
    them. [encoding/json], [fmt] on other values than strings, the redaction by
    regular expressions and the HTTP client are parameters. *)
From S2P Require Import Prelude GoStrings NetAddr GoUrl GoHttp GoEncode Policy HitlRegistry Llm OAuth.
From Stdlib Require Import DecimalString.

Definition nl : string := String (ascii_of_nat 10) "".

(** [%d]. *)
Definition print_int (n : Z) : string := NilZero.string_of_int (Z.to_int n).

Definition TrimRightByte (s : string) (c : ascii) : string := trim_right_by (Ascii.eqb c) s.

(** ** Labels *)

(** [HostIsResource] and [HITLQueryLabel] of a facet; those of external plugins
    answer all alike. *)
Definition facet_labels (external : string -> bool) (family : string) : option (bool * string) :=
  if String.eqb family "http" then Some (true, "Path")
  else if String.eqb family "sql" then Some (false, "Query")
  else if String.eqb family "k8s" then Some (false, "Resource")
  else if String.eqb family "ssh" then Some (false, "Command")
  else if external family then Some (false, "Action")
  else None.

Section Prompts.
Context (external : string -> bool).

Definition HITLEndpointLabel (ep : option CompiledEndpoint) (host : string) : string :=
  match ep with
  | Some e =>
      if negb (String.eqb host "") && match facet_labels external (ep_Family e) with Some (r, _) => r | None => false end then host
      else if negb (String.eqb (ep_Name e) "") then ep_Name e
      else host
  | None => host
  end.

Definition HITLQueryLabel (ep : option CompiledEndpoint) : string :=
  match ep with
  | Some e => match facet_labels external (ep_Family e) with
              | Some (_, l) => if String.eqb l "" then "Path" else l
              | None => "Path"
              end
  | None => "Path"
  end.

Definition HITLTitle (method endpoint : string) : string :=
  let method := TrimSpace method in
  let endpoint := TrimSpace endpoint in
  if negb (String.eqb method "") && negb (String.eqb endpoint "") then "Approve " +:+ method +:+ " · " +:+ endpoint
  else if negb (String.eqb endpoint "") then "Approve " +:+ endpoint
  else if negb (String.eqb method "") then "Approve " +:+ method
  else "Approve".

(** ** Values of Go's [any] *)

Inductive Any :=
  | AString (s : string)
  (** [map[string]any], [[]map[string]any] *)
  | AMap (m : list (string * Any))
  | AMaps (l : list (list (string * Any)))
  (** [[]any]; anything else *)
  | ASlice (l : list Any)
  | AOther (text : string).

Notation Block := (list (string * Any)).

(** [m[k]]; the zero value is no string and no map. *)
Definition field {A} (k : string) (m : list (string * A)) : option A := snd <$> List.find (λ kv, String.eqb (fst kv) k) m.

(** ** Templates *)

(** The request an approver is asked about. *)
Record NotifyRequest := mkNotifyRequest {
  nr_Endpoint : option CompiledEndpoint;
  nr_AgentIP : string;
  nr_Profile : string;
  nr_Method : string;
  nr_Host : string;
  nr_Path : string;
  nr_BodySample : string;
  nr_Reason : string;
  nr_AsyncOperationID : string;
  (** [Request]: the facet's report of it and its body *)
  nr_Request : option (list (string * Any) * string)
}.

(** [[^{}]+] at the front: what it takes, and the rest. *)
Fixpoint plain_run (s : string) : string * string :=
  match s with
  | EmptyString => ("", "")
  | String c s' =>
      if Ascii.eqb c "{" || Ascii.eqb c "}" then ("", s)
      else let '(k, r) := plain_run s' in (String c k, r)
  end.

(** A match of [templateVarRe] at the front: what is between the braces. *)
Definition template_var (s : string) : option string :=
  match CutPrefix s "{{" with
  | None => None
  | Some r => let '(k, r') := plain_run r in if negb (String.eqb k "") && HasPrefix r' "}}" then Some k else None
  end.

(** [ReplaceAllStringFunc]; [skip] bytes belong to the last match. *)
Fixpoint expand_from (vars : gmap string string) (skip : nat) (s : string) : string :=
  match s with
  | EmptyString => ""
  | String c s' =>
      match skip with
      | S n => expand_from vars n s'
      | O =>
          match template_var s with
          | Some k =>
              let m := "{{" +:+ k +:+ "}}" in
              default m (vars !! TrimSpace k) +:+ expand_from vars (String.length k + 3) s'
          | None => String c (expand_from vars 0 s')
          end
      end
  end.

(** [fmt.Sprintf] with [%v] on a value that is no string, and [json.Unmarshal] into a [map[string]any]. *)
Context (sprint : Any -> string) (json_object : string -> option Block).

Definition sprint_v (v : Any) : string := match v with AString s => s | _ => sprint v end.

(** [[]string] and [[]any] are one case here. *)
Definition stringify (v : Any) : string :=
  match v with
  | ASlice l => Join (sprint_v <$> l) ", "
  | _ => sprint_v v
  end.

Fixpoint addJSONVars (maxDepth : nat) (prefix : string) (m : Block) (vars : gmap string string) : gmap string string :=
  match maxDepth with
  | O => vars
  | S n =>
      foldl (λ vars kv,
        let key := prefix +:+ "." +:+ fst kv in
        match snd kv with
        | AMap m' => addJSONVars n key m' (<[key := ""]> vars)
        | v => <[key := stringify v]> vars
        end) vars m
  end.

(** A field of the report: under the facet's prefix, and bare when that is free. *)
Definition add_report (prefix : string) (vars : gmap string string) (kv : string * Any) : gmap string string :=
  let vars := <[prefix +:+ fst kv := stringify (snd kv)]> vars in
  match vars !! fst kv with Some _ => vars | None => <[fst kv := stringify (snd kv)]> vars end.

Definition common_vars (req : NotifyRequest) : gmap string string :=
  list_to_map [("profile", nr_AgentIP req); ("host", nr_Host req); ("endpoint", HITLEndpointLabel (nr_Endpoint req) (nr_Host req));
    ("reason", nr_Reason req); ("body", nr_BodySample req); ("method", nr_Method req); ("path", nr_Path req)].

Definition buildTemplateVars (req : NotifyRequest) : gmap string string :=
  match nr_Request req with
  | None => common_vars req
  | Some (report, body) =>
      let vars :=
        match nr_Endpoint req with
        | Some e => if facet_labels external (ep_Family e) then foldl (add_report (ep_Family e +:+ ".")) (common_vars req) report else common_vars req
        | None => common_vars req
        end in
      if String.eqb body "" then vars
      else match json_object body with Some m => addJSONVars 3 "body_json" m vars | None => vars end
  end.

Definition expandMessage (tmpl : string) (req : NotifyRequest) : string := expand_from (buildTemplateVars req) 0 tmpl.

(** ** Texts *)

Definition slackTrunc (s : string) (n : nat) : string :=
  let s := TrimSpace s in
  if (n <? String.length s)%nat then str_take n s +:+ "…" else s.

Definition slackSectionTextMax : nat := 2800.

(** Where the prompt goes and what the pending entry says about it. *)
Record HITLTarget := mkTarget {
  ht_CredentialName : string;
  ht_Channel : string;
  ht_Interactive : bool;
  ht_PendingID : string;
  ht_DashboardURL : string;
  ht_ThreadTS : string;
  ht_OperationState : string;
  ht_ApprovalEffect : string;
  ht_UpstreamCalled : bool;
  ht_ApprovalMessage : string;
  ht_Summary : option HITLSummary;
  ht_Message : string
}.

Definition slackHITLApprovalGuidance (t : HITLTarget) : string :=
  let message := TrimSpace (ht_ApprovalMessage t) in
  if negb (String.eqb message "") then message
  else if String.eqb (ht_OperationState t) "" && String.eqb (ht_ApprovalEffect t) "" && negb (ht_UpstreamCalled t) then ""
  else
    let state := if String.eqb (ht_OperationState t) "" then OpStateSyncWaiting else ht_OperationState t in
    let effect := if String.eqb (ht_ApprovalEffect t) "" then HITLApprovalEffectForOperationState state else ht_ApprovalEffect t in
    HITLApprovalMessage state effect (ht_UpstreamCalled t).

(** The label of a summary with its confidence. *)
Definition confidence_label (s : HITLSummary) : string :=
  if 0 <? hs_Confidence s then
    if String.eqb (hs_Label s) "" then print_int (hs_Confidence s) +:+ "% confidence"
    else hs_Label s +:+ " (" +:+ print_int (hs_Confidence s) +:+ "%)"
  else hs_Label s.

(** ** Blocks *)

Definition mrkdwn (t : string) : Block := [("type", AString "mrkdwn"); ("text", AString t)].
Definition plain_text (t : string) : Block := [("type", AString "plain_text"); ("text", AString t)].
Definition section (t : string) : Block := [("type", AString "section"); ("text", AMap (mrkdwn t))].
Definition header (t : string) : Block := [("type", AString "header"); ("text", AMap (plain_text t))].
Definition context (l : list Block) : Block := [("type", AString "context"); ("elements", AMaps l)].
Definition fence : string := "```".
Definition fenced (t : string) : string := fence +:+ t +:+ fence.

Definition slackHITLContentBlocks (title queryLabel path message : string) (summary : option HITLSummary) : list Block :=
  if negb (String.eqb message "") then [header title; section (slackTrunc message 3000)]
  else match summary with
       | Some s =>
           let headerText := if String.eqb (hs_Subject s) "" then title else hs_Subject s in
           let labelLine := confidence_label s in
           let labelLine := if String.eqb labelLine "" then "Unlabeled" else labelLine in
           [header (slackTrunc headerText 140);
            section ("*Label:* " +:+ labelLine +:+ nl +:+ "*Summary:* " +:+ slackTrunc (hs_Summary s) 500)]
       | None => [header title; section ("*" +:+ queryLabel +:+ "*" +:+ nl +:+ fenced (slackTrunc path slackSectionTextMax))]
       end.

(** A button that decides the pending entry [id]. *)
Definition button (text action id style : string) : Block :=
  [("type", AString "button"); ("text", AMap (plain_text text)); ("action_id", AString action); ("value", AString id); ("style", AString style)].

Definition decision_buttons (id : string) : Block :=
  [("type", AString "actions"); ("elements", AMaps [button "Approve" "approve" id "primary"; button "Deny" "deny" id "danger"])].

Definition dashboard_button (link : string) : Block :=
  [("type", AString "actions");
   ("elements", AMaps [[("type", AString "button"); ("text", AMap (plain_text "Open dashboard")); ("url", AString link); ("style", AString "primary")]])].

Definition dashboard_link (url id : string) : string := TrimRightByte url "/" +:+ "/#hitl/" +:+ id.

(** The blocks [NotifyHITL] posts. *)
Definition notify_blocks (req : NotifyRequest) (t : HITLTarget) : list Block :=
  let endpoint := HITLEndpointLabel (nr_Endpoint req) (nr_Host req) in
  let title := slackTrunc (HITLTitle (nr_Method req) endpoint) 140 in
  let reason := TrimSpace (nr_Reason req) in
  let contextBlocks :=
    (if String.eqb (nr_Profile req) "" then [] else [mrkdwn ("agent `" +:+ nr_Profile req +:+ "`")]) ++
    (if String.eqb reason "" then [] else [mrkdwn ("reason: " +:+ slackTrunc reason 200)]) in
  let bs := TrimSpace (nr_BodySample req) in
  let guidance := slackHITLApprovalGuidance t in
  slackHITLContentBlocks title (HITLQueryLabel (nr_Endpoint req)) (nr_Path req) (ht_Message t) (ht_Summary t) ++
  (if (length contextBlocks =? 0)%nat then [] else [context contextBlocks]) ++
  (if String.eqb bs "" then [] else [section ("*Body*" +:+ nl +:+ fenced (slackTrunc bs slackSectionTextMax))]) ++
  (if String.eqb guidance "" then [] else [section (slackTrunc guidance 1000)]) ++
  [if ht_Interactive t then decision_buttons (ht_PendingID t) else dashboard_button (dashboard_link (ht_DashboardURL t) (ht_PendingID t))].

(** ** Requests to the providers *)

(** An answer: none, or a status, a decoded body, [Retry-After] and the error of
    closing the body. *)
Inductive Reply (B : Type) :=
  | NoReply (err : string)
  | GotReply (status : Z) (body : B) (retryAfter : string) (close : option string).
#[global] Arguments NoReply {B} err.
#[global] Arguments GotReply {B} status body retryAfter close.

Definition slackShouldRetryPostMessage {B} (r : Reply B) : bool :=
  match r with NoReply _ => true | GotReply status _ _ _ => (status =? 429) || (500 <=? status) end.

(** One attempt; a body that does not close is an error as well. *)
Definition try_reply {B A} (decode : Z -> B -> result A string) (r : Reply B) : result A string :=
  match r with
  | NoReply e => Err e
  | GotReply status body _ close =>
      match decode status body, close with
      | Ok _, Some e => Err e
      | x, _ => x
      end
  end.

(** The loop of at most two attempts; [waited] is what the wait between them
    returns. With the number of requests made. *)
Definition two_attempts {B A} (decode : Z -> B -> result A string) (waited : option string) (first second : Reply B) : nat * result A string :=
  match try_reply decode first with
  | Ok a => (1%nat, Ok a)
  | Err e =>
      if negb (slackShouldRetryPostMessage first) then (1%nat, Err e)
      else match waited with Some ctxErr => (1%nat, Err ctxErr) | None => (2%nat, try_reply decode second) end
  end.

Definition slackNotifyRetryBackoff : Z := 500 * 10 ^ 6.

(** How long [slackWaitBeforeRetry] waits; it returns at once when that is not
    positive. *)
Definition slack_backoff {B} (r : Reply B) : Z :=
  match r with
  | NoReply _ => slackNotifyRetryBackoff
  | GotReply _ _ retryAfter _ =>
      match Atoi (TrimSpace retryAfter) with
      | Some n => if 0 <? n then int64 (n * second) else slackNotifyRetryBackoff
      | None => slackNotifyRetryBackoff
      end
  end.

(** [ends] says whether the context ends within a time, and with what. *)
Definition slackWaitBeforeRetry {B} (ends : Z -> option string) (r : Reply B) : option string :=
  let backoff := slack_backoff r in if backoff <=? 0 then None else ends backoff.

(** *** Slack *)

(** [ok], [error], [channel], [ts] of an answer. *)
Record SlackBody := mkSlackBody { sb_OK : bool; sb_Error : string; sb_Channel : string; sb_TS : string }.

Definition slackDecodeJSONResponse (method : string) (status : Z) (b : SlackBody) : result unit string :=
  if (400 <=? status) || negb (sb_OK b) then
    Err ("slack " +:+ method +:+ " error: " +:+ (if String.eqb (sb_Error b) "" then "HTTP " +:+ print_int status else sb_Error b))
  else Ok tt.

Definition slackDecodePostMessageResponse (status : Z) (b : SlackBody) : result (string * string) string :=
  if (400 <=? status) || negb (sb_OK b) then
    Err ("slack chat.postMessage error: " +:+ (if String.eqb (sb_Error b) "" then "HTTP " +:+ print_int status else sb_Error b))
  else Ok (sb_Channel b, sb_TS b).

(** What the provider and the context do during a call. *)
Record SlackNet := mkSlackNet { sn_first : Reply SlackBody; sn_second : Reply SlackBody; sn_ends : Z -> option string }.

Definition slackPostHITLMessage (net : SlackNet) : nat * result (string * string) string :=
  two_attempts slackDecodePostMessageResponse (slackWaitBeforeRetry (sn_ends net) (sn_first net)) (sn_first net) (sn_second net).

Definition slackPostJSON (method : string) (net : SlackNet) : nat * result unit string :=
  two_attempts (slackDecodeJSONResponse method) (slackWaitBeforeRetry (sn_ends net) (sn_first net)) (sn_first net) (sn_second net).

Record slackMessageRef := mkSlackRef {
  sr_Type : string; sr_Credential : string; sr_Channel : string; sr_TS : string; sr_PendingID : string; sr_Interactive : bool;
  sr_Message : string; sr_Summary : option HITLSummary; sr_Endpoint : string; sr_QueryLabel : string
}.

(** The bot token of a credential. *)
Definition bot_token (sec : Secret) : string :=
  let bot := default "" (sec_Extras sec !! "bot") in if String.eqb bot "" then sec_Bytes sec else bot.

(** A message sent with a token: to a channel, in a thread or over an earlier
    message, with blocks. *)
Record SlackPost := mkSlackPost { sp_Token : string; sp_Channel : string; sp_TS : string; sp_ThreadTS : string; sp_Text : string; sp_Blocks : list Block }.

(** A call of a sink: for an operation or for a pending entry. *)
Inductive SinkCall := OperationRef (operationID ref : string) | PendingRef (id ref : string).

Section SlackRefs.
Context (marshal_slack : slackMessageRef -> string) (unmarshal_slack : string -> option slackMessageRef).

Definition encodeSlackMessageRef (r : slackMessageRef) : string :=
  marshal_slack (mkSlackRef "slack" (sr_Credential r) (sr_Channel r) (sr_TS r) (sr_PendingID r) (sr_Interactive r) (sr_Message r) (sr_Summary r)
    (sr_Endpoint r) (sr_QueryLabel r)).

Definition decodeSlackMessageRef (raw : string) : option slackMessageRef :=
  match unmarshal_slack raw with
  | None => None
  | Some r =>
      if negb (String.eqb (sr_Type r) "slack") || String.eqb (sr_Credential r) "" || String.eqb (sr_Channel r) "" || String.eqb (sr_TS r) "" then None
      else Some r
  end.

(** [NotifyHITL]: the message posted, how often, the sinks called, an error.
    [secrets] is the store of the request, [sinks] says which are set. *)
Definition slack_NotifyHITL (secrets : option (string -> result Secret string)) (sinks : bool * bool) (req : NotifyRequest) (t : HITLTarget) (net : SlackNet)
    : option (SlackPost * nat) * list SinkCall * option string :=
  match secrets with
  | None => (None, [], Some "no secret store on request")
  | Some get =>
      match get (ht_CredentialName t) with
      | Err e => (None, [], Some ("fetch credential " +:+ ht_CredentialName t +:+ ": " +:+ e))
      | Ok sec =>
          let bot := bot_token sec in
          if String.eqb bot "" then (None, [], Some ("credential " +:+ ht_CredentialName t +:+ " has no bot token (paste via dashboard)"))
          else
            let endpoint := HITLEndpointLabel (nr_Endpoint req) (nr_Host req) in
            let title := slackTrunc (HITLTitle (nr_Method req) endpoint) 140 in
            let post := mkSlackPost bot (ht_Channel t) "" (ht_ThreadTS t) ("clawpatrol: " +:+ title) (notify_blocks req t) in
            let '(n, res) := slackPostHITLMessage net in
            match res with
            | Err e => (Some (post, n), [], Some e)
            | Ok (channel, ts) =>
                if String.eqb channel "" || String.eqb ts "" then (Some (post, n), [], None)
                else
                  let ref := encodeSlackMessageRef (mkSlackRef "" (ht_CredentialName t) channel ts (ht_PendingID t) (ht_Interactive t) (ht_Message t)
                               (ht_Summary t) endpoint (HITLQueryLabel (nr_Endpoint req))) in
                  (Some (post, n),
                   (if fst sinks && negb (String.eqb (nr_AsyncOperationID req) "") then [OperationRef (nr_AsyncOperationID req) ref] else []) ++
                   (if snd sinks && negb (String.eqb (ht_PendingID t) "") then [PendingRef (ht_PendingID t) ref] else []), None)
            end
      end
  end.

(** ** Updates *)

Record HITLMessageUpdate := mkMessageUpdate {
  hu_MessageRef : string;
  hu_OperationID : string;
  hu_State : string;
  hu_Method : string;
  hu_Host : string;
  hu_Path : string;
  hu_UpstreamCalled : bool;
  hu_LastError : string;
  hu_DecidedBy : string
}.

(** [strings.NewReplacer] on single bytes. *)
Fixpoint slackMrkdwnEscape (s : string) : string :=
  match s with
  | EmptyString => ""
  | String c s' =>
      (if Ascii.eqb c "&" then "&amp;" else if Ascii.eqb c "<" then "&lt;" else if Ascii.eqb c ">" then "&gt;" else String c "") +:+ slackMrkdwnEscape s'
  end.

Definition slackDecidedBySuffix (by_ : string) : string :=
  let by_ := TrimSpace by_ in if String.eqb by_ "" then "" else " by " +:+ slackMrkdwnEscape (slackTrunc by_ 120).

(** [slackRedactStatusText]. *)
Context (redact : string -> string).

Definition slackOperationStatus (u : HITLMessageUpdate) : string :=
  let st := hu_State u in
  if String.eqb st OpStatePendingApproval then ":hourglass_flowing_sand: HITL approval is pending"
  else if String.eqb st OpStateApproved then ":white_check_mark: Approved" +:+ slackDecidedBySuffix (hu_DecidedBy u)
  else if String.eqb st OpStateApprovedWaitingForRetry then
    ":white_check_mark: Approved" +:+ slackDecidedBySuffix (hu_DecidedBy u) +:+ " — waiting for matching client retry"
  else if String.eqb st OpStateExecutingUpstream then ":arrow_forward: Matching retry received — executing upstream"
  else if String.eqb st OpStateUpstreamSucceeded then ":white_check_mark: Upstream request succeeded"
  else if String.eqb st OpStateUpstreamFailed then
    if negb (String.eqb (hu_LastError u) "") then ":x: Upstream request failed: " +:+ slackTrunc (redact (hu_LastError u)) 300
    else ":x: Upstream request failed"
  else if String.eqb st OpStateDenied then ":no_entry: Denied" +:+ slackDecidedBySuffix (hu_DecidedBy u)
  else if String.eqb st OpStateExpired then ":alarm_clock: HITL approval expired"
  else if String.eqb st OpStateClientDisconnected then
    ":warning: Original client disconnected before approval. The upstream request was not sent."
  else "HITL state: `" +:+ st +:+ "`".

Definition slackHITLUpdateBlocks (u : HITLMessageUpdate) (ref : slackMessageRef) : list Block :=
  let path := if String.eqb (hu_Path u) "" then "/" else hu_Path u in
  let endpoint := if String.eqb (sr_Endpoint ref) "" then hu_Host u else sr_Endpoint ref in
  let queryLabel := if String.eqb (sr_QueryLabel ref) "" then "Path" else sr_QueryLabel ref in
  let title := slackTrunc (HITLTitle (hu_Method u) endpoint) 140 in
  let guidance := HITLApprovalMessage (hu_State u) (HITLApprovalEffectForOperationState (hu_State u)) (hu_UpstreamCalled u) in
  slackHITLContentBlocks title queryLabel path (sr_Message ref) (sr_Summary ref) ++
  (if String.eqb (TrimSpace guidance) "" then [] else [section (slackTrunc guidance 1000)]) ++
  (if String.eqb (hu_State u) OpStatePendingApproval && sr_Interactive ref && negb (String.eqb (sr_PendingID ref) "") then [decision_buttons (sr_PendingID ref)] else []) ++
  [context [mrkdwn (slackOperationStatus u)]].

Definition slack_UpdateHITLMessage (secrets : option (string -> result Secret string)) (u : HITLMessageUpdate) (net : SlackNet)
    : option (SlackPost * nat) * option string :=
  match decodeSlackMessageRef (hu_MessageRef u) with
  | None => (None, None)
  | Some ref =>
      match secrets with
      | None => (None, Some "no secret store on request")
      | Some get =>
          match get (sr_Credential ref) with
          | Err e => (None, Some ("fetch credential " +:+ sr_Credential ref +:+ ": " +:+ e))
          | Ok sec =>
              let bot := bot_token sec in
              if String.eqb bot "" then (None, Some ("credential " +:+ sr_Credential ref +:+ " has no bot token"))
              else
                let '(n, res) := slackPostJSON "chat.update" net in
                (Some (mkSlackPost bot (sr_Channel ref) (sr_TS ref) "" ("clawpatrol: HITL " +:+ hu_State u) (slackHITLUpdateBlocks u ref), n),
                 match res with Err e => Some e | Ok _ => None end)
          end
      end
  end.
End SlackRefs.

(** *** Signal *)

(** [Timestamp] in the answer, or the error it carries. *)
Record SignalBody := mkSignalBody { gb_Raw : string; gb_Error : string; gb_Timestamp : string }.

Definition signalSendPath : string := "/v2/send".
Definition signalMessageMax : nat := 4000.

(** [signalSetBasicAuth]: the user and password, none for an empty slot. *)
Definition signalSetBasicAuth (auth : string) : result (option (string * string)) string :=
  if String.eqb auth "" then Ok None
  else let '(user, pass, ok) := CutByte auth ":" in
       if negb ok || String.eqb user "" then Err "signal_cli auth slot must be user:password" else Ok (Some (user, pass)).

Definition signalDecodeResponse (status : Z) (b : SignalBody) : result Z string :=
  if 300 <=? status then
    let msg := if String.eqb (gb_Error b) "" then TrimSpace (gb_Raw b) else gb_Error b in
    Err ("signal " +:+ signalSendPath +:+ " error: HTTP " +:+ print_int status +:+ ": " +:+ slackTrunc msg 300)
  else Ok (if String.eqb (gb_Timestamp b) "" then 0 else default 0 (Atoi (gb_Timestamp b))).

Definition signalDecodeDelete (status : Z) (b : SignalBody) : result unit string :=
  if status <? 300 then Ok tt
  else Err ("signal /v1/remote-delete error: HTTP " +:+ print_int status +:+ ": " +:+ slackTrunc (gb_Raw b) 300).

(** The wait is half a second, whatever the answer says. *)
Record SignalNet := mkSignalNet { gn_first : Reply SignalBody; gn_second : Reply SignalBody; gn_ends : option string }.

Definition ignore_close {B} (r : Reply B) : Reply B :=
  match r with GotReply status body retryAfter _ => GotReply status body retryAfter None | _ => r end.

(** [signalPostSend] and [signalRemoteDelete]: the requests made, with their
    basic authentication, and the outcome. *)
Definition signalPostSend (auth : string) (net : SignalNet) : nat * result Z string :=
  match signalSetBasicAuth auth with
  | Err e => (0%nat, Err e)
  | Ok _ => two_attempts signalDecodeResponse (gn_ends net) (gn_first net) (gn_second net)
  end.

Definition signalRemoteDelete (auth : string) (net : SignalNet) : nat * result unit string :=
  match signalSetBasicAuth auth with
  | Err e => (0%nat, Err e)
  | Ok _ => two_attempts signalDecodeDelete (gn_ends net) (ignore_close (gn_first net)) (ignore_close (gn_second net))
  end.

Definition signalHITLMessage (req : NotifyRequest) (t : HITLTarget) : string :=
  let title := HITLTitle (nr_Method req) (HITLEndpointLabel (nr_Endpoint req) (nr_Host req)) in
  let line (s : string) := s +:+ nl in
  let reason := TrimSpace (nr_Reason req) in
  let bs := TrimSpace (nr_BodySample req) in
  let g := slackHITLApprovalGuidance t in
  let b :=
    line ("clawpatrol: " +:+ slackTrunc title 200) +:+
    (if negb (String.eqb (TrimSpace (ht_Message t)) "") then nl +:+ line (slackTrunc (ht_Message t) 1500)
     else match ht_Summary t with
          | Some sm =>
              (if String.eqb (hs_Subject sm) "" then "" else nl +:+ line (slackTrunc (hs_Subject sm) 200)) +:+
              (if String.eqb (confidence_label sm) "" then "" else line ("Label: " +:+ confidence_label sm)) +:+
              (if String.eqb (hs_Summary sm) "" then "" else line ("Summary: " +:+ slackTrunc (hs_Summary sm) 500))
          | None =>
              if String.eqb (nr_Path req) "" then ""
              else nl +:+ line (HITLQueryLabel (nr_Endpoint req) +:+ ": " +:+ slackTrunc (nr_Path req) 800)
          end) +:+
    (if String.eqb (nr_Profile req) "" then "" else line ("agent: " +:+ slackTrunc (nr_Profile req) 80)) +:+
    (if String.eqb reason "" then "" else line ("reason: " +:+ slackTrunc reason 200)) +:+
    (if String.eqb bs "" then "" else nl +:+ line "Body:" +:+ line (slackTrunc bs 800)) +:+
    (if String.eqb g "" then "" else nl +:+ line (slackTrunc g 1000)) in
  TrimRightByte (slackTrunc b signalMessageMax) (ascii_of_nat 10) +:+ nl +:+ nl +:+ "Approve or deny: " +:+
    dashboard_link (ht_DashboardURL t) (ht_PendingID t).

Record signalMessageRef := mkSignalRef { gr_Type : string; gr_Credential : string; gr_Recipient : string; gr_TimestampMs : Z }.

(** A request to the REST API: at a URL, from a number, to a recipient. *)
Inductive SignalCall :=
  | SignalSend (url auth number recipient message : string)
  | SignalDelete (url auth recipient : string) (timestamp : Z).

(** The connection of a credential: base URL and number. *)
Definition signal_conn (sec : Secret) : string * string :=
  (TrimRightByte (default "" (sec_Extras sec !! "api_url")) "/", TrimSpace (default "" (sec_Extras sec !! "number"))).

(** [url.PathEscape]. *)
Fixpoint PathEscape (s : string) : string :=
  match s with
  | EmptyString => ""
  | String c s' =>
      if is_alnum c || one_of_bytes "-_.~$&+=:@" c then String c (PathEscape s')
      else String "%" (String (hex_digit (N_of_ascii c / 16)) (String (hex_digit (N_of_ascii c mod 16)) (PathEscape s')))
  end.

Section SignalRefs.
Context (marshal_signal : signalMessageRef -> string) (unmarshal_signal : string -> option signalMessageRef).

Definition encodeSignalMessageRef (r : signalMessageRef) : string :=
  marshal_signal (mkSignalRef "signal_cli" (gr_Credential r) (gr_Recipient r) (gr_TimestampMs r)).

Definition decodeSignalMessageRef (raw : string) : option signalMessageRef :=
  match unmarshal_signal raw with
  | None => None
  | Some r =>
      if negb (String.eqb (gr_Type r) "signal_cli") || String.eqb (gr_Credential r) "" || String.eqb (gr_Recipient r) "" || (gr_TimestampMs r <=? 0)
      then None else Some r
  end.

Definition signal_missing (credential : string) : string := "credential " +:+ credential +:+ " missing api_url or number (paste them via the dashboard)".

Definition signal_NotifyHITL (secrets : option (string -> result Secret string)) (sinks : bool * bool) (req : NotifyRequest) (t : HITLTarget) (net : SignalNet)
    : option (SignalCall * nat) * list SinkCall * option string :=
  match secrets with
  | None => (None, [], Some "no secret store on request")
  | Some get =>
      match get (ht_CredentialName t) with
      | Err e => (None, [], Some ("fetch credential " +:+ ht_CredentialName t +:+ ": " +:+ e))
      | Ok sec =>
          let '(apiURL, number) := signal_conn sec in
          let auth := default "" (sec_Extras sec !! "auth") in
          if String.eqb apiURL "" || String.eqb number "" then (None, [], Some (signal_missing (ht_CredentialName t)))
          else if String.eqb (TrimSpace (ht_Channel t)) "" then
            (None, [], Some ("human approver " +:+ ht_CredentialName t +:+ " has no channel (set it to a Signal recipient number or group.<id>)"))
          else
            let '(n, res) := signalPostSend auth net in
            let call := Some (SignalSend (apiURL +:+ signalSendPath) auth number (ht_Channel t) (signalHITLMessage req t), n) in
            match res with
            | Err e => (call, [], Some e)
            | Ok sentTS =>
                if 0 <? sentTS then
                  let ref := encodeSignalMessageRef (mkSignalRef "" (ht_CredentialName t) (ht_Channel t) sentTS) in
                  (call,
                   (if fst sinks && negb (String.eqb (nr_AsyncOperationID req) "") then [OperationRef (nr_AsyncOperationID req) ref] else []) ++
                   (if snd sinks && negb (String.eqb (ht_PendingID t) "") then [PendingRef (ht_PendingID t) ref] else []), None)
                else (call, [], None)
            end
      end
  end.

Definition signalDecided (state : string) : bool :=
  bool_decide (state ∈ [OpStateApproved; OpStateApprovedWaitingForRetry; OpStateDenied; OpStateExpired; OpStateClientDisconnected;
    OpStateExecutingUpstream; OpStateUpstreamSucceeded; OpStateUpstreamFailed]).

Definition signal_UpdateHITLMessage (deleteOnDecision : bool) (secrets : option (string -> result Secret string)) (u : HITLMessageUpdate) (net : SignalNet)
    : option (SignalCall * nat) * option string :=
  if negb deleteOnDecision || negb (signalDecided (hu_State u)) then (None, None)
  else match decodeSignalMessageRef (hu_MessageRef u) with
       | None => (None, None)
       | Some ref =>
           match secrets with
           | None => (None, Some "no secret store on request")
           | Some get =>
               match get (gr_Credential ref) with
               | Err e => (None, Some ("fetch credential " +:+ gr_Credential ref +:+ ": " +:+ e))
               | Ok sec =>
                   let '(apiURL, number) := signal_conn sec in
                   let auth := default "" (sec_Extras sec !! "auth") in
                   if String.eqb apiURL "" || String.eqb number "" then (None, Some (signal_missing (gr_Credential ref)))
                   else
                     let '(n, res) := signalRemoteDelete auth net in
                     (Some (SignalDelete (apiURL +:+ "/v1/remote-delete/" +:+ PathEscape number) auth (gr_Recipient ref) (gr_TimestampMs ref), n),
                      match res with Err e => Some e | Ok _ => None end)
               end
           end
       end.
End SignalRefs.

(** ** The update of a pending entry *)

(** The state [updatePendingHITLMessage] reports for a result. *)
Definition pending_state (p : HITLPending) (res : HITLResolveResult) : string :=
  if String.eqb (res_State res) HITLStateClientDisconnected then OpStateClientDisconnected
  else if String.eqb (res_State res) HITLStateApproved then
    if String.eqb (p_ApprovalEffect p) EffectCreateRetryGrant then OpStateApprovedWaitingForRetry else OpStateApproved
  else if String.eqb (res_State res) HITLStateDenied then OpStateDenied
  else OpStateExpired.

(** The credential whose message is updated: that of the first approver of the
    entry that has one. [human] is [HumanApproverCredential] of an approver the
    policy has, [updater] says whether the policy has a credential of that name
    with an updater. *)
Fixpoint update_credential (human : string -> option string) (approvers : list string) : string :=
  match approvers with
  | [] => ""
  | a :: rest =>
      match human a with
      | Some c => if String.eqb c "" then update_credential human rest else c
      | None => update_credential human rest
      end
  end.

Definition updatePendingHITLMessage (human : string -> option string) (updater : string -> bool) (mu : MessageUpdate) : option (string * HITLMessageUpdate) :=
  let p := mu_pending mu in
  let credName := update_credential human (p_Approvers p) in
  if String.eqb (mu_ref mu) "" || String.eqb credName "" || negb (updater credName) then None
  else Some (credName,
         mkMessageUpdate (mu_ref mu) (p_OperationID p) (pending_state p (mu_result mu)) (p_Method p) (p_Host p)
           (if String.eqb (p_Path p) "" then p_Endpoint p else p_Path p) (p_UpstreamCalled p) (res_Reason (mu_result mu)) (mu_decidedBy mu)).

End Prompts.

(** * What the notifiers guarantee *)

(** ** Templates *)

Section Templates.
Context (external : string -> bool) (sprint : Any -> string) (json_object : string -> option (list (string * Any))).

Notation expand := (expandMessage external sprint json_object).

Definition no_brace (s : string) : bool := str_forall (λ c, negb (Ascii.eqb c "{" || Ascii.eqb c "}")) s.

Lemma plain_run_app k r : no_brace k = true → plain_run (k +:+ "}}" +:+ r) = (k, "}}" +:+ r).
Proof.
  unfold no_brace. induction k as [|c k IH]; [done|]. cbn [str_forall]. intros [Hc Hk]%andb_true_iff. apply negb_true_iff in Hc.
  change (String c k +:+ "}}" +:+ r) with (String c (k +:+ "}}" +:+ r)). cbn [plain_run]. by rewrite Hc, (IH Hk).
Qed.

Lemma expand_skip vars a s : expand_from vars (String.length a) (a +:+ s) = expand_from vars 0 s.
Proof. induction a as [|c a IH]; [done|]. exact IH. Qed.

Lemma template_var_plain c s : Ascii.eqb c "{" = false → template_var (String c s) = None.
Proof. intros H. unfold template_var, CutPrefix. assert (HasPrefix (String c s) "{{" = false) as ->; [|done]. cbn [HasPrefix]. by rewrite Ascii.eqb_sym, H. Qed.

Lemma expand_plain vars pre s : no_brace pre = true → expand_from vars 0 (pre +:+ s) = pre +:+ expand_from vars 0 s.
Proof.
  unfold no_brace. induction pre as [|c pre IH]; [done|]. cbn [str_forall]. intros [Hc Hp]%andb_true_iff.
  apply negb_true_iff, orb_false_iff in Hc as [Hc _].
  change (String c pre +:+ s) with (String c (pre +:+ s)). cbn [expand_from]. rewrite template_var_plain by done. by rewrite (IH Hp).
Qed.

Lemma expand_var vars k s :
  k ≠ "" → no_brace k = true → expand_from vars 0 ("{{" +:+ k +:+ "}}" +:+ s) = default ("{{" +:+ k +:+ "}}") (vars !! TrimSpace k) +:+ expand_from vars 0 s.
Proof.
  intros Hne Hk. assert (template_var ("{{" +:+ k +:+ "}}" +:+ s) = Some k) as Ht.
  { unfold template_var. change (CutPrefix ("{{" +:+ k +:+ "}}" +:+ s) "{{") with (Some (k +:+ "}}" +:+ s)). cbv iota beta.
    rewrite (plain_run_app k s Hk). by destruct (String.eqb_spec k ""). }
  change ("{{" +:+ k +:+ "}}" +:+ s) with (String "{" (String "{" (k +:+ "}}" +:+ s))) in Ht |- *.
  assert (String.length k + 3 = String.length ("{" +:+ k +:+ "}}"))%nat as Hl by (rewrite !str_length_app; cbn; lia).
  assert (String "{" (k +:+ "}}" +:+ s) = ("{" +:+ k +:+ "}}") +:+ s) as Hs by (by rewrite !str_app_assoc).
  transitivity (default ("{{" +:+ k +:+ "}}") (vars !! TrimSpace k) +:+ expand_from vars (String.length k + 3) (String "{" (k +:+ "}}" +:+ s))).
  - remember (String "{" (k +:+ "}}" +:+ s)) as rest. cbn [expand_from]. by rewrite Ht.
  - by rewrite Hl, Hs, expand_skip.
Qed.

(** A placeholder is replaced by its value, an unknown one stays; the text of a
    value is not read as a template. *)
Theorem expandMessage_spec pre k post req :
  no_brace pre = true → no_brace k = true → k ≠ "" →
  expand (pre +:+ "{{" +:+ k +:+ "}}" +:+ post) req =
  pre +:+ default ("{{" +:+ k +:+ "}}") (buildTemplateVars external sprint json_object req !! TrimSpace k) +:+ expand post req.
Proof. intros Hp Hk Hne. unfold expandMessage. rewrite expand_plain by done. by rewrite expand_var. Qed.

(** [{{profile}}] shows the address of the agent, whatever its profile. *)
Theorem profile_shows_address req : nr_Request req = None → expand "{{profile}}" req = nr_AgentIP req.
Proof.
  intros H. change "{{profile}}" with ("" +:+ "{{" +:+ "profile" +:+ "}}" +:+ ""). rewrite expandMessage_spec by done. unfold buildTemplateVars, expandMessage. rewrite H.
  unfold common_vars. cbn [list_to_map foldr]. change (TrimSpace "profile") with "profile". cbn. rewrite lookup_insert_eq. cbn. by rewrite str_app_nil_r.
Qed.
End Templates.

(** Two orders in which a [range] may visit the same body, and what the prompt
    then says about it. *)
Definition demo_template_request : NotifyRequest := mkNotifyRequest None "" "" "" "" "" "" "" "" (Some ([], "{}")).
Definition demo_inner : list (string * Any) := [("id", AString "prod")].

(** A body may have a field with a dot in its name beside a nested one: which of
    the two the operator reads as [{{body_json.db.id}}] depends on the order in
    which the runtime visits the map. *)
Theorem body_field_ambiguous :
  let show m := expandMessage (λ _, false) (λ _, "") (λ _, Some m) "{{body_json.db.id}}" demo_template_request in
  let nested := ("db", AMap demo_inner) in
  let dotted := ("db.id", AString "staging") in
  show [nested; dotted] = "staging" ∧ show [dotted; nested] = "prod".
Proof. split; vm_compute; reflexivity. Qed.

(** ** Messages *)

Definition no_angle (s : string) : bool := str_forall (λ c, negb (Ascii.eqb c "<" || Ascii.eqb c ">")) s.

Lemma slackMrkdwnEscape_no_angle s : no_angle (slackMrkdwnEscape s) = true.
Proof.
  unfold no_angle. induction s as [|c s IH]; [done|]. cbn [slackMrkdwnEscape]. rewrite str_forall_app, IH, andb_true_r.
  destruct (Ascii.eqb c "&"); [done|]. destruct (Ascii.eqb c "<") eqn:E1; [done|]. destruct (Ascii.eqb c ">") eqn:E2; [done|].
  cbn. by rewrite E1, E2.
Qed.

(** The name of the operator cannot become a mention in a status line. *)
Theorem decided_by_no_mention by_ : no_angle (slackDecidedBySuffix by_) = true.
Proof.
  unfold slackDecidedBySuffix. destruct (String.eqb _ _); [done|]. unfold no_angle. rewrite str_forall_app. cbn. apply slackMrkdwnEscape_no_angle.
Qed.

Lemma slackTrunc_length s n : (String.length (slackTrunc s n) <= n + 3)%nat.
Proof.
  unfold slackTrunc. destruct (Nat.ltb_spec n (String.length (TrimSpace s))); [|lia].
  rewrite str_length_app, str_length_take by lia. cbn. lia.
Qed.

(** The text of a section. *)
Definition section_text (b : list (string * Any)) : option string :=
  match field "type" b, field "text" b with
  | Some (AString "section"), Some (AMap m) => match field "text" m with Some (AString t) => Some t | _ => None end
  | _, _ => None
  end.

(** Characters of a UTF-8 text: the bytes that continue none. *)
Fixpoint chars (s : string) : Z :=
  match s with
  | EmptyString => 0
  | String c s' => (if ((128 <=? N_of_ascii c) && (N_of_ascii c <? 192))%N then 0 else 1) + chars s'
  end.

Lemma chars_length s : chars s <= Z.of_nat (String.length s).
Proof. induction s as [|c s IH]; cbn [chars String.length]; [lia|]. case_match; lia. Qed.

(** What Slack accepts in a section, by the comment on [slackSectionTextMax]. *)
Definition fits (b : list (string * Any)) : Prop := ∀ t, section_text b = Some t → chars t <= 3000.

Lemma fits_section t : Z.of_nat (String.length t) <= 3000 → fits (section t).
Proof. intros H t' [= <-]. pose proof (chars_length t). lia. Qed.

Lemma HITLQueryLabel_short external ep : (String.length (HITLQueryLabel external ep) <= 8)%nat.
Proof.
  unfold HITLQueryLabel, facet_labels. destruct ep as [e|]; [|cbn; lia].
  repeat case_match; simplify_eq; cbn; lia.
Qed.

Lemma fenced_length label s : (String.length label <= 20)%nat → Z.of_nat (String.length (label +:+ nl +:+ fenced (slackTrunc s slackSectionTextMax))) <= 3000.
Proof.
  intros H. pose proof (slackTrunc_length s slackSectionTextMax) as Hl. unfold fenced. rewrite !str_length_app.
  change (String.length nl) with 1%nat. change (String.length fence) with 3%nat.
  assert (Z.of_nat slackSectionTextMax = 2800) by (by vm_compute). lia.
Qed.

(** A prompt without a template and without a classifier's summary is one Slack
    accepts, however long the path, the body and the guidance are. *)
Theorem plain_prompt_fits external req t : ht_Message t = "" → ht_Summary t = None → Forall fits (notify_blocks external req t).
Proof.
  intros Hm Hs. unfold notify_blocks, slackHITLContentBlocks. rewrite Hm, Hs. cbn [negb String.eqb].
  rewrite !Forall_app. split_and!.
  - apply Forall_cons. split; [done|]. apply Forall_singleton, fits_section.
    pose proof (HITLQueryLabel_short external (nr_Endpoint req)) as Hq.
    replace ("*" +:+ HITLQueryLabel external (nr_Endpoint req) +:+ "*" +:+ nl +:+ fenced (slackTrunc (nr_Path req) slackSectionTextMax))
      with (("*" +:+ HITLQueryLabel external (nr_Endpoint req) +:+ "*") +:+ nl +:+ fenced (slackTrunc (nr_Path req) slackSectionTextMax))
      by (by rewrite !str_app_assoc).
    apply fenced_length. rewrite !str_length_app. cbn. lia.
  - case_match; [constructor|]. by apply Forall_singleton.
  - case_match; [constructor|]. apply Forall_singleton, fits_section, (fenced_length "*Body*"). cbn. lia.
  - case_match; [constructor|]. apply Forall_singleton, fits_section. pose proof (slackTrunc_length (slackHITLApprovalGuidance t) 1000). lia.
  - apply Forall_singleton. by destruct (ht_Interactive t).
Qed.

(** A template's text is cut to the whole of the limit, and the ellipsis comes on
    top: a message of 3001 characters makes a section of 3001. *)
Theorem long_message_does_not_fit external req t :
  ∃ message, chars message = 3001 ∧ ∃ b, b ∈ slackHITLContentBlocks "title" (HITLQueryLabel external (nr_Endpoint req)) (nr_Path req) message (ht_Summary t) ∧ ¬ fits b.
Proof.
  exists (String.string_of_list_ascii (repeat "a"%char 3001)). split; [by vm_compute|].
  exists (section (slackTrunc (String.string_of_list_ascii (repeat "a"%char 3001)) 3000)). split; [right; left|].
  intros H. specialize (H _ eq_refl). revert H. by vm_compute.
Qed.

(** The link an operator needs is the end of a Signal prompt, however long the
    rest was, and the rest is bounded. *)
Theorem signal_link_kept external req t :
  ∃ content, signalHITLMessage external req t = content +:+ nl +:+ nl +:+ "Approve or deny: " +:+ dashboard_link (ht_DashboardURL t) (ht_PendingID t) ∧
    Z.of_nat (String.length content) <= 4003.
Proof.
  unfold signalHITLMessage. eexists. split; [reflexivity|]. unfold TrimRightByte. set (b := slackTrunc _ signalMessageMax).
  destruct (trim_right_by_spec (Ascii.eqb (ascii_of_nat 10)) b) as (r & Hb & _).
  assert (String.length (trim_right_by (Ascii.eqb (ascii_of_nat 10)) b) <= String.length b)%nat as Hle by (rewrite Hb at 2; rewrite str_length_app; lia).
  assert (String.length b <= signalMessageMax + 3)%nat as Hl by apply slackTrunc_length.
  assert (Z.of_nat signalMessageMax = 4000) by (by vm_compute). lia.
Qed.

(** ** Requests *)

(** A message is sent at most twice, and the second time only after no answer, a
    rate limit or a server error; a reported success is a success of the last
    request. *)
Theorem two_attempts_spec {B A} (decode : Z -> B -> result A string) waited a b n x :
  two_attempts decode waited a b = (n, x) →
  (1 <= n <= 2)%nat ∧ (n = 2%nat → slackShouldRetryPostMessage a = true ∧ waited = None) ∧
  (∀ v, x = Ok v → ∃ status body retryAfter, (if (n =? 1)%nat then a else b) = GotReply status body retryAfter None ∧ decode status body = Ok v).
Proof.
  assert (∀ (r : Reply B) v, try_reply decode r = Ok v → ∃ status body retryAfter, r = GotReply status body retryAfter None ∧ decode status body = Ok v) as Htry.
  { intros [e|status body ra [e|]] v; cbn; [done|by destruct (decode status body)|]. destruct (decode status body) eqn:E; [|done]. intros [= <-]. eauto. }
  unfold two_attempts. destruct (try_reply decode a) as [v|e] eqn:Ea.
  { intros [= <- <-]. split_and!; [lia..|done|]. intros v' [= <-]. by apply Htry. }
  destruct (slackShouldRetryPostMessage a) eqn:Er; cbn [negb]; [|intros [= <- <-]; by split_and!; [lia..|done|]].
  destruct waited; [intros [= <- <-]; by split_and!; [lia..|done|]|]. intros [= <- <-]. split_and!; [lia..|done|]. intros v. apply Htry.
Qed.

(** A second attempt after a request without an answer may leave two prompts, of
    which only the second is recorded: the first can have been delivered. *)
Example repeated_post :
  slackPostHITLMessage (mkSlackNet (NoReply "timeout") (GotReply 200 (mkSlackBody true "" "C" "2") "" None) (λ _, None)) = (2%nat, Ok ("C", "2")).
Proof. reflexivity. Qed.

(** ** Secrets *)

(** What is recorded about a message, and what it says, do not depend on the
    token or the connection it was sent with. *)
Theorem notifiers_record_no_secret external marshal_slack marshal_signal sinks req t net net' sec1 sec2 :
  (bot_token sec1 ≠ "" → bot_token sec2 ≠ "" →
   let out sec := slack_NotifyHITL external marshal_slack (Some (λ _, Ok sec)) sinks req t net in
   (out sec1).1.2 = (out sec2).1.2 ∧ (sp_Blocks ∘ fst) <$> (out sec1).1.1 = (sp_Blocks ∘ fst) <$> (out sec2).1.1) ∧
  ((signal_conn sec1).1 ≠ "" → (signal_conn sec1).2 ≠ "" → (signal_conn sec2).1 ≠ "" → (signal_conn sec2).2 ≠ "" →
   is_ok (signalSetBasicAuth (default "" (sec_Extras sec1 !! "auth"))) = is_ok (signalSetBasicAuth (default "" (sec_Extras sec2 !! "auth"))) →
   let out sec := signal_NotifyHITL external marshal_signal (Some (λ _, Ok sec)) sinks req t net' in (out sec1).1.2 = (out sec2).1.2).
Proof.
  split.
  - intros H1 H2 out. unfold out, slack_NotifyHITL. destruct (String.eqb_spec (bot_token sec1) ""); [done|]. destruct (String.eqb_spec (bot_token sec2) ""); [done|].
    destruct (slackPostHITLMessage net) as [k [[c ts]|e]]; [destruct (_ || _)|]; done.
  - intros H1 H2 H3 H4 Ha out. unfold out, signal_NotifyHITL, signalPostSend.
    destruct (signal_conn sec1) as [u1 n1], (signal_conn sec2) as [u2 n2]. cbn [fst snd] in *.
    destruct (String.eqb_spec u1 ""), (String.eqb_spec n1 ""), (String.eqb_spec u2 ""), (String.eqb_spec n2 ""); try done. cbn [orb].
    destruct (String.eqb (TrimSpace (ht_Channel t)) ""); [done|].
    destruct (signalSetBasicAuth (default "" (sec_Extras sec1 !! "auth"))), (signalSetBasicAuth (default "" (sec_Extras sec2 !! "auth"))); try done.
    destruct (two_attempts _ _ _ _) as [k [ts|e]]; [destruct (0 <? ts)|]; done.
Qed.

(** ** Updates *)

(** The state reported for a pending entry: approved only if the decision was
    to approve, denied only if it was to deny, and always one in which the
    entry is decided. *)
Theorem pending_state_honest p res :
  (pending_state p res ∈ [OpStateApproved; OpStateApprovedWaitingForRetry] ↔ res_State res = HITLStateApproved) ∧
  (pending_state p res = OpStateDenied ↔ res_State res = HITLStateDenied) ∧
  signalDecided (pending_state p res) = true.
Proof.
  unfold pending_state.
  destruct (String.eqb_spec (res_State res) HITLStateClientDisconnected) as [->|H1]; [|destruct (String.eqb_spec (res_State res) HITLStateApproved) as [->|H2];
    [destruct (String.eqb (p_ApprovalEffect p) EffectCreateRetryGrant)|destruct (String.eqb_spec (res_State res) HITLStateDenied) as [->|H3]]];
    rewrite !elem_of_cons, elem_of_nil; split_and!; try done; split; intros H; try done; first [by destruct H as [H|[H|[]]] | by auto].
Qed.

(** A prompt in Signal is deleted only once its operation is decided, and only
    if the credential asks for it. *)
Theorem signal_deletes_decided unmarshal_signal deletes secrets u net call n err :
  signal_UpdateHITLMessage unmarshal_signal deletes secrets u net = (Some (call, n), err) →
  deletes = true ∧ hu_State u ≠ OpStatePendingApproval ∧ hu_State u ≠ OpStateSyncWaiting.
Proof.
  unfold signal_UpdateHITLMessage. destruct deletes; [|done]. cbn [negb orb].
  destruct (signalDecided (hu_State u)) eqn:E; [|done]. intros _. split; [done|]. split; intros Hs; rewrite Hs in E; done.
Qed.

(** An updated prompt in Slack keeps its buttons exactly while the approval is
    pending and the prompt had them. *)
Theorem update_buttons_while_pending redact u ref id :
  decision_buttons id ∈ slackHITLUpdateBlocks redact u ref ↔
  hu_State u = OpStatePendingApproval ∧ sr_Interactive ref = true ∧ sr_PendingID ref ≠ "" ∧ id = sr_PendingID ref.
Proof.
  unfold slackHITLUpdateBlocks. rewrite !elem_of_app.
  assert (∀ a b c d e, decision_buttons id ∉ slackHITLContentBlocks a b c d e) as Hc.
  { intros a b c d e. unfold slackHITLContentBlocks. destruct (negb _); [|destruct e]; intros [H|[H|[]%elem_of_nil]%elem_of_cons]%elem_of_cons; discriminate H. }
  split.
  - intros [H|[H|[H|H]]]; [by apply Hc in H| | |].
    + destruct (String.eqb _ _); [by apply elem_of_nil in H|]. apply list_elem_of_singleton in H. discriminate H.
    + destruct (_ && _) eqn:E; [|by apply elem_of_nil in H]. apply list_elem_of_singleton in H. injection H as ->.
      apply andb_true_iff in E as [[E1 E2]%andb_true_iff E3]. apply String.eqb_eq in E1. apply negb_true_iff, String.eqb_neq in E3. done.
    + apply list_elem_of_singleton in H. discriminate H.
  - intros (-> & -> & Hne & ->). right. right. left. destruct (String.eqb_spec (sr_PendingID ref) ""); [done|]. cbn. by left.
Qed.

(** ** References *)

Section Refs.
(** [encoding/json] reads back what it wrote. *)
Context (marshal_slack : slackMessageRef -> string) (unmarshal_slack : string -> option slackMessageRef)
  (json_roundtrip : ∀ r, unmarshal_slack (marshal_slack r) = Some r).

(** The reference recorded for a posted message leads a later update to that
    message and to the credential that posted it. *)
Theorem slack_ref_roundtrip external secrets sinks req t net post n calls ref redact get u net' :
  slack_NotifyHITL external marshal_slack secrets sinks req t net = (Some (post, n), calls, None) →
  ref ∈ calls → hu_MessageRef u = (match ref with OperationRef _ r | PendingRef _ r => r end) → ht_CredentialName t ≠ "" →
  ∃ channel ts, slackPostHITLMessage net = (n, Ok (channel, ts)) ∧
    ∀ sec, get (ht_CredentialName t) = Ok sec → bot_token sec ≠ "" →
      ∃ p k err, slack_UpdateHITLMessage unmarshal_slack redact (Some get) u net' = (Some (p, k), err) ∧
        sp_Channel p = channel ∧ sp_TS p = ts ∧ sp_Token p = bot_token sec.
Proof.
  unfold slack_NotifyHITL. destruct secrets as [g|]; [|done]. destruct (g _); [|done]. destruct (String.eqb _ _); [done|].
  destruct (slackPostHITLMessage net) as [m [[channel ts]|e]]; [|done].
  destruct (String.eqb_spec channel "") as [|Hc]; [intros [= <- <- <-]; by intros ?%elem_of_nil|].
  destruct (String.eqb_spec ts "") as [|Hts]; [intros [= <- <- <-]; by intros ?%elem_of_nil|]. cbn [orb].
  intros [= <- <- <-] Hin Hu Hn. exists channel, ts. split; [done|]. intros sec Hsec Hbot.
  assert (decodeSlackMessageRef unmarshal_slack (hu_MessageRef u) = Some (mkSlackRef "slack" (ht_CredentialName t) channel ts (ht_PendingID t) (ht_Interactive t)
    (ht_Message t) (ht_Summary t) (HITLEndpointLabel external (nr_Endpoint req) (nr_Host req)) (HITLQueryLabel external (nr_Endpoint req)))) as Hd.
  { assert (hu_MessageRef u = encodeSlackMessageRef marshal_slack (mkSlackRef "" (ht_CredentialName t) channel ts (ht_PendingID t) (ht_Interactive t)
      (ht_Message t) (ht_Summary t) (HITLEndpointLabel external (nr_Endpoint req) (nr_Host req)) (HITLQueryLabel external (nr_Endpoint req)))) as ->.
    { rewrite Hu. apply elem_of_app in Hin as [Hin|Hin]; (destruct (_ && _) in Hin; [|by apply elem_of_nil in Hin]); by apply list_elem_of_singleton in Hin as ->. }
    unfold decodeSlackMessageRef, encodeSlackMessageRef. rewrite json_roundtrip. cbn.
    destruct (String.eqb_spec (ht_CredentialName t) ""), (String.eqb_spec channel ""), (String.eqb_spec ts ""); done. }
  unfold slack_UpdateHITLMessage. rewrite Hd. cbn [sr_Credential]. rewrite Hsec. destruct (String.eqb_spec (bot_token sec) ""); [done|].
  destruct (slackPostJSON "chat.update" net') as [k x]. eexists _, _, _. by split_and!.
Qed.
End Refs.
