(* ===== verification/SlackHook.v ===== *)
(** * Decisions from Slack: the webhook of [credentials/slack.go]

    The handler that [mountCredentialWebhooks] of [cmd/clawpatrol/web.go] mounts,
    without a session of the dashboard, for every Slack credential. Who may decide
    a pending approval through it, what a click decides, and what the message
    then shows; and the probe that tells the dashboard whether the stored tokens
    work ([Secrets]). The pool is the gateway's registry ([HitlRegistry]);
    [encoding/json] and HMAC are parameters. *)
From S2P Require Import Prelude GoStrings NetAddr GoUrl GoHttp GoEncode DashboardAuth Policy HitlStore Fingerprint HitlRegistry Approver ApproverProps Llm RequestLoop Credentials Secrets OAuth Notify.

Notation Block := (list (string * Any)).

(** ** The form *)

Fixpoint slackFormDecode (s : string) : option string :=
  match s with
  | EmptyString => Some ""
  | String c s1 =>
      if Ascii.eqb c "+" then String " " <$> slackFormDecode s1
      else if Ascii.eqb c "%" then
        match s1 with
        | String a (String b s2) =>
            match hex_value a, hex_value b with
            | Some x, Some y => String (ascii_of_N (16 * x + y)) <$> slackFormDecode s2
            | _, _ => None
            end
        | _ => None
        end
      else String c <$> slackFormDecode s1
  end.

(** Keys are taken as they are; a later pair wins; a pair without [=] is passed over. *)
Fixpoint parse_pairs (out : gmap string string) (l : list string) : option (gmap string string) :=
  match l with
  | [] => Some out
  | kv :: rest =>
      match IndexByte kv "=" with
      | None => parse_pairs out rest
      | Some eq =>
          match slackFormDecode (str_drop (S eq) kv) with
          | None => None
          | Some v => parse_pairs (<[str_take eq kv := v]> out) rest
          end
      end
  end.

Definition parseSlackForm (body : string) : option (gmap string string) := parse_pairs ∅ (SplitByte body "&").

(** ** The signature *)

(** [strconv.ParseInt] with its error dropped: zero for what is no number, the
    nearest value for what does not fit. *)
Definition ParseInt_value (s : string) : Z :=
  let '(neg, digits) :=
    match s with
    | String c s' => if Ascii.eqb c "-" then (true, s') else if Ascii.eqb c "+" then (false, s') else (false, s)
    | EmptyString => (false, s)
    end in
  if negb (String.eqb digits "") && str_forall is_digit digits then
    let n := if neg : bool then - GoStrings.digits_value 0 digits else GoStrings.digits_value 0 digits in
    Z.max (- 2 ^ 63) (Z.min n (2 ^ 63 - 1))
  else 0.

(** [time.Unix(sec, 0)] in nanoseconds of the epoch: the sum with the seconds
    since year one may overflow. *)
Definition unixToInternal : Z := 62135596800.
Definition time_Unix (sec : Z) : Z := (int64 (sec + unixToInternal) - unixToInternal) * second.

Definition slack_stale (now : Z) (ts : string) : bool :=
  let tsi := ParseInt_value ts in (tsi =? 0) || (300 * second <? now - time_Unix tsi).

Section Hook.
Context (hmac : string -> string -> string).

Definition signature_base (ts body : string) : string := "v0:" +:+ ts +:+ ":" +:+ body.

Definition verifySlackSig (signingSecret ts body got : string) : bool :=
  String.eqb ("v0=" +:+ hex_encode (hmac signingSecret (signature_base ts body))) got.

(** ** The message after the decision *)

Definition slackHITLStatus (res : HITLResolveResult) (allow : bool) (user : string) : string :=
  if res_OK res then
    if allow then ":white_check_mark: approved by <@" +:+ user +:+ ">" else ":no_entry: denied by <@" +:+ user +:+ ">"
  else if String.eqb (res_State res) HITLStateClientDisconnected then
    ":warning: Request is no longer active. The original client connection closed before approval, so the upstream request was not sent."
  else if String.eqb (res_State res) HITLStateTimedOut then ":hourglass_flowing_sand: Approval expired. The upstream request was not sent."
  else if String.eqb (res_State res) HITLStateApproved then ":white_check_mark: This request was already approved."
  else if String.eqb (res_State res) HITLStateDenied then ":no_entry: This request was already denied."
  else if String.eqb (res_State res) HITLStateCanceled then
    if negb (String.eqb (res_Reason res) "") then ":warning: Approval canceled. " +:+ res_Reason res
    else ":warning: Approval canceled. The upstream request was not sent."
  else "Already resolved or expired.".

Definition slackResolvedApprovalGuidance (res : HITLResolveResult) (allow : bool) : string :=
  if negb (res_OK res) then ""
  else if allow && Contains (res_Reason res) "waiting for matching client retry" then
    HITLApprovalMessage OpStateApprovedWaitingForRetry EffectCreateRetryGrant false
  else if negb allow then HITLApprovalMessage OpStateDenied EffectCreateRetryGrant false
  else "".

Definition slackKnownApprovalGuidanceMessages : list string :=
  (λ m, TrimSpace (slackTrunc m 1000)) <$>
  [HITLApprovalMessage OpStateSyncWaiting EffectExecuteUpstream false;
   HITLApprovalMessage OpStatePendingApproval EffectCreateRetryGrant false;
   HITLApprovalMessage OpStateApprovedWaitingForRetry EffectCreateRetryGrant false;
   HITLApprovalMessage OpStateDenied EffectCreateRetryGrant false;
   HITLApprovalMessage OpStateExpired EffectCreateRetryGrant false;
   HITLApprovalMessage OpStateClientDisconnected EffectCreateRetryGrant false;
   HITLApprovalMessage "" EffectCreateRetryGrant false].

(** The [text] of a map, when it is a string. *)
Definition text_of (m : Block) : list string := match field "text" m with Some (AString v) => [v] | _ => [] end.

Definition slackBlockText (b : Block) : string :=
  Join ((match field "text" b with Some (AMap m) => text_of m | _ => [] end) ++
        (match field "elements" b with Some (AMaps l) => l ≫= text_of | _ => [] end)) nl.

Definition slackIsApprovalGuidanceBlock (b : Block) : bool :=
  let text := TrimSpace (slackBlockText b) in
  negb (String.eqb text "") && bool_decide (text ∈ slackKnownApprovalGuidanceMessages).

Definition is_actions (b : Block) : bool := match field "type" b with Some (AString t) => String.eqb t "actions" | _ => false end.

Definition withStatusBlock (blocks : list Block) (status guidance : string) : list Block :=
  List.filter (λ b, negb (is_actions b || slackIsApprovalGuidanceBlock b)) blocks ++
  (if String.eqb (TrimSpace guidance) "" then [] else [section (slackTrunc guidance 1000)]) ++
  [context [mrkdwn status]].

(** ** The handler *)

(** A decoded payload: user, response URL, actions as id and value, blocks. *)
Record Payload := mkPayload { pl_User : string; pl_ResponseURL : string; pl_Actions : list (string * string); pl_Blocks : list Block }.

Inductive HookOutcome :=
  (** an error status; an answer without a decision *)
  | Refused (status : Z) (msg : string)
  | Acked (text : string)
  (** the call of the pool with its result, the messages it updates, and what is
      posted to the response URL *)
  | Decided (id : string) (d : HITLDecision) (res : HITLResolveResult) (updates : list MessageUpdate) (post : option (string * string * list Block)).

(** A state of the pool. *)
Notation Pool := (HITLRegistry * Chans)%type.

Context (unmarshal : string -> option Payload) (resolver : option (string -> HITLDecision -> HITLResolveResult)).

(** [None] when the send to the waiting request blocks. *)
Definition applySlackInteractivePayload (now : Z) (payload : string) (w : Pool) : option (Pool * HookOutcome) :=
  match unmarshal payload with
  | None => Some (w, Acked "couldn't parse payload")
  | Some p =>
      match pl_Actions p with
      | [] => Some (w, Acked "no actions")
      | (actionID, value) :: _ =>
          if String.eqb value "" then Some (w, Acked "missing pending id")
          else
            let allow := String.eqb actionID "approve" in
            let d := mkHITLDecision allow "" ("slack:" +:+ pl_User p) in
            match DecideWithResult resolver now value d w.1 w.2 with
            | None => None
            | Some (r', h', res, us) =>
                let status := slackHITLStatus res allow (pl_User p) in
                Some ((r', h'), Decided value d res us
                  (if String.eqb (pl_ResponseURL p) "" then None
                   else Some (pl_ResponseURL p, status, withStatusBlock (pl_Blocks p) status (slackResolvedApprovalGuidance res allow))))
            end
      end
  end.

(** What [io.LimitReader] lets through. *)
Definition limit_body (body : string) : string := if Z.of_nat (String.length body) <=? 2 ^ 20 then body else str_take (Z.to_nat (2 ^ 20)) body.

Definition slackInteractive (secrets : string -> result Secret string) (credName : string) (now : Z) (r : WebRequest) (body : string) (w : Pool)
    : option (Pool * HookOutcome) :=
  if negb (String.eqb (wq_Method r) "POST") then Some (w, Refused 405 "POST")
  else
    let body := limit_body body in
    let ts := header_Get (wq_Header r) "X-Slack-Request-Timestamp" in
    let sig := header_Get (wq_Header r) "X-Slack-Signature" in
    if String.eqb ts "" || String.eqb sig "" then Some (w, Refused 401 "missing slack signature headers")
    else if slack_stale now ts then Some (w, Refused 401 "stale slack signature")
    else
      let verified :=
        match secrets credName with
        | Ok sec => let s := default "" (sec_Extras sec !! "signing_secret") in negb (String.eqb s "") && verifySlackSig s ts body sig
        | Err _ => false
        end in
      if negb verified then Some (w, Refused 401 "slack signature verification failed")
      else match parseSlackForm body with
           | None => Some (w, Refused 400 "parse")
           | Some form =>
               let payload := default "" (form !! "payload") in
               if String.eqb payload "" then Some (w, Refused 400 "no payload")
               else applySlackInteractivePayload now payload w
           end.

(** [mountCredentialWebhooks]: the paths, each with its credential, for the
    credentials whose body provides webhooks. *)
Definition mountCredentialWebhooks (creds : list (string * bool)) : list (string * string) :=
  omap (λ c, if snd c : bool then Some (credentialWebhookPrefix +:+ fst c +:+ "/interactive", fst c) else None) creds.
End Hook.

(** ** Probing the tokens *)

Definition slackErrorRejectsToken (code : string) : bool :=
  bool_decide (code ∈ ["invalid_auth"; "not_authed"; "account_inactive"; "token_revoked"; "token_expired"; "not_allowed_token_type"]).

(** An answer of [auth.test]: none, or status, [ok] and [error]. *)
Inductive AuthTest := TestFailed (err : string) | Tested (status : Z) (ok : bool) (error : string).

Definition slackAuthTest (a : AuthTest) : VerifyResult :=
  match a with
  | TestFailed err => VerifyInconclusive err
  | Tested status ok error =>
      let http := "slack auth.test: HTTP " +:+ print_int status in
      if (status =? 429) || (500 <=? status) then VerifyInconclusive http
      else if (status =? 401) || (status =? 403) then
        if negb (slackErrorRejectsToken error) then
          VerifyInconclusive (if negb (String.eqb error "") then "slack auth.test: " +:+ error else http)
        else VerifyRejected ("slack auth.test: " +:+ error)
      else if 400 <=? status then VerifyInconclusive http
      else if negb ok then
        if String.eqb error "" then VerifyInconclusive (http +:+ " with ok=false")
        else if slackErrorRejectsToken error then VerifyRejected ("slack auth.test: " +:+ error)
        else VerifyInconclusive ("slack auth.test: " +:+ error)
      else VerifyOK
  end.

(** The tokens that are probed, with their labels. *)
Definition slack_probes (sec : Secret) : list (string * string) :=
  let bot := default "" (sec_Extras sec !! "bot") in
  let app := default "" (sec_Extras sec !! "app") in
  (if negb (String.eqb bot "") then [("bot", bot)] else if negb (String.eqb (sec_Bytes sec) "") then [("bot", sec_Bytes sec)] else []) ++
  (if negb (String.eqb app "") then [("app", app)] else []).

(** The first token that does not pass decides. *)
Fixpoint probe_tokens (test : string -> AuthTest) (l : list (string * string)) : VerifyResult :=
  match l with
  | [] => VerifyOK
  | (label, tok) :: rest =>
      match slackAuthTest (test tok) with
      | VerifyRejected reason => VerifyRejected (label +:+ " token: " +:+ reason)
      | VerifyInconclusive msg => VerifyInconclusive (label +:+ " token: " +:+ msg)
      | VerifyOK => probe_tokens test rest
      end
  end.

Definition slack_VerifyCredential (test : string -> AuthTest) (sec : Secret) : VerifyResult :=
  let probes := slack_probes sec in
  match probes with [] => VerifyRejected "no bot token to verify" | _ => probe_tokens test probes end.

(** * What a click in Slack can do *)

(** ** The form *)

Lemma slackFormDecode_unescape s : slackFormDecode s = QueryUnescape s.
Proof.
  unfold QueryUnescape. revert s. fix IH 1. intros [|c s]; [done|]. cbn [slackFormDecode].
  destruct (Ascii.eqb c "%") eqn:Hq.
  - apply Ascii.eqb_eq in Hq as ->. cbn. destruct s as [|a [|b s]]; [done..|].
    destruct (hex_value a), (hex_value b); try done. rewrite IH. by destruct (unescape true s).
  - rewrite unescape_plus by done. rewrite IH. by destruct (Ascii.eqb c "+").
Qed.

(** The body Slack sends for a payload is read back as that payload, whatever
    bytes it has. *)
Theorem slack_form_roundtrip payload :
  parseSlackForm ("payload=" +:+ QueryEscape payload) = Some {["payload" := payload]}.
Proof.
  assert (IndexByte (QueryEscape payload) "&" = None) as Ha.
  { apply plain_no_byte; [done|]. apply QueryEscape_plain. }
  unfold parseSlackForm. rewrite SplitByte_single.
  - cbn -[slackFormDecode QueryEscape]. by rewrite slackFormDecode_unescape, QueryUnescape_escaped, insert_empty.
  - cbn. by rewrite Ha.
Qed.

(** ** Signatures *)

Lemma ParseInt_value_no_colon ts : ParseInt_value ts ≠ 0 → no_byte ":" ts = true.
Proof.
  unfold ParseInt_value, no_byte.
  assert (∀ d, negb (String.eqb d "") && str_forall is_digit d = true → str_forall (λ c, negb (Ascii.eqb c ":")) d = true) as Hd
    by (intros d [_ H]%andb_true_iff; by apply digits_no_byte).
  destruct ts as [|c s]; [done|]. cbn [str_forall].
  destruct (Ascii.eqb c "-") eqn:E1; [apply Ascii.eqb_eq in E1 as ->|]; [|destruct (Ascii.eqb c "+") eqn:E2; [apply Ascii.eqb_eq in E2 as ->|]].
  - destruct (negb _ && _) eqn:E; [|done]. intros _. by rewrite (Hd s).
  - destruct (negb _ && _) eqn:E; [|done]. intros _. by rewrite (Hd s).
  - destruct (negb _ && _) eqn:E; [|done]. intros _. exact (Hd _ E).
Qed.

(** What is not stale carries a number, and, on a clock after 1970, one that is at
    most five minutes back: a sum that overflows gives a time long gone. *)
Lemma not_stale now ts :
  slack_stale now ts = false →
  ParseInt_value ts ≠ 0 ∧ (0 <= now → now <= (ParseInt_value ts + 300) * second).
Proof.
  unfold slack_stale. cbv zeta. intros [H0 H1]%orb_false_iff. apply Z.eqb_neq in H0. apply Z.ltb_ge in H1. split; [done|].
  intros Hn. assert (- 2 ^ 63 <= ParseInt_value ts <= 2 ^ 63 - 1) as Hr by (unfold ParseInt_value; repeat case_match; lia).
  revert H1 Hn Hr. generalize (ParseInt_value ts) as n. intros n H1 Hn Hr. unfold time_Unix, int64, unixToInternal, second in *.
  destruct (Z_lt_le_dec (n + 62135596800) (2 ^ 63)); [rewrite Z.mod_small in H1 by lia; lia|].
  assert ((n + 62135596800 + 2 ^ 63) mod 2 ^ 64 = n + 62135596800 + 2 ^ 63 - 2 ^ 64) as Hm
    by (symmetry; apply (Z.mod_unique _ _ 1); lia).
  rewrite Hm in H1. lia.
Qed.

Section Authentic.
Context (hmac : string -> string -> string) (unmarshal : string -> option Payload) (resolver : option (string -> HITLDecision -> HITLResolveResult))
  (secrets : string -> result Secret string).

Notation hook := (slackInteractive hmac unmarshal resolver secrets).

Definition req_ts (r : WebRequest) : string := header_Get (wq_Header r) "X-Slack-Request-Timestamp".
Definition req_sig (r : WebRequest) : string := header_Get (wq_Header r) "X-Slack-Signature".

(** A request that is signed, with the secret [s] stored for the credential, over
    its timestamp and the first MiB of its body, and at most five minutes old. *)
Record signed (cred : string) (now : Z) (r : WebRequest) (body s : string) : Prop := mkSigned {
  sg_post : wq_Method r = "POST";
  sg_secret : ∃ sec, secrets cred = Ok sec ∧ sec_Extras sec !! "signing_secret" = Some s;
  sg_nonempty : s ≠ "";
  sg_dated : ParseInt_value (req_ts r) ≠ 0;
  sg_fresh : 0 <= now → now <= (ParseInt_value (req_ts r) + 300) * second;
  sg_sig : req_sig r = "v0=" +:+ hex_encode (hmac s ("v0:" +:+ req_ts r +:+ ":" +:+ limit_body body))
}.

(** A request passes the checks of the handler exactly if it is signed, and then
    its form is read. *)
Lemma hook_cases cred now r body w :
  (∃ status msg, hook cred now r body w = Some (w, Refused status msg)) ∨
  (∃ s payload, signed cred now r body s ∧ (parseSlackForm (limit_body body) ≫= lookup "payload") = Some payload ∧
     hook cred now r body w = applySlackInteractivePayload unmarshal resolver now payload w).
Proof.
  unfold slackInteractive. cbv zeta. destruct (String.eqb_spec (wq_Method r) "POST") as [Hm|]; cbn [negb]; [|left; by eexists _, _].
  fold (req_ts r) (req_sig r). destruct (_ || _); [left; by eexists _, _|]. destruct (slack_stale now (req_ts r)) eqn:Hst; [left; by eexists _, _|].
  destruct (secrets cred) as [sec|] eqn:Hsec; [|left; by eexists _, _].
  destruct (sec_Extras sec !! "signing_secret") as [s|] eqn:Hs; [|left; by eexists _, _]. change (default "" (Some s)) with s.
  destruct (String.eqb_spec s "") as [|Hne]; [left; by eexists _, _|]. cbn [negb andb].
  destruct (verifySlackSig hmac s (req_ts r) (limit_body body) (req_sig r)) eqn:Hv; cbn [negb]; [|left; by eexists _, _].
  destruct (parseSlackForm (limit_body body)) as [form|]; [|left; by eexists _, _].
  destruct (form !! "payload") as [payload|] eqn:Hp; [change (default "" (Some payload)) with payload|left; by eexists _, _].
  destruct (String.eqb payload ""); [left; by eexists _, _|]. right. exists s, payload. split_and!; [|exact Hp|done].
  apply not_stale in Hst as [Hd Hf]. split; [done|by eauto|done|done|done|]. symmetry. by apply String.eqb_eq.
Qed.

Lemma apply_cases now payload w w' o :
  applySlackInteractivePayload unmarshal resolver now payload w = Some (w', o) →
  (w' = w ∧ ∃ text, o = Acked text) ∨
  ∃ p action id rest res us post, unmarshal payload = Some p ∧ pl_Actions p = (action, id) :: rest ∧ id ≠ "" ∧
    let d := mkHITLDecision (String.eqb action "approve") "" ("slack:" +:+ pl_User p) in
    DecideWithResult resolver now id d w.1 w.2 = Some (w'.1, w'.2, res, us) ∧ o = Decided id d res us post.
Proof.
  unfold applySlackInteractivePayload. destruct (unmarshal payload) as [p|]; [|intros [= <- <-]; eauto].
  destruct (pl_Actions p) as [|[action id] rest] eqn:Ha; [intros [= <- <-]; eauto|].
  destruct (String.eqb_spec id ""); [intros [= <- <-]; eauto|].
  destruct (DecideWithResult _ _ _ _ _ _) as [[[[r' h'] res] us]|] eqn:Hd; [|done]. intros [= <- <-]. right.
  exists p, action, id, rest, res, us. eexists. by split_and!.
Qed.

Lemma apply_decides now payload w p action id rest r' h' res us :
  unmarshal payload = Some p → pl_Actions p = (action, id) :: rest → id ≠ "" →
  let d := mkHITLDecision (String.eqb action "approve") "" ("slack:" +:+ pl_User p) in
  DecideWithResult resolver now id d w.1 w.2 = Some (r', h', res, us) →
  ∃ post, applySlackInteractivePayload unmarshal resolver now payload w = Some ((r', h'), Decided id d res us post).
Proof.
  intros Hp Ha Hne d Hd. unfold applySlackInteractivePayload. rewrite Hp, Ha.
  destruct (String.eqb_spec id ""); [done|]. fold d. rewrite Hd. by eexists.
Qed.

(** C11. Whoever can reach the webhook: no pending approval changes and no request
    is woken, unless the request is a POST whose timestamp is at most five minutes
    old and whose signature is the HMAC, under the signing secret stored for the
    credential, of the version, that timestamp and the body it carries; and if it
    is, what is decided is what the first action of the signed payload names,
    allowed exactly if that action is [approve], under the user's name. A
    timestamp in the future passes. *)
Theorem slack_decides_only_signed cred now r body w w' o :
  hook cred now r body w = Some (w', o) →
  (w' = w ∧ ∀ id d res us post, o ≠ Decided id d res us post) ∨
  ∃ s payload p action id rest res us post,
    signed cred now r body s ∧ (parseSlackForm (limit_body body) ≫= lookup "payload") = Some payload ∧
    unmarshal payload = Some p ∧ pl_Actions p = (action, id) :: rest ∧
    let d := mkHITLDecision (String.eqb action "approve") "" ("slack:" +:+ pl_User p) in
    DecideWithResult resolver now id d w.1 w.2 = Some (w'.1, w'.2, res, us) ∧ o = Decided id d res us post.
Proof.
  destruct (hook_cases cred now r body w) as [(st & msg & ->)|(s & payload & Hs & Hp & ->)].
  { intros [= <- <-]. by left. }
  intros [[-> [text ->]]|(p & action & id & rest & res & us & post & H)]%apply_cases; [by left|].
  right. exists s, payload, p, action, id, rest, res, us, post. by destruct H as (? & ? & _ & ? & ?).
Qed.

(** A signature is good for one timestamp and one body: two accepted requests
    that carry the same one agree in both, or collide under HMAC. *)
Theorem slack_signature_binds cred now now' r r' body body' s :
  signed cred now r body s → signed cred now' r' body' s → req_sig r = req_sig r' →
  (req_ts r = req_ts r' ∧ limit_body body = limit_body body') ∨ ∃ x y, x ≠ y ∧ hmac s x = hmac s y.
Proof.
  intros [_ _ _ Hd _ Hs] [_ _ _ Hd' _ Hs'] He. rewrite Hs, Hs' in He. apply str_app_inj_l, hex_encode_inj in He.
  match type of He with hmac s ?x = hmac s ?y => destruct (decide (x = y)) as [E|E]; [left|right; eauto] end.
  apply str_app_inj_l in E. apply (cut_inj ":") in E; [done|by apply ParseInt_value_no_colon..].
Qed.

(** A recorded request is worth nothing once it has decided: sent again while the
    outcome is kept, it is refused or told that the decision was made before; no
    pending approval changes and nothing is sent to a waiting request. *)
Theorem slack_replay_harmless cred now r body w w' id d res us post now' :
  reachable w.1 w.2 → hook cred now r body w = Some (w', Decided id d res us post) → res_OK res = true → now' < now + hitlTerminalTTL →
  ∃ w'' o, hook cred now' r body w' = Some (w'', o) ∧ w''.2 = w'.2 ∧ reg_pending w''.1 = reg_pending w'.1 ∧
    ∀ id' d' res' us' post', o = Decided id' d' res' us' post' → id' = id ∧ res_OK res' = false ∧ us' = [].
Proof.
  intros Hr H Hok Hn. destruct (hook_cases cred now r body w) as [(st & msg & E)|(s & payload & Hs & Hp & E)]; rewrite E in H; [done|].
  apply apply_cases in H as [[_ [text ?]]|(p & action & id0 & rest & res0 & us0 & post0 & Hun & Ha & Hne & Hd & [= -> -> -> -> ->])]; [done|].
  destruct (hook_cases cred now' r body w') as [(st & msg & E')|(s' & payload' & _ & Hp' & E')]; rewrite E'.
  { eexists w', _. by split_and!. }
  rewrite Hp in Hp'. injection Hp' as <-. set (d := mkHITLDecision _ _ _) in Hd.
  destruct (decision_accepted_once resolver now id0 d w.1 w.2 Hr) as (r1 & h1 & res1 & us1 & Hd1 & Hacc).
  rewrite Hd in Hd1. injection Hd1 as <- <- <- <-. destruct (Hacc Hok) as [_ Hrep].
  destruct (Hrep now' d Hn) as (r2 & res2 & Hd2 & Hpend & Hf & _).
  destruct (apply_decides now' payload w' p action id0 rest r2 w'.2 res2 [] Hun Ha Hne Hd2) as [post2 ->].
  eexists _, _. split_and!; [done..|]. by intros ? ? ? ? ? [= <- <- <- <- <-].
Qed.
End Authentic.

(** ** The message afterwards *)

(** Once a click is answered the message has no buttons and no advice on what
    approving would do, keeps its other blocks in their order, and ends with the
    outcome. *)
Theorem decided_message_has_no_buttons blocks status guidance :
  let out := withStatusBlock blocks status guidance in
  Forall (λ b, is_actions b = false) out ∧
  (∃ tail, out = List.filter (λ b, negb (is_actions b || slackIsApprovalGuidanceBlock b)) blocks ++ tail) ∧
  last out = Some (context [mrkdwn status]).
Proof.
  unfold withStatusBlock. split_and!.
  - apply Forall_app. split; [|destruct (String.eqb _ _); repeat constructor].
    apply Forall_forall. intros b [_ Hb]%list_elem_of_In%List.filter_In. by apply negb_true_iff, orb_false_iff in Hb as [? _].
  - by eexists.
  - by rewrite app_assoc, last_snoc.
Qed.

(** What Slack sends back for a message it was given: lists are decoded as
    [[]any], the rest stays. *)
Definition echoed (b : Block) : Block := (λ kv, (fst kv, match snd kv with AMaps l => ASlice (AMap <$> l) | v => v end)) <$> b.

Lemma guidance_recognised m : m ∈ slackKnownApprovalGuidanceMessages → slackIsApprovalGuidanceBlock (echoed (section m)) = true.
Proof.
  intros H. unfold slackIsApprovalGuidanceBlock. change (slackBlockText (echoed (section m))) with m.
  assert (TrimSpace m = m ∧ m ≠ "") as [-> Hm].
  { revert m H. apply Forall_forall. unfold slackKnownApprovalGuidanceMessages.
    repeat (apply Forall_cons; split; [split; [vm_compute; reflexivity|vm_compute; discriminate]|]). apply Forall_nil. done. }
  apply andb_true_iff. split; [|by apply bool_decide_eq_true]. by destruct (String.eqb_spec m "").
Qed.

(** The prompt a request starts with, and the one it has once it is left to a
    retry: their advice disappears with the buttons. *)
Theorem prompt_guidance_disappears t state status guidance :
  ht_ApprovalMessage t = "" → ht_UpstreamCalled t = false → ht_OperationState t = state → ht_ApprovalEffect t = HITLApprovalEffectForOperationState state →
  state = OpStateSyncWaiting ∨ state = OpStatePendingApproval →
  withStatusBlock [echoed (section (slackTrunc (slackHITLApprovalGuidance t) 1000)); echoed (decision_buttons (ht_PendingID t))] status guidance =
  withStatusBlock [] status guidance.
Proof.
  intros Hm Hu Hs He Hc. unfold withStatusBlock. cbn [List.filter].
  assert (slackTrunc (slackHITLApprovalGuidance t) 1000 ∈ slackKnownApprovalGuidanceMessages) as Hin.
  { unfold slackHITLApprovalGuidance. rewrite Hm, Hu, Hs, He. destruct Hc as [-> | ->]; vm_compute; [left|right; left]. }
  rewrite (guidance_recognised _ Hin), orb_true_r. done.
Qed.

(** ** Clicks *)

(** What Slack posts for a click on a button of a message. *)
Definition click (user url : string) (blocks : list Block) (button : Block) : option Payload :=
  match field "action_id" button, field "value" button with
  | Some (AString a), Some (AString v) => Some (mkPayload user url [(a, v)] blocks)
  | _, _ => None
  end.

(** A click on a button of a prompt decides the entry the prompt was posted for,
    and allows it exactly on [Approve]. *)
Theorem click_decides_its_prompt unmarshal resolver now payload user url blocks id b w w' o :
  id ≠ "" → unmarshal payload = click user url blocks b → b = button "Approve" "approve" id "primary" ∨ b = button "Deny" "deny" id "danger" →
  applySlackInteractivePayload unmarshal resolver now payload w = Some (w', o) →
  ∃ d res us post, o = Decided id d res us post ∧ DecideWithResult resolver now id d w.1 w.2 = Some (w'.1, w'.2, res, us) ∧
    (hd_Allow d = true ↔ b = button "Approve" "approve" id "primary").
Proof.
  intros Hne Hu Hb H. destruct (apply_cases unmarshal resolver now payload w w' o H) as [[-> [text ->]]|(p & a & i & rest & res & us & post & Hp & Ha & _ & Hd & ->)].
  - unfold applySlackInteractivePayload in H. rewrite Hu in H. destruct Hb as [-> | ->]; cbn in H; (destruct (String.eqb_spec id ""); [done|]);
      destruct (DecideWithResult _ _ _ _ _ _) as [[[[? ?] ?] ?]|]; done.
  - rewrite Hu in Hp. destruct Hb as [-> | ->]; cbn in Hp; injection Hp as <-; cbn in Ha; injection Ha as <- <- <-; eexists _, _, _, _;
      (split; [reflexivity|]); (split; [exact Hd|]).
    + by split.
    + split; [done|]. unfold button. intros H'. discriminate H'.
Qed.

(** ** Probes *)

Lemma probe_tokens_ok test l : probe_tokens test l = VerifyOK ↔ Forall (λ p, slackAuthTest (test p.2) = VerifyOK) l.
Proof.
  induction l as [|[label tok] l IH]; cbn [probe_tokens]; [by split|]. rewrite Forall_cons. cbn [snd].
  destruct (slackAuthTest (test tok)); [rewrite IH; naive_solver|by split; [|intros []]..].
Qed.

Lemma probe_tokens_rejected test l reason :
  probe_tokens test l = VerifyRejected reason → ∃ p r, p ∈ l ∧ slackAuthTest (test p.2) = VerifyRejected r.
Proof.
  induction l as [|[label tok] l IH]; cbn [probe_tokens]; [done|]. destruct (slackAuthTest (test tok)) eqn:E; [|intros _|done].
  - intros (p & r & Hp & Hr)%IH. exists p, r. split; [by right|done].
  - exists (label, tok), reason0. split; [by left|done].
Qed.

(** A Slack credential counts as verified exactly if it has a token and Slack
    accepts each token that is stored for use; it is recorded as failed only
    without any token, or when Slack itself rejects one. *)
Theorem slack_verdict_attributable test sec :
  (slack_VerifyCredential test sec = VerifyOK ↔ slack_probes sec ≠ [] ∧ Forall (λ p, slackAuthTest (test p.2) = VerifyOK) (slack_probes sec)) ∧
  (∀ reason, slack_VerifyCredential test sec = VerifyRejected reason →
     slack_probes sec = [] ∨ ∃ p status ok error, p ∈ slack_probes sec ∧ test p.2 = Tested status ok error ∧ slackErrorRejectsToken error = true).
Proof.
  unfold slack_VerifyCredential. destruct (slack_probes sec) as [|p l] eqn:E; [split; [naive_solver|auto]|]. cbv beta iota zeta. split.
  - rewrite probe_tokens_ok. naive_solver.
  - intros reason (q & r & Hq & Hr)%probe_tokens_rejected. right. unfold slackAuthTest in Hr.
    destruct (test q.2) as [err|status ok error] eqn:Et; [done|]. exists q, status, ok, error. split_and!; [done..|].
    repeat case_match; try done. by apply negb_false_iff.
Qed.

(** The probe covers what is used: a token the credential puts on a request is
    one of those that were probed. *)
Theorem slack_injected_token_probed r sec :
  let r' := (SlackTokens_InjectHTTP r sec).1 in
  wr_Header r' = wr_Header r ∨ ∃ p, p ∈ slack_probes sec ∧ Get_header r' "Authorization" = "Bearer " +:+ p.2.
Proof.
  unfold SlackTokens_InjectHTTP. cbv zeta. set (pick := if String.eqb (if (_ : bool) then _ else (_ : string)) "" then sec_Bytes sec else _).
  destruct (String.eqb_spec pick "") as [|Hne]; [by left|]. right.
  assert (∃ l, (l, pick) ∈ slack_probes sec) as (l & Hp).
  { unfold pick, extra, slack_probes in *. clear pick.
    destruct (String.eqb_spec (default "" (sec_Extras sec !! "app")) ""), (String.eqb_spec (default "" (sec_Extras sec !! "bot")) ""); cbn [negb andb] in *;
      repeat case_match; bprop; try done; first [exists "bot"; set_solver | exists "app"; set_solver]. }
  exists (l, pick). split; [done|]. cbn [snd]. clearbody pick.
  assert (∀ x, wr_Header x = wr_Header (bearer pick r) → Get_header x "Authorization" = "Bearer " +:+ pick) as Hx.
  { intros x E. unfold Get_header. rewrite E. unfold bearer, Set_header. cbn. unfold header_Get. by rewrite header_Values_Set, decide_True. }
  apply Hx. repeat case_match; done.
Qed.

(** ** Witnesses *)

(** An HMAC that keeps its key and message. *)
Definition demo_hmac (k m : string) : string := k +:+ "/" +:+ m.
Definition demo_now : Z := 1700000000 * second.
Definition demo_payload : Payload := mkPayload "alice" "" [("approve", "p1")] [].
Definition demo_unmarshal (s : string) : option Payload := if String.eqb s "{}" then Some demo_payload else None.
Definition demo_secrets (name : string) : result Secret string :=
  if String.eqb name "slack" then Ok (mkSecret "" {["signing_secret" := "k"]}) else Err "none".
Definition demo_body : string := "payload=" +:+ QueryEscape "{}".

Definition demo_request (ts : string) : WebRequest :=
  mkWeb "POST" "/api/cred/slack/interactive" "" "" "" true ""
    (header_Set (header_Set ∅ "X-Slack-Request-Timestamp" ts) "X-Slack-Signature"
       ("v0=" +:+ hex_encode (demo_hmac "k" (signature_base ts demo_body)))) None.

Definition demo_pool : HITLRegistry * Chans := let '(r, h, _) := Add "p1" 0 0 zero_pending newHITLRegistry ∅ in (r, h).

Definition demo_hook (now : Z) (ts : string) : option (HITLRegistry * Chans * HookOutcome) :=
  slackInteractive demo_hmac demo_unmarshal None demo_secrets "slack" now (demo_request ts) demo_body demo_pool.

Definition demo_outcome : HookOutcome :=
  Decided "p1" (mkHITLDecision true "" "slack:alice") (mkResult true HITLStateApproved "approved by slack:alice") [] None.

Example demo_hook_decides : snd <$> demo_hook demo_now "1700000000" = Some demo_outcome.
Proof. vm_compute. reflexivity. Qed.

(** The window is open towards the future: a request dated a century ahead
    passes, though the comment promises five minutes around the present. *)
Theorem future_timestamp_accepted : snd <$> demo_hook demo_now "4853600000" = Some demo_outcome.
Proof. vm_compute. reflexivity. Qed.

Lemma demo_pool_reachable : reachable demo_pool.1 demo_pool.2.
Proof. eapply (re_add "p1" 0 0 zero_pending); [apply re_new|reflexivity]. Qed.

Definition demo_after : HITLRegistry * Chans := default demo_pool (fst <$> demo_hook demo_now "1700000000").

Lemma slack_decides_only_signed_witness :
  demo_hook demo_now "1700000000" = Some (demo_after, demo_outcome) ∧
  ∃ s, signed demo_hmac demo_secrets "slack" demo_now (demo_request "1700000000") demo_body s.
Proof.
  assert (demo_hook demo_now "1700000000" = Some (demo_after, demo_outcome)) as H by (vm_compute; reflexivity). split; [exact H|].
  destruct (slack_decides_only_signed demo_hmac demo_unmarshal None demo_secrets "slack" demo_now (demo_request "1700000000") demo_body demo_pool
    demo_after demo_outcome H) as [[_ Hno]|(s & payload & p & action & id & rest & res & us & post & Hs & _)].
  - exfalso. exact (Hno _ _ _ _ _ eq_refl).
  - exists s. exact Hs.
Defined.

Lemma slack_replay_harmless_witness :
  ∃ w'' o, slackInteractive demo_hmac demo_unmarshal None demo_secrets "slack" (demo_now + second) (demo_request "1700000000") demo_body demo_after = Some (w'', o) ∧
    w''.2 = demo_after.2.
Proof.
  assert (demo_hook demo_now "1700000000" = Some (demo_after, demo_outcome)) as H by (vm_compute; reflexivity).
  destruct (slack_replay_harmless demo_hmac demo_unmarshal None demo_secrets "slack" demo_now (demo_request "1700000000") demo_body demo_pool demo_after
    _ _ _ _ _ (demo_now + second) demo_pool_reachable H) as (w'' & o & H1 & H2 & _); [reflexivity|vm_compute; reflexivity|].
  exists w'', o. split; assumption.
Defined.
