(* ===== verification/Discovery.v ===== *)
(** * What a device is told: [cmd/clawpatrol/discovery.go]

    The internal API a device reaches under [clawpatrol.internal]: the manifest
    of its profile and the list of its parked requests; and the environment
    variables of [apiEnvPushdown] in [cmd/clawpatrol/web.go]. What plugin bodies
    answer (their kind, their variables, their asynchronous grants) is a
    parameter; the prose and the rendering as Markdown
    or JSON are not modelled, and a [range] over a map visits it in the order of
    a list. *)
From S2P Require Import Prelude GoStrings NetAddr GoUrl GoHttp HostMatch Policy Dispatch Compile CompileProps ProfileProps HitlStore Fingerprint HitlRegistry ApproveChain RequestLoop Notify.

(** ** The internal API *)

Inductive InternalRoute := RManifest | RCA | RInfo | RPending | RNotFound.

Definition hitlPendingPath : string := "/pending".

Definition routeInternal (path : string) : InternalRoute :=
  if String.eqb path "/" || String.eqb path "/manifest" then RManifest
  else if String.eqb path "/ca.crt" then RCA
  else if String.eqb path "/info" then RInfo
  else if String.eqb path hitlPendingPath then RPending
  else RNotFound.

Definition wantsJSON (format accept : string) : bool :=
  let f := ToLower format in
  if String.eqb f "json" then true
  else if String.eqb f "markdown" || String.eqb f "md" || String.eqb f "text" then false
  else Contains accept "application/json" && negb (Contains accept "text/markdown").

(** *** Parked requests *)

(** An entry of the answer; times as they are. An operation always has a
    deadline, so its [IsZero] test is not modelled. *)
Record PendingView := mkPendingView {
  pv_Endpoint : string; pv_Method : string; pv_URL : string; pv_ParkedAt : option Z; pv_Query : option string; pv_ApprovalExpiresAt : option Z
}.

Definition pendingActionView (op : HITLOperation) : PendingView :=
  let c := op_Columns op in
  mkPendingView (c_EndpointID c) (c_Method c) (c_Scheme c +:+ "://" +:+ c_Host c +:+ c_RedactedPath c) (Some (c_CreatedAt c))
    (if String.eqb (c_RedactedQuery c) "" then None else Some (c_RedactedQuery c)) (Some (c_ApprovalExpiresAt c)).

Definition pendingPoolView (p : HITLPending) : PendingView :=
  let path := match IndexByte (p_Path p) "?" with Some i => str_take i (p_Path p) | None => p_Path p end in
  mkPendingView (p_Endpoint p) (p_Method p) ("https://" +:+ p_Host p +:+ path) (p_CreatedAt p) None (p_ExpiresAt p).

(** [a.After(b)] on times that may be zero. *)
Definition time_after (a b : option Z) : bool := time_before b a.

(** The entries from both stores, newest first; [db] is the operation store and
    [pool] what [List] returned. [sort.Slice] may order equal times either way. *)
Definition pending_entries (db : option Store) (pool : option (list HITLPending)) (profile principal agentIP : string) : list PendingView :=
  stable_sort (λ a b, time_after (pv_ParkedAt a) (pv_ParkedAt b))
    ((match db with Some t => pendingActionView <$> ListParkedForPrincipal t profile principal | None => [] end) ++
     (match pool with
      | Some l => pendingPoolView <$> List.filter (λ p, negb (negb (String.eqb (p_OperationID p) "") || negb (String.eqb (p_AgentIP p) agentIP))) l
      | None => []
      end)).

(** [Err] for a store that cannot be read. *)
Definition serveInternalPending (method : string) (db : option (result Store string)) (pool : option (list HITLPending)) (profile principal agentIP : string)
    : result (list PendingView) Z :=
  if negb (String.eqb method "GET") then Err 405
  else match db with
       | Some (Err _) => Err 500
       | Some (Ok t) => Ok (pending_entries (Some t) pool profile principal agentIP)
       | None => Ok (pending_entries None pool profile principal agentIP)
       end.

(** ** The manifest *)

Record DiscoveryCredentialRef := mkCredRef {
  dr_Name : string; dr_Type : string; dr_Placeholder : string; dr_Disambiguators : gmap string string; dr_Description : string
}.

Record DiscoveryEndpoint := mkDiscEndpoint {
  de_Name : string; de_Type : string; de_Family : string; de_Description : string; de_Hosts : list string; de_Port : Z;
  de_SSLMode : string; de_Path : string; de_Credentials : list DiscoveryCredentialRef; de_Hint : string; de_HITL : bool
}.

Record DiscoveryCredential := mkDiscCredential {
  dc_Name : string; dc_Type : string; dc_Placeholder : string; dc_Endpoints : list string; dc_Description : string
}.

Record DiscoveryEnvVar := mkEnvVar { dv_Name : string; dv_Value : string; dv_Description : string; dv_Type : string }.

(** Timing in nanoseconds, which the document prints. *)
Record DiscoveryHITLAsyncEndpoint := mkAsyncEndpoint { da_Name : string; da_SyncWait : Z; da_PollTTL : Z }.

Record DiscoveryHITL := mkDiscHITL { dh_GatedEndpoints : list string; dh_PendingPath : string; dh_Async : list DiscoveryHITLAsyncEndpoint }.

Record DiscoveryManifest := mkManifest {
  dm_Profile : string; dm_Endpoints : list DiscoveryEndpoint; dm_Credentials : list DiscoveryCredential; dm_EnvVars : list DiscoveryEnvVar;
  dm_Notes : list string; dm_Dashboard : string; dm_HITL : option DiscoveryHITL
}.

Definition manifest_isEmpty (m : DiscoveryManifest) : bool := (length (dm_Endpoints m) =? 0)%nat && (length (dm_Credentials m) =? 0)%nat.

Definition sort_strings (l : list string) : list string := stable_sort String.ltb l.
Definition sorted_keys {A} (m : gmap string A) : list string := sort_strings (map_to_list m).*1.

(** The kind of an endpoint's body, with what the manifest reads of it. *)
Inductive EndpointBody :=
  (** also the body of a [clickhouse_https] endpoint *)
  | HTTPSBody (hosts : list string)
  | PostgresBody (host sslmode : string)
  | ClickhouseNativeBody (port : Z) (tls : bool) (hosts : list string)
  | KubernetesBody (server : string) (hosts : list string)
  | SSHBody (hosts : list string)
  (** any other, with [EndpointHosts] if it has that *)
  | OtherBody (hosts : option (list string)).

Definition splitHostPort (hp : string) (def : Z) : string * Z :=
  if String.eqb hp "" then ("", def)
  else match net_SplitHostPort hp with
       | Err _ => (hp, def)
       | Ok (host, port) => (host, default def (Atoi port))
       end.

(** The path of a URL, from the first slash after the scheme. *)
Definition server_path (server : string) : string :=
  match Index server "://" with
  | None => ""
  | Some i => let rest := str_drop (i + 3) server in match IndexByte rest "/" with Some j => str_drop j rest | None => "" end
  end.

Section Manifest.
Context (kind : CompiledEndpoint -> EndpointBody) (async : Entity -> option AsyncApprover)
  (env_of_credential : Entity -> option (list (string * string * string))) (env_of_endpoint : CompiledEndpoint -> option (list (string * string * string))).

(** Hosts, port, SSL mode and path of an endpoint; its database is never set. *)
Definition describeEndpoint (ep : CompiledEndpoint) : list string * Z * string * string :=
  let '(hosts, port, ssl, path) :=
    match kind ep with
    | HTTPSBody hosts => (hosts, 0, "", "")
    | PostgresBody host ssl => let '(h, p) := splitHostPort host 5432 in ([h], p, ssl, "")
    | ClickhouseNativeBody port tls hosts =>
        let port := if port =? 0 then if tls : bool then 9440 else 9000 else port in
        ((λ h, (splitHostPort h port).1) <$> hosts, port, "", "")
    | KubernetesBody server hosts => (hosts, 0, "", server_path server)
    | SSHBody hosts => ((λ h, (splitHostPort h 22).1) <$> hosts, foldl (λ _ h, (splitHostPort h 22).2) 0 hosts, "", "")
    | OtherBody (Some hosts) => (hosts, 0, "", "")
    | OtherBody None => (ep_Hosts ep, 0, "", "")
    end in
  (if (length hosts =? 0)%nat then ep_Hosts ep else hosts, port, ssl, path).

Definition credential_ref (cc : CompiledCredential) : DiscoveryCredentialRef :=
  let ent := cc_Credential cc in
  mkCredRef (ent_Name ent) (plugin_Type (ent_Plugin ent)) (default "" (cc_Disambiguators cc !! "placeholder"))
    (delete "placeholder" (cc_Disambiguators cc)) (fw_Str (ent_Framework ent) "description").

(** [sort.Slice] may order equal names either way. *)
Definition profileEndpointCredentials (prof : CompiledProfile) (endpointName : string) : list DiscoveryCredentialRef :=
  stable_sort (λ a b, String.ltb (dr_Name a) (dr_Name b)) (credential_ref <$> default [] (prof_EndpointCredentials prof !! endpointName)).

Definition firstPlaceholder (creds : list DiscoveryCredentialRef) : string :=
  default "" (List.find (λ p, negb (String.eqb p "")) (dr_Placeholder <$> creds)).

Definition firstDisambiguator (creds : list DiscoveryCredentialRef) (key : string) : string :=
  default "" (List.find (λ v, negb (String.eqb v "")) ((λ c, default "" (dr_Disambiguators c !! key)) <$> creds)).

Definition quote : string := String (ascii_of_nat 34) "".

Definition connectionHint (type : string) (hosts : list string) (port : Z) (ssl path : string) (creds : list DiscoveryCredentialRef) : string :=
  let opt (name v : string) := if String.eqb v "" then "" else name +:+ v in
  match hosts with
  | [] | "" :: _ => ""
  | host :: _ =>
      if String.eqb type "postgres" then
        "psql " +:+ quote +:+ "host=" +:+ host +:+ " port=" +:+ print_int port +:+ opt " user=" (firstDisambiguator creds "user") +:+
          opt " dbname=" (firstDisambiguator creds "database") +:+ opt " sslmode=" ssl +:+ quote
      else if String.eqb type "clickhouse_native" then
        "clickhouse-client --host " +:+ host +:+ " --port " +:+ print_int port +:+ opt " --user " (firstDisambiguator creds "user") +:+
          opt " --database " (firstDisambiguator creds "database")
      else if String.eqb type "kubernetes" then "kubectl --server https://" +:+ host +:+ path +:+ " ..."
      else if String.eqb type "ssh" then
        let user := firstDisambiguator creds "user" in
        if String.eqb user "" then "ssh " +:+ host else "ssh " +:+ user +:+ "@" +:+ host
      else if String.eqb type "https" || String.eqb type "clickhouse_https" then
        let ph := firstPlaceholder creds in
        if String.eqb ph "" then "curl https://" +:+ host +:+ "/"
        else "curl https://" +:+ host +:+ "/ -H " +:+ quote +:+ "Authorization: Bearer " +:+ ph +:+ quote
      else ""
  end.

(** *** Approval *)

Definition isHumanApprover (policy : CompiledPolicy) (name : string) : bool :=
  String.eqb name "dashboard" ||
  match pol_Approvers policy !! name with Some ent => String.eqb (plugin_Type (ent_Plugin ent)) "human_approver" | None => false end.

Definition endpointHasHITL (policy : CompiledPolicy) (ep : CompiledEndpoint) : bool :=
  existsb (λ r, negb (rule_Disabled r) && existsb (λ st, isHumanApprover policy (stage_Name st)) (out_Approve (rule_Outcome r))) (ep_Rules ep).

(** The approver of a rule that may fall back to an asynchronous grant. *)
Definition rule_async (policy : CompiledPolicy) (r : CompiledRule) : option AsyncApprover :=
  if rule_Disabled r then None
  else match out_Approve (rule_Outcome r) with
       | [st] =>
           if String.eqb (stage_Name st) "dashboard" then None
           else match pol_Approvers policy !! stage_Name st with
                | None => None
                | Some ent =>
                    match async ent with
                    | Some ap => if ap_Enabled ap && (0 <? ap_SyncWait ap) then Some ap else None
                    | None => None
                    end
                end
       | _ => None
       end.

(** The shortest wait wins. *)
Definition shorter (acc : option (Z * Z)) (ap : option AsyncApprover) : option (Z * Z) :=
  match ap with
  | None => acc
  | Some ap =>
      match acc with
      | Some (sw, _) => if ap_SyncWait ap <? sw then Some (ap_SyncWait ap, ap_ApprovalTTL ap) else acc
      | None => Some (ap_SyncWait ap, ap_ApprovalTTL ap)
      end
  end.

Definition endpointAsyncHITL (policy : CompiledPolicy) (prof : CompiledProfile) (endpointName : string) : option (Z * Z) :=
  if negb (prof_HITLAsyncGrants prof) then None
  else match prof_Endpoints prof !! endpointName with
       | None => None
       | Some ep => foldl (λ acc r, shorter acc (rule_async policy r)) None (ep_Rules ep)
       end.

Definition buildDiscoveryHITL (policy : CompiledPolicy) (prof : CompiledProfile) (eps : list DiscoveryEndpoint) : DiscoveryHITL :=
  mkDiscHITL (sort_strings (de_Name <$> List.filter de_HITL eps)) hitlPendingPath
    (stable_sort (λ a b, String.ltb (da_Name a) (da_Name b))
       (omap (λ ep, (λ '(sw, ttl), mkAsyncEndpoint (de_Name ep) sw ttl) <$> endpointAsyncHITL policy prof (de_Name ep)) eps)).

(** *** Environment variables *)

(** [add]: the first variable of a name stays. *)
Definition add_var (type : string) (out : list DiscoveryEnvVar) (v : string * string * string) : list DiscoveryEnvVar :=
  let '(name, value, description) := v in
  if String.eqb name "" || bool_decide (name ∈ dv_Name <$> out) then out else out ++ [mkEnvVar name value description type].

(** The credentials of an endpoint, each once over all endpoints. *)
Definition add_credential_vars (acc : list string * list DiscoveryEnvVar) (ent : Entity) : list string * list DiscoveryEnvVar :=
  let '(credSeen, out) := acc in
  if bool_decide (ent_Name ent ∈ credSeen) then acc
  else (ent_Name ent :: credSeen,
        match env_of_credential ent with Some l => foldl (add_var (plugin_Type (ent_Plugin ent))) out l | None => out end).

(** The endpoints of the profile, in the order of a list. *)
Definition visit_endpoints (prof : CompiledProfile) (names : list string) : list CompiledEndpoint := omap (λ n, prof_Endpoints prof !! n) names.

(** The walk over the credentials visits the endpoints in the order [ord1], the
    walk over the endpoints in the order [ord2]. *)
Definition env_vars (prof : CompiledProfile) (ord1 ord2 : list string) : list DiscoveryEnvVar :=
  let out := (foldl add_credential_vars ([], []) (concat (ep_Credentials <$> visit_endpoints prof ord1))).2 in
  foldl (λ out ep, match env_of_endpoint ep with Some l => foldl (add_var (plugin_Type (ep_Plugin ep))) out l | None => out end) out (visit_endpoints prof ord2).

Definition buildDiscoveryEnvVars (prof : CompiledProfile) : list DiscoveryEnvVar :=
  let names := sorted_keys (prof_Endpoints prof) in env_vars prof names names.

(** [apiEnvPushdown] once the peer is known: each walk in an order of the map. *)
Definition apiEnvPushdown (policy : option CompiledPolicy) (profile : string) (ord1 ord2 : list string) : list DiscoveryEnvVar :=
  match policy with
  | None => []
  | Some pol => match pol_Profiles pol !! profile with Some prof => env_vars prof ord1 ord2 | None => [] end
  end.

(** *** The document *)

Definition discovery_endpoint (policy : CompiledPolicy) (prof : CompiledProfile) (name : string) (ep : CompiledEndpoint) : DiscoveryEndpoint :=
  let '(hosts, port, ssl, path) := describeEndpoint ep in
  let creds := profileEndpointCredentials prof name in
  let type := plugin_Type (ep_Plugin ep) in
  mkDiscEndpoint (ep_Name ep) type (ep_Family ep) (ep_Description ep) hosts port ssl path creds (connectionHint type hosts port ssl path creds)
    (endpointHasHITL policy ep).

Definition discovery_credential (prof : CompiledProfile) (ent : Entity) : DiscoveryCredential :=
  mkDiscCredential (ent_Name ent) (plugin_Type (ent_Plugin ent)) (fw_Str (ent_Framework ent) "placeholder")
    (sort_strings (List.filter (λ t, bool_decide (is_Some (prof_Endpoints prof !! t))) (CredentialEndpointTargets ent)))
    (fw_Str (ent_Framework ent) "description").

Definition buildDiscoveryManifest (policy : option CompiledPolicy) (profileName : string) : DiscoveryManifest :=
  match policy with
  | None => mkManifest profileName [] [] [] ["gateway has no compiled policy loaded"] "" None
  | Some pol =>
      match pol_Profiles pol !! profileName with
      | None => mkManifest profileName [] [] [] ["profile " +:+ quote +:+ profileName +:+ quote +:+ " grants no endpoints or credentials"] (pol_DashboardURL pol) None
      | Some prof =>
          let eps := omap (λ n, discovery_endpoint pol prof n <$> prof_Endpoints prof !! n) (sorted_keys (prof_Endpoints prof)) in
          let creds := stable_sort (λ a b, String.ltb (dc_Name a) (dc_Name b)) (discovery_credential prof <$> prof_Credentials prof) in
          let m := mkManifest profileName eps creds (buildDiscoveryEnvVars prof) [] "" None in
          if manifest_isEmpty m then mkManifest profileName eps creds (dm_EnvVars m) [] (pol_DashboardURL pol) None
          else mkManifest profileName eps creds (dm_EnvVars m) [] "" (Some (buildDiscoveryHITL pol prof eps))
      end
  end.
End Manifest.

(** * What a device learns *)

(** ** The manifest lists the grants of the profile *)

Section Scope.
Context (NewMatcher : string -> string -> result (option Matcher) string) (ParseDuration : string -> option Z).
Context (ro : RangeOrders) (g : Gateway) (p : SrcPolicy) (pol : CompiledPolicy).
Hypothesis Hord : orders_ok ro p.
Hypothesis Hpol : gw_Policy g = Some p.
Hypothesis Hcompile : Compile NewMatcher ParseDuration ro (Some g) = Ok pol.
Context (kind : CompiledEndpoint -> EndpointBody) (async : Entity -> option AsyncApprover)
  (env_of_credential : Entity -> option (list (string * string * string))) (env_of_endpoint : CompiledEndpoint -> option (list (string * string * string))).

Notation manifest := (buildDiscoveryManifest kind async env_of_credential env_of_endpoint (Some pol)).

Lemma bind_endpoint_credentials eps cred merged pf n : prof_Credentials (bind_endpoint eps cred merged pf n) = prof_Credentials pf.
Proof.
  unfold bind_endpoint. destruct (eps !! n) as [ce|]; [|done]. cbn. apply (foldl_inv _ (λ q, prof_Credentials q = prof_Credentials pf)); [|done].
  intros s h _ <-. unfold index_host. repeat case_match; done.
Qed.

Lemma profile_credentials eps pr name : prof_Credentials (bound_profile p eps pr name) = omap (λ c, p_Credentials p !! c) (pr_Credentials pr).
Proof.
  unfold bound_profile.
  enough (∀ l q, prof_Credentials (foldl (bind_credential p eps pr) q l) = prof_Credentials q ++ omap (λ c, p_Credentials p !! c) l) as H.
  { by rewrite H. }
  induction l as [|c l IH]; intros q; cbn [foldl omap list_omap]; [by rewrite app_nil_r|]. rewrite IH. unfold bind_credential.
  destruct (p_Credentials p !! c) as [ent|]; [|done].
  rewrite (foldl_inv (bind_endpoint eps ent _) (λ q', prof_Credentials q' = prof_Credentials q ++ [ent])).
  - by rewrite <- app_assoc.
  - intros s n _ <-. apply bind_endpoint_credentials.
  - done.
Qed.

Lemma foldl_index_endpoints ce l pf : prof_Endpoints (foldl (index_host ce) pf l) = prof_Endpoints pf.
Proof.
  apply (foldl_inv _ (λ q, prof_Endpoints q = prof_Endpoints pf)); [|done]. intros s h _ <-. unfold index_host. repeat case_match; done.
Qed.

Lemma bind_endpoint_endpoints eps cred merged pf n k :
  is_Some (prof_Endpoints (bind_endpoint eps cred merged pf n) !! k) ↔ is_Some (prof_Endpoints pf !! k) ∨ (n = k ∧ is_Some (eps !! n)).
Proof.
  unfold bind_endpoint. destruct (eps !! n) as [ce|]; [|split; [auto|intros [?|[_ [? [=]]]]; done]]. cbn. rewrite foldl_index_endpoints.
  cbn. rewrite lookup_insert_is_Some'. naive_solver.
Qed.

Lemma bind_endpoints_endpoints eps cred merged l pf k :
  is_Some (prof_Endpoints (foldl (bind_endpoint eps cred merged) pf l) !! k) ↔ is_Some (prof_Endpoints pf !! k) ∨ (k ∈ l ∧ is_Some (eps !! k)).
Proof.
  revert pf. induction l as [|n l IH]; intros pf; cbn [foldl]; [set_solver|]. rewrite IH, bind_endpoint_endpoints, elem_of_cons. naive_solver.
Qed.

Lemma bound_endpoints eps pr name k :
  is_Some (prof_Endpoints (bound_profile p eps pr name) !! k) ↔
  is_Some (eps !! k) ∧ ∃ c ent, c ∈ pr_Credentials pr ∧ p_Credentials p !! c = Some ent ∧ k ∈ CredentialEndpointTargets ent.
Proof.
  unfold bound_profile.
  enough (∀ l q, is_Some (prof_Endpoints (foldl (bind_credential p eps pr) q l) !! k) ↔
    is_Some (prof_Endpoints q !! k) ∨ (is_Some (eps !! k) ∧ ∃ c ent, c ∈ l ∧ p_Credentials p !! c = Some ent ∧ k ∈ CredentialEndpointTargets ent)) as H.
  { rewrite H. cbn. rewrite lookup_empty. split; [by intros [[? [=]]|?]|auto]. }
  induction l as [|c l IH]; intros q; cbn [foldl]; [set_solver|]. rewrite IH. unfold bind_credential.
  destruct (p_Credentials p !! c) as [ent|] eqn:E; [rewrite bind_endpoints_endpoints; cbn [prof_Endpoints list_credential]|];
    setoid_rewrite elem_of_cons; naive_solver.
Qed.

(** The profile a manifest is made for. *)
Lemma manifest_profile name pr :
  p_Profiles p !! name = Some pr →
  ∃ cp, pol_Profiles pol !! name = Some cp ∧ prof_inv (pol_Endpoints pol) (brings p pr) cp ∧
    prof_Credentials cp = omap (λ c, p_Credentials p !! c) (pr_Credentials pr) ∧
    ∀ k, is_Some (prof_Endpoints cp !! k) ↔
      is_Some (pol_Endpoints pol !! k) ∧ ∃ c ent, c ∈ pr_Credentials pr ∧ p_Credentials p !! c = Some ent ∧ k ∈ CredentialEndpointTargets ent.
Proof.
  intros Hpr. eexists. split; [by eapply pol_profile|]. split; [apply compile_profile_inv|]. split; [apply profile_credentials|]. intros k. apply bound_endpoints.
Qed.

Lemma manifest_parts name cp :
  pol_Profiles pol !! name = Some cp →
  dm_Endpoints (manifest name) = omap (λ n, discovery_endpoint kind pol cp n <$> prof_Endpoints cp !! n) (sorted_keys (prof_Endpoints cp)) ∧
  dm_Credentials (manifest name) = stable_sort (λ a b, String.ltb (dc_Name a) (dc_Name b)) (discovery_credential cp <$> prof_Credentials cp).
Proof. intros H. unfold buildDiscoveryManifest. rewrite H. by destruct (manifest_isEmpty _). Qed.

Lemma elem_of_sorted_keys {A} (m : gmap string A) k : k ∈ sorted_keys m ↔ is_Some (m !! k).
Proof.
  unfold sorted_keys, sort_strings. rewrite elem_of_stable_sort, list_elem_of_fmap. split.
  - intros ([k' v] & -> & H%elem_of_map_to_list). eauto.
  - intros [v H]. exists (k, v). split; [done|]. by apply elem_of_map_to_list.
Qed.

Lemma discovery_endpoint_name cp n ep : de_Name (discovery_endpoint kind pol cp n ep) = ep_Name ep.
Proof. unfold discovery_endpoint. by destruct (describeEndpoint kind ep) as [[[? ?] ?] ?]. Qed.

Lemma discovery_endpoint_creds cp n ep : de_Credentials (discovery_endpoint kind pol cp n ep) = profileEndpointCredentials cp n.
Proof. unfold discovery_endpoint. by destruct (describeEndpoint kind ep) as [[[? ?] ?] ?]. Qed.

(** The document a device gets about its profile names an endpoint exactly if a
    credential the profile lists is bound to it, shows at an endpoint only
    credentials the profile lists for it, with the values that select them, and
    lists exactly the credentials of the profile, each with endpoints the
    document names. *)
Theorem manifest_lists_grants name pr :
  p_Profiles p !! name = Some pr →
  let m := manifest name in
  (∀ n, n ∈ de_Name <$> dm_Endpoints m ↔
     is_Some (pol_Endpoints pol !! n) ∧ ∃ c ent, c ∈ pr_Credentials pr ∧ p_Credentials p !! c = Some ent ∧ n ∈ CredentialEndpointTargets ent) ∧
  (∀ de r, de ∈ dm_Endpoints m → r ∈ de_Credentials de → ∃ c, brings p pr (de_Name de) c ∧ r = credential_ref c) ∧
  (∀ n, n ∈ dc_Name <$> dm_Credentials m ↔ ∃ c ent, c ∈ pr_Credentials pr ∧ p_Credentials p !! c = Some ent ∧ n = ent_Name ent) ∧
  (∀ dc e, dc ∈ dm_Credentials m → e ∈ dc_Endpoints dc → e ∈ de_Name <$> dm_Endpoints m).
Proof.
  intros Hpr m. destruct (manifest_profile name pr Hpr) as (cp & Hcp & [He _ _ Hc] & Hcr & Heps). destruct (manifest_parts name cp Hcp) as [Hm1 Hm2].
  assert (∀ n ce, prof_Endpoints cp !! n = Some ce → ep_Name ce = n) as Hname.
  { intros n ce Hn. destruct (He n ce Hn) as [Hn2 _]. by destruct (Compile_endpoint _ _ _ _ _ _ _ _ Hord Hpol Hcompile Hn2). }
  assert (∀ de, de ∈ dm_Endpoints m → ∃ n ce, prof_Endpoints cp !! n = Some ce ∧ de = discovery_endpoint kind pol cp n ce) as Hde.
  { intros de. unfold m. rewrite Hm1. intros (n & _ & (ce & Hce & ->)%fmap_Some)%list_elem_of_omap. eauto. }
  assert (∀ n, n ∈ de_Name <$> dm_Endpoints m ↔ is_Some (prof_Endpoints cp !! n)) as Hnames.
  { intros n. rewrite list_elem_of_fmap. split.
    - intros (de & -> & (k & ce & Hk & ->)%Hde). rewrite discovery_endpoint_name, (Hname _ _ Hk). eauto.
    - intros [ce Hce]. exists (discovery_endpoint kind pol cp n ce). split; [by rewrite discovery_endpoint_name, (Hname _ _ Hce)|].
      unfold m. rewrite Hm1. apply list_elem_of_omap. exists n. rewrite elem_of_sorted_keys, Hce. eauto. }
  split_and!.
  - intros n. by rewrite Hnames, Heps.
  - intros de r (n & ce & Hce & ->)%Hde. rewrite discovery_endpoint_creds, discovery_endpoint_name, (Hname _ _ Hce).
    unfold profileEndpointCredentials. rewrite elem_of_stable_sort. intros (c & -> & Hin)%list_elem_of_fmap.
    destruct (prof_EndpointCredentials cp !! n) as [cs|] eqn:Ecs; [|by apply elem_of_nil in Hin]. eauto.
  - intros n. unfold m. rewrite Hm2, list_elem_of_fmap. setoid_rewrite elem_of_stable_sort. rewrite Hcr. setoid_rewrite list_elem_of_fmap. setoid_rewrite list_elem_of_omap.
    split.
    + intros (dc & -> & ent & -> & c & Hin & Hent). eauto.
    + intros (c & ent & Hin & Hent & ->). exists (discovery_credential cp ent). split; [done|]. eauto.
  - intros dc e Hdc Hin. apply Hnames. unfold m in Hdc. rewrite Hm2, elem_of_stable_sort in Hdc. apply list_elem_of_fmap in Hdc as (ent & -> & _).
    cbn in Hin. unfold sort_strings in Hin. rewrite elem_of_stable_sort in Hin. apply list_elem_of_In, List.filter_In in Hin as [_ Hin]. by apply bool_decide_eq_true in Hin.
Qed.
End Scope.

(** ** Environment variables *)

Section Env.
Context (env_of_credential : Entity -> option (list (string * string * string))) (env_of_endpoint : CompiledEndpoint -> option (list (string * string * string))).

Definition gives (vars : option (list (string * string * string))) (n : string) : Prop := ∃ l v, vars = Some l ∧ v ∈ l ∧ v.1.1 = n ∧ n ≠ "".

Lemma add_var_names type out v n : n ∈ dv_Name <$> add_var type out v ↔ n ∈ dv_Name <$> out ∨ (v.1.1 = n ∧ n ≠ "").
Proof.
  destruct v as [[name value] desc]. cbn. unfold add_var. destruct (String.eqb_spec name "") as [->|Hne]; cbn [orb]; [naive_solver|].
  case_bool_decide as Hin; [naive_solver|]. rewrite fmap_app, elem_of_app. cbn. rewrite list_elem_of_singleton. naive_solver.
Qed.

Lemma add_vars_names type vars out n :
  n ∈ dv_Name <$> (match vars with Some l => foldl (add_var type) out l | None => out end) ↔ n ∈ dv_Name <$> out ∨ gives vars n.
Proof.
  unfold gives. destruct vars as [l|]; [|naive_solver]. revert out. induction l as [|v l IH]; intros out; cbn [foldl].
  { split; [auto|]. by intros [?|(l & v & [= <-] & []%elem_of_nil & _)]. }
  rewrite IH, add_var_names. split.
  - intros [[?|[<- ?]]|(l' & v' & [= <-] & Hin & ? & ?)]; [by left|right|right].
    + exists (v :: l), v. split_and!; [done|by left|done..].
    + exists (v :: l), v'. split_and!; [done|by right|done..].
  - intros [?|(l' & v' & [= <-] & [->|Hin]%elem_of_cons & ? & ?)]; [by left; left|by left; right|right]. by exists l, v'.
Qed.

Definition same_named (l : list Entity) : Prop := ∀ a b, a ∈ l → b ∈ l → ent_Name a = ent_Name b → a = b.

Lemma credential_vars_names l seen out n :
  same_named l → (∀ e, e ∈ l → ent_Name e ∈ seen → ∀ k, gives (env_of_credential e) k → k ∈ dv_Name <$> out) →
  n ∈ dv_Name <$> (foldl (add_credential_vars env_of_credential) (seen, out) l).2 ↔ n ∈ dv_Name <$> out ∨ ∃ e, e ∈ l ∧ gives (env_of_credential e) n.
Proof.
  revert seen out. induction l as [|e l IH]; intros seen out Hu Hs; cbn [foldl]; [set_solver|]. cbn [add_credential_vars].
  assert (same_named l) as Hu' by (intros a b Ha Hb; apply Hu; by right).
  case_bool_decide as Hin.
  - rewrite IH; [|done|intros e' He' Hse k Hk; eapply Hs; [by right|done..]]. setoid_rewrite elem_of_cons.
    split; [naive_solver|]. intros [?|(e' & [->|?] & Hg)]; [by left| |eauto]. left. eapply Hs; [by left|done..].
  - rewrite IH; [|done|].
    + rewrite add_vars_names. setoid_rewrite elem_of_cons. naive_solver.
    + intros e' He' [Heq|Hse]%elem_of_cons k Hk; apply add_vars_names; [right|left; eapply Hs; [by right|done..]].
      rewrite (Hu e e'); [done|by left|by right|done].
Qed.

Lemma endpoint_vars_names eps out n :
  n ∈ dv_Name <$> foldl (λ out ep, match env_of_endpoint ep with Some l => foldl (add_var (plugin_Type (ep_Plugin ep))) out l | None => out end) out eps ↔
  n ∈ dv_Name <$> out ∨ ∃ ep, ep ∈ eps ∧ gives (env_of_endpoint ep) n.
Proof.
  revert out. induction eps as [|ep eps IH]; intros out; cbn [foldl]; [set_solver|]. rewrite IH, add_vars_names. setoid_rewrite elem_of_cons. naive_solver.
Qed.

(** An order a [range] over the endpoints may take. *)
Definition endpoint_order (prof : CompiledProfile) (ord : list string) : Prop := ∀ k, k ∈ ord ↔ is_Some (prof_Endpoints prof !! k).

Lemma elem_of_visit prof ord ep : endpoint_order prof ord → ep ∈ visit_endpoints prof ord ↔ ∃ k, prof_Endpoints prof !! k = Some ep.
Proof.
  intros Hord. unfold visit_endpoints. rewrite list_elem_of_omap. split; [naive_solver|]. intros [k Hk]. exists k. split; [|done]. apply Hord. eauto.
Qed.

Lemma elem_of_visit_credentials prof ord e :
  endpoint_order prof ord → e ∈ concat (ep_Credentials <$> visit_endpoints prof ord) ↔ ∃ k ep, prof_Endpoints prof !! k = Some ep ∧ e ∈ ep_Credentials ep.
Proof.
  intros Hord. rewrite list_elem_of_In, in_concat. split.
  - intros (x & Hx & Hin). apply list_elem_of_In, list_elem_of_fmap in Hx as (ep & -> & [k Hk]%(elem_of_visit _ _ _ Hord)). exists k, ep. split; [done|]. by apply list_elem_of_In.
  - intros (k & ep & Hk & Hin). exists (ep_Credentials ep). split; [|by apply list_elem_of_In]. apply list_elem_of_In, list_elem_of_fmap. exists ep.
    split; [done|]. apply (elem_of_visit _ _ _ Hord). eauto.
Qed.

(** The variables a device gets are those of the credentials bound to the
    endpoints of its profile, and of these endpoints, in whatever order the map
    is visited. *)
Theorem env_vars_names prof ord1 ord2 n :
  endpoint_order prof ord1 → endpoint_order prof ord2 →
  (∀ k1 k2 ep1 ep2 a b, prof_Endpoints prof !! k1 = Some ep1 → prof_Endpoints prof !! k2 = Some ep2 →
     a ∈ ep_Credentials ep1 → b ∈ ep_Credentials ep2 → ent_Name a = ent_Name b → a = b) →
  n ∈ dv_Name <$> env_vars env_of_credential env_of_endpoint prof ord1 ord2 ↔
  ∃ k ep, prof_Endpoints prof !! k = Some ep ∧ (gives (env_of_endpoint ep) n ∨ ∃ e, e ∈ ep_Credentials ep ∧ gives (env_of_credential e) n).
Proof.
  intros H1 H2 Hu. unfold env_vars. rewrite endpoint_vars_names, credential_vars_names; [|intros a b|by intros e _ ?%elem_of_nil].
  - cbn. setoid_rewrite (elem_of_visit _ _ _ H2). setoid_rewrite (elem_of_visit_credentials _ _ _ H1). rewrite elem_of_nil. naive_solver.
  - rewrite !(elem_of_visit_credentials _ _ _ H1). naive_solver.
Qed.

(** The manifest names the variables that are pushed. *)
Corollary manifest_env_is_pushed prof ord1 ord2 n :
  endpoint_order prof ord1 → endpoint_order prof ord2 →
  (∀ k1 k2 ep1 ep2 a b, prof_Endpoints prof !! k1 = Some ep1 → prof_Endpoints prof !! k2 = Some ep2 →
     a ∈ ep_Credentials ep1 → b ∈ ep_Credentials ep2 → ent_Name a = ent_Name b → a = b) →
  n ∈ dv_Name <$> buildDiscoveryEnvVars env_of_credential env_of_endpoint prof ↔ n ∈ dv_Name <$> env_vars env_of_credential env_of_endpoint prof ord1 ord2.
Proof.
  intros H1 H2 Hu. unfold buildDiscoveryEnvVars. rewrite !env_vars_names; [done|done..| | |]; try done; intros k; apply elem_of_sorted_keys.
Qed.
End Env.

(** Two profiles that share an endpoint, each with its own credential for it. *)
Definition shared_policy : SrcPolicy :=
  mkSrcPolicy ∅ (<["other" := mkEntity "other" https_plugin empty_body (mkFramework {["endpoint" := "api"]} ∅ ∅)]> {["tok" := tok_entity]}) {["api" := api_entity]} ∅ ∅
    (<["ops" := mkSrcProfile "ops" ["other"] ∅ false]> {["dev" := mkSrcProfile "dev" ["tok"] ∅ false]}) ["tok"; "other"].
Definition shared_gateway : Gateway := mkGateway (Some (mkDefaults "deny" "" "" "" [] 0 0 "")) (Some shared_policy) "".
Definition shared_compiled : CompiledPolicy := compiled (Compile no_matcher no_duration (default_orders shared_policy) (Some shared_gateway)).

Definition shared_manifest : DiscoveryManifest :=
  buildDiscoveryManifest (λ _, OtherBody None) (λ _, None) (λ e, if String.eqb (ent_Name e) "other" then Some [("OTHER_TOKEN", "placeholder", "")] else None)
    (λ _, None) (Some shared_compiled) "dev".

(** The document of a profile also shows variables of a credential the profile
    does not list, if another profile uses it at an endpoint they share. *)
Theorem env_var_of_ungranted_credential :
  Compile no_matcher no_duration (default_orders shared_policy) (Some shared_gateway) = Ok shared_compiled ∧
  dv_Name <$> dm_EnvVars shared_manifest = ["OTHER_TOKEN"] ∧ dc_Name <$> dm_Credentials shared_manifest = ["tok"].
Proof. split; [vm_compute; reflexivity|]. split; vm_compute; reflexivity. Qed.

Lemma manifest_lists_grants_witness :
  ∃ c, brings shared_policy (mkSrcProfile "dev" ["tok"] ∅ false) "api" c.
Proof.
  assert (Compile no_matcher no_duration (default_orders shared_policy) (Some shared_gateway) = Ok shared_compiled) as HC by (vm_compute; reflexivity).
  destruct (manifest_lists_grants no_matcher no_duration (default_orders shared_policy) shared_gateway shared_policy shared_compiled
    (default_orders_ok shared_policy) eq_refl HC (λ _, OtherBody None) (λ _, None) (λ _, None) (λ _, None) "dev" (mkSrcProfile "dev" ["tok"] ∅ false) eq_refl)
    as (_ & H & _).
  destruct (H (mkDiscEndpoint "api" "https" "http" "" ["api.example.com:443"; "*.cdn.example.com"; "*.eu.cdn.example.com"] 0 "" ""
    [mkCredRef "tok" "https" "" ∅ ""] "curl https://api.example.com:443/" false) (mkCredRef "tok" "https" "" ∅ "")) as (c & Hc & _).
  - vm_compute. left.
  - left.
  - exists c. exact Hc.
Defined.

(** ** Parked requests *)

(** A device sees exactly the requests it has parked: the operations of its
    profile and principal that wait for a decision, and the prompts held for its
    address without an operation. *)
Theorem pending_lists_own t l profile principal agentIP v :
  v ∈ pending_entries (Some t) (Some l) profile principal agentIP ↔
  (∃ id op, t !! id = Some op ∧ c_ProfileID (op_Columns op) = profile ∧ c_PrincipalID (op_Columns op) = principal ∧ is_parked op = true ∧ v = pendingActionView op) ∨
  (∃ q, q ∈ l ∧ p_OperationID q = "" ∧ p_AgentIP q = agentIP ∧ v = pendingPoolView q).
Proof.
  unfold pending_entries, ListParkedForPrincipal. rewrite elem_of_stable_sort, elem_of_app, !list_elem_of_fmap. f_equiv; cbn.
  - split.
    + intros (op & -> & Hop). rewrite elem_of_stable_sort, list_elem_of_In, List.filter_In in Hop. destruct Hop as [Hop Hf]. apply list_elem_of_In, list_elem_of_fmap in Hop as ([id op'] & -> & Hin%elem_of_map_to_list).
      apply andb_true_iff in Hf as [[H1 H2]%andb_true_iff H3]. apply String.eqb_eq in H1, H2. exists id, op'. done.
    + intros (id & op & Hop & <- & <- & Hp & ->). exists op. split; [done|]. rewrite elem_of_stable_sort, list_elem_of_In, List.filter_In. split.
      * apply list_elem_of_In, list_elem_of_fmap. exists (id, op). split; [done|]. by apply elem_of_map_to_list.
      * by rewrite !String.eqb_refl, Hp.
  - setoid_rewrite list_elem_of_In at 1. setoid_rewrite List.filter_In. setoid_rewrite <- list_elem_of_In at 1. split.
    + intros (q & -> & Hin & Hf). apply negb_true_iff, orb_false_iff in Hf as [H1 H2]. apply negb_false_iff, String.eqb_eq in H1, H2. eauto.
    + intros (q & Hin & H1 & H2 & ->). exists q. split_and!; [done..|]. by rewrite H1, H2, !String.eqb_refl.
Qed.

(** ** Asynchronous approval *)

Section Async.
Context (hk : Hooks) (g : GatewayView).

(** The approver the request loop would park a request of this rule for. *)
Definition parks (r : CompiledRule) (ap : AsyncApprover) : Prop :=
  rule_Disabled r = false ∧ 0 < ap_SyncWait ap ∧ ∃ id, asyncHumanApproverFor hk g (out_Approve (rule_Outcome r)) = Some (id, ap).

Lemma rule_async_parks r ap : rule_async (hk_async hk) (gv_policy g) r = Some ap ↔ parks r ap.
Proof.
  unfold parks, rule_async, asyncHumanApproverFor. destruct (rule_Disabled r); [naive_solver|].
  destruct (out_Approve (rule_Outcome r)) as [|st [|]]; [naive_solver| |naive_solver].
  destruct (String.eqb (stage_Name st) "dashboard"); [naive_solver|]. destruct (pol_Approvers (gv_policy g) !! stage_Name st) as [ent|]; [|naive_solver].
  destruct (hk_async hk ent) as [a|]; [|naive_solver]. destruct (ap_Enabled a); cbn [andb]; [|naive_solver].
  destruct (Z.ltb_spec 0 (ap_SyncWait a)); [naive_solver|]. split; [done|]. intros (_ & Hp & id & [= <- <-]). lia.
Qed.

Lemma shortest_spec rules acc res :
  foldl (λ acc r, shorter acc (rule_async (hk_async hk) (gv_policy g) r)) acc rules = res →
  match res with
  | None => acc = None ∧ ∀ r ap, r ∈ rules → ¬ parks r ap
  | Some (sw, ttl) =>
      (acc = res ∨ ∃ r ap, r ∈ rules ∧ parks r ap ∧ ap_SyncWait ap = sw ∧ ap_ApprovalTTL ap = ttl) ∧
      (∀ sw' ttl', acc = Some (sw', ttl') → sw <= sw') ∧ ∀ r ap, r ∈ rules → parks r ap → sw <= ap_SyncWait ap
  end.
Proof.
  revert acc res. induction rules as [|r rules IH]; intros acc res; cbn [foldl].
  { intros ->. destruct res as [[sw ttl]|]; [|split; [done|by intros r ap ?%elem_of_nil]].
    split_and!; [by left|by intros ? ? [= <- <-]|by intros r ap ?%elem_of_nil]. }
  intros H%IH. destruct (rule_async _ _ r) as [a|] eqn:Er.
  - apply rule_async_parks in Er as Hp. cbn [shorter] in H.
    assert (∀ ap, parks r ap → ap = a) as Hun by (intros ap Hap%rule_async_parks; congruence).
    destruct res as [[sw ttl]|].
    + destruct H as (H1 & H2 & H3). split_and!.
      * destruct H1 as [H1|(r' & ap & Hin & Hap)]; [|right; exists r', ap; split; [by right|done]].
        destruct acc as [[sw0 ttl0]|]; [destruct (_ <? _); [|by left]|]; injection H1 as <- <-; right; exists r, a; (split_and!; [by left|done..]).
      * intros sw' ttl' ->. destruct (Z.ltb_spec (ap_SyncWait a) sw'); [|by eapply H2]. specialize (H2 _ _ eq_refl). lia.
      * intros r' ap [->|Hin]%elem_of_cons Hap; [|by eapply H3]. apply Hun in Hap as ->.
        destruct acc as [[sw0 ttl0]|]; [destruct (Z.ltb_spec (ap_SyncWait a) sw0)|]; specialize (H2 _ _ eq_refl); lia.
    + destruct H as [H _]. destruct acc as [[sw0 ttl0]|]; [destruct (_ <? _)|]; done.
  - assert (∀ ap, ¬ parks r ap) as Hno by (intros ap Hap%rule_async_parks; congruence). cbn [shorter] in H.
    destruct res as [[sw ttl]|].
    + destruct H as (H1 & H2 & H3). split_and!; [|done|].
      * destruct H1 as [H1|(r' & ap & Hin & Hap)]; [by left|]. right. exists r', ap. split; [by right|done].
      * intros r' ap [->|Hin]%elem_of_cons Hap; [by apply Hno in Hap|by eapply H3].
    + destruct H as [-> H]. split; [done|]. intros r' ap [->|Hin]%elem_of_cons; [apply Hno|by apply H].
Qed.

(** What the manifest says about asynchronous approval is what the request loop
    does: an endpoint is announced exactly if the profile opts in and a request
    matching some enabled rule of it would be parked, with the shortest wait of
    any such rule. *)
Theorem async_manifest_exact prof name :
  match endpointAsyncHITL (hk_async hk) (gv_policy g) prof name with
  | Some (sw, ttl) => prof_HITLAsyncGrants prof = true ∧ ∃ ep, prof_Endpoints prof !! name = Some ep ∧
      (∃ r ap, r ∈ ep_Rules ep ∧ parks r ap ∧ ap_SyncWait ap = sw ∧ ap_ApprovalTTL ap = ttl) ∧
      ∀ r ap, r ∈ ep_Rules ep → parks r ap → sw <= ap_SyncWait ap
  | None => prof_HITLAsyncGrants prof = true → ∀ ep r ap, prof_Endpoints prof !! name = Some ep → r ∈ ep_Rules ep → ¬ parks r ap
  end.
Proof.
  unfold endpointAsyncHITL. destruct (prof_HITLAsyncGrants prof); [|done]. cbn [negb]. destruct (prof_Endpoints prof !! name) as [ep|]; [|done].
  destruct (foldl _ None (ep_Rules ep)) as [[sw ttl]|] eqn:E; apply shortest_spec in E.
  - destruct E as ([E|E] & _ & Hm); [done|]. eauto 10.
  - destruct E as [_ E]. intros _ ep' r ap [= <-]. apply E.
Qed.
End Async.
