(* ===== verification/Sampler.v ===== *)
(** * Recorded bodies: [sample_redact.go] and the sampler of [cmd/clawpatrol/web.go]

    While a body passes through, a sampler keeps its first bytes, counts and
    hashes it and notes how it ended; the event of the request gets the sample
    with the material of the credential replaced. The hash is a function of all
    bytes written; the decoders of compressed bodies are a parameter. *)
From S2P Require Import Prelude GoStrings NetAddr GoUrl GoHttp Wire Policy Compile CompileProps HitlStore Fingerprint.

(** ** Redaction *)

Definition credentialSampleRedaction : string := "[REDACTED credential]".

Definition appendCredentialSecretRedaction (dst : list string) (secret : string) : list string :=
  if String.eqb secret "" || bool_decide (secret ∈ dst) then dst else dst ++ [secret].

Definition appendCredentialSecretRedactions (dst : list string) (sec : Secret) : list string :=
  foldl appendCredentialSecretRedaction (appendCredentialSecretRedaction dst (sec_Bytes sec)) (map_to_list (sec_Extras sec)).*2.

Definition redact_one (sample secret : string) : string :=
  if String.eqb secret "" then sample else ReplaceAll sample secret credentialSampleRedaction.

Definition redactCredentialSample (sample : string) (secrets : list string) : string :=
  foldl redact_one sample (stable_sort (λ a b, (String.length b <? String.length a)%nat) secrets).

(** A header value after injection, and the token part of it. *)
Definition add_header_secret (prev : list string) (out : list string) (v : string) : list string :=
  if String.eqb v "" || (String.length v <? 8)%nat || bool_decide (v ∈ prev) then out
  else
    let out := appendCredentialSecretRedaction out v in
    let '(_, tok, ok) := CutByte v " " in
    if ok && (8 <=? String.length tok)%nat then appendCredentialSecretRedaction out tok else out.

Definition injectedHeaderSecrets (before after : Header) : list string :=
  foldl (λ out kv, foldl (add_header_secret (default [] (before !! fst kv))) out (snd kv)) [] (map_to_list after).

(** The list the request loop builds: the stored material, what the credential
    reports it has put on the wire, then what injection put into headers. *)
Definition redaction_list (sec : Secret) (consumed : list string) (before after : Header) : list string :=
  foldl appendCredentialSecretRedaction
    (foldl appendCredentialSecretRedaction (appendCredentialSecretRedactions [] sec) consumed) (injectedHeaderSecrets before after).

(** *** Headers *)

Definition sensitiveHeader (name : string) : bool :=
  existsb (Contains (ToLower name)) ["auth"; "token"; "secret"; "key"; "password"; "cookie"].

Definition flatHeadersRedacted (h : Header) (redactions : list string) : gmap string string :=
  map_imap (λ k v, Some (if sensitiveHeader k then "***" else redactCredentialSample (Join v ", ") redactions)) h.

Definition flatHeaders (h : Header) : gmap string string := flatHeadersRedacted h [].

(** ** The sampler *)

Inductive samplerState := SPending | SComplete | SAborted.

#[global] Instance samplerState_eq_dec : EqDecision samplerState.
Proof. solve_decision. Defined.

Record sampler := mkSampler {
  sa_cap : Z;
  (** negative when the length is not declared *)
  sa_contentLength : Z;
  sa_buf : string;
  (** what the hash has seen *)
  sa_hashed : string;
  sa_n : Z;
  sa_state : samplerState
}.

Definition newSampler (capBytes contentLength : Z) : sampler :=
  mkSampler capBytes contentLength "" "" 0 (if contentLength =? 0 then SComplete else SPending).

Definition slen (s : string) : Z := Z.of_nat (String.length s).

Definition sampler_Write (p : string) (s : sampler) : sampler :=
  let n := sa_n s + slen p in
  let remain := sa_cap s - slen (sa_buf s) in
  let buf := if 0 <? remain then sa_buf s +:+ (if remain <? slen p then str_take (Z.to_nat remain) p else p) else sa_buf s in
  let state :=
    if bool_decide (sa_state s = SComplete) && (0 <? slen p) then SAborted
    else if 0 <=? sa_contentLength s then
      if sa_contentLength s <? n then SAborted
      else if (n =? sa_contentLength s) && bool_decide (sa_state s = SPending) then SComplete
      else sa_state s
    else sa_state s in
  mkSampler (sa_cap s) (sa_contentLength s) buf (sa_hashed s +:+ p) n state.

Definition set_state (s : sampler) (st : samplerState) : sampler :=
  mkSampler (sa_cap s) (sa_contentLength s) (sa_buf s) (sa_hashed s) (sa_n s) st.

(** The error of a read: none, the end of the body, another. *)
Inductive ReadErr := NoErr | EOF | OtherErr.

Definition finishRead (err : ReadErr) (s : sampler) : sampler :=
  match err with
  | NoErr => s
  | _ =>
      if negb (bool_decide (sa_state s = SPending)) then s
      else match err with
           | EOF => if (sa_contentLength s <? 0) || (sa_n s =? sa_contentLength s) then set_state s SComplete else set_state s SAborted
           | _ => set_state s SAborted
           end
  end.

Definition sampler_abort (s : sampler) : sampler := if bool_decide (sa_state s = SPending) then set_state s SAborted else s.

(** [sampledReadCloser]: a read that returned [p] with [err], and [Close]. *)
Inductive BodyOp := OpRead (p : string) (err : ReadErr) | OpClose.

Definition body_step (s : sampler) (o : BodyOp) : sampler :=
  match o with
  | OpRead p err => finishRead err (if String.eqb p "" then s else sampler_Write p s)
  | OpClose => sampler_abort s
  end.

(** ** The sample *)

(** *** UTF-8 *)

(** The lead byte of a sequence: how many bytes follow, and the range of the
    first of them. *)
Definition lead_byte (c : ascii) : option (nat * N * N) :=
  let b := N_of_ascii c in
  (if b <? 194 then None
   else if b <? 224 then Some (1%nat, 128, 191)
   else if b =? 224 then Some (2%nat, 160, 191)
   else if b =? 237 then Some (2%nat, 128, 159)
   else if b <? 240 then Some (2%nat, 128, 191)
   else if b =? 240 then Some (3%nat, 144, 191)
   else if b <? 244 then Some (3%nat, 128, 191)
   else if b =? 244 then Some (3%nat, 128, 143)
   else None)%N.

Definition in_range (lo hi : N) (c : ascii) : bool := ((lo <=? N_of_ascii c) && (N_of_ascii c <=? hi))%N.

(** [utf8.Valid], in the middle of a sequence of [n] more bytes. *)
Fixpoint utf8_run (n : nat) (lo hi : N) (s : string) : bool :=
  match s with
  | EmptyString => (n =? 0)%nat
  | String c s' =>
      match n with
      | S m => in_range lo hi c && utf8_run m 128 191 s'
      | O => if (N_of_ascii c <? 128)%N then utf8_run 0 0 0 s'
             else match lead_byte c with Some (m, l, h) => utf8_run m l h s' | None => false end
      end
  end.

Definition utf8_Valid (s : string) : bool := utf8_run 0 0 0 s.

(** What [utf8.DecodeRune] and [utf8.FullRune] say about the front of a text:
    [RuneError] stands for an invalid byte and for the encoding of U+FFFD. *)
Inductive FrontRune := Rune | RuneError | Partial.

Fixpoint rest_of_rune (n : nat) (lo hi : N) (s : string) : FrontRune :=
  match n with
  | O => Rune
  | S m =>
      match s with
      | EmptyString => Partial
      | String c s' => if in_range lo hi c then rest_of_rune m 128 191 s' else RuneError
      end
  end.

Definition replacement_rune : string := String (ascii_of_N 239) (String (ascii_of_N 191) (String (ascii_of_N 189) "")).

Definition front_rune (s : string) : FrontRune :=
  match s with
  | EmptyString => Partial
  | String c s' =>
      if HasPrefix s replacement_rune then RuneError
      else if (N_of_ascii c <? 128)%N then Rune
      else match lead_byte c with Some (m, l, h) => rest_of_rune m l h s' | None => RuneError end
  end.

Definition RuneStart (c : ascii) : bool := negb (in_range 128 191 c).

Definition tail_of (i : nat) (b : string) : string := str_drop (String.length b - i) b.

(** The loop from [i] on. *)
Fixpoint trim_rune (fuel i : nat) (b : string) : string :=
  match fuel with
  | O => b
  | S f =>
      if (String.length b <? i)%nat then b
      else match front_rune (tail_of i b) with
           | Rune => b
           | RuneError => trim_rune f (S i) b
           | Partial =>
               match tail_of i b with
               | String c _ => if RuneStart c then str_take (String.length b - i) b else trim_rune f (S i) b
               | EmptyString => trim_rune f (S i) b
               end
           end
  end.

Definition trimIncompleteRune (b : string) : string := trim_rune 3 1 b.

Definition isPrintable (b : string) : bool :=
  utf8_Valid b &&
  str_forall (λ c, let x := N_of_ascii c in negb ((x =? 0) || ((x <? 32) && negb (x =? 10) && negb (x =? 13) && negb (x =? 9)))%N) b.

(** *** Previews *)

Definition line_feed : string := String (ascii_of_nat 10) "".
Definition bodyTruncatedMarker : string := line_feed +:+ "[clawpatrol:body-truncated]".
Definition decodedSampleCap : nat := 4096.
Definition decodedSampleTruncatedMarker : string := line_feed +:+ "[decoded response sample truncated]".

Section Decode.
(** [Some] for an encoding that is known and a decoder that opens: what it
    yields, up to one byte more than the cap. *)
Context (decoder : string -> string -> option string) (sha256 : string -> string).

Definition maybeDecode (buf encoding : string) : string :=
  match decoder (ToLower (TrimSpace encoding)) buf with
  | None => buf
  | Some out =>
      if String.eqb out "" then buf
      else if (decodedSampleCap <? String.length out)%nat then str_take decodedSampleCap out +:+ decodedSampleTruncatedMarker
      else out
  end.

Definition sampledBody (raw : string) (truncated : bool) (encoding : string) : string :=
  if String.eqb raw "" then if truncated then bodyTruncatedMarker else ""
  else
    let body := maybeDecode raw encoding in
    let body := if truncated then trimIncompleteRune body else body in
    let out := if isPrintable body then body else "binary:" +:+ hex_encode (str_take 64 raw) in
    if truncated then out +:+ bodyTruncatedMarker else out.

Record samplerSnapshot := mkSnapshot { ss_sha : string; ss_sample : string; ss_n : Z; ss_truncated : bool; ss_state : samplerState }.

Definition sampler_snapshot (encoding : string) (s : sampler) : samplerSnapshot :=
  let truncated := sa_cap s <? sa_n s in
  mkSnapshot (if bool_decide (sa_state s = SComplete) && (0 <? sa_n s) then hex_encode (sha256 (sa_hashed s)) else "")
    (sampledBody (sa_buf s) truncated encoding) (sa_n s) truncated (sa_state s).

Definition captureState (s : samplerSnapshot) : string :=
  match ss_state s with SPending => "incomplete" | SAborted => "aborted" | SComplete => "complete" end.

(** What an event records of a body: length, hash, sample and how it ended. *)
Definition applyBodySnapshot (s : samplerSnapshot) (redactions : list string) : Z * string * string * string :=
  (ss_n s, ss_sha s, redactCredentialSample (ss_sample s) redactions, captureState s).

(** What the event of a request that was answered by the upstream records of its
    headers and bodies. *)
Record RecordedEvent := mkRecorded {
  re_ReqHeaders : gmap string string;
  re_RespHeaders : gmap string string;
  re_ReqBody : string;
  re_RespBody : string
}.

Definition record_event (reqH respH : Header) (reqS : sampler) (reqEnc : string) (respS : sampler) (respEnc : string)
    (redactions : list string) : RecordedEvent :=
  mkRecorded (flatHeadersRedacted reqH redactions) (flatHeaders respH)
    (applyBodySnapshot (sampler_snapshot reqEnc reqS) redactions).1.2
    (applyBodySnapshot (sampler_snapshot respEnc respS) redactions).1.2.
End Decode.

(** * What is recorded of a body *)

(** ** Redaction *)

Lemma HasPrefix_before c a b x : no_byte c x = true → HasPrefix (a +:+ String c b) x = true → HasPrefix a x = true.
Proof.
  unfold no_byte. revert a. induction x as [|d x IH]; intros a; [by destruct a|]. cbn [str_forall]. intros [Hd Hx]%andb_true_iff.
  destruct a as [|e a]; cbn [String.append HasPrefix]; intros [H1 H2]%andb_true_iff.
  - by rewrite H1 in Hd.
  - rewrite H1. cbn. by eapply IH.
Qed.

Lemma Contains_cons c s x : Contains (String c s) x = HasPrefix (String c s) x || Contains s x.
Proof. unfold Contains. cbn [Index]. destruct (HasPrefix _ _); [done|]. by destruct (Index s x). Qed.

(** A text that lacks a byte lies on one side of it. *)
Lemma Contains_split c a b x : no_byte c x = true → Contains (a +:+ String c b) x = true → Contains a x = true ∨ Contains b x = true.
Proof.
  intros Hx. induction a as [|d a IH].
  - change ("" +:+ String c b) with (String c b). rewrite Contains_cons. intros [H|H]%orb_true_iff; [|by right].
    destruct x as [|e x]; [by right; destruct b|]. cbn in H, Hx. apply andb_true_iff in H as [H _]. by rewrite H in Hx.
  - change (String d a +:+ String c b) with (String d (a +:+ String c b)). rewrite !Contains_cons. intros [H|H]%orb_true_iff.
    + left. apply orb_true_iff. left. by apply (HasPrefix_before c (String d a) b x).
    + destruct (IH H) as [->|]; [left; apply orb_true_r|by right].
Qed.

(** A secret the marker cannot hide: without brackets, and no part of it. *)
Definition plain_secret (x : string) : Prop := x ≠ "" ∧ no_byte "[" x = true ∧ no_byte "]" x = true ∧ Contains credentialSampleRedaction x = false.

Lemma Contains_marker s x : plain_secret x → Contains (credentialSampleRedaction +:+ s) x = true → Contains s x = true.
Proof.
  intros (Hne & H1 & H2 & H3) H. change (credentialSampleRedaction +:+ s) with ("" +:+ String "[" ("REDACTED credential" +:+ String "]" s)) in H.
  apply (Contains_split _ _ _ _ H1) in H as [H|H]; [by destruct x|]. apply (Contains_split _ _ _ _ H2) in H as [H|H]; [|done].
  exfalso. apply Contains_spec in H as (a & b & H). assert (Contains credentialSampleRedaction x = true) as Ht; [|congruence].
  change credentialSampleRedaction with ("[" +:+ "REDACTED credential" +:+ "]"). rewrite H.
  replace ("[" +:+ (a +:+ (x +:+ b)) +:+ "]") with (("[" +:+ a) +:+ (x +:+ (b +:+ "]"))) by (by rewrite !str_app_assoc). apply Contains_app.
Qed.

Lemma HasPrefix_replaced old s x : no_byte "[" x = true → HasPrefix (replace_from 0 old credentialSampleRedaction s) x = true → HasPrefix s x = true.
Proof.
  unfold no_byte. revert x. induction s as [|c s IH]; intros x Hx; cbn [replace_from]; [done|].
  destruct (HasPrefix (String c s) old).
  - destruct x as [|d x]; [done|]. cbn [str_forall] in Hx. apply andb_true_iff in Hx as [Hx _]. apply negb_true_iff in Hx.
    match goal with |- context [credentialSampleRedaction +:+ ?t] =>
      change (credentialSampleRedaction +:+ t) with (String "[" ("REDACTED credential]" +:+ t)) end.
    cbn [HasPrefix]. by rewrite Hx.
  - destruct x as [|d x]; [done|]. cbn [HasPrefix str_forall] in *. intros [H1 H2]%andb_true_iff. apply andb_true_iff in Hx as [_ Hx]. rewrite H1. cbn. by apply IH.
Qed.

Lemma replaced_contains old k s x : plain_secret x → Contains (replace_from k old credentialSampleRedaction s) x = true → Contains s x = true.
Proof.
  intros Hp. revert k. induction s as [|c s IH]; intros k; [by destruct k|]. rewrite Contains_cons. destruct k as [|k]; cbn [replace_from].
  - destruct (HasPrefix (String c s) old).
    + intros H%(Contains_marker _ _ Hp)%IH. by rewrite H, orb_true_r.
    + rewrite Contains_cons. intros [H|H]%orb_true_iff; [|by rewrite (IH _ H), orb_true_r]. apply orb_true_iff. left.
      destruct Hp as (_ & Hb & _). destruct x as [|d x]; [done|]. cbn [HasPrefix] in H |- *. apply andb_true_iff in H as [-> H]. cbn in Hb |- *.
      apply andb_true_iff in Hb as [_ Hb]. by eapply HasPrefix_replaced.
  - intros H%IH. by rewrite H, orb_true_r.
Qed.

Lemma replaced_absent x k s : plain_secret x → Contains (replace_from k x credentialSampleRedaction s) x = false.
Proof.
  intros Hp. apply not_true_iff_false. revert k. induction s as [|c s IH]; intros k; cbn [replace_from]; [destruct Hp as [? _]; by destruct x|].
  destruct k as [|k]; [|apply IH]. destruct (HasPrefix (String c s) x) eqn:E; [intros H%(Contains_marker _ _ Hp); by apply IH in H|].
  rewrite Contains_cons. intros [H|H]%orb_true_iff; [|by apply IH in H]. destruct Hp as (_ & Hb & _). assert (HasPrefix (String c s) x = true) as Ht; [clear E|congruence].
  destruct x as [|d x]; [done|]. cbn [HasPrefix] in H |- *. apply andb_true_iff in H as [-> H]. cbn in Hb |- *. apply andb_true_iff in Hb as [_ Hb].
  by eapply HasPrefix_replaced.
Qed.

Lemma redact_one_keeps x s old : plain_secret x → Contains s x = false → Contains (redact_one s old) x = false.
Proof.
  intros Hp Hs. unfold redact_one. destruct (String.eqb old ""); [done|]. apply not_true_iff_false. intros H%(replaced_contains _ _ _ _ Hp). congruence.
Qed.

Lemma redact_all l s x : plain_secret x → x ∈ l ∨ Contains s x = false → Contains (foldl redact_one s l) x = false.
Proof.
  intros Hp. revert s. induction l as [|old l IH]; intros s; cbn [foldl]; [by intros [?%elem_of_nil|]|].
  intros [[->|Hin]%elem_of_cons|Hs]; apply IH; [right|by left|right; by apply redact_one_keeps].
  unfold redact_one. destruct (String.eqb_spec old ""); [by destruct Hp as [? _]|]. by apply replaced_absent.
Qed.

Lemma append_redaction_mem dst secret x : x ∈ appendCredentialSecretRedaction dst secret ↔ x ∈ dst ∨ (x = secret ∧ secret ≠ "").
Proof.
  unfold appendCredentialSecretRedaction. destruct (String.eqb_spec secret "") as [->|Hne]; cbn [orb]; [naive_solver|].
  case_bool_decide; [naive_solver|]. rewrite elem_of_app, list_elem_of_singleton. naive_solver.
Qed.

Lemma append_redactions_mem l dst x : x ∈ foldl appendCredentialSecretRedaction dst l ↔ x ∈ dst ∨ (x ∈ l ∧ x ≠ "").
Proof.
  revert dst. induction l as [|y l IH]; intros dst; cbn [foldl]; [set_solver|]. rewrite IH, append_redaction_mem, elem_of_cons. naive_solver.
Qed.

(** Headers injection added or changed: what is long enough to be a credential,
    whole and without its scheme. *)
Definition injected (before after : Header) (x : string) : Prop :=
  ∃ key vals v, after !! key = Some vals ∧ v ∈ vals ∧ v ∉ default [] (before !! key) ∧ (8 <= String.length v)%nat ∧
    (x = v ∨ ∃ scheme, CutByte v " " = (scheme, x, true) ∧ (8 <= String.length x)%nat).

Lemma add_header_secret_mem prev out v x :
  x ∈ add_header_secret prev out v ↔
  x ∈ out ∨ (v ∉ prev ∧ (8 <= String.length v)%nat ∧ (x = v ∨ ∃ scheme, CutByte v " " = (scheme, x, true) ∧ (8 <= String.length x)%nat)).
Proof.
  unfold add_header_secret. destruct (String.eqb_spec v "") as [->|Hne]; cbn [orb]; [split; [by left|intros [?|(_ & H & _)]; [done|cbn in H; lia]]|].
  destruct (Nat.ltb_spec (String.length v) 8) as [Hl|Hl]; cbn [orb]; [split; [by left|intros [?|(_ & H & _)]; [done|lia]]|].
  case_bool_decide as Hp; [naive_solver|]. destruct (CutByte v " ") as [[scheme tok] ok].
  destruct ok; cbn [andb]; [destruct (Nat.leb_spec 8 (String.length tok)) as [Ht|Ht]|]; rewrite !append_redaction_mem.
  - assert (tok ≠ "") by (intros ->; cbn in Ht; lia). naive_solver.
  - split; [naive_solver|]. intros [?|(_ & _ & [->|(sc & [= <- <-] & ?)])]; [by left|by right|lia].
  - naive_solver.
Qed.

Lemma injectedHeaderSecrets_mem before after x : x ∈ injectedHeaderSecrets before after ↔ injected before after x.
Proof.
  unfold injectedHeaderSecrets, injected.
  enough (∀ (l : list (string * list string)) out, x ∈ foldl (λ out kv, foldl (add_header_secret (default [] (before !! fst kv))) out (snd kv)) out l ↔
    x ∈ out ∨ ∃ key vals v, (key, vals) ∈ l ∧ v ∈ vals ∧ v ∉ default [] (before !! key) ∧ (8 <= String.length v)%nat ∧
      (x = v ∨ ∃ scheme, CutByte v " " = (scheme, x, true) ∧ (8 <= String.length x)%nat)) as H.
  { rewrite H. setoid_rewrite elem_of_map_to_list. split; [by intros [?%elem_of_nil|]|by right]. }
  induction l as [|[k vs] l IH]; intros out; cbn [foldl fst snd]; [set_solver|]. rewrite IH.
  assert (∀ vs out, x ∈ foldl (add_header_secret (default [] (before !! k))) out vs ↔ x ∈ out ∨ ∃ v, v ∈ vs ∧ v ∉ default [] (before !! k) ∧ (8 <= String.length v)%nat ∧
      (x = v ∨ ∃ scheme, CutByte v " " = (scheme, x, true) ∧ (8 <= String.length x)%nat)) as Hv.
  { clear. induction vs as [|v vs IH]; intros out; cbn [foldl]; [set_solver|]. rewrite IH, add_header_secret_mem. setoid_rewrite elem_of_cons. naive_solver. }
  rewrite Hv. setoid_rewrite elem_of_cons. naive_solver.
Qed.

Lemma redaction_list_mem sec consumed before after x :
  x ∈ redaction_list sec consumed before after ↔ x ≠ "" ∧ (x = sec_Bytes sec ∨ (∃ slot, sec_Extras sec !! slot = Some x) ∨ x ∈ consumed ∨ injected before after x).
Proof.
  unfold redaction_list, appendCredentialSecretRedactions. rewrite !append_redactions_mem, append_redaction_mem, injectedHeaderSecrets_mem, list_elem_of_fmap.
  assert ((∃ y, x = snd y ∧ y ∈ map_to_list (sec_Extras sec)) ↔ ∃ slot, sec_Extras sec !! slot = Some x) as ->.
  { split; [intros ([k v] & -> & H%elem_of_map_to_list); eauto|]. intros [k H]. exists (k, x). split; [done|]. by apply elem_of_map_to_list. }
  rewrite elem_of_nil. naive_solver.
Qed.

(** C26. What the event of a forwarded request records of its two bodies and of the
    request headers contains neither the stored material of the credential that
    was used, nor what the credential reports to have put on the wire, nor a
    header value of eight bytes or more it added, also when the upstream echoes
    them in the body, unless the value is part of the marker or has one of its
    brackets. The headers of the response are not covered. *)
Theorem samples_are_redacted decoder sha256 sec consumed before after reqH respH reqS reqEnc respS respEnc x :
  (x = sec_Bytes sec ∨ (∃ slot, sec_Extras sec !! slot = Some x) ∨ x ∈ consumed ∨ injected before after x) → plain_secret x →
  let ev := record_event decoder sha256 reqH respH reqS reqEnc respS respEnc (redaction_list sec consumed before after) in
  Contains (re_ReqBody ev) x = false ∧ Contains (re_RespBody ev) x = false ∧
  (∀ k v, re_ReqHeaders ev !! k = Some v → Contains v x = false ∨ v = "***").
Proof.
  intros Hx Hp. assert (∀ s, Contains (redactCredentialSample s (redaction_list sec consumed before after)) x = false) as H.
  { intros s. apply redact_all; [done|]. left. rewrite elem_of_stable_sort, redaction_list_mem. by destruct Hp. }
  split; [apply H|]. split; [apply H|]. intros k v. cbn [record_event re_ReqHeaders]. unfold flatHeadersRedacted. rewrite map_lookup_imap.
  destruct (reqH !! k) as [vs|]; [|done]. cbn [mbind option_bind]. intros [= <-]. destruct (sensitiveHeader k); [by right|]. left. apply H.
Qed.

(** The headers of the response are recorded as the upstream sent them, but for
    those with a suspicious name: a credential echoed in any other is in the
    record in full. *)
Theorem response_header_recorded_verbatim decoder sha256 reqH respH reqS reqEnc respS respEnc redactions k vs :
  respH !! k = Some vs → sensitiveHeader k = false →
  re_RespHeaders (record_event decoder sha256 reqH respH reqS reqEnc respS respEnc redactions) !! k = Some (Join vs ", ").
Proof.
  intros Hk Hs. cbn [record_event re_RespHeaders]. unfold flatHeaders, flatHeadersRedacted. rewrite map_lookup_imap, Hk.
  cbn [mbind option_bind]. by rewrite Hs.
Qed.

Definition wire_before : Header := ∅.
Definition wire_after : Header := {["Authorization" := ["Bearer sk-0123456789"]]}.

Definition echo_event : RecordedEvent :=
  record_event (λ _ _, None) id wire_after {["X-Echo" := ["sk-0123456789"]]} (newSampler 100 (-1)) ""
    (sampler_Write "key=sk-0123456789" (newSampler 100 (-1))) "" (redaction_list (mkSecret "sk-0123456789" ∅) [] wire_before wire_after).

Lemma samples_are_redacted_witness :
  re_RespBody echo_event = "key=[REDACTED credential]" ∧ Contains (re_RespBody echo_event) "sk-0123456789" = false.
Proof.
  split; [vm_compute; reflexivity|].
  refine (proj1 (proj2 (samples_are_redacted (λ _ _, None) id (mkSecret "sk-0123456789" ∅) [] wire_before wire_after wire_after _ _ _ _ _
    "sk-0123456789" (or_introl eq_refl) _))).
  split; [discriminate|]. repeat split; vm_compute; reflexivity.
Defined.

(** A short secret that occurs in the marker itself stays in the sample. *)
Example marker_part_survives : redactCredentialSample "pw: cred" ["cred"] = "pw: [REDACTED credential]".
Proof. reflexivity. Qed.

(** ** The sampler *)

Definition body_of (ops : list BodyOp) : string := String.concat "" ((λ o, match o with OpRead p _ => p | OpClose => "" end) <$> ops).

Definition run_body (cap cl : Z) (ops : list BodyOp) : sampler := foldl body_step (newSampler cap cl) ops.

Record sampler_inv (cap cl : Z) (read : string) (s : sampler) : Prop := mkSamplerInv {
  si_cap : sa_cap s = cap;
  si_cl : sa_contentLength s = cl;
  si_hashed : sa_hashed s = read;
  si_n : sa_n s = slen read;
  si_buf : sa_buf s = str_take (Z.to_nat cap) read;
  si_complete : sa_state s = SComplete → 0 <= cl → slen read = cl
}.

Lemma slen_app a b : slen (a +:+ b) = slen a + slen b.
Proof. unfold slen. rewrite str_length_app. lia. Qed.

Lemma slen_take n s : slen (str_take n s) = Z.min (Z.of_nat n) (slen s).
Proof.
  unfold slen. destruct (Nat.le_gt_cases n (String.length s)); [rewrite str_length_take by done; lia|]. rewrite str_take_all by lia. lia.
Qed.

Lemma Write_inv cap cl read s p : 0 <= cap → sampler_inv cap cl read s → sampler_inv cap cl (read +:+ p) (sampler_Write p s).
Proof.
  intros Hcap [H1 H2 H3 H4 H5 H6]. pose proof (slen_take (Z.to_nat cap) read) as Hl.
  assert (0 <= slen read ∧ 0 <= slen p) as [Hr Hp] by (unfold slen; lia).
  split; cbn [sampler_Write sa_cap sa_contentLength sa_hashed sa_n sa_buf sa_state]; [done|done|by rewrite H3|by rewrite slen_app, H4| |].
  - rewrite H1, H5, Hl. destruct (Z.ltb_spec 0 (cap - Z.min (Z.of_nat (Z.to_nat cap)) (slen read))) as [Hlt|Hge].
    + assert (slen read < cap) as Hlc by lia. rewrite (str_take_all _ read) by (unfold slen in Hlc; lia). rewrite str_take_app_ge by (unfold slen in Hlc; lia). f_equal.
      replace (cap - Z.min (Z.of_nat (Z.to_nat cap)) (slen read)) with (cap - slen read) by lia.
      assert (Z.to_nat cap - String.length read = Z.to_nat (cap - slen read))%nat as -> by (unfold slen; lia).
      destruct (Z.ltb_spec (cap - slen read) (slen p)); [done|]. by rewrite str_take_all by (unfold slen in *; lia).
    + by rewrite str_take_app_le by (unfold slen in *; lia).
  - rewrite H2, H4. intros Hs Hc. rewrite slen_app. rewrite (proj2 (Z.leb_le 0 cl) Hc) in Hs.
    destruct (bool_decide (sa_state s = SComplete) && (0 <? slen p)) eqn:E; [done|].
    destruct (Z.ltb_spec cl (slen read + slen p)); [done|].
    destruct ((slen read + slen p =? cl) && _) eqn:E2; [apply andb_true_iff in E2 as [E2 _]; by apply Z.eqb_eq in E2|].
    rewrite (H6 Hs Hc) in *. rewrite Hs in E. cbn in E. destruct (Z.ltb_spec 0 (slen p)); [done|lia].
Qed.

Lemma set_state_inv cap cl read s st :
  sampler_inv cap cl read s → (st = SComplete → 0 <= cl → slen read = cl) → sampler_inv cap cl read (set_state s st).
Proof. intros [H1 H2 H3 H4 H5 _] Hst. by split. Qed.

Lemma body_step_inv cap cl read s o :
  0 <= cap → sampler_inv cap cl read s → sampler_inv cap cl (read +:+ match o with OpRead p _ => p | OpClose => "" end) (body_step s o).
Proof.
  intros Hcap Hs. destruct o as [p err|]; cbn [body_step].
  - assert (sampler_inv cap cl (read +:+ p) (if String.eqb p "" then s else sampler_Write p s)) as H.
    { destruct (String.eqb_spec p "") as [->|]; [by rewrite str_app_nil_r|by apply Write_inv]. }
    revert H. generalize (if String.eqb p "" then s else sampler_Write p s) as s'. intros s' H. unfold finishRead.
    destruct err; [done|destruct (negb _); [done|]..].
    + destruct (_ || _) eqn:E; apply set_state_inv; try done. intros _ Hc. rewrite (si_cl _ _ _ _ H), (si_n _ _ _ _ H) in E.
      apply orb_true_iff in E as [E|E]; [apply Z.ltb_lt in E; lia|by apply Z.eqb_eq in E].
    + by apply set_state_inv.
  - rewrite str_app_nil_r. unfold sampler_abort. destruct (bool_decide _); [by apply set_state_inv|done].
Qed.

Lemma run_body_inv cap cl ops : 0 <= cap → sampler_inv cap cl (body_of ops) (run_body cap cl ops).
Proof.
  intros Hcap. unfold run_body, body_of.
  enough (∀ ops read s, sampler_inv cap cl read s → sampler_inv cap cl (read +:+ String.concat "" ((λ o, match o with OpRead p _ => p | OpClose => "" end) <$> ops)) (foldl body_step s ops)) as H.
  { apply (H ops ""). split; cbn; try done; [by destruct (Z.to_nat cap)|]. intros Hc _. destruct (Z.eqb_spec cl 0); [done|done]. }
  clear ops. induction ops as [|o ops IH]; intros read s Hs; cbn [foldl fmap list_fmap]; [cbn; by rewrite str_app_nil_r|].
  apply (body_step_inv _ _ _ _ o Hcap), IH in Hs. rewrite str_app_assoc in Hs. destruct ops as [|o' ops]; cbn in *; [by rewrite str_app_nil_r in Hs|done].
Qed.

Lemma body_of_app a b : body_of (a ++ b) = body_of a +:+ body_of b.
Proof.
  unfold body_of. rewrite fmap_app. induction a as [|x a IH]; [done|]. change ((x :: a) ++ b) with (x :: (a ++ b)). cbn [fmap list_fmap app].
  destruct a as [|y a]; cbn in *.
  - destruct b; cbn; [by rewrite str_app_nil_r|done].
  - by rewrite IH, str_app_assoc.
Qed.

Lemma run_body_cl cap cl ops : sa_contentLength (run_body cap cl ops) = cl.
Proof.
  unfold run_body. apply (foldl_inv body_step (λ s, sa_contentLength s = cl)); [|done]. intros s [p err|] _ <-; cbn [body_step].
  - unfold finishRead. destruct (String.eqb p ""), err; cbn [sampler_Write sa_contentLength]; repeat case_match; done.
  - unfold sampler_abort. by case_match.
Qed.

Definition ends_at_eof (ops : list BodyOp) : Prop := ∃ ops1 p ops2, ops = ops1 ++ OpRead p EOF :: ops2 ∧ body_of ops2 = "".

Lemma ends_at_eof_snoc ops o : ends_at_eof ops → body_of [o] = "" → ends_at_eof (ops ++ [o]).
Proof.
  intros (l1 & q & l2 & -> & Hl2) Ho. exists l1, q, (l2 ++ [o]). split; [by rewrite <- app_assoc|]. by rewrite body_of_app, Hl2, Ho.
Qed.

(** A body of undeclared length is complete only once its end was read, and
    nothing came after. *)
Lemma complete_eof cap cl ops : cl < 0 → sa_state (run_body cap cl ops) = SComplete → ends_at_eof ops.
Proof.
  intros Hcl. induction ops as [|o ops IH] using rev_ind; [cbn; destruct (Z.eqb_spec cl 0); [lia|done]|].
  pose proof (run_body_cl cap cl ops) as Hc. unfold run_body in *. rewrite foldl_snoc. set (s := foldl body_step (newSampler cap cl) ops) in *.
  destruct o as [p err|]; cbn [body_step].
  - destruct (String.eqb_spec p "") as [->|Hp].
    + destruct (decide (sa_state s = SComplete)) as [Hs|Hs]; [intros _; by apply ends_at_eof_snoc; [apply IH|]|].
      unfold finishRead. destruct err; [done| |destruct (negb _); done]. intros _. by exists ops, "", [].
    + assert (sa_state (sampler_Write p s) ≠ SComplete) as Hw.
      { cbn. rewrite Hc, (proj2 (Z.leb_gt 0 cl) Hcl). case_bool_decide as Hs; cbn [andb]; [|done].
        destruct (Z.ltb_spec 0 (slen p)) as [|Hl]; [done|]. destruct p; [done|]. unfold slen in Hl. cbn in Hl. lia. }
      unfold finishRead. destruct err; [done| |destruct (negb _); done]. intros _. by exists ops, p, [].
  - unfold sampler_abort. case_bool_decide; [done|]. intros Hs. apply ends_at_eof_snoc; [by apply IH|done].
Qed.

Section Recorded.
Context (decoder : string -> string -> option string) (sha256 : string -> string).

(** What an event says about a body is true of it: its length is the number of
    bytes that passed, the sample is of its first bytes, and a hash is given only
    for a body that came through whole, over all of it. *)
Theorem recorded_body_exact cap cl ops enc :
  0 <= cap →
  let snap := sampler_snapshot decoder sha256 enc (run_body cap cl ops) in
  let body := body_of ops in
  ss_n snap = slen body ∧
  ss_truncated snap = (cap <? slen body) ∧
  ss_sample snap = sampledBody decoder (str_take (Z.to_nat cap) body) (cap <? slen body) enc ∧
  (captureState snap = "complete" → (0 <= cl → slen body = cl) ∧ (cl < 0 → ends_at_eof ops)) ∧
  (ss_sha snap ≠ "" → captureState snap = "complete" ∧ ss_sha snap = hex_encode (sha256 body)).
Proof.
  intros Hcap. pose proof (run_body_inv cap cl ops Hcap) as [H1 H2 H3 H4 H5 H6]. cbn [sampler_snapshot ss_n ss_truncated ss_sample ss_sha]. rewrite H1, H3, H4, H5.
  split_and!; [done..| |].
  - unfold captureState. cbn. intros Hs. destruct (sa_state _) eqn:E; [done| |done]. split; [by apply H6|]. intros Hcl. by apply (complete_eof cap cl).
  - unfold captureState. cbn. case_bool_decide as Hs; cbn [andb]; [|done]. destruct (0 <? _); [|done]. by rewrite Hs.
Qed.
End Recorded.

Lemma recorded_body_exact_witness :
  captureState (sampler_snapshot (λ _ _, None) (λ s, s) "" (run_body 4 6 [OpRead "abc" NoErr; OpRead "def" EOF; OpClose])) = "complete" ∧
  ss_n (sampler_snapshot (λ _ _, None) (λ s, s) "" (run_body 4 6 [OpRead "abc" NoErr; OpRead "def" EOF; OpClose])) = 6.
Proof.
  split; [vm_compute; reflexivity|].
  exact (proj1 (recorded_body_exact (λ _ _, None) (λ s, s) 4 6 [OpRead "abc" NoErr; OpRead "def" EOF; OpClose] "" ltac:(lia))).
Defined.

(** ** What redaction misses *)

(** The sample is cut before it is redacted: a secret that straddles the cap
    leaves its first bytes. *)
Theorem cap_keeps_secret_prefix :
  let secret := "sk-0123456789abcdef" in
  let snap := sampler_snapshot (λ _ _, None) (λ s, s) "" (run_body 20 (-1) [OpRead ("key: " +:+ secret) NoErr; OpRead "" EOF]) in
  (applyBodySnapshot snap [secret]).1.2 = "key: sk-0123456789ab" +:+ bodyTruncatedMarker.
Proof. vm_compute. reflexivity. Qed.

(** A body with a byte that is not text is recorded in hexadecimal, where no
    secret is found. *)
Theorem binary_sample_keeps_secret :
  let secret := "sk-01234" in
  let snap := sampler_snapshot (λ _ _, None) (λ s, s) "" (run_body 4096 (-1) [OpRead (String (ascii_of_nat 0) secret) EOF]) in
  (applyBodySnapshot snap [secret]).1.2 = "binary:" +:+ hex_encode (String (ascii_of_nat 0) secret).
Proof. vm_compute. reflexivity. Qed.
