(* ===== verification/LoopProps.v ===== *)
(** * Properties of the request loop

    Nothing leaves the gateway unless the rule, and the approvers or a spent
    grant, permit it; every request is answered and recorded once; and what is
    forwarded is the request that was judged. *)
From S2P Require Import Prelude GoStrings NetAddr GoUrl GoHttp Sanitize Policy Dispatch HitlStore HitlProps Fingerprint FingerprintProps.
From S2P Require Import HitlRegistry Approver ApproveChain Facets K8sPath RequestLoop.

(** ** Reasoning about effects *)

(** A statement the loop committed: when, the store it found, the store it left. *)
Notation Commit := (nat * Store * Store)%type.

(** Whatever the world, [m] appends statements and a segment of effects that
    satisfy [Q] together with the outcome. *)
Definition emits {A} (m : M A) (Q : list Commit -> list Effect -> A + Ctl -> Prop) : Prop :=
  ∀ w, ∃ cs seg, w_commits (m w).1 = w_commits w ++ cs ∧ w_trace (m w).1 = w_trace w ++ seg ∧ Q cs seg (m w).2.

Section Rules.
Context {A : Type}.
Implicit Types (m : M A) (Q : list Commit -> list Effect -> A + Ctl -> Prop).

Lemma emits_ret (a : A) Q : Q [] [] (inl a) → emits (mret a) Q.
Proof. intros H w. exists [], []. cbn. by rewrite !app_nil_r. Qed.

Lemma emits_leave c Q : Q [] [] (inr c) → emits (leave c) Q.
Proof. intros H w. exists [], []. cbn. by rewrite !app_nil_r. Qed.

Lemma emits_mono m Q Q' : emits m Q → (∀ cs seg o, Q cs seg o → Q' cs seg o) → emits m Q'.
Proof. intros H Hi w. destruct (H w) as (cs & seg & ? & ? & ?). exists cs, seg. auto. Qed.

Lemma emits_bind {B} (m : M B) (f : B -> M A) (Q1 : list Commit -> list Effect -> B + Ctl -> Prop) Q :
  emits m Q1 →
  (∀ cs1 seg1 a, Q1 cs1 seg1 (inl a) → emits (f a) (λ cs2 seg2 o, Q (cs1 ++ cs2) (seg1 ++ seg2) o)) →
  (∀ cs seg c, Q1 cs seg (inr c) → Q cs seg (inr c)) →
  emits (m ≫= f) Q.
Proof.
  intros Hm Hf Hc w. destruct (Hm w) as (cs1 & seg1 & Hl1 & Ht1 & Hq1). unfold mbind, M_bind.
  destruct (m w) as [w1 [a|c]]; cbn [fst snd] in *; [|exists cs1, seg1; auto].
  destruct (Hf cs1 seg1 a Hq1 w1) as (cs2 & seg2 & Hl2 & Ht2 & Hq2). exists (cs1 ++ cs2), (seg1 ++ seg2).
  by rewrite Hl2, Hl1, Ht2, Ht1, !app_assoc.
Qed.
End Rules.

Lemma emits_eff e (Q : list Commit -> list Effect -> unit + Ctl -> Prop) : Q [] [e] (inl tt) → emits (eff e) Q.
Proof. intros H w. exists [], [e]. cbn. by rewrite app_nil_r. Qed.

Lemma emits_stmt {A} hk (f : Store -> Store * A) (Q : list Commit -> list Effect -> A + Ctl -> Prop) :
  (∀ k s s' a, f s = (s', a) → Q [(k, s, s')] [] (inl a)) → emits (stmt hk f) Q.
Proof.
  intros H w. unfold stmt. destruct (f _) as [s' a] eqn:E. cbn.
  eexists _, []. split; [done|]. split; [by rewrite app_nil_r|eauto].
Qed.

(** The clock is read, two moments pass, and a statement runs with them. *)
Lemma emits_spend {A} hk (f : Z -> nat -> Store -> Store * A) (Q : list Commit -> list Effect -> A + Ctl -> Prop) :
  (∀ j s s' a, f (hk_clock hk j) (S j) s = (s', a) → Q [(3 + j, s, s')%nat] [] (inl a)) →
  emits (t ← now hk; n ← tick; _ ← tick; stmt hk (f t n)) Q.
Proof.
  intros H w. unfold mbind, M_bind, now, tick, stmt. cbn [w_tick w_store w_trace w_commits].
  destruct (f _ _ _) as [s' a] eqn:E. cbn.
  eexists _, []. split; [done|]. split; [by rewrite app_nil_r|]. by apply H.
Qed.

(** Steps that leave no effects. *)
Definition silent {A} : list Commit -> list Effect -> A + Ctl -> Prop := λ _ seg o, seg = [] ∧ ∃ a, o = inl a.

Lemma emits_now hk : emits (now hk) silent.
Proof. intros w. exists [], []. cbn. rewrite !app_nil_r. repeat split. eauto. Qed.

(** ** Answers, records and traffic *)

(** What the agent gets: a status, a response, or a bridged connection. *)
Definition is_answer (e : Effect) : bool :=
  match e with Respond _ _ | RespondAccepted _ | Reply _ | Bridge _ => true | _ => false end.

Definition is_end (e : Effect) : bool := match e with EmitEnd _ => true | _ => false end.

(** What serves the request: the upstream call, the bridge, a response other than
    a refusal. *)
Definition is_service (e : Effect) : bool :=
  match e with Forward _ | Bridge _ | Reply _ => true | _ => false end.

Definition answers (seg : list Effect) : nat := length (List.filter is_answer seg).
Definition ends (seg : list Effect) : nat := length (List.filter is_end seg).
Definition services (seg : list Effect) : list Effect := List.filter is_service seg.

Lemma answers_app a b : answers (a ++ b) = (answers a + answers b)%nat.
Proof. unfold answers. by rewrite List.filter_app, length_app. Qed.
Lemma ends_app a b : ends (a ++ b) = (ends a + ends b)%nat.
Proof. unfold ends. by rewrite List.filter_app, length_app. Qed.
Lemma services_app a b : services (a ++ b) = services a ++ services b.
Proof. apply List.filter_app. Qed.

(** A stage that lets the request through leaves no answer and establishes [K];
    one that ends the request leaves one answer and one record, and serves it
    only with effects that satisfy [U]; when its statements are among [C]. *)
Definition stage {A} (C : Commit -> Prop) (K : A -> Prop) (U : Effect -> Prop)
    : list Commit -> list Effect -> A + Ctl -> Prop := λ cs seg o,
  match o with
  | inl a => answers seg = 0%nat ∧ ends seg = 0%nat ∧ services seg = [] ∧ (Forall C cs → K a)
  | inr _ => answers seg = 1%nat ∧ ends seg = 1%nat ∧ (Forall C cs → Forall U (services seg))
  end.

(** The continuation may use [K1] where the statements so far are of the run,
    which is the guard [P]. *)
Lemma emits_stage_bind {A B} C (m : M A) (f : A -> M B) K1 K U :
  emits m (stage C K1 U) →
  (∀ (P : Prop) a, (P → K1 a) → emits (f a) (stage C (λ b, P → K b) (λ e, P → U e))) →
  emits (m ≫= f) (stage C K U).
Proof.
  intros Hm Hf. eapply emits_bind; [apply Hm| |done].
  intros cs1 seg1 a (Ha & He & Hs & Hk). eapply emits_mono; [by apply (Hf (Forall C cs1))|].
  intros cs2 seg2 [b|c]; unfold stage; rewrite answers_app, ends_app, services_app, Ha, He, Hs, Forall_app; [naive_solver|].
  intros (? & ? & HU). split; [done|]. split; [done|]. intros [H1 H2]. eapply Forall_impl; [by apply HU|]. auto.
Qed.

Lemma emits_silent_bind {A B} (m : M A) (f : A -> M B) (Q : list Commit -> list Effect -> B + Ctl -> Prop) :
  emits m silent → (∀ cs a, emits (f a) (λ cs2, Q (cs ++ cs2))) → emits (m ≫= f) Q.
Proof.
  intros Hm Hf. eapply emits_bind; [apply Hm| |by intros ? ? ? [_ [? ?]]].
  intros cs1 seg1 a [-> _]. apply Hf.
Qed.

Lemma emits_stmt_bind {A B} hk (f : Store -> Store * A) (k : A -> M B) (Q : list Commit -> list Effect -> B + Ctl -> Prop) :
  (∀ n s s' a, f s = (s', a) → emits (k a) (λ cs, Q ((n, s, s') :: cs))) → emits (stmt hk f ≫= k) Q.
Proof.
  intros H. eapply emits_bind.
  - apply (emits_stmt hk f (λ cs seg o, seg = [] ∧ ∃ n s s' a, cs = [(n, s, s')] ∧ o = inl a ∧ f s = (s', a))). naive_solver.
  - intros cs seg1 a (-> & n & s & s' & a' & -> & [= <-] & E). by eapply H.
  - by intros cs seg c (_ & ? & ? & ? & ? & _ & ? & _).
Qed.

Lemma emits_eff_bind {B} e (k : M B) (Q : list Commit -> list Effect -> B + Ctl -> Prop) :
  emits k (λ cs seg o, Q cs (e :: seg) o) → emits (eff e;; k) Q.
Proof.
  intros H. eapply emits_bind;
    [apply (emits_eff e (λ cs seg o, cs = [] ∧ seg = [e] ∧ o = inl tt)); done| |by intros ? ? ? (_ & _ & ?)].
  intros cs1 seg1 a (-> & -> & _). apply H.
Qed.

(** A clock reading and one statement. *)
Lemma emits_timed {A B} hk (f : Z -> Store -> Store * A) (k : A -> B) :
  emits (t ← now hk; a ← stmt hk (f t); mret (k a)) silent.
Proof.
  apply emits_silent_bind; [apply emits_now|]. intros cs t. apply emits_stmt_bind. intros. apply emits_ret.
  split; eauto.
Qed.

Section Props.
Context (hmac : string -> string -> string) (sha256 base64 : string -> string) (hk : Hooks) (g : GatewayView).

Lemma move_async_silent op to e : emits (move_async hk op to e) silent.
Proof.
  destruct op as [op|]; [|apply emits_ret; split; eauto].
  apply (emits_timed hk (λ t s, transitionAsyncHITLOperation s op to e t)).
Qed.

Lemma close_consumed_silent op to e : emits (close_consumed hk op to e) silent.
Proof.
  destruct op as [op|]; [|apply emits_ret; split; eauto].
  apply (emits_timed hk (λ t s, transitionConsumedHITLRetryGrant s op to e t) (λ _, tt)).
Qed.

(** ** What must have happened in the store *)

Section Run.
(** The statements of the run. *)
Context (C : Commit -> Prop).

(** The request was parked by a statement of the run, or not at all. *)
Definition parked_as (rule : CompiledRule) (asyncOp : option HITLOperation) (syncWait : Z) : Prop :=
  asyncOp = None ∧ syncWait = 0 ∨
  ∃ op approverID ap k s s', asyncOp = Some op ∧ syncWait = ap_SyncWait ap ∧
    asyncHumanApproverFor hk g (out_Approve (rule_Outcome rule)) = Some (approverID, ap) ∧
    C (k, s, s') ∧ s' !! op_ID op = Some op.

(** A statement of the run spent the grant the request names. At the moment of
    the update the row was approved, unspent and unexpired, and made out for the
    profile, the principal, the credential binding and the fingerprint of this
    request; the update marked it spent by the principal and left the rest of
    the table alone. *)
Definition grant_spent (profile agentAddr : string) (ep : CompiledEndpoint) (rule : CompiledRule) (mreq : Request)
    (r : WireRequest) (buf : bufferedHTTPBodyResult) : Prop :=
  ∃ j s s' binding fp row row',
    let principal := hitlPeerPrincipalID agentAddr in let t := hk_clock hk j in let id := retry_operation r in
    C ((3 + j)%nat, s, s') ∧ id ≠ "" ∧ bb_truncated buf = false ∧
    buildHITLAuthBindingID sha256 base64 (gv_times g) profile
      (ResolveCredential (Some (gv_policy g)) profile (Some ep) (Some mreq)) = Ok binding ∧
    ComputeHITLRequestFingerprint hmac
      (fingerprint_input (gv_key g) profile principal ep rule (http_of r) [] (bb_body buf) binding) = Ok fp ∧
    let found := hk_others hk (1 + j)%nat s in
    found !! id = Some row ∧ op_State row = ApprovedWaitingForRetry ∧ op_GrantConsumedAt row = None ∧
    (∃ e, op_RetryExpiresAt row = Some e ∧ t < e) ∧
    c_ProfileID (op_Columns row) = profile ∧ c_PrincipalID (op_Columns row) = principal ∧
    c_AuthBindingID (op_Columns row) = binding ∧ c_RequestFingerprint (op_Columns row) = fp_RequestFingerprint fp ∧
    s' = hk_others hk (2 + j)%nat (<[id := row']> found) ∧
    op_State row' = ExecutingUpstream ∧ op_GrantConsumedAt row' = Some t ∧ op_GrantConsumedBy row' = principal ∧
    op_Columns row' = op_Columns row.

(** Every approver of the rule allowed the request, asked in order, on the store
    of the run. *)
Definition chain_allowed (profile agentAddr host : string) (ep : CompiledEndpoint) (rule : CompiledRule) (mreq : Request)
    (r : WireRequest) (buf : bufferedHTTPBodyResult) : Prop :=
  ∃ asyncOp syncWait k s s', C (k, s, s') ∧ parked_as rule asyncOp syncWait ∧
    all_allow (hk_approver hk) (hk_dashboard hk) (Some (gv_policy g))
      (chain_ctx agentAddr host profile ep rule mreq r buf asyncOp syncWait) (out_Approve (rule_Outcome rule)) s s'.

Lemma park_spec profile agentAddr ep rule mreq r buf :
  emits (park hmac sha256 base64 hk g profile agentAddr ep rule mreq r buf)
    (λ cs seg o, seg = [] ∧ ∃ p, o = inl p ∧ (Forall C cs → parked_as rule p.1 p.2)).
Proof.
  unfold park. destruct (asyncHumanApproverFor hk g _) as [[id ap]|] eqn:Ea.
  - apply emits_silent_bind; [apply emits_now|]. intros cs t. apply emits_stmt_bind.
    intros n s s' [[[op tok]|]|e] Hs; apply emits_ret; (split; [done|]); eexists; (split; [done|]); [|by left..].
    rewrite Forall_app, Forall_cons. intros (_ & Hc & _). right. exists op, id, ap, n, s, s'.
    apply start_spec in Hs as (? & ? & _ & _ & ? & _). done.
  - apply emits_ret. split; [done|]. eexists. split; [done|]. by left.
Qed.

Lemma retry_stage_spec profile agentAddr ep cr mreq r buf ev U :
  emits (retry_stage hmac sha256 base64 hk g profile agentAddr ep cr mreq r buf ev)
    (stage C (λ oe, ∀ op, oe.1 = Some op → ∃ rule, cr = Some rule ∧ grant_spent profile agentAddr ep rule mreq r buf) U).
Proof.
  unfold retry_stage. destruct (String.eqb (retry_operation r) "") eqn:Er; [by apply emits_ret|]. bprop.
  set (f := consume_for_request hmac sha256 base64 hk g profile (hitlPeerPrincipalID agentAddr) ep cr mreq r buf).
  match goal with |- context [stmt hk (f _ _) ≫= ?k] =>
    assert (emits ((t ← now hk; n ← tick; _ ← tick; stmt hk (f t n)) ≫= k)
      (stage C (λ oe, ∀ op, oe.1 = Some op → ∃ rule, cr = Some rule ∧ grant_spent profile agentAddr ep rule mreq r buf) U))
      as H; [|exact H] end.
  eapply emits_bind.
  - apply (emits_spend hk f (λ cs seg o, seg = [] ∧ ∃ j s s' a, cs = [(3 + j, s, s')%nat] ∧ o = inl a ∧
      f (hk_clock hk j) (S j) s = (s', a))). naive_solver.
  - intros cs seg a (-> & j & s & s' & a' & -> & [= <-] & Hf). destruct a as [op|e].
    + apply emits_eff_bind, emits_ret. split_and!; try done. rewrite Forall_app, Forall_singleton.
      intros [Hc _] op' _. unfold f, consume_for_request in Hf. destruct cr as [rule|]; [|done]. exists rule. split; [done|].
      apply spend_spec in Hf as (Htr & binding & fp & row & ? & ? & ? & ? & ? & ? & ? & ? & ? & ? & ->).
      by eexists j, s, _, binding, fp, row, _.
    + do 2 apply emits_eff_bind. by apply emits_leave.
  - by intros cs seg c (_ & ? & ? & ? & ? & _ & ? & _).
Qed.

Lemma approve_stage_spec profile agentAddr host ep cr mreq r buf bypass ev U :
  emits (approve_stage hmac sha256 base64 hk g profile agentAddr host ep cr mreq r buf bypass ev)
    (stage C (λ _, ∀ rule, cr = Some rule → out_Approve (rule_Outcome rule) = [] ∨ bypass = true ∨
                   chain_allowed profile agentAddr host ep rule mreq r buf) U).
Proof.
  unfold approve_stage. destruct cr as [rule|]; [|by apply emits_ret].
  destruct (bool_decide (out_Approve (rule_Outcome rule) = []) || bypass) eqn:E.
  { apply emits_ret. split_and!; try done. intros _ ? [= <-]. apply orb_true_iff in E as [E%bool_decide_eq_true|E]; auto. }
  eapply emits_bind; [apply park_spec| |by intros ? ? ? (_ & ? & ? & _)].
  intros cs0 seg0 [asyncOp syncWait] (-> & p & [= <-] & Hpark). cbn [fst snd] in Hpark.
  apply emits_stmt_bind. intros n s s' v Hchain. apply emits_eff_bind.
  destruct (String.eqb (v_Decision v) "allow") eqn:Ed; cbn [negb].
  - apply emits_silent_bind; [apply move_async_silent|]. intros cs op. apply emits_ret. split_and!; try done.
    rewrite Forall_app, Forall_cons. intros (H0 & Hc & _) ? [= <-]. right. right. exists asyncOp, syncWait, n, s, s'. bprop.
    split; [done|]. split; [auto|]. apply run_stages_spec in Hchain as [[_ ?]|[? _]]; done.
  - destruct (String.eqb (v_Decision v) ApproveDecisionAsyncPending && bool_decide (is_Some asyncOp)) eqn:Ep.
    + apply andb_true_iff in Ep as [_ [op ->]%bool_decide_eq_true].
      eapply emits_bind with (Q1 := λ _ seg o, seg = [] ∧ ∃ op, o = inl (Some op)); [| |by intros ? ? ? [_ [? ?]]].
      * apply emits_silent_bind; [apply emits_now|]. intros ? t. apply emits_stmt_bind. intros. apply emits_ret. split; eauto.
      * intros cs1 seg1 op' [-> [op'' [= ->]]]. do 2 apply emits_eff_bind. by apply emits_leave.
    + apply emits_silent_bind; [apply move_async_silent|]. intros ? _. do 2 apply emits_eff_bind. by apply emits_leave.
Qed.

Lemma verdict_stage_spec cr consumed ev U :
  emits (verdict_stage hk cr consumed ev)
    (stage C (λ _, ∀ rule, cr = Some rule → out_Verdict (rule_Outcome rule) ≠ "deny") U).
Proof.
  unfold verdict_stage. destruct cr as [rule|]; [|by apply emits_ret].
  destruct (String.eqb (out_Verdict (rule_Outcome rule)) "deny") eqn:E; bprop.
  - apply emits_silent_bind; [apply close_consumed_silent|]. intros ? _. do 2 apply emits_eff_bind. by apply emits_leave.
  - apply emits_ret. split_and!; try done. by intros _ ? [= <-].
Qed.

Lemma synth_stage_spec ep consumed r ev (U : Effect -> Prop) :
  (∀ resp, U (Reply resp)) → emits (synth_stage hk ep consumed r ev) (stage C (λ _, True) U).
Proof.
  intros HU. unfold synth_stage. destruct (hk_responder hk (ep_Plugin ep)) as [respond|]; [|by apply emits_ret].
  destruct (respond r) as [[resp|]|]; [|by apply emits_ret..]. apply emits_eff_bind.
  apply emits_silent_bind; [destruct (hk_write hk _); apply close_consumed_silent|]. intros ? _.
  apply emits_eff_bind, emits_leave. split_and!; try done. intros _. by repeat constructor.
Qed.

(** [r'] is what credential [cc] makes of [r]: [r] itself, or the request as its
    signer or its injector left it, given the stored secret. *)
Definition injected (ep : CompiledEndpoint) (cc : option CompiledCredential) (r r' : WireRequest) : Prop :=
  r' = r ∨
  ∃ c sec, cc = Some c ∧ hk_secret hk (ent_Name (cc_Credential c)) = Ok sec ∧
    match hk_signer hk (cc_Credential c), hk_injector hk (cc_Credential c) with
    | Some sign, _ => r' = (sign r sec ep).1
    | None, Some inj => r' = (InjectHTTP inj r sec).1
    | None, None => False
    end.

Lemma credential_stage_spec ep cc r ev U :
  emits (credential_stage hk ep cc r ev) (stage C (injected ep cc r) U).
Proof.
  assert (emits (mret r) (stage C (injected ep cc r) U)) as Hsame by (apply emits_ret; split_and!; try done; by left).
  unfold credential_stage. destruct cc as [c|]; [|done]. destruct (_ || _); [|done].
  destruct (hk_secret hk _) as [sec|] eqn:Es; [|done]. destruct (_ && _); [done|].
  destruct (hk_signer hk _) as [sign|] eqn:Eg.
  { apply emits_ret. split_and!; try done. intros _. right. exists c, sec. by rewrite Eg. }
  destruct (hk_injector hk _) as [inj|] eqn:Ei; [|done].
  destruct (InjectHTTP inj r sec) as [r' e] eqn:Ej.
  assert (injected ep (Some c) r r') as Hr' by (right; exists c, sec; by rewrite Eg, Ei, Ej).
  destruct e as [e|]; [|by apply emits_ret].
  destruct (inj_rewrites inj); [|by apply emits_ret]. do 2 apply emits_eff_bind. by apply emits_leave.
Qed.

Lemma ws_stage_spec consumed r ev (U : Effect -> Prop) :
  U (Bridge r) → emits (ws_stage hk consumed r ev) (stage C (λ _, True) U).
Proof.
  intros HU. unfold ws_stage. destruct (isWSUpgrade r); [|by apply emits_ret].
  apply emits_eff_bind, emits_stmt_bind. intros n s s' [] _.
  apply emits_silent_bind; [apply close_consumed_silent|]. intros ? _. apply emits_eff_bind, emits_leave.
  split_and!; try done. intros _. by repeat constructor.
Qed.

Lemma forward_stage_spec consumed asyncOp r ev K (U : Effect -> Prop) :
  U (Forward r) → (∀ resp, U (Reply resp)) →
  emits (forward_stage hk consumed asyncOp r ev) (stage C K U).
Proof.
  intros HF HR. unfold forward_stage. apply emits_eff_bind, emits_stmt_bind. intros n s s' [resp|e] _.
  - apply emits_eff_bind. apply emits_silent_bind; [apply close_consumed_silent|]. intros ? _.
    apply emits_silent_bind; [apply move_async_silent|]. intros ? _. apply emits_eff_bind, emits_leave.
    split_and!; try done. intros _. by repeat constructor.
  - apply emits_silent_bind; [apply move_async_silent|]. intros ? _.
    apply emits_silent_bind; [apply close_consumed_silent|]. intros ? _. do 2 apply emits_eff_bind. apply emits_leave.
    split_and!; try done. intros _. by repeat constructor.
Qed.

(** ** The request as a whole *)

(** What must hold for a request to be served: no rule, or a rule that does not
    deny and whose approvers, if it has any, all allowed the request or were
    asked before, for the grant the request spent. *)
Definition permitted (profile peerIP agentAddr host : string) (ep : CompiledEndpoint) (r : WireRequest) : Prop :=
  let '(buf, r) := buffer_request (gv_bodyBuffer g) r in
  let '(mreq, cc, cr) := resolve_and_match g profile peerIP ep buf r in
  ∀ rule, cr = Some rule →
    out_Verdict (rule_Outcome rule) ≠ "deny" ∧
    (out_Approve (rule_Outcome rule) = [] ∨
     grant_spent profile agentAddr ep rule mreq r buf ∨
     chain_allowed profile agentAddr host ep rule mreq r buf).

(** The credential picked for the request. *)
Definition picked_credential (profile peerIP : string) (ep : CompiledEndpoint) (r : WireRequest) : option CompiledCredential :=
  let '(buf, r) := buffer_request (gv_bodyBuffer g) r in (resolve_and_match g profile peerIP ep buf r).1.2.

(** What is said of every effect that serves the request. *)
Definition service_ok (profile peerIP agentAddr host : string) (ep : CompiledEndpoint) (r : WireRequest) (e : Effect) : Prop :=
  permitted profile peerIP agentAddr host ep r ∧
  ∀ r', e = Forward r' ∨ e = Bridge r' →
    injected ep (picked_credential profile peerIP ep r) (rewrite_request host (buffer_request (gv_bodyBuffer g) r).2) r'.

Lemma handle_request_spec profile peerIP agentAddr host ep r :
  emits (handle_request hmac sha256 base64 hk g profile peerIP agentAddr host ep r)
    (stage C (λ _, False) (service_ok profile peerIP agentAddr host ep r)).
Proof.
  unfold handle_request, service_ok, permitted, picked_credential.
  destruct (buffer_request (gv_bodyBuffer g) r) as [buf r1] eqn:Eb.
  destruct (resolve_and_match g profile peerIP ep buf r1) as [[mreq cc] cr] eqn:Em. cbn [fst snd].
  apply (emits_stage_bind C (eff EmitStart) _ (λ _, True)); [by apply emits_eff|]. intros P0 _ _.
  eapply emits_stage_bind; [apply retry_stage_spec|]. intros P1 [consumed ev1] Hgrant. cbn [fst] in Hgrant.
  eapply emits_stage_bind; [apply approve_stage_spec|]. intros P2 [asyncOp ev2] Happr.
  eapply emits_stage_bind; [apply verdict_stage_spec|]. intros P3 [] Hverd.
  assert (P3 → P2 → P1 → ∀ rule, cr = Some rule →
              out_Verdict (rule_Outcome rule) ≠ "deny" ∧
              (out_Approve (rule_Outcome rule) = [] ∨ grant_spent profile agentAddr ep rule mreq r1 buf ∨
               chain_allowed profile agentAddr host ep rule mreq r1 buf)) as Hok.
  { intros H3 H2 H1 rule Hr. split; [by apply Hverd|].
    destruct (Happr H2 rule Hr) as [?|[[op ->]%bool_decide_eq_true|?]]; auto. right. left.
    destruct (Hgrant H1 op eq_refl) as (rule' & ? & ?). congruence. }
  eapply emits_stage_bind; [apply synth_stage_spec; split; [auto|]; intros ? [?|?]; done|]. intros P4 _ _.
  eapply emits_stage_bind; [apply credential_stage_spec|]. intros P5 r2 Hr2.
  eapply emits_stage_bind; [apply ws_stage_spec; split; [auto|]; intros r' [Hr'|Hr']; [done|]; injection Hr' as <-; auto|].
  intros P6 _ _. apply forward_stage_spec; [|intros resp]; (split; [auto|]); intros r' [Hr'|Hr']; try done.
  injection Hr' as <-. auto.
Qed.
End Run.

(** The statements and the effects of one request. *)
Lemma handle_request_run profile peerIP agentAddr host ep r w w' o :
  handle_request hmac sha256 base64 hk g profile peerIP agentAddr host ep r w = (w', o) →
  ∃ cs seg, w_commits w' = w_commits w ++ cs ∧ w_trace w' = w_trace w ++ seg ∧
    answers seg = 1%nat ∧ ends seg = 1%nat ∧ (∃ c, o = inr c) ∧
    ∀ e, e ∈ seg → is_service e = true → service_ok (.∈ cs) profile peerIP agentAddr host ep r e.
Proof.
  intros Hh. set (run := drop (length (w_commits w)) (w_commits w')).
  destruct (handle_request_spec (.∈ run) profile peerIP agentAddr host ep r w) as (cs & seg & Hl & Ht & Hs).
  rewrite Hh in Hl, Ht, Hs. cbn [fst snd] in *.
  assert (run = cs) as Hrun by (unfold run; by rewrite Hl, drop_app_length). clearbody run. subst run.
  assert (Forall (.∈ cs) cs) as Hall by (by apply Forall_forall).
  destruct o as [[]|c]; [destruct Hs as (_ & _ & _ & []); done|]. destruct Hs as (Ha & He & Hs).
  exists cs, seg. split_and!; eauto. intros e Hin Hse. specialize (Hs Hall). rewrite Forall_forall in Hs.
  apply (Hs e), list_elem_of_In, List.filter_In. by rewrite <- list_elem_of_In.
Qed.

(** C1. Nothing serves a request, be it an upstream call, a WebSocket bridge or a
    response of the endpoint's own, unless the rule that decides it does not
    deny it and its approvers, if any, all allowed it on the store of this run,
    or a statement of this run spent an approved, unspent and unexpired grant
    made out for it and marked it spent; whatever other requests, operators and
    maintenance do to the store in the meantime. *)
Theorem served_only_if_permitted profile peerIP agentAddr host ep r w w' o :
  handle_request hmac sha256 base64 hk g profile peerIP agentAddr host ep r w = (w', o) →
  ∃ cs seg, w_commits w' = w_commits w ++ cs ∧ w_trace w' = w_trace w ++ seg ∧
    (∀ e, e ∈ seg → is_service e = true → permitted (.∈ cs) profile peerIP agentAddr host ep r).
Proof.
  intros (cs & seg & Hl & Ht & _ & _ & _ & Hs)%handle_request_run. exists cs, seg. split_and!; try done.
  intros e He Hse. by destruct (Hs e He Hse).
Qed.



(** ** What is forwarded *)

Lemma buffer_request_body r :
  let r' := (buffer_request (gv_bodyBuffer g) r).2 in
  st_data <$> wr_Body r' = st_data <$> wr_Body r ∧ st_err <$> wr_Body r' = st_err <$> wr_Body r ∧
  wr_Method r' = wr_Method r ∧ wr_URL r' = wr_URL r ∧ wr_Header r' = wr_Header r ∧ wr_Close r' = wr_Close r.
Proof.
  unfold buffer_request. destruct (buffers_body r _); [|done].
  destruct (wr_Body r) as [s|]; [|done]. cbv zeta.
  pose proof (bufferHTTPBody_forward s (gv_bodyBuffer g)) as [H1 H2].
  destruct (bufferHTTPBodyForMatchResult (Some s) (gv_bodyBuffer g)) as [b body]. cbn in *. by rewrite H1, H2.
Qed.

(** What leaves is the judged request, rewritten for the upstream and edited by
    its credential. *)
Lemma forwarded_is_injected profile peerIP agentAddr host ep r w w' o :
  handle_request hmac sha256 base64 hk g profile peerIP agentAddr host ep r w = (w', o) →
  ∃ seg, w_trace w' = w_trace w ++ seg ∧ ∀ r', Forward r' ∈ seg ∨ Bridge r' ∈ seg →
    injected ep (picked_credential profile peerIP ep r) (rewrite_request host (buffer_request (gv_bodyBuffer g) r).2) r'.
Proof.
  intros (cs & seg & _ & Ht & _ & _ & _ & Hs)%handle_request_run. exists seg. split; [done|]. intros r' Hin.
  destruct Hin as [Hin|Hin]; destruct (Hs _ Hin eq_refl) as [_ Hr]; apply Hr; auto.
Qed.

(** The request [rewrite_request] makes of what was judged. *)
Lemma rewritten_faithful host r :
  let r' := rewrite_request host (buffer_request (gv_bodyBuffer g) r).2 in
  wr_Method r' = wr_Method r ∧ url_Path (wr_URL r') = url_Path (wr_URL r) ∧
  url_RawQuery (wr_URL r') = url_RawQuery (wr_URL r) ∧ wr_Host r' = host ∧ url_Host (wr_URL r') = host ∧
  st_data <$> wr_Body r' = st_data <$> wr_Body r ∧
  header_Values (wr_Header r') hitlRetryOperationHeader = [] ∧
  (isWSUpgrade r' = false → ∀ n, n ∈ stripped_request_headers → header_Values (wr_Header r') n = []).
Proof.
  destruct (buffer_request_body r) as (Hd & _ & Hm & Hu & Hh' & _). set (r1 := (buffer_request _ r).2) in *.
  assert (∀ n h, header_Values (header_Del h n) n = []) as Hdel by (intros n h; by rewrite header_Values_Del, decide_True).
  unfold rewrite_request. cbv zeta. destruct (isWSUpgrade (mkWire _ _ _ (header_Del _ _) _ _)) eqn:Ews.
  - do 7 (split; [cbn; rewrite ?Hm, ?Hu, ?Hd; first [done|apply Hdel]|]). intros Hno. by rewrite Ews in Hno.
  - cbn [wr_Header wr_Method wr_URL wr_Host wr_Body url_Path url_RawQuery url_Host]. split_and!; rewrite ?Hm, ?Hu, ?Hd; try done.
    + rewrite header_Values_foldl_Del. case_decide; [done|apply Hdel].
    + intros _ n Hn. rewrite header_Values_foldl_Del, decide_True; [done|]. apply list_elem_of_fmap. eauto.
Qed.

(** A request that no credential applies to goes out as it came in: the method,
    path and query are the ones judged, the body is byte for byte the agent's,
    the host is the one of the endpoint, and no retry header, nor any
    hop-by-hop or proxy header of an ordinary request, is sent. *)
Theorem forwarded_request_faithful profile peerIP agentAddr host ep r w w' o :
  handle_request hmac sha256 base64 hk g profile peerIP agentAddr host ep r w = (w', o) →
  picked_credential profile peerIP ep r = None →
  ∃ seg, w_trace w' = w_trace w ++ seg ∧ ∀ r', Forward r' ∈ seg ∨ Bridge r' ∈ seg →
    wr_Method r' = wr_Method r ∧ url_Path (wr_URL r') = url_Path (wr_URL r) ∧
    url_RawQuery (wr_URL r') = url_RawQuery (wr_URL r) ∧ wr_Host r' = host ∧ url_Host (wr_URL r') = host ∧
    st_data <$> wr_Body r' = st_data <$> wr_Body r ∧
    header_Values (wr_Header r') hitlRetryOperationHeader = [] ∧
    (isWSUpgrade r' = false → ∀ n, n ∈ stripped_request_headers → header_Values (wr_Header r') n = []).
Proof.
  intros Hh Hcc. destruct (forwarded_is_injected _ _ _ _ _ _ _ _ _ Hh) as (seg & Ht & Hs).
  exists seg. split; [done|]. intros r' Hin. rewrite Hcc in Hs.
  destruct (Hs r' Hin) as [->|(c & sec & [=] & _)]. apply rewritten_faithful.
Qed.
End Props.

(** ** Two gaps *)

(** Rules see an empty, complete body on every request other than a POST, PUT,
    PATCH or retry: the decision, the credential and the snapshot do not depend
    on the body such a request carries, and the body is forwarded. *)
Theorem unbuffered_body_unseen g profile peerIP ep r b :
  buffers_body r (retry_operation r) = false →
  let '(buf, r1) := buffer_request (gv_bodyBuffer g) (set_body r b) in
  bb_body buf = "" ∧ bb_truncated buf = false ∧ wr_Body r1 = b ∧
  resolve_and_match g profile peerIP ep buf r1 =
  resolve_and_match g profile peerIP ep (buffer_request (gv_bodyBuffer g) r).1 (buffer_request (gv_bodyBuffer g) r).2.
Proof.
  intros H. unfold buffer_request. change (buffers_body (set_body r b) (retry_operation (set_body r b))) with (buffers_body r (retry_operation r)).
  rewrite H. done.
Qed.

Definition alice : Entity := mkEntity "alice" (mkPlugin "approver" "human_approver" "" None None) empty_body empty_framework.
Definition loop_policy : CompiledPolicy :=
  mkPolicy "deny" "deny" "closed" "public" [] 0 0 "deny" "" {["dev" := mkProfile "dev" [] ∅ ∅ [] ∅ true]} ∅ ∅ {["alice" := alice]} ∅.
Definition loop_gateway : GatewayView := mkGatewayView loop_policy "https://gw" 16 (mkTimes (λ _, None) (λ _, None)) (mkKey "k1" "root").
Definition ok_response : Response := mkResponse 200 {["Set-Cookie" := ["s=1"]; "Content-Type" := ["text/plain"]]} ∅ "ok" false.
Definition saying (decision : string) : @ApproverRT Store := λ _ s, (s, (mkVerdict decision "" "alice" "" "", None)).
Definition loop_hooks (decision : string) : Hooks :=
  mkHooks (λ _, Some (saying decision)) (saying "deny") (λ _, Some (mkApprover true 10 100 1000 4096 "raw")) (λ _, None) (λ _, None)
    (λ _, None) (λ _, false) (λ _, Err "none") (λ _ s, (s, Ok ok_response)) (λ _ s, s) (λ _, None) (λ _ s, s) (λ n, Z.of_nat n + 1)
    "op1" "token".
Definition review_endpoint : CompiledEndpoint :=
  test_endpoint "api" [test_rule "review" 0 None (mkOutcome "" "" [mkStage "alice"])].
Definition wire (method : string) (h : Header) (body : option Stream) : WireRequest :=
  mkWire method (mkURL "" "" "" "/v1" "" false "" "") "api.example.com" h body false.
Definition start_world : World := mkWorld ∅ 0 [] [].
Definition run_loop (decision : string) (ep : CompiledEndpoint) (r : WireRequest) : World :=
  (handle_request (λ k m, k +:+ m) id id (loop_hooks decision) loop_gateway "dev" "10.55.0.2" "10.55.0.2" "api.example.com" ep r start_world).1.
Definition ws_headers : Header := {["Connection" := ["Upgrade"]; "Upgrade" := ["websocket"]]}.

(** An approved request whose approval was parked as a durable operation ends
    with the operation closed when it is an ordinary request, but a WebSocket
    upgrade leaves it executing after the bridge has ended: only the recovery
    at the next start closes it, as failed. *)
Theorem websocket_operation_left_executing :
  op_State <$> w_store (run_loop "allow" review_endpoint (wire "GET" ∅ None)) !! "op1" = Some UpstreamSucceeded ∧
  op_State <$> w_store (run_loop "allow" review_endpoint (wire "GET" ws_headers None)) !! "op1" = Some ExecutingUpstream.
Proof. vm_compute. done. Qed.

(** ** Witnesses *)

Definition body_matcher (text : string) : Matcher :=
  mkMatcher (λ q, mkDecision (match q with Some q => ResultOf (Contains (req_Body q) text) | None => NoMatch end) "") false.
Definition no_secrets : CompiledEndpoint := test_endpoint "api" [test_rule "leak" 0 (Some (body_matcher "SECRET")) (verdict "deny")].
Definition secret_body : option Stream := Some (mkStream "a SECRET" None false).

Lemma unbuffered_body_unseen_witness :
  services (w_trace (run_loop "allow" no_secrets (wire "POST" ∅ secret_body))) = [] ∧
  resolve_and_match loop_gateway "dev" "10.55.0.2" no_secrets (mkBuffered "" false false None) (wire "DELETE" ∅ secret_body) =
  resolve_and_match loop_gateway "dev" "10.55.0.2" no_secrets (mkBuffered "" false false None) (wire "DELETE" ∅ None).
Proof.
  split; [vm_compute; reflexivity|].
  pose proof (unbuffered_body_unseen loop_gateway "dev" "10.55.0.2" no_secrets (wire "DELETE" ∅ None) secret_body eq_refl) as H.
  cbn [buffer_request buffers_body] in H. apply H.
Defined.

(** A request is parked, an operator approves the operation, and the agent sends
    the request again under its name; the approver would deny it now. *)
Definition pay_body : option Stream := Some (mkStream "pay" None false).
Definition parked_store : Store := w_store (run_loop ApproveDecisionAsyncPending review_endpoint (wire "POST" ∅ pay_body)).
Definition granted_world : World :=
  match parked_store !! "op1" with
  | Some op => mkWorld (Transition parked_store (resolve_transition op true 20)).1 30 [] []
  | None => start_world
  end.
Definition retry_request : WireRequest := wire "POST" {["Clawpatrol-Hitl-Operation" := ["op1"]]} pay_body.
Definition retry_run : World * (unit + Ctl) :=
  handle_request (λ k m, k +:+ m) id id (loop_hooks "deny") loop_gateway "dev" "10.55.0.2" "10.55.0.2" "api.example.com"
    review_endpoint retry_request granted_world.

Lemma served_only_if_permitted_witness :
  ∃ cs, w_commits retry_run.1 = cs ∧
    permitted (λ k m, k +:+ m) id id (loop_hooks "deny") loop_gateway (.∈ cs) "dev" "10.55.0.2" "10.55.0.2" "api.example.com"
      review_endpoint retry_request ∧
    op_GrantConsumedAt <$> w_store retry_run.1 !! "op1" = Some (Some 31).
Proof.
  destruct (served_only_if_permitted (λ k m, k +:+ m) id id (loop_hooks "deny") loop_gateway "dev" "10.55.0.2" "10.55.0.2"
    "api.example.com" review_endpoint retry_request granted_world retry_run.1 retry_run.2) as (cs & seg & Hcs & Hseg & Hp);
    [vm_compute; reflexivity|].
  exists cs. split; [rewrite Hcs; vm_compute; reflexivity|]. split; [|vm_compute; reflexivity].
  apply (Hp (Reply (sanitize_response ok_response))); [|reflexivity].
  replace seg with (w_trace retry_run.1) by (rewrite Hseg; vm_compute; reflexivity).
  apply list_elem_of_In. vm_compute. tauto.
Defined.

Lemma forwarded_request_faithful_witness :
  ∃ seg, w_trace (run_loop "allow" no_secrets (wire "POST" {["Via" := ["x"]]} (Some (mkStream "hello" None false)))) = seg ∧
    ∀ r', Forward r' ∈ seg → st_data <$> wr_Body r' = Some "hello" ∧ header_Values (wr_Header r') hitlRetryOperationHeader = [].
Proof.
  destruct (forwarded_request_faithful (λ k m, k +:+ m) id id (loop_hooks "allow") loop_gateway "dev" "10.55.0.2" "10.55.0.2"
    "api.example.com" no_secrets (wire "POST" {["Via" := ["x"]]} (Some (mkStream "hello" None false))) start_world
    (run_loop "allow" no_secrets (wire "POST" {["Via" := ["x"]]} (Some (mkStream "hello" None false)))) (inr LContinue))
    as (seg & Hseg & Hp); [vm_compute; reflexivity|reflexivity|].
  exists seg. split; [exact Hseg|]. intros r' Hr. destruct (Hp r' (or_introl Hr)) as (_ & _ & _ & _ & _ & Hb & Hh & _).
  by split.
Defined.

Lemma runApproveChain_all_must_allow_witness :
  v_Decision (runApproveChain (λ _, Some (saying "deny")) (saying "allow") (Some loop_policy) [mkStage "dashboard"; mkStage "alice"]
    (mkApproveCtx "" "" "" "" "" "" "" review_endpoint (test_rule "r" 0 None (verdict "")) "dev" test_request "" false 0) ∅).2 ≠ "allow" .
Proof.
  pose proof (runApproveChain_all_must_allow (λ _, Some (saying "deny")) (saying "allow") (Some loop_policy)
    [mkStage "dashboard"; mkStage "alice"]
    (mkApproveCtx "" "" "" "" "" "" "" review_endpoint (test_rule "r" 0 None (verdict "")) "dev" test_request "" false 0) ∅ ∅
    (mkVerdict "deny" "" "alice" "alice" "human_approver")) as [_ [_ H]]; [vm_compute; reflexivity|].
  apply H. eapply refusal_later; [vm_compute; reflexivity|reflexivity|].
  eapply refusal_here; [vm_compute; reflexivity|done].
Defined.
