(* ===== verification/CredentialProps.v ===== *)
(** * What injecting a credential changes in a request

    The request loop judges a request and then lets the credential edit it, so
    what reaches the upstream is what was judged only up to those edits. Each
    built-in injector has a footprint of header names and query parameters;
    everything outside it is sent as judged. *)
From S2P Require Import Prelude GoStrings NetAddr GoUrl GoHttp GoEncode Policy Dispatch HitlStore Fingerprint Approver ApproveChain RequestLoop LoopProps Credentials.

(** ** Footprints *)

Definition header_footprint (c : HTTPCredential) : list string :=
  match c with
  | AnthropicManualKey => ["x-api-key"]
  | AnthropicOAuthSubscription => ["Authorization"; "anthropic-beta"]
  | BearerToken _ => ["Authorization"; "Idempotency-Key"]
  | ClickhouseCredential _ => ["Authorization"; "X-ClickHouse-User"; "X-ClickHouse-Key"]
  | CookieToken _ => ["Cookie"]
  | GeminiAPIKey => ["x-goog-api-key"]
  | HeaderToken h _ => [h]
  | NotionOAuth => ["Authorization"; "Notion-Version"]
  | OpenAICodexOAuth => ["Authorization"; "chatgpt-account-id"]
  | TelegramBotToken => []
  | BasicAuth _ | DiscordBotToken | GitHubOAuth | NotionMCPOAuth | SlackTokens => ["Authorization"]
  end.

Definition query_footprint (c : HTTPCredential) : list string :=
  match c with GeminiAPIKey => ["key"] | ClickhouseCredential _ => ["user"; "password"] | _ => [] end.


(** Header names that are not one of [names]. *)
Definition outside (names : list string) (n : string) : Prop :=
  Forall (λ m, CanonicalMIMEHeaderKey m ≠ CanonicalMIMEHeaderKey n) names.

Lemma Values_Set_outside h m v n :
  CanonicalMIMEHeaderKey m ≠ CanonicalMIMEHeaderKey n → header_Values (header_Set h m v) n = header_Values h n.
Proof. intros H. rewrite header_Values_Set. by rewrite decide_False. Qed.

Lemma Values_Del_outside h m n :
  CanonicalMIMEHeaderKey m ≠ CanonicalMIMEHeaderKey n → header_Values (header_Del h m) n = header_Values h n.
Proof. intros H. rewrite header_Values_Del. by rewrite decide_False. Qed.

#[export] Hint Rewrite Values_Set_outside Values_Del_outside using assumption : headers.

(** The parts of a URL that are not its query. *)
Definition url_base (u : URL) : string * string * string * string * string * string :=
  (url_Scheme u, url_Opaque u, url_Host u, url_Path u, url_RawPath u, url_Fragment u).

Lemma strip_query_base names u : url_base (strip_query names u) = url_base u.
Proof. unfold strip_query. by destruct (existsb _ _). Qed.

Lemma foldl_delete_lookup names (m : gmap string (list string)) k :
  foldl (λ m n, delete n m) m names !! k = if decide (k ∈ names) then None else m !! k.
Proof.
  revert m. induction names as [|n names IH]; intros m; [by rewrite decide_False by apply not_elem_of_nil|].
  cbn [foldl]. rewrite IH. destruct (decide (k = n)) as [->|Hne].
  - rewrite lookup_delete_eq. rewrite (decide_True (P := n ∈ n :: names)) by set_solver. by destruct (decide _).
  - rewrite lookup_delete_ne by done. destruct (decide (k ∈ names)), (decide (k ∈ n :: names)); set_solver.
Qed.

Lemma no_empty_deletes names m : no_empty_values m → no_empty_values (foldl (λ m n, delete n m) m names).
Proof. revert m. induction names as [|n names IH]; intros m H; [done|]. by apply IH, no_empty_delete. Qed.

(** Stripping removes exactly the named parameters. *)
Lemma strip_query_lookup names u k :
  ParseQuery (url_RawQuery (strip_query names u)) !! k =
  if decide (k ∈ names) then None else ParseQuery (url_RawQuery u) !! k.
Proof.
  unfold strip_query. destruct (existsb _ _) eqn:E.
  - cbn [url_RawQuery set_RawQuery]. rewrite ParseQuery_Encode by apply no_empty_deletes, ParseQuery_no_empty.
    apply foldl_delete_lookup.
  - destruct (decide (k ∈ names)) as [Hk|]; [|done]. destruct (ParseQuery (url_RawQuery u) !! k) eqn:Ek; [|done].
    assert (existsb (λ n, bool_decide (is_Some (ParseQuery (url_RawQuery u) !! n))) names = true) as Hx; [|congruence].
    apply existsb_exists. exists k. split; [by apply list_elem_of_In|]. rewrite Ek. by apply bool_decide_eq_true.
Qed.

(** ** Edits within a footprint *)

(** [r'] is [r] with other values for headers in [hs], without some of the
    query parameters in [qs], and perhaps with another body. *)
Record edits (hs qs : list string) (r r' : WireRequest) : Prop := mkEdits {
  ed_method : wr_Method r' = wr_Method r;
  ed_host : wr_Host r' = wr_Host r;
  ed_close : wr_Close r' = wr_Close r;
  ed_url : url_base (wr_URL r') = url_base (wr_URL r);
  ed_force : url_ForceQuery (wr_URL r') = url_ForceQuery (wr_URL r);
  ed_headers : ∀ n, outside hs n → header_Values (wr_Header r') n = header_Values (wr_Header r) n;
  ed_query : ∀ k, k ∉ qs → ParseQuery (url_RawQuery (wr_URL r')) !! k = ParseQuery (url_RawQuery (wr_URL r)) !! k
}.

#[export] Instance edits_refl hs qs : Reflexive (edits hs qs).
Proof. by intros r. Qed.

#[export] Instance edits_trans hs qs : Transitive (edits hs qs).
Proof.
  intros a b c [] []. constructor; try congruence.
  - intros n Hn. by rewrite ed_headers1, ed_headers0.
  - intros k Hk. by rewrite ed_query1, ed_query0.
Qed.

Lemma edits_body_only hs qs r b : edits hs qs r (set_body r b).
Proof. by constructor. Qed.

Lemma edits_headers hs qs r h :
  (∀ n, outside hs n → header_Values h n = header_Values (wr_Header r) n) → edits hs qs r (set_header r h).
Proof. by constructor. Qed.

Lemma edits_Set hs qs r m v : m ∈ hs → edits hs qs r (Set_header r m v).
Proof.
  intros Hm. apply edits_headers. intros n Hn. apply Values_Set_outside. unfold outside in Hn.
  rewrite Forall_forall in Hn. by apply Hn.
Qed.

Lemma edits_strip hs qs r names : names ⊆ qs → edits hs qs r (set_url r (strip_query names (wr_URL r))).
Proof.
  intros Hs. constructor; try done.
  - apply strip_query_base.
  - cbn. unfold strip_query. by destruct (existsb _ _).
  - intros k Hk. cbn. rewrite strip_query_lookup. rewrite decide_False; [done|]. set_solver.
Qed.

Lemma ensureBeta_outside h beta n :
  CanonicalMIMEHeaderKey "anthropic-beta" ≠ CanonicalMIMEHeaderKey n →
  header_Values (ensureBeta h beta) n = header_Values h n.
Proof.
  intros H. unfold ensureBeta. destruct (String.eqb _ _); [by apply Values_Set_outside|].
  destruct (existsb _ _); [done|]. by apply Values_Set_outside.
Qed.

#[export] Hint Resolve edits_body_only edits_Set : footprint.

(** Steps of an injector, each within the footprint. *)
Ltac edit_step :=
  match goal with
  | |- edits _ _ ?r ?r => reflexivity
  | |- edits _ _ _ (set_body ?r _) => transitivity r; [|apply edits_body_only]
  | |- edits _ _ _ (Set_header ?r _ _) => transitivity r; [|apply edits_Set; set_solver]
  | |- edits _ _ _ (bearer _ ?r) => transitivity r; [|apply edits_Set; set_solver]
  | |- edits _ _ _ (SetBasicAuth ?r _ _) => transitivity r; [|apply edits_Set; set_solver]
  | |- edits _ _ _ (AddCookie ?r _ _) => transitivity r; [|apply edits_Set; set_solver]
  | |- edits _ _ _ (set_url ?r (strip_query _ _)) => transitivity r; [|apply edits_strip; set_solver]
  end.

Section Footprint.
Context (jc : string -> option (string * string)).

Lemma injector_edits c r sec :
  c ≠ TelegramBotToken → edits (header_footprint c) (query_footprint c) r (InjectHTTP_of jc c r sec).1.
Proof.
  intros Hc. destruct c; try done; cbn [InjectHTTP_of header_footprint query_footprint].
  - unfold AnthropicManualKey_InjectHTTP. destruct (empty_secret sec); cbn; by repeat edit_step.
  - unfold AnthropicOAuthSubscription_InjectHTTP. destruct (empty_secret sec); cbn; [by repeat edit_step|].
    transitivity (bearer (sec_Bytes sec) r); [by repeat edit_step|]. apply edits_headers. intros n Hn.
    apply ensureBeta_outside. by apply Forall_cons in Hn as [_ [Hn _]%Forall_cons].
  - unfold BasicAuth_InjectHTTP. destruct (empty_secret sec); cbn; by repeat edit_step.
  - unfold BearerToken_InjectHTTP. destruct (empty_secret sec); cbn; [|destruct (_ && _)]; cbn; by repeat edit_step.
  - unfold ClickhouseCredential_InjectHTTP. destruct (_ || _); cbn [fst]; [by repeat edit_step|].
    transitivity (set_url (SetBasicAuth r User (sec_Bytes sec))
                    (strip_query ["user"; "password"] (wr_URL (SetBasicAuth r User (sec_Bytes sec))))); [by repeat edit_step|].
    apply edits_headers. intros n Hn. apply Forall_cons in Hn as [_ [Hn1 [Hn2 _]%Forall_cons]%Forall_cons].
    by autorewrite with headers.
  - unfold CookieToken_InjectHTTP. destruct (_ || _); cbn; by repeat edit_step.
  - unfold DiscordBotToken_InjectHTTP. repeat destruct (String.eqb _ _); try destruct (Contains _ _); cbn; by repeat edit_step.
  - unfold GeminiAPIKey_InjectHTTP. destruct (empty_secret sec); cbn [fst]; by repeat edit_step.
  - unfold GitHubOAuth_InjectHTTP. destruct (empty_secret sec); cbn; [|destruct (isGitHubSmartHTTP r)]; cbn; by repeat edit_step.
  - unfold HeaderToken_InjectHTTP. destruct (_ || _); cbn; by repeat edit_step.
  - unfold NotionOAuth_InjectHTTP. destruct (empty_secret sec); cbn; [|destruct (String.eqb _ _)]; cbn; by repeat edit_step.
  - unfold NotionMCPOAuth_InjectHTTP. destruct (empty_secret sec); cbn; by repeat edit_step.
  - unfold OpenAICodexOAuth_InjectHTTP. destruct (empty_secret sec); cbn; [by repeat edit_step|].
    destruct (_ || _); cbn; [by repeat edit_step|]. destruct (negb _); cbn; by repeat edit_step.
  - unfold SlackTokens_InjectHTTP. destruct (String.eqb (if String.eqb _ _ then _ else _) ""); cbn [fst]; [by repeat edit_step|].
    destruct (Contains _ _); cbn [fst]; [|by repeat edit_step]. destruct (wr_Body _) as [b|]; cbn [fst]; [|by repeat edit_step].
    destruct (ReadAll b) as [[raw|] rest]; [destruct (_ && _)|]; cbn [fst]; by repeat edit_step.
Qed.

End Footprint.


(** ** Where the secret goes *)

Lemma bearer_other p r n :
  CanonicalMIMEHeaderKey "Authorization" ≠ CanonicalMIMEHeaderKey n → Get_header (bearer p r) n = Get_header r n.
Proof. intros H. unfold Get_header, header_Get, bearer. cbn. by rewrite Values_Set_outside. Qed.

(** The secret holds what the credential takes from it for this request: its main
    value, or, for Discord and Slack, the token of a slot (for Slack the one the
    path calls for). *)
Definition present (c : HTTPCredential) (r : WireRequest) (s : Secret) : bool :=
  negb (String.eqb (sec_Bytes s) "") ||
  match c with
  | DiscordBotToken => negb (String.eqb (extra s "bot") "")
  | SlackTokens =>
      negb (String.eqb (extra s "bot") "") || negb (String.eqb (extra s "app") "") && slackPathPrefersApp (url_Path (wr_URL r))
  | _ => false
  end.

(** What Slack is sent depends on the token only in one header. *)
Lemma slack_token_only r s :
  ∃ pick, String.eqb pick "" = negb (present SlackTokens r s) ∧
    SlackTokens_InjectHTTP r s = SlackTokens_InjectHTTP r (mkSecret pick ∅).
Proof.
  unfold SlackTokens_InjectHTTP, present, extra. cbn [sec_Extras sec_Bytes]. rewrite !lookup_empty. cbn [default String.eqb negb andb].
  set (bot := default "" (sec_Extras s !! "bot")). set (app := default "" (sec_Extras s !! "app")).
  set (pick := if String.eqb (if _ && _ then _ else _) "" then _ else _). exists pick.
  split; [|done].
  unfold pick. destruct (String.eqb app "") eqn:Ea, (slackPathPrefersApp _), (String.eqb bot "") eqn:Eb, (String.eqb (sec_Bytes s) "") eqn:Ec;
    cbn [negb andb orb]; rewrite ?Ea, ?Eb, ?Ec; done.
Qed.

(** C25. Of two secrets that both hold what the credential takes for the request,
    or both do not, an injector makes the same request outside its header
    footprint: the method, the URL, the host, the body and every other header do
    not depend on the secret. (Telegram, whose API takes the token in the path,
    is left out.) *)
Theorem secret_stays_in_footprint jc c r s1 s2 :
  c ≠ TelegramBotToken → present c r s1 = present c r s2 →
  let r1 := (InjectHTTP_of jc c r s1).1 in let r2 := (InjectHTTP_of jc c r s2).1 in
  wr_Method r1 = wr_Method r2 ∧ wr_URL r1 = wr_URL r2 ∧ wr_Host r1 = wr_Host r2 ∧ wr_Body r1 = wr_Body r2 ∧
  ∀ n, outside (header_footprint c) n → header_Values (wr_Header r1) n = header_Values (wr_Header r2) n.
Proof.
  intros Hc Hp. cbv zeta. pose proof (injector_edits jc c r s1 Hc) as E1. pose proof (injector_edits jc c r s2 Hc) as E2.
  assert (wr_URL (InjectHTTP_of jc c r s1).1 = wr_URL (InjectHTTP_of jc c r s2).1 ∧
          wr_Body (InjectHTTP_of jc c r s1).1 = wr_Body (InjectHTTP_of jc c r s2).1) as [Hu Hb].
  2: { destruct E1, E2. split_and!; try congruence. intros n Hn. by rewrite ed_headers0, ed_headers1. }
  clear E1 E2. assert (c = SlackTokens ∨ c ≠ SlackTokens) as [->|Hns] by (destruct c; auto).
  { cbn [InjectHTTP_of]. destruct (slack_token_only r s1) as (p1 & Hp1 & ->), (slack_token_only r s2) as (p2 & Hp2 & ->).
    rewrite Hp in Hp1. rewrite <- Hp2 in Hp1. clear Hp Hp2.
    unfold SlackTokens_InjectHTTP, extra. cbn [sec_Extras sec_Bytes]. rewrite !lookup_empty. cbn [default String.eqb negb andb].
    rewrite Hp1. destruct (String.eqb p2 ""); [done|].
    rewrite !bearer_other by (vm_compute; discriminate). destruct (Contains _ _); [|done]. cbn [wr_Body bearer Set_header set_header].
    destruct (wr_Body r) as [b|]; [|done]. destruct (ReadAll b) as [[raw|] rest]; [|done]. by destruct (_ && _). }
  assert (c = DiscordBotToken ∨ c ≠ DiscordBotToken) as [->|Hnd] by (destruct c; auto).
  { cbn [InjectHTTP_of]. unfold DiscordBotToken_InjectHTTP, discordBotTokenSecret, present in *.
    by repeat (match goal with |- context [if ?b then _ else _] => destruct b end). }
  assert (String.eqb (sec_Bytes s1) "" = String.eqb (sec_Bytes s2) "") as He.
  { unfold present in Hp. destruct c; try done; by destruct (String.eqb (sec_Bytes s1) ""), (String.eqb (sec_Bytes s2) ""). }
  destruct c; try done; cbn [InjectHTTP_of];
  unfold AnthropicManualKey_InjectHTTP, AnthropicOAuthSubscription_InjectHTTP, BasicAuth_InjectHTTP, BearerToken_InjectHTTP,
    ClickhouseCredential_InjectHTTP, CookieToken_InjectHTTP, DiscordBotToken_InjectHTTP, GeminiAPIKey_InjectHTTP,
    GitHubOAuth_InjectHTTP, HeaderToken_InjectHTTP, NotionOAuth_InjectHTTP, NotionMCPOAuth_InjectHTTP, OpenAICodexOAuth_InjectHTTP,
    empty_secret; rewrite ?He; cbn zeta.
  all: by (repeat (match goal with |- context [if ?b then _ else _] => destruct b end)).
Qed.

(** A parameter the agent put in the query for its own credential does not
    reach the upstream. *)
Theorem query_credential_stripped jc c r sec k :
  sec_Bytes sec ≠ "" → c ≠ ClickhouseCredential "" → k ∈ query_footprint c →
  ParseQuery (url_RawQuery (wr_URL (InjectHTTP_of jc c r sec).1)) !! k = None.
Proof.
  intros Hs%String.eqb_neq Hc Hk. destruct c; try by apply not_elem_of_nil in Hk.
  - cbn [InjectHTTP_of]. unfold ClickhouseCredential_InjectHTTP, empty_secret. rewrite Hs, orb_false_r.
    rewrite (proj2 (String.eqb_neq User "")) by congruence. cbn. rewrite strip_query_lookup. by rewrite decide_True.
  - cbn [InjectHTTP_of]. unfold GeminiAPIKey_InjectHTTP, empty_secret. rewrite Hs. cbn. rewrite strip_query_lookup. by rewrite decide_True.
Qed.

(** ** The idempotency key *)

(** Requests without a hint that differ only in their bodies or queries get the
    same idempotency key. *)
Theorem idempotency_key_collides jc r r' s s' key :
  sec_Bytes s ≠ "" → wr_Method r = "POST" → wr_Method r' = "POST" → url_Path (wr_URL r) = url_Path (wr_URL r') →
  Get_header r "X-Clawpatrol-Idempotency-Hint" = "" → Get_header r' "X-Clawpatrol-Idempotency-Hint" = "" →
  Get_header r "Idempotency-Key" = "" → Get_header r' "Idempotency-Key" = "" → sec_Bytes s' ≠ "" →
  header_Values (wr_Header (InjectHTTP_of jc (BearerToken true) r s).1) "Idempotency-Key" = [key] →
  header_Values (wr_Header (InjectHTTP_of jc (BearerToken true) r' s').1) "Idempotency-Key" = [key].
Proof.
  intros Hs%String.eqb_neq Hm Hm' Hp Hh Hh' Hk Hk' Hs'%String.eqb_neq. cbn [InjectHTTP_of].
  unfold BearerToken_InjectHTTP, empty_secret, idempotencyKeyFor. rewrite Hs, Hs', !bearer_other by (vm_compute; discriminate).
  cbn [wr_Method bearer Set_header set_header wr_URL]. rewrite Hh, Hh', Hk, Hk', Hm, Hm', Hp. cbn.
  rewrite !header_Values_Set. by rewrite !decide_True.
Qed.

(** ** Basic credentials *)

Lemma digits_not_space s : str_forall (λ c, negb (is_space c)) (EncodeToString StdEncoding s) = true.
Proof.
  assert (∀ n, (n < 64)%N → is_space (b64_digit StdEncoding n) = false) as Hd.
  { intros n Hn. assert (∃ k : nat, (k < 64)%nat ∧ n = N.of_nat k) as (k & Hk & ->) by (exists (N.to_nat n); split; lia).
    do 64 (destruct k as [|k]; [reflexivity|]). lia. }
  induction s as [|a|a b|a b c s IH] using string_ind3; [done|..]; cbn [EncodeToString str_forall].
  - destruct (sextets a "000" "000") as (H1 & H2 & _ & _). change (N_of_ascii "000" / 16)%N with 0%N in H2. rewrite N.add_0_r in H2.
    by rewrite !Hd.
  - destruct (sextets a b "000") as (H1 & H2 & H3 & _). change (N_of_ascii "000" / 64)%N with 0%N in H3. rewrite N.add_0_r in H3.
    by rewrite !Hd.
  - destruct (sextets a b c) as (H1 & H2 & H3 & H4). by rewrite !Hd, IH.
Qed.

Lemma TrimSpace_none s : str_forall (λ c, negb (is_space c)) s = true → TrimSpace s = s.
Proof.
  intros H. unfold TrimSpace, trim_by. assert (trim_left_by is_space s = s) as ->.
  { destruct s as [|c s]; [done|]. cbn in *. apply andb_true_iff in H as [H _]. by destruct (is_space c). }
  induction s as [|c s IH]; [done|]. cbn in *. apply andb_true_iff in H as [Hc Hs]. rewrite IH by done.
  destruct s; [|done]. by destruct (is_space c).
Qed.

(** The user a Basic header names is read back, for any name without a colon. *)
Lemma githubBasicUsername_basic u p :
  IndexByte u ":" = None → githubBasicUsername ("Basic " +:+ basicAuth u p) = u.
Proof.
  intros Hu. unfold githubBasicUsername. change ("Basic " +:+ basicAuth u p) with ("Basic" +:+ String " " (basicAuth u p)).
  rewrite CutByte_app by done. change (EqualFold "Basic" "Basic") with true. cbn [negb orb].
  unfold basicAuth. rewrite TrimSpace_none by apply digits_not_space.
  rewrite (DecodeString_encoded _ StdEncoding_proper). change (u +:+ ":" +:+ p) with (u +:+ String ":" p). by rewrite CutByte_app.
Qed.

(** A git client that authenticates as [u] with a placeholder reaches GitHub as
    [u] with the stored token. *)
Theorem github_git_user_kept jc r sec u placeholder :
  isGitHubSmartHTTP r = true → sec_Bytes sec ≠ "" → u ≠ "" → IndexByte u ":" = None →
  Get_header r "Authorization" = "Basic " +:+ basicAuth u placeholder →
  let h := Get_header (InjectHTTP_of jc GitHubOAuth r sec).1 "Authorization" in
  h = "Basic " +:+ basicAuth u (sec_Bytes sec) ∧ githubBasicUsername h = u ∧
  DecodeString StdEncoding (TrimPrefix h "Basic ") = Some (u +:+ ":" +:+ sec_Bytes sec).
Proof.
  intros Hr Hs%String.eqb_neq Hu%String.eqb_neq Hc Ha. cbn zeta.
  assert (Get_header (InjectHTTP_of jc GitHubOAuth r sec).1 "Authorization" = "Basic " +:+ basicAuth u (sec_Bytes sec)) as ->.
  { cbn [InjectHTTP_of]. unfold GitHubOAuth_InjectHTTP, empty_secret. rewrite Hs, Hr, Ha, githubBasicUsername_basic, Hu by done.
    cbn [fst]. unfold Get_header, header_Get, Set_header. cbn [wr_Header set_header]. by rewrite header_Values_Set, decide_True. }
  split_and!; [done|by apply githubBasicUsername_basic|]. unfold TrimPrefix. rewrite HasPrefix_app, str_drop_app.
  apply (DecodeString_encoded _ StdEncoding_proper).
Qed.

(** ** AWS *)

Lemma hashRequestBody_spec sha limit r h r1 :
  hashRequestBody sha limit r = (Ok h, r1) →
  st_data <$> wr_Body r1 = st_data <$> wr_Body r ∧ wr_Header r1 = wr_Header r ∧ wr_URL r1 = wr_URL r ∧ wr_Method r1 = wr_Method r ∧
  match wr_Body r with
  | None => h = emptyPayloadHash
  | Some b => h = if (limit <? String.length (st_data b))%nat then unsignedPayload else sha (st_data b)
  end.
Proof.
  unfold hashRequestBody. destruct (wr_Body r) as [b|] eqn:Eb; [|by intros [= <- <-]; rewrite Eb].
  destruct (read_limited (S limit) b) as [[buf err] rest] eqn:Er. apply read_limited_rest in Er as (Hd & _ & Hbuf & _ & _).
  destruct err as [e|]; [done|]. destruct (limit <? String.length buf)%nat eqn:El; intros [= <- <-]; cbn -[Nat.ltb].
  - split_and!; try done; [by rewrite <- Hd|]. apply Nat.ltb_lt in El. rewrite (proj2 (Nat.ltb_lt _ _)); [done|].
    rewrite <- Hd, str_length_app. lia.
  - apply Nat.ltb_ge in El. subst buf. destruct (Nat.le_gt_cases (String.length (st_data b)) limit) as [Hl|Hl].
    + rewrite str_take_all in * by lia. split_and!; try done. by rewrite (proj2 (Nat.ltb_ge _ _)).
    + rewrite str_length_take in El by lia. lia.
Qed.

(** What the AWS signer is asked to sign: the agent's request with its body, its
    URL and every header but the placeholder's signature and session token, the
    hash of the body it will send, and the service and region the agent signed
    for. *)
Theorem resigned_request_is_the_agents sha sign limit r sec creds service region :
  awsCredentialMaterial sec = Ok creds →
  awsServiceRegion (Get_header r "Authorization") (url_Host (wr_URL r)) = (service, region) → service ≠ "" → region ≠ "" →
  (∀ b, wr_Body r = Some b → st_err b = None) →
  ∃ r1 ph, reSignProxiedRequest sha sign limit r sec = sign creds ph service region r1 ∧
    wr_Method r1 = wr_Method r ∧ wr_URL r1 = wr_URL r ∧ st_data <$> wr_Body r1 = st_data <$> wr_Body r ∧
    header_Values (wr_Header r1) "Authorization" = [] ∧ header_Values (wr_Header r1) "X-Amz-Security-Token" = [] ∧
    (∀ n, outside ["Authorization"; "X-Amz-Security-Token"] n → header_Values (wr_Header r1) n = header_Values (wr_Header r) n) ∧
    (Get_header r "X-Amz-Content-Sha256" = "" →
     ph = match wr_Body r with
          | None => emptyPayloadHash
          | Some b => if (limit <? String.length (st_data b))%nat then unsignedPayload else sha (st_data b)
          end).
Proof.
  intros Hc Hsr Hs%String.eqb_neq Hr%String.eqb_neq Hb. unfold reSignProxiedRequest. rewrite Hc, Hsr, Hs, Hr. cbn [orb].
  set (strip := λ r1, set_header r1 (header_Del (header_Del (wr_Header r1) "Authorization") "X-Amz-Security-Token")).
  assert (∀ r1, wr_Header r1 = wr_Header r → wr_Method r1 = wr_Method r → wr_URL r1 = wr_URL r →
    st_data <$> wr_Body r1 = st_data <$> wr_Body r →
    wr_Method (strip r1) = wr_Method r ∧ wr_URL (strip r1) = wr_URL r ∧ st_data <$> wr_Body (strip r1) = st_data <$> wr_Body r ∧
    header_Values (wr_Header (strip r1)) "Authorization" = [] ∧ header_Values (wr_Header (strip r1)) "X-Amz-Security-Token" = [] ∧
    (∀ n, outside ["Authorization"; "X-Amz-Security-Token"] n → header_Values (wr_Header (strip r1)) n = header_Values (wr_Header r) n)) as Hstrip.
  { intros r1 Hh Hm Hu Hd. unfold strip. cbn [wr_Method wr_URL wr_Body wr_Header set_header]. rewrite Hh. split_and!; try done.
    - rewrite Values_Del_outside, header_Values_Del by (vm_compute; discriminate). by rewrite decide_True.
    - rewrite header_Values_Del. by rewrite decide_True.
    - intros n [H1 [H2 _]%Forall_cons]%Forall_cons. by autorewrite with headers. }
  destruct (String.eqb (Get_header r "X-Amz-Content-Sha256") "") eqn:Eh.
  - destruct (hashRequestBody sha limit r) as [[h|e] r1] eqn:Ehash.
    + destruct (hashRequestBody_spec _ _ _ _ _ Ehash) as (Hd & Hh & Hu & Hm & Hph). exists (strip r1), h.
      split; [done|]. destruct (Hstrip r1 Hh Hm Hu Hd) as (? & ? & ? & ? & ? & ?). split_and!; auto. intros _. by destruct (wr_Body r).
    + exfalso. unfold hashRequestBody in Ehash. destruct (wr_Body r) as [b|] eqn:Eb; [|done].
      unfold read_limited in Ehash. rewrite (Hb b eq_refl) in Ehash.
      repeat (case_match; simplify_eq).
  - exists (strip r), (Get_header r "X-Amz-Content-Sha256"). split; [done|].
    destruct (Hstrip r) as (? & ? & ? & ? & ? & ?); try done. split_and!; try done. intros Hn. by rewrite Hn in Eh.
Qed.

(** ** Google *)

(** A cached token source is never replaced: whoever asks for a key's source
    gets the one that was stored first, also when requests race. *)
Theorem gke_source_is_shared {TS} sha (parse : string -> result TS string) others m saKey ts m' :
  (∀ m k v, m !! k = Some v → others m !! k = Some v) →
  tokenSourceForSAKey sha parse others m saKey = (Ok ts, m') →
  m' !! sha saKey = Some ts ∧ (∀ k v, m !! k = Some v → m' !! k = Some v) ∧
  (∀ others' ts' m'', tokenSourceForSAKey sha parse others' m' saKey = (Ok ts', m'') → ts' = ts ∧ m'' = m').
Proof.
  intros Ho H. assert (m' !! sha saKey = Some ts ∧ (∀ k v, m !! k = Some v → m' !! k = Some v)) as [Hk Hm].
  { unfold tokenSourceForSAKey, LoadOrStore in H. destruct (m !! sha saKey) eqn:E; [by simplify_eq|].
    destruct (parse saKey) as [t|]; [|done]. destruct (others m !! sha saKey) eqn:E2; simplify_eq.
    - split; [done|]. eauto.
    - split; [by rewrite lookup_insert_eq|]. intros k v Hkv. rewrite lookup_insert_ne; [by apply Ho|]. by intros <-; rewrite E in Hkv. }
  split_and!; [done..|]. intros others' ts' m''. unfold tokenSourceForSAKey. rewrite Hk. by intros [= <- <-].
Qed.

(** ** Anthropic *)

(** The beta token is there after the call, nothing of the agent's own list is
    lost, and calling again changes nothing. *)
Theorem ensureBeta_spec h beta :
  beta ≠ "" → TrimSpace beta = beta → IndexByte beta "," = None →
  let cur := header_Get h "anthropic-beta" in let new := header_Get (ensureBeta h beta) "anthropic-beta" in
  Exists (λ p, TrimSpace p = beta) (SplitByte new ",") ∧
  (cur ≠ "" → ∀ p, p ∈ SplitByte cur "," → p ∈ SplitByte new ",") ∧
  ensureBeta (ensureBeta h beta) beta = ensureBeta h beta.
Proof.
  intros Hne Htrim Hcomma. cbv zeta. set (cur := header_Get h "anthropic-beta").
  assert (∀ v, header_Get (header_Set h "anthropic-beta" v) "anthropic-beta" = v) as Hget.
  { intros v. unfold header_Get. by rewrite header_Values_Set, decide_True. }
  assert (∀ v, Exists (λ p, TrimSpace p = beta) (SplitByte v ",") →
    existsb (λ p, String.eqb (TrimSpace p) beta) (SplitByte v ",") = true) as Hex.
  { intros v (p & Hp & Ht)%Exists_exists. apply existsb_exists. exists p. split; [by apply list_elem_of_In|]. by apply String.eqb_eq. }
  assert (∀ h', (let v := header_Get h' "anthropic-beta" in v ≠ "" ∧ Exists (λ p, TrimSpace p = beta) (SplitByte v ",")) →
    ensureBeta h' beta = h') as Hidem.
  { intros h' [Hv Hx]. unfold ensureBeta. rewrite (proj2 (String.eqb_neq _ _) Hv). by rewrite (Hex _ Hx). }
  assert (ensureBeta h beta = if String.eqb cur "" then header_Set h "anthropic-beta" beta
    else if existsb (λ p, String.eqb (TrimSpace p) beta) (SplitByte cur ",") then h
    else header_Set h "anthropic-beta" (cur +:+ "," +:+ beta)) as -> by done.
  destruct (String.eqb cur "") eqn:Ec.
  - rewrite Hget, SplitByte_single by done. split_and!; [by constructor|by apply String.eqb_eq in Ec|].
    apply Hidem. cbv zeta. rewrite Hget, SplitByte_single by done. split; [done|by constructor].
  - apply String.eqb_neq in Ec. destruct (existsb _ (SplitByte cur ",")) eqn:Ex.
    + assert (Exists (λ p, TrimSpace p = beta) (SplitByte cur ",")) as Hx.
      { apply existsb_exists in Ex as (p & Hp & Ht). apply Exists_exists. exists p. split; [by apply list_elem_of_In|by apply String.eqb_eq]. }
      split_and!; [done..|by apply Hidem].
    + assert (SplitByte (cur +:+ "," +:+ beta) "," = SplitByte cur "," ++ [beta]) as Happ.
      { change ("," +:+ beta) with (String "," beta).
        generalize cur. intros s. induction s as [|c s IH]; [cbn [String.append SplitByte]; by rewrite SplitByte_single|]. cbn [String.append]. cbn [SplitByte]. rewrite IH.
        destruct (Ascii.eqb c ","); [done|]. destruct (SplitByte s ",") eqn:Es; [by destruct (SplitByte_nonempty s ",")|done]. }
      rewrite Hget, Happ. split_and!; [apply Exists_app; right; by constructor|intros _ p Hp; set_solver|].
      apply Hidem. cbv zeta. rewrite Hget, Happ. split; [by destruct cur|apply Exists_app; right; by constructor].
Qed.

(** ** Witnesses *)

Definition no_claims (_ : string) : option (string * string) := None.
Definition gemini_request : WireRequest :=
  mkWire "POST" (mkURL "" "" "" "/v1" "" false "key=placeholder&alt=sse" "") "api.example.com" {["Accept" := ["text/plain"]]}
    (Some (mkStream "hello" None false)) false.


(** Two Slack credentials as the dashboard stores them, in slots. *)
Lemma secret_stays_in_footprint_witness :
  wr_URL (InjectHTTP_of no_claims SlackTokens gemini_request (mkSecret "" {["bot" := "xoxb-1"; "signing_secret" := "k"]})).1 =
  wr_URL (InjectHTTP_of no_claims SlackTokens gemini_request (mkSecret "" {["bot" := "xoxb-22"]})).1.
Proof. apply (secret_stays_in_footprint no_claims SlackTokens); [discriminate|vm_compute; reflexivity]. Defined.

Definition charge (body : string) : WireRequest :=
  mkWire "POST" (mkURL "https" "" "api.stripe.com" "/v1/charges" "" false "" "") "api.stripe.com" ∅ (Some (mkStream body None false)) false.

Lemma idempotency_key_collides_witness :
  header_Values (wr_Header (InjectHTTP_of no_claims (BearerToken true) (charge "amount=100") (mkSecret "sk" ∅)).1) "Idempotency-Key" =
    ["/v1/charges@POST"] ∧
  header_Values (wr_Header (InjectHTTP_of no_claims (BearerToken true) (charge "amount=999") (mkSecret "sk" ∅)).1) "Idempotency-Key" =
    ["/v1/charges@POST"].
Proof.
  split; [vm_compute; reflexivity|].
  apply (idempotency_key_collides no_claims (charge "amount=100") (charge "amount=999") (mkSecret "sk" ∅) (mkSecret "sk" ∅));
    first [reflexivity|discriminate|vm_compute; reflexivity].
Defined.

Definition signed_header : string := "AWS4-HMAC-SHA256 Credential=AKIA/20240101/eu-west-1/dynamodb/aws4_request, SignedHeaders=host, Signature=x".

Example aws_scope :
  awsServiceRegion signed_header "x" = ("dynamodb", "eu-west-1") ∧ awsServiceRegion "" "sqs.us-west-2.amazonaws.com:443" = ("sqs", "us-west-2") ∧
  awsServiceRegion "" "iam.amazonaws.com" = ("iam", "us-east-1") ∧ awsServiceRegion "" "b.s3.eu-west-1.amazonaws.com" = ("b", "eu-west-1").
Proof. vm_compute. repeat split. Qed.
