(* ===== verification/WsBridge.v ===== *)
(** * The WebSocket bridge: [pumpWS] and [handleWSUpgrade] of [cmd/clawpatrol/ws.go]

    Once a request asks for an upgrade the gateway forwards the handshake, checks
    the answer, and pumps frames both ways. Observers are told the payload of text
    frames; a credential may replace a placeholder in a text frame on its way to
    the server. What a pump does is the list of its effects. *)
From S2P Require Import Prelude GoStrings NetAddr GoUrl GoHttp Wire WsFrame WsRfc.
From S2P Require Import Sanitize HostMatch Policy Dispatch Fingerprint RequestLoop Credentials.

(** ** The pump *)

Inductive WsEvent :=
| Observe (text : string)
| FrameBytes (n : Z)
| Forward (raw : string).

Inductive PumpEnd :=
| ReadFailed (e : FrameError)
| RewriteFailed
| WriteFailed
| PumpClosed
| OutOfFuel.

(** [wsPayloadRewriter]: the payload, whether it changed, or an error. *)
Definition wsPayloadRewriter : Type := string -> result (string * bool) unit.

Section Pump.
Context (flate_read : string -> string -> option string) (write_ok : string -> bool)
  (params : wsParams) (fromClient observed : bool).

Definition noTakeover : bool := if fromClient then clientNoTakeover params else serverNoTakeover params.

(** The payload handed on, and the decompressor's dictionary. *)
Definition decode_frame (rewritePayload : option wsPayloadRewriter) (dict : string) (f : WsFrame) : string * string :=
  if (fr_op f =? wsOpText) && (observed || bool_decide (is_Some rewritePayload)) then
    let plain := plain_of f in
    if fr_compressed f && deflate params then
      match decompress flate_read dict plain noTakeover with
      | (Some dec, d) => (dec, d)
      | (None, d) => (plain, d)
      end
    else (plain, dict)
  else (fr_payload f, dict).

(** The bytes written for a frame. *)
Definition frame_out (rewritePayload : option wsPayloadRewriter) (f : WsFrame) (plain : string) : result string unit :=
  match rewritePayload with
  | Some rw =>
      if (fr_op f =? wsOpText) && negb (fr_compressed f) then
        match rw plain with
        | Err e => Err e
        | Ok (rewritten, changed) =>
            Ok (if changed then buildFrameRaw (fr_b0 f) (fr_masked f) (fr_maskKey f) rewritten else fr_raw f)
        end
      else Ok (fr_raw f)
  | None => Ok (fr_raw f)
  end.

Fixpoint pump_loop (fuel : nat) (rewritePayload : option wsPayloadRewriter) (dict src : string)
    : list WsEvent * PumpEnd :=
  match fuel with
  | O => ([], OutOfFuel)
  | S fuel' =>
      match readFrameRaw src with
      | Err e => ([], ReadFailed e)
      | Ok (f, rest) =>
          let '(plain, dict') := decode_frame rewritePayload dict f in
          let seen := if (fr_op f =? wsOpText) && observed then [Observe plain] else [] in
          match frame_out rewritePayload f plain with
          | Err _ => (seen, RewriteFailed)
          | Ok raw =>
              let counted := seen ++ [FrameBytes (Z.of_nat (String.length raw))] in
              if negb (write_ok raw) then (counted, WriteFailed)
              else if fr_op f =? wsOpClose then (counted ++ [Forward raw], PumpClosed)
              else let '(evs, e) := pump_loop fuel' rewritePayload dict' rest in
                   (counted ++ Forward raw :: evs, e)
          end
      end
  end.

Definition pumpWS (rewritePayload : option wsPayloadRewriter) (src : string) : list WsEvent * PumpEnd :=
  pump_loop (S (String.length src)) rewritePayload "" src.
End Pump.

Definition forwarded (evs : list WsEvent) : list string :=
  evs ≫= λ e, match e with Forward raw => [raw] | _ => [] end.
Definition observations (evs : list WsEvent) : list string :=
  evs ≫= λ e, match e with Observe t => [t] | _ => [] end.

(** ** The Discord placeholder ([credentials/discord.go]) *)

Definition discord_RewriteWebSocketPayload (sec : Secret) : wsPayloadRewriter := λ payload,
  let tok := discordBotTokenSecret sec in
  if String.eqb tok "" || negb (Contains payload phDiscord) then Ok (payload, false)
  else Ok (ReplaceAll payload phDiscord tok, true).

(** ** The handshake *)

Definition wsUpstreamAddrAndServerName (upstream : string) : result (string * string) HostError :=
  match SplitHostPort upstream with
  | Err e => Err e
  | Ok (host, port) => Ok (net_JoinHostPort host (if String.eqb port "" then "443" else port), host)
  end.

(** The upgrade request, its headers in the order the map is ranged over. *)
Definition upgrade_request (ord : list string) (r : WireRequest) (upstream : string) : string :=
  wr_Method r +:+ " " +:+ RequestURI (wr_URL r) +:+ " HTTP/1.1" +:+ crlf +:+
  "Host: " +:+ (if String.eqb (wr_Host r) "" then upstream else wr_Host r) +:+ crlf +:+
  String.concat "" ((λ '(name, values),
    if EqualFold name "Host" then ""
    else String.concat "" ((λ v, name +:+ ": " +:+ v +:+ crlf) <$> values)) <$> range_over ord (wr_Header r)) +:+ crlf.

Inductive HeaderError := HeaderEOF | HeaderTooLarge | HeaderOutOfFuel.

Definition LF : ascii := ascii_of_nat 10.

(** [readHTTPHeader]: lines up to and including the empty one. *)
Fixpoint read_header_loop (fuel : nat) (buf s : string) : result (string * string) HeaderError :=
  match fuel with
  | O => Err HeaderOutOfFuel
  | S fuel' =>
      match IndexByte s LF with
      | None => Err HeaderEOF
      | Some i =>
          let line := str_take (S i) s in
          let rest := str_drop (S i) s in
          let buf := buf +:+ line in
          if String.eqb line crlf then Ok (buf, rest)
          else if (64 * 1024 <? Z.of_nat (String.length buf)) then Err HeaderTooLarge
          else read_header_loop fuel' buf rest
      end
  end.

Definition readHTTPHeader (s : string) : result (string * string) HeaderError :=
  read_header_loop (S (String.length s)) "" s.

Definition parseRespHeaders (raw : string) : Header :=
  foldl (λ h line,
    if String.eqb line "" then h
    else match IndexByte line ":" with
         | None => h
         | Some i => header_Add h (TrimSpace (str_take i line)) (TrimSpace (str_drop (S i) line))
         end) ∅ (List.tl (split_crlf raw)).

Definition status_line (headerBytes : string) : string :=
  match Index headerBytes crlf with Some i => str_take i headerBytes | None => "" end.

Definition bad_gateway : string :=
  "HTTP/1.1 502 Bad Gateway" +:+ crlf +:+ "Content-Length: 0" +:+ crlf +:+ "Connection: close" +:+ crlf +:+ crlf.

Inductive UpgradeOutcome :=
| DialFailed (toClient : string)
| RequestWriteFailed
| ResponseFailed (toUpstream : string) (e : HeaderError)
| NotUpgraded (toUpstream toClient : string)
| ResponseWriteFailed (toUpstream : string)
| Bridged (toUpstream toClient : string) (c2s s2c : list WsEvent * PumpEnd).

Section Upgrade.
(** The upstream connection: whether it could be dialled, which writes succeed,
    and the bytes it sends; and the client's writes and the bytes it sends. *)
Context (flate_read : string -> string -> option string) (ord : list string)
  (dial : option string) (up_write client_write : string -> bool) (clientBytes : string).

Definition handleWSUpgrade (r : WireRequest) (upstream : string) (rewriteClientPayload : option wsPayloadRewriter)
    : UpgradeOutcome :=
  match dial with
  | None => DialFailed bad_gateway
  | Some upBytes =>
      let req := upgrade_request ord r upstream in
      if negb (up_write req) then RequestWriteFailed
      else match readHTTPHeader upBytes with
           | Err e => ResponseFailed req e
           | Ok (headerBytes, rest) =>
               let headerBytes := stripAuthResponseHeadersRaw headerBytes in
               if negb (Contains (status_line headerBytes) " 101 ") then
                 NotUpgraded req (headerBytes +:+ str_take 2048 rest)
               else if negb (client_write headerBytes) then ResponseWriteFailed req
               else
                 let params := parseWSExtensions (header_Get (parseRespHeaders headerBytes) "Sec-WebSocket-Extensions") in
                 Bridged req headerBytes
                   (pumpWS flate_read up_write params true true rewriteClientPayload clientBytes)
                   (pumpWS flate_read client_write params false true None rest)
           end
  end.
End Upgrade.

(** The sample of a payload an event carries. *)
Definition wsFrameSampleCap : nat := 512.
Definition frame_sample (text : string) : string :=
  if (wsFrameSampleCap <? String.length text)%nat then str_take wsFrameSampleCap text else text.

(** ** What a pump may do with a stream *)

(** Text that is not compressed, which a rewriter may change. *)
Definition rewritable (b0 : ascii) : Prop := opcode b0 = 1 ∧ rsv1 b0 = false.

(** The frame [raw] goes out as [out]: as it came when there is no rewriter for
    it or the rewriter left it alone, and otherwise as a frame of the same flags
    and the same masking key around the rewritten text, its length in the
    shortest form. The length of a slice is an [int]. *)
Inductive passed (rw : option wsPayloadRewriter) (raw : string) : string -> Prop :=
| passed_verbatim b0 mask plain :
    is_frame b0 mask plain raw → Z.of_nat (String.length plain) <= 2 ^ 24 →
    (∀ g, rw = Some g → rewritable b0 → ∃ text, g plain = Ok (text, false)) →
    passed rw raw raw
| passed_rewritten b0 mask plain g text out :
    is_frame b0 mask plain raw → Z.of_nat (String.length plain) <= 2 ^ 24 →
    rw = Some g → rewritable b0 → g plain = Ok (text, true) →
    (Z.of_nat (String.length text) < 2 ^ 63 →
     is_frame b0 mask text out ∧ String.length out = shortest_size mask text) →
    passed rw raw out.

Definition is_close (raw : string) : Prop := ∃ b0 s, raw = String b0 s ∧ opcode b0 = 8.

Definition none_closes (raws : list string) : Prop := Forall (λ raw, ¬ is_close raw) raws.

(** Where a pump stands when it ends: the frames [raws] went out and [rest] did
    not. Only the last of [raws] may be a close. *)
Inductive stopped (rw : option wsPayloadRewriter) (write_ok : string -> bool) :
    list string -> string -> PumpEnd -> Prop :=
| stopped_closed raws last rest : none_closes raws → is_close last → stopped rw write_ok (raws ++ [last]) rest PumpClosed
| stopped_cut_short raws rest :
    none_closes raws →
    (∀ b0 mask plain raw rest', is_frame b0 mask plain raw → rest ≠ raw +:+ rest') →
    stopped rw write_ok raws rest (ReadFailed FrameEOF)
| stopped_too_large raws rest n len :
    none_closes raws →
    announces rest len → 2 ^ 24 < len → stopped rw write_ok raws rest (ReadFailed (FrameTooLarge n))
| stopped_rewrite raws b0 mask plain raw rest g e :
    none_closes raws →
    is_frame b0 mask plain raw → rewritable b0 → rw = Some g → g plain = Err e →
    stopped rw write_ok raws (raw +:+ rest) RewriteFailed
| stopped_write raws raw rest out :
    none_closes raws →
    passed rw raw out → write_ok out = false → stopped rw write_ok raws (raw +:+ rest) WriteFailed.

Lemma readFrameRaw_shorter s f rest : readFrameRaw s = Ok (f, rest) → (S (S (String.length rest)) <= String.length s)%nat.
Proof. intros [-> H]%readFrameRaw_raw. rewrite str_length_app. lia. Qed.

Lemma read_frame_key s f rest : readFrameRaw s = Ok (f, rest) →
  String.length (fr_maskKey f) = 4%nat ∧ (fr_masked f = false → fr_maskKey f = zeroKey) ∧
  fr_op f = Z.land (byte_val (fr_b0 f)) 15 ∧ fr_compressed f = negb (Z.land (byte_val (fr_b0 f)) wsRSV1 =? 0) ∧
  Z.of_nat (String.length (fr_payload f)) <= maxFrame.
Proof.
  unfold readFrameRaw. intros H.
  destruct (ReadFull 2 s) as [[[|b0 [|b1 [|? ?]]] s1]|]; try done.
  destruct (read_length _ s1) as [[[ext plen] s2]|]; [|done].
  destruct (read_mask _ s2) as [[key s3]|] eqn:E2; [|done].
  destruct (_ || _) eqn:Eb; [done|]. bprop.
  destruct (ReadFull _ s3) as [[payload s4]|] eqn:E3; [|done]. injection H as <- <-.
  apply ReadFull_Some in E3 as [_ Hlen]. cbn [fr_maskKey fr_masked fr_op fr_b0 fr_compressed fr_payload]. split_and!; try done.
  - unfold read_mask in E2. destruct (negb _); [by apply ReadFull_Some in E2 as [_ ?]|done].
  - by intros ->.
  - rewrite Hlen. lia.
Qed.

(** One frame: what is written for it, and when the rewriter fails on it. *)
Lemma frame_out_passed fl ps fc ob rw dict src f rest plain dict' :
  readFrameRaw src = Ok (f, rest) → decode_frame fl ps fc ob rw dict f = (plain, dict') →
  match frame_out rw f plain with
  | Ok out => passed rw (fr_raw f) out
  | Err e => ∃ g, rw = Some g ∧ rewritable (fr_b0 f) ∧ g (plain_of f) = Err e
  end.
Proof.
  intros Hr Hd. pose proof (read_frame_key _ _ _ Hr) as (Hkey & _).
  apply readFrameRaw_is_frame in Hr as (_ & Hf & Hop & Hc & Hlen).
  unfold decode_frame in Hd. unfold frame_out. rewrite Hop, Hc in *.
  destruct rw as [g|]; [|by eapply passed_verbatim].
  destruct (Z.eqb_spec (opcode (fr_b0 f)) wsOpText) as [Eop|Eop]; cbn [andb] in *.
  2:{ eapply passed_verbatim; [done..|]. intros g' _ [? _]. done. }
  destruct (rsv1 (fr_b0 f)) eqn:Ec; cbn [negb andb] in *.
  { eapply passed_verbatim; [done..|]. intros g' _ [_ ?]. congruence. }
  rewrite (bool_decide_eq_true_2 (is_Some (Some g))), orb_true_r in Hd by eauto. injection Hd as <- <-.
  assert (rewritable (fr_b0 f)) as Hrw by done.
  destruct (g (plain_of f)) as [[text []]|e] eqn:Eg.
  - eapply passed_rewritten; [done..|]. intros Ht. by apply buildFrameRaw_is_frame.
  - eapply passed_verbatim; [done..|]. intros g' [= <-] _. eauto.
  - eauto.
Qed.

Lemma forwarded_app a b : forwarded (a ++ b) = forwarded a ++ forwarded b.
Proof. apply bind_app. Qed.

Lemma observations_app a b : observations (a ++ b) = observations a ++ observations b.
Proof. apply bind_app. Qed.

Definition step_prelude (ob : bool) (f : WsFrame) (plain : string) : list WsEvent :=
  if (fr_op f =? wsOpText) && ob then [Observe plain] else [].

Lemma prelude_forwards ob f plain : forwarded (step_prelude ob f plain) = [].
Proof. unfold step_prelude. by destruct (_ && _). Qed.

Lemma concat_cons_raw x xs : String.concat "" (x :: xs) = x +:+ String.concat "" xs.
Proof. destruct xs; cbn; [by rewrite str_app_nil_r|done]. Qed.

Lemma stopped_cons rw wo raw raws rest e :
  ¬ is_close raw → stopped rw wo raws rest e → stopped rw wo (raw :: raws) rest e.
Proof.
  intros Hr. assert (∀ rs, none_closes rs → none_closes (raw :: rs)) as Hc by by constructor.
  destruct 1; [apply (stopped_closed rw wo (raw :: raws))|eapply stopped_cut_short|eapply stopped_too_large|
    eapply stopped_rewrite|eapply stopped_write]; eauto.
Qed.

Lemma read_failure_stops rw wo src err : readFrameRaw src = Err err → stopped rw wo [] src (ReadFailed err).
Proof.
  destruct err as [|n]; intros H.
  - apply stopped_cut_short; [constructor|]. intros b0 mask plain raw rest' Hf ->. by apply (is_frame_reads _ _ _ _ rest') in Hf.
  - destruct (too_large_announces _ _ H) as (len & Ha & Hl). eapply stopped_too_large; [constructor|done..].
Qed.

(** The whole pump: the frames taken off the stream, what was written for each,
    and why it stopped. *)
Lemma pump_loop_passed fl wo ps fc ob rw n dict src evs e :
  (String.length src < n)%nat → pump_loop fl wo ps fc ob n rw dict src = (evs, e) →
  ∃ raws rest, src = String.concat "" raws +:+ rest ∧ Forall2 (passed rw) raws (forwarded evs) ∧
    Forall (λ out, wo out = true) (forwarded evs) ∧ stopped rw wo raws rest e.
Proof.
  revert dict src evs e. induction n as [|n IH]; intros dict src evs e Hn; [lia|]. cbn [pump_loop].
  destruct (readFrameRaw src) as [[f rest]|err] eqn:E.
  2:{ intros [= <- <-]. exists [], src. split_and!; [done|constructor|constructor|by apply read_failure_stops]. }
  destruct (decode_frame fl ps fc ob rw dict f) as [plain dict'] eqn:Ed.
  fold (step_prelude ob f plain). pose proof (frame_out_passed _ _ _ _ _ _ _ _ _ _ _ E Ed) as Hs.
  pose proof (readFrameRaw_shorter _ _ _ E) as Hsh.
  apply readFrameRaw_is_frame in E as (-> & Hf & Hop & _).
  destruct (frame_out rw f plain) as [out|err].
  2:{ destruct Hs as (g & -> & Hrw & Hg). intros [= <- <-]. exists [], (fr_raw f +:+ rest). rewrite prelude_forwards.
      split_and!; [done|constructor|constructor|eapply stopped_rewrite; [constructor|done..]]. }
  destruct (wo out) eqn:Ew; cbn [negb].
  2:{ intros [= <- <-]. exists [], (fr_raw f +:+ rest). rewrite forwarded_app, prelude_forwards.
      split_and!; [done|constructor|constructor|eapply stopped_write; [constructor|done..]]. }
  destruct (Z.eqb_spec (fr_op f) wsOpClose) as [Ec|Ec].
  { intros [= <- <-]. exists [fr_raw f], rest. rewrite !forwarded_app, prelude_forwards.
    split_and!; [done|by repeat constructor|by repeat constructor|].
    apply (stopped_closed rw wo []); [constructor|]. destruct Hf as (? & ? & ? & -> & _). do 2 eexists. split; [done|]. by rewrite <- Hop. }
  destruct (pump_loop fl wo ps fc ob n rw dict' rest) as [evs' e'] eqn:E'. intros [= <- <-].
  destruct (IH dict' rest evs' e' ltac:(lia) E') as (raws & rest' & -> & Hp & Hw & He). exists (fr_raw f :: raws), rest'.
  rewrite !forwarded_app, prelude_forwards, concat_cons_raw. split_and!.
  - by rewrite str_app_assoc.
  - cbn. by constructor.
  - cbn. by constructor.
  - apply stopped_cons; [|done]. intros (b0 & tl & Hb & Ho).
    destruct Hf as (? & ? & ? & Hf & _). rewrite Hf in Hb. injection Hb as <- _. by rewrite Hop in Ec.
Qed.

Lemma passed_unchanged raws outs : Forall2 (passed None) raws outs → outs = raws.
Proof. induction 1 as [|raw out raws outs Hs _ IH]; [done|]. inversion Hs; simplify_eq. done. Qed.

(** What the observer is told does not depend on the rewriter: it is told the
    same payloads, as long as the pump runs. *)
Lemma decode_observed fl ps fc rw dict f : decode_frame fl ps fc true rw dict f = decode_frame fl ps fc true None dict f.
Proof. unfold decode_frame. by cbn [orb]. Qed.

Lemma prelude_observed f plain : observations (step_prelude true f plain) = if fr_op f =? wsOpText then [plain] else [].
Proof. unfold step_prelude. rewrite andb_true_r. by destruct (_ =? _). Qed.

Lemma pump_loop_observations fl wo ps fc rw n dict src :
  observations (pump_loop fl wo ps fc true n rw dict src).1 `prefix_of`
  observations (pump_loop fl (λ _, true) ps fc true n None dict src).1.
Proof.
  revert dict src. induction n as [|n IH]; intros dict src; cbn [pump_loop]; [done|].
  destruct (readFrameRaw src) as [[f rest]|err] eqn:E; [|done].
  rewrite (decode_observed fl ps fc rw). destruct (decode_frame fl ps fc true None dict f) as [plain dict'] eqn:Ed.
  fold (step_prelude true f plain). cbn [frame_out negb].
  specialize (IH dict' rest).
  destruct (pump_loop fl (λ _, true) ps fc true n None dict' rest) as [evs1 e1].
  destruct (pump_loop fl wo ps fc true n rw dict' rest) as [evs2 e2].
  destruct (frame_out rw f plain) as [out|], (fr_op f =? wsOpClose); try destruct (negb (wo out));
    cbn [fst] in *; rewrite ?observations_app, prelude_observed; cbn [observations mbind list_bind app].
  all: rewrite ?app_nil_r; first [done | by apply prefix_app | by apply prefix_app_r].
Qed.

(** ** The theorems *)

(** A rebuilt frame reads back as the frame it replaces with the new payload:
    same flags, opcode, mask and key, and the bytes after it untouched. *)
Theorem rewritten_frame_reads_back s f rest0 payload rest :
  readFrameRaw s = Ok (f, rest0) → Z.of_nat (String.length payload) <= maxFrame →
  ∃ f', readFrameRaw (buildFrameRaw (fr_b0 f) (fr_masked f) (fr_maskKey f) payload +:+ rest) = Ok (f', rest) ∧
    fr_b0 f' = fr_b0 f ∧ fr_op f' = fr_op f ∧ fr_compressed f' = fr_compressed f ∧ fr_masked f' = fr_masked f ∧
    fr_maskKey f' = fr_maskKey f ∧ plain_of f' = payload.
Proof.
  intros (Hk & Hz & Hop & Hc & _)%read_frame_key Hlen.
  eexists. split; [by apply readFrameRaw_build|]. cbn. split_and!; try done.
  - destruct (fr_masked f); [done|]. by rewrite Hz.
  - unfold plain_of. cbn. destruct (fr_masked f); [apply mask_from_cancel|done].
Qed.

Definition identify_frame : string :=
  buildFrameRaw (byte_of 129) true (be_put 4 2018915346) ("{token:" +:+ phDiscord +:+ "}").

Lemma rewritten_frame_reads_back_witness :
  ∃ f f', readFrameRaw identify_frame = Ok (f, "") ∧
    readFrameRaw (buildFrameRaw (fr_b0 f) (fr_masked f) (fr_maskKey f) "{token:real}" +:+ "next") = Ok (f', "next") ∧
    fr_masked f' = true ∧ plain_of f' = "{token:real}".
Proof.
  destruct (readFrameRaw identify_frame) as [[f r]|] eqn:E; [|vm_compute in E; done].
  assert (r = "" ∧ fr_masked f = true) as [-> Hm] by (vm_compute in E; by injection E as <- <-).
  destruct (rewritten_frame_reads_back identify_frame f "" "{token:real}" "next" E ltac:(vm_compute; congruence))
    as (f' & H1 & _ & _ & _ & H2 & _ & H3).
  exists f, f'. split_and!; [done..|by rewrite H2|done].
Defined.

(** C28. The pump ends, and its input is the frames it passed on, in order, followed
    by what it did not. Frames are those of RFC 6455. Each went out as it came, or,
    where it is uncompressed text and the rewriter changed it, as one frame with
    the same flags and masking key whose payload is the rewritten text. It stops
    at a close frame, after passing it on; where no whole frame is left; at a
    frame announced as more than 16 MiB, which is not passed on; and where the
    rewriter or a write fails. Without a rewriter the bytes written are a prefix
    of the bytes read. *)
Theorem ws_pump_faithful fl wo ps fc ob rw src evs e :
  pumpWS fl wo ps fc ob rw src = (evs, e) →
  ∃ raws rest, src = String.concat "" raws +:+ rest ∧ Forall2 (passed rw) raws (forwarded evs) ∧
    Forall (λ out, wo out = true) (forwarded evs) ∧ stopped rw wo raws rest e ∧
    (rw = None → forwarded evs = raws).
Proof.
  intros H. destruct (pump_loop_passed _ _ _ _ _ _ _ _ _ _ _ (Nat.lt_succ_diag_r _) H) as (raws & rest & Hs & Hp & Hw & He).
  exists raws, rest. split_and!; [done..|]. intros ->. by apply passed_unchanged.
Qed.

Definition ping_frame : string := buildFrameRaw (byte_of 137) false zeroKey "hi".
Definition no_flate : string -> string -> option string := λ _ _, None.
Definition discord_secret : Secret := mkSecret "T0ken" ∅.
(** A header that announces 2^24 + 1 bytes. *)
Definition large_header : string := String (byte_of 130) (String (byte_of 127) (be_put 8 16777217)).

Lemma ws_pump_faithful_witness :
  let rw := Some (discord_RewriteWebSocketPayload discord_secret) in
  let src := identify_frame +:+ (ping_frame +:+ large_header) in
  ∃ evs, pumpWS no_flate (λ _, true) (mkParams false false false) true true rw src = (evs, ReadFailed (FrameTooLarge 16777217)) ∧
    forwarded evs = [buildFrameRaw (byte_of 129) true (be_put 4 2018915346) "{token:T0ken}"; ping_frame] ∧
    ∃ raws rest, src = String.concat "" raws +:+ rest ∧ Forall2 (passed rw) raws (forwarded evs) ∧
      stopped rw (λ _, true) raws rest (ReadFailed (FrameTooLarge 16777217)).
Proof.
  intros rw src.
  destruct (pumpWS no_flate (λ _, true) (mkParams false false false) true true rw src) as [evs e] eqn:E.
  destruct (ws_pump_faithful _ _ _ _ _ _ _ _ _ E) as (raws & rest & H1 & H2 & _ & H3 & _).
  assert (e = ReadFailed (FrameTooLarge 16777217)) as -> by (vm_compute in E; by injection E as _ <-).
  exists evs. split_and!; [done| |by exists raws, rest].
  vm_compute in E. injection E as <-. vm_compute. reflexivity.
Defined.

(** Whatever the rewriter does, the observer is told a prefix of what it would
    be told without one: it sees the placeholder, never the secret. *)
Theorem ws_observers_blind fl wo ps fc rw src :
  observations (pumpWS fl wo ps fc true rw src).1 `prefix_of`
  observations (pumpWS fl (λ _, true) ps fc true None src).1.
Proof. apply pump_loop_observations. Qed.
