(* ===== verification/PgSplit.v ===== *)
(** * Splitting a batch of SQL statements: the scanner of [endpoints/postgres_sql.go]

    A postgres query may hold several statements. The gateway cuts it at the
    semicolons that stand outside strings, quoted identifiers, dollar quotes,
    comments and parentheses, and has each piece parsed on its own. The index
    loops of the source run over a suffix of the text here: a scan returns how
    many bytes it passes. *)
From S2P Require Import Prelude GoStrings GoUrl GoHttp Wire.

Definition isIdentStart (c : ascii) : bool :=
  let n := byte_val c in
  ((97 <=? n) && (n <=? 122)) || ((65 <=? n) && (n <=? 90)) || Ascii.eqb c "_" || (128 <=? n).

Definition isIdentCont (c : ascii) : bool := isIdentStart c || is_digit c || Ascii.eqb c "$".

Definition newline_byte : ascii := ascii_of_nat 10.
Definition quote_mark : ascii := "'".

(** ** What a token passes *)

(** The bytes before the end of the line. *)
Fixpoint line_len (s : string) : nat :=
  match s with
  | EmptyString => 0
  | String c s' => if Ascii.eqb c newline_byte then 0 else S (line_len s')
  end.

(** The rest of a comment [d] levels deep. *)
Fixpoint block_len (d : nat) (s : string) : nat :=
  match d with
  | O => 0
  | S d' =>
      match s with
      | EmptyString => 0
      | String c s' =>
          match s' with
          | String c2 s'' =>
              if Ascii.eqb c "/" && Ascii.eqb c2 "*" then 2 + block_len (S d) s''
              else if Ascii.eqb c "*" && Ascii.eqb c2 "/" then 2 + block_len d' s''
              else S (block_len d s')
          | EmptyString => 1
          end
      end
  end.

(** The rest of a literal closed by [q], where [q] doubled stands for itself. *)
Fixpoint quote_len (q : ascii) (s : string) : nat :=
  match s with
  | EmptyString => 0
  | String c s' =>
      if Ascii.eqb c q then
        match s' with
        | String c2 s'' => if Ascii.eqb c2 q then 2 + quote_len q s'' else 1
        | EmptyString => 1
        end
      else S (quote_len q s')
  end.

(** The tag of a dollar quote, after its first [$]. *)
Fixpoint tag_len (s : string) : nat :=
  match s with
  | EmptyString => 0
  | String c s' => if isIdentCont c && negb (Ascii.eqb c "$") then S (tag_len s') else 0
  end.

(** [readDollarQuote] at the head of [s]: the tag, and the bytes up to the end of
    the closing tag, or of the text when there is none. *)
Definition readDollarQuote (s : string) : option (string * nat) :=
  match s with
  | String c s' =>
      if negb (Ascii.eqb c "$") then None
      else
        let j := tag_len s' in
        match String.get j s' with
        | Some d =>
            if negb (Ascii.eqb d "$") then None
            else
              let tag := str_take j s' in
              let openerEnd := (j + 2)%nat in
              let closing := "$" +:+ tag +:+ "$" in
              match Index (str_drop openerEnd s) closing with
              | None => Some (tag, String.length s)
              | Some idx => Some (tag, (openerEnd + idx + String.length closing)%nat)
              end
        | None => None
        end
  | EmptyString => None
  end.

Inductive Token :=
| TSkip (n : nat)
| TOpen
| TClose
| TSemi.

(** The [switch] of the scan: what stands at the head of a non-empty [s]. *)
Definition token_at (s : string) : Token :=
  match s with
  | EmptyString => TSkip 0
  | String c s' =>
      if Ascii.eqb c "-" && HasPrefix s' "-" then TSkip (2 + line_len (str_drop 1 s'))
      else if Ascii.eqb c "/" && HasPrefix s' "*" then TSkip (2 + block_len 1 (str_drop 1 s'))
      else if Ascii.eqb c quote_mark then TSkip (1 + quote_len quote_mark s')
      else if Ascii.eqb c "$" then
        match readDollarQuote s with Some (_, e) => TSkip e | None => TSkip 1 end
      else if Ascii.eqb c quote_byte then TSkip (1 + quote_len quote_byte s')
      else if Ascii.eqb c "(" then TOpen
      else if Ascii.eqb c ")" then TClose
      else if Ascii.eqb c ";" then TSemi
      else TSkip 1
  end.

(** ** The scan *)

Definition add_piece (cur : string) (rest : list string) : list string :=
  let piece := TrimSpace cur in if String.eqb piece "" then rest else piece :: rest.

(** [cur] is the text since the last cut, [s] what is left. *)
Fixpoint split_loop (fuel : nat) (depth : nat) (cur s : string) : list string :=
  match fuel with
  | O => []
  | S fuel' =>
      match s with
      | EmptyString => add_piece cur []
      | String c s' =>
          match token_at s with
          | TSkip n => split_loop fuel' depth (cur +:+ str_take n s) (str_drop n s)
          | TOpen => split_loop fuel' (S depth) (cur +:+ String c "") s'
          | TClose => split_loop fuel' (depth - 1) (cur +:+ String c "") s'
          | TSemi =>
              if (depth =? 0)%nat then add_piece cur (split_loop fuel' 0 "" s')
              else split_loop fuel' depth (cur +:+ String c "") s'
          end
      end
  end.

Definition splitTopLevelStatements (s : string) : list string :=
  match split_loop (S (String.length s)) 0 "" s with
  | [] => [TrimSpace s]
  | out => out
  end.

(** ** Statements the grammar port refuses: [normalizeParserGaps] *)

Definition is_word (c : ascii) : bool := is_alnum c || Ascii.eqb c "_".
Definition re_space (c : ascii) : bool := Ascii.eqb c " " || existsb (λ n, Ascii.eqb c (ascii_of_nat n)) [9; 10; 12; 13]%nat.

(** A prefix, up to the case of its letters. *)
Definition fold_prefix (s p : string) : bool := HasPrefix (ToLower s) (ToLower p).

Fixpoint span_len (p : ascii -> bool) (s : string) : nat :=
  match s with String c s' => if p c then S (span_len p s') else 0 | EmptyString => 0 end.

(** [default\b] at the head of [s]. *)
Definition default_here (s : string) : bool :=
  fold_prefix s "default" && match String.get 7 s with Some c => negb (is_word c) | None => true end.

(** A schema name and its dot. *)
Definition schema_len (s : string) : option nat :=
  match s with
  | String c s' =>
      if Ascii.eqb c quote_byte then
        let n := span_len (λ d, negb (Ascii.eqb d quote_byte)) s' in
        if HasPrefix (str_drop n s') (String quote_byte ".") then Some (n + 3)%nat else None
      else if (is_alnum c && negb (is_digit c)) || Ascii.eqb c "_" then
        let n := span_len (λ d, is_word d || Ascii.eqb d "$") s' in
        if HasPrefix (str_drop n s') "." then Some (n + 2)%nat else None
      else None
  | EmptyString => None
  end.

(** [collateDefaultRe] at the head of [s]: how long its first group is. *)
Definition collate_default_at (after_word : bool) (s : string) : option nat :=
  if negb after_word && fold_prefix s "collate" then
    let sp := span_len re_space (str_drop 7 s) in
    let t := str_drop (7 + sp) s in
    if (sp =? 0)%nat then None
    else
      match (match schema_len t with Some n => if default_here (str_drop n t) then Some n else None | None => None end) with
      | Some n => Some (7 + sp + n)%nat
      | None => if default_here t then Some (7 + sp)%nat else None
      end
  else None.

Definition quoted_default : string := String quote_byte ("default" +:+ String quote_byte "").

Fixpoint normalize_loop (fuel : nat) (after_word : bool) (s : string) : string :=
  match fuel with
  | O => s
  | S fuel' =>
      match s with
      | EmptyString => ""
      | String c s' =>
          match collate_default_at after_word s with
          | Some n => str_take n s +:+ (quoted_default +:+ normalize_loop fuel' true (str_drop (n + 7) s))
          | None => String c (normalize_loop fuel' (is_word c) s')
          end
      end
  end.

Definition normalizeParserGaps (sql : string) : string := normalize_loop (S (String.length sql)) false sql.

Example split_strings :
  splitTopLevelStatements "SELECT 'a;b'; DELETE FROM t -- x;y" = ["SELECT 'a;b'"; "DELETE FROM t -- x;y"].
Proof. vm_compute. reflexivity. Qed.

Example split_dollar :
  splitTopLevelStatements "DO $x$ BEGIN; END $x$; /* ; /* ; */ ; */ SELECT (1;2)" =
  ["DO $x$ BEGIN; END $x$"; "/* ; /* ; */ ; */ SELECT (1;2)"].
Proof. vm_compute. reflexivity. Qed.

Example normalize_collate :
  normalizeParserGaps "select a collate pg_catalog.DEFAULT, collate defaults" =
  "select a collate pg_catalog." +:+ quoted_default +:+ ", collate defaults".
Proof. vm_compute. reflexivity. Qed.

Example split_ident_dollar :
  splitTopLevelStatements "SELECT 1 AS a$b$; DROP TABLE t; SELECT 1 AS a$b$" =
  ["SELECT 1 AS a$b$; DROP TABLE t; SELECT 1 AS a$b$"].
Proof. vm_compute. reflexivity. Qed.

(** * The statement splitter cuts exactly at top-level semicolons

    A grammar of lexically closed statements, written from the language rather
    than from the scanner: plain bytes, string literals and quoted identifiers
    with doubled quotes, line and block comments, dollar quotes, balanced
    parentheses. Joined by semicolons such statements are split back. *)

(** ** The grammar *)

Definition plain_byte (c : ascii) : bool :=
  negb (existsb (Ascii.eqb c) ["-"; "/"; quote_mark; "$"; quote_byte; "("; ")"; ";"]%char).

(** A quote inside a literal is written twice. *)
Fixpoint escape_quotes (q : ascii) (s : string) : string :=
  match s with
  | EmptyString => ""
  | String c s' => if Ascii.eqb c q then String q (String q (escape_quotes q s')) else String c (escape_quotes q s')
  end.

Definition dollar_tag (tag : string) : string := "$" +:+ tag +:+ "$".

(** [sealed d s]: [s], read [d] parentheses deep, ends at depth 0 with no token open. *)
Inductive sealed : nat -> string -> Prop :=
| sealed_end : sealed 0 ""
| sealed_char d c s : plain_byte c = true → sealed d s → sealed d (String c s)
| sealed_dash d s : HasPrefix s "-" = false → sealed d s → sealed d (String "-" s)
| sealed_slash d s : HasPrefix s "*" = false → sealed d s → sealed d (String "/" s)
| sealed_literal d q body s :
    q = quote_mark ∨ q = quote_byte → HasPrefix s (String q "") = false → sealed d s →
    sealed d (String q (escape_quotes q body +:+ String q s))
| sealed_line d body s :
    no_byte newline_byte body = true → HasPrefix s (String newline_byte "") = true → sealed d s →
    sealed d ("--" +:+ (body +:+ s))
| sealed_block d body s : no_byte "*" body = true → sealed d s → sealed d ("/*" +:+ (body +:+ (" */" +:+ s)))
| sealed_dollar d tag body s :
    str_forall (λ c, isIdentCont c && negb (Ascii.eqb c "$")) tag = true →
    Index (body +:+ dollar_tag tag) (dollar_tag tag) = Some (String.length body) → sealed d s →
    sealed d (dollar_tag tag +:+ (body +:+ (dollar_tag tag +:+ s)))
| sealed_open d s : sealed (S d) s → sealed d (String "(" s)
| sealed_close d s : sealed d s → sealed (S d) (String ")" s)
| sealed_inner_semi d s : sealed (S d) s → sealed (S d) (String ";" s).

(** ** Scanning *)

(** A token passes at least one byte. *)
Lemma readDollarQuote_pos s tag e : readDollarQuote s = Some (tag, e) → (1 <= e)%nat.
Proof.
  unfold readDollarQuote. destruct s as [|c s']; [done|]. destruct (negb (Ascii.eqb c "$")); [done|].
  destruct (String.get _ s') as [d|]; [|done]. destruct (negb (Ascii.eqb d "$")); [done|].
  destruct (Index _ _); intros [= _ <-]; cbn [String.length]; lia.
Qed.

Lemma token_at_pos c s n : token_at (String c s) = TSkip n → (1 <= n)%nat.
Proof.
  unfold token_at. intros H. repeat case_match; simplify_eq; try lia.
  eapply readDollarQuote_pos. eassumption.
Qed.

Lemma split_loop_fuel n m d cur s :
  (String.length s < n)%nat → (String.length s < m)%nat → split_loop n d cur s = split_loop m d cur s.
Proof.
  revert m d cur s. induction n as [|n IH]; intros m d cur s Hn Hm; [lia|]. destruct m as [|m]; [lia|].
  cbn [split_loop]. destruct s as [|c s]; [done|]. cbn [String.length] in Hn, Hm.
  destruct (token_at (String c s)) as [k| | |] eqn:E.
  - apply token_at_pos in E. apply IH; rewrite str_length_drop; cbn [String.length]; lia.
  - apply IH; lia.
  - apply IH; lia.
  - destruct (d =? 0)%nat; [f_equal|]; apply IH; lia.
Qed.

(** The scan with the fuel it needs. *)
Definition scan (d : nat) (cur s : string) : list string := split_loop (S (String.length s)) d cur s.

Lemma scan_fuel n d cur s : (String.length s < n)%nat → split_loop n d cur s = scan d cur s.
Proof. intros. apply split_loop_fuel; lia. Qed.

(** A token of known length. *)
Lemma scan_skip d cur a s :
  a ≠ "" → token_at (a +:+ s) = TSkip (String.length a) → scan d cur (a +:+ s) = scan d (cur +:+ a) s.
Proof.
  intros Ha Ht. destruct a as [|c a]; [done|]. cbn [String.append] in *. unfold scan at 1. cbn [split_loop]. rewrite Ht.
  rewrite (str_take_app (String c a) s : str_take _ (String c (a +:+ s)) = _).
  rewrite (str_drop_app (String c a) s : str_drop _ (String c (a +:+ s)) = _).
  apply scan_fuel. cbn [String.length]. rewrite str_length_app. lia.
Qed.

(** A byte that is a token by itself. *)
Lemma scan_one d cur c s : token_at (String c s) = TSkip 1 → scan d cur (String c s) = scan d (cur +:+ String c "") s.
Proof. intros H. apply (scan_skip d cur (String c "") s); [done|exact H]. Qed.

Lemma scan_open d cur s : scan d cur (String "(" s) = scan (S d) (cur +:+ "(") s.
Proof. reflexivity. Qed.

Lemma scan_close d cur s : scan d cur (String ")" s) = scan (d - 1) (cur +:+ ")") s.
Proof. reflexivity. Qed.

Lemma scan_inner_semi d cur s : scan (S d) cur (String ";" s) = scan (S d) (cur +:+ ";") s.
Proof. reflexivity. Qed.

Lemma scan_semi cur s : scan 0 cur (String ";" s) = add_piece cur (scan 0 "" s).
Proof. reflexivity. Qed.

Lemma plain_token c s : plain_byte c = true → token_at (String c s) = TSkip 1.
Proof.
  unfold plain_byte, token_at. cbn [existsb]. intros H. bprop.
  repeat match goal with H : c ≠ ?x |- _ => rewrite (proj2 (Ascii.eqb_neq c x) H); clear H end. done.
Qed.

Lemma HasPrefix_app_false s t p c :
  HasPrefix s (String c "") = false → HasPrefix t (String c "") = false → p = s +:+ t → HasPrefix p (String c "") = false.
Proof. intros H1 H2 ->. destruct s as [|x s]; [done|]. cbn in *. done. Qed.

Lemma quote_len_literal q body s :
  HasPrefix s (String q "") = false →
  quote_len q (escape_quotes q body +:+ String q s) = S (String.length (escape_quotes q body)).
Proof.
  intros Hs. induction body as [|c body IH]; cbn [escape_quotes String.append quote_len].
  - rewrite Ascii.eqb_refl. destruct s as [|x s]; [done|]. cbn in Hs. rewrite Ascii.eqb_sym.
    destruct (Ascii.eqb q x); [|done]. by destruct s.
  - destruct (Ascii.eqb c q) eqn:E; cbn [String.append quote_len String.length].
    + rewrite Ascii.eqb_refl. by rewrite IH.
    + by rewrite E, IH.
Qed.

Lemma line_len_app body s :
  no_byte newline_byte body = true → HasPrefix s (String newline_byte "") = true →
  line_len (body +:+ s) = String.length body.
Proof.
  intros Hb Hs. induction body as [|c body IH].
  - apply HasPrefix_nonempty in Hs as (r & -> & _). done.
  - unfold no_byte in *. cbn [str_forall String.append line_len String.length] in *. bprop.
    rewrite (proj2 (Ascii.eqb_neq c newline_byte)) by done. by rewrite IH.
Qed.

Lemma block_len_app body s :
  no_byte "*" body = true → block_len 1 (body +:+ (" */" +:+ s)) = (String.length body + 3)%nat.
Proof.
  unfold no_byte. induction body as [|c body IH]; intros Hb; [by destruct s|].
  cbn [str_forall] in Hb. bprop. specialize (IH ltac:(assumption)). cbn [String.append String.length].
  assert (∃ c2 r, body +:+ (" */" +:+ s) = String c2 r ∧ c2 ≠ "*"%char) as (c2 & r & Hr & Hc).
  { destruct body as [|c2 body]; [by do 2 eexists|]. cbn [String.append str_forall] in *. bprop. by do 2 eexists. }
  cbn [String.append] in *. rewrite Hr in *.
  assert (block_len 1 (String c (String c2 r)) =
    if Ascii.eqb c "/" && Ascii.eqb c2 "*" then 2 + block_len 2 r
    else if Ascii.eqb c "*" && Ascii.eqb c2 "/" then 2 + block_len 0 r else S (block_len 1 (String c2 r)))%nat as -> by done.
  rewrite (proj2 (Ascii.eqb_neq c2 "*")), (proj2 (Ascii.eqb_neq c "*")), andb_false_r by done. cbn [andb].
  rewrite IH. done.
Qed.

Lemma tag_len_app tag s :
  str_forall (λ c, isIdentCont c && negb (Ascii.eqb c "$")) tag = true → tag_len (tag +:+ String "$" s) = String.length tag.
Proof.
  induction tag as [|c tag IH]; cbn [str_forall String.append tag_len String.length]; [done|].
  intros [Hc Ht]%andb_true_iff. by rewrite Hc, IH.
Qed.

Lemma get_app_here a c s : String.get (String.length a) (a +:+ String c s) = Some c.
Proof. induction a as [|x a IH]; [done|]. exact IH. Qed.

Lemma HasPrefix_app_l s t p : HasPrefix s p = true → HasPrefix (s +:+ t) p = true.
Proof. intros [r ->]%HasPrefix_spec. rewrite str_app_assoc. apply HasPrefix_app. Qed.

(** An occurrence in [s] is the first one in [s +:+ t], when nothing in between starts one earlier. *)
Lemma Index_app_first s t sub i :
  Index s sub = Some i → (i + String.length sub <= String.length s)%nat → Index (s +:+ t) sub = Some i.
Proof.
  revert i. induction s as [|c s IH]; intros i; cbn [Index String.append].
  - destruct (HasPrefix "" sub) eqn:E; [|done]. intros [= <-] _. apply HasPrefix_spec in E as [r Hr].
    symmetry in Hr. apply str_app_nil_inv in Hr as [-> _]. by destruct t.
  - destruct (HasPrefix (String c s) sub) eqn:E.
    + intros [= <-] _. by rewrite (HasPrefix_app_l (String c s) t sub E : HasPrefix (String c (s +:+ t)) sub = true).
    + destruct (Index s sub) as [j|] eqn:Ej; [|done]. intros [= <-] Hl. cbn [String.length] in Hl.
      destruct (HasPrefix (String c (s +:+ t)) sub) eqn:E2.
      * apply HasPrefix_spec in E2 as [r Hr]. exfalso.
        assert (HasPrefix (String c s) sub = true) as H; [|by rewrite E in H].
        apply HasPrefix_spec. exists (str_drop (String.length sub) (String c s)).
        assert (str_take (String.length sub) (String c (s +:+ t)) = sub) as Ht by (rewrite Hr; apply str_take_app).
        rewrite <- (str_take_drop (String.length sub) (String c s)) at 1. f_equal.
        rewrite <- Ht at 2. change (String c (s +:+ t)) with (String c s +:+ t).
        symmetry. apply str_take_app_le. cbn [String.length]. lia.
      * by rewrite (IH j eq_refl) by lia.
Qed.

Lemma readDollarQuote_closed tag body s :
  str_forall (λ c, isIdentCont c && negb (Ascii.eqb c "$")) tag = true →
  Index (body +:+ dollar_tag tag) (dollar_tag tag) = Some (String.length body) →
  readDollarQuote (dollar_tag tag +:+ (body +:+ (dollar_tag tag +:+ s))) =
  Some (tag, String.length (dollar_tag tag +:+ (body +:+ dollar_tag tag))).
Proof.
  intros Ht Hi. set (u := body +:+ (dollar_tag tag +:+ s)).
  assert (dollar_tag tag +:+ u = String "$" (tag +:+ String "$" u)) as ->
    by (unfold dollar_tag; cbn [String.append]; by rewrite str_app_assoc).
  unfold readDollarQuote. rewrite Ascii.eqb_refl. cbn [negb].
  rewrite tag_len_app by done. rewrite get_app_here, Ascii.eqb_refl. cbn [negb].
  rewrite str_take_app. change ("$" +:+ tag +:+ "$") with (dollar_tag tag).
  assert (str_drop (String.length tag + 2) (String "$" (tag +:+ String "$" u)) = u) as ->.
  { replace (String "$" (tag +:+ String "$" u)) with (String "$" (tag +:+ "$") +:+ u)
      by (cbn [String.append]; by rewrite str_app_assoc).
    replace (String.length tag + 2)%nat with (String.length (String "$" (tag +:+ "$")))
      by (cbn [String.length]; rewrite str_length_app; cbn; lia).
    apply str_drop_app. }
  unfold u.
  rewrite <- str_app_assoc.
  rewrite (Index_app_first _ s _ _ Hi) by (rewrite str_length_app; lia).
  f_equal. f_equal. rewrite !str_length_app. unfold dollar_tag. cbn [String.append String.length].
  rewrite !str_length_app. cbn [String.length]. lia.
Qed.

(** What may follow a statement: the end of the text, or a semicolon. *)
Definition follows (rest : string) : Prop := rest = "" ∨ HasPrefix rest ";" = true.

Lemma follows_prefix rest c : follows rest → c ≠ ";"%char → HasPrefix rest (String c "") = false.
Proof.
  intros [->|H] Hc; [done|]. apply HasPrefix_nonempty in H as (r & -> & _). cbn.
  by rewrite (proj2 (Ascii.eqb_neq c ";")) by done.
Qed.

(** A sealed statement is passed whole. *)
Lemma scan_sealed d s cur rest : sealed d s → follows rest → scan d cur (s +:+ rest) = scan 0 (cur +:+ s) rest.
Proof.
  intros Hs Hr. revert cur.
  induction Hs as [|d c s Hc Hs IH|d s Hp Hs IH|d s Hp Hs IH|d q body s Hq Hp Hs IH|d body s Hb Hp Hs IH|d body s Hb Hs IH
    |d tag body s Ht Hi Hs IH|d s Hs IH|d s Hs IH|d s Hs IH]; intros cur; cbn [String.append].
  - by rewrite str_app_nil_r.
  - rewrite scan_one by by apply plain_token. by rewrite IH, str_app_assoc.
  - rewrite scan_one. { by rewrite IH, str_app_assoc. }
    unfold token_at. rewrite (HasPrefix_app_false s rest (s +:+ rest) "-" Hp (follows_prefix rest "-" Hr ltac:(done)) eq_refl). done.
  - rewrite scan_one. { by rewrite IH, str_app_assoc. }
    unfold token_at. rewrite (HasPrefix_app_false s rest (s +:+ rest) "*" Hp (follows_prefix rest "*" Hr ltac:(done)) eq_refl). done.
  - assert (HasPrefix (s +:+ rest) (String q "") = false) as Hp'.
    { eapply (HasPrefix_app_false s rest); [done| |done]. apply follows_prefix; [done|]. by destruct Hq as [-> | ->]. }
    replace (String q ((escape_quotes q body +:+ String q s) +:+ rest))
      with (String q (escape_quotes q body +:+ String q "") +:+ (s +:+ rest))
      by (cbn [String.append]; rewrite !str_app_assoc; done).
    rewrite (scan_skip d cur (String q (escape_quotes q body +:+ String q "")) (s +:+ rest)); [|done|].
    { rewrite IH, str_app_assoc. cbn [String.append]. by rewrite ?str_app_assoc. }
    cbn [String.append String.length]. rewrite str_app_assoc, str_length_app. cbn [String.append String.length].
    rewrite Nat.add_1_r, <- (quote_len_literal q body (s +:+ rest) Hp'). by destruct Hq as [-> | ->].
  - replace (String "-" (String "-" ((body +:+ s) +:+ rest))) with (("--" +:+ body) +:+ (s +:+ rest))
      by (cbn [String.append]; rewrite !str_app_assoc; done).
    rewrite (scan_skip d cur ("--" +:+ body) (s +:+ rest)); [|done|].
    { rewrite IH, str_app_assoc. cbn [String.append]. by rewrite ?str_app_assoc. }
    cbn [String.append String.length token_at Ascii.eqb andb HasPrefix str_drop].
    by rewrite line_len_app by (done || by apply HasPrefix_app_l).
  - match goal with |- scan d cur ?t = _ => replace t with (("/*" +:+ (body +:+ " */")) +:+ (s +:+ rest))
      by (cbn [String.append]; rewrite !str_app_assoc; done) end.
    rewrite (scan_skip d cur ("/*" +:+ (body +:+ " */")) (s +:+ rest)); [|done|].
    { rewrite IH, str_app_assoc. cbn [String.append]. by rewrite ?str_app_assoc. }
    cbn [String.append String.length]. rewrite str_app_assoc, str_length_app.
    change (token_at (String "/" (String "*" (body +:+ (" */" +:+ (s +:+ rest))))))
      with (TSkip (2 + block_len 1 (body +:+ (" */" +:+ (s +:+ rest))))).
    by rewrite block_len_app by done.
  - replace ((dollar_tag tag +:+ (body +:+ (dollar_tag tag +:+ s))) +:+ rest)
      with ((dollar_tag tag +:+ (body +:+ dollar_tag tag)) +:+ (s +:+ rest)) by (rewrite !str_app_assoc; done).
    rewrite (scan_skip d cur (dollar_tag tag +:+ (body +:+ dollar_tag tag)) (s +:+ rest)); [|done|].
    { rewrite IH, !str_app_assoc. done. }
    rewrite !str_app_assoc.
    assert (∀ u, token_at (dollar_tag tag +:+ u) =
      match readDollarQuote (dollar_tag tag +:+ u) with Some (_, e) => TSkip e | None => TSkip 1 end) as -> by done.
    by rewrite readDollarQuote_closed.
  - rewrite scan_open, IH, str_app_assoc. done.
  - rewrite scan_close. cbn [Nat.sub]. rewrite Nat.sub_0_r, IH, str_app_assoc. done.
  - rewrite scan_inner_semi, IH, str_app_assoc. done.
Qed.

(** Sealed statements joined by semicolons. *)
Lemma scan_joined ps : ps ≠ [] → Forall (sealed 0) ps → Forall (λ p, TrimSpace p ≠ "") ps → scan 0 "" (Join ps ";") = TrimSpace <$> ps.
Proof.
  intros _ Hs Ht. induction ps as [|p ps IH]; [done|].
  apply Forall_cons in Hs as [Hp Hs]. apply Forall_cons in Ht as [Htp Ht].
  assert (add_piece p (TrimSpace <$> ps) = TrimSpace <$> (p :: ps)) as Hadd.
  { unfold add_piece. by rewrite (proj2 (String.eqb_neq _ _) Htp). }
  destruct ps as [|p' ps].
  - cbn [Join]. rewrite <- (str_app_nil_r p) at 1. rewrite scan_sealed by (done || by left). exact Hadd.
  - rewrite Join_cons, scan_sealed by (done || by right). cbn [String.append]. rewrite scan_semi, IH by done. exact Hadd.
Qed.

(** ** The theorem *)

(** A batch of lexically closed, non-blank statements is split into exactly
    those statements: no semicolon inside a literal, a comment, a dollar quote
    or parentheses cuts, and every one between statements does. *)
Theorem split_exact ps :
  ps ≠ [] → Forall (sealed 0) ps → Forall (λ p, TrimSpace p ≠ "") ps →
  splitTopLevelStatements (Join ps ";") = TrimSpace <$> ps.
Proof.
  intros Hne Hs Ht. unfold splitTopLevelStatements. fold (scan 0 "" (Join ps ";")).
  rewrite scan_joined by done. by destruct ps.
Qed.

Lemma split_exact_witness :
  splitTopLevelStatements "SELECT 'a;b'; DELETE FROM t" = ["SELECT 'a;b'"; "DELETE FROM t"].
Proof.
  apply (split_exact ["SELECT 'a;b'"; " DELETE FROM t"]); [done| |].
  - apply Forall_cons; split; [|apply Forall_cons; split; [|constructor]].
    + do 7 (apply sealed_char; [reflexivity|]).
      apply (sealed_literal 0 quote_mark "a;b" ""); [by left|reflexivity|constructor].
    + repeat (apply sealed_char; [reflexivity|]). constructor.
  - repeat constructor; vm_compute; congruence.
Defined.
