(* ===== verification/PgSql.v ===== *)
(** * What a SQL statement does: the extractor of [endpoints/postgres_sql.go]

    The gateway judges a statement by its verb, the tables and functions it
    mentions, and the statements that run underneath it. All four come from the
    parse tree of [pgplex/pgparser]. The tree is modelled by the node types and
    fields the extractor reads, node types it treats alike sharing a
    constructor; [NOther] is any node it has no case for, with the nodes below
    it. A nil node is [NNil], a nil list the empty one. The parser itself is a
    parameter. *)
From S2P Require Import Prelude GoStrings Policy Wire PgSplit.

(** ** Parse trees *)

Record RangeVar := mkRangeVar { Schemaname : string; Relname : string }.

Inductive ObjectType :=
| OBJECT_TABLE | OBJECT_VIEW | OBJECT_MATVIEW | OBJECT_SEQUENCE | OBJECT_FOREIGN_TABLE
| OBJECT_OTHER.

Inductive TransKind :=
| TRANS_STMT_BEGIN | TRANS_STMT_START | TRANS_STMT_COMMIT | TRANS_STMT_ROLLBACK | TRANS_STMT_SAVEPOINT
| TRANS_STMT_RELEASE | TRANS_STMT_ROLLBACK_TO | TRANS_STMT_PREPARE | TRANS_STMT_COMMIT_PREPARED
| TRANS_STMT_ROLLBACK_PREPARED | TRANS_STMT_UNKNOWN.

(** Statements whose only part that is read is one relation. *)
Inductive RelKind :=
| CreateStmt | AlterTableStmt | RefreshMatViewStmt | ClusterStmt | ReindexStmt | AlterSeqStmt | CreateSeqStmt
| RenameStmt | AlterObjectSchemaStmt | AlterOwnerStmt | VacuumRelation.

(** Statements that list relations. *)
Inductive RelsKind := LockStmt | TruncateStmt.

(** Statements of which only the type is read. *)
Inductive BareKind :=
| IndexStmt | CreateSchemaStmt | CreateFunctionStmt | CreateTrigStmt | CreateEnumStmt | CreateDomainStmt
| CreateRoleStmt | CreatedbStmt | DropRoleStmt | DropdbStmt | AlterDomainStmt | AlterEnumStmt | AlterRoleStmt
| AlterRoleSetStmt | AlterDatabaseStmt | AlterDatabaseSetStmt | AlterFunctionStmt | GrantRoleStmt | ExecuteStmt
| DeallocateStmt | ClosePortalStmt | ListenStmt | UnlistenStmt | NotifyStmt | LoadStmt | CheckPointStmt
| DiscardStmt | ConstraintsSetStmt | VariableShowStmt.

(** Nodes around one node, and around one list. *)
Inductive UnaryKind :=
| ResTarget | NullTest | BooleanTest | TypeCast | CollateClause | NamedArgExpr | SortBy | RangeSubselect.
Inductive NaryKind :=
| BoolExpr | CoalesceExpr | MinMaxExpr | A_ArrayExpr | RowExpr | RangeFunction | LockingClause.

Inductive Node :=
| NNil
| NString (Str : string)
| NInteger (Ival : Z)
| NBoolean (Boolval : bool)
| NFloat (Fval : string)
| NList (Items : list Node)
| NDefElem (Defname : string) (Arg : Node)
| NSelectStmt (WithClause TargetList FromClause : list Node) (WhereClause : Node) (GroupClause : list Node)
    (HavingClause : Node) (WindowClause ValuesLists SortClause : list Node) (LimitOffset LimitCount : Node)
    (LockingClause_ DistinctClause : list Node) (Larg Rarg : Node)
| NInsertStmt (WithClause : list Node) (Relation : option RangeVar) (SelectStmt OnConflictClause : Node)
    (ReturningList : list Node)
| NUpdateStmt (WithClause : list Node) (Relation : option RangeVar) (TargetList : list Node) (WhereClause : Node)
    (FromClause ReturningList : list Node)
| NDeleteStmt (WithClause : list Node) (Relation : option RangeVar) (WhereClause : Node)
    (UsingClause ReturningList : list Node)
| NMergeStmt (WithClause : list Node) (Relation : option RangeVar) (SourceRelation JoinCondition : Node)
    (MergeWhenClauses ReturningList : list Node)
| NCommonTableExpr (Ctename : string) (Ctequery : Node)
| NRelStmt (k : RelKind) (Relation : option RangeVar)
| NRelsStmt (k : RelsKind) (Relations : list Node)
| NBareStmt (k : BareKind)
| NViewStmt (View : option RangeVar) (Query : Node)
| NCopyStmt (Relation : option RangeVar) (Query : Node)
| NVacuumStmt (IsVacuumCmd : bool) (Rels : list Node)
| NDropStmt (RemoveType : ObjectType) (Objects : list Node)
| NCommentStmt (Objtype : ObjectType) (Object : Node)
| NGrantStmt (Objtype : ObjectType) (Objects : list Node)
| NExplainStmt (Query : Node) (Options : list Node)
| NPrepareStmt (Query : Node)
| NDeclareCursorStmt (Query : Node)
| NCreateTableAsStmt (Into : option RangeVar) (Query : Node)
| NCallStmt (Funccall : Node)
| NDoStmt (Args : list Node)
| NFetchStmt (Ismove : bool)
| NTransactionStmt (Kind : TransKind)
| NVariableSetStmt (Name : string) (IsLocal : bool)
| NRangeVar (r : RangeVar)
| NJoinExpr (Larg Rarg Quals : Node)
| NRangeTableSample (Relation : Node) (Args : list Node)
| NFromExpr (Fromlist : list Node) (Quals : Node)
| NA_Expr (Lexpr Rexpr : Node)
| NFuncCall (Funcname Args : list Node) (AggFilter Over : Node) (AggOrder : list Node)
| NSubLink (Testexpr Subselect : Node)
| NCaseExpr (Arg : Node) (Args : list Node) (Defresult : Node)
| NCaseWhen (Expr_ Result_ : Node)
| NA_Indirection (Arg : Node) (Indirection : list Node)
| NWindowDef (PartitionClause OrderClause : list Node)
| NUnary (k : UnaryKind) (Arg : Node)
| NNary (k : NaryKind) (Args : list Node)
| NOther (children : list Node).

(** ** Verbs *)

Definition transactionVerb (k : TransKind) : string :=
  match k with
  | TRANS_STMT_BEGIN | TRANS_STMT_START => "begin"
  | TRANS_STMT_COMMIT | TRANS_STMT_COMMIT_PREPARED => "commit"
  | TRANS_STMT_ROLLBACK | TRANS_STMT_ROLLBACK_TO | TRANS_STMT_ROLLBACK_PREPARED => "rollback"
  | TRANS_STMT_SAVEPOINT => "savepoint"
  | TRANS_STMT_RELEASE => "release"
  | TRANS_STMT_PREPARE => "prepare"
  | TRANS_STMT_UNKNOWN => ""
  end.

Definition variableSetVerb (name : string) (isLocal : bool) : string :=
  let name := ToLower name in
  if String.eqb name "role" then (if isLocal then "set local role" else "set role")
  else if String.eqb name "session_authorization" then
    (if isLocal then "set local session authorization" else "set session authorization")
  else "set".

Definition rel_verb (k : RelKind) : string :=
  match k with
  | CreateStmt | CreateSeqStmt => "create"
  | AlterTableStmt | AlterSeqStmt | AlterObjectSchemaStmt | AlterOwnerStmt => "alter"
  | RenameStmt => "rename"
  | RefreshMatViewStmt => "refresh"
  | ClusterStmt => "cluster"
  | ReindexStmt => "reindex"
  | VacuumRelation => ""
  end.

Definition bare_verb (k : BareKind) : string :=
  match k with
  | IndexStmt | CreateSchemaStmt | CreateFunctionStmt | CreateTrigStmt | CreateEnumStmt | CreateDomainStmt
  | CreateRoleStmt | CreatedbStmt => "create"
  | DropRoleStmt | DropdbStmt => "drop"
  | AlterDomainStmt | AlterEnumStmt | AlterRoleStmt | AlterRoleSetStmt | AlterDatabaseStmt | AlterDatabaseSetStmt
  | AlterFunctionStmt => "alter"
  | GrantRoleStmt => "grant"
  | ExecuteStmt => "execute"
  | DeallocateStmt => "deallocate"
  | ClosePortalStmt => "close"
  | ListenStmt => "listen"
  | UnlistenStmt => "unlisten"
  | NotifyStmt => "notify"
  | LoadStmt => "load"
  | CheckPointStmt => "checkpoint"
  | DiscardStmt => "discard"
  | ConstraintsSetStmt => "set"
  | VariableShowStmt => "show"
  end.

Definition verbFromNode (stmt : Node) : string :=
  match stmt with
  | NSelectStmt _ _ _ _ _ _ _ _ _ _ _ _ _ _ _ => "select"
  | NInsertStmt _ _ _ _ _ => "insert"
  | NUpdateStmt _ _ _ _ _ _ => "update"
  | NDeleteStmt _ _ _ _ _ => "delete"
  | NMergeStmt _ _ _ _ _ _ => "merge"
  | NRelStmt k _ => rel_verb k
  | NBareStmt k => bare_verb k
  | NViewStmt _ _ | NCreateTableAsStmt _ _ => "create"
  | NDropStmt _ _ => "drop"
  | NRelsStmt TruncateStmt _ => "truncate"
  | NRelsStmt LockStmt _ => "lock"
  | NCommentStmt _ _ => "comment"
  | NGrantStmt _ _ => "grant"
  | NCopyStmt _ _ => "copy"
  | NVacuumStmt v _ => if negb v then "analyze" else "vacuum"
  | NDoStmt _ => "do"
  | NCallStmt _ => "call"
  | NExplainStmt _ _ => "explain"
  | NPrepareStmt _ => "prepare"
  | NDeclareCursorStmt _ => "declare"
  | NFetchStmt m => if m then "move" else "fetch"
  | NTransactionStmt k => transactionVerb k
  | NVariableSetStmt n l => variableSetVerb n l
  | _ => ""
  end.

(** ** Names *)

(** A name, and after a dot its last part too. *)
Definition with_leaf (name : string) : list string :=
  if String.eqb name "" then []
  else name :: match LastIndexByte name "." with
               | Some i => if (i + 1 <? String.length name)%nat then [str_drop (i + 1) name] else []
               | None => []
               end.

Definition range_var_name (r : option RangeVar) : string :=
  match r with
  | None => ""
  | Some r =>
      if String.eqb (Relname r) "" then ""
      else if negb (String.eqb (Schemaname r) "") then Schemaname r +:+ "." +:+ Relname r else Relname r
  end.

(** The strings of a list of name parts. *)
Definition name_parts (items : list Node) : list string := items ≫= λ it, match it with NString s => [s] | _ => [] end.

Definition funcCallName (Funcname : list Node) : string := ToLower (Join (name_parts Funcname) ".").

(** ** What a walk records *)

Record pgInfo := mkInfo {
  pg_Verb : string;
  pg_Tables : list string;
  pg_Functions : list string;
  pg_Statement : string
}.

(** One record of [astCollector]: a table, a function, a shadow sub-statement,
    or the body of a DO block, which is analysed as a batch of its own. *)
Inductive Emit :=
| ETable (name : string)
| EFunc (name : string)
| EInner (info : pgInfo)
| EBody (body : string).

Definition emitTable (name : string) : list Emit := ETable <$> with_leaf name.
Definition emitRangeVar (r : option RangeVar) : list Emit := emitTable (range_var_name r).
Definition emitObjectName (items : list Node) : list Emit := emitTable (Join (name_parts items) ".").
Definition emitFunc (Funcname : list Node) : list Emit := EFunc <$> with_leaf (funcCallName Funcname).

Definition emitted_tables (es : list Emit) : gset string :=
  list_to_set (es ≫= λ e, match e with ETable t => [t] | _ => [] end).
Definition emitted_funcs (es : list Emit) : gset string :=
  list_to_set (es ≫= λ e, match e with EFunc f => [f] | _ => [] end).

Definition sortedKeys (m : gset string) : list string := stable_sort String.ltb (elements m).

(** A shadow sub-statement from the walk of its own tree. *)
Definition shadow_info (verb statement : string) (sub : list Emit) : pgInfo :=
  mkInfo verb (sortedKeys (emitted_tables sub)) (sortedKeys (emitted_funcs sub)) statement.

(** ** Options *)

Definition isFalseValue (v : string) : bool :=
  let l := ToLower v in
  if String.eqb l "" then false
  else if String.eqb l "0" then true
  else if HasPrefix "false" l || HasPrefix "no" l then true
  else (2 <=? String.length l)%nat && HasPrefix "off" l.

Definition defElemBool (arg : Node) : bool :=
  match arg with
  | NNil => true
  | NInteger i => negb (i =? 0)
  | NBoolean b => b
  | NFloat f => negb (isFalseValue f)
  | NString s => negb (isFalseValue s)
  | _ => true
  end.

Definition explainAnalyzes (options : list Node) : bool :=
  foldl (λ analyze it,
    match it with
    | NDefElem name arg => if negb (EqualFold name "analyze") then analyze else defElemBool arg
    | _ => analyze
    end) false options.

Definition isTableShaped (t : ObjectType) : bool := match t with OBJECT_OTHER => false | _ => true end.

Fixpoint doBody (args : list Node) : string :=
  match args with
  | [] => ""
  | NDefElem name arg :: rest =>
      if EqualFold name "as" then match arg with NString s => s | _ => doBody rest end else doBody rest
  | _ :: rest => doBody rest
  end.

Definition is_nil (n : Node) : bool := match n with NNil => true | _ => false end.

(** ** The walk *)

(** [astCollector.visit], for a collector whose [source] is [src]: what it
    records, in order. *)
Fixpoint visit (src : string) (node : Node) : list Emit :=
  let visitList (l : list Node) := concat (map (visit src) l) in
  let emitInner (stmt : Node) :=
    if is_nil stmt then [] else [EInner (shadow_info (verbFromNode stmt) src (visit "" stmt))] in
  let visitCTEs (ctes : list Node) :=
    concat (map (λ it,
      match it with
      | NCommonTableExpr name q =>
          if is_nil q then []
          else match q with
               | NInsertStmt _ _ _ _ _ | NUpdateStmt _ _ _ _ _ _ | NDeleteStmt _ _ _ _ _ | NMergeStmt _ _ _ _ _ _ =>
                   [EInner (shadow_info (verbFromNode q) name (visit "" q))]
               | _ => []
               end ++ visit src q
      | _ => []
      end) ctes) in
  match node with
  | NNil | NString _ | NInteger _ | NBoolean _ | NFloat _ | NDefElem _ _ | NCommonTableExpr _ _ => []
  | NList items => visitList items
  | NSelectStmt w tl fc wh gc hv wc vl sc lo lc lk dc la ra =>
      visitCTEs w ++ visitList tl ++ visitList fc ++ visit src wh ++ visitList gc ++ visit src hv ++ visitList wc ++
      visitList vl ++ visitList sc ++ visit src lo ++ visit src lc ++ visitList lk ++ visitList dc ++
      visit src la ++ visit src ra
  | NInsertStmt w r sel _ ret => visitCTEs w ++ emitRangeVar r ++ visit src sel ++ visitList ret
  | NUpdateStmt w r tl wh fc ret =>
      visitCTEs w ++ emitRangeVar r ++ visitList tl ++ visit src wh ++ visitList fc ++ visitList ret
  | NDeleteStmt w r wh us ret => visitCTEs w ++ emitRangeVar r ++ visit src wh ++ visitList us ++ visitList ret
  | NMergeStmt w r s j wcs ret =>
      visitCTEs w ++ emitRangeVar r ++ visit src s ++ visit src j ++ visitList wcs ++ visitList ret
  | NRelStmt _ r => emitRangeVar r
  | NRelsStmt _ rs => visitList rs
  | NBareStmt _ | NFetchStmt _ | NTransactionStmt _ | NVariableSetStmt _ _ => []
  | NViewStmt v q => emitRangeVar v ++ visit src q
  | NCopyStmt r q => emitRangeVar r ++ emitInner q ++ visit src q
  | NVacuumStmt _ rels => visitList rels
  | NDropStmt t objs =>
      if isTableShaped t then concat (map (λ it, match it with NList l => emitObjectName l | _ => [] end) objs) else []
  | NCommentStmt t o => if isTableShaped t then match o with NList l => emitObjectName l | _ => [] end else []
  | NGrantStmt t objs =>
      if isTableShaped t then
        concat (map (λ it, match it with
                           | NRangeVar r => emitRangeVar (Some r)
                           | NList l => emitObjectName l
                           | _ => []
                           end) objs)
      else []
  | NExplainStmt q opts => (if explainAnalyzes opts then emitInner q else []) ++ visit src q
  | NPrepareStmt q | NDeclareCursorStmt q => emitInner q ++ visit src q
  | NCreateTableAsStmt i q => emitRangeVar i ++ visit src q
  | NCallStmt f => visit src f
  | NDoStmt args => let body := doBody args in if String.eqb body "" then [] else [EBody body]
  | NRangeVar r => emitRangeVar (Some r)
  | NJoinExpr l r q => visit src l ++ visit src r ++ visit src q
  | NRangeTableSample r args => visit src r ++ visitList args
  | NFromExpr fl q => visitList fl ++ visit src q
  | NA_Expr l r => visit src l ++ visit src r
  | NFuncCall name args filter over _ => emitFunc name ++ visitList args ++ visit src filter ++ visit src over
  | NSubLink t s => visit src t ++ visit src s
  | NCaseExpr a args d => visit src a ++ visitList args ++ visit src d
  | NCaseWhen e r => visit src e ++ visit src r
  | NA_Indirection a ind => visit src a ++ visitList ind
  | NWindowDef p o => visitList p ++ visitList o
  | NUnary _ a => visit src a
  | NNary _ args => visitList args
  | NOther _ => []
  end.

(** ** Analysis *)

Record analysedStmt := mkAnalysed {
  an_Outer : pgInfo;
  an_Inner : list pgInfo;
  an_Unparseable : bool
}.

Section Analysis.
(** [parser.Parse]: the statements of a text, [None] for a syntax error. *)
Context (parse : string -> option (list Node)).

Definition tryParseFirstStmt (text : string) : option Node :=
  match parse text with Some (n :: _) => Some n | _ => None end.

(** The statement a piece is analysed as. *)
Definition piece_stmt (text : string) : option Node :=
  match tryParseFirstStmt text with
  | Some n => Some n
  | None =>
      let norm := normalizeParserGaps text in
      if String.eqb norm text then None else tryParseFirstStmt norm
  end.

(** The shadows of a walk; [analyse] is the analysis of a DO body. *)
Definition collect_inner (analyse : string -> list analysedStmt) (es : list Emit) : list pgInfo :=
  es ≫= λ e,
    match e with
    | EInner i => [i]
    | EBody b => analyse b ≫= λ a, (if negb (String.eqb (pg_Verb (an_Outer a)) "") then [an_Outer a] else []) ++ an_Inner a
    | _ => []
    end.

Definition analyseStmt (analyse : string -> list analysedStmt) (stmt : Node) (source : string) : analysedStmt :=
  let es := visit source stmt in
  mkAnalysed (mkInfo (verbFromNode stmt) (sortedKeys (emitted_tables es)) (sortedKeys (emitted_funcs es)) source)
    (collect_inner analyse es) false.

Definition analysePiece (analyse : string -> list analysedStmt) (sql : string) : analysedStmt :=
  let text := TrimSpace sql in
  match piece_stmt text with
  | Some stmt => analyseStmt analyse stmt text
  | None => mkAnalysed (mkInfo "" [] [] text) [] true
  end.

(** DO blocks nest, so the analysis calls itself; [depth] bounds the nesting. *)
Fixpoint analyse_depth (depth : nat) (sql : string) : list analysedStmt :=
  let trimmed := TrimSpace sql in
  if String.eqb trimmed "" then [mkAnalysed (mkInfo "" [] [] "") [] false]
  else
    analysePiece (match depth with O => λ _, [] | S d => analyse_depth d end) <$> splitTopLevelStatements trimmed.

Definition analyseAll (sql : string) : list analysedStmt := analyse_depth (String.length sql) sql.

Definition parseSQL (sql : string) : pgInfo * bool :=
  match analyseAll sql with
  | [] => (mkInfo "" [] [] (TrimSpace sql), false)
  | a :: _ => (an_Outer a, an_Unparseable a)
  end.
End Analysis.
