(* ===== verification/SqlConn.v ===== *)
(** * Connections of wire-protocol endpoints: [runtime.ConnHandle]

    What the gateway hands the runtime of a postgres or clickhouse endpoint, and
    what the runtime gives back: the rules of the endpoint, the approval hook,
    the events of the action log. [W] is the state of the approval machinery. *)
From S2P Require Import Prelude GoStrings Policy Dispatch Approver.

(** [runtime.ApproveCallRequest] *)
Record ApproveCall := mkCall {
  call_Stages : list ApproveStage;
  call_Verb : string;
  call_Summary : string;
  call_Rule : CompiledRule
}.

(** [runtime.ConnEvent], without the facet map the dashboard shows. *)
Record ConnEvent := mkConnEvent {
  ce_Credential : string;
  ce_Action : string;
  ce_Reason : string;
  ce_Verb : string;
  ce_Summary : string;
  ce_Rule : string;
  ce_Approver : string;
  ce_ApproverType : string;
  ce_ApproverBy : string
}.

Record ConnHandle (W : Type) := mkConn {
  ch_Endpoint : CompiledEndpoint;
  ch_Policy : option CompiledPolicy;
  ch_Profile : string;
  ch_PeerIP : string;
  ch_Approve : option (ApproveCall -> W -> W * ApproveVerdict)
}.
Arguments mkConn {W} _ _ _ _ _.
Arguments ch_Endpoint {W} _.
Arguments ch_Policy {W} _.
Arguments ch_Profile {W} _.
Arguments ch_PeerIP {W} _.
Arguments ch_Approve {W} _.

(** The snapshot of a SQL statement the rules judge. *)
Definition sql_request {W} (ch : ConnHandle W) (credName database : string) (m : SqlMeta) (truncated unparseable : bool)
    : Request :=
  mkRequest "sql" credName (ch_PeerIP ch) database "" "" None [] "" (MetaSql m) truncated unparseable.

(** ** What lets a request through *)

(** No rule of the endpoint refuses the request, and where one asks for approval
    an approver has answered [allow]. *)
Inductive cleared {W} (ch : ConnHandle W) (req : Request) : Prop :=
| cleared_default :
    MatchRequestFailClosed (Some (ch_Endpoint ch)) (Some req) = None → cleared ch req
| cleared_rule cr :
    MatchRequestFailClosed (Some (ch_Endpoint ch)) (Some req) = Some cr →
    out_Approve (rule_Outcome cr) = [] → out_Verdict (rule_Outcome cr) ≠ "deny" → cleared ch req
| cleared_approved cr ap call w :
    MatchRequestFailClosed (Some (ch_Endpoint ch)) (Some req) = Some cr →
    out_Approve (rule_Outcome cr) ≠ [] → ch_Approve ch = Some ap →
    call_Rule call = cr → call_Stages call = out_Approve (rule_Outcome cr) →
    v_Decision (snd (ap call w)) = "allow" → cleared ch req.

(** The request was refused: a rule denies it, or asks for an approval that was
    not given. *)
Inductive refused {W} (ch : ConnHandle W) (req : Request) : Prop :=
| refused_rule cr :
    MatchRequestFailClosed (Some (ch_Endpoint ch)) (Some req) = Some cr →
    out_Verdict (rule_Outcome cr) = "deny" → refused ch req
| refused_approval cr :
    MatchRequestFailClosed (Some (ch_Endpoint ch)) (Some req) = Some cr →
    out_Approve (rule_Outcome cr) ≠ [] → refused ch req.
