(* ===== verification/PgConn.v ===== *)
(** * The postgres frontend: [endpoints/postgres.go]

    The gateway speaks the postgres protocol to the agent and to the server. It
    authenticates to the server with the real credential, tells the agent it is
    in, and then forwards the agent's messages one by one, judging every query.
    A byte stream is a [string]; the bytes an operation writes are returned. *)
From S2P Require Import Prelude GoStrings Policy Dispatch Approver Wire SqlConn PgSplit PgSql.

(** ** Messages *)

Record pgMessage := mkMsg { msg_typ : ascii; msg_payload : string }.

Definition encUint32 (n : Z) : string := be_put 4 n.

(** A message and the bytes after it, not enough bytes yet, or a slice out of
    range. *)
Inductive PgRead := PgGot (m : pgMessage) (rest : string) | PgMore | PgPanic.

(** The length is a [uint32], and so is [1+length]: the end of the message wraps
    to zero for the greatest length, below the five bytes of the header. *)
Definition readPgMessage (buf : string) : PgRead :=
  match buf with
  | String typ rest =>
      if (String.length buf <? 5)%nat then PgMore
      else
        let length := be_get (str_take 4 rest) in
        if (length <? 4) || (Z.of_nat (String.length buf) <? length + 1) then PgMore
        else
          let end_ := (1 + length) mod 2 ^ 32 in
          if end_ <? 5 then PgPanic
          else PgGot (mkMsg typ (str_slice 5 (Z.to_nat end_) buf)) (str_drop (Z.to_nat end_) buf)
  | EmptyString => PgMore
  end.

Definition serializePgMessage (m : pgMessage) : string :=
  String (msg_typ m) (encUint32 (4 + Z.of_nat (String.length (msg_payload m))) +:+ msg_payload m).

Definition frameBytes (typ : ascii) (payload : string) : string :=
  String typ (encUint32 (Z.of_nat (String.length payload) + 4) +:+ payload).

Definition NUL : ascii := ascii_of_nat 0.
Definition nul_str : string := String NUL "".

Definition cstring (b : string) : string :=
  match IndexByte b NUL with None => b | Some i => str_take i b end.

Definition pgExtractSQL (typ : ascii) (payload : string) : string :=
  if Ascii.eqb typ "Q" then cstring payload
  else if Ascii.eqb typ "P" then
    match IndexByte payload NUL with
    | None => ""
    | Some i => if (String.length payload <=? i + 1)%nat then "" else cstring (str_drop (i + 1) payload)
    end
  else "".

(** ** Messages to the agent *)

Definition pgWriteDeny (reason : string) : string :=
  let body := "SERROR" +:+ nul_str +:+ "C42501" +:+ nul_str +:+ "M" +:+ reason +:+ nul_str +:+ nul_str in
  String "E" (encUint32 (Z.of_nat (String.length body) + 4) +:+ body) +:+ String "Z" (encUint32 5 +:+ "I").

Definition pgWriteError (reason : string) : string :=
  let body := "SFATAL" +:+ nul_str +:+ "C28000" +:+ nul_str +:+ "M" +:+ reason +:+ nul_str +:+ nul_str in
  String "E" (encUint32 (Z.of_nat (String.length body) + 4) +:+ body).

(** ** Summaries *)

Definition sqlIdentByte (b : ascii) : bool :=
  let n := byte_val b in
  Ascii.eqb b "_" || ((48 <=? n) && (n <=? 57)) || ((97 <=? n) && (n <=? 122)) || ((65 <=? n) && (n <=? 90)).

Definition sqlStatementStartsWithVerb (stmt verb : string) : bool :=
  let stmt := trim_left_by (λ c, Ascii.eqb c " " || existsb (λ n, Ascii.eqb c (ascii_of_nat n)) [9; 10; 13]%nat) stmt in
  if String.eqb verb "" || (String.length stmt <? String.length verb)%nat ||
     negb (EqualFold (str_take (String.length verb) stmt) verb) then false
  else match String.get (String.length verb) stmt with None => true | Some c => negb (sqlIdentByte c) end.

Definition pgSummary (info : pgInfo) : string :=
  let verb := if negb (String.eqb (pg_Verb info) "") && negb (sqlStatementStartsWithVerb (pg_Statement info) (pg_Verb info))
              then [ToUpper (pg_Verb info)] else [] in
  let tables := match pg_Tables info with [] => [] | ts => ["tables=[" +:+ Join ts "," +:+ "]"] end in
  let s := TrimSpace (pg_Statement info) in
  let text := if String.eqb s "" then [] else [if (80 <? String.length s)%nat then str_take 80 s +:+ "..." else s] in
  Join (verb ++ tables ++ text) " ".

(** ** Evaluation *)

Section Eval.
Context {W : Type} (ch : ConnHandle W) (credName database : string).

Definition sql_meta (info : pgInfo) : SqlMeta :=
  mkSqlMeta (pg_Verb info) (pg_Tables info) (pg_Functions info) (pg_Statement info) database.

Definition pg_request (info : pgInfo) (unparseable : bool) : Request :=
  sql_request ch credName database (sql_meta info) false unparseable.

Definition reason_or (r d : string) : string := if String.eqb r "" then d else r.

(** [pgEvaluateInfo]: the state of the approvals, the events, and the reason of a denial. *)
Definition pgEvaluateInfo (info : pgInfo) (shadow unparseable : bool) (w : W) : W * list ConnEvent * option string :=
  let summary := pgSummary info in
  let event action reason rule v := mkConnEvent credName action reason (pg_Verb info) summary rule
    (v_ApproverName v) (v_ApproverType v) (v_By v) in
  let novote := mkVerdict "" "" "" "" "" in
  let loud (e : ConnEvent) := if shadow then [] else [e] in
  match MatchRequestFailClosed (Some (ch_Endpoint ch)) (Some (pg_request info unparseable)) with
  | None => (w, loud (event "allow" "" "" novote), None)
  | Some cr =>
      let rule := rule_Name cr in
      match out_Approve (rule_Outcome cr) with
      | (_ :: _) as stages =>
          match ch_Approve ch with
          | None =>
              (w, [event "deny" "HITL not configured" rule novote], Some "approval required but HITL is not configured")
          | Some approve =>
              let '(w', v) := approve (mkCall stages (pg_Verb info) summary cr) w in
              if negb (String.eqb (v_Decision v) "allow") then
                let reason := reason_or (v_Reason v) "denied by approver" in
                (w', [event "denied" reason rule v], Some reason)
              else (w', loud (event "approved" (v_Reason v) rule v), None)
          end
      | [] =>
          if String.eqb (out_Verdict (rule_Outcome cr)) "deny" then
            let reason := reason_or (out_Reason (rule_Outcome cr)) "denied by policy" in
            (w, [event "deny" reason rule novote], Some reason)
          else (w, loud (event "allow" "" rule novote), None)
      end
  end.

(** Judging in order until one denies. *)
Fixpoint judge_all (l : list (pgInfo * bool * bool)) (w : W) : W * list ConnEvent * option string :=
  match l with
  | [] => (w, [], None)
  | (info, shadow, unparseable) :: rest =>
      match pgEvaluateInfo info shadow unparseable w with
      | (w', evs, Some reason) => (w', evs, Some reason)
      | (w', evs, None) => let '(w'', evs', r) := judge_all rest w' in (w'', evs ++ evs', r)
      end
  end.

Context (parse : string -> option (list Node)).

(** The statements of a query in the order they are judged, with whether each is
    a shadow and whether it could not be parsed. *)
Definition judged (sql : string) : list (pgInfo * bool * bool) :=
  analyseAll parse sql ≫= λ a,
    (an_Outer a, false, an_Unparseable a) :: ((λ i, (i, true, false)) <$> an_Inner a).

Definition pgEvaluate (sql : string) (w : W) : W * list ConnEvent * option string := judge_all (judged sql) w.

(** ** The pump from agent to server *)

Definition maxPgMessage : Z := 2 ^ 20.

Definition inspected (typ : ascii) : bool := Ascii.eqb typ "Q" || Ascii.eqb typ "P".

(** What has been written and recorded so far. *)
Record Outputs := mkOut {
  o_state : W;
  o_upstream : string;
  o_agent : string;
  o_events : list ConnEvent
}.

Definition put_up (o : Outputs) (s : string) : Outputs := mkOut (o_state o) (o_upstream o +:+ s) (o_agent o) (o_events o).
Definition put_agent (o : Outputs) (s : string) : Outputs := mkOut (o_state o) (o_upstream o) (o_agent o +:+ s) (o_events o).
Definition put_events (o : Outputs) (w : W) (evs : list ConnEvent) : Outputs :=
  mkOut w (o_upstream o) (o_agent o) (o_events o ++ evs).

Definition oversize_request : Request :=
  sql_request ch credName database (mkSqlMeta "" [] [] "" "") true false.

(** The denial of an oversize frame, if it is denied. *)
Definition oversize_denied : option string :=
  match MatchRequestFailClosed (Some (ch_Endpoint ch)) (Some oversize_request) with
  | None => None
  | Some cr =>
      match out_Approve (rule_Outcome cr) with
      | _ :: _ => Some "approval required but request was truncated by inspection buffer"
      | [] => if String.eqb (out_Verdict (rule_Outcome cr)) "deny"
              then Some (reason_or (out_Reason (rule_Outcome cr)) "denied by policy") else None
      end
  end.

Definition oversize_summary (typ : ascii) (length : Z) : string :=
  "truncated frame typ=" +:+ String typ (" length=" +:+ Itoa (Z.to_nat length) +:+ " cap=" +:+ Itoa (Z.to_nat maxPgMessage)).

Definition oversize_event (action reason : string) (typ : ascii) (length : Z) : ConnEvent :=
  mkConnEvent credName action reason "" (oversize_summary typ length) "" "" "" "".

(** [io.CopyN(dst, conn, n)]: the bytes copied, and what the connection still
    holds, [None] when it ended first. *)
Fixpoint copyN (n : nat) (chunks : list string) : string * option (list string) :=
  match n with
  | O => ("", Some chunks)
  | S _ =>
      match chunks with
      | [] => ("", None)
      | c :: cs =>
          if (n <? String.length c)%nat then (str_take n c, Some (str_drop n c :: cs))
          else let '(got, rest) := copyN (n - String.length c) cs in (c +:+ got, rest)
      end
  end.

(** [pgHandleOversizeFrame]; [None] tears the pump down. *)
Definition pgHandleOversizeFrame (typ : ascii) (length : Z) (buf : string) (chunks : list string) (o : Outputs)
    : Outputs * option (string * list string) :=
  let totalWire := Z.to_nat (1 + length) in
  let have := Nat.min (String.length buf) totalWire in
  let frameHave := str_take have buf in
  let rest := str_drop have buf in
  let '(tail, remain) := copyN (totalWire - have) chunks in
  match oversize_denied with
  | Some reason =>
      match remain with
      | None => (o, None)
      | Some chunks' =>
          let o := put_agent o (pgWriteDeny reason) in
          (put_events o (o_state o) [oversize_event "deny" reason typ length], Some (rest, chunks'))
      end
  | None =>
      let o := put_up (put_up o frameHave) tail in
      match remain with
      | None => (o, None)
      | Some chunks' => (put_events o (o_state o) [oversize_event "allow-overflow" "" typ length], Some (rest, chunks'))
      end
  end.

(** One message that fits. *)
Definition pg_message (msg : pgMessage) (o : Outputs) : Outputs :=
  let sql := if inspected (msg_typ msg) then pgExtractSQL (msg_typ msg) (msg_payload msg) else "" in
  let '(o, denied) :=
    if String.eqb sql "" then (o, None)
    else let '(w, evs, r) := pgEvaluate sql (o_state o) in (put_events o w evs, r) in
  match denied with
  | Some reason => put_agent o (pgWriteDeny reason)
  | None =>
      if Ascii.eqb (msg_typ msg) "F" then
        put_agent o (pgWriteDeny "FunctionCall (legacy fast-path) blocked — no SQL text to inspect")
      else put_up o (serializePgMessage msg)
  end.

(** The header of an inspected frame that is too long to hold. *)
Definition oversize_header (buf : string) : option (ascii * Z) :=
  match buf with
  | String typ rest =>
      if (String.length buf <? 5)%nat then None
      else
        let length := be_get (str_take 4 rest) in
        if inspected typ && (maxPgMessage <? length) then Some (typ, length) else None
  | EmptyString => None
  end.

(** [pgClientToServer]: [buf] is what has been read and not yet framed, [chunks]
    what the reads still to come will return. The result is what was written and
    recorded, and whether the pump ended in a panic. *)
Fixpoint pump (fuel : nat) (buf : string) (chunks : list string) (o : Outputs) : option (Outputs * bool) :=
  match fuel with
  | O => None
  | S fuel' =>
      match oversize_header buf with
      | Some (typ, length) =>
          match pgHandleOversizeFrame typ length buf chunks o with
          | (o, None) => Some (o, false)
          | (o, Some (rest, chunks')) => pump fuel' rest chunks' o
          end
      | None =>
          match readPgMessage buf with
          | PgGot msg rest => pump fuel' rest chunks (pg_message msg o)
          | PgPanic => Some (o, true)
          | PgMore =>
              match chunks with
              | [] => Some (o, false)
              | c :: cs => pump fuel' (buf +:+ c) cs o
              end
          end
      end
  end.

Definition stream (chunks : list string) : string := String.concat "" chunks.

Definition pgClientToServer (chunks : list string) (w : W) : option (Outputs * bool) :=
  pump (S (String.length (stream chunks) + length chunks)) "" chunks (mkOut w "" "" []).
End Eval.
Arguments mkOut {W} _ _ _ _.
Arguments o_state {W} _.
Arguments o_upstream {W} _.
Arguments o_agent {W} _.
Arguments o_events {W} _.
