(* ===== verification/PgProps.v ===== *)
(** * The postgres frontend forwards what the rules clear

    Framing is faithful, the pump does not depend on how the agent's bytes are
    cut into reads, and every byte sent to the server belongs to a frame whose
    statements were all cleared. *)
From S2P Require Import Prelude GoStrings Policy Dispatch Approver Wire SqlConn PgSplit PgSql PgConn.

(** ** Framing *)

Lemma serialize_length m : String.length (serializePgMessage m) = (5 + String.length (msg_payload m))%nat.
Proof. unfold serializePgMessage, encUint32. cbn [String.length]. by rewrite str_length_app, be_put_length. Qed.

Lemma readPgMessage_serialize m rest :
  4 + Z.of_nat (String.length (msg_payload m)) < 2 ^ 32 - 1 → readPgMessage (serializePgMessage m +:+ rest) = PgGot m rest.
Proof.
  intros Hlen. destruct m as [typ payload]. unfold serializePgMessage, encUint32. cbn [msg_typ msg_payload] in *.
  set (n := 4 + Z.of_nat (String.length payload)) in *. cbn [String.append]. unfold readPgMessage.
  rewrite (proj2 (Nat.ltb_ge _ _)) by (cbn [String.length]; rewrite !str_length_app, be_put_length; lia).
  rewrite str_app_assoc.
  assert (∀ u, str_take 4 (be_put 4 n +:+ u) = be_put 4 n) as Ht by (intros u; apply (str_take_app (be_put 4 n))).
  rewrite Ht, be_get_put_small by (unfold n in *; change (256 ^ Z.of_nat 4) with (2 ^ 32); lia).
  rewrite (proj2 (Z.ltb_ge n 4)) by (unfold n; lia).
  rewrite (proj2 (Z.ltb_ge _ _)) by (cbn [String.length]; rewrite !str_length_app, be_put_length; unfold n; lia).
  cbn [orb]. rewrite (Z.mod_small (1 + n)) by (unfold n in *; lia). rewrite (proj2 (Z.ltb_ge _ _)) by (unfold n; lia).
  replace (Z.to_nat (1 + n)) with (5 + String.length payload)%nat by (unfold n; lia).
  change (String typ (be_put 4 n +:+ (payload +:+ rest))) with (String typ (be_put 4 n) +:+ (payload +:+ rest)).
  unfold str_slice.
  replace (5 + String.length payload - 5)%nat with (String.length payload) by lia.
  rewrite <- str_drop_drop.
  assert (∀ u, str_drop 5 (String typ (be_put 4 n) +:+ u) = u) as Hd by (intros u; apply (str_drop_app (String typ (be_put 4 n)))).
  rewrite !Hd, str_take_app, str_drop_app. done.
Qed.

(** The length in the header of a buffer. *)
Lemma header_length_range b : (4 <= String.length b)%nat → 0 <= be_get (str_take 4 b) < 2 ^ 32.
Proof.
  intros H. pose proof (be_get_range (str_take 4 b)) as Hr. rewrite str_length_take in Hr by lia.
  by change (256 ^ Z.of_nat 4) with (2 ^ 32) in Hr.
Qed.

Lemma readPgMessage_Got buf m rest :
  readPgMessage buf = PgGot m rest →
  buf = serializePgMessage m +:+ rest ∧ 4 + Z.of_nat (String.length (msg_payload m)) < 2 ^ 32 - 1.
Proof.
  unfold readPgMessage. destruct buf as [|typ b]; [done|].
  destruct (_ <? _)%nat eqn:E5; [done|]. bprop. cbn [String.length] in *.
  pose proof (header_length_range b ltac:(lia)) as Hr. set (n := be_get (str_take 4 b)) in *.
  destruct ((n <? 4) || _) eqn:E; [done|]. bprop. destruct (_ <? 5) eqn:E4; [done|]. bprop.
  assert (n < 2 ^ 32 - 1) as Hn.
  { destruct (decide (n = 2 ^ 32 - 1)) as [->|]; [|lia]. change ((1 + (2 ^ 32 - 1)) mod 2 ^ 32) with 0 in E4. lia. }
  rewrite (Z.mod_small (1 + n)) by lia. intros [= <- <-].
  assert (String.length (str_take 4 b) = 4%nat) as H4 by (apply str_length_take; lia).
  set (payload := str_slice 5 (Z.to_nat (1 + n)) (String typ b)).
  assert (payload = str_take (Z.to_nat (n - 4)) (str_drop 4 b)) as Hp.
  { unfold payload, str_slice. cbn [str_drop]. f_equal. lia. }
  assert (String.length payload = Z.to_nat (n - 4)) as Hl.
  { rewrite Hp. apply str_length_take. rewrite str_length_drop. lia. }
  unfold serializePgMessage. cbn [msg_typ msg_payload]. split; [|rewrite Hl; lia].
  cbn [String.append]. f_equal. rewrite Hl. unfold encUint32.
  replace (4 + Z.of_nat (Z.to_nat (n - 4))) with n by lia.
  assert (be_put 4 n = str_take 4 b) as -> by (unfold n; rewrite <- H4 at 1; apply be_put_get).
  replace (str_drop (Z.to_nat (1 + n)) (String typ b)) with (str_drop (Z.to_nat (n - 4)) (str_drop 4 b)).
  2:{ rewrite str_drop_drop. replace (Z.to_nat (1 + n)) with (S (4 + Z.to_nat (n - 4)))%nat by lia. done. }
  by rewrite Hp, str_app_assoc, str_take_drop, str_take_drop.
Qed.

(** The slice is out of range exactly for the greatest length, once all the bytes
    it announces, four gigabytes, are buffered. *)
Lemma readPgMessage_panic typ b :
  readPgMessage (String typ b) = PgPanic ↔
  be_get (str_take 4 b) = 2 ^ 32 - 1 ∧ 2 ^ 32 <= 1 + Z.of_nat (String.length b).
Proof.
  unfold readPgMessage. cbn [String.length]. destruct (_ <? _)%nat eqn:E5; bprop.
  { split; [done|]. intros [_ ?]. lia. }
  pose proof (header_length_range b ltac:(lia)) as Hr. set (n := be_get (str_take 4 b)) in *.
  destruct ((n <? 4) || _) eqn:E; bprop.
  { split; [done|]. intros [Hn Hl]. apply orb_true_iff in E as [E|E]; bprop; lia. }
  destruct (decide (n = 2 ^ 32 - 1)) as [->|].
  - change ((1 + (2 ^ 32 - 1)) mod 2 ^ 32 <? 5) with true. cbn [orb]. split; [|done]. intros _. split; [done|lia].
  - rewrite (Z.mod_small (1 + n)) by lia. rewrite (proj2 (Z.ltb_ge _ _)) by lia. naive_solver.
Qed.

(** More bytes do not change the first message. *)
Lemma readPgMessage_app buf m rest more :
  readPgMessage buf = PgGot m rest → readPgMessage (buf +:+ more) = PgGot m (rest +:+ more).
Proof. intros [-> H]%readPgMessage_Got. rewrite str_app_assoc. by apply readPgMessage_serialize. Qed.

Lemma readPgMessage_panic_app buf more : readPgMessage buf = PgPanic → readPgMessage (buf +:+ more) = PgPanic.
Proof.
  destruct buf as [|typ b]; [done|]. cbn [String.append]. rewrite !readPgMessage_panic, str_length_app.
  intros [Hn Hl]. rewrite str_take_app_le by lia. split; [done|lia].
Qed.

Lemma readPgMessage_panic_length buf : readPgMessage buf = PgPanic → 2 ^ 32 <= Z.of_nat (String.length buf).
Proof. destruct buf as [|typ b]; [done|]. rewrite readPgMessage_panic. cbn [String.length]. lia. Qed.

(** The header is in the first five bytes. *)
Lemma oversize_header_five a b : (5 <= String.length a)%nat → oversize_header (a +:+ b) = oversize_header a.
Proof.
  intros H. unfold oversize_header. destruct a as [|c a]; [cbn in H; lia|]. cbn [String.append String.length] in *.
  rewrite (proj2 (Nat.ltb_ge (S (String.length a)) 5)), (proj2 (Nat.ltb_ge (S (String.length (a +:+ b))) 5))
    by (rewrite ?str_length_app; lia).
  by rewrite str_take_app_le by lia.
Qed.

Lemma oversize_header_app buf more h : oversize_header buf = Some h → oversize_header (buf +:+ more) = Some h.
Proof.
  intros H. rewrite oversize_header_five; [done|]. revert H. unfold oversize_header.
  destruct buf as [|typ b]; [done|]. destruct (_ <? _)%nat eqn:E; [done|]. bprop. done.
Qed.

Lemma oversize_header_Some buf typ n :
  oversize_header buf = Some (typ, n) → maxPgMessage < n ∧ (5 <= String.length buf)%nat ∧ inspected typ = true.
Proof.
  unfold oversize_header. destruct buf as [|t b]; [done|]. destruct (_ <? _)%nat eqn:E; [done|]. bprop.
  destruct (inspected t && _) eqn:E2; [|done]. bprop. intros [= <- <-]. done.
Qed.

(** ** Streams *)

Lemma stream_cons c cs : stream (c :: cs) = c +:+ stream cs.
Proof. unfold stream. destruct cs; cbn [String.concat]; [by rewrite str_app_nil_r|done]. Qed.

Lemma copyN_stream n chunks got left :
  copyN n chunks = (got, left) →
  got = str_take n (stream chunks) ∧
  match left with
  | None => (String.length (stream chunks) < n)%nat
  | Some cs => (n <= String.length (stream chunks))%nat ∧ stream cs = str_drop n (stream chunks) ∧ (length cs <= length chunks)%nat
  end.
Proof.
  revert n got left. induction chunks as [|c chunks IH]; intros [|n] got left; cbn [copyN].
  - intros [= <- <-]. done.
  - intros [= <- <-]. split; [done|]. cbn. lia.
  - intros [= <- <-]. split_and!; [by destruct (stream _)|lia|done|done].
  - rewrite stream_cons. set (k := S n). destruct (_ <? _)%nat eqn:E.
    + bprop. intros [= <- <-]. rewrite str_take_app_le, stream_cons, str_drop_app_le, str_length_app by lia.
      split_and!; [done|lia|done|cbn; lia].
    + bprop. destruct (copyN (k - String.length c) chunks) as [g l] eqn:Ec. intros [= <- <-].
      destruct (IH _ _ _ Ec) as [-> Hl]. rewrite str_length_app, str_take_app_ge, str_drop_app_ge by lia. split; [done|].
      destruct l as [cs|]; [|lia]. destruct Hl as (? & -> & ?). split_and!; [lia|done|cbn; lia].
Qed.

(** ** Reads *)

Section Pump.
Context {W : Type} (ch : ConnHandle W) (credName database : string) (parse : string -> option (list Node)).

Notation oversize := (pgHandleOversizeFrame ch credName database).
Notation pumps := (pump ch credName database parse).

(** An oversize frame takes the same bytes wherever they are. *)
Lemma oversize_whole typ n buf chunks o :
  maxPgMessage < n →
  (oversize typ n (buf +:+ stream chunks) [] o).1 = (oversize typ n buf chunks o).1 ∧
  match (oversize typ n buf chunks o).2 with
  | None => (oversize typ n (buf +:+ stream chunks) [] o).2 = None
  | Some (rest, cs) =>
      (oversize typ n (buf +:+ stream chunks) [] o).2 = Some (rest +:+ stream cs, []) ∧
      (String.length rest + String.length (stream cs) + Z.to_nat (1 + n) = String.length buf + String.length (stream chunks))%nat ∧
      (length cs <= length chunks)%nat
  end.
Proof.
  intros Hn. unfold pgHandleOversizeFrame. set (T := Z.to_nat (1 + n)). rewrite str_length_app.
  destruct (copyN (T - Nat.min (String.length buf) T) chunks) as [got rem] eqn:Ec.
  apply copyN_stream in Ec as [-> Hrem].
  set (L := String.length buf) in *. set (S0 := String.length (stream chunks)) in *.
  destruct rem as [cs|].
  - destruct Hrem as (Hle & Hcs & Hlen).
    replace (T - Nat.min (L + S0) T)%nat with 0%nat by lia. cbn [copyN].
    replace (Nat.min (L + S0) T) with T by lia.
    assert (str_take T (buf +:+ stream chunks) +:+ "" =
      str_take (Nat.min L T) buf +:+ str_take (T - Nat.min L T) (stream chunks)) as Htake.
    { rewrite str_app_nil_r. destruct (Nat.le_ge_cases T L).
      - rewrite str_take_app_le by lia. replace (Nat.min L T) with T by lia.
        rewrite Nat.sub_diag. cbn [str_take]. by rewrite str_app_nil_r.
      - rewrite str_take_app_ge by lia. replace (Nat.min L T) with L by lia. by rewrite (str_take_all L buf). }
    assert (str_drop T (buf +:+ stream chunks) = str_drop (Nat.min L T) buf +:+ stream cs) as Hdrop.
    { rewrite Hcs. destruct (Nat.le_ge_cases T L).
      - rewrite str_drop_app_le by lia. replace (Nat.min L T) with T by lia. by rewrite Nat.sub_diag.
      - rewrite str_drop_app_ge by lia. replace (Nat.min L T) with L by lia. by rewrite (str_drop_all L buf) by lia. }
    assert (String.length (str_drop (Nat.min L T) buf) + String.length (stream cs) + T = L + S0)%nat as Hbytes.
    { rewrite Hcs, !str_length_drop. fold L S0. lia. }
    rewrite Hdrop. unfold put_up, put_events, put_agent. cbn [o_state o_upstream o_agent o_events].
    destruct (oversize_denied ch credName database); cbn [fst snd]; rewrite ?str_app_assoc, ?Htake; done.
  - assert (∃ k, T - Nat.min (L + S0) T = S k)%nat as [k ->] by (exists (T - Nat.min (L + S0) T - 1)%nat; lia).
    cbn [copyN]. unfold put_up, put_events, put_agent. cbn [o_state o_upstream o_agent o_events].
    destruct (oversize_denied ch credName database); cbn [fst snd]; [done|]. split; [|done].
    rewrite !str_app_assoc. do 2 f_equal.
    replace (Nat.min (L + S0) T) with (L + S0)%nat by lia. replace (Nat.min L T) with L by lia.
    rewrite str_take_app_ge, str_app_nil_r by lia. replace (L + S0 - String.length buf)%nat with S0 by (fold L; lia).
    rewrite (str_take_all L buf), (str_take_all S0 (stream chunks)), (str_take_all (T - L)) by (fold S0; lia). done.
Qed.

(** Reading in pieces is reading at once; and a panic takes four gigabytes. *)
Lemma pump_whole n m buf chunks o :
  (String.length buf + String.length (stream chunks) + length chunks < n)%nat →
  (String.length buf + String.length (stream chunks) < m)%nat →
  pumps n buf chunks o = pumps m (buf +:+ stream chunks) [] o ∧
  ∃ o' panicked, pumps n buf chunks o = Some (o', panicked) ∧
    (panicked = true → 2 ^ 32 <= Z.of_nat (String.length buf + String.length (stream chunks))).
Proof.
  revert m buf chunks o. induction n as [|n IH]; intros m buf chunks o Hn Hm; [lia|]. destruct m as [|m]; [lia|].
  cbn [pump]. destruct (oversize_header buf) as [[typ k]|] eqn:Eo.
  { rewrite (oversize_header_app _ (stream chunks) _ Eo). apply oversize_header_Some in Eo as (Hk & _ & _).
    pose proof (oversize_whole typ k buf chunks o Hk) as [H1 H2].
    destruct (oversize typ k buf chunks o) as [o1 [[rest cs]|]], (oversize typ k (buf +:+ stream chunks) [] o) as [o2 r2];
      cbn [fst snd] in *; subst; [|by split; [done|eexists _, false]].
    destruct H2 as (-> & Hb & Hl). destruct (IH m rest cs o1) as [H1 (o' & p & H2 & H3)]; [unfold maxPgMessage in Hk; lia..|].
    split; [done|]. exists o', p. split; [done|]. intros Hp. specialize (H3 Hp). lia. }
  destruct (readPgMessage buf) as [msg rest| |] eqn:Em.
  - rewrite (readPgMessage_app _ _ _ (stream chunks) Em).
    assert (oversize_header (buf +:+ stream chunks) = None) as ->.
    { apply readPgMessage_Got in Em as [-> _]. rewrite oversize_header_five; [done|].
      rewrite str_length_app, serialize_length. lia. }
    apply readPgMessage_Got in Em as [-> _]. rewrite str_length_app, serialize_length in *.
    destruct (IH m rest chunks (pg_message ch credName database parse msg o)) as [H1 (o' & p & H2 & H3)]; [lia..|].
    split; [done|]. exists o', p. split; [done|]. intros Hp. specialize (H3 Hp). lia.
  - destruct chunks as [|c cs].
    { rewrite str_app_nil_r, Eo, Em. by split; [done|eexists _, false]. }
    rewrite stream_cons, str_length_app in *. cbn [length] in *.
    destruct (IH (S m) (buf +:+ c) cs o) as [H1 H2]; [rewrite str_length_app; lia..|].
    split; [by rewrite H1, str_app_assoc|]. rewrite str_length_app in H2.
    by replace (String.length buf + (String.length c + String.length (stream cs)))%nat
      with (String.length buf + String.length c + String.length (stream cs))%nat by lia.
  - pose proof (readPgMessage_panic_length _ Em) as Hlen.
    rewrite (readPgMessage_panic_app _ _ Em), oversize_header_five, Eo by lia.
    split; [done|]. exists o, true. split; [done|]. lia.
Qed.

(** ** Clearance *)

Notation evaluates := (pgEvaluateInfo ch credName database).

Lemma pgEvaluateInfo_cleared info shadow unparseable w w' evs :
  evaluates info shadow unparseable w = (w', evs, None) → cleared ch (pg_request ch credName database info unparseable).
Proof.
  unfold pgEvaluateInfo. destruct (MatchRequestFailClosed _ _) as [cr|] eqn:Ec; [|intros _; by constructor].
  destruct (out_Approve (rule_Outcome cr)) as [|st sts] eqn:Ea.
  - destruct (String.eqb _ _) eqn:Ev; [done|]. bprop. intros _. by eapply cleared_rule.
  - destruct (ch_Approve ch) as [ap|] eqn:Eap; [|done]. destruct (ap _ w) as [w1 v] eqn:Ev.
    destruct (negb _) eqn:Ed; [done|]. bprop. intros _.
    eapply (cleared_approved _ _ cr ap (mkCall (st :: sts) (pg_Verb info) (pgSummary info) cr) w); try done.
    + by rewrite Ea.
    + by rewrite Ev.
Qed.

Lemma judge_all_cleared l w w' evs :
  judge_all ch credName database l w = (w', evs, None) →
  Forall (λ '(info, _, unparseable), cleared ch (pg_request ch credName database info unparseable)) l.
Proof.
  revert w w' evs. induction l as [|[[info sh] un] l IH]; intros w w' evs; cbn [judge_all]; [by constructor|].
  destruct (evaluates info sh un w) as [[w1 evs1] [r|]] eqn:E; [done|].
  destruct (judge_all ch credName database l w1) as [[w2 evs2] r] eqn:E2. intros [= <- <- ->].
  constructor; [by eapply pgEvaluateInfo_cleared|by eapply IH].
Qed.

(** The bytes of a frame the server may receive. *)
Inductive passed : string -> Prop :=
| passed_message m :
    inspected (msg_typ m) = false → msg_typ m ≠ "F"%char → passed (serializePgMessage m)
| passed_query m :
    inspected (msg_typ m) = true →
    (pgExtractSQL (msg_typ m) (msg_payload m) = "" ∨
     Forall (λ '(info, _, unparseable), cleared ch (pg_request ch credName database info unparseable))
       (judged parse (pgExtractSQL (msg_typ m) (msg_payload m)))) →
    passed (serializePgMessage m)
| passed_oversize raw typ n :
    oversize_header raw = Some (typ, n) → (String.length raw <= Z.to_nat (1 + n))%nat →
    cleared ch (oversize_request ch credName database) → passed raw.

Lemma oversize_cleared : oversize_denied ch credName database = None → cleared ch (oversize_request ch credName database).
Proof.
  unfold oversize_denied. destruct (MatchRequestFailClosed _ _) as [cr|] eqn:Ec; [|by constructor].
  destruct (out_Approve _) eqn:Ea; [|done]. destruct (String.eqb _ _) eqn:Ev; [done|]. bprop. intros _. by eapply cleared_rule.
Qed.

Lemma pg_message_passed msg o :
  o_upstream (pg_message ch credName database parse msg o) = o_upstream o ∨
  (o_upstream (pg_message ch credName database parse msg o) = o_upstream o +:+ serializePgMessage msg ∧
   passed (serializePgMessage msg)).
Proof.
  unfold pg_message. set (sql := if inspected _ then _ else _).
  destruct (String.eqb sql "") eqn:Es.
  - destruct (Ascii.eqb (msg_typ msg) "F") eqn:Ef; [by left|]. right. split; [done|]. bprop.
    destruct (inspected (msg_typ msg)) eqn:Ei; [|by constructor].
    apply passed_query; [done|]. left. exact Es.
  - destruct (pgEvaluate _ _ _ _ sql (o_state o)) as [[w evs] [r|]] eqn:E; [by left|].
    destruct (Ascii.eqb (msg_typ msg) "F") eqn:Ef; [by left|]. right. split; [done|]. bprop.
    destruct (inspected (msg_typ msg)) eqn:Ei; [|by unfold sql in Es].
    apply passed_query; [done|]. right. by eapply judge_all_cleared.
Qed.

(** On a stream read at once, each frame appends a passed frame or nothing. *)
Lemma pump_passed n s o o' panicked l :
  pumps n s [] o = Some (o', panicked) → Forall passed l → o_upstream o = stream l →
  ∃ l', Forall passed l' ∧ o_upstream o' = stream l'.
Proof.
  revert s o l. induction n as [|n IH]; intros s o l; cbn [pump]; [done|].
  assert (∀ raw, Forall passed l → o_upstream o = stream l → passed raw →
    Forall passed (l ++ [raw]) ∧ o_upstream o +:+ raw = stream (l ++ [raw])) as Hsnoc.
  { intros raw Hl Ho Hr. split; [apply Forall_app; auto|]. rewrite Ho. clear -l.
    induction l as [|x l IHl]; [done|]. cbn [app]. by rewrite !stream_cons, str_app_assoc, IHl. }
  destruct (oversize_header s) as [[typ k]|] eqn:Eo.
  - pose proof Eo as (Hk & H5 & Hi)%oversize_header_Some. unfold pgHandleOversizeFrame. set (T := Z.to_nat (1 + k)).
    destruct (oversize_denied ch credName database) as [r|] eqn:Ed.
    { destruct (copyN _ []) as [g [cs|]] eqn:Ec; [|intros [= <- _]; eauto].
      assert (cs = []) as ->.
      { destruct (T - _)%nat; cbn in Ec; by inversion Ec. }
      intros H Hl Ho. by eapply (IH _ _ l H). }
    assert (passed (str_take (Nat.min (String.length s) T) s)) as Hp.
    { eapply (passed_oversize _ typ k); [| |by apply oversize_cleared].
      - assert (5 <= Nat.min (String.length s) T)%nat as Hm by (unfold maxPgMessage in Hk; lia).
        rewrite <- Eo. rewrite <- (str_take_drop (Nat.min (String.length s) T) s) at 3.
        symmetry. apply oversize_header_five. rewrite str_length_take; lia.
      - rewrite str_length_take by lia. fold T. lia. }
    destruct (copyN _ []) as [g [cs|]] eqn:Ec.
    + assert (cs = [] ∧ g = "") as [-> ->] by (destruct (T - _)%nat; cbn in Ec; by inversion Ec).
      intros H Hl Ho. destruct (Hsnoc _ Hl Ho Hp) as [Hl' Ho']. eapply (IH _ _ _ H Hl').
      unfold put_events, put_up. cbn [o_upstream]. by rewrite str_app_nil_r.
    + assert (g = "") as -> by (destruct (T - _)%nat; cbn in Ec; by inversion Ec).
      intros [= <- _] Hl Ho. destruct (Hsnoc _ Hl Ho Hp) as [Hl' Ho']. eexists. split; [exact Hl'|].
      unfold put_up. cbn [o_upstream]. by rewrite str_app_nil_r.
  - destruct (readPgMessage s) as [msg rest| |]; [|intros [= <- _]; eauto..].
    intros H Hl Ho. destruct (pg_message_passed msg o) as [He|[He Hp]].
    + eapply (IH _ _ l H Hl). by rewrite He.
    + destruct (Hsnoc _ Hl Ho Hp) as [Hl' Ho']. eapply (IH _ _ _ H Hl'). by rewrite He.
Qed.
End Pump.

(** ** The theorems *)

(** C31. How the agent's bytes are cut into reads does not matter: the same bytes
    give the same messages to the server, the same answers to the agent and the
    same events. The pump always ends, and it ends in a panic only when the agent
    sends four gigabytes. *)
Theorem pg_reads_do_not_matter {W} (ch : ConnHandle W) credName database parse chunks1 chunks2 w :
  stream chunks1 = stream chunks2 →
  pgClientToServer ch credName database parse chunks1 w = pgClientToServer ch credName database parse chunks2 w ∧
  ∃ o panicked, pgClientToServer ch credName database parse chunks1 w = Some (o, panicked) ∧
    (panicked = true → 2 ^ 32 <= Z.of_nat (String.length (stream chunks1))).
Proof.
  intros He. unfold pgClientToServer. set (m := S (String.length (stream chunks1))).
  destruct (pump_whole ch credName database parse (S (String.length (stream chunks1) + length chunks1)) m ""
    chunks1 (mkOut w "" "" [])) as [H1 Hs]; [unfold m; cbn [String.length]; lia..|].
  destruct (pump_whole ch credName database parse (S (String.length (stream chunks2) + length chunks2)) m ""
    chunks2 (mkOut w "" "" [])) as [H2 _]; [unfold m; rewrite ?He; cbn [String.length]; lia..|].
  split; [by rewrite H1, H2, He|exact Hs].
Qed.

(** A first message of an uninspected type that announces the greatest length and
    is sent in full makes the pump slice out of range: the panic is not
    recovered anywhere above it. *)
Theorem pg_length_wrap_panics {W} (ch : ConnHandle W) credName database parse typ body w :
  inspected typ = false → 2 ^ 32 <= 5 + Z.of_nat (String.length body) →
  pgClientToServer ch credName database parse [String typ (be_put 4 (2 ^ 32 - 1) +:+ body)] w = Some (mkOut w "" "" [], true).
Proof.
  intros Ht Hl. unfold pgClientToServer. rewrite stream_cons. cbn [String.append String.length length].
  rewrite Nat.add_comm. cbn [Nat.add pump oversize_header readPgMessage String.append].
  assert (str_take 4 (be_put 4 (2 ^ 32 - 1) +:+ body) = be_put 4 (2 ^ 32 - 1)) as Htake.
  { apply (str_take_app (be_put 4 (2 ^ 32 - 1))). }
  assert (readPgMessage (String typ (be_put 4 (2 ^ 32 - 1) +:+ body)) = PgPanic) as Hp.
  { apply readPgMessage_panic. rewrite Htake, str_length_app, be_put_length. split; [by vm_compute|lia]. }
  unfold readPgMessage in Hp. cbn [oversize_header].
  assert (oversize_header (String typ (be_put 4 (2 ^ 32 - 1) +:+ body)) = None) as Ho.
  { unfold oversize_header. rewrite Ht. by destruct (_ <? _)%nat. }
  unfold oversize_header in Ho. rewrite Ho. unfold readPgMessage. by rewrite Hp.
Qed.

Definition deny_delete : CompiledEndpoint :=
  mkEndpoint "db" "sql" https_plugin empty_body ["db:5432"] []
    [test_rule "no-delete" 10
       (Some (mkMatcher (λ r, mkDecision (match r with
          | Some q => match req_Meta q with MetaSql m => ResultOf (String.eqb (sql_Verb m) "delete") | _ => NoMatch end
          | None => NoMatch end) "") true)) (mkOutcome "deny" "no deletes" [])] "" "" false None.
Definition test_conn : ConnHandle unit := mkConn deny_delete None "p" "10.55.0.2" None.

(** A parser for two statements. *)
Definition two_statements (text : string) : option (list Node) :=
  if String.eqb text "DELETE FROM t" then Some [NDeleteStmt [] (Some (mkRangeVar "" "t")) NNil [] []]
  else if String.eqb text "SHOW x" then Some [NBareStmt VariableShowStmt] else None.

Definition query (sql : string) : pgMessage := mkMsg "Q" (sql +:+ nul_str).

(** The same two queries in one read and cut inside the second header. *)
Definition session_bytes : string := serializePgMessage (query "SHOW x") +:+ serializePgMessage (query "DELETE FROM t").
Definition in_pieces : list string := [str_take 14 session_bytes; str_drop 14 session_bytes].

Lemma pg_reads_do_not_matter_witness :
  pgClientToServer test_conn "cred" "db" two_statements in_pieces tt =
  pgClientToServer test_conn "cred" "db" two_statements [session_bytes] tt.
Proof.
  apply (pg_reads_do_not_matter test_conn "cred" "db" two_statements in_pieces [session_bytes] tt).
  vm_compute. reflexivity.
Defined.

(** C4. Every byte the server receives belongs to a frame that passed: a message
    the gateway does not inspect (and not a function call); a query whose text,
    when there is any, splits into statements that were all cleared by the rules
    or an approver, and with each of them every statement the analysis finds
    nested in it; or a query of more than a megabyte that the rules clear as a
    truncated request. *)
Theorem pg_only_cleared_forwarded {W} (ch : ConnHandle W) credName database parse chunks w o panicked :
  pgClientToServer ch credName database parse chunks w = Some (o, panicked) →
  ∃ l, Forall (passed ch credName database parse) l ∧ o_upstream o = stream l.
Proof.
  unfold pgClientToServer. intros H.
  destruct (pump_whole ch credName database parse (S (String.length (stream chunks) + length chunks))
    (S (String.length (stream chunks))) "" chunks (mkOut w "" "" [])) as [H1 _]; [cbn [String.length]; lia..|].
  rewrite H1 in H. eapply (pump_passed ch credName database parse _ _ _ _ _ [] H); [constructor|done].
Qed.

Lemma pg_only_cleared_forwarded_witness :
  ∃ o l, pgClientToServer test_conn "cred" "db" two_statements in_pieces tt = Some (o, false) ∧
    o_upstream o = serializePgMessage (query "SHOW x") ∧ o_agent o = pgWriteDeny "no deletes" ∧
    Forall (passed test_conn "cred" "db" two_statements) l ∧ o_upstream o = stream l.
Proof.
  destruct (pgClientToServer test_conn "cred" "db" two_statements in_pieces tt) as [[o p]|] eqn:E; [|vm_compute in E; done].
  destruct (pg_only_cleared_forwarded test_conn "cred" "db" two_statements in_pieces tt o p E) as (l & Hl & Ho).
  exists o, l. vm_compute in E. injection E as <- <-. split_and!; [done| | |done|done]; vm_compute; reflexivity.
Defined.
