(* ===== verification/PgSqlProps.v ===== *)
(** * The extractor misses nothing it walks

    Nested DO blocks are analysed to the end; every relation and every
    data-modifying statement the walk reaches is among what the rules judge. Two
    theorems show what it does not reach: a statement after a [$] inside an
    identifier, and the nodes below an ON CONFLICT clause. *)
From S2P Require Import Prelude GoStrings Policy Dispatch Approver Wire SqlConn PgSplit PgSql PgConn.

(** ** Nesting *)

Lemma str_length_trim s : (String.length (TrimSpace s) <= String.length s)%nat.
Proof.
  destruct (trim_by_spec is_space s) as (l & r & Hs & _). unfold TrimSpace. rewrite Hs at 2.
  rewrite !str_length_app. lia.
Qed.

Lemma add_piece_length cur l p k :
  p ∈ add_piece cur l → (String.length cur <= k)%nat → (p ∈ l → (String.length p <= k)%nat) → (String.length p <= k)%nat.
Proof.
  unfold add_piece. intros Hp Hc Hl. destruct (String.eqb _ _); [auto|].
  apply elem_of_cons in Hp as [->|Hp]; [|auto]. pose proof (str_length_trim cur). lia.
Qed.

(** A piece is no longer than the text. *)
Lemma split_loop_length n d cur s p :
  p ∈ split_loop n d cur s → (String.length p <= String.length cur + String.length s)%nat.
Proof.
  revert d cur s. induction n as [|n IH]; intros d cur s; cbn [split_loop]; [by intros ?%elem_of_nil|].
  destruct s as [|c s].
  { intros Hp. eapply add_piece_length; [exact Hp|lia|by intros ?%elem_of_nil]. }
  destruct (token_at (String c s)) as [k| | |] eqn:E.
  - intros H%IH. rewrite str_length_app, str_length_drop in H.
    pose proof (token_at_pos c s k E). destruct (Nat.le_ge_cases k (String.length (String c s))).
    + rewrite str_length_take in H by done. lia.
    + rewrite str_take_all in H by done. lia.
  - intros H%IH. rewrite str_length_app in H. cbn [String.length] in *. lia.
  - intros H%IH. rewrite str_length_app in H. cbn [String.length] in *. lia.
  - destruct (d =? 0)%nat.
    + intros Hp. eapply add_piece_length; [exact Hp|lia|]. intros H%IH. cbn [String.length] in *. lia.
    + intros H%IH. rewrite str_length_app in H. cbn [String.length] in *. lia.
Qed.

Lemma split_length s p : p ∈ splitTopLevelStatements s → (String.length p <= String.length s)%nat.
Proof.
  unfold splitTopLevelStatements. destruct (split_loop _ 0 "" s) eqn:E.
  - intros ->%list_elem_of_singleton. apply str_length_trim.
  - rewrite <- E. intros H%split_loop_length. done.
Qed.

Section Depth.
Context (parse : string -> option (list Node)).

(** The body of a DO block is a literal inside the text of the block. *)
Hypothesis do_body_shorter :
  ∀ text stmt src b, piece_stmt parse text = Some stmt → EBody b ∈ visit src stmt → (String.length b < String.length text)%nat.

Lemma collect_inner_ext f g es :
  (∀ b, EBody b ∈ es → f b = g b) → collect_inner f es = collect_inner g es.
Proof.
  unfold collect_inner. induction es as [|e es IH]; intros H; [done|]. rewrite !bind_cons. f_equal.
  - destruct e; [done..|]. rewrite H; [done|]. left.
  - apply IH. intros b Hb. apply H. by right.
Qed.

(** Once the depth covers the text it does not matter. *)
Lemma analyse_depth_enough n m sql :
  (String.length sql <= n)%nat → (String.length sql <= m)%nat → analyse_depth parse n sql = analyse_depth parse m sql.
Proof.
  revert m sql. induction n as [n IH] using lt_wf_ind; intros m sql Hn Hm.
  destruct n as [|n], m as [|m].
  1: done.
  1,2: destruct sql; [done|cbn in *; lia].
  cbn [analyse_depth]. destruct (String.eqb _ _) eqn:E; [done|].
  apply list_fmap_ext. intros i p Hp. unfold analysePiece.
  destruct (piece_stmt parse (TrimSpace p)) as [stmt|] eqn:Es; [|done].
  unfold analyseStmt. f_equal. apply collect_inner_ext. intros b Hb.
  pose proof (do_body_shorter _ _ _ _ Es Hb). pose proof (str_length_trim p). pose proof (str_length_trim sql).
  apply list_elem_of_lookup_2, split_length in Hp. apply IH; lia.
Qed.

(** The analysis satisfies the recursion of the source, DO bodies included. *)
Lemma analyseAll_unfold sql :
  analyseAll parse sql =
  if String.eqb (TrimSpace sql) "" then [mkAnalysed (mkInfo "" [] [] "") [] false]
  else analysePiece parse (analyseAll parse) <$> splitTopLevelStatements (TrimSpace sql).
Proof.
  unfold analyseAll at 1. destruct (String.length sql) as [|n] eqn:Hl; [by destruct sql|].
  cbn [analyse_depth]. destruct (String.eqb _ _) eqn:E; [done|].
  apply list_fmap_ext. intros i p Hp. unfold analysePiece.
  destruct (piece_stmt parse (TrimSpace p)) as [stmt|] eqn:Es; [|done].
  unfold analyseStmt. f_equal. apply collect_inner_ext. intros b Hb.
  pose proof (do_body_shorter _ _ _ _ Es Hb). pose proof (str_length_trim p). pose proof (str_length_trim sql).
  apply list_elem_of_lookup_2, split_length in Hp. apply analyse_depth_enough; lia.
Qed.
End Depth.

(** ** What the walk reaches *)

(** The nodes [visit] continues to. *)
Definition walked (n : Node) : list Node :=
  let ctes (w : list Node) := w ≫= λ it, match it with NCommonTableExpr _ q => [q] | _ => [] end in
  match n with
  | NList l => l
  | NSelectStmt w tl fc wh gc hv wc vl sc lo lc lk dc la ra =>
      ctes w ++ tl ++ fc ++ [wh] ++ gc ++ [hv] ++ wc ++ vl ++ sc ++ [lo; lc] ++ lk ++ dc ++ [la; ra]
  | NInsertStmt w _ sel _ ret => ctes w ++ [sel] ++ ret
  | NUpdateStmt w _ tl wh fc ret => ctes w ++ tl ++ [wh] ++ fc ++ ret
  | NDeleteStmt w _ wh us ret => ctes w ++ [wh] ++ us ++ ret
  | NMergeStmt w _ s j wcs ret => ctes w ++ [s; j] ++ wcs ++ ret
  | NRelsStmt _ l | NVacuumStmt _ l => l
  | NViewStmt _ q | NCopyStmt _ q | NExplainStmt q _ | NPrepareStmt q | NDeclareCursorStmt q | NCreateTableAsStmt _ q => [q]
  | NCallStmt f => [f]
  | NJoinExpr l r q => [l; r; q]
  | NRangeTableSample r args => r :: args
  | NFromExpr fl q => fl ++ [q]
  | NA_Expr l r => [l; r]
  | NFuncCall _ args f o _ => args ++ [f; o]
  | NSubLink t s => [t; s]
  | NCaseExpr a args d => a :: args ++ [d]
  | NCaseWhen e r => [e; r]
  | NA_Indirection a l => a :: l
  | NWindowDef p o => p ++ o
  | NUnary _ a => [a]
  | NNary _ l => l
  | _ => []
  end.

Inductive reaches : Node -> Node -> Prop :=
| reaches_self n : reaches n n
| reaches_step n c m : c ∈ walked n → reaches c m → reaches n m.

Lemma visit_list_incl src (l : list Node) c e : c ∈ l → e ∈ visit src c → e ∈ concat (map (visit src) l).
Proof.
  intros Hc He. induction l as [|x l IH]; [by apply elem_of_nil in Hc|]. cbn. apply elem_of_app.
  apply elem_of_cons in Hc as [->|Hc]; auto.
Qed.

Definition ctes_of (w : list Node) : list Node := w ≫= λ it, match it with NCommonTableExpr _ q => [q] | _ => [] end.

Definition visit_ctes (src : string) (ctes : list Node) : list Emit :=
  concat (map (λ it,
    match it with
    | NCommonTableExpr name q =>
        if is_nil q then []
        else match q with
             | NInsertStmt _ _ _ _ _ | NUpdateStmt _ _ _ _ _ _ | NDeleteStmt _ _ _ _ _ | NMergeStmt _ _ _ _ _ _ =>
                 [EInner (shadow_info (verbFromNode q) name (visit "" q))]
             | _ => []
             end ++ visit src q
    | _ => []
    end) ctes).

Lemma visit_ctes_incl src w c e : c ∈ ctes_of w → e ∈ visit src c → e ∈ visit_ctes src w.
Proof.
  intros Hc He. unfold ctes_of in Hc. apply list_elem_of_bind in Hc as (it & Hc & Hit).
  assert (∃ name, it = NCommonTableExpr name c) as [name ->].
  { destruct it; try by apply elem_of_nil in Hc. apply list_elem_of_singleton in Hc as ->. eauto. }
  unfold visit_ctes. apply list_elem_of_In, in_concat. eexists. split.
  - apply in_map_iff. eexists. split; [reflexivity|by apply list_elem_of_In].
  - apply list_elem_of_In. destruct c; cbn [is_nil]; try (by apply elem_of_app; right).
    by apply elem_of_nil in He.
Qed.

Lemma walked_visit src n c e : c ∈ walked n → e ∈ visit src c → e ∈ visit src n.
Proof.
  intros Hc He.
  destruct n; cbn [walked] in Hc; try by apply elem_of_nil in Hc.
  all: cbn [visit]; fold (visit_ctes src); fold ctes_of in Hc.
  all: repeat first [rewrite elem_of_app in Hc | rewrite elem_of_cons in Hc | rewrite elem_of_nil in Hc].
  all: rewrite ?elem_of_app.
  all: repeat match goal with
       | H : _ ∨ _ |- _ => destruct H as [H|H]
       | H : False |- _ => destruct H
       end; subst; eauto 30 using visit_list_incl, visit_ctes_incl.
Qed.

Lemma reaches_visit src n m e : reaches n m → e ∈ visit src m → e ∈ visit src n.
Proof. induction 1 as [|n c m Hc _ IH]; [done|]. intros He. eapply walked_visit; eauto. Qed.

(** ** Statements underneath *)

Definition mutates (n : Node) : bool :=
  match n with
  | NInsertStmt _ _ _ _ _ | NUpdateStmt _ _ _ _ _ _ | NDeleteStmt _ _ _ _ _ | NMergeStmt _ _ _ _ _ _ => true
  | _ => false
  end.

Definition with_clause (n : Node) : list Node :=
  match n with
  | NSelectStmt w _ _ _ _ _ _ _ _ _ _ _ _ _ _ => w
  | NInsertStmt w _ _ _ _ | NUpdateStmt w _ _ _ _ _ | NDeleteStmt w _ _ _ _ | NMergeStmt w _ _ _ _ _ => w
  | _ => []
  end.

(** The relation a statement modifies. *)
Definition target (n : Node) : option RangeVar :=
  match n with
  | NInsertStmt _ r _ _ _ | NUpdateStmt _ r _ _ _ _ | NDeleteStmt _ r _ _ _ | NMergeStmt _ r _ _ _ _ => r
  | _ => None
  end.

(** [d] runs because [n] runs: the query of a wrapper that executes it, or a
    data-modifying common table expression. *)
Inductive runs_under : Node -> Node -> Prop :=
| runs_explain q opts : explainAnalyzes opts = true → runs_under (NExplainStmt q opts) q
| runs_prepare q : runs_under (NPrepareStmt q) q
| runs_declare q : runs_under (NDeclareCursorStmt q) q
| runs_copy r q : runs_under (NCopyStmt r q) q
| runs_cte n name q : NCommonTableExpr name q ∈ with_clause n → mutates q = true → runs_under n q.

Lemma cte_emits src w name q :
  NCommonTableExpr name q ∈ w → mutates q = true →
  EInner (shadow_info (verbFromNode q) name (visit "" q)) ∈ visit_ctes src w.
Proof.
  intros Hw Hm. unfold visit_ctes. apply list_elem_of_In, in_concat. eexists. split.
  - apply in_map_iff. eexists. split; [reflexivity|by apply list_elem_of_In].
  - apply list_elem_of_In. destruct q; try done; cbn [is_nil app]; left.
Qed.

(** Such a statement is emitted as a shadow with its own verb and tables. *)
Lemma runs_under_emits src n d :
  runs_under n d → is_nil d = false →
  ∃ st, EInner (shadow_info (verbFromNode d) st (visit "" d)) ∈ visit src n.
Proof.
  intros Hr Hn. destruct Hr as [q opts Ho|q|q|r q|n name q Hw Hm].
  - exists src. cbn [visit]. rewrite Ho, Hn. left.
  - exists src. cbn [visit]. rewrite Hn. left.
  - exists src. cbn [visit]. rewrite Hn. left.
  - exists src. cbn [visit]. rewrite Hn. apply elem_of_app. right. left.
  - exists name. destruct n; try by apply elem_of_nil in Hw.
    all: cbn [visit with_clause] in *; fold (visit_ctes src); apply elem_of_app; left; by apply cte_emits.
Qed.

Lemma elem_of_sortedKeys x m : x ∈ sortedKeys m ↔ x ∈ m.
Proof. unfold sortedKeys. by rewrite elem_of_stable_sort, elem_of_elements. Qed.

Lemma emitted_table es t : ETable t ∈ es → t ∈ emitted_tables es.
Proof.
  intros H. unfold emitted_tables. apply elem_of_list_to_set, list_elem_of_bind. exists (ETable t). split; [left|done].
Qed.

Lemma emitRangeVar_name r : range_var_name r ≠ "" → ETable (range_var_name r) ∈ emitRangeVar r.
Proof.
  intros H. unfold emitRangeVar, emitTable, with_leaf. rewrite (proj2 (String.eqb_neq _ _) H). left.
Qed.

Lemma target_emits src d r : target d = Some r → range_var_name (Some r) ≠ "" → ETable (range_var_name (Some r)) ∈ visit src d.
Proof.
  intros Ht Hne. destruct d; cbn [target] in Ht; try done; subst; cbn [visit]; rewrite !elem_of_app;
    eauto using emitRangeVar_name.
Qed.

(** The tree of [SELECT 1 AS x] and of [DROP TABLE t]. *)
Definition select_one : Node :=
  NSelectStmt [] [NUnary ResTarget (NOther [])] [] NNil [] NNil [] [] [] NNil NNil [] [] NNil NNil.
Definition drop_t : Node := NDropStmt OBJECT_TABLE [NList [NString "t"]].
Definition dollar_batch : string := "SELECT 1 AS a$b$; DROP TABLE t; SELECT 1 AS a$b$".

Section Judged.
Context (parse : string -> option (list Node)).

(** A piece the parser accepts is judged by what its tree says. *)
Lemma judged_piece sql p stmt :
  p ∈ splitTopLevelStatements (TrimSpace sql) → TrimSpace sql ≠ "" → piece_stmt parse (TrimSpace p) = Some stmt →
  (∃ outer, (outer, false, false) ∈ judged parse sql ∧ pg_Verb outer = verbFromNode stmt ∧
     ∀ t, ETable t ∈ visit (TrimSpace p) stmt → t ∈ pg_Tables outer) ∧
  (∀ i, EInner i ∈ visit (TrimSpace p) stmt → (i, true, false) ∈ judged parse sql).
Proof.
  intros Hp Hne Hs. unfold judged, analyseAll.
  assert (∃ f, analyseStmt f stmt (TrimSpace p) ∈ analyse_depth parse (String.length sql) sql) as [f Ha].
  { destruct (String.length sql) eqn:El; cbn [analyse_depth]; rewrite (proj2 (String.eqb_neq _ _) Hne);
      eexists; apply list_elem_of_fmap; exists p; (split; [|done]); unfold analysePiece; by rewrite Hs. }
  split.
  - eexists. split; [apply list_elem_of_bind; eexists; split; [|exact Ha]; left|]. split; [done|].
    intros t Ht. apply elem_of_sortedKeys. by apply emitted_table.
  - intros i Hi. apply list_elem_of_bind. eexists. split; [|exact Ha]. right. apply list_elem_of_fmap. exists i. split; [done|].
    unfold analyseStmt. cbn [an_Inner]. unfold collect_inner. apply list_elem_of_bind. exists (EInner i). split; [left|done].
Qed.

(** ** The theorems *)

(** C21. A mutation cannot hide. Wherever the walk finds a statement that runs under
    another (the query of EXPLAIN ANALYZE, PREPARE, DECLARE or COPY, or a
    data-modifying WITH clause) the rules judge it by its own verb, with the
    relation it modifies among its tables; and every relation the walk meets is
    among the tables of the outer statement. *)
Theorem pg_hidden_mutation_judged sql p stmt n d :
  TrimSpace sql ≠ "" → p ∈ splitTopLevelStatements (TrimSpace sql) → piece_stmt parse (TrimSpace p) = Some stmt →
  reaches stmt n → runs_under n d → is_nil d = false →
  (∃ info, (info, true, false) ∈ judged parse sql ∧ pg_Verb info = verbFromNode d ∧
     ∀ r, target d = Some r → range_var_name (Some r) ≠ "" → range_var_name (Some r) ∈ pg_Tables info) ∧
  (∃ outer, (outer, false, false) ∈ judged parse sql ∧ pg_Verb outer = verbFromNode stmt ∧
     ∀ r, reaches stmt (NRangeVar r) → range_var_name (Some r) ≠ "" → range_var_name (Some r) ∈ pg_Tables outer).
Proof.
  intros Hne Hp Hs Hr Hd Hn. destruct (judged_piece sql p stmt Hp Hne Hs) as [(outer & Ho & Hv & Ht) Hi]. split.
  - destruct (runs_under_emits (TrimSpace p) n d Hd Hn) as [st He].
    eexists. split; [apply Hi; by eapply reaches_visit|]. split; [done|]. intros r Hrv Hname.
    apply elem_of_sortedKeys, emitted_table. by apply target_emits.
  - exists outer. split_and!; [done..|]. intros r Hreach Hname. apply Ht. eapply reaches_visit; [done|].
    by apply emitRangeVar_name.
Qed.

(** Text the server reads as several statements is judged by the first alone
    when a [$] inside an identifier makes the splitter see a dollar quote: the
    DROP below reaches no rule. *)
Theorem pg_dollar_identifier_hides_statements rest :
  parse dollar_batch = Some (select_one :: rest) → drop_t ∈ rest →
  judged parse dollar_batch = [(mkInfo "select" [] [] dollar_batch, false, false)].
Proof.
  intros Hp _. unfold judged, analyseAll.
  assert (∃ n, String.length dollar_batch = S n) as [n ->] by by eexists.
  cbn [analyse_depth].
  assert (TrimSpace dollar_batch = dollar_batch) as -> by (vm_compute; reflexivity).
  assert (splitTopLevelStatements dollar_batch = [dollar_batch]) as -> by (vm_compute; reflexivity).
  cbn [String.eqb fmap list_fmap]. unfold analysePiece.
  assert (TrimSpace dollar_batch = dollar_batch) as -> by (vm_compute; reflexivity).
  unfold piece_stmt, tryParseFirstStmt. rewrite Hp. reflexivity.
Qed.
End Judged.

(** ** Witnesses *)

Definition delete_t : Node := NDeleteStmt [] (Some (mkRangeVar "public" "t")) NNil [] [].
Definition explain_delete : Node := NExplainStmt delete_t [NDefElem "analyze" NNil].
Definition explain_text : string := "EXPLAIN ANALYZE DELETE FROM public.t".
Definition toy_parse (text : string) : option (list Node) :=
  if String.eqb text explain_text then Some [explain_delete]
  else if String.eqb text dollar_batch then Some [select_one; drop_t; select_one]
  else None.

Lemma pg_hidden_mutation_judged_witness :
  ∃ info, (info, true, false) ∈ judged toy_parse explain_text ∧ pg_Verb info = "delete" ∧ "public.t" ∈ pg_Tables info.
Proof.
  destruct (pg_hidden_mutation_judged toy_parse explain_text explain_text explain_delete explain_delete delete_t)
    as [(info & Hi & Hv & Ht) _].
  - vm_compute. congruence.
  - vm_compute. left.
  - vm_compute. reflexivity.
  - constructor.
  - by constructor.
  - reflexivity.
  - exists info. split_and!; [done|exact Hv|]. apply (Ht (mkRangeVar "public" "t")); [reflexivity|vm_compute; congruence].
Defined.

Lemma pg_dollar_identifier_hides_statements_witness :
  toy_parse dollar_batch = Some [select_one; drop_t; select_one] ∧
  judged toy_parse dollar_batch = [(mkInfo "select" [] [] dollar_batch, false, false)].
Proof.
  split; [vm_compute; reflexivity|].
  apply (pg_dollar_identifier_hides_statements toy_parse [drop_t; select_one]); [vm_compute; reflexivity|left].
Defined.

(** The same for a quote escaped by a backslash. *)
Example pg_escape_string_hides :
  splitTopLevelStatements "SELECT E'\''; DROP TABLE t; --'" = ["SELECT E'\''; DROP TABLE t; --'"].
Proof. vm_compute. reflexivity. Qed.
