(* ===== verification/PgAuth.v ===== *)
(** * Sessions of the postgres frontend: [HandleConn] of [endpoints/postgres.go]

    The agent's StartupMessage selects a credential; the gateway authenticates to
    the server with it (SCRAM-SHA-256, cleartext or trust), tells the agent it is
    in, and pumps. The hash functions, base64, the TLS handshake, the secret store
    and the dialler are parameters. *)
From S2P Require Import Prelude GoStrings NetAddr Policy Dispatch Approver Wire SqlConn PgSplit PgSql PgConn.

(** ** Startup messages *)

Definition sslRequestCode : Z := 80877103.

Inductive StartupError := StartupEOF | StartupLength (n : Z).

(** [pgReadStartup]: the message, and the rest of the stream. *)
Definition pgReadStartup (head : option string) (s : string) : result (string * string) StartupError :=
  match (match head with Some h => Some (h, s) | None => ReadFull 8 s end) with
  | None => Err StartupEOF
  | Some (h, s) =>
      let length := be_get (str_take 4 h) in
      if (length <? 8) || (2 ^ 20 <? length) then Err (StartupLength length)
      else match ReadFull (Z.to_nat (length - 8)) s with
           | None => Err StartupEOF
           | Some (body, s') => Ok (h +:+ body, s')
           end
  end.

(** A string up to its terminator, and what follows it; [None] without one. *)
Definition cut_nul (b : string) : option (string * string) :=
  match IndexByte b NUL with Some i => Some (str_take i b, str_drop (S i) b) | None => None end.

Fixpoint startup_params (fuel : nat) (b key : string) : string :=
  match fuel with
  | O => ""
  | S fuel' =>
      if HasPrefix b nul_str || String.eqb b "" then ""
      else match cut_nul b with
           | None => ""
           | Some (k, b1) =>
               match cut_nul b1 with
               | None => ""
               | Some (v, b2) => if String.eqb k key then v else startup_params fuel' b2 key
               end
           end
  end.

Definition pgStartupParam (body key : string) : string :=
  if (String.length body <? 8)%nat then "" else startup_params (String.length body) (str_drop 8 body) key.

Definition startup_pair (k v : string) : string := k +:+ nul_str +:+ v +:+ nul_str.

Definition pgSendStartup (user database : string) : string :=
  let params := startup_pair "user" user +:+
    (if negb (String.eqb database "") && negb (String.eqb database user) then startup_pair "database" database else "") +:+
    nul_str in
  let body := be_put 4 196608 +:+ params in
  be_put 4 (Z.of_nat (String.length body) + 4) +:+ body.

(** ** Frames of the server *)

Inductive AuthError :=
| AuthRead
| AuthFrameLength (n : Z)
| AuthShort
| AuthMD5
| AuthMechanisms (mechs : list string)
| AuthScram (msg : string)
| AuthUnsupported (code : Z)
| AuthUpstream (msg : string)
| AuthOutOfFuel.

Definition pgReadAuthFrame (s : string) : result (ascii * string * string) AuthError :=
  match ReadFull 5 s with
  | Some (String typ lenb, s1) =>
      let length := be_get lenb in
      if (length <? 4) || (2 ^ 20 <? length) then Err (AuthFrameLength length)
      else match ReadFull (Z.to_nat (length - 4)) s1 with
           | Some (payload, s2) => Ok (typ, payload, s2)
           | None => Err AuthRead
           end
  | _ => Err AuthRead
  end.

(** [pgWriteFrame] writes what [frameBytes] builds. *)
Definition pgWriteFrame (typ : ascii) (payload : string) : string := frameBytes typ payload.

Fixpoint split_cstrings (fuel : nat) (b : string) : list string :=
  match fuel with
  | O => []
  | S fuel' =>
      match IndexByte b NUL with
      | Some O => []
      | Some i => str_take i b :: split_cstrings fuel' (str_drop (S i) b)
      | None => if String.eqb b "" then [] else [b]
      end
  end.

Definition splitCStrings (b : string) : list string := split_cstrings (S (String.length b)) b.

Fixpoint error_fields (fuel : nat) (b acc : string) : string :=
  match fuel with
  | O => acc
  | S fuel' =>
      match b with
      | EmptyString => acc
      | String t b1 =>
          if Ascii.eqb t NUL then acc
          else
            let '(val, b2) := match cut_nul b1 with Some (v, r) => (v, r) | None => (b1, "") end in
            error_fields fuel' b2
              (if Ascii.eqb t "M" || Ascii.eqb t "C" then (if String.eqb acc "" then val else acc +:+ " " +:+ val) else acc)
      end
  end.

Definition parseErrorFields (b : string) : string := error_fields (S (String.length b)) b "".

(** ** SCRAM *)

Record scramClient := mkScram {
  sc_user : string;
  sc_password : string;
  sc_clientNonce : string;
  sc_clientFirstBare : string;
  sc_serverFirst : string
}.

Definition parseSCRAMAttrs (s : string) : gmap string string :=
  foldl (λ out kv,
    match IndexByte kv "=" with
    | Some (S i) => <[str_take (S i) kv := str_drop (S (S i)) kv]> out
    | _ => out
    end) ∅ (SplitByte s ",").

Definition attr (m : gmap string string) (k : string) : string := default "" (m !! k).

Definition xorBytes (a b : string) : string :=
  (fix go (a b : string) : string :=
     match a, b with
     | String x a', String y b' => String (byte_xor x y) (go a' b')
     | _, _ => EmptyString
     end) a b.

(** An iteration count: [None] for an error of [strconv.Atoi] or a value that is
    not positive. *)
Definition positive_int (s : string) : option Z :=
  match Atoi s with Some n => if 0 <? n then Some n else None | None => None end.

(** The fields of the [PostgresEndpoint] body. *)
Record PostgresEndpoint := mkPgEndpoint { pge_Host : string; pge_SSLMode : string }.

Inductive SessionEnd (W : Type) :=
| EndQuiet
| EndError (msg : string)
| EndPumped (o : option (Outputs (W := W) * bool)) (relayed : string).
Arguments EndQuiet {W}.
Arguments EndError {W} _.
Arguments EndPumped {W} _ _.

(** What the session wrote to the agent and to the server before pumping. *)
Record PgSession (W : Type) := mkSession { ss_agent : string; ss_upstream : string; ss_end : SessionEnd W }.
Arguments mkSession {W} _ _ _.
Arguments ss_agent {W} _.
Arguments ss_upstream {W} _.
Arguments ss_end {W} _.

Section Auth.
Context (pbkdf2 : string -> string -> Z -> string) (hmacSHA256 : string -> string -> string) (sha256Sum : string -> string)
  (b64_encode : string -> string) (b64_decode : string -> option string).

Definition newScramClient (user password nonceBytes : string) : scramClient :=
  mkScram user password (b64_encode nonceBytes) "" "".

Definition initialResponse (s : scramClient) : scramClient * string :=
  let bare := "n=" +:+ sc_user s +:+ ",r=" +:+ sc_clientNonce s in
  let resp := "n,," +:+ bare in
  (mkScram (sc_user s) (sc_password s) (sc_clientNonce s) bare (sc_serverFirst s),
   "SCRAM-SHA-256" +:+ nul_str +:+ be_put 4 (Z.of_nat (String.length resp)) +:+ resp).

Definition continueResponse (s : scramClient) (serverFirst : string) : scramClient * result string string :=
  let s := mkScram (sc_user s) (sc_password s) (sc_clientNonce s) (sc_clientFirstBare s) serverFirst in
  let parts := parseSCRAMAttrs serverFirst in
  let r := attr parts "r" in
  let saltB64 := attr parts "s" in
  let iterStr := attr parts "i" in
  (s,
   if String.eqb r "" || String.eqb saltB64 "" || String.eqb iterStr "" then Err "malformed server-first"
   else if negb (HasPrefix r (sc_clientNonce s)) then Err "server nonce doesn't extend client nonce"
   else match b64_decode saltB64 with
        | None => Err "salt decode"
        | Some salt =>
            match positive_int iterStr with
            | None => Err "bad iteration count"
            | Some iter =>
                let clientFinalNoProof := "c=biws,r=" +:+ r in
                let saltedPassword := pbkdf2 (sc_password s) salt iter in
                let clientKey := hmacSHA256 saltedPassword "Client Key" in
                let storedKey := sha256Sum clientKey in
                let authMessage := sc_clientFirstBare s +:+ "," +:+ sc_serverFirst s +:+ "," +:+ clientFinalNoProof in
                let clientSignature := hmacSHA256 storedKey authMessage in
                let clientProof := xorBytes clientKey clientSignature in
                Ok (clientFinalNoProof +:+ ",p=" +:+ b64_encode clientProof)
            end
        end).

Definition finalize (serverFinal : string) : option string :=
  let parts := parseSCRAMAttrs serverFinal in
  let e := attr parts "e" in
  if negb (String.eqb e "") then Some ("server reported scram error: " +:+ e)
  else if String.eqb (attr parts "v") "" then Some "server-final missing verifier"
  else None.

(** ** The handshake with the server *)

(** What one authentication request is answered with: the client's state and
    the frame to send, or an error. *)
Definition answer_auth (sc : scramClient) (payload : string) : result (scramClient * string) AuthError :=
  let code := be_get (str_take 4 payload) in
  let data := str_drop 4 payload in
  if code =? 0 then Ok (sc, "")
  else if code =? 3 then Ok (sc, pgWriteFrame "p" (sc_password sc +:+ nul_str))
  else if code =? 5 then Err AuthMD5
  else if code =? 10 then
    let mechs := splitCStrings data in
    if existsb (String.eqb "SCRAM-SHA-256") mechs then
      let '(sc', out) := initialResponse sc in Ok (sc', pgWriteFrame "p" out)
    else Err (AuthMechanisms mechs)
  else if code =? 11 then
    match continueResponse sc data with
    | (sc', Ok out) => Ok (sc', pgWriteFrame "p" out)
    | (_, Err e) => Err (AuthScram e)
    end
  else if code =? 12 then match finalize data with None => Ok (sc, "") | Some e => Err (AuthScram e) end
  else Err (AuthUnsupported code).

(** [pgPerformAuth]: the frames to replay and the rest of the server's stream,
    or the error; and what was written to the server. *)
Fixpoint perform_auth (fuel : nat) (sc : scramClient) (postAuth s written : string)
    : result (string * string) AuthError * string :=
  match fuel with
  | O => (Err AuthOutOfFuel, written)
  | S fuel' =>
      match pgReadAuthFrame s with
      | Err e => (Err e, written)
      | Ok (typ, payload, s') =>
          if negb (Ascii.eqb typ "R") then
            let postAuth := postAuth +:+ frameBytes typ payload in
            if Ascii.eqb typ "Z" then (Ok (postAuth, s'), written)
            else if Ascii.eqb typ "E" then (Err (AuthUpstream (parseErrorFields payload)), written)
            else perform_auth fuel' sc postAuth s' written
          else if (String.length payload <? 4)%nat then (Err AuthShort, written)
          else match answer_auth sc payload with
               | Err e => (Err e, written)
               | Ok (sc', out) =>
                   perform_auth fuel' sc'
                     (if be_get (str_take 4 payload) =? 0 then postAuth +:+ frameBytes typ payload else postAuth)
                     s' (written +:+ out)
               end
      end
  end.

Definition pgPerformAuth (user password nonceBytes s : string) : result (string * string) AuthError * string :=
  perform_auth (S (String.length s)) (newScramClient user password nonceBytes) "" s "".

(** [pgWriteAuthOK]: what the agent is sent. *)
Definition pgWriteAuthOK (postAuth : string) : string :=
  let rest :=
    match postAuth with
    | String c b =>
        if (5 <=? String.length postAuth)%nat && Ascii.eqb c "R" then
          let l := (1 + be_get (str_take 4 b)) mod 2 ^ 32 in
          if l <=? Z.of_nat (String.length postAuth) then str_drop (Z.to_nat l) postAuth else postAuth
        else postAuth
    | EmptyString => postAuth
    end in
  pgWriteFrame "R" (be_put 4 0) +:+ rest.

(** ** TLS to the server *)

Inductive SslError := SslRead | SslHandshake (msg : string) | SslRefused (mode : string) | SslReply (c : ascii).

(** [tls.Client] and its handshake over the rest of the stream, for a server
    name, checking the certificate or not: the stream inside. *)
Context (handshake : string -> bool -> string -> result string string).

(** [sslErr.Error()]; [quote_rune] is the [%q] of a byte. *)
Context (quote_rune : ascii -> string).

Definition ssl_error_text (e : SslError) : string :=
  match e with
  | SslRead => "read SSLRequest reply: EOF"
  | SslHandshake msg => "tls handshake: " +:+ msg
  | SslRefused mode => "upstream refused TLS but sslmode=" +:+ quote mode +:+ " requires it"
  | SslReply c => "unexpected SSLRequest reply byte " +:+ quote_rune c
  end.

Definition ssl_probe : string := be_put 4 8 +:+ be_put 4 sslRequestCode.

Definition pgUpgradeSSL (host sslmode s : string) : result string SslError :=
  match s with
  | EmptyString => Err SslRead
  | String c s' =>
      if Ascii.eqb c "S" then
        let name := match net_SplitHostPort host with Ok (h, _) => h | Err _ => host end in
        match handshake name (String.eqb sslmode "verify-full") s' with
        | Ok inner => Ok inner
        | Err e => Err (SslHandshake e)
        end
      else if Ascii.eqb c "N" then
        if String.eqb sslmode "require" || String.eqb sslmode "verify-full" then Err (SslRefused sslmode) else Ok s'
      else Err (SslReply c)
  end.

Definition pgUpstreamAddr (ep : CompiledEndpoint) : string :=
  default "" (List.find (λ h, negb (String.eqb h "")) (ep_Hosts ep)).

(** [PostgresEndpointRuntime.DetectPlaceholder] *)
Definition pg_DetectPlaceholder (req : option Request) (candidates : list string) : string :=
  match req with
  | Some r =>
      match req_Meta r with
      | MetaSql m => default "" (List.find (λ c, negb (String.eqb c "") && Contains (sql_Statement m) c) candidates)
      | _ => ""
      end
  | None => ""
  end.

(** ** The session *)

(** The credential body as a [PostgresAuthCredential], the secret store, the
    dialler, the hint of [CredentialMismatchReason], and the nonce. *)
Context {W : Type} (ch : ConnHandle W) (body : option PostgresEndpoint) (parse : string -> option (list Node))
  (postgres_auth : Entity -> option (Secret -> string * string)) (secrets : string -> result Secret string)
  (dial : string -> result string string) (mismatch_hint : Request -> string) (nonceBytes : string).

Definition sslmode_of : string :=
  match body with Some e => if negb (String.eqb (pge_SSLMode e) "") then pge_SSLMode e else "prefer" | None => "prefer" end.

Definition startup_request (startup : string) : string * Request :=
  let user := pgStartupParam startup "user" in
  let db := pgStartupParam startup "database" in
  let database := if String.eqb db "" then user else db in
  (database,
   mkRequest "sql" "" "" database user "" None [] "" (MetaSql (mkSqlMeta "" [] [] user "")) false false).

(** From a connected server on: TLS, startup, authentication, the pumps. *)
Definition pg_serve (agent rest credName database user password upBytes : string) (w : W) : PgSession W :=
  let mode := sslmode_of in
  let probe := if String.eqb mode "disable" then "" else ssl_probe in
  match (if String.eqb mode "disable" then Ok upBytes
         else pgUpgradeSSL (match body with Some e => pge_Host e | None => "" end) mode upBytes) with
  | Err e => mkSession (agent +:+ pgWriteError ("upstream tls: " +:+ ssl_error_text e)) probe (EndError (ssl_error_text e))
  | Ok s =>
      let startup := pgSendStartup user database in
      match pgPerformAuth user password nonceBytes s with
      | (Err _, written) =>
          mkSession (agent +:+ pgWriteError "upstream authentication failed (details in the gateway log)")
            (probe +:+ startup +:+ written) (EndError "upstream authentication failed")
      | (Ok (postAuth, relayed), written) =>
          mkSession (agent +:+ pgWriteAuthOK postAuth) (probe +:+ startup +:+ written)
            (EndPumped (pgClientToServer ch credName database parse [rest] w) relayed)
      end
  end.

(** [HandleConn], on the bytes the agent sends. *)
Definition HandleConn (s : string) (w : W) : PgSession W :=
  let ep := ch_Endpoint ch in
  if negb (String.eqb (ep_Family ep) "sql") then mkSession "" "" (EndError "non-sql endpoint")
  else if String.eqb (pgUpstreamAddr ep) "" then mkSession "" "" (EndError "no host")
  else match ReadFull 8 s with
       | None => mkSession "" "" EndQuiet
       | Some (hdr, s1) =>
           let ssl := (be_get (str_take 4 hdr) =? 8) && (be_get (str_drop 4 hdr) =? sslRequestCode) in
           let agent := if ssl then "N" else "" in
           match pgReadStartup (if ssl then None else Some hdr) s1 with
           | Err _ => mkSession agent "" (EndError "read agent startup")
           | Ok (startup, rest) =>
               let '(database, credReq) := startup_request startup in
               match ResolveCredential (ch_Policy ch) (ch_Profile ch) (Some ep) (Some credReq) with
               | None =>
                   let hint := mismatch_hint credReq in
                   let msg := if negb (String.eqb hint "") then "no matching credential: " +:+ hint
                              else "no credential bound to postgres endpoint" in
                   mkSession (agent +:+ pgWriteError msg) "" (EndError msg)
               | Some cc =>
                   let name := ent_Name (cc_Credential cc) in
                   match postgres_auth (cc_Credential cc) with
                   | None =>
                       mkSession (agent +:+ pgWriteError "credential plugin does not implement postgres auth") "" (EndError "no PostgresAuth")
                   | Some auth =>
                       match secrets name with
                       | Err e => mkSession (agent +:+ pgWriteError ("fetch secret: " +:+ e)) "" (EndError e)
                       | Ok sec =>
                           let '(user, password) := auth sec in
                           if String.eqb user "" then
                             mkSession (agent +:+ pgWriteError "postgres credential has no user — set `user = ...` in HCL") "" (EndError "missing user")
                           else if String.eqb password "" then
                             mkSession (agent +:+ pgWriteError ("postgres credential " +:+ quote name +:+ " has no password — paste it via the dashboard"))
                               "" (EndError "missing password")
                           else match dial (pgUpstreamAddr ep) with
                                | Err e => mkSession (agent +:+ pgWriteError ("dial upstream: " +:+ e)) "" (EndError "dial")
                                | Ok upBytes => pg_serve agent rest name database user password upBytes w
                                end
                       end
                   end
               end
           end
       end.
End Auth.

(** [PostgresCredential.PostgresAuth] *)
Definition PostgresAuth (user : string) (sec : Secret) : string * string := (user, sec_Bytes sec).
