(* ===== verification/PgAuthProps.v ===== *)
(** * What the agent learns from the handshake of a postgres session *)
From S2P Require Import Prelude GoStrings NetAddr Policy Dispatch Approver Wire SqlConn PgSplit PgSql PgConn PgAuth.

Section Props.
Context (pbkdf2 : string -> string -> Z -> string) (hmacSHA256 : string -> string -> string) (sha256Sum : string -> string)
  (b64_encode : string -> string) (b64_decode : string -> option string)
  (handshake : string -> bool -> string -> result string string) (quote_rune : ascii -> string).

Notation answers := (answer_auth pbkdf2 hmacSHA256 sha256Sum b64_encode b64_decode).
Notation performs := (perform_auth pbkdf2 hmacSHA256 sha256Sum b64_encode b64_decode).

(** ** The secret stays on the server's side *)

(** Two clients that differ in the user and the password. *)
Definition same_but_secret (a b : scramClient) : Prop := sc_clientNonce a = sc_clientNonce b.

Lemma answer_auth_secret a b payload :
  same_but_secret a b →
  match answers a payload, answers b payload with
  | Ok (a', _), Ok (b', _) => same_but_secret a' b'
  | Err e1, Err e2 => e1 = e2
  | _, _ => False
  end.
Proof.
  unfold same_but_secret, answer_auth, continueResponse, initialResponse. intros Hn. cbn [sc_clientNonce].
  repeat case_match; simplify_eq; cbn in *; try done; try congruence.
Qed.

Lemma perform_auth_secret n a b post s w1 w2 :
  same_but_secret a b → (performs n a post s w1).1 = (performs n b post s w2).1.
Proof.
  revert a b post s w1 w2. induction n as [|n IH]; intros a b post s w1 w2 Hab; [done|]. cbn [perform_auth].
  destruct (pgReadAuthFrame s) as [[[typ payload] s']|e]; [|done].
  destruct (negb (Ascii.eqb typ "R")).
  - destruct (Ascii.eqb typ "Z"); [done|]. destruct (Ascii.eqb typ "E"); [done|]. by apply IH.
  - destruct (_ <? _)%nat; [done|]. pose proof (answer_auth_secret a b payload Hab) as H.
    destruct (answers a payload) as [[a' o1]|e1], (answers b payload) as [[b' o2]|e2]; try done; [|by subst].
    by apply IH.
Qed.

(** ** Frames *)

Lemma frameBytes_length typ payload : String.length (frameBytes typ payload) = (5 + String.length payload)%nat.
Proof. unfold frameBytes, encUint32. cbn [String.length]. by rewrite str_length_app, be_put_length. Qed.

Lemma pgReadAuthFrame_frame typ payload s :
  Z.of_nat (String.length payload) + 4 <= 2 ^ 20 → pgReadAuthFrame (frameBytes typ payload +:+ s) = Ok (typ, payload, s).
Proof.
  intros Hl. unfold pgReadAuthFrame, frameBytes, encUint32. set (n := Z.of_nat (String.length payload) + 4) in *.
  pose proof (ReadFull_app (String typ (be_put 4 n)) (payload +:+ s)) as R.
  cbn [String.length String.append] in *. rewrite be_put_length in R. rewrite str_app_assoc, R.
  rewrite be_get_put_small by (change (256 ^ Z.of_nat 4) with (2 ^ 32); unfold n in *; lia).
  rewrite (proj2 (Z.ltb_ge n 4)), (proj2 (Z.ltb_ge (2 ^ 20) n)) by (unfold n; lia). cbn [orb].
  replace (Z.to_nat (n - 4)) with (String.length payload) by (unfold n; lia). by rewrite ReadFull_app.
Qed.

(** A frame the server may send, and the bytes of several. *)
Definition frame_ok (f : ascii * string) : Prop := Z.of_nat (String.length f.2) + 4 <= 2 ^ 20.

Fixpoint frames (l : list (ascii * string)) : string :=
  match l with [] => "" | (t, p) :: l' => frameBytes t p +:+ frames l' end.

Definition ok_frame : string := frameBytes "R" (be_put 4 0).

(** Frames that are collected: neither authentication, the end, nor an error. *)
Definition collected (f : ascii * string) : Prop := frame_ok f ∧ f.1 ≠ "R"%char ∧ f.1 ≠ "Z"%char ∧ f.1 ≠ "E"%char.

(** Authentication requests other than the final approval. *)
Definition challenge (f : ascii * string) : Prop :=
  frame_ok f ∧ f.1 = "R"%char ∧ (4 <= String.length f.2)%nat ∧ be_get (str_take 4 f.2) ≠ 0.

Lemma perform_collects n sc post msgs zp rest w :
  Forall collected msgs → frame_ok ("Z"%char, zp) → (length msgs < n)%nat →
  performs n sc post (frames msgs +:+ (frameBytes "Z" zp +:+ rest)) w =
  (Ok (post +:+ (frames msgs +:+ frameBytes "Z" zp), rest), w).
Proof.
  intros Hm Hz. revert n post. induction Hm as [|[t p] msgs (Hok & HR & HZ & HE) _ IH]; intros n post Hn.
  - destruct n as [|n]; [lia|]. cbn [perform_auth frames String.append]. by rewrite pgReadAuthFrame_frame.
  - destruct n as [|n]; [cbn in Hn; lia|]. cbn [perform_auth frames fst snd] in *. rewrite str_app_assoc.
    rewrite pgReadAuthFrame_frame by done. rewrite (proj2 (Ascii.eqb_neq t "R")), (proj2 (Ascii.eqb_neq t "Z")),
      (proj2 (Ascii.eqb_neq t "E")) by done. cbn [negb]. rewrite IH by (cbn in Hn; lia). by rewrite !str_app_assoc.
Qed.

Lemma perform_challenges n sc pre tail w r w' :
  Forall challenge pre → performs n sc "" (frames pre +:+ tail) w = (Ok r, w') →
  ∃ m sc' w1, performs m sc' "" tail w1 = (Ok r, w') ∧ (m + length pre = n)%nat.
Proof.
  intros Hp. revert n sc w. induction Hp as [|[t p] pre (Hok & HR & Hl & Hc) _ IH]; intros n sc w; cbn [frames].
  - intros H. exists n, sc, w. split; [done|cbn; lia].
  - destruct n as [|n]; [done|]. cbn [perform_auth fst snd] in *. subst t. rewrite str_app_assoc, pgReadAuthFrame_frame by done.
    rewrite Ascii.eqb_refl, (proj2 (Nat.ltb_ge _ _)) by done. cbn [negb]. destruct (answers sc p) as [[sc' o]|]; [|done].
    rewrite (proj2 (Z.eqb_neq _ _)) by done. intros H. destruct (IH _ _ _ H) as (m & sc2 & w1 & Hm & Hlen).
    exists m, sc2, w1. split; [done|]. cbn. lia.
Qed.

Lemma frames_length l : (length l <= String.length (frames l))%nat.
Proof. induction l as [|[t p] l IH]; cbn [frames length]; [lia|]. rewrite str_length_app, frameBytes_length. lia. Qed.

(** The approval at the front is replaced by an equal one. *)
Lemma pgWriteAuthOK_ok tail : pgWriteAuthOK (ok_frame +:+ tail) = ok_frame +:+ tail.
Proof.
  assert (String.length (ok_frame +:+ tail) = 9 + String.length tail)%nat as Hl by reflexivity.
  unfold pgWriteAuthOK. destruct (ok_frame +:+ tail) as [|c b] eqn:E; [done|]. rewrite Hl.
  assert (c = "R"%char ∧ b = be_put 4 8 +:+ (be_put 4 0 +:+ tail)) as [-> ->].
  { change (ok_frame +:+ tail) with (String "R" (be_put 4 8 +:+ (be_put 4 0 +:+ tail))) in E. by injection E as <- <-. }
  rewrite (proj2 (Nat.leb_le 5 _)) by lia. cbn [Ascii.eqb andb].
  change (str_take 4 (be_put 4 8 +:+ (be_put 4 0 +:+ tail))) with (be_put 4 8).
  change ((1 + be_get (be_put 4 8)) mod 2 ^ 32) with 9. rewrite (proj2 (Z.leb_le 9 _)) by lia.
  rewrite <- E. reflexivity.
Qed.

(** ** The theorems *)

(** C30. Given what the server sends, what the agent is sent, whether the session is
    served and what is relayed do not depend on the user or the password: the
    agent cannot learn them from the gateway. *)
Theorem agent_view_independent_of_secret {W} (ch : ConnHandle W) body parse nonce agent rest cred db user1 pw1 user2 pw2 up w :
  let serve user pw := pg_serve pbkdf2 hmacSHA256 sha256Sum b64_encode b64_decode handshake quote_rune ch body parse nonce
    agent rest cred db user pw up w in
  ss_agent (serve user1 pw1) = ss_agent (serve user2 pw2) ∧ ss_end (serve user1 pw1) = ss_end (serve user2 pw2).
Proof.
  cbn zeta. unfold pg_serve. destruct (if String.eqb _ _ then _ else _) as [s|e]; [|done].
  unfold pgPerformAuth.
  pose proof (perform_auth_secret (S (String.length s)) (newScramClient b64_encode user1 pw1 nonce)
    (newScramClient b64_encode user2 pw2 nonce) "" s "" "" eq_refl) as H.
  destruct (performs _ (newScramClient b64_encode user1 pw1 nonce) "" s "") as [[[p1 r1]|e1] w1],
    (performs _ (newScramClient b64_encode user2 pw2 nonce) "" s "") as [[[p2 r2]|e2] w2]; cbn [fst] in H; try done.
  by injection H as -> ->.
Qed.

(** When the server asks its questions, approves, and then describes the
    session, an authentication that succeeds hands the agent exactly the
    server's bytes from its approval on, the questions left out. *)
Theorem agent_sees_session_from_approval user pw nonce pre msgs zp rest post relayed written :
  Forall challenge pre → Forall collected msgs → frame_ok ("Z"%char, zp) →
  let session := ok_frame +:+ (frames msgs +:+ (frameBytes "Z" zp +:+ rest)) in
  pgPerformAuth pbkdf2 hmacSHA256 sha256Sum b64_encode b64_decode user pw nonce (frames pre +:+ session) =
    (Ok (post, relayed), written) →
  pgWriteAuthOK post +:+ relayed = session.
Proof.
  intros Hp Hm Hz session H. unfold pgPerformAuth in H.
  destruct (perform_challenges _ _ _ _ _ _ _ Hp H) as (m & sc & w1 & H1 & Hlen).
  destruct m as [|m]; [done|]. unfold session in H1. cbn [perform_auth] in H1.
  unfold ok_frame in H1. rewrite pgReadAuthFrame_frame in H1 by (rewrite be_put_length; lia).
  assert (∀ sc, answers sc (be_put 4 0) = Ok (sc, "")) as Ha by done.
  rewrite Ascii.eqb_refl, be_put_length, Ha in H1. cbn [negb Nat.ltb Nat.leb] in H1.
  change (be_get (str_take 4 (be_put 4 0)) =? 0) with true in H1. cbv iota in H1.
  rewrite perform_collects in H1; [|done|done|].
  2:{ pose proof (frames_length pre). pose proof (frames_length msgs). unfold session in Hlen.
      rewrite !str_length_app, !frameBytes_length in Hlen. unfold ok_frame in Hlen. rewrite frameBytes_length in Hlen. lia. }
  injection H1 as <- <- _.
  match goal with |- pgWriteAuthOK ?x +:+ _ = _ => change x with (ok_frame +:+ (frames msgs +:+ frameBytes "Z" zp)) end.
  rewrite pgWriteAuthOK_ok. unfold session. by rewrite !str_app_assoc.
Qed.
End Props.

(** ** Witnesses *)

Definition no_hash3 : string -> string -> Z -> string := λ _ _ _, "".
Definition no_hash2 : string -> string -> string := λ _ _, "".
Definition no_hash1 : string -> string := λ s, s.

Definition status_frame : ascii * string := ("S"%char, "TimeZone" +:+ nul_str +:+ "UTC" +:+ nul_str).

Lemma agent_sees_session_from_approval_witness :
  ∃ post relayed written,
    pgPerformAuth no_hash3 no_hash2 no_hash1 no_hash1 Some "app" "secret" "nonce"
      (frames [("R"%char, be_put 4 3)] +:+ (ok_frame +:+ (frames [status_frame] +:+ (frameBytes "Z" "I" +:+ "more")))) =
      (Ok (post, relayed), written) ∧
    written = frameBytes "p" ("secret" +:+ nul_str) ∧
    pgWriteAuthOK post +:+ relayed = ok_frame +:+ (frames [status_frame] +:+ (frameBytes "Z" "I" +:+ "more")).
Proof.
  destruct (pgPerformAuth no_hash3 no_hash2 no_hash1 no_hash1 Some "app" "secret" "nonce"
      (frames [("R"%char, be_put 4 3)] +:+ (ok_frame +:+ (frames [status_frame] +:+ (frameBytes "Z" "I" +:+ "more")))))
    as [[[post relayed]|] written] eqn:E; [|vm_compute in E; done].
  exists post, relayed, written. split_and!.
  - done.
  - vm_compute in E. injection E as _ _ <-. vm_compute. reflexivity.
  - apply (agent_sees_session_from_approval no_hash3 no_hash2 no_hash1 no_hash1 Some "app" "secret" "nonce"
      [("R"%char, be_put 4 3)] [status_frame] "I" "more" post relayed written); [..|exact E].
    + repeat constructor; vm_compute; congruence.
    + repeat constructor; vm_compute; congruence.
    + vm_compute. congruence.
Defined.

(** A notice before the approval is replayed after the gateway's own approval,
    and the server's approval after it is not left out: the agent is approved
    twice. *)
Example notice_before_approval :
  let post := frameBytes "N" "hello" +:+ (ok_frame +:+ frameBytes "Z" "I") in
  pgPerformAuth no_hash3 no_hash2 no_hash1 no_hash1 Some "app" "secret" "nonce"
    (frames [("N"%char, "hello")] +:+ (ok_frame +:+ frameBytes "Z" "I")) = (Ok (post, ""), "") ∧
  pgWriteAuthOK post = ok_frame +:+ post.
Proof. split; vm_compute; reflexivity. Qed.
