(* ===== verification/ChSql.v ===== *)
(** * Statement analysis of the clickhouse endpoint: [endpoints/clickhouse_native_sql.go]

    Verb, tables and functions of a ClickHouse query, read off the trees of a
    third-party parser. The parser and its [Walk] are parameters; an expression
    keeps what the source looks at. *)
From S2P Require Import Prelude GoStrings Policy Wire PgSplit PgSql SqlConn PgConn.

(** ** Expressions *)

(** The statement nodes the source names; [OtherStmt] carries the printed type
    ([%T]) of any other. *)
Inductive StmtKind :=
| SelectQuery | InsertStmt | DropStmt | SetStmt | OptimizeStmt | SystemStmt | CheckStmt | RenameStmt | ExplainStmt
| ShowStmt | DescribeStmt | GrantPrivilegeStmt | AlterTable | OtherStmt (typ : string).

Inductive ChExpr :=
| EStmt (k : StmtKind) (children : list ChExpr)
| EUse (Database : option string)
| ECTE (Expr : option ChExpr) (children : list ChExpr)
| ETableIdentifier (Database Table : option string)
| EFunction (Name : option string) (children : list ChExpr).

(** ** The trailer *)

(** [chSQLTrailerRE] matches here: blanks, then [SETTINGS] and a blank, or
    [FORMAT], blanks, one word and nothing more. *)
Definition trailer_at (s : string) : bool :=
  let sp := span_len re_space s in
  let t := str_drop sp s in
  negb (sp =? 0)%nat &&
  ((fold_prefix t "settings" && match String.get 8 t with Some c => re_space c | None => false end) ||
   (fold_prefix t "format" &&
    let u := str_drop 6 t in
    let sp2 := span_len re_space u in
    let v := str_drop sp2 u in
    let w := span_len (λ c, negb (re_space c)) v in
    negb (sp2 =? 0)%nat && negb (w =? 0)%nat && (span_len re_space (str_drop w v) =? String.length (str_drop w v))%nat)).

(** [chSQLTrailerRE.ReplaceAllString(s, "")]: the match goes on to the end. *)
Fixpoint strip_trailer (s : string) : string :=
  match s with
  | EmptyString => ""
  | String c rest => if trailer_at s then "" else String c (strip_trailer rest)
  end.

(** ** Verbs and names *)

Fixpoint upper_boundary (i : nat) (s : string) : nat :=
  match s with
  | EmptyString => 0
  | String c rest => if (65 <=? byte_val c) && (byte_val c <=? 90) then i else upper_boundary (S i) rest
  end.

Definition chFirstUpperBoundary (s : string) : nat := upper_boundary 1 (str_drop 1 s).

Definition type_verb (typ : string) : string :=
  let name := match LastIndexByte typ "." with Some i => str_drop (i + 1) typ | None => typ end in
  let name := TrimSuffix (TrimSuffix name "Stmt") "Query" in
  let idx := chFirstUpperBoundary name in
  ToLower (if (0 <? idx)%nat then str_take idx name else name).

Definition stmt_verb (k : StmtKind) : string :=
  match k with
  | SelectQuery => "select" | InsertStmt => "insert" | DropStmt => "drop" | SetStmt => "set"
  | OptimizeStmt => "optimize" | SystemStmt => "system" | CheckStmt => "check" | RenameStmt => "rename"
  | ExplainStmt => "explain" | ShowStmt => "show" | DescribeStmt => "describe"
  | GrantPrivilegeStmt => "grant" | AlterTable => "alter"
  | OtherStmt typ => type_verb typ
  end.

Fixpoint chVerbFromStmt (stmt : ChExpr) : string :=
  match stmt with
  | EStmt k _ => stmt_verb k
  | EUse _ => "use"
  | ECTE (Some e) _ => chVerbFromStmt e
  | ECTE None _ => "with"
  | ETableIdentifier _ _ => type_verb "*parser.TableIdentifier"
  | EFunction _ _ => type_verb "*parser.FunctionExpr"
  end.

Definition chTableName (Database Table : option string) : string :=
  match Table with
  | None => ""
  | Some t =>
      match Database with
      | Some d => if negb (String.eqb d "") then ToLower (d +:+ "." +:+ t) else ToLower t
      | None => ToLower t
      end
  end.

(** [chSortedKeys], on the keys in the order a map yields them: each is sifted
    down from the end; the list is kept with its last element first. *)
Fixpoint sift (x : string) (racc : list string) : list string :=
  match racc with
  | [] => [x]
  | y :: r => if String.ltb x y then y :: sift x r else x :: racc
  end.

Definition chSortedKeys (keys : list string) : list string := rev (foldl (λ racc x, sift x racc) [] keys).

(** ** The analysis *)

Record chSQLInfo := mkChInfo {
  chi_Verb : string;
  chi_Tables : list string;
  chi_Functions : list string;
  chi_Statement : string;
  chi_UseDatabase : string
}.

Section Parse.
(** [ParseStmts] of a new parser, and the nodes [Walk] calls back with. *)
Context (parse : string -> option (list ChExpr)) (Walk : ChExpr -> list ChExpr).

(** [chWalkSQL]: the two maps. *)
Definition chWalkSQL (stmts : list ChExpr) : gset string * gset string :=
  let nodes := stmts ≫= Walk in
  (list_to_set (nodes ≫= λ n, match n with ETableIdentifier d t => [chTableName d t] | _ => [] end),
   list_to_set (nodes ≫= λ n, match n with EFunction (Some f) _ => [ToLower f] | _ => [] end)).

Definition parseChSQL (sql : string) : chSQLInfo * bool :=
  let trimmed := TrimSpace sql in
  if String.eqb trimmed "" then (mkChInfo "" [] [] sql "", false)
  else match parse (strip_trailer trimmed) with
       | Some ((first :: _) as stmts) =>
           let '(tables, funcs) := chWalkSQL stmts in
           (mkChInfo (chVerbFromStmt first) (chSortedKeys (elements tables)) (chSortedKeys (elements funcs)) sql
              (match first with EUse (Some d) => d | _ => "" end), false)
       | _ => (mkChInfo "" [] [] sql "", true)
       end.
End Parse.

Definition chSummary (info : chSQLInfo) : string :=
  let verb := if negb (String.eqb (chi_Verb info) "") then
                if negb (sqlStatementStartsWithVerb (chi_Statement info) (chi_Verb info)) then [ToUpper (chi_Verb info)] else []
              else ["UNPARSEABLE"] in
  let tables := match chi_Tables info with [] => [] | ts => ["tables=[" +:+ Join ts "," +:+ "]"] end in
  let s := chi_Statement info in
  let text := if String.eqb s "" then [] else [if (80 <? String.length s)%nat then str_take 80 s +:+ "..." else s] in
  Join (verb ++ tables ++ text) " ".

Example trailers :
  strip_trailer "SELECT 1 FORMAT JSON" = "SELECT 1" /\ strip_trailer "SELECT 1 SETTINGS a = 1, b = 2" = "SELECT 1" /\
  strip_trailer "SELECT format FROM t" = "SELECT format FROM t" /\
  strip_trailer "INSERT INTO t FORMAT CSV 1,2" = "INSERT INTO t FORMAT CSV 1,2" /\
  type_verb "*parser.CreateTable" = "create" /\ type_verb "*parser.DeleteClause" = "delete" /\
  chSortedKeys ["b"; "c"; "a"] = ["a"; "b"; "c"].
Proof. vm_compute. done. Qed.
