(* ===== verification/ChConn.v ===== *)
(** * The clickhouse frontend: [endpoints/clickhouse_native_runtime.go], [clickhouse_native_protocol.go]

    The gateway takes the agent's native-protocol session apart packet by packet:
    a query is decoded, judged, and sent on or answered with an exception; blocks
    of data are sent on. The packets' codec is a third-party library, a class of
    operations here. A byte stream is a [string]; a decoder gives a value and the
    rest of the stream. What is written to the server is kept packet by packet. *)
From S2P Require Import Prelude GoStrings NetAddr Policy Dispatch Approver Wire SqlConn PgSplit PgSql PgConn ChSql.

(** ** The codec *)

Definition Dec (A : Type) : Type := string -> result (A * string) string.

(** [ClientHello] and [ServerHello], as far as the source reads them. *)
Record ClientHello := mkClientHello {
  hello_Name : string; hello_Major : Z; hello_Minor : Z; hello_ProtocolVersion : Z;
  hello_Database : string; hello_User : string; hello_Password : string
}.

(** [ch-go/proto], [clickhouse-go/lib/proto] and [cityhash102]. *)
Class ChProto := {
  ClientCodeHello : Z; ClientCodeQuery : Z; ClientCodeData : Z; ClientCodeCancel : Z; ClientCodePing : Z;
  ClientTablesStatusRequest : Z; ClientCodeSSHChallengeRequest : Z; ClientCodeSSHChallengeResponse : Z;
  ServerCodeHello : Z; ServerCodeException : Z;
  Version : Z;
  FeatureClientWriteInfo : Z -> bool; FeatureSettingsSerializedAsStrings : Z -> bool; FeatureInterServerSecret : Z -> bool;
  FeatureParameters : Z -> bool; FeatureAddendum : Z -> bool;
  CompressionDisabled : Z; CompressionEnabled : Z; IsACompression : Z -> bool;
  rd_Str : Dec string; rd_UVarInt : Dec Z; rd_StrLen : Dec Z;
  enc_Str : string -> string; enc_Int : Z -> string; enc_ClientCode : Z -> string; enc_StageComplete : string; enc_Compression : Z -> string;
  ClientInfo : Type; rd_ClientInfo : Z -> Dec ClientInfo; enc_ClientInfo : Z -> ClientInfo -> string;
  (** settings and parameters: a key and the rest *)
  Setting : Type; rd_Setting : Dec Setting; setting_Key : Setting -> string; enc_Setting : Setting -> string;
  QueryParam : Type; rd_Parameter : Dec QueryParam; param_Key : QueryParam -> string; enc_Parameter : QueryParam -> string;
  ClientData : Type; rd_ClientData : Z -> Dec ClientData; cd_TableName : ClientData -> string; enc_ClientData : Z -> ClientData -> string;
  Block : Type; rd_Block : Z -> Dec Block; block_summary : Block -> string; enc_Block : Z -> Block -> result string string;
  rd_ClientHello : Dec ClientHello; enc_ClientHello : ClientHello -> string;
  ServerHello : Type; rd_ServerHello : Z -> Dec ServerHello; srv_Revision : ServerHello -> Z; srv_set_Revision : ServerHello -> Z -> ServerHello;
  enc_ServerHello : Z -> ServerHello -> string;
  Exception : Type; rd_Exception : Z -> Dec Exception; exc_Message : Exception -> string; enc_Exception : Z -> Exception -> string;
  access_denied : string -> Exception;
  CityHash128 : string -> Z * Z;
  (** the text of a short read, of so many bytes *)
  short_read : nat -> string -> string;
  quote_table : string -> string
}.

Section Conn.
Context {P : ChProto}.

Definition chMaxProtocolRev : Z := Version.
Definition chMaxCompressionBuffer : Z := 16 * 1024 * 1024.
Definition chMaxQueryBody : Z := 2 ^ 20.
Definition chCompressedFrameHeader : nat := 25.

Definition chValidClientCode (b : ascii) : bool :=
  existsb (Z.eqb (byte_val b)) [ClientCodeHello; ClientCodeQuery; ClientCodeData; ClientCodeCancel; ClientCodePing;
    ClientTablesStatusRequest; ClientCodeSSHChallengeRequest; ClientCodeSSHChallengeResponse].

Definition chValidCompressedMethod (b : Z) : bool := (b =? 0x82) || (b =? 0x90).

(** [chEncodeException] *)
Definition chEncodeException (displayText : string) : string :=
  String (byte_of ServerCodeException) (enc_Exception 0 (access_denied displayText)).

(** [chEmitError] *)
Definition chEmitError (cred reason detail : string) : ConnEvent :=
  mkConnEvent cred "error" reason "connect" (if negb (String.eqb detail "") then reason +:+ ": " +:+ detail else reason) "" "" "" "".

(** ** Judging a query *)

Context {W : Type} (ch : ConnHandle W) (credName : string).
Context (parse : string -> option (list ChExpr)) (Walk : ChExpr -> list ChExpr).

Definition ch_request (sql database : string) (truncated : bool) : Request :=
  let '(info, unparseable) := parseChSQL parse Walk sql in
  sql_request ch credName database (mkSqlMeta (chi_Verb info) (chi_Tables info) (chi_Functions info) (chi_Statement info) database)
    truncated unparseable.

Definition use_target (sql : string) : string := chi_UseDatabase (fst (parseChSQL parse Walk sql)).

(** The approvals, the events, the reason of a denial, and the database the
    session goes to. *)
Definition chEvaluateSQL (sql database : string) (truncated : bool) (w : W) : W * list ConnEvent * option string * string :=
  let info := fst (parseChSQL parse Walk sql) in
  let nextDB := chi_UseDatabase info in
  let event action reason rule := mkConnEvent credName action reason (chi_Verb info) (chSummary info) rule "" "" "" in
  match MatchRequestFailClosed (Some (ch_Endpoint ch)) (Some (ch_request sql database truncated)) with
  | None => (w, [event "allow" "" ""], None, nextDB)
  | Some cr =>
      let rule := rule_Name cr in
      match out_Approve (rule_Outcome cr) with
      | (_ :: _) as stages =>
          match ch_Approve ch with
          | None => (w, [event "deny" "HITL not configured" rule], Some "approval required but HITL is not configured", "")
          | Some approve =>
              let '(w', v) := approve (mkCall stages (chi_Verb info) (chSummary info) cr) w in
              if negb (String.eqb (v_Decision v) "allow") then
                let r := reason_or (v_Reason v) "denied by approver" in
                (w', [event "hitl_deny" r rule], Some r, "")
              else (w', [event "hitl_allow" "" rule], None, nextDB)
          end
      | [] =>
          if String.eqb (out_Verdict (rule_Outcome cr)) "deny" then
            let r := reason_or (out_Reason (rule_Outcome cr)) "denied by policy" in
            (w, [event "deny" r rule], Some r, "")
          else (w, [event "allow" "" rule], None, nextDB)
      end
  end.

(** ** Outputs *)

(** What the server is sent, by the packet it belongs to. *)
Inductive Sent :=
| SentQuery (db sql : string) (truncated : bool) (bytes : string)
| SentData (bytes : string)
| SentCode (c : ascii).

Record ChOut := mkChOut {
  co_state : W;
  co_sent : list Sent;
  co_agent : string;
  co_events : list ConnEvent
}.

Definition send (o : ChOut) (x : Sent) : ChOut := mkChOut (co_state o) (co_sent o ++ [x]) (co_agent o) (co_events o).
Definition answer (o : ChOut) (s : string) : ChOut := mkChOut (co_state o) (co_sent o) (co_agent o +:+ s) (co_events o).
Definition record (o : ChOut) (evs : list ConnEvent) : ChOut := mkChOut (co_state o) (co_sent o) (co_agent o) (co_events o ++ evs).
Definition set_state (o : ChOut) (w : W) : ChOut := mkChOut w (co_sent o) (co_agent o) (co_events o).
Definition fails (o : ChOut) (reason detail : string) : ChOut := record o [chEmitError credName reason detail].

(** ** Query packets *)

(** The loop over settings or parameters, up to the empty key. *)
Fixpoint rd_list {A} (rd : Dec A) (key : A -> string) (fuel : nat) (s : string) : result (list A * string) string :=
  match fuel with
  | O => Err "out of fuel"
  | S fuel' =>
      match rd s with
      | Err e => Err e
      | Ok (x, s') =>
          if String.eqb (key x) "" then Ok ([], s')
          else match rd_list rd key fuel' s' with Ok (l, s'') => Ok (x :: l, s'') | Err e => Err e end
      end
  end.

Definition enc_list {A} (enc : A -> string) (l : list A) : string := String.concat "" (enc <$> l) +:+ enc_Str "".

Definition tagged {A} (tag : string) (r : result A string) : result A string :=
  match r with Ok a => Ok a | Err e => Err (tag +:+ e) end.

(** A field that is there from some revision on, decoded and encoded again. *)
Definition when_feature (b : bool) (r : result (string * string) string) (s : string) : result (string * string) string :=
  if b then r else Ok ("", s).

(** Everything before the body: the bytes to send on, and the compression. *)
Definition query_preamble (revision : Z) (s : string) : result (string * Z * string) string :=
  let? r1 := tagged "id: " (rd_Str s) in
  let? r2 := when_feature (FeatureClientWriteInfo revision)
               (let? r := tagged "client info: " (rd_ClientInfo revision (snd r1)) in
                Ok (enc_ClientInfo revision (fst r), snd r)) (snd r1) in
  if negb (FeatureSettingsSerializedAsStrings revision) then Err "unsupported settings format"
  else
    let? r3 := tagged "setting: " (rd_list rd_Setting setting_Key (S (String.length (snd r2))) (snd r2)) in
    let? r4 := when_feature (FeatureInterServerSecret revision)
                 (let? r := tagged "inter-server secret: " (rd_Str (snd r3)) in Ok (enc_Str (fst r), snd r)) (snd r3) in
    let? r5 := tagged "stage: " (rd_UVarInt (snd r4)) in
    let? r6 := tagged "compression: " (rd_UVarInt (snd r5)) in
    if negb (IsACompression (fst r6)) then Err ("unknown compression " +:+ Itoa (Z.to_nat (fst r6)))
    else Ok (enc_ClientCode ClientCodeQuery +:+ enc_Str (fst r1) +:+ fst r2 +:+ enc_list enc_Setting (fst r3) +:+ fst r4 +:+
             enc_StageComplete +:+ enc_Compression (fst r6), fst r6, snd r6).

Inductive QueryEnd :=
| QueryFatal
| QueryNext (compression : Z) (db rest : string).

(** The parameters after the body, re-encoded. *)
Definition query_params (revision : Z) (s : string) : result (string * string) string :=
  when_feature (FeatureParameters revision)
    (let? r := tagged "parameter: " (rd_list rd_Parameter param_Key (S (String.length s)) s) in
     Ok (enc_list enc_Parameter (fst r), snd r)) s.

(** A denied query is drained off the wire and answered with an exception. *)
Definition query_denied (revision compression : Z) (db reason : string) (tail : nat) (s : string) (o : ChOut) : ChOut * QueryEnd :=
  if (String.length s <? tail)%nat then (fails o "query-drain" "body tail: EOF", QueryFatal)
  else match query_params revision (str_drop tail s) with
       | Err e => (fails o "query-drain" e, QueryFatal)
       | Ok (_, rest) => (answer o (chEncodeException reason), QueryNext compression db rest)
       end.

(** An allowed query is sent on; [head] has been read, [tail] bytes are still on
    the wire. *)
Definition query_allowed (revision compression : Z) (preamble db head : string) (bodyLen : Z) (truncated : bool) (tail : nat) (nextDB s : string) (o : ChOut)
    : ChOut * QueryEnd :=
  let bytes := preamble +:+ enc_Int bodyLen +:+ head +:+ str_take tail s in
  if (String.length s <? tail)%nat then (send o (SentQuery db head truncated bytes), QueryFatal)
  else match query_params revision (str_drop tail s) with
       | Err e => (fails (send o (SentQuery db head truncated bytes)) "query-decode" e, QueryFatal)
       | Ok (params, rest) =>
           (send o (SentQuery db head truncated (bytes +:+ params)),
            QueryNext compression (if negb (String.eqb nextDB "") then nextDB else db) rest)
       end.

Definition chHandleQuery (revision : Z) (db s : string) (o : ChOut) : ChOut * QueryEnd :=
  match query_preamble revision s with
  | Err e => (fails o "query-decode" e, QueryFatal)
  | Ok (preamble, compression, s1) =>
      match rd_StrLen s1 with
      | Err e => (fails o "query-decode" ("body length: " +:+ e), QueryFatal)
      | Ok (bodyLen, s2) =>
          let truncated := chMaxQueryBody <? bodyLen in
          let headLen := Z.to_nat (if truncated then chMaxQueryBody else bodyLen) in
          let tail := (Z.to_nat bodyLen - headLen)%nat in
          match ReadFull headLen s2 with
          | None => (fails o "query-decode" ("body head: " +:+ short_read headLen s2), QueryFatal)
          | Some (head, s3) =>
              let '(w, evs, denied, nextDB) := chEvaluateSQL head db truncated (co_state o) in
              let o := record (set_state o w) evs in
              match denied with
              | Some reason => query_denied revision compression db reason tail s3 o
              | None => query_allowed revision compression preamble db head bodyLen truncated tail nextDB s3 o
              end
          end
      end
  end.

(** ** Data packets *)

(** The payload length a frame header announces after its first byte, when the
    method and the size can be those of a frame. *)
Definition frame_payload (rest : string) : option nat :=
  let method := be_get (str_slice 15 16 rest) in
  let compSize := le_get (str_slice 16 20 rest) in
  if negb (chValidCompressedMethod method) || (compSize <? 9) || (chMaxCompressionBuffer + 9 <? compSize) then None
  else Some (Z.to_nat (compSize - 9)).

Definition corrupt_detail (rest : string) : string :=
  let method := be_get (str_slice 15 16 rest) in
  "method=0x" +:+ String (hex_digit (method / 16)) (String (hex_digit (method mod 16)) "") +:+
  " comp_size=" +:+ Itoa (Z.to_nat (le_get (str_slice 16 20 rest))).

(** The checksum of a candidate frame is right. *)
Definition frame_checksum_ok (x : ascii) (rest body : string) : bool :=
  let '(low, high) := CityHash128 (str_slice 15 24 rest +:+ body) in
  (low =? le_get (String x (str_take 7 rest))) && (high =? le_get (str_slice 7 15 rest)).

Inductive ProbeEnd := ProbeDone (rest : string) | ProbeFailed (reason detail : string) | ProbeDied | ProbeFuel.

(** [chProbeCompressedData]: the bytes sent on, their count, and how it ended.
    Rewinding gives the stream back as it was; [late s] says that the read
    deadline passes before the rest of a header has arrived from [s]. *)
Fixpoint probe_frames (late : string -> bool) (fuel : nat) (s fwd : string) : string * ProbeEnd :=
  match fuel with
  | O => (fwd, ProbeFuel)
  | S fuel' =>
      match s with
      | EmptyString => (fwd, ProbeDone "")
      | String x s1 =>
          if negb (chValidClientCode x) then
            match ReadFull (chCompressedFrameHeader - 1) s1 with
            | None => (fwd, ProbeFailed "data-frame-header" (short_read (chCompressedFrameHeader - 1) s1))
            | Some (rest, s2) =>
                match frame_payload rest with
                | None => (fwd, ProbeFailed "data-frame-corrupt" (corrupt_detail rest))
                | Some n =>
                    let fwd := fwd +:+ String x rest +:+ str_take n s2 in
                    if (String.length s2 <? n)%nat then (fwd, ProbeDied) else probe_frames late fuel' (str_drop n s2) fwd
                end
            end
          else if late s1 then (fwd, ProbeDone s)
          else
            match ReadFull (chCompressedFrameHeader - 1) s1 with
            | None => (fwd, ProbeDone s)
            | Some (rest, s2) =>
                match frame_payload rest with
                | None => (fwd, ProbeDone s)
                | Some n =>
                    match ReadFull n s2 with
                    | None => (fwd, ProbeDone s)
                    | Some (body, s3) =>
                        if negb (frame_checksum_ok x rest body) then (fwd, ProbeDone s)
                        else probe_frames late fuel' s3 (fwd +:+ String x rest +:+ body)
                    end
                end
            end
      end
  end.

Definition chProbeCompressedData (late : string -> bool) (s : string) : string * ProbeEnd :=
  probe_frames late (S (String.length s)) s "".

(** The event of a data packet that was sent on. *)
Definition data_event (summary : string) : ConnEvent := mkConnEvent credName "allow" "" "data" summary "" "" "" "".

Definition compressed_event (table : string) (total : nat) : list ConnEvent :=
  if (total =? 0)%nat then []
  else [data_event ("data table=" +:+ quote_table table +:+ " bytes=" +:+ Itoa total +:+ " (compressed)")].

(** [None] tears the connection down. *)
Definition chHandleData (late : string -> bool) (revision compression : Z) (s : string) (o : ChOut) : ChOut * option string :=
  match rd_ClientData revision s with
  | Err e => (fails o "data-header-decode" e, None)
  | Ok (hdr, s1) =>
      let head := String (byte_of ClientCodeData) (enc_ClientData revision hdr) in
      if compression =? CompressionEnabled then
        match chProbeCompressedData late s1 with
        | (fwd, ProbeDone rest) =>
            (record (send o (SentData (head +:+ fwd))) (compressed_event (cd_TableName hdr) (String.length fwd)), Some rest)
        | (fwd, ProbeFailed reason detail) => (fails (send o (SentData (head +:+ fwd))) reason detail, None)
        | (fwd, _) => (send o (SentData (head +:+ fwd)), None)
        end
      else
        match rd_Block revision s1 with
        | Err e => (fails (send o (SentData head)) "data-block-decode" e, None)
        | Ok (block, s2) =>
            let o := record o [data_event ("data table=" +:+ quote_table (cd_TableName hdr) +:+ " " +:+ block_summary block)] in
            match enc_Block revision block with
            | Err e => (fails (send o (SentData head)) "data-block-encode" e, None)
            | Ok b => (send o (SentData (head +:+ b)), Some s2)
            end
        end
  end.

(** ** The pump from agent to server *)

Fixpoint pump_packets (late : string -> bool) (revision : Z) (fuel : nat) (compression : Z) (db s : string) (o : ChOut) : option ChOut :=
  match fuel with
  | O => None
  | S fuel' =>
      match s with
      | EmptyString => Some o
      | String c s1 =>
          let code := byte_val c in
          if code =? ClientCodeQuery then
            match chHandleQuery revision db s1 o with
            | (o, QueryFatal) => Some o
            | (o, QueryNext comp db rest) => pump_packets late revision fuel' comp db rest o
            end
          else if code =? ClientCodeData then
            match chHandleData late revision compression s1 o with
            | (o, None) => Some o
            | (o, Some rest) => pump_packets late revision fuel' compression db rest o
            end
          else if (code =? ClientCodeCancel) || (code =? ClientCodePing) then
            pump_packets late revision fuel' compression db s1 (send o (SentCode c))
          else Some (fails o "unknown-client-packet" (Itoa (Z.to_nat code)))
      end
  end.

Definition chAgentToServer (late : string -> bool) (revision : Z) (database s : string) (o : ChOut) : option ChOut :=
  pump_packets late revision (S (String.length s)) CompressionDisabled database s o.

(** ** The handshake *)

Record ChHello := mkChHello {
  ch_ClientName : string; ch_VersionMajor : Z; ch_VersionMinor : Z; ch_ProtocolRevision : Z;
  ch_Database : string; ch_Username : string; ch_Password : string
}.

Definition chReadHello (s : string) : result (ChHello * string) string :=
  match s with
  | EmptyString => Err "read packet code: EOF"
  | String c s1 =>
      if negb (byte_val c =? ClientCodeHello) then Err ("clickhouse: not a Hello packet (code=" +:+ Itoa (Z.to_nat (byte_val c)) +:+ ")")
      else
        let? r := tagged "decode client hello: " (rd_ClientHello s1) in
        let h := fst r in
        let rev := if chMaxProtocolRev <? hello_ProtocolVersion h then chMaxProtocolRev else hello_ProtocolVersion h in
        Ok (mkChHello (hello_Name h) (hello_Major h) (hello_Minor h) rev (hello_Database h) (hello_User h) (hello_Password h), snd r)
  end.

Definition chEncodeHello (h : ChHello) : string :=
  enc_ClientHello (mkClientHello (ch_ClientName h) (ch_VersionMajor h) (ch_VersionMinor h) (ch_ProtocolRevision h)
                     (ch_Database h) (ch_Username h) (ch_Password h)).

(** [chReadAndForwardServerHello]: what the agent is sent, and the negotiated
    revision with the rest of the server's stream or the error. *)
Definition chReadAndForwardServerHello (clientRev : Z) (s : string) : string * result (Z * string) string :=
  match s with
  | EmptyString => ("", Err "read server packet code: EOF")
  | String c s1 =>
      if byte_val c =? ServerCodeException then
        match rd_Exception clientRev s1 with
        | Err e => ("", Err ("decode server exception: " +:+ e))
        | Ok (exc, _) =>
            (String (byte_of ServerCodeException) (enc_Exception clientRev exc), Err ("server returned exception: " +:+ exc_Message exc))
        end
      else if byte_val c =? ServerCodeHello then
        match rd_ServerHello clientRev s1 with
        | Err e => ("", Err ("decode server hello: " +:+ e))
        | Ok (srv, s2) =>
            let srv := if chMaxProtocolRev <? srv_Revision srv then srv_set_Revision srv chMaxProtocolRev else srv in
            (enc_ServerHello clientRev srv, Ok (if srv_Revision srv <? clientRev then srv_Revision srv else clientRev, s2))
        end
      else ("", Err ("clickhouse: unexpected server packet code " +:+ Itoa (Z.to_nat (byte_val c)) +:+ " during handshake"))
  end.

(** [chForwardClientAddendum]: what the server is sent, and the rest. *)
Definition chForwardClientAddendum (negotiatedRev : Z) (s : string) : result (string * string) string :=
  if negb (FeatureAddendum negotiatedRev) then Ok ("", s)
  else let? r := tagged "read client addendum quota_key: " (rd_Str s) in Ok (enc_Str (fst r), snd r).

(** A session after the hello: what the agent and the server were sent in the
    handshake, what is copied from server to agent, and how the pump ended. *)
Record ChSession := mkChSession {
  cs_agent : string;
  cs_upstream : string;
  cs_relayed : string;
  cs_out : option ChOut
}.

Definition chRunSession (late : string -> bool) (clientRev : Z) (database agentBytes upBytes : string) (o : ChOut) : ChSession :=
  match chReadAndForwardServerHello clientRev upBytes with
  | (agent, Err e) => mkChSession agent "" "" (Some (fails o "server-hello" e))
  | (agent, Ok (rev, relayed)) =>
      match chForwardClientAddendum rev agentBytes with
      | Err e => mkChSession agent "" relayed (Some (fails o "client-addendum" e))
      | Ok (addendum, rest) => mkChSession agent addendum relayed (chAgentToServer late rev database rest o)
      end
  end.
End Conn.
Arguments mkChOut {W} _ _ _ _.
Arguments co_state {W} _.
Arguments co_sent {W} _.
Arguments co_agent {W} _.
Arguments co_events {W} _.
Arguments mkChSession {W} _ _ _ _.
Arguments cs_agent {W} _.
Arguments cs_upstream {W} _.
Arguments cs_relayed {W} _.
Arguments cs_out {W} _.

(** ** The endpoint *)

Record ClickhouseNativeEndpoint := mkChEndpoint {
  che_Hosts : list string;
  che_Port : Z;
  che_TLS : bool;
  che_AcceptInvalidCertificate : bool
}.

Definition ch_port (e : ClickhouseNativeEndpoint) : Z :=
  if 0 <? che_Port e then che_Port e else if che_TLS e then 9440 else 9000.

Definition ch_EndpointHosts (e : ClickhouseNativeEndpoint) : list string :=
  (λ h, match net_SplitHostPort h with Ok _ => h | Err _ => h +:+ ":" +:+ Itoa (Z.to_nat (ch_port e)) end) <$> che_Hosts e.

Definition chPickUpstream (hosts : list string) (upstreamHost : string) (dstPort : Z) (defaultPort : Z) : string :=
  let want := Itoa (Z.to_nat dstPort) in
  let declared h := match net_SplitHostPort h with Ok (_, p) => String.eqb p want | Err _ => false end in
  let first :=
    match List.find (λ h, negb (String.eqb h "")) hosts with
    | Some h => match net_SplitHostPort h with Ok _ => h | Err _ => net_JoinHostPort h (Itoa (Z.to_nat defaultPort)) end
    | None => ""
    end in
  if negb (String.eqb upstreamHost "") && negb (dstPort =? 0) then net_JoinHostPort upstreamHost want
  else if negb (dstPort =? 0) then
    match List.find (λ h, negb (String.eqb h "") && declared h) hosts with Some h => h | None => first end
  else first.

Definition chHostPort (addr : string) : string * Z :=
  match net_SplitHostPort addr with
  | Err _ => (addr, 0)
  | Ok (h, p) => (h, match Atoi p with Some n => n | None => 0 end)
  end.

(** [ClickhouseNativeEndpointRuntime.DetectPlaceholder] *)
Definition ch_DetectPlaceholder (req : option Request) (candidates : list string) : string :=
  match req with
  | Some r =>
      match req_Meta r with
      | MetaSql m => default "" (List.find (λ c, negb (String.eqb c "") && Contains (sql_Statement m) c) candidates)
      | _ => ""
      end
  | None => ""
  end.

(** [ClickhouseCredential.ClickhouseAuth] *)
Definition ClickhouseAuth (user : string) (sec : Secret) : string * string := (user, sec_Bytes sec).

(** ** The connection *)

Section Handle.
Context {P : ChProto} {W : Type} (ch : ConnHandle W) (body : option ClickhouseNativeEndpoint) (UpstreamHost : string) (DstPort : Z).
Context (parse : string -> option (list ChExpr)) (Walk : ChExpr -> list ChExpr) (late : string -> bool).

(** The credential body as a [ClickhouseAuthCredential], the secret store, the
    dialler; TLS with the agent (absent without a certificate authority) for a
    fallback name, and with the server for a name, checking the certificate or
    not: the streams inside. *)
Context (clickhouse_auth : Entity -> option (Secret -> string * string)) (secrets : string -> result Secret string)
  (dial : string -> result string string) (inbound_tls : option (string -> string -> result string string))
  (upstream_tls : string -> bool -> string -> result string string).

(** How a connection ended: before the session, with the events so far, or in
    it, with the hello the server was sent. *)
Inductive ChEnd :=
| ChRefused (events : list ConnEvent)
| ChServed (hello : string) (events : list ConnEvent) (session : ChSession (W := W)).

Definition hello_request (h : ChHello) : Request :=
  mkRequest "sql" "" "" (ch_Database h) (ch_Username h) "" None [] ""
    (MetaSql (mkSqlMeta "" [] [] (ch_Username h +:+ nul_str +:+ ch_Password h) "")) false false.

(** The hello with the credential in it, whose name is stamped on every event
    from then on; [Err] names the failure. *)
Definition inject_hello (h : ChHello) : result (string * ChHello) (string * string * string) :=
  match ResolveCredential (ch_Policy ch) (ch_Profile ch) (Some (ch_Endpoint ch)) (Some (hello_request h)) with
  | None => Ok ("", h)
  | Some cc =>
      let name := ent_Name (cc_Credential cc) in
      match clickhouse_auth (cc_Credential cc) with
      | None => Err (name, "credential-not-clickhouse-auth", name)
      | Some auth =>
          match secrets name with
          | Err e => Err (name, "secret-fetch", name +:+ ": " +:+ e)
          | Ok sec =>
              let '(user, password) := auth sec in
              if String.eqb user "" || String.eqb password "" then Err (name, "secret-empty", name)
              else Ok (name, mkChHello (ch_ClientName h) (ch_VersionMajor h) (ch_VersionMinor h) (ch_ProtocolRevision h)
                                (ch_Database h) user password)
          end
      end
  end.

(** The event of a connection. *)
Definition connect_event (cred addr : string) (before after : ChHello) : ConnEvent :=
  let database := if String.eqb (ch_Database after) "" then "default" else ch_Database after in
  let '(host, port) := chHostPort addr in
  let injected := negb (String.eqb (ch_Username after +:+ nul_str +:+ ch_Password after) (ch_Username before +:+ nul_str +:+ ch_Password before)) in
  mkConnEvent cred "allow" "" "connect"
    (ch_Username after +:+ "@" +:+ host +:+ ":" +:+ Itoa (Z.to_nat port) +:+ "/" +:+ database +:+
     (if injected then " (placeholder injected)" else "")) "" "" "" "".

(** From the agent's plaintext stream on. *)
Definition ch_serve (e : ClickhouseNativeEndpoint) (addr s : string) (w : W) : ChEnd :=
  match chReadHello s with
  | Err err => ChRefused [chEmitError "" "read-hello" err]
  | Ok (h, rest) =>
      match inject_hello h with
      | Err (cred, reason, detail) => ChRefused [chEmitError cred reason detail]
      | Ok (cred, h') =>
          match dial addr with
          | Err err => ChRefused [chEmitError cred "dial-upstream" (addr +:+ ": " +:+ err)]
          | Ok raw =>
              let host := match net_SplitHostPort addr with Ok (h, _) => h | Err _ => addr end in
              match (if che_TLS e then upstream_tls host (negb (che_AcceptInvalidCertificate e)) raw else Ok raw) with
              | Err err => ChRefused [chEmitError cred "tls-handshake" err]
              | Ok up =>
                  ChServed (chEncodeHello h') [connect_event cred addr h h']
                    (chRunSession ch cred parse Walk late (ch_ProtocolRevision h') (ch_Database h') rest up (mkChOut w [] "" []))
              end
          end
      end
  end.

(** [ClickhouseNativeEndpointRuntime.HandleConn] *)
Definition ch_HandleConn (s : string) (w : W) : ChEnd :=
  let ep := ch_Endpoint ch in
  if negb (String.eqb (ep_Family ep) "sql") then ChRefused [chEmitError "" "wrong-family" ""]
  else match body with
       | None => ChRefused [chEmitError "" "wrong-endpoint-type" (ep_Name ep)]
       | Some e =>
           let addr := chPickUpstream (ep_Hosts ep) UpstreamHost DstPort (ch_port e) in
           if String.eqb addr "" then ChRefused [chEmitError "" "no-host" (ep_Name ep)]
           else match inbound_tls with
                | Some tls =>
                    if che_TLS e then
                      let fallback := if String.eqb UpstreamHost "" then fst (chHostPort addr) else UpstreamHost in
                      match tls fallback s with
                      | Err err => ChRefused [chEmitError "" "inbound-tls-handshake" err]
                      | Ok plain => ch_serve e addr plain w
                      end
                    else ch_serve e addr s w
                | None => ch_serve e addr s w
                end
       end.
End Handle.
