(* ===== verification/ChProps.v ===== *)
(** * The clickhouse frontend sends on what the rules clear

    The probe of compressed data loses no byte and finds the packet boundary;
    every query that reaches the server was judged, under the database the
    session was in; and two ways a query is not seen as what it is. *)
From S2P Require Import Prelude GoStrings NetAddr Policy Dispatch Approver Wire SqlConn PgSplit PgSql PgConn PgProps ChSql ChConn.

(** ** Sorted names *)

Lemma sift_perm x l : sift x l ≡ₚ x :: l.
Proof.
  induction l as [|y l IH]; cbn; [done|]. destruct (String.ltb x y); [|done]. rewrite IH. apply Permutation_swap.
Qed.

Lemma chSortedKeys_perm l : chSortedKeys l ≡ₚ l.
Proof.
  unfold chSortedKeys. rewrite <- Permutation_rev.
  assert (∀ acc, foldl (λ racc x, sift x racc) acc l ≡ₚ l ++ acc) as H; [|by rewrite H, app_nil_r].
  induction l as [|x l IH]; intros acc; cbn; [done|]. rewrite IH, sift_perm. symmetry. apply Permutation_middle.
Qed.

(** ** The probe *)

Section Probe.
Context {P : ChProto}.

(** The bytes of a compressed frame: checksum, method, sizes, payload. *)
Definition frame_ok (f : string) : Prop :=
  ∃ x rest body, f = String x (rest +:+ body) ∧ String.length rest = (chCompressedFrameHeader - 1)%nat ∧
    frame_payload rest = Some (String.length body) ∧ frame_checksum_ok x rest body = true.

(** The stream goes on with a packet: a client code that does not start a frame. *)
Definition packet_next (p : string) : Prop :=
  match p with
  | EmptyString => True
  | String x s1 =>
      chValidClientCode x = true ∧
      ∀ rest s2 n body s3,
        ReadFull (chCompressedFrameHeader - 1) s1 = Some (rest, s2) → frame_payload rest = Some n →
        ReadFull n s2 = Some (body, s3) → frame_checksum_ok x rest body = false
  end.

(** A frame as the probe knows it: the header announces the payload, and the
    checksum is right when the first byte could start a packet. The last one may
    be cut by the end of the stream, if its first byte starts no packet. *)
Definition frame_shaped (f : string) : Prop :=
  ∃ x rest body, f = String x (rest +:+ body) ∧ String.length rest = (chCompressedFrameHeader - 1)%nat ∧
    frame_payload rest = Some (String.length body) ∧ (chValidClientCode x = true → frame_checksum_ok x rest body = true).

Definition frame_cut (f : string) : Prop :=
  ∃ x rest body n, f = String x (rest +:+ body) ∧ String.length rest = (chCompressedFrameHeader - 1)%nat ∧
    frame_payload rest = Some n ∧ (String.length body < n)%nat ∧ chValidClientCode x = false.

Definition frames_only (bytes : string) : Prop :=
  ∃ fs cut, bytes = stream fs +:+ cut ∧ Forall frame_shaped fs ∧ (cut = "" ∨ frame_cut cut).

Lemma frames_only_cons f bytes : frame_shaped f → frames_only bytes → frames_only (f +:+ bytes).
Proof.
  intros Hf (fs & cut & -> & Hfs & Hc). exists (f :: fs), cut. rewrite stream_cons, str_app_assoc. split_and!; [done|by constructor|done].
Qed.

Lemma frames_only_nil : frames_only "".
Proof. exists [], "". by split_and!; [|constructor|left]. Qed.

(** The probe sends on nothing but frames. *)
Lemma probe_frames_only late fuel s fwd fwd' e :
  probe_frames late fuel s fwd = (fwd', e) → ∃ g, fwd' = fwd +:+ g ∧ frames_only g.
Proof.
  revert s fwd. induction fuel as [|fuel IH]; intros s fwd; cbn [probe_frames].
  { intros [= <- _]. exists "". rewrite str_app_nil_r. split; [done|apply frames_only_nil]. }
  assert (fwd' = fwd → ∃ g, fwd' = fwd +:+ g ∧ frames_only g) as Hsame.
  { intros ->. exists "". rewrite str_app_nil_r. split; [done|apply frames_only_nil]. }
  assert (∀ f s', frame_shaped f → probe_frames late fuel s' (fwd +:+ f) = (fwd', e) →
    ∃ g, fwd' = fwd +:+ g ∧ frames_only g) as Hstep.
  { intros f s' Hf (g & -> & Hg)%IH. exists (f +:+ g). rewrite str_app_assoc. split; [done|by apply frames_only_cons]. }
  destruct s as [|x s1]; [intros [= <- _]; by apply Hsame|].
  destruct (chValidClientCode x) eqn:Ex; cbn [negb].
  - destruct (late s1); [intros [= <- _]; by apply Hsame|].
    destruct (ReadFull _ s1) as [[rest s2]|] eqn:Er; [|intros [= <- _]; by apply Hsame].
    apply ReadFull_Some in Er as [-> Hl]. destruct (frame_payload rest) as [n|] eqn:En; [|intros [= <- _]; by apply Hsame].
    destruct (ReadFull n s2) as [[b s3]|] eqn:Eb; [|intros [= <- _]; by apply Hsame].
    destruct (frame_checksum_ok x rest b) eqn:Ec; [|intros [= <- _]; by apply Hsame]. apply ReadFull_Some in Eb as [-> Hb].
    apply Hstep. exists x, rest, b. rewrite Hb. by split_and!.
  - destruct (ReadFull _ s1) as [[rest s2]|] eqn:Er; [|intros [= <- _]; by apply Hsame].
    apply ReadFull_Some in Er as [-> Hl]. destruct (frame_payload rest) as [n|] eqn:En; [|intros [= <- _]; by apply Hsame].
    destruct (_ <? _)%nat eqn:El; bprop.
    + intros [= <- _]. exists (String x rest +:+ str_take n s2). split; [done|].
      exists [], (String x rest +:+ str_take n s2). split_and!; [done|constructor|]. right.
      exists x, rest, (str_take n s2), n. rewrite str_take_all by lia. by split_and!.
    + apply Hstep. exists x, rest, (str_take n s2). split_and!; [done|done|by rewrite str_length_take by lia|].
      by rewrite Ex.
Qed.

(** What was sent on and what is left make up the stream. *)
Lemma probe_conserves late fuel s fwd fwd' e :
  probe_frames late fuel s fwd = (fwd', e) →
  ∃ g, fwd' = fwd +:+ g ∧ match e with ProbeDone rest => s = g +:+ rest | _ => ∃ rest, s = g +:+ rest end.
Proof.
  revert s fwd. induction fuel as [|fuel IH]; intros s fwd; cbn [probe_frames].
  { intros [= <- <-]. exists "". rewrite str_app_nil_r. by eauto. }
  assert (∀ g rest, fwd' = fwd +:+ g → s = g +:+ rest → ∃ g, fwd' = fwd +:+ g ∧ ∃ rest, s = g +:+ rest) as Hpre by eauto.
  assert (fwd' = fwd → ∃ g, fwd' = fwd +:+ g ∧ s = g +:+ s) as Hsame.
  { intros ->. exists "". by rewrite str_app_nil_r. }
  assert (∀ n s2 r1, s = r1 +:+ s2 → (n <= String.length s2)%nat →
    probe_frames late fuel (str_drop n s2) (fwd +:+ r1 +:+ str_take n s2) = (fwd', e) →
    ∃ g, fwd' = fwd +:+ g ∧ match e with ProbeDone rest => s = g +:+ rest | _ => ∃ rest, s = g +:+ rest end) as Hstep.
  { intros n s2 r1 Hs Hn [g [-> Hg]]%IH. exists ((r1 +:+ str_take n s2) +:+ g). rewrite !str_app_assoc. split; [done|].
    assert (∀ rest, str_drop n s2 = g +:+ rest → s = ((r1 +:+ str_take n s2) +:+ g) +:+ rest) as Hjoin.
    { intros rest Hr. rewrite Hs, !str_app_assoc, <- Hr, str_take_drop. done. }
    rewrite <- str_app_assoc. destruct e; [by apply Hjoin|..]; destruct Hg as [rest Hg]; exists rest; by apply Hjoin. }
  destruct s as [|x s1]; [intros [= <- <-]; by apply Hsame|].
  destruct (negb (chValidClientCode x)).
  - destruct (ReadFull _ s1) as [[rest s2]|] eqn:Er; [|intros [= <- <-]; destruct Hsame as (g & ? & ?); eauto].
    apply ReadFull_Some in Er as [-> Hl]. destruct (frame_payload rest) as [n|]; [|intros [= <- <-]; destruct Hsame as (g & ? & ?); eauto].
    destruct (_ <? _)%nat eqn:El; bprop.
    + intros [= <- <-]. exists (String x rest +:+ str_take n s2). split; [done|]. exists "".
      rewrite str_app_nil_r, str_take_all by lia. done.
    + by apply Hstep.
  - destruct (late s1); [intros [= <- <-]; by apply Hsame|].
    destruct (ReadFull _ s1) as [[rest s2]|] eqn:Er; [|intros [= <- <-]; by apply Hsame].
    apply ReadFull_Some in Er as [-> Hl]. destruct (frame_payload rest) as [n|]; [|intros [= <- <-]; by apply Hsame].
    destruct (ReadFull n s2) as [[b s3]|] eqn:Eb; [|intros [= <- <-]; by apply Hsame].
    destruct (negb _); [intros [= <- <-]; by apply Hsame|].
    apply ReadFull_Some in Eb as [-> Hb]. intros H. eapply (Hstep n (b +:+ s3) (String x rest)); [done|rewrite str_length_app; lia|].
    rewrite <- Hb at 1. rewrite str_drop_app. rewrite <- Hb at 1. by rewrite str_take_app.
Qed.

Lemma probe_frame late fuel f s fwd :
  frame_ok f → (∀ s, late s = false) → probe_frames late (S fuel) (f +:+ s) fwd = probe_frames late fuel s (fwd +:+ f).
Proof.
  intros (x & rest & body & -> & Hl & Hn & Hc) Hlate. cbn [probe_frames String.append]. rewrite str_app_assoc, <- Hl, ReadFull_app, Hn, Hlate.
  rewrite ReadFull_app, Hc. cbn [negb].
  rewrite str_length_app, (proj2 (Nat.ltb_ge _ _)), str_take_app, str_drop_app by lia. by destruct (negb _).
Qed.

Lemma probe_packet late fuel p fwd :
  packet_next p → (∀ s, late s = false) → probe_frames late (S fuel) p fwd = (fwd, ProbeDone p).
Proof.
  intros Hp Hlate. cbn [probe_frames]. destruct p as [|x s1]; [done|]. destruct Hp as [-> Hno]. cbn [negb]. rewrite Hlate.
  destruct (ReadFull _ s1) as [[rest s2]|] eqn:Er; [|done]. destruct (frame_payload rest) as [n|] eqn:En; [|done].
  destruct (ReadFull n s2) as [[b s3]|] eqn:Eb; [|done]. by rewrite (Hno _ _ _ _ _ eq_refl En Eb).
Qed.

Lemma probe_chain late fuel fs p fwd :
  Forall frame_ok fs → packet_next p → (∀ s, late s = false) → (length fs < fuel)%nat →
  probe_frames late fuel (stream fs +:+ p) fwd = (fwd +:+ stream fs, ProbeDone p).
Proof.
  intros Hf Hp Hl. revert fuel fwd. induction Hf as [|f fs Hf Hfs IH]; intros [|fuel] fwd Hlen; cbn in Hlen; try lia.
  - cbn [stream String.concat]. cbn [String.append]. rewrite (probe_packet late fuel p fwd Hp Hl). by rewrite str_app_nil_r.
  - rewrite stream_cons, str_app_assoc, probe_frame by done. rewrite IH by lia. by rewrite str_app_assoc.
Qed.

Lemma frame_ok_length f : frame_ok f → (0 < String.length f)%nat.
Proof. intros (x & rest & body & -> & _). cbn. lia. Qed.

Lemma frame_chain_length fs : Forall frame_ok fs → (length fs <= String.length (stream fs))%nat.
Proof.
  induction 1 as [|f fs Hf _ IH]; [done|]. rewrite stream_cons, str_length_app. cbn.
  pose proof (frame_ok_length f Hf). lia.
Qed.
End Probe.

(** After the header of a compressed data packet come its frames and then the
    next packet: the probe sends on the frames, byte for byte, and leaves the
    pump at the next packet, whose first byte it had to read to tell. *)
Theorem ch_probe_exact {P : ChProto} fs p :
  Forall frame_ok fs → packet_next p →
  chProbeCompressedData (λ _, false) (stream fs +:+ p) = (stream fs, ProbeDone p).
Proof.
  intros Hf Hp. unfold chProbeCompressedData. rewrite probe_chain; [done..|].
  rewrite str_length_app. pose proof (frame_chain_length fs Hf). lia.
Qed.

(** ** Clearance *)

(** A decoder does not add to the stream; one that is called in a loop takes
    something off it. *)
Definition shrinks {A} (rd : Dec A) : Prop := ∀ s x s', rd s = Ok (x, s') → (String.length s' <= String.length s)%nat.
Definition consumes {A} (rd : Dec A) : Prop := ∀ s x s', rd s = Ok (x, s') → (String.length s' < String.length s)%nat.

Class ChProtoLaws (P : ChProto) : Prop := {
  Str_shrinks : shrinks rd_Str;
  UVarInt_shrinks : shrinks rd_UVarInt;
  StrLen_shrinks : shrinks rd_StrLen;
  ClientInfo_shrinks rev : shrinks (rd_ClientInfo rev);
  ClientData_shrinks rev : shrinks (rd_ClientData rev);
  Block_shrinks rev : shrinks (rd_Block rev);
  Setting_consumes : consumes rd_Setting;
  Parameter_consumes : consumes rd_Parameter
}.

Lemma rd_list_shrinks {A} (rd : Dec A) key fuel : consumes rd → shrinks (rd_list rd key fuel).
Proof.
  intros Hc. induction fuel as [|fuel IH]; intros s x s'; cbn [rd_list]; [done|].
  destruct (rd s) as [[y s1]|e] eqn:E; [|done]. apply Hc in E. destruct (String.eqb _ _); [intros [= <- <-]; lia|].
  destruct (rd_list rd key fuel s1) as [[l s2]|e] eqn:El; [|done]. apply IH in El. intros [= <- <-]. lia.
Qed.

(** The fuel of the loops over settings and parameters is enough. *)
Lemma rd_list_fuel {A} (rd : Dec A) key f1 f2 s :
  consumes rd → (String.length s < f1)%nat → (String.length s < f2)%nat → rd_list rd key f1 s = rd_list rd key f2 s.
Proof.
  intros Hc. revert f2 s. induction f1 as [|f1 IH]; intros [|f2] s H1 H2; try lia. cbn [rd_list].
  destruct (rd s) as [[y s1]|e] eqn:E; [|done]. apply Hc in E. destruct (String.eqb _ _); [done|].
  by rewrite (IH f2 s1) by lia.
Qed.

Lemma tagged_Ok {A} tag (r : result A string) a : tagged tag r = Ok a → r = Ok a.
Proof. destruct r; by intros [=->]. Qed.

Section Clear.
Context {P : ChProto} {W : Type} (ch : ConnHandle W) (credName : string).
Context (parse : string -> option (list ChExpr)) (Walk : ChExpr -> list ChExpr) (revision : Z).

Notation evaluates := (chEvaluateSQL ch credName parse Walk).
Notation request := (ch_request ch credName parse Walk).

Lemma chEvaluateSQL_cleared sql db truncated w w' evs next :
  evaluates sql db truncated w = (w', evs, None, next) → cleared ch (request sql db truncated) ∧ next = use_target parse Walk sql.
Proof.
  unfold chEvaluateSQL. fold (use_target parse Walk sql).
  destruct (MatchRequestFailClosed _ _) as [cr|] eqn:Ec; [|intros [= <- <- <-]; split; [by constructor|done]].
  destruct (out_Approve (rule_Outcome cr)) as [|st sts] eqn:Ea.
  - destruct (String.eqb _ _) eqn:Ev; [done|]. bprop. intros [= <- <- <-]. split; [by eapply cleared_rule|done].
  - destruct (ch_Approve ch) as [ap|] eqn:Eap; [|done]. destruct (ap _ w) as [w1 v] eqn:Ev.
    destruct (negb _) eqn:Ed; [done|]. bprop. intros [= <- <- <-]. split; [|done].
    eapply (cleared_approved _ _ cr ap (mkCall (st :: sts) _ _ cr) w); try done.
    + by rewrite Ea.
    + by rewrite Ev.
Qed.

(** The database a session is in after an allowed query. *)
Definition db_next (db sql : string) : string :=
  let t := use_target parse Walk sql in if negb (String.eqb t "") then t else db.

(** The bytes of a data packet: its code and header, and then nothing, the block
    that was decoded, encoded again, or compressed frames. *)
Definition data_ok (bytes : string) : Prop :=
  ∃ hdr tail, bytes = String (byte_of ClientCodeData) (enc_ClientData revision hdr) +:+ tail ∧
    (tail = "" ∨ (∃ block, enc_Block revision block = Ok tail) ∨ frames_only tail).

(** Every query was cleared for the database the session was in when it came,
    and the text that was judged is the text that was sent, or the first MiB of
    a longer one, judged as truncated. The rest is data packets, pings and
    cancels. *)
Fixpoint sent_ok (db : string) (l : list Sent) : Prop :=
  match l with
  | [] => True
  | SentQuery d sql truncated bytes :: l' =>
      d = db ∧ cleared ch (request sql db truncated) ∧
      (∃ pre n tail, bytes = pre +:+ enc_Int n +:+ sql +:+ tail ∧
         (truncated = false → Z.to_nat n = String.length sql) ∧
         (truncated = true → 2 ^ 20 < n ∧ Z.of_nat (String.length sql) = 2 ^ 20)) ∧
      sent_ok (db_next db sql) l'
  | SentData bytes :: l' => data_ok bytes ∧ sent_ok db l'
  | SentCode c :: l' => (byte_val c = ClientCodeCancel ∨ byte_val c = ClientCodePing) ∧ sent_ok db l'
  end.

Definition db_after (db : string) (l : list Sent) : string :=
  foldl (λ d x, match x with SentQuery _ sql _ _ => db_next d sql | _ => d end) db l.

Lemma sent_ok_app db l1 l2 : sent_ok db (l1 ++ l2) ↔ sent_ok db l1 ∧ sent_ok (db_after db l1) l2.
Proof.
  revert db. induction l1 as [|[d sql tr bs|bs|c] l1 IH]; intros db; cbn [sent_ok app]; [cbn; tauto|..]; rewrite IH; cbn; tauto.
Qed.

(** What one packet adds. *)
Definition adds (db : string) (o o' : ChOut (W := W)) (db' : string) : Prop :=
  ∃ l, co_sent o' = co_sent o ++ l ∧ sent_ok db l ∧ db_after db l = db'.

Lemma adds_nothing db o o' : co_sent o' = co_sent o → adds db o o' db.
Proof. intros H. exists []. by rewrite app_nil_r. Qed.

Lemma adds_one db o o' x : co_sent o' = co_sent o ++ [x] → sent_ok db [x] → adds db o o' (db_after db [x]).
Proof. intros H Hx. by exists [x]. Qed.

Lemma chHandleQuery_adds db s o o' e :
  chHandleQuery ch credName parse Walk revision db s o = (o', e) →
  ∃ db', adds db o o' db' ∧ match e with QueryNext _ d _ => d = db' | QueryFatal => True end.
Proof.
  assert (∀ x reason detail, co_sent (fails credName x reason detail) = co_sent (W := W) x) as Hfails by done.
  unfold chHandleQuery. destruct (query_preamble revision s) as [[[pre comp] s1]|err];
    [|intros [= <- <-]; exists db; split; [by apply adds_nothing|done]].
  destruct (rd_StrLen s1) as [[n s2]|err]; [|intros [= <- <-]; exists db; split; [by apply adds_nothing|done]].
  set (tr := chMaxQueryBody <? n). set (hl := Z.to_nat (if tr then chMaxQueryBody else n)).
  destruct (ReadFull hl s2) as [[head s3]|] eqn:Er; [|intros [= <- <-]; exists db; split; [by apply adds_nothing|done]].
  apply ReadFull_Some in Er as [_ Hhl].
  destruct (evaluates head db tr (co_state o)) as [[[w evs] [reason|]] next] eqn:Ee.
  - unfold query_denied. destruct (_ <? _)%nat; [intros [= <- <-]; exists db; split; [by apply adds_nothing|done]|].
    destruct (query_params _ _) as [[ps rest]|err]; intros [= <- <-]; exists db; (split; [by apply adds_nothing|done]).
  - apply chEvaluateSQL_cleared in Ee as [Hc ->]. unfold query_allowed.
    set (tail := (Z.to_nat n - hl)%nat). set (bytes := pre +:+ enc_Int n +:+ head +:+ str_take tail s3).
    assert (∀ more, sent_ok db [SentQuery db head tr (bytes +:+ more)]) as Hq.
    { intros more. cbn [sent_ok]. split_and!; [done|done| |done]. exists pre, n, (str_take tail s3 +:+ more).
      unfold bytes. rewrite !str_app_assoc. split_and!; [done|..]; unfold tr; intros Htr.
      - rewrite Hhl. unfold hl, tr. by rewrite Htr.
      - split; [by apply Z.ltb_lt in Htr|]. rewrite Hhl. unfold hl, tr. rewrite Htr. by apply (Z2Nat.id (2 ^ 20)). }
    destruct (_ <? _)%nat.
    { intros [= <- <-]. eexists. split; [|done]. apply (adds_one _ _ _ (SentQuery db head tr bytes)); [done|].
      rewrite <- (str_app_nil_r bytes). apply Hq. }
    destruct (query_params _ _) as [[ps rest]|err]; intros [= <- <-]; eexists.
    + split; [apply (adds_one _ _ _ (SentQuery db head tr (bytes +:+ ps))); [done|apply Hq]|]. done.
    + split; [|done]. apply (adds_one _ _ _ (SentQuery db head tr bytes)); [done|].
      rewrite <- (str_app_nil_r bytes). apply Hq.
Qed.

Lemma chHandleData_adds late comp db s o o' e :
  chHandleData credName late revision comp s o = (o', e) → adds db o o' db.
Proof.
  unfold chHandleData. destruct (rd_ClientData revision s) as [[hdr s1]|err]; [|intros [= <- <-]; by apply adds_nothing].
  set (head := String _ _).
  assert (∀ o' tail, co_sent o' = co_sent o ++ [SentData (head +:+ tail)] →
    (tail = "" ∨ (∃ block, enc_Block revision block = Ok tail) ∨ frames_only tail) → adds db o o' db) as Hd.
  { intros o1 tail Ho Ht. exists [SentData (head +:+ tail)]. split_and!; [done| |done]. split; [|done]. by exists hdr, tail. }
  assert (∀ o', co_sent o' = co_sent o ++ [SentData head] → adds db o o' db) as Hh.
  { intros o1 Ho. eapply (Hd _ ""); [by rewrite str_app_nil_r|by left]. }
  destruct (comp =? CompressionEnabled).
  - destruct (chProbeCompressedData late s1) as [fwd e1] eqn:Ep. apply probe_frames_only in Ep as (g & -> & Hg).
    destruct e1 as [rest|reason detail| |]; intros [= <- <-]; (eapply Hd; [done|auto]).
  - destruct (rd_Block revision s1) as [[b s2]|err]; [|intros [= <- <-]; by apply Hh].
    destruct (enc_Block revision b) eqn:Eb; intros [= <- <-]; [eapply Hd; eauto|by apply Hh].
Qed.

Lemma pump_sent_ok late fuel comp db0 db s o o' :
  pump_packets ch credName parse Walk late revision fuel comp db s o = Some o' →
  sent_ok db0 (co_sent o) → db = db_after db0 (co_sent o) → sent_ok db0 (co_sent o').
Proof.
  revert comp db s o. induction fuel as [|fuel IH]; intros comp db s o; cbn [pump_packets]; [done|].
  assert (∀ o1 db1, adds db o o1 db1 → sent_ok db0 (co_sent o) → db = db_after db0 (co_sent o) →
    sent_ok db0 (co_sent o1) ∧ db1 = db_after db0 (co_sent o1)) as Hext.
  { intros o1 db1 (l & -> & Hl & <-) Hok ->. rewrite sent_ok_app. split; [done|]. unfold db_after. by rewrite foldl_app. }
  destruct s as [|c s1]; [by intros [= <-]|]. destruct (_ =? ClientCodeQuery).
  { destruct (chHandleQuery _ _ _ _ revision db s1 o) as [o1 e] eqn:E. apply chHandleQuery_adds in E as (db1 & Ha & He).
    destruct e as [|comp' d rest].
    - intros [= <-] Hok Hdb. by apply (Hext _ _ Ha).
    - subst d. intros H Hok Hdb. destruct (Hext _ _ Ha Hok Hdb) as [Hok1 Hdb1]. by apply (IH _ _ _ _ H). }
  destruct (_ =? ClientCodeData).
  { destruct (chHandleData _ late revision comp s1 o) as [o1 e] eqn:E. apply (chHandleData_adds _ _ db) in E as Ha.
    destruct e as [rest|]; intros H Hok Hdb; destruct (Hext _ _ Ha Hok Hdb) as [Hok1 Hdb1].
    - by apply (IH _ _ _ _ H).
    - by injection H as <-. }
  destruct (_ || _) eqn:Ecode.
  { intros H Hok Hdb. assert (adds db o (send o (SentCode c)) db) as Ha.
    { exists [SentCode c]. split_and!; [done| |done]. split; [|done]. apply orb_true_iff in Ecode as [E|E]; bprop; auto. }
    destruct (Hext _ _ Ha Hok Hdb) as [Hok1 Hdb1]. by apply (IH _ _ _ _ H). }
  by intros [= <-].
Qed.
End Clear.

(** ** Termination *)

Section Total.
Context {P : ChProto} {L : ChProtoLaws P} {W : Type} (ch : ConnHandle W) (credName : string).
Context (parse : string -> option (list ChExpr)) (Walk : ChExpr -> list ChExpr).

(** Following a chain of decoders. *)
Ltac decode_step :=
  match goal with
  | |- context [tagged ?t ?r] =>
      let E := fresh "E" in let x := fresh "x" in let s := fresh "s" in
      destruct (tagged t r) as [[x s]|] eqn:E; cbn [fst snd]; [apply tagged_Ok in E|done]
  end.

Lemma query_preamble_shrinks revision s pre comp s' :
  query_preamble revision s = Ok (pre, comp, s') → (String.length s' <= String.length s)%nat.
Proof.
  unfold query_preamble, when_feature. decode_step. apply Str_shrinks in E.
  assert (∀ s2 (ci : string),
    (String.length s2 <= String.length s)%nat →
    (if negb (FeatureSettingsSerializedAsStrings revision) then Err "unsupported settings format"
     else
       let? r3 := tagged "setting: " (rd_list rd_Setting setting_Key (S (String.length s2)) s2) in
       let? r4 := (if FeatureInterServerSecret revision
                   then (let? r := tagged "inter-server secret: " (rd_Str (snd r3)) in Ok (enc_Str (fst r), snd r))
                   else Ok ("", snd r3)) in
       let? r5 := tagged "stage: " (rd_UVarInt (snd r4)) in
       let? r6 := tagged "compression: " (rd_UVarInt (snd r5)) in
       if negb (IsACompression (fst r6)) then Err ("unknown compression " +:+ Itoa (Z.to_nat (fst r6)))
       else Ok (enc_ClientCode ClientCodeQuery +:+ enc_Str x +:+ ci +:+ enc_list enc_Setting (fst r3) +:+ fst r4 +:+
             enc_StageComplete +:+ enc_Compression (fst r6), fst r6, snd r6)) = Ok (pre, comp, s') →
    (String.length s' <= String.length s)%nat) as Hrest.
  { intros s2 ci Hs2. destruct (negb (FeatureSettingsSerializedAsStrings revision)); [done|]. decode_step.
    apply (rd_list_shrinks _ _ _ Setting_consumes) in E0.
    assert (∀ s4 (sec : string), (String.length s4 <= String.length s1)%nat →
      (let? r5 := tagged "stage: " (rd_UVarInt s4) in
       let? r6 := tagged "compression: " (rd_UVarInt (snd r5)) in
       if negb (IsACompression (fst r6)) then Err ("unknown compression " +:+ Itoa (Z.to_nat (fst r6)))
       else Ok (enc_ClientCode ClientCodeQuery +:+ enc_Str x +:+ ci +:+ enc_list enc_Setting x0 +:+ sec +:+
             enc_StageComplete +:+ enc_Compression (fst r6), fst r6, snd r6)) = Ok (pre, comp, s') →
      (String.length s' <= String.length s)%nat) as Hlast.
    { intros s4 sec Hs4. decode_step. apply UVarInt_shrinks in E1. decode_step. apply UVarInt_shrinks in E2.
      destruct (negb _); [done|]. intros [= _ _ <-]. lia. }
    destruct (FeatureInterServerSecret revision); [decode_step; apply Str_shrinks in E1; by apply Hlast|by apply Hlast]. }
  destruct (FeatureClientWriteInfo revision); [|by apply Hrest].
  decode_step. apply ClientInfo_shrinks in E0. apply Hrest. lia.
Qed.

Lemma query_params_shrinks revision s ps s' :
  query_params revision s = Ok (ps, s') → (String.length s' <= String.length s)%nat.
Proof.
  unfold query_params, when_feature. destruct (FeatureParameters revision); [|intros [= _ <-]; lia].
  decode_step. apply (rd_list_shrinks _ _ _ Parameter_consumes) in E. intros [= _ <-]. lia.
Qed.

Lemma chHandleQuery_shrinks revision db s o o' comp d rest :
  chHandleQuery ch credName parse Walk revision db s o = (o', QueryNext comp d rest) → (String.length rest <= String.length s)%nat.
Proof.
  unfold chHandleQuery. destruct (query_preamble revision s) as [[[pre c] s1]|] eqn:E1; [|done].
  apply query_preamble_shrinks in E1. destruct (rd_StrLen s1) as [[n s2]|] eqn:E2; [|done]. apply StrLen_shrinks in E2.
  set (hl := Z.to_nat _). destruct (ReadFull hl s2) as [[head s3]|] eqn:E3; [|done].
  apply ReadFull_Some in E3 as [-> _]. rewrite str_length_app in E2.
  destruct (chEvaluateSQL _ _ _ _ head db _ _) as [[[w evs] [reason|]] next].
  - unfold query_denied. destruct (_ <? _)%nat; [done|]. destruct (query_params _ _) as [[ps r]|] eqn:Ep; [|done].
    apply query_params_shrinks in Ep. rewrite str_length_drop in Ep. intros [= _ _ _ <-]. lia.
  - unfold query_allowed. destruct (_ <? _)%nat; [done|]. destruct (query_params _ _) as [[ps r]|] eqn:Ep; [|done].
    apply query_params_shrinks in Ep. rewrite str_length_drop in Ep. intros [= _ _ _ <-]. lia.
Qed.

Lemma chHandleData_shrinks late revision comp s o o' rest :
  chHandleData (W := W) credName late revision comp s o = (o', Some rest) → (String.length rest <= String.length s)%nat.
Proof.
  unfold chHandleData. destruct (rd_ClientData revision s) as [[hdr s1]|] eqn:E1; [|done]. apply ClientData_shrinks in E1.
  destruct (comp =? CompressionEnabled).
  - destruct (chProbeCompressedData late s1) as [fwd e] eqn:Ep. unfold chProbeCompressedData in Ep.
    apply probe_conserves in Ep as (g & _ & Hg). destruct e as [r|? ?| |]; try done. intros [= _ <-].
    subst s1. rewrite str_length_app in E1. lia.
  - destruct (rd_Block revision s1) as [[b s2]|] eqn:E2; [|done]. apply Block_shrinks in E2.
    destruct (enc_Block revision b); [|done]. intros [= _ <-]. lia.
Qed.

Lemma pump_packets_ends late revision fuel comp db s o :
  (String.length s < fuel)%nat → is_Some (pump_packets ch credName parse Walk late revision fuel comp db s o).
Proof.
  revert comp db s o. induction fuel as [|fuel IH]; intros comp db s o Hf; [lia|]. cbn [pump_packets].
  destruct s as [|c s1]; [by eauto|]. cbn [String.length] in Hf. destruct (_ =? ClientCodeQuery).
  { destruct (chHandleQuery _ _ _ _ revision db s1 o) as [o1 [|comp' d rest]] eqn:E; [by eauto|].
    apply chHandleQuery_shrinks in E. apply IH. lia. }
  destruct (_ =? ClientCodeData).
  { destruct (chHandleData _ late revision comp s1 o) as [o1 [rest|]] eqn:E; [|by eauto].
    apply chHandleData_shrinks in E. apply IH. lia. }
  destruct (_ || _); [apply IH; lia|by eauto].
Qed.
End Total.

(** C7. The pump ends on every stream. Every query packet it sends on was judged:
    no rule refuses the text, tables and database it was judged with, or an
    approver allowed it; that database is the one the session was in, that is
    the target of the last [USE] sent before it or the database of the hello;
    and the text judged is the text sent, or the first MiB of a longer one,
    judged as truncated. Everything else it sends on is a ping, a cancel, or a
    data packet: a header, and then a block decoded and encoded again or, when
    the client compresses, pieces with the shape of compressed frames, which are
    not looked into. *)
Theorem ch_only_cleared_forwarded {P : ChProto} {L : ChProtoLaws P} {W} (ch : ConnHandle W) credName parse Walk late revision database s w :
  ∃ o, chAgentToServer ch credName parse Walk late revision database s (mkChOut w [] "" []) = Some o ∧
    sent_ok ch credName parse Walk revision database (co_sent o).
Proof.
  destruct (pump_packets_ends ch credName parse Walk late revision (S (String.length s)) CompressionDisabled database s
    (mkChOut w [] "" [])) as [o Ho]; [lia|].
  exists o. split; [exact Ho|]. by eapply pump_sent_ok; [exact Ho|..].
Qed.

(** ** A small codec *)

(** Strings of one length byte, one-byte numbers; a hash that is constant. *)
Definition toy_Str : Dec string := λ s,
  match s with
  | EmptyString => Err "EOF"
  | String c s' => match ReadFull (Z.to_nat (byte_val c)) s' with Some (x, r) => Ok (x, r) | None => Err "short" end
  end.
Definition toy_byte : Dec Z := λ s, match s with EmptyString => Err "EOF" | String c s' => Ok (byte_val c, s') end.
Definition toy_enc (s : string) : string := String (byte_of (Z.of_nat (String.length s))) s.
Definition toy_int (n : Z) : string := String (byte_of n) "".

#[local] Instance toy : ChProto := {|
  ClientCodeHello := 0; ClientCodeQuery := 1; ClientCodeData := 2; ClientCodeCancel := 3; ClientCodePing := 4;
  ClientTablesStatusRequest := 5; ClientCodeSSHChallengeRequest := 11; ClientCodeSSHChallengeResponse := 12;
  ServerCodeHello := 0; ServerCodeException := 2; Version := 54460;
  FeatureClientWriteInfo _ := false; FeatureSettingsSerializedAsStrings _ := true; FeatureInterServerSecret _ := false;
  FeatureParameters _ := false; FeatureAddendum _ := false;
  CompressionDisabled := 0; CompressionEnabled := 1; IsACompression n := (n =? 0) || (n =? 1);
  rd_Str := toy_Str; rd_UVarInt := toy_byte; rd_StrLen := toy_byte;
  enc_Str := toy_enc; enc_Int := toy_int; enc_ClientCode := toy_int; enc_StageComplete := toy_int 2; enc_Compression := toy_int;
  ClientInfo := Z; rd_ClientInfo _ := toy_byte; enc_ClientInfo _ := toy_int;
  Setting := string; rd_Setting := toy_Str; setting_Key s := s; enc_Setting := toy_enc;
  QueryParam := string; rd_Parameter := toy_Str; param_Key s := s; enc_Parameter := toy_enc;
  ClientData := string; rd_ClientData _ := toy_Str; cd_TableName s := s; enc_ClientData _ := toy_enc;
  Block := string; rd_Block _ := toy_Str; block_summary _ := "rows=0 cols=0"; enc_Block _ s := Ok (toy_enc s);
  rd_ClientHello _ := Err "none"; enc_ClientHello _ := "";
  ServerHello := Z; rd_ServerHello _ := toy_byte; srv_Revision n := n; srv_set_Revision _ n := n; enc_ServerHello _ := toy_int;
  Exception := string; rd_Exception _ := toy_Str; exc_Message s := s; enc_Exception _ := toy_enc; access_denied s := s;
  CityHash128 _ := (1 + 256 * 20, 0);
  short_read _ _ := "unexpected EOF"; quote_table s := s
|}.

Lemma toy_Str_consumes : consumes toy_Str.
Proof.
  intros [|c s] x s'; cbn [toy_Str]; [done|]. destruct (ReadFull _ s) as [[y r]|] eqn:E; [|done].
  apply ReadFull_Some in E as [-> _]. intros [= <- <-]. cbn [String.length]. rewrite str_length_app. lia.
Qed.

Lemma toy_byte_shrinks : shrinks toy_byte.
Proof. intros [|c s] x s'; cbn [toy_byte]; [done|]. intros [= _ <-]. cbn. lia. Qed.

Lemma toy_Str_shrinks : shrinks toy_Str.
Proof. intros s x s' H. apply Nat.lt_le_incl. by eapply toy_Str_consumes. Qed.

#[local] Instance toy_laws : ChProtoLaws toy.
Proof.
  constructor; intros; first [exact toy_Str_shrinks|exact toy_byte_shrinks|exact toy_Str_consumes].
Qed.

(** A parser for three texts. *)
Definition ch_statements (text : string) : option (list ChExpr) :=
  if String.eqb text "DELETE FROM t" then Some [EStmt (OtherStmt "*parser.DeleteClause") [ETableIdentifier None (Some "t")]]
  else if String.eqb text "USE x" then Some [EUse (Some "x")]
  else if String.eqb text "SELECT 1 --" then Some [EStmt SelectQuery []] else None.

Fixpoint ch_walk (e : ChExpr) : list ChExpr :=
  match e with
  | EStmt _ cs => e :: concat (map ch_walk cs)
  | ECTE x cs => e :: match x with Some y => ch_walk y | None => [] end ++ concat (map ch_walk cs)
  | EFunction _ cs => e :: concat (map ch_walk cs)
  | _ => [e]
  end.

(** A query packet: no id, no settings, a stage, the compression, the text. *)
Definition ch_query (compression : Z) (sql : string) : string :=
  toy_int 1 +:+ toy_enc "" +:+ toy_enc "" +:+ toy_int 2 +:+ toy_int compression +:+ toy_enc sql.

Definition ch_demo : string := ch_query 0 "USE x" +:+ toy_int 4 +:+ ch_query 0 "DELETE FROM t" +:+ ch_query 0 "USE x".

Lemma ch_only_cleared_forwarded_witness :
  ∃ o, chAgentToServer test_conn "cred" ch_statements ch_walk (λ _, false) 54460 "db" ch_demo (mkChOut tt [] "" []) = Some o ∧
    co_sent o = [SentQuery "db" "USE x" false (ch_query 0 "USE x"); SentCode (byte_of 4); SentQuery "x" "USE x" false (ch_query 0 "USE x")] ∧
    co_agent o = chEncodeException "no deletes" ∧
    sent_ok test_conn "cred" ch_statements ch_walk 54460 "db" (co_sent o).
Proof.
  destruct (ch_only_cleared_forwarded test_conn "cred" ch_statements ch_walk (λ _, false) 54460 "db" ch_demo tt) as (o & Ho & Hok).
  exists o. split; [exact Ho|]. assert (Some o = Some o) as E by done. rewrite <- Ho in E at 1. vm_compute in E.
  injection E as <-. split_and!; [vm_compute; reflexivity|vm_compute; reflexivity|exact Hok].
Defined.

(** A frame whose checksum starts with the code of a query. *)
Definition sly_frame : string :=
  be_put 2 (256 + 20) +:+ be_put 14 0 +:+ toy_int 0x82 +:+ be_put 4 (9 * 2 ^ 24) +:+ be_put 4 0.

Lemma sly_frame_ok : frame_ok sly_frame.
Proof.
  exists (byte_of 1), (str_drop 1 sly_frame), "". split_and!; vm_compute; done.
Qed.

Lemma ch_probe_exact_witness :
  chProbeCompressedData (λ _, false) (stream [sly_frame; sly_frame] +:+ ch_query 0 "USE x") =
  (stream [sly_frame; sly_frame], ProbeDone (ch_query 0 "USE x")).
Proof.
  apply (ch_probe_exact [sly_frame; sly_frame] (ch_query 0 "USE x")).
  - repeat constructor; apply sly_frame_ok.
  - split; [vm_compute; reflexivity|]. intros rest s2 n body s3 H. vm_compute in H. discriminate.
Defined.

(** ** Queries that are not seen *)

(** Bytes after a compressed block that have the shape of a frame, checksum
    included, are sent on unjudged, whatever packet the server takes them for:
    the gateway does not know where a block ends. *)
Theorem ch_frame_shaped_packet_unjudged {P : ChProto} {W} credName revision s hdr fs q p (o : ChOut (W := W)) :
  rd_ClientData revision s = Ok (hdr, stream fs +:+ q +:+ p) → Forall frame_ok fs → frame_ok q → packet_next p →
  let r := chHandleData credName (λ _, false) revision CompressionEnabled s o in
  co_sent (fst r) = co_sent o ++ [SentData (String (byte_of ClientCodeData) (enc_ClientData revision hdr) +:+ stream fs +:+ q)] ∧
  co_state (fst r) = co_state o ∧ snd r = Some p.
Proof.
  intros Hd Hf Hq Hp. cbn zeta. unfold chHandleData. rewrite Hd, Z.eqb_refl. unfold chProbeCompressedData.
  assert (stream fs +:+ q = stream (fs ++ [q])) as Hs.
  { clear. induction fs as [|f fs IH]; [done|]. cbn [app]. by rewrite !stream_cons, str_app_assoc, IH. }
  assert (Forall frame_ok (fs ++ [q])) as Hf' by (apply Forall_app; auto).
  rewrite <- str_app_assoc, Hs, (probe_chain _ _ (fs ++ [q]) p) by
    (try done; rewrite str_length_app; pose proof (frame_chain_length _ Hf'); lia). done.
Qed.

Lemma ch_frame_shaped_packet_unjudged_witness :
  byte_val (byte_of 1) = ClientCodeQuery ∧
  co_sent (fst (chHandleData "cred" (λ _, false) 54460 CompressionEnabled (toy_enc "" +:+ sly_frame +:+ sly_frame +:+ toy_int 4)
    (mkChOut tt [] "" []))) = [SentData (toy_int 2 +:+ toy_enc "" +:+ sly_frame +:+ sly_frame)].
Proof.
  split; [reflexivity|].
  exact (proj1 (ch_frame_shaped_packet_unjudged (W := unit) "cred" 54460 (toy_enc "" +:+ sly_frame +:+ sly_frame +:+ toy_int 4) "" [sly_frame] sly_frame
    (toy_int 4) (mkChOut tt [] "" []) ltac:(vm_compute; reflexivity) ltac:(repeat constructor; apply sly_frame_ok) sly_frame_ok
    ltac:(split; [vm_compute; reflexivity|intros ? ? ? ? ? H; vm_compute in H; discriminate]))).
Defined.

(** A comment with the word [SETTINGS] ends the text the parser is given, so the
    tables after it are not seen by the rules, whatever they are. *)
Theorem ch_settings_comment_hides_tables parse Walk rest stmt stmts :
  let sql := "SELECT 1 -- SETTINGS " +:+ rest in
  TrimSpace sql = sql → parse "SELECT 1 --" = Some (stmt :: stmts) →
  parseChSQL parse Walk sql =
    (mkChInfo (chVerbFromStmt stmt) (chSortedKeys (elements (fst (chWalkSQL Walk (stmt :: stmts)))))
       (chSortedKeys (elements (snd (chWalkSQL Walk (stmt :: stmts))))) sql (match stmt with EUse (Some d) => d | _ => "" end), false).
Proof.
  cbn zeta. intros Ht Hp. unfold parseChSQL. rewrite Ht. cbn [String.append String.eqb].
  assert (strip_trailer ("SELECT 1 -- SETTINGS " +:+ rest) = "SELECT 1 --") as Hs by reflexivity.
  cbn [String.append] in Hs. rewrite Hs, Hp. by destruct (chWalkSQL Walk (stmt :: stmts)).
Qed.

Definition hidden_table_query : string := "SELECT 1 -- SETTINGS x" +:+ String (ascii_of_nat 10) "FROM secrets".

Lemma ch_settings_comment_hides_tables_witness :
  chi_Tables (fst (parseChSQL ch_statements ch_walk hidden_table_query)) = [].
Proof.
  unfold hidden_table_query.
  change ("SELECT 1 -- SETTINGS x" +:+ String (ascii_of_nat 10) "FROM secrets") with ("SELECT 1 -- SETTINGS " +:+ ("x" +:+ String (ascii_of_nat 10) "FROM secrets")).
  rewrite (ch_settings_comment_hides_tables ch_statements ch_walk ("x" +:+ String (ascii_of_nat 10) "FROM secrets") (EStmt SelectQuery []) []
    ltac:(vm_compute; reflexivity) ltac:(vm_compute; reflexivity)).
  vm_compute. reflexivity.
Defined.
