(* ===== verification/CelProps.v ===== *)
(** * A verdict on an incomplete request is the verdict on the complete one

    What rule conditions may rely on when a wire frontend capped the bytes of a
    request or its parser gave up, for every built-in protocol family. *)
From S2P Require Import Prelude GoStrings GoUrl Policy Dispatch CelMatch Facets.

(** ** What is assumed of [cel-go] *)

(** The activations differ only at [P]. *)
Definition agree_except (P : list celPath) (a b : Activation) : Prop :=
  ∀ x f, path_in P x f = false → a !! (x, f) = b !! (x, f).

(** Every mention of one of the variables selects a field of it. *)
Fixpoint by_field (vars : list string) (e : Expr) : bool :=
  match e with
  | EIdent x => negb (existsb (String.eqb x) vars)
  | ESelect op _ _ => match op with EIdent _ => true | _ => by_field vars op end
  | ECall _ t args => match t with Some t => by_field vars t | None => true end && forallb (by_field vars) args
  | EList els => forallb (by_field vars) els
  | EMap ens => forallb (λ '(k, v), by_field vars k && by_field vars v) ens
  | EStruct _ fs => forallb (λ '(_, v), by_field vars v) fs
  | EComprehension r _ _ i c s z =>
      by_field vars r && by_field vars i && by_field vars c && by_field vars s && by_field vars z
  | EUnspecified | ELiteral _ => true
  end.

(** Partial evaluation, as [cel-go] documents it: a bool is returned only when it
    does not depend on the attributes marked unknown; and a program reads only
    the attributes its expression mentions. *)
Class CelLaws (eval : Expr -> Activation -> list celPath -> EvalOut) : Prop := {
  cel_partial_sound e a P b a' :
    eval e a P = EvBool b → agree_except P a a' → eval e a' [] = EvBool b;
  cel_reads_mentioned e a P a' :
    by_field (ident <$> P) e = true → referencesPath P e = false → agree_except P a a' → eval e a [] = eval e a' []
}.

Lemma by_field_mono vs ws e :
  (∀ x, existsb (String.eqb x) ws = true → existsb (String.eqb x) vs = true) →
  by_field vs e = true → by_field ws e = true.
Proof.
  intros Hs. revert e. fix IH 1.
  assert (∀ x, negb (existsb (String.eqb x) vs) = true → negb (existsb (String.eqb x) ws) = true) as Hn.
  { intros x H. apply negb_true_iff in H. apply negb_true_iff. destruct (existsb (String.eqb x) ws) eqn:E; [|done].
    by rewrite Hs in H. }
  intros [|x|op f t|fn t args|els|ens|ty fs|r iv av i c s z|v]; cbn [by_field]; try done.
  - apply Hn.
  - pose proof (IH op) as IHo. destruct op; first [done|exact IHo].
  - intros [H1 H2]%andb_true_iff. apply andb_true_iff. split; [destruct t; [by apply IH|done]|].
    revert H2. induction args as [|a l IHl]; cbn; [done|]. intros [H3 H4]%andb_true_iff. by rewrite (IH a H3), IHl.
  - induction els as [|a l IHl]; cbn; [done|]. intros [H3 H4]%andb_true_iff. by rewrite (IH a H3), IHl.
  - induction ens as [|[k v] l IHl]; cbn; [done|]. intros [[H2 H3]%andb_true_iff H4]%andb_true_iff.
    by rewrite (IH k H2), (IH v H3), IHl.
  - induction fs as [|[k v] l IHl]; cbn; [done|]. intros [H3 H4]%andb_true_iff. by rewrite (IH v H3), IHl.
  - intros [[[[H1 H2]%andb_true_iff H3]%andb_true_iff H4]%andb_true_iff H5]%andb_true_iff.
    by rewrite (IH r H1), (IH i H2), (IH c H3), (IH s H4), (IH z H5).
Qed.

Definition facet_vars : list string := ["http"; "sql"; "k8s"; "ssh"].

(** [b] where [P] says so, [a] elsewhere. *)
Definition overlay (P : list celPath) (b a : Activation) : Activation :=
  filter (λ kv, path_in P kv.1.1 kv.1.2 = true) b ∪ filter (λ kv, path_in P kv.1.1 kv.1.2 = false) a.

Lemma overlay_lookup P b a x f :
  overlay P b a !! (x, f) = if path_in P x f then b !! (x, f) else a !! (x, f).
Proof.
  unfold overlay. destruct (path_in P x f) eqn:E.
  - destruct (b !! (x, f)) as [v|] eqn:Eb.
    + by apply lookup_union_Some_l, map_lookup_filter_Some.
    + apply lookup_union_None. split; apply map_lookup_filter_None; [by left|right].
      intros v _. cbn. by rewrite E.
  - rewrite lookup_union_r by (apply map_lookup_filter_None; right; intros v _; cbn; by rewrite E).
    destruct (a !! (x, f)) as [v|] eqn:Ea; [by apply map_lookup_filter_Some|]. apply map_lookup_filter_None. by left.
Qed.

Lemma path_in_app P Q x f : path_in (P ++ Q) x f = path_in P x f || path_in Q x f.
Proof. unfold path_in. apply existsb_app. Qed.

Lemma agree_except_nil a b : agree_except [] a b → a = b.
Proof. intros H. apply map_eq. intros [x f]. by apply H. Qed.

(** ** Matchers *)

Section Honest.
Context (compile : string -> option (Expr * bool)) (program_ok : Expr -> bool)
  (eval : Expr -> Activation -> list celPath -> EvalOut) `{!CelLaws eval}.

(** The paths a request lacks, of the ones declared. *)
Definition lacking (trunc unparse : list celPath) (r : Request) : list celPath :=
  (if req_Truncated r then trunc else []) ++ (if req_Unparseable r then unparse else []).

Lemma gate_Ok e l g : gate_unknowns e l = Ok g →
  ∃ P, parsePaths l = Ok P ∧ (g = P ∨ g = [] ∧ referencesPath P e = false).
Proof.
  unfold gate_unknowns. destruct l as [|p l]; [intros [= <-]; exists []; eauto|].
  destruct (parsePaths (p :: l)) as [P|]; [|done]. intros [= <-]. exists P. split; [done|].
  destruct (referencesPath P e) eqn:E; eauto.
Qed.

Lemma CompileCondition_Ok cond build lower trunc unparse m :
  CompileCondition compile program_ok cond build lower trunc unparse = Ok m →
  buildAct m = build ∧ gate_unknowns (prog m) trunc = Ok (truncatedUnknowns m) ∧
  gate_unknowns (prog m) unparse = Ok (unparseableUnknowns m).
Proof.
  unfold CompileCondition. destruct (compile cond) as [[ast [] ]|]; [|done..]. cbn [negb].
  destruct (match lower with [] => _ | _ => _ end) as [ast'|]; [|done].
  destruct (gate_unknowns ast' trunc) as [t|] eqn:Et; [|done]. destruct (gate_unknowns ast' unparse) as [u|] eqn:Eu; [|done].
  destruct (program_ok ast'); [|done]. intros [= <-]. done.
Qed.

(** Values at paths the expression does not read do not matter. *)
Lemma unread_irrelevant e b P (sel : bool) g a a' :
  (g = P ∨ g = [] ∧ referencesPath P e = false) → by_field (ident <$> P) e = true →
  eval e a [] = EvBool b →
  agree_except (if sel then match g with [] => P | _ => [] end else []) a a' → eval e a' [] = EvBool b.
Proof.
  intros Hg Hb He Ha. destruct sel; [|by apply agree_except_nil in Ha as <-].
  destruct Hg as [->|[-> Hr]].
  - destruct P; by apply agree_except_nil in Ha as <-.
  - by rewrite <- (cel_reads_mentioned _ _ _ _ Hb Hr Ha).
Qed.

Lemma gated_cover (sel : bool) g P x f :
  g = P ∨ g = [] →
  path_in (if sel then P else []) x f =
  path_in (if sel then g else []) x f || path_in (if sel then match g with [] => P | _ => [] end else []) x f.
Proof. intros [->| ->]; destruct sel; cbn; [destruct P; cbn|..]; by rewrite ?orb_false_r. Qed.

Lemma match_honest cond build lower trunc unparse T N m r act act' b :
  CompileCondition compile program_ok cond build lower trunc unparse = Ok m →
  parsePaths trunc = Ok T → parsePaths unparse = Ok N →
  by_field (ident <$> T) (prog m) = true → by_field (ident <$> N) (prog m) = true →
  eval (prog m) act (unknown_patterns m (Some r)) = EvBool b → agree_except (lacking T N r) act act' →
  eval (prog m) act' [] = EvBool b.
Proof.
  intros (_ & (T' & HT' & Ht)%gate_Ok & (N' & HN' & Hn)%gate_Ok)%CompileCondition_Ok HT HN Hbt Hbn He Ha.
  rewrite HT in HT'. injection HT' as <-. rewrite HN in HN'. injection HN' as <-. set (P := unknown_patterns m (Some r)) in *.
  set (Q1 := if req_Truncated r then match truncatedUnknowns m with [] => T | _ => [] end else []).
  set (Q2 := if req_Unparseable r then match unparseableUnknowns m with [] => N | _ => [] end else []).
  assert (∀ x f, path_in (lacking T N r) x f = path_in P x f || path_in Q1 x f || path_in Q2 x f) as Hcov.
  { intros x f. unfold lacking, P, unknown_patterns. rewrite !path_in_app.
    rewrite (gated_cover (req_Truncated r) (truncatedUnknowns m) T) by (destruct Ht as [?|[? _]]; auto).
    rewrite (gated_cover (req_Unparseable r) (unparseableUnknowns m) N) by (destruct Hn as [?|[? _]]; auto).
    fold Q1 Q2. rewrite !orb_assoc. f_equal. rewrite <- !orb_assoc. f_equal. apply orb_comm. }
  assert (eval (prog m) (overlay P act' act) [] = EvBool b) as H1.
  { apply (cel_partial_sound _ _ _ _ _ He). intros x f Hp. by rewrite overlay_lookup, Hp. }
  assert (eval (prog m) (overlay (P ++ Q1) act' act) [] = EvBool b) as H2.
  { eapply (unread_irrelevant _ _ T (req_Truncated r) (truncatedUnknowns m)); [exact Ht|done|exact H1|].
    fold Q1. intros x f Hq. rewrite !overlay_lookup, path_in_app, Hq. by rewrite orb_false_r. }
  eapply (unread_irrelevant _ _ N (req_Unparseable r) (unparseableUnknowns m)); [exact Hn|done|exact H2|].
  fold Q2. intros x f Hq. rewrite overlay_lookup, path_in_app. destruct (path_in P x f || path_in Q1 x f) eqn:E; [done|].
  apply Ha. by rewrite Hcov, E, Hq.
Qed.
End Honest.

(** ** Complete requests *)

(** [r'] is [r] as the client sent it in full: the same but for the bytes [r]
    lacks and what is derived from them. *)
Definition meta_completes (trunc unparse : bool) (m m' : Meta) : Prop :=
  match m, m' with
  | MetaNil, MetaNil => True
  | MetaK8s a, MetaK8s b => a = b
  | MetaSql a, MetaSql b =>
      sql_Database a = sql_Database b ∧ (trunc = false → sql_Statement a = sql_Statement b) ∧
      (trunc = false → unparse = false →
       sql_Verb a = sql_Verb b ∧ sql_Tables a = sql_Tables b ∧ sql_Functions a = sql_Functions b)
  | MetaSsh a, MetaSsh b =>
      ssh_Verb a = ssh_Verb b ∧ ssh_Command a = ssh_Command b ∧ ssh_Subsystem a = ssh_Subsystem b ∧
      ssh_ForwardHost a = ssh_ForwardHost b ∧ ssh_ForwardPort a = ssh_ForwardPort b ∧ ssh_User a = ssh_User b ∧
      (trunc = false → ssh_Stdin a = ssh_Stdin b)
  | _, _ => False
  end.

Record completes (r r' : Request) : Prop := {
  co_user : req_User r = req_User r';
  co_database : req_Database r = req_Database r';
  co_method : req_Method r = req_Method r';
  co_url : req_URL r = req_URL r';
  co_headers : req_Headers r = req_Headers r';
  co_body : req_Truncated r = false → req_Body r = req_Body r';
  co_meta : meta_completes (req_Truncated r) (req_Unparseable r) (req_Meta r) (req_Meta r');
  co_truncated : req_Truncated r' = false;
  co_unparseable : req_Unparseable r' = false
}.

Lemma bind_agree P x fs fs' a a' :
  agree_except P a a' →
  Forall2 (λ u v, u.1 = v.1 ∧ (path_in P x u.1 = true ∨ u.2 = v.2)) fs fs' →
  agree_except P (bind_fields x fs a) (bind_fields x fs' a').
Proof.
  intros Ha Hf. revert a a' Ha. induction Hf as [|[f v] [f' v'] fs fs' [Heq Hor] _ IH]; intros a a' Ha; [done|].
  cbn in Heq, Hor |- *. subst f'. apply IH. intros y g Hp.
  destruct (decide ((x, f) = (y, g))) as [[= -> ->]|Hne].
  - rewrite !lookup_insert_eq. destruct Hor as [Hor| ->]; [congruence|done].
  - rewrite !lookup_insert_ne by done. by apply Ha.
Qed.

(** A facet builds its bindings for the complete request too, and they differ
    only where the facet says they may. *)
Definition covers (T N : list celPath) (add : option Request -> Activation -> option Activation) : Prop :=
  ∀ r r' a a' b, completes r r' → agree_except (lacking T N r) a a' → add (Some r) a = Some b →
    ∃ b', add (Some r') a' = Some b' ∧ agree_except (lacking T N r) b b'.

(** Fields that are declared missing, or the same. *)
Ltac solve_fields :=
  apply bind_agree; [assumption|];
  repeat (apply Forall2_cons; split; [split; [reflexivity|cbn [fst snd]; first [left; reflexivity|right; congruence]]|]);
  apply Forall2_nil; exact I.

Lemma http_covers dj N : covers [mkPath "http" "body"; mkPath "http" "body_json"] N (http_addActivation dj).
Proof.
  intros r r' a a' b [_ _ H1 H2 H3 H4 _ _ _] Ha Hb. apply (inj Some) in Hb as <-. eexists. split; [reflexivity|].
  rewrite <- H1, <- H2, <- H3. unfold lacking in *. destruct (req_Truncated r); [|rewrite <- H4 by done]; solve_fields.
Qed.

Lemma sql_covers :
  covers [mkPath "sql" "verb"; mkPath "sql" "tables"; mkPath "sql" "functions"; mkPath "sql" "statement"]
         [mkPath "sql" "verb"; mkPath "sql" "tables"; mkPath "sql" "functions"] sql_addActivation.
Proof.
  intros r r' a a' b [_ Hdb _ _ _ _ Hm _ _] Ha. unfold sql_addActivation.
  destruct (req_Meta r) as [|m|m|m], (req_Meta r') as [|m'|m'|m']; try done. destruct Hm as (H1 & H2 & H3).
  intros Hb. apply (inj Some) in Hb as <-. eexists. split; [reflexivity|]. unfold databaseOf. rewrite <- Hdb, <- H1. unfold lacking in *.
  destruct (req_Truncated r), (req_Unparseable r); try (specialize (H2 eq_refl); rewrite <- H2);
    try (destruct (H3 eq_refl eq_refl) as (<- & <- & <-)); solve_fields.
Qed.

Lemma k8s_covers T N : covers T N k8s_addActivation.
Proof.
  intros r r' a a' b [_ _ _ _ _ _ Hm _ _] Ha. unfold k8s_addActivation.
  destruct (req_Meta r) as [|m|m|m], (req_Meta r') as [|m'|m'|m']; try done. cbn in Hm. subst m'.
  intros Hb. apply (inj Some) in Hb as <-. eexists. split; [reflexivity|]. solve_fields.
Qed.

Lemma ssh_covers N : covers [mkPath "ssh" "stdin"] N ssh_addActivation.
Proof.
  intros r r' a a' b [Hu _ _ _ _ _ Hm _ _] Ha. unfold ssh_addActivation.
  destruct (req_Meta r) as [|m|m|m], (req_Meta r') as [|m'|m'|m']; try done. destruct Hm as (<- & <- & <- & <- & <- & H1 & H2).
  intros Hb. apply (inj Some) in Hb as <-. eexists. split; [reflexivity|]. unfold userOf. rewrite <- Hu, <- H1. unfold lacking in *.
  destruct (req_Truncated r); [|rewrite <- H2 by done]; solve_fields.
Qed.

Lemma build_covers T N cs r r' a a' b :
  Forall (λ c, covers T N (AddActivation c)) cs → completes r r' → agree_except (lacking T N r) a a' →
  build_with cs (Some r) a = Some b → ∃ b', build_with cs (Some r') a' = Some b' ∧ agree_except (lacking T N r) b b'.
Proof.
  intros Hcs Hr. revert a a'. induction Hcs as [|c cs Hc _ IH]; cbn; intros a a' Ha Hb; [naive_solver|].
  destruct (AddActivation c (Some r) a) as [a1|] eqn:E; [|done].
  destruct (Hc r r' a a' a1 Hr Ha E) as (a2 & -> & Ha2). eauto.
Qed.

(** ** Built-in families *)

Definition within_vars (P : list celPath) : Prop :=
  ∀ x, existsb (String.eqb x) (ident <$> P) = true → existsb (String.eqb x) facet_vars = true.

Lemma builtin_covers dj family :
  family ∈ ["http"; "sql"; "k8s"; "ssh"] →
  ∃ cs T N, contributors (builtin_registry dj) (Facets family) = Some cs ∧
    parsePaths (compose_paths TruncatablePaths cs) = Ok T ∧ parsePaths (compose_paths UnparseablePaths cs) = Ok N ∧
    within_vars T ∧ within_vars N ∧ Forall (λ c, covers T N (AddActivation c)) cs.
Proof.
  intros Hf. repeat (apply elem_of_cons in Hf as [->|Hf]); [..|by apply elem_of_nil in Hf].
  all: eexists _, _, _; split; [reflexivity|]; split; [reflexivity|]; split; [reflexivity|].
  all: split; [intros x; cbn; repeat destruct (String.eqb x _); done|].
  all: split; [intros x; cbn; repeat destruct (String.eqb x _); done|].
  all: repeat constructor; first [apply http_covers|apply sql_covers|apply k8s_covers|apply ssh_covers].
Qed.

Lemma composed_honest env_ok compile program_ok eval `{!CelLaws eval} dj family condition m r r' b :
  family ∈ ["http"; "sql"; "k8s"; "ssh"] →
  Compose env_ok compile program_ok (builtin_registry dj) family condition = ComposedCel m →
  by_field facet_vars (prog m) = true → completes r r' →
  cel_Match eval m (Some r) = mkDecision (ResultOf b) "" → cel_Match eval m (Some r') = mkDecision (ResultOf b) "".
Proof.
  intros (cs & T & N & Hcs & HT & HN & HvT & HvN & Hcov)%(builtin_covers dj) Hc Hby Hr Hm.
  unfold Compose in Hc. rewrite Hcs in Hc. destruct (String.eqb condition ""); [done|]. cbv zeta in Hc.
  destruct (negb (env_ok _)); [done|]. destruct (CompileCondition _ _ _ _ _ _ _) as [m'|] eqn:Em; [|done].
  injection Hc as ->. destruct (CompileCondition_Ok _ _ _ _ _ _ _ _ Em) as (Hb & _ & _).
  unfold cel_Match in Hm |- *. rewrite Hb in Hm |- *.
  destruct (build_with cs (Some r) ∅) as [act|] eqn:Ea; [|by destruct b].
  destruct (build_covers T N cs r r' ∅ ∅ act Hcov Hr (λ x f _, eq_refl) Ea) as (act' & -> & Hagree).
  assert (unknown_patterns m (Some r') = []) as ->.
  { cbn. by rewrite (co_truncated _ _ Hr), (co_unparseable _ _ Hr). }
  destruct (eval (prog m) act (unknown_patterns m (Some r))) as [b'| | |] eqn:Ev; try by destruct b.
  erewrite (match_honest (compile (env_name <$> cs)) program_ok eval); [|exact Em|exact HT|exact HN| | |exact Ev|exact Hagree]; [done|..].
  - eapply by_field_mono; [exact HvT|done].
  - eapply by_field_mono; [exact HvN|done].
Qed.

(** C12. A verdict on an incomplete request is a verdict on the request: when the
    condition of a rule of a built-in family is decided on a request whose bytes
    were capped, or which its parser refused, then it is decided the same way
    on the complete request, whatever the missing bytes are. (The condition
    refers to the request only by fields of its variables.) *)
Theorem incomplete_verdict_is_honest env_ok compile program_ok eval `{!CelLaws eval} dj family condition m r r' b :
  family ∈ ["http"; "sql"; "k8s"; "ssh"] →
  Compose env_ok compile program_ok (builtin_registry dj) family condition = ComposedCel m →
  by_field facet_vars (prog m) = true → completes r r' →
  cel_Match eval m (Some r) = mkDecision (ResultOf b) "" → cel_Match eval m (Some r') = mkDecision (ResultOf b) "".
Proof. intros. by eapply composed_honest. Qed.

(** ** Whole endpoints *)

(** A matcher whose verdict on an incomplete request is that on the request. *)
Definition matcher_honest (m : Matcher) : Prop := ∀ r r' b,
  completes r r' → dec_Result (Match m (Some r)) = ResultOf b → dec_Result (Match m (Some r')) = ResultOf b.

Lemma composed_matcher_honest env_ok compile program_ok eval `{!CelLaws eval} dj family condition m :
  family ∈ ["http"; "sql"; "k8s"; "ssh"] →
  Compose env_ok compile program_ok (builtin_registry dj) family condition = ComposedCel m →
  by_field facet_vars (prog m) = true → matcher_honest (to_Matcher eval m).
Proof.
  intros Hf Hc Hb r r' b Hr Hm. cbn [Match to_Matcher] in *.
  assert (cel_Match eval m (Some r) = mkDecision (ResultOf b) "") as He.
  { unfold cel_Match in *. destruct (buildAct m (Some r)); [|by destruct b].
    destruct (eval _ _ _) as [b'| | |]; try (by destruct b). cbn in Hm. by rewrite Hm. }
  by rewrite (composed_honest _ _ _ _ _ _ _ _ _ _ _ Hf Hc Hb Hr He).
Qed.

Definition rule_honest (r : CompiledRule) : Prop := match rule_Matcher r with Some m => matcher_honest m | None => True end.

Lemma rule_effect_complete x r r' :
  rule_honest x → completes r r' → req_Credential r = req_Credential r' →
  rule_effect x (Some r) = rule_effect x (Some r') ∨ rule_effect x (Some r) = FailsClosed.
Proof.
  unfold rule_honest, rule_effect, credential_mismatch. intros Hx Hr <-.
  destruct (rule_Disabled x || _); [by left|]. destruct (rule_Matcher x) as [m|]; [|by left].
  destruct (dec_Result (Match m (Some r))) eqn:E; [..|by right].
  all: left; first [by rewrite (Hx r r' true Hr E)|by rewrite (Hx r r' false Hr E)].
Qed.

(** The rules of an endpoint decide an incomplete request as they decide the
    request, or fail closed. *)
Lemma match_rules_complete rules r r' :
  Forall rule_honest rules → completes r r' → req_Credential r = req_Credential r' →
  match_rules rules (Some r') = match_rules rules (Some r) ∨
  ∃ cr, match_rules rules (Some r) = Some (synthesizeUnevaluableDeny cr (Some r)).
Proof.
  intros Hh Hr Hc. induction Hh as [|x rules Hx _ IH]; [by left|].
  rewrite !match_rules_cons.
  destruct (rule_effect_complete x r r' Hx Hr Hc) as [<-| ->]; [|right; by eauto].
  destruct (rule_effect x (Some r)); auto. right. by eauto.
Qed.

(** ** A variable under another name *)

(** [[http].exists(x, x.body.contains("DROP"))]: a bool condition in which the
    body is read through a comprehension variable. *)
Definition aliased_body : Expr :=
  EComprehension (EList [EIdent "http"]) "x" "@result" (ELiteral (LitBool false))
    (ECall "@not_strictly_false" None [ECall "!_" None [EIdent "@result"]])
    (ECall "_||_" None [EIdent "@result";
       ECall "contains" (Some (ESelect (EIdent "x") "body" false)) [ELiteral (LitString "DROP")]])
    (EIdent "@result").

(** The condition is not recognized as reading the body: on a truncated request
    it is evaluated on the capped bytes with nothing marked unknown, and the
    frontend is told that no rule needs the body. *)
Theorem aliased_body_unguarded env_ok compile program_ok eval dj condition m r act :
  compile ["http"] condition = Some (aliased_body, true) →
  Compose env_ok compile program_ok (builtin_registry dj) "http" condition = ComposedCel m →
  buildAct m (Some r) = Some act →
  inspectsTruncatable m = false ∧
  ∀ b, eval aliased_body act [] = EvBool b → cel_Match eval m (Some r) = mkDecision (ResultOf b) "".
Proof.
  intros Hc Hm Ha. unfold Compose in Hm.
  change (contributors (builtin_registry dj) (Facets "http")) with (Some [http_CELContrib dj]) in Hm. cbv iota zeta in Hm.
  destruct (String.eqb condition ""); [done|]. destruct (negb (env_ok _)); [done|].
  unfold CompileCondition in Hm. change (env_name <$> [http_CELContrib dj]) with ["http"] in Hm. rewrite Hc in Hm.
  change (compose_paths LowercasedPaths [http_CELContrib dj]) with ["http.method"] in Hm.
  change (compose_paths TruncatablePaths [http_CELContrib dj]) with ["http.body"; "http.body_json"] in Hm.
  change (compose_paths UnparseablePaths [http_CELContrib dj]) with ([] : list string) in Hm.
  change (parsePaths ["http.method"]) with (Ok (E := CelError) [mkPath "http" "method"]) in Hm. cbv iota in Hm.
  change (negb true) with false in Hm. cbv iota in Hm.
  change (normalizeWantLiterals aliased_body [mkPath "http" "method"]) with aliased_body in Hm.
  change (gate_unknowns aliased_body ["http.body"; "http.body_json"]) with (Ok (E := CelError) ([] : list celPath)) in Hm.
  change (gate_unknowns aliased_body []) with (Ok (E := CelError) ([] : list celPath)) in Hm.
  cbv iota in Hm. destruct (negb (program_ok aliased_body)); [done|]. injection Hm as <-. split; [done|].
  intros b Hb. unfold cel_Match. rewrite Ha. cbn [prog].
  replace (unknown_patterns _ _) with ([] : list celPath) by (cbn; by destruct (req_Truncated r), (req_Unparseable r)).
  by rewrite Hb.
Qed.

(** ** An evaluator for comparisons and conjunctions *)

Definition and3 (x y : EvalOut) : EvalOut :=
  match x, y with
  | EvBool false, _ | _, EvBool false => EvBool false
  | EvBool true, EvBool true => EvBool true
  | EvUnknown u, EvUnknown v => EvUnknown (u ++ v)
  | EvUnknown u, _ | _, EvUnknown u => EvUnknown u
  | _, _ => EvError "no such overload"
  end.

Fixpoint demo_eval (e : Expr) (act : Activation) (P : list celPath) : EvalOut :=
  match e with
  | ECall fn None [a; b] =>
      if String.eqb fn "_&&_" then and3 (demo_eval a act P) (demo_eval b act P)
      else if String.eqb fn opEquals then
        match a, b with
        | ESelect (EIdent x) f _, ELiteral (LitString s) =>
            if path_in P x f then EvUnknown [x +:+ "." +:+ f]
            else match act !! (x, f) with Some (VString v) => EvBool (String.eqb v s) | _ => EvError "no such attribute" end
        | _, _ => EvError "no such overload"
        end
      else EvError "no such overload"
  | _ => EvError "no such overload"
  end.

Lemma demo_eval_sound e a P b a' : demo_eval e a P = EvBool b → agree_except P a a' → demo_eval e a' [] = EvBool b.
Proof.
  intros He Ha. revert e b He. fix IH 1. intros [| | |fn [t|] args| | | | |] b; try done.
  destruct args as [|u [|v [|]]]; try done. cbn [demo_eval].
  destruct (String.eqb fn "_&&_").
  - pose proof (IH u) as IHu. pose proof (IH v) as IHv.
    destruct (demo_eval u a P) as [[]| | |], (demo_eval v a P) as [[]| | |]; cbn; intros [= <-];
      rewrite ?(IHu _ eq_refl), ?(IHv _ eq_refl); try done; destruct (demo_eval u a' []) as [[]| | |]; done.
  - destruct (String.eqb fn opEquals); [|done]. destruct u as [| |[|x| | | | | | |] f ?| | | | | |]; try done.
    destruct v as [| | | | | | | |[]]; try done. destruct (path_in P x f) eqn:Ep; [done|]. cbn. by rewrite (Ha x f Ep).
Qed.

#[global] Instance demo_laws : CelLaws demo_eval.
Proof.
  split; [intros; by eapply demo_eval_sound|].
  intros e a P a' _ Hr Ha. revert e Hr. fix IH 1. intros [| | |fn [t|] args| | | | |]; try done.
  destruct args as [|u [|v [|]]]; try done. cbn [demo_eval referencesPath existsb]. rewrite orb_false_r. cbn [orb].
  intros [Hu Hv]%orb_false_iff. destruct (String.eqb fn "_&&_"); [by rewrite (IH u Hu), (IH v Hv)|].
  destruct (String.eqb fn opEquals); [|done]. destruct u as [| |[|x| | | | | | |] f ?| | | | | |]; try done.
  destruct v as [| | | | | | | |[]]; try done. cbn in Hu |- *. rewrite orb_false_r in Hu. by rewrite (Ha x f Hu).
Qed.

(** [http.method == "POST" && http.body == "pay"] *)
Definition pay_condition : Expr :=
  ECall "_&&_" None [ECall opEquals None [ESelect (EIdent "http") "method" false; ELiteral (LitString "POST")];
                     ECall opEquals None [ESelect (EIdent "http") "body" false; ELiteral (LitString "pay")]].

Definition demo_compile (e : Expr) (env : list string) (s : string) : option (Expr * bool) := Some (e, true).
Definition demo_compose (e : Expr) : Composed :=
  Compose (λ _, true) (demo_compile e) (λ _, true) (builtin_registry (λ _, None)) "http" "condition".

Definition http_request (method body : string) (truncated : bool) : Request :=
  mkRequest "http" "" "10.55.0.2" "" "" method None [] body MetaNil truncated false.

Definition pay_matcher : celMatcher :=
  match demo_compose pay_condition with ComposedCel m => m | _ => mkCelMatcher EUnspecified (λ _, None) ∅ false [] [] end.

(** A truncated GET is no match whatever its body; a truncated POST is not
    decided. *)
Lemma incomplete_verdict_is_honest_witness :
  cel_Match demo_eval pay_matcher (Some (http_request "POST" "p" true)) =
    unevaluable "condition depends on facet value(s) the gateway does not have (bytes truncated at the inspection buffer): http.body" ∧
  cel_Match demo_eval pay_matcher (Some (http_request "GET" "pay" false)) = mkDecision NoMatch "".
Proof.
  split; [vm_compute; reflexivity|].
  apply (incomplete_verdict_is_honest (λ _, true) (demo_compile pay_condition) (λ _, true) demo_eval (λ _, None) "http"
    "condition" pay_matcher (http_request "GET" "p" true) (http_request "GET" "pay" false) false);
    [apply list_elem_of_here|reflexivity|vm_compute; reflexivity|split; by cbn|vm_compute; reflexivity].
Defined.

Definition aliased_matcher : celMatcher :=
  match demo_compose aliased_body with ComposedCel m => m | _ => mkCelMatcher EUnspecified (λ _, None) ∅ false [] [] end.

Lemma aliased_body_unguarded_witness :
  inspectsTruncatable aliased_matcher = false ∧
  cel_Match (λ _ _ _, EvBool false) aliased_matcher (Some (http_request "POST" "p" true)) = mkDecision NoMatch "".
Proof.
  destruct (aliased_body_unguarded (λ _, true) (demo_compile aliased_body) (λ _, true) (λ _ _ _, EvBool false) (λ _, None)
    "condition" aliased_matcher (http_request "POST" "p" true)
    (default ∅ (buildAct aliased_matcher (Some (http_request "POST" "p" true))))) as [H1 H2];
    [reflexivity|reflexivity|reflexivity|]. split; [exact H1|exact (H2 false eq_refl)].
Defined.
