(* ===== verification/Ssh.v ===== *)
(** * The ssh endpoint ([internal/config/plugins/endpoints/ssh.go])

    The gateway is a server towards the agent and a client towards the upstream,
    and splices channels between the two. What the agent asks for on a channel is
    judged before it is sent on; on endpoints with a rule on [ssh.stdin] the
    input of a command is judged with it.

    [golang.org/x/crypto/ssh] is a parameter: how a payload decodes, what the
    upstream answers, which channels and requests arrive. A run of a pump is the
    trace of its effects; the upstream may answer anything, depending on all it
    has seen. *)
From S2P Require Import Prelude GoStrings NetAddr GoUrl GoHttp Policy Dispatch Approver SqlConn Fingerprint RequestLoop Credentials OAuth PgConn.

(** ** Requests and channels *)

(** [ssh.Request] *)
Record SshRequest := mkSshReq { rq_Type : string; rq_WantReply : bool; rq_Payload : string }.

(** [ssh.NewChannel] *)
Record NewChannel := mkNewChannel { nc_ChannelType : string; nc_ExtraData : string }.

(** The [ssh.Unmarshal] calls of the file. *)
Class SshCodec := {
  unmarshal_string : string -> option string;
  unmarshal_uint32 : string -> option Z;
  (** destination host and port, origin host and port *)
  unmarshal_directTCPIP : string -> option (string * Z * string * Z)
}.

Definition VerbPTY : string := "pty".
Definition VerbExec : string := "exec".
Definition VerbShell : string := "shell".
Definition VerbSubsystem : string := "subsystem".
Definition VerbForward : string := "forward".

Section Meta.
Context `{!SshCodec}.

Definition metaForChannelOpen (newCh : NewChannel) : option SshMeta :=
  if negb (String.eqb (nc_ChannelType newCh) "direct-tcpip") then None
  else match unmarshal_directTCPIP (nc_ExtraData newCh) with
       | None => None
       | Some (destHost, destPort, _, _) => Some (mkSshMeta VerbForward "" "" destHost destPort "" "" false)
       end.

Definition metaForChannelReq (r : SshRequest) : option SshMeta :=
  if String.eqb (rq_Type r) "pty-req" then Some (mkSshMeta VerbPTY "" "" "" 0 "" "" false)
  else if String.eqb (rq_Type r) "exec" then
    command ← unmarshal_string (rq_Payload r); Some (mkSshMeta VerbExec command "" "" 0 "" "" false)
  else if String.eqb (rq_Type r) "shell" then Some (mkSshMeta VerbShell "" "" "" 0 "" "" false)
  else if String.eqb (rq_Type r) "subsystem" then
    name ← unmarshal_string (rq_Payload r); Some (mkSshMeta VerbSubsystem "" name "" 0 "" "" false)
  else None.

Definition classifyUpstreamChannelReq (credName : string) (r : SshRequest) : option ConnEvent :=
  if negb (String.eqb (rq_Type r) "exit-status") then None
  else match unmarshal_uint32 (rq_Payload r) with
       | None => None
       | Some status => Some (mkConnEvent credName "allow" "" "exit" ("exit " +:+ Zdecimal status) "" "" "" "")
       end.
End Meta.

Definition withStdinPreview (base stdin : string) : string :=
  if String.eqb stdin "" then base
  else
    let preview := if (200 <? String.length stdin)%nat then str_take 200 stdin +:+ "…" else stdin in
    base +:+ " | stdin: " +:+ ReplaceAll preview (String "010" "") "⏎".

Definition sshSummary (m : SshMeta) : string :=
  if String.eqb (ssh_Verb m) VerbPTY then "request pty (terminal)"
  else if String.eqb (ssh_Verb m) VerbExec then withStdinPreview (ssh_Command m) (ssh_Stdin m)
  else if String.eqb (ssh_Verb m) VerbShell then withStdinPreview "login shell" (ssh_Stdin m)
  else if String.eqb (ssh_Verb m) VerbSubsystem then ssh_Subsystem m
  else if String.eqb (ssh_Verb m) VerbForward then "→ " +:+ ssh_ForwardHost m +:+ ":" +:+ Zdecimal (ssh_ForwardPort m)
  else "".

Definition with_user (m : SshMeta) (user : string) : SshMeta :=
  mkSshMeta (ssh_Verb m) (ssh_Command m) (ssh_Subsystem m) (ssh_ForwardHost m) (ssh_ForwardPort m) user (ssh_Stdin m) (ssh_Truncated m).

Definition with_stdin (m : SshMeta) (stdin : string) (truncated : bool) : SshMeta :=
  mkSshMeta (ssh_Verb m) (ssh_Command m) (ssh_Subsystem m) (ssh_ForwardHost m) (ssh_ForwardPort m) (ssh_User m) stdin truncated.

(** ** The gate *)

Section Gate.
Context {W : Type} (ch : ConnHandle W) (agentUser credName : string).

Definition gate_meta (m : SshMeta) : SshMeta := if String.eqb (ssh_User m) "" then with_user m agentUser else m.

Definition ssh_request (m : SshMeta) : Request :=
  mkRequest "ssh" credName (ch_PeerIP ch) "" agentUser "" None [] "" (MetaSsh (gate_meta m)) (ssh_Truncated m) false.

(** [makeGate]: [None] lets the action pass, [Some reason] refuses it. *)
Definition makeGate (m : SshMeta) (w : W) : W * ConnEvent * option string :=
  let summary := sshSummary (gate_meta m) in
  let event action reason rule v := mkConnEvent credName action reason (ssh_Verb m) summary rule
    (v_ApproverName v) (v_ApproverType v) (v_By v) in
  let novote := mkVerdict "" "" "" "" "" in
  match MatchRequest (Some (ch_Endpoint ch)) (Some (ssh_request m)) with
  | None => (w, event "allow" "" "" novote, None)
  | Some cr =>
      let rule := rule_Name cr in
      match out_Approve (rule_Outcome cr) with
      | (_ :: _) as stages =>
          match ch_Approve ch with
          | None => (w, event "deny" "HITL not configured" rule novote, Some "approval required but HITL is not configured")
          | Some approve =>
              let '(w', v) := approve (mkCall stages (ssh_Verb m) summary cr) w in
              if negb (String.eqb (v_Decision v) "allow") then
                let reason := reason_or (v_Reason v) "denied by approver" in
                (w', event "denied" reason rule v, Some reason)
              else (w', event "approved" (v_Reason v) rule v, None)
          end
      | [] =>
          if String.eqb (out_Verdict (rule_Outcome cr)) "deny" then
            let reason := reason_or (out_Reason (rule_Outcome cr)) "denied by policy" in
            (w, event "deny" reason rule novote, Some reason)
          else (w, event "allow" "" rule novote, None)
      end
  end.
End Gate.

(** ** Effects of the pumps *)

Inductive SshEffect :=
  (** a request sent to the upstream, and whether a reply was asked for *)
  | SentUp (type : string) (wantReply : bool) (payload : string)
  (** the answer to the agent *)
  | ReplyAgent (ok : bool)
  (** bytes of the input, and the end of it *)
  | WriteUp (data : string)
  | CloseWriteUp
  (** from here on [pumpDir] copies the input of the agent as it comes *)
  | SpliceUp
  | StderrAgent (text : string)
  (** both halves of the channel are closed *)
  | CloseBoth
  (** a channel opened upstream, or refused to the agent *)
  | OpenUp (type extra : string)
  | RejectAgent (reason : string)
  (** a judgement, with the request the rules were given *)
  | Judged (req : Request) (denied : option string)
  | Emit (ev : ConnEvent)
  (** bytes of the input copied by [pumpDir] *)
  | CopyUp (data : string).

(** [pumpDir] from agent to upstream runs beside the loop over the requests: it
    is started by a splice, and its reads and writes fail once both halves are
    closed. In between it may copy any bytes at any moment. *)
Definition copying (active : bool) (e : SshEffect) : bool :=
  match e with SpliceUp => true | CloseBoth => false | _ => active end.

(** A trace of the loop with the copying interleaved. *)
Inductive pumpDir : bool -> list SshEffect -> list SshEffect -> Prop :=
| pumpDir_nil b : pumpDir b [] []
| pumpDir_step b e tr tr' : pumpDir (copying b e) tr tr' → pumpDir b (e :: tr) (e :: tr')
| pumpDir_copy data tr tr' : pumpDir true tr tr' → pumpDir true tr (CopyUp data :: tr').

Section Pumps.
Context `{!SshCodec} {W : Type}.
(** The gate of the direction from agent to upstream; the other direction has
    none. *)
Context (gate : option (SshMeta -> W -> W * list SshEffect * option string)).
(** What the upstream answers to a request ([None]: the send fails), whether a
    write succeeds, whether a channel opens. *)
Context (answer : list SshEffect -> SshRequest -> option bool) (write_ok : list SshEffect -> string -> bool).

(** State of approvals, and the trace. *)
Notation State := (W * list SshEffect)%type.

Definition forwardChannelReq (r : SshRequest) (st : State) : State :=
  let '(w, tr) := st in
  let ok := default false (answer tr r) in
  let tr := tr ++ [SentUp (rq_Type r) (rq_WantReply r) (rq_Payload r)] in
  (w, if rq_WantReply r then tr ++ [ReplyAgent ok] else tr).

(** A judgement: the state after it and whether the action is refused. *)
Definition judge (m : SshMeta) (st : State) : State * option string :=
  match gate with
  | None => (st, None)
  | Some g => let '(w, evs, denied) := g m st.1 in ((w, st.2 ++ evs), denied)
  end.

(** Refusing a request: the reply, then the end of the channel. *)
Definition refuse (r : SshRequest) (st : State) : State :=
  (st.1, st.2 ++ (if rq_WantReply r then [ReplyAgent false] else []) ++ [CloseBoth]).

(** [forwardAgentReqs] over the requests of the channel until it is closed. *)
Fixpoint forwardAgentReqs (reqs : list SshRequest) (st : State) : State :=
  match reqs with
  | [] => st
  | r :: reqs =>
      match metaForChannelReq r with
      | Some m =>
          match judge m st with
          | (st, Some _) => refuse r st
          | (st, None) => forwardAgentReqs reqs (forwardChannelReq r st)
          end
      | None => forwardAgentReqs reqs (forwardChannelReq r st)
      end
  end.

(** *** Input of a command *)

(** What the buffering loop and the streaming loop see: bytes, the end of the
    stream or a read error, which is the last thing read, the expiry of the idle
    timer. *)
Inductive StdinEvent := SChunk (b : string) | SErr (eof : bool) | SIdle.

Definition stdinMatchCap : nat := Pos.to_nat (2 ^ 20).

Record Buffered := mkBuffered { bf_prefix : string; bf_overflow : string; bf_truncated : bool; bf_eof : bool; bf_rest : list StdinEvent }.

Fixpoint buffering (prefix : string) (evs : list StdinEvent) : Buffered :=
  match evs with
  | [] => mkBuffered prefix "" false true []
  | SChunk b :: evs =>
      let room := (stdinMatchCap - String.length prefix)%nat in
      if (room <? String.length b)%nat then mkBuffered (prefix +:+ str_take room b) (str_drop room b) true false evs
      else buffering (prefix +:+ b) evs
  | SErr eof :: _ => mkBuffered prefix "" false eof []
  | SIdle :: evs => mkBuffered prefix "" (negb (String.eqb prefix "")) false evs
  end.

Definition write (data : string) (st : State) : State * bool :=
  if write_ok st.2 data then ((st.1, st.2 ++ [WriteUp data]), true) else (st, false).

(** The streaming loop: until the channel of chunks is closed, an error, or a
    write that fails. *)
Fixpoint stream (evs : list StdinEvent) (st : State) : State :=
  match evs with
  | [] => st
  | SChunk b :: evs => match write b st with (st, true) => stream evs st | (st, false) => st end
  | SErr _ :: _ => st
  | SIdle :: evs => stream evs st
  end.

(** The rest of [gateStdin] once the request is upstream. *)
Definition stream_stdin (bf : Buffered) (st : State) : State :=
  let close (st : State) : State := (st.1, st.2 ++ [CloseWriteUp]) in
  let '(st, ok) := if String.eqb (bf_prefix bf) "" then (st, true) else write (bf_prefix bf) st in
  if ok && bf_eof bf then close st
  else
    let '(st, ok) := if ok && negb (String.eqb (bf_overflow bf) "") then write (bf_overflow bf) st else (st, ok) in
    close (if ok then stream (bf_rest bf) st else st).

(** [gateStdin]: whether the action was allowed and reached the upstream. *)
Definition gateStdin (r : SshRequest) (m : SshMeta) (evs : list StdinEvent) (st : State) : State * bool :=
  let st := (st.1, st.2 ++ if rq_WantReply r then [ReplyAgent true] else []) in
  let bf := buffering "" evs in
  match judge (with_stdin m (bf_prefix bf) (bf_truncated bf)) st with
  | (st, Some reason) =>
      ((st.1, st.2 ++ if negb (String.eqb reason "") then [StderrAgent ("clawpatrol: " +:+ reason +:+ String "010" "")] else []), false)
  | (st, None) =>
      match answer st.2 (mkSshReq (rq_Type r) false (rq_Payload r)) with
      | None => (st, false)
      | Some _ => (stream_stdin bf (st.1, st.2 ++ [SentUp (rq_Type r) false (rq_Payload r)]), true)
      end
  end.

(** [gateAgentStdin]; [evs] is the input as it arrives once a command waits for
    it. *)
Fixpoint gateAgentStdin (reqs : list SshRequest) (evs : list StdinEvent) (st : State) : State :=
  match reqs with
  | [] => st
  | r :: reqs =>
      match metaForChannelReq r with
      | None => gateAgentStdin reqs evs (forwardChannelReq r st)
      | Some m =>
          if String.eqb (ssh_Verb m) VerbExec || String.eqb (ssh_Verb m) VerbShell then
            match gateStdin r m evs st with
            | (st, true) => forwardAgentReqs reqs st
            | (st, false) => (st.1, st.2 ++ [CloseBoth])
            end
          else
            match judge m st with
            | (st, Some _) => refuse r st
            | (st, None) =>
                let st := forwardChannelReq r st in
                forwardAgentReqs reqs (st.1, st.2 ++ [SpliceUp])
            end
      end
  end.

(** *** Channels and global requests *)

(** [OpenChannel] on the other side: opened, or the reason it is refused with. *)
Context (open_channel : list SshEffect -> NewChannel -> result unit string).

(** One turn of [pumpChannels]: whether a proxy was started, and which. *)
Inductive Proxy := NoProxy | proxyChannel | proxySessionStdinGated.

Definition pump_channel (inspectStdin : bool) (newCh : NewChannel) (accept_ok : bool) (st : State) : State * Proxy :=
  let '(st, denied) := match metaForChannelOpen newCh with Some m => judge m st | None => (st, None) end in
  match denied with
  | Some reason => ((st.1, st.2 ++ [RejectAgent reason]), NoProxy)
  | None =>
      match open_channel st.2 newCh with
      | Err reason => ((st.1, st.2 ++ [RejectAgent reason]), NoProxy)
      | Ok _ =>
          let st := (st.1, st.2 ++ [OpenUp (nc_ChannelType newCh) (nc_ExtraData newCh)]) in
          if negb accept_ok then (st, NoProxy)
          else (st, if inspectStdin && match gate with Some _ => true | None => false end && String.eqb (nc_ChannelType newCh) "session"
                    then proxySessionStdinGated else proxyChannel)
      end
  end.

(** A channel of the agent from its opening on, with the requests on it and the
    input. *)
Definition run_channel (inspectStdin : bool) (newCh : NewChannel) (accept_ok : bool) (reqs : list SshRequest) (evs : list StdinEvent)
    (st : State) : State :=
  match pump_channel inspectStdin newCh accept_ok st with
  | (st, NoProxy) => st
  | (st, proxyChannel) => forwardAgentReqs reqs (st.1, st.2 ++ [SpliceUp])
  | (st, proxySessionStdinGated) => gateAgentStdin reqs evs st
  end.

Definition isProxyDroppedGlobalReq (name : string) : bool :=
  String.eqb name "hostkeys-00@openssh.com" || String.eqb name "hostkeys-prove-00@openssh.com".

(** [pumpGlobalReqs]: the request sent on, if any, and the answer of the gateway
    ([None] when none is wanted). *)
Definition pump_global (answer : SshRequest -> option (bool * string)) (r : SshRequest) : option SshRequest * option (bool * string) :=
  if isProxyDroppedGlobalReq (rq_Type r) then (None, if rq_WantReply r then Some (false, "") else None)
  else (Some r, if rq_WantReply r then Some (default (false, "") (answer r)) else None).
End Pumps.

(** The gate as the pumps call it: each call is a judgement and an event. *)
Definition agent_gate {W} (ch : ConnHandle W) (agentUser credName : string) (m : SshMeta) (w : W) : W * list SshEffect * option string :=
  let '(w', ev, denied) := makeGate ch agentUser credName m w in
  (w', [Judged (ssh_request ch agentUser credName m) denied; Emit ev], denied).

(** [forwardUpstreamReqs]: what the agent is sent, and the events. *)
Definition forwardUpstreamReqs `{!SshCodec} (emit : option string) (reqs : list SshRequest) : list SshRequest * list ConnEvent :=
  (reqs, match emit with Some credName => omap (classifyUpstreamChannelReq credName) reqs | None => [] end).

(** ** Choosing credential and upstream *)

(** The loop of [pickSSHCredential]. *)
Fixpoint pick_user (agentUser : string) (fallback : option CompiledCredential) (entries : list CompiledCredential) : option CompiledCredential :=
  match entries with
  | [] => fallback
  | c :: entries =>
      let want := default "" (cc_Disambiguators c !! "user") in
      if String.eqb want "" then pick_user agentUser (Some c) entries
      else if String.eqb agentUser want then Some c
      else pick_user agentUser fallback entries
  end.

Definition pickSSHCredential (policy : option CompiledPolicy) (profile : string) (ep : option CompiledEndpoint) (agentUser : string)
    : option CompiledCredential :=
  match ep, policy with
  | Some ep, Some policy =>
      match pol_Profiles policy !! profile with
      | None => None
      | Some prof =>
          match default [] (prof_EndpointCredentials prof !! ep_Name ep) with
          | [] => None
          | [c] as entries => if bool_decide (cc_Disambiguators c = ∅) then Some c else pick_user agentUser None entries
          | entries => pick_user agentUser None entries
          end
      end
  | _, _ => None
  end.

Fixpoint pick_host (dstPort : Z) (hosts : list string) : option string :=
  match hosts with
  | [] => None
  | h :: hosts =>
      if HasSuffix h (":" +:+ Zdecimal dstPort) then Some h
      else if (dstPort =? 22) && negb (Contains h ":") then Some (h +:+ ":22")
      else pick_host dstPort hosts
  end.

Definition pickUpstream (hosts : list string) (dstPort : Z) : string :=
  match hosts with
  | [] => ""
  | first :: _ =>
      match (if dstPort =? 0 then None else pick_host dstPort hosts) with
      | Some h => h
      | None => if Contains first ":" then first else first +:+ ":22"
      end
  end.

(** ** Authentication to the upstream *)

Section Upstream.
(** Keys: [ParsePrivateKey] with an optional passphrase, [ParseAuthorizedKey]
    followed by [Marshal]. *)
Context {Signer : Type} (parse_key : string -> option string -> result Signer string) (parse_authorized : string -> result string string).

Inductive AuthMethod := PublicKeys (s : Signer) | Password (p : string).

(** [ssh.ClientConfig]; the host-key callback is given the marshalled key. *)
Record ClientConfig := mkClientConfig { cl_User : string; cl_Auth : list AuthMethod; cl_HostKeyCallback : string -> bool }.

Definition buildHostKeyCallback (hostPubkey : string) : result (string -> bool) string :=
  if String.eqb hostPubkey "" then Ok (λ _, true)
  else match parse_authorized hostPubkey with
       | Err e => Err e
       | Ok pinned => Ok (λ key, String.eqb key pinned)
       end.

Definition auth_methods (creds : SSHCreds) : result (list AuthMethod) string :=
  let? keys := (if String.eqb (ssh_PrivateKey creds) "" then Ok []
                else match parse_key (ssh_PrivateKey creds)
                             (if String.eqb (ssh_Passphrase creds) "" then None else Some (ssh_Passphrase creds)) with
                     | Err e => Err ("parse private_key: " +:+ e)
                     | Ok signer => Ok [PublicKeys signer]
                     end) in
  Ok (keys ++ if String.eqb (ssh_Password creds) "" then [] else [Password (ssh_Password creds)]).

(** [upstreamClientConfig]; [auth] is the credential's [SSHAuth], when it has
    one. *)
Definition upstreamClientConfig (auth : option (Secret -> result SSHCreds string)) (secret : result Secret string) (agentUser : string)
    : result ClientConfig string :=
  match auth with
  | None => Err "does not implement sshproto.AuthCredential"
  | Some auth =>
      match secret with
      | Err e => Err ("fetch secret: " +:+ e)
      | Ok sec =>
          let? creds := auth sec in
          let? methods := auth_methods creds in
          if bool_decide (length methods = 0%nat) then Err "neither private_key nor password set — paste one via the dashboard"
          else match buildHostKeyCallback (ssh_HostPubkey creds) with
               | Err e => Err ("parse host_pubkey: " +:+ e)
               | Ok cb => Ok (mkClientConfig agentUser methods cb)
               end
      end
  end.

(** ** Connections *)

(** What a connection comes to: an error, or the two sides with the credential,
    the address, the configuration of the client and the event that opens it. *)
Inductive SshConnection :=
  | SshError (msg : string)
  | SshServing (agentUser : string) (cc : CompiledCredential) (addr : string) (cfg : ClientConfig) (opening : ConnEvent).

Context {W : Type} (ch : ConnHandle W) (body : option (list string)) (hasBlobs : bool) (DstPort : Z).
(** The host key, the server handshake (the user the agent names), the plugins'
    [SSHAuth], the secrets, the dial and the client handshake. *)
Context (hostKey : result Signer string) (serve : result string string) (ssh_auth : Entity -> option (Secret -> result SSHCreds string))
  (secrets : string -> result Secret string) (dial : string -> result unit string) (connect : string -> ClientConfig -> result unit string).

Definition ssh_HandleConn : SshConnection :=
  let ep := ch_Endpoint ch in
  if negb (String.eqb (ep_Family ep) "ssh") then SshError "ssh runtime invoked on non-ssh endpoint"
  else if negb hasBlobs then SshError "ssh runtime needs a BlobStore to persist host keys"
  else match body with
       | None => SshError "ssh endpoint body"
       | Some hosts =>
           match hostKey with
           | Err e => SshError e
           | Ok _ =>
               let addr := pickUpstream hosts DstPort in
               if String.eqb addr "" then SshError "no host matching dst port"
               else match serve with
                    | Err e => SshError ("ssh server handshake: " +:+ e)
                    | Ok agentUser =>
                        if String.eqb agentUser "" then SshError "agent did not specify a username"
                        else match pickSSHCredential (ch_Policy ch) (ch_Profile ch) (Some ep) agentUser with
                             | None => SshError "no credential matching agent user"
                             | Some cc =>
                                 let name := ent_Name (cc_Credential cc) in
                                 match upstreamClientConfig (ssh_auth (cc_Credential cc)) (secrets name) agentUser with
                                 | Err e => SshError e
                                 | Ok cfg =>
                                     match dial addr with
                                     | Err e => SshError ("dial upstream: " +:+ e)
                                     | Ok _ =>
                                         match connect addr cfg with
                                         | Err e => SshError ("ssh client handshake: " +:+ e)
                                         | Ok _ =>
                                             SshServing agentUser cc addr cfg
                                               (mkConnEvent name "allow" "" "connect" (agentUser +:+ "@" +:+ addr) "" "" "" "")
                                         end
                                     end
                                 end
                             end
                    end
           end
       end.
End Upstream.

(** ** Host keys *)

Section HostKeys.
Context {Signer : Type} (parse : string -> result Signer string) (marshal : Signer -> string).

(** The cache of the process and the rows of the blob store. *)
Record Keys := mkKeys { hk_cache : gmap string Signer; hk_blobs : gmap string string }.

(** [hostKeyFor] between its accesses to the two. *)
Inductive KeyJob :=
  | KLoad | KGet | KPut (minted : Signer) | KStore (s : Signer) | KDone (r : result Signer string).

(** One access; [minted] is the key generated if one is. *)
Definition hostKeyFor_step (name : string) (minted : Signer) (j : KeyJob) (k : Keys) : KeyJob * Keys :=
  match j with
  | KLoad => match hk_cache k !! name with Some s => (KDone (Ok s), k) | None => (KGet, k) end
  | KGet =>
      match hk_blobs k !! name with
      | Some data => match parse data with Ok s => (KStore s, k) | Err e => (KDone (Err e), k) end
      | None => (KPut minted, k)
      end
  | KPut s => (KStore s, mkKeys (hk_cache k) (<[name := marshal s]> (hk_blobs k)))
  | KStore s => (KDone (Ok s), mkKeys (<[name := s]> (hk_cache k)) (hk_blobs k))
  | KDone r => (KDone r, k)
  end.

(** [hostKeyFor] undisturbed. *)
Definition hostKeyFor (name : string) (minted : Signer) (k : Keys) : KeyJob * Keys :=
  Nat.iter 4 (λ '(j, k), hostKeyFor_step name minted j k) (KLoad, k).
End HostKeys.

Arguments ClientConfig Signer : clear implicits.
Arguments SshConnection Signer : clear implicits.
Arguments KeyJob Signer : clear implicits.
Arguments Keys Signer : clear implicits.
