(* ===== verification/SshProps.v ===== *)
(** * What the ssh endpoint guarantees *)
From S2P Require Import Prelude GoStrings NetAddr GoUrl GoHttp Wire Policy Dispatch Approver SqlConn Fingerprint RequestLoop Credentials OAuth PgConn CelMatch Facets CelProps Ssh.

(** ** What lets an action through *)

(** No rule of the endpoint refuses the request, and where one asks for approval
    an approver has answered [allow]. *)
Inductive ssh_cleared {W} (ch : ConnHandle W) (req : Request) : Prop :=
| ssh_cleared_default :
    MatchRequest (Some (ch_Endpoint ch)) (Some req) = None → ssh_cleared ch req
| ssh_cleared_rule cr :
    MatchRequest (Some (ch_Endpoint ch)) (Some req) = Some cr →
    out_Approve (rule_Outcome cr) = [] → out_Verdict (rule_Outcome cr) ≠ "deny" → ssh_cleared ch req
| ssh_cleared_approved cr ap call w :
    MatchRequest (Some (ch_Endpoint ch)) (Some req) = Some cr →
    out_Approve (rule_Outcome cr) ≠ [] → ch_Approve ch = Some ap →
    call_Rule call = cr → call_Stages call = out_Approve (rule_Outcome cr) →
    v_Decision (snd (ap call w)) = "allow" → ssh_cleared ch req.

Lemma makeGate_passes {W} (ch : ConnHandle W) user cred m w w' ev :
  makeGate ch user cred m w = (w', ev, None) → ssh_cleared ch (ssh_request ch user cred m) ∧ ce_Action ev ∈ ["allow"; "approved"].
Proof.
  unfold makeGate. destruct (MatchRequest _ _) as [cr|] eqn:Em.
  2: { intros [= <- <-]. split; [by apply ssh_cleared_default|]. cbn. by left. }
  destruct (out_Approve (rule_Outcome cr)) as [|st stages] eqn:Ea.
  - destruct (String.eqb_spec (out_Verdict (rule_Outcome cr)) "deny"); [done|]. intros [= <- <-].
    split; [by eapply ssh_cleared_rule|by left].
  - destruct (ch_Approve ch) as [ap|] eqn:Eap; [|done]. destruct (ap _ w) as [w1 v] eqn:Ev.
    destruct (String.eqb_spec (v_Decision v) "allow") as [Hv|]; cbn [negb]; [|done]. intros [= <- <-].
    split; [|right; by left]. eapply (ssh_cleared_approved ch _ cr ap (mkCall (st :: stages) (ssh_Verb m) _ cr) w); [done|by rewrite Ea|done..| |].
    + by rewrite Ea.
    + by rewrite Ev.
Qed.

Lemma makeGate_refuses {W} (ch : ConnHandle W) user cred m w w' ev reason :
  makeGate ch user cred m w = (w', ev, Some reason) → ce_Action ev ∈ ["deny"; "denied"] ∧ reason ≠ "".
Proof.
  unfold makeGate. destruct (MatchRequest _ _) as [cr|]; [|done].
  assert (∀ r d, d ≠ "" → reason_or r d ≠ "") as Hr.
  { intros r d Hd. unfold reason_or. by destruct (String.eqb_spec r ""). }
  destruct (out_Approve (rule_Outcome cr)) as [|st stages].
  - destruct (String.eqb _ "deny"); [|done]. intros [= <- <- <-]. split; [by left|by apply Hr].
  - destruct (ch_Approve ch) as [ap|]; [|intros [= <- <- <-]; split; [by left|done]].
    destruct (ap _ w) as [w1 v]. destruct (negb _); [|done]. intros [= <- <- <-]. split; [right; by left|by apply Hr].
Qed.

(** ** The copier *)

Lemma pumpDir_elem b tr tr' e : pumpDir b tr tr' → e ∈ tr' → (∃ data, e = CopyUp data) ∨ e ∈ tr.
Proof. induction 1; set_solver. Qed.

(** A trace cut at an effect of the loop. *)
Lemma pumpDir_split b tr l1 e l2 :
  pumpDir b tr (l1 ++ e :: l2) → (∀ data, e ≠ CopyUp data) →
  ∃ m1 m2, tr = m1 ++ e :: m2 ∧ pumpDir (copying (foldl copying b m1) e) m2 l2.
Proof.
  revert b tr. induction l1 as [|x l1 IH]; intros b tr Hp He; cbn [app] in Hp.
  - inversion Hp; subst; [by exists [], tr0|by edestruct He].
  - inversion Hp as [|? ? tr1 ? Hp'|? ? ? Hp']; subst; destruct (IH _ _ Hp' He) as (m1 & m2 & -> & Hm); [by exists (x :: m1), m2|by exists m1, m2].
Qed.

Lemma pumpDir_app b m1 m2 tr' :
  pumpDir b (m1 ++ m2) tr' → ∃ k1 k2, tr' = k1 ++ k2 ∧ pumpDir (foldl copying b m1) m2 k2.
Proof.
  remember (m1 ++ m2) as tr eqn:E. intros H. revert m1 m2 E. induction H as [b|b e tr tr' H IH|data tr tr' H IH]; intros m1 m2 E.
  - symmetry in E. apply app_eq_nil in E as [-> ->]. exists [], []. split; [done|constructor].
  - destruct m1 as [|x m1]; cbn in E; [subst m2; exists [], (e :: tr'); split; [done|by constructor]|].
    injection E as <- ->. destruct (IH m1 m2 eq_refl) as (k1 & k2 & -> & Hk). by exists (e :: k1), k2.
  - destruct (IH m1 m2 E) as (k1 & k2 & -> & Hk). by exists (CopyUp data :: k1), k2.
Qed.

(** Without a splice nothing is copied. *)
Lemma pumpDir_off tr tr' : pumpDir false tr tr' → SpliceUp ∉ tr → tr' = tr.
Proof.
  remember false as b eqn:E. intros H. revert E. induction H as [|b e tr tr' H IH|]; intros E Hs; [done| |done].
  subst b. rewrite IH; [done| |set_solver]. destruct e; cbn; try done. set_solver.
Qed.

Lemma copying_off b l : SpliceUp ∉ l → b = false → foldl copying b l = false.
Proof.
  revert b. induction l as [|e l IH]; intros b Hs ->; [done|]. cbn. apply IH; [set_solver|]. destruct e; try done. set_solver.
Qed.

(** ** Traces *)

Section Traces.
Context `{Codec : SshCodec} {W : Type} (ch : ConnHandle W) (user cred : string).
Context (answer : list SshEffect -> SshRequest -> option bool) (write_ok : list SshEffect -> string -> bool).

Notation gate := (Some (agent_gate ch user cred)).
Notation State := (W * list SshEffect)%type.

(** A request may go upstream when it is no action, or was cleared, with
    whatever input it was judged with. *)
Definition sanctioned (e : SshEffect) : Prop :=
  match e with
  | SentUp type _ payload =>
      match metaForChannelReq (mkSshReq type true payload) with
      | None => True
      | Some m => ∃ stdin trunc, ssh_cleared ch (ssh_request ch user cred (with_stdin m stdin trunc))
      end
  | OpenUp type extra =>
      match metaForChannelOpen (mkNewChannel type extra) with
      | None => True
      | Some m => ssh_cleared ch (ssh_request ch user cred m)
      end
  | _ => True
  end.

(** What the loop over the requests sends upstream. *)
Definition upward (e : SshEffect) : bool :=
  match e with SentUp _ _ _ | WriteUp _ | SpliceUp | OpenUp _ _ => true | _ => false end.

(** An effect that neither reaches the upstream nor refuses anything. *)
Definition quiet (e : SshEffect) : Prop :=
  match e with
  | SentUp _ _ _ | WriteUp _ | SpliceUp | OpenUp _ _ | CopyUp _ | Judged _ (Some _) => False
  | _ => True
  end.

(** Nothing reaches the upstream after a refusal, and a channel whose input is
    being copied is closed. *)
Definition refusal_final (tr : list SshEffect) : Prop :=
  ∀ l1 req reason l2, tr = l1 ++ Judged req (Some reason) :: l2 →
    Forall quiet l2 ∧ (CloseBoth ∈ l2 ∨ SpliceUp ∉ l1).

(** No refusal so far. *)
Definition unrefused (tr : list SshEffect) : Prop := Forall (λ e, match e with Judged _ (Some _) => False | _ => True end) tr.

Lemma quiet_unrefused l : Forall quiet l → unrefused l.
Proof. intros H. eapply Forall_impl; [done|]. by intros []. Qed.

Lemma unrefused_final tr : unrefused tr → refusal_final tr.
Proof.
  intros Hu l1 req reason l2 ->. unfold unrefused in Hu. rewrite Forall_app, Forall_cons in Hu. by destruct Hu as (_ & [] & _).
Qed.

Lemma refused_final tr req reason l :
  unrefused tr → Forall quiet l → CloseBoth ∈ l ∨ SpliceUp ∉ tr → refusal_final (tr ++ Judged req (Some reason) :: l).
Proof.
  intros Hu Hl Hc l1 req' reason' l2 Heq. apply app_eq_app in Heq as (k & [[-> Heq]|[-> Heq]]).
  - destruct k as [|e k]; simplify_eq/=; [rewrite app_nil_r in Hc; by split|].
    unfold unrefused in Hu. rewrite Forall_app, Forall_cons in Hu. by destruct Hu as (_ & [] & _).
  - destruct k as [|e k]; simplify_eq/=; [rewrite app_nil_r; by split|].
    rewrite Forall_app, Forall_cons in Hl. by destruct Hl as (_ & [] & _).
Qed.

(** What one judgement adds. *)
Lemma judge_gate m (st st' : State) denied :
  judge gate m st = (st', denied) →
  ∃ ev, st'.2 = st.2 ++ [Judged (ssh_request ch user cred m) denied; Emit ev] ∧
    (denied = None → ssh_cleared ch (ssh_request ch user cred m)).
Proof.
  unfold judge, agent_gate. destruct (makeGate ch user cred m st.1) as [[w ev] d] eqn:E. intros [= <- <-].
  exists ev. split; [done|]. intros ->. by destruct (makeGate_passes _ _ _ _ _ _ _ E).
Qed.

Lemma forwardChannelReq_adds r (st : State) :
  (forwardChannelReq answer r st).1 = st.1 ∧
  ∃ l, (forwardChannelReq answer r st).2 = st.2 ++ SentUp (rq_Type r) (rq_WantReply r) (rq_Payload r) :: l ∧
    Forall quiet l.
Proof.
  destruct st as [w tr]. unfold forwardChannelReq. split; [done|]. destruct (rq_WantReply r); cbn; [|exists []; by repeat constructor].
  eexists. rewrite <- app_assoc. split; [reflexivity|]. by repeat constructor.
Qed.

(** The invariant of a pump that has refused nothing yet, and what it keeps when
    it ends. *)
Definition running (tr : list SshEffect) : Prop := Forall sanctioned tr ∧ unrefused tr.
Definition ended (tr : list SshEffect) : Prop := Forall sanctioned tr ∧ refusal_final tr.

Lemma running_ended tr : running tr → ended tr.
Proof. intros [Hs Hu]. split; [done|by apply unrefused_final]. Qed.

Lemma running_app tr l : running tr → Forall sanctioned l → unrefused l → running (tr ++ l).
Proof. intros [Hs Hu] Hl Hl'. split; [by apply Forall_app|]. by apply Forall_app. Qed.

Lemma quiet_sanctioned l : Forall quiet l → Forall sanctioned l.
Proof. intros H. eapply Forall_impl; [done|]. intros []; cbn; done. Qed.

Lemma quiet_ended tr l : running tr → Forall quiet l → ended (tr ++ l).
Proof. intros Hr Hl. apply running_ended, running_app; [done|by apply quiet_sanctioned|by apply quiet_unrefused]. Qed.

Lemma refused_ended tr req reason l :
  running tr → Forall quiet l → CloseBoth ∈ l ∨ SpliceUp ∉ tr → ended (tr ++ Judged req (Some reason) :: l).
Proof.
  intros [Hs Hu] Hl Hc. split; [|by apply refused_final].
  apply Forall_app. split; [done|]. constructor; [done|]. by apply quiet_sanctioned.
Qed.

Lemma meta_wantReply r : metaForChannelReq (mkSshReq (rq_Type r) true (rq_Payload r)) = metaForChannelReq r.
Proof. by destruct r. Qed.

Lemma running_forward r (st : State) :
  running st.2 →
  (∀ m, metaForChannelReq r = Some m → ssh_cleared ch (ssh_request ch user cred m)) →
  running (forwardChannelReq answer r st).2.
Proof.
  intros Hr Hm. destruct (forwardChannelReq_adds r st) as (_ & l & -> & Hl).
  apply running_app; [done| |constructor; [done|by apply quiet_unrefused]].
  constructor; [|by apply quiet_sanctioned]. cbn. rewrite meta_wantReply. destruct (metaForChannelReq r) as [m|]; [|done].
  exists (ssh_Stdin m), (ssh_Truncated m). destruct m. by apply Hm.
Qed.

(** A judgement either lets the pump run on, or is its last. *)
Lemma judge_running m (st st' : State) denied :
  judge gate m st = (st', denied) → running st.2 →
  match denied with
  | None => running st'.2 ∧ ssh_cleared ch (ssh_request ch user cred m)
  | Some _ => ∀ l, Forall quiet l → CloseBoth ∈ l ∨ SpliceUp ∉ st.2 → ended (st'.2 ++ l)
  end.
Proof.
  intros (ev & -> & Hc)%judge_gate Hr. destruct denied as [reason|].
  - intros l Hl Hcl. rewrite <- app_assoc. apply refused_ended; [done|by constructor|].
    destruct Hcl as [Hcl|Hcl]; [left; by apply list_elem_of_further|by right].
  - split; [|by apply Hc]. apply running_app; [done|by repeat constructor..].
Qed.

Lemma refuse_quiet r (st : State) : ∃ l, (refuse r st).2 = st.2 ++ l ∧ Forall quiet l ∧ CloseBoth ∈ l.
Proof.
  unfold refuse. eexists. split; [reflexivity|]. split; [destruct (rq_WantReply r); by repeat constructor|].
  apply elem_of_app. right. by left.
Qed.

Lemma forwardAgentReqs_ended reqs (st : State) : running st.2 → ended (forwardAgentReqs gate answer reqs st).2.
Proof.
  revert st. induction reqs as [|r reqs IH]; intros st Hr; [by apply running_ended|]. cbn [forwardAgentReqs].
  destruct (metaForChannelReq r) as [m|] eqn:Em; [|apply IH, running_forward; [done|by intros m; rewrite Em]].
  destruct (judge gate m st) as [st' denied] eqn:Ej. pose proof (judge_running _ _ _ _ Ej Hr) as Hj. destruct denied as [reason|].
  - destruct (refuse_quiet r st') as (l & -> & Hl & Hcl). apply Hj; auto.
  - destruct Hj as [Hr' Hc]. apply IH, running_forward; [done|]. intros m' Hm'. by simplify_eq.
Qed.

(** *** Input *)

(** The bytes the agent sends before the end of its input. *)
Fixpoint input (evs : list StdinEvent) : string :=
  match evs with
  | SChunk b :: evs => b +:+ input evs
  | SIdle :: evs => input evs
  | SErr _ :: _ | [] => ""
  end.

(** The bytes of the input that reach the upstream. *)
Fixpoint written (tr : list SshEffect) : string :=
  match tr with WriteUp d :: tr => d +:+ written tr | _ :: tr => written tr | [] => "" end.

Lemma written_app l1 l2 : written (l1 ++ l2) = written l1 +:+ written l2.
Proof. induction l1 as [|[] l1 IH]; cbn; rewrite ?IH; [done|done|done|by rewrite str_app_assoc|done..]. Qed.

(** Nothing the agent sends is lost between buffer and stream, and without
    truncation the buffer is all of it, unless the timer fired before the first
    byte. *)
Lemma buffering_exact p evs :
  let bf := buffering p evs in
  bf_prefix bf +:+ bf_overflow bf +:+ input (bf_rest bf) = p +:+ input evs ∧ (bf_eof bf = true → bf_rest bf = [] ∧ bf_overflow bf = "").
Proof.
  revert p. induction evs as [|[b|eof|] evs IH]; intros p; cbn [buffering input]; [done| |done|done].
  destruct (_ <? _)%nat.
  - cbn [bf_prefix bf_overflow bf_rest bf_eof]. split; [|done].
    by rewrite str_app_assoc, <- (str_app_assoc (str_take _ b)), str_take_drop.
  - destruct (IH (p +:+ b)) as [Hb He]. split; [|exact He]. by rewrite Hb, str_app_assoc.
Qed.


Definition is_write (e : SshEffect) : Prop := match e with WriteUp _ => True | _ => False end.

Definition writes_succeed : Prop := ∀ tr d, write_ok tr d = true.

Lemma writes_running tr l : running tr → Forall is_write l → running (tr ++ l).
Proof. intros Hr Hl. apply running_app; [done|..]; (eapply Forall_impl; [done|]); by intros []. Qed.

Lemma write_adds d (st : State) :
  ∃ l, (write write_ok d st).1.2 = st.2 ++ l ∧ Forall is_write l ∧ (writes_succeed → written l = d ∧ (write write_ok d st).2 = true).
Proof.
  unfold write. destruct (write_ok st.2 d) eqn:E; cbn.
  - exists [WriteUp d]. split_and!; [done|by repeat constructor|]. intros _. cbn. by rewrite str_app_nil_r.
  - exists []. rewrite app_nil_r. split_and!; [done|constructor|]. intros H. by rewrite H in E.
Qed.

Lemma stream_adds evs (st : State) :
  ∃ l, (stream write_ok evs st).2 = st.2 ++ l ∧ Forall is_write l ∧ (writes_succeed → written l = input evs).
Proof.
  revert st. induction evs as [|[b|eof|] evs IH]; intros st; cbn [stream input]; [ | | |apply IH].
  1, 3: exists []; rewrite app_nil_r; by repeat constructor.
  destruct (write_adds b st) as (l & Hl & Hw & Hs). destruct (write write_ok b st) as [st1 ok]; cbn [fst snd] in *.
  destruct ok; [|exists l; split_and!; [done..|]; intros H; by destruct (Hs H)].
  destruct (IH st1) as (l' & -> & Hw' & Hs'). exists (l ++ l'). rewrite Hl, app_assoc. split_and!; [done|by apply Forall_app|].
  intros H. rewrite written_app, Hs' by done. by rewrite (proj1 (Hs H)).
Qed.

Lemma stream_stdin_adds bf (st : State) :
  (bf_eof bf = true → bf_rest bf = [] ∧ bf_overflow bf = "") →
  ∃ l, (stream_stdin write_ok bf st).2 = st.2 ++ l ++ [CloseWriteUp] ∧ Forall is_write l ∧
    (writes_succeed → written l = bf_prefix bf +:+ bf_overflow bf +:+ input (bf_rest bf)).
Proof.
  intros He. unfold stream_stdin.
  assert (∃ l st1 ok, (if String.eqb (bf_prefix bf) "" then (st, true) else write write_ok (bf_prefix bf) st) = (st1, ok) ∧
    st1.2 = st.2 ++ l ∧ Forall is_write l ∧ (writes_succeed → written l = bf_prefix bf ∧ ok = true)) as (l1 & st1 & ok1 & -> & H1 & W1 & S1).
  { destruct (String.eqb_spec (bf_prefix bf) "") as [->|].
    - exists [], st, true. rewrite app_nil_r. by split_and!.
    - destruct (write_adds (bf_prefix bf) st) as (l & H & Hw & Hs). destruct (write _ _ st) as [st1 ok]. by exists l, st1, ok. }
  destruct (ok1 && bf_eof bf) eqn:Eeof.
  { exists l1. cbn. rewrite H1, app_assoc. split_and!; [done..|]. intros H. apply andb_true_iff in Eeof as [_ Eeof].
    destruct (He Eeof) as [-> ->]. cbn. rewrite str_app_nil_r. by apply S1. }
  assert (∃ l st2 ok, (if ok1 && negb (String.eqb (bf_overflow bf) "") then write write_ok (bf_overflow bf) st1 else (st1, ok1)) = (st2, ok) ∧
    st2.2 = st1.2 ++ l ∧ Forall is_write l ∧ (writes_succeed → written l = bf_overflow bf ∧ ok = true)) as (l2 & st2 & ok2 & -> & H2 & W2 & S2).
  { destruct (ok1 && negb (String.eqb (bf_overflow bf) "")) eqn:Eo.
    - destruct (write_adds (bf_overflow bf) st1) as (l & H & Hw & Hs). destruct (write _ _ st1) as [st2 ok]. by exists l, st2, ok.
    - exists [], st1, ok1. rewrite app_nil_r. split_and!; [done..|constructor|]. intros H. destruct (S1 H) as [_ ->]. cbn in Eo.
      split; [|done]. by destruct (String.eqb_spec (bf_overflow bf) ""). }
  destruct (stream_adds (bf_rest bf) st2) as (l3 & H3 & W3 & S3). destruct ok2.
  - exists (l1 ++ l2 ++ l3). cbn. rewrite H3, H2, H1, <- !app_assoc. split_and!; [done|by repeat apply Forall_app_2|].
    intros H. rewrite !written_app, S3, (proj1 (S1 H)), (proj1 (S2 H)) by done. done.
  - exists (l1 ++ l2). cbn. rewrite H2, H1, <- !app_assoc. split_and!; [done|by apply Forall_app|]. intros H. by destruct (S2 H).
Qed.

(** What [gateStdin] does, whole: a judgement on what was buffered; nothing but
    words to the agent after a refusal; the request and then the input after
    clearance. *)
Lemma gateStdin_spec r m evs (st : State) st' ok :
  gateStdin gate answer write_ok r m evs st = (st', ok) →
  let bf := buffering "" evs in let m' := with_stdin m (bf_prefix bf) (bf_truncated bf) in
  ∃ pre ev denied post, st'.2 = st.2 ++ pre ++ [Judged (ssh_request ch user cred m') denied; Emit ev] ++ post ∧
    Forall quiet pre ∧
    (denied = None → ssh_cleared ch (ssh_request ch user cred m')) ∧
    (ok = false → Forall quiet post ∧ (denied = None → post = [])) ∧
    (ok = true → denied = None ∧ ∃ l, post = SentUp (rq_Type r) false (rq_Payload r) :: l ++ [CloseWriteUp] ∧ Forall is_write l ∧
       (writes_succeed → written l = input evs)).
Proof.
  unfold gateStdin. set (bf := buffering "" evs). set (pre := if rq_WantReply r then [ReplyAgent true] else []).
  set (m' := with_stdin m (bf_prefix bf) (bf_truncated bf)).
  assert (Forall quiet pre) as Hq by (unfold pre; destruct (rq_WantReply r); by repeat constructor).
  destruct (judge gate m' (st.1, st.2 ++ pre)) as [st1 denied] eqn:Ej. apply judge_gate in Ej as (ev & H1 & Hc). cbn [snd] in H1.
  destruct denied as [reason|].
  - intros [= <- <-]. eexists pre, ev, (Some reason), _. cbn [snd]. rewrite H1, <- !app_assoc. split_and!; try done.
    intros _. split; [|done]. destruct (negb _); by repeat constructor.
  - destruct (answer st1.2 _) as [b|].
    + intros [= <- <-]. destruct (buffering_exact "" evs) as [Hb He]. fold bf in Hb, He.
      destruct (stream_stdin_adds bf (st1.1, st1.2 ++ [SentUp (rq_Type r) false (rq_Payload r)]) He) as (l & -> & Hl & Hs).
      exists pre, ev, None, (SentUp (rq_Type r) false (rq_Payload r) :: l ++ [CloseWriteUp]). cbn [snd].
      rewrite H1, <- !app_assoc. split_and!; try done. intros _. split; [done|]. exists l. split_and!; [done..|].
      intros H. rewrite Hs by done. by rewrite Hb.
    + intros [= <- <-]. exists pre, ev, None, []. rewrite H1, app_nil_r, <- !app_assoc. by split_and!.
Qed.

Lemma gateStdin_running r m evs (st : State) st' ok :
  metaForChannelReq r = Some m → gateStdin gate answer write_ok r m evs st = (st', ok) → running st.2 →
  if ok then running st'.2 else ∀ l, Forall quiet l → CloseBoth ∈ l → ended (st'.2 ++ l).
Proof.
  intros Hm (pre & ev & denied & post & -> & Hq & Hc & Hf & Ht)%gateStdin_spec Hr. cbv zeta in *.
  assert (running (st.2 ++ pre)) as Hr1 by (apply running_app; [done|by apply quiet_sanctioned|by apply quiet_unrefused]).
  destruct ok.
  - destruct (Ht eq_refl) as (-> & l & -> & Hl & _). rewrite app_assoc. apply running_app; [done|..].
    + repeat (constructor; [done|]). constructor; [|apply Forall_app; split; [eapply Forall_impl; [done|]; by intros []|by repeat constructor]].
      cbn. rewrite meta_wantReply, Hm. eexists _, _. by apply Hc.
    + repeat (constructor; [done|]). apply Forall_app; split; [eapply Forall_impl; [done|]; by intros []|by repeat constructor].
  - intros l Hl Hcl. destruct (Hf eq_refl) as [Hp Hn]. rewrite app_assoc, <- (app_assoc (st.2 ++ pre)). cbn [app]. destruct denied as [reason|].
    + apply refused_ended; [done|constructor; [done|by apply Forall_app]|]. left. apply list_elem_of_further, elem_of_app. by right.
    + rewrite Hn by done. apply quiet_ended; [done|]. by repeat constructor.
Qed.

Lemma gateAgentStdin_ended reqs evs (st : State) : running st.2 → ended (gateAgentStdin gate answer write_ok reqs evs st).2.
Proof.
  revert st. induction reqs as [|r reqs IH]; intros st Hr; [by apply running_ended|]. cbn [gateAgentStdin].
  destruct (metaForChannelReq r) as [m|] eqn:Em; [|apply IH, running_forward; [done|by intros m; rewrite Em]].
  destruct (_ || _).
  - destruct (gateStdin _ _ _ r m evs st) as [st' ok] eqn:Eg. pose proof (gateStdin_running _ _ _ _ _ _ Em Eg Hr) as Hg.
    destruct ok; [by apply forwardAgentReqs_ended|]. apply Hg; [by repeat constructor|by left].
  - destruct (judge gate m st) as [st' denied] eqn:Ej. pose proof (judge_running _ _ _ _ Ej Hr) as Hj. destruct denied as [reason|].
    + destruct (refuse_quiet r st') as (l & -> & Hl & Hcl). apply Hj; auto.
    + destruct Hj as [Hr' Hc]. apply forwardAgentReqs_ended, running_app; [|by repeat constructor..].
      apply running_forward; [done|]. intros m' Hm'. by simplify_eq.
Qed.

(** *** After a refusal *)

Lemma quiet_not_spliced l : Forall quiet l → SpliceUp ∉ l.
Proof. rewrite Forall_forall. intros H Hin. by apply (H SpliceUp). Qed.

Lemma quiet_not_copied l data : Forall quiet l → CopyUp data ∉ l.
Proof. rewrite Forall_forall. intros H Hin. by apply (H (CopyUp data)). Qed.

(** A refusal stops the loop at once, and the copier when the halves are closed. *)
Lemma refusal_stops tr0 l1 req reason l2 :
  refusal_final tr0 → pumpDir false tr0 (l1 ++ Judged req (Some reason) :: l2) →
  (∀ e, e ∈ l2 → upward e = false) ∧
  ((∀ data, CopyUp data ∉ l2) ∨ ∃ k1 k2, l2 = k1 ++ CloseBoth :: k2 ∧ ∀ data, CopyUp data ∉ k2).
Proof.
  intros Hf Hp. apply pumpDir_split in Hp as (m1 & m2 & -> & Hp); [|done]. cbn [copying] in Hp.
  destruct (Hf _ _ _ _ eq_refl) as [Hq Hc]. split.
  { intros e [[data ->]|He]%(pumpDir_elem _ _ _ _ Hp); [done|]. rewrite Forall_forall in Hq. specialize (Hq e He). by destruct e. }
  destruct Hc as [(a & c & ->)%list_elem_of_split|Hc].
  - right. apply Forall_app in Hq as [_ Hq]. apply Forall_cons in Hq as [_ Hq].
    apply pumpDir_app in Hp as (k1 & k2 & -> & Hk).
    assert (∃ j1 j2, k2 = j1 ++ CloseBoth :: j2 ∧ pumpDir false c j2) as (j1 & j2 & -> & Hj).
    { clear -Hk. remember (CloseBoth :: c) as m eqn:E. revert E. induction Hk as [|b e tr tr' H IH|data tr tr' H IH]; intros E; [done|..].
      - injection E as -> ->. by exists [], tr'.
      - destruct (IH E) as (j1 & j2 & -> & Hj). by exists (CopyUp data :: j1), j2. }
    exists (k1 ++ j1), j2. rewrite <- app_assoc. split; [done|]. intros data.
    rewrite (pumpDir_off _ _ Hj (quiet_not_spliced _ Hq)). by apply quiet_not_copied.
  - left. intros data. rewrite (copying_off false m1 Hc eq_refl) in Hp.
    rewrite (pumpDir_off _ _ Hp (quiet_not_spliced _ Hq)). by apply quiet_not_copied.
Qed.

Context (open_channel : list SshEffect -> NewChannel -> result unit string).

Lemma run_channel_ended inspect newCh accept reqs evs (st : State) :
  running st.2 → SpliceUp ∉ st.2 → ended (run_channel gate answer write_ok open_channel inspect newCh accept reqs evs st).2.
Proof.
  intros Hr Hns. unfold run_channel, pump_channel.
  assert (∃ st1 denied, match metaForChannelOpen newCh with Some m => judge gate m st | None => (st, None) end = (st1, denied) ∧
    match denied with
    | None => running st1.2 ∧ (∀ m, metaForChannelOpen newCh = Some m → ssh_cleared ch (ssh_request ch user cred m))
    | Some _ => ∀ l, Forall quiet l → ended (st1.2 ++ l)
    end) as (st1 & denied & -> & Hj).
  { destruct (metaForChannelOpen newCh) as [m|]; [|by exists st, None].
    destruct (judge gate m st) as [st1 denied] eqn:Ej. exists st1, denied. split; [done|].
    pose proof (judge_running _ _ _ _ Ej Hr) as Hj. destruct denied; [auto|]. destruct Hj. split; [done|]. intros m' Hm'. by simplify_eq. }
  destruct denied as [reason|]; [apply Hj; by repeat constructor|]. destruct Hj as [Hr1 Hc].
  destruct (open_channel st1.2 newCh) as [u|reason]; [|apply quiet_ended; [done|by repeat constructor]].
  assert (running (st1.2 ++ [OpenUp (nc_ChannelType newCh) (nc_ExtraData newCh)])) as Hr2.
  { apply running_app; [done|constructor; [|done]|by repeat constructor]. cbn. destruct newCh as [ty ex]. cbn [nc_ChannelType nc_ExtraData].
    destruct (metaForChannelOpen _) eqn:E; [by apply Hc|done]. }
  destruct (negb accept); [by apply running_ended|]. destruct (_ && _); [by apply gateAgentStdin_ended|].
  apply forwardAgentReqs_ended, running_app; [done|by repeat constructor..].
Qed.
End Traces.

(** ** The theorems *)

Section Theorems.
Context `{Codec : SshCodec} {W : Type} (ch : ConnHandle W) (user cred : string).
Context (answer : list SshEffect -> SshRequest -> option bool) (write_ok : list SshEffect -> string -> bool).
Context (open_channel : list SshEffect -> NewChannel -> result unit string).

Notation gate := (Some (agent_gate ch user cred)).
Notation session := (run_channel gate answer write_ok open_channel).

(** C8. On a channel of the agent, whatever it sends, the upstream answers, and
    bytes the copier of a spliced channel moves in between: a request that
    decodes as an action (a terminal, a command, a shell, a subsystem) goes
    upstream only if the rules or an approver cleared it, and a forwarding
    channel is opened only if its target was cleared. Once an action is refused,
    no request, judged input or channel goes upstream any more; and if the input
    of the channel was being copied, both halves are closed, after which no byte
    of it is copied. *)
Theorem ssh_only_cleared_forwarded inspect newCh accept reqs evs w tr :
  pumpDir false (session inspect newCh accept reqs evs (w, [])).2 tr →
  (∀ type want payload m, SentUp type want payload ∈ tr → metaForChannelReq (mkSshReq type want payload) = Some m →
     ∃ stdin trunc, ssh_cleared ch (ssh_request ch user cred (with_stdin m stdin trunc))) ∧
  (∀ type extra m, OpenUp type extra ∈ tr → metaForChannelOpen (mkNewChannel type extra) = Some m →
     ssh_cleared ch (ssh_request ch user cred m)) ∧
  (∀ l1 req reason l2, tr = l1 ++ Judged req (Some reason) :: l2 →
     (∀ e, e ∈ l2 → upward e = false) ∧
     ((∀ data, CopyUp data ∉ l2) ∨ ∃ k1 k2, l2 = k1 ++ CloseBoth :: k2 ∧ ∀ data, CopyUp data ∉ k2)).
Proof.
  intros Hp. destruct (run_channel_ended ch user cred answer write_ok open_channel inspect newCh accept reqs evs (w, [])) as [Hs Hf].
  { split; constructor. }
  { set_solver. }
  set (tr0 := (session inspect newCh accept reqs evs (w, [])).2) in *. rewrite Forall_forall in Hs. split_and!.
  - intros type want payload m Hin Hm. apply (pumpDir_elem _ _ _ _ Hp) in Hin as [[? ?]|Hin]; [done|]. specialize (Hs _ Hin). cbn in Hs.
    change (metaForChannelReq (mkSshReq type true payload)) with (metaForChannelReq (mkSshReq type want payload)) in Hs. by rewrite Hm in Hs.
  - intros type extra m Hin Hm. apply (pumpDir_elem _ _ _ _ Hp) in Hin as [[? ?]|Hin]; [done|].
    specialize (Hs _ Hin). cbn in Hs. by rewrite Hm in Hs.
  - intros l1 req reason l2 ->. by eapply refusal_stops.
Qed.



(** ** What is not judged *)

(** An action whose payload does not decode is sent on without being judged,
    whatever the rules say. *)
Theorem undecodable_action_unjudged r st :
  rq_Type r = "exec" ∨ rq_Type r = "subsystem" → unmarshal_string (rq_Payload r) = None →
  ∃ ok, forwardAgentReqs gate answer [r] st =
    (st.1, st.2 ++ SentUp (rq_Type r) (rq_WantReply r) (rq_Payload r) :: if rq_WantReply r then [ReplyAgent ok] else []).
Proof.
  intros Ht Hu. assert (metaForChannelReq r = None) as Hm.
  { unfold metaForChannelReq. rewrite Hu. by destruct Ht as [-> | ->]. }
  cbn [forwardAgentReqs]. rewrite Hm. destruct st as [w tr]. unfold forwardChannelReq. eexists.
  destruct (rq_WantReply r); cbn; by rewrite <- ?app_assoc.
Qed.

(** C40. When the agent sends the first byte of its input after the idle timer has
    fired, the command is judged with an empty input that does not count as
    truncated, and the whole input follows it unjudged. *)
Theorem late_input_unjudged r m evs st st' :
  metaForChannelReq r = Some m → gateStdin gate answer write_ok r m (SIdle :: evs) st = (st', true) →
  ∃ pre ev seg, st'.2 = st.2 ++ pre ++ [Judged (ssh_request ch user cred m) None; Emit ev] ++ seg ∧
    (∀ req denied, Judged req denied ∉ seg) ∧ (writes_succeed write_ok → written seg = input evs).
Proof.
  intros Hm Hg. apply gateStdin_spec in Hg as (pre & ev & denied & post & -> & _ & _ & _ & Ht).
  destruct (Ht eq_refl) as (-> & l & -> & Hl & Hs). cbn in Hs.
  assert (with_stdin m "" false = m) as Hmm.
  { unfold metaForChannelReq in Hm. destruct (unmarshal_string _); repeat (case_match; simplify_eq/=; try done). }
  exists pre, ev, (SentUp (rq_Type r) false (rq_Payload r) :: l ++ [CloseWriteUp]). split_and!.
  - cbn [buffering bf_prefix bf_truncated String.eqb negb]. by rewrite Hmm.
  - intros req denied [?|[Hin|[?|Hin]%elem_of_cons]%elem_of_app]%elem_of_cons; try done; [|by apply elem_of_nil in Hin].
    rewrite Forall_forall in Hl. by apply Hl in Hin.
  - intros Hw. cbn. rewrite written_app. cbn. by rewrite str_app_nil_r, Hs.
Qed.

(** After a subsystem or terminal request that the rules let pass, even if the
    upstream refuses it, a command on the same channel is judged without its
    input, and the input is copied unjudged. *)
Theorem input_unjudged_after_subsystem r1 m1 r2 m2 evs st st1 st2 :
  metaForChannelReq r1 = Some m1 → ssh_Verb m1 = VerbSubsystem ∨ ssh_Verb m1 = VerbPTY → metaForChannelReq r2 = Some m2 →
  judge gate m1 st = (st1, None) → judge gate m2 ((forwardChannelReq answer r1 st1).1, (forwardChannelReq answer r1 st1).2 ++ [SpliceUp]) = (st2, None) →
  gateAgentStdin gate answer write_ok [r1; r2] evs st = forwardChannelReq answer r2 st2 ∧
  ∃ ev, st2.2 = (forwardChannelReq answer r1 st1).2 ++ [SpliceUp; Judged (ssh_request ch user cred m2) None; Emit ev].
Proof.
  intros H1 Hv H2 J1 J2. cbn [gateAgentStdin]. rewrite H1.
  assert (String.eqb (ssh_Verb m1) VerbExec || String.eqb (ssh_Verb m1) VerbShell = false) as -> by (by destruct Hv as [-> | ->]).
  rewrite J1. cbv zeta. cbn [forwardAgentReqs]. rewrite H2, J2. split; [done|].
  apply judge_gate in J2 as (ev & -> & _). exists ev. cbn [snd]. by rewrite <- app_assoc.
Qed.
End Theorems.

(** ** The credential of a connection *)

Definition wanted_user (c : CompiledCredential) : string := default "" (cc_Disambiguators c !! "user").

Lemma pick_user_spec user fb entries c :
  user ≠ "" → pick_user user fb entries = Some c →
  (c ∈ entries ∧ wanted_user c = user) ∨
  (Forall (λ x, wanted_user x ≠ user) entries ∧ (fb = Some c ∨ c ∈ entries ∧ wanted_user c = "")).
Proof.
  intros Hu. revert fb. induction entries as [|x entries IH]; intros fb; cbn [pick_user]; [intros ->; right; auto|].
  fold (wanted_user x). destruct (String.eqb_spec (wanted_user x) "") as [Hx|Hx].
  - intros [[Hin Hw]|[Hno Hfb]]%IH; [left; split; [by right|done]|]. right. split; [constructor; [congruence|done]|].
    right. destruct Hfb as [[= <-]|[Hin Hw]]; [split; [by left|done]|split; [by right|done]].
  - destruct (String.eqb_spec user (wanted_user x)) as [He|He].
    + intros [= <-]. left. split; [by left|done].
    + intros [[Hin Hw]|[Hno Hfb]]%IH; [left; split; [by right|done]|]. right. split; [constructor; [congruence|done]|].
      destruct Hfb as [Hfb|[Hin Hw]]; [by left|right; split; [by right|done]].
Qed.

(** The credentials a profile has at an endpoint. *)
Definition profile_entries (pol : CompiledPolicy) (profile : string) (ep : CompiledEndpoint) : list CompiledCredential :=
  match pol_Profiles pol !! profile with Some prof => default [] (prof_EndpointCredentials prof !! ep_Name ep) | None => [] end.

Lemma pickSSHCredential_spec pol profile ep user cc :
  user ≠ "" → pickSSHCredential (Some pol) profile (Some ep) user = Some cc →
  cc ∈ profile_entries pol profile ep ∧
  (wanted_user cc = user ∨ wanted_user cc = "" ∧ Forall (λ x, wanted_user x ≠ user) (profile_entries pol profile ep)).
Proof.
  intros Hu. unfold pickSSHCredential, profile_entries. destruct (pol_Profiles pol !! profile) as [prof|]; [|done].
  assert (∀ entries, pick_user user None entries = Some cc →
    cc ∈ entries ∧ (wanted_user cc = user ∨ wanted_user cc = "" ∧ Forall (λ x, wanted_user x ≠ user) entries)) as Hpick.
  { intros entries [[Hin Hw]|[Hno [?|[Hin Hw]]]]%(pick_user_spec _ _ _ _ Hu); [split; [done|by left]|done|split; [done|by right]]. }
  destruct (default [] _) as [|c [|c2 entries]]; [done| |apply Hpick]. case_bool_decide as Hd; [|apply Hpick].
  intros [= <-]. assert (wanted_user c = "") as Hw by (unfold wanted_user; by rewrite Hd, lookup_empty).
  split; [by left|]. right. split; [done|]. constructor; [congruence|done].
Qed.

Lemma pickUpstream_spec hosts port h :
  pickUpstream hosts port = h → h ≠ "" → ∃ x, x ∈ hosts ∧ (h = x ∨ h = x +:+ ":22").
Proof.
  assert (∀ l h, pick_host port l = Some h → ∃ x, x ∈ l ∧ (h = x ∨ h = x +:+ ":22")) as Hp.
  { induction l as [|y l IH]; intros h'; cbn [pick_host]; [done|]. destruct (HasSuffix _ _); [intros [= <-]; exists y; split; [by left|by left]|].
    destruct (_ && _); [intros [= <-]; exists y; split; [by left|by right]|]. intros (x & Hin & Hx)%IH. exists x. split; [by right|done]. }
  unfold pickUpstream. destruct hosts as [|first hosts]; [by intros <-|].
  destruct (if port =? 0 then None else pick_host port (first :: hosts)) as [h0|] eqn:E.
  - intros <- _. apply Hp. by destruct (port =? 0).
  - intros <- _. exists first. split; [by left|]. destruct (Contains first ":"); auto.
Qed.

Section Login.
Context {Signer : Type} (parse_key : string -> option string -> result Signer string) (parse_authorized : string -> result string string).
Context {W : Type} (ch : ConnHandle W) (body : option (list string)) (hasBlobs : bool) (DstPort : Z).
Context (hostKey : result Signer string) (serve : result string string) (ssh_auth : Entity -> option (Secret -> result SSHCreds string))
  (secrets : string -> result Secret string) (dial : string -> result unit string)
  (connect : string -> ClientConfig Signer -> result unit string).

(** The material of a login is that of the credential, and a pinned host key is
    the only one accepted. *)
Definition login_of (creds : SSHCreds) (user : string) (cfg : ClientConfig Signer) : Prop :=
  cl_User cfg = user ∧ auth_methods parse_key creds = Ok (cl_Auth cfg) ∧ cl_Auth cfg ≠ [] ∧
  (ssh_HostPubkey creds ≠ "" → ∃ pinned, parse_authorized (ssh_HostPubkey creds) = Ok pinned ∧
     ∀ key, cl_HostKeyCallback cfg key = true ↔ key = pinned).

Lemma upstreamClientConfig_spec auth secret user cfg :
  upstreamClientConfig parse_key parse_authorized auth secret user = Ok cfg →
  ∃ f sec creds, auth = Some f ∧ secret = Ok sec ∧ f sec = Ok creds ∧ login_of creds user cfg.
Proof.
  unfold upstreamClientConfig. destruct auth as [f|]; [|done]. destruct secret as [sec|]; [|done].
  destruct (f sec) as [creds|] eqn:Ef; [|done]. cbn. destruct (auth_methods parse_key creds) as [methods|] eqn:Ea; [|done]. cbn.
  case_bool_decide as Hl; [done|]. unfold buildHostKeyCallback. destruct (String.eqb_spec (ssh_HostPubkey creds) "") as [Hp|Hp].
  - intros [= <-]. exists f, sec, creds. split_and!; try done. by destruct methods.
  - destruct (parse_authorized _) as [pinned|] eqn:Epin; [|done]. intros [= <-]. exists f, sec, creds. split_and!; try done.
    split_and!; try done; [by destruct methods|]. intros _. exists pinned. split; [done|]. intros key. apply String.eqb_eq.
Qed.

(** A connection that is served goes to a host of the endpoint, as the user the
    agent named, with the material of a credential its profile has at the
    endpoint: one bound to that user, or one bound to no user when none is; a
    host key pinned by the credential is the only one accepted. *)
Theorem ssh_login_exact user cc addr cfg ev :
  ssh_HandleConn parse_key parse_authorized ch body hasBlobs DstPort hostKey serve ssh_auth secrets dial connect = SshServing user cc addr cfg ev →
  serve = Ok user ∧
  (∃ pol, ch_Policy ch = Some pol ∧ cc ∈ profile_entries pol (ch_Profile ch) (ch_Endpoint ch) ∧
     (wanted_user cc = user ∨ wanted_user cc = "" ∧ Forall (λ x, wanted_user x ≠ user) (profile_entries pol (ch_Profile ch) (ch_Endpoint ch)))) ∧
  (∃ hosts h, body = Some hosts ∧ h ∈ hosts ∧ (addr = h ∨ addr = h +:+ ":22")) ∧
  (∃ f sec creds, ssh_auth (cc_Credential cc) = Some f ∧ secrets (ent_Name (cc_Credential cc)) = Ok sec ∧ f sec = Ok creds ∧
     login_of creds user cfg) ∧ connect addr cfg = Ok tt.
Proof.
  unfold ssh_HandleConn. destruct (negb _); [done|]. destruct (negb hasBlobs); [done|]. destruct body as [hosts|]; [|done].
  destruct hostKey as [hk|]; [|done]. destruct (String.eqb_spec (pickUpstream hosts DstPort) "") as [|Ha]; [done|].
  destruct serve as [user'|]; [|done]. destruct (String.eqb_spec user' "") as [|Hu]; [done|].
  destruct (pickSSHCredential _ _ _ _) as [cc'|] eqn:Ep; [|done].
  destruct (upstreamClientConfig _ _ _ _ _) as [cfg'|] eqn:Eu; [|done]. destruct (dial _); [|done].
  destruct (connect _ cfg') as [[]|] eqn:Ec; [|done]. intros [= <- <- <- <- _]. split; [done|]. split_and!.
  - destruct (ch_Policy ch) as [pol|]; [|done]. exists pol. split; [done|]. by apply pickSSHCredential_spec.
  - destruct (pickUpstream_spec _ _ _ eq_refl Ha) as (x & Hin & Hx). by exists hosts, x.
  - by eapply upstreamClientConfig_spec.
  - done.
Qed.
End Login.

(** ** Host keys *)

Section HostKeyProps.
Context {Signer : Type} (parse : string -> result Signer string) (marshal : Signer -> string).
(** The PEM form of a key parses as the key. *)
Context (parse_marshal : ∀ s, parse (marshal s) = Ok s).

(** Every key in use is the one on disk. *)
Definition keys_agree (k : Keys Signer) : Prop :=
  ∀ name s, hk_cache k !! name = Some s → ∃ data, hk_blobs k !! name = Some data ∧ parse data = Ok s.

(** Undisturbed calls keep that, and a restart finds the same key again. *)
Theorem host_key_survives_restart name minted minted' k s k' :
  keys_agree k → hostKeyFor parse marshal name minted k = (KDone (Ok s), k') →
  keys_agree k' ∧ (hostKeyFor parse marshal name minted' (mkKeys ∅ (hk_blobs k'))).1 = KDone (Ok s).
Proof.
  intros Hk. unfold hostKeyFor. cbn [Nat.iter hostKeyFor_step]. destruct k as [cache blobs]. cbn [hk_cache hk_blobs].
  assert (∀ data, blobs !! name = Some data → parse data = Ok s → (hostKeyFor parse marshal name minted' (mkKeys ∅ blobs)).1 = KDone (Ok s)) as Hre.
  { intros data Hd Hp. unfold hostKeyFor. cbn. rewrite lookup_empty. cbn. rewrite Hd. cbn. by rewrite Hp. }
  assert (∀ data, blobs !! name = Some data → parse data = Ok s → keys_agree (mkKeys (<[name := s]> cache) blobs)) as Hst.
  { intros data Hd Hp n s0. cbn. intros [[<- <-]|[? H]]%lookup_insert_Some; [by eauto|]. by apply (Hk n s0). }
  destruct (cache !! name) as [s0|] eqn:Ec; cbn; rewrite ?Ec; cbn; rewrite ?Ec; cbn; rewrite ?Ec; cbn.
  - intros [= <- <-]. split; [done|]. destruct (Hk name s0 Ec) as (data & Hd & Hp). by eapply Hre.
  - destruct (blobs !! name) as [data|] eqn:Eb; cbn; rewrite ?Eb; cbn.
    + destruct (parse data) as [s1|] eqn:Ep; cbn; [|done]. intros [= <- <-]. split; [by eapply Hst|by eapply Hre].
    + intros [= <- <-]. split.
      * intros n s1. cbn. intros [[<- <-]|[Hne H]]%lookup_insert_Some; [rewrite lookup_insert_eq; by eauto|].
        rewrite lookup_insert_ne by done. by apply (Hk n s1).
      * unfold hostKeyFor. cbn. rewrite lookup_empty. cbn. rewrite lookup_insert_eq. cbn. by rewrite parse_marshal.
Qed.

(** Two calls under a schedule: [true] for a step of the first. *)
Definition two_calls (name : string) (s1 s2 : Signer) (sched : list bool) (k : Keys Signer) : KeyJob Signer * KeyJob Signer * Keys Signer :=
  foldl (λ '(j1, j2, k) first,
    if first : bool then let '(j, k) := hostKeyFor_step parse marshal name s1 j1 k in (j, j2, k)
    else let '(j, k) := hostKeyFor_step parse marshal name s2 j2 k in (j1, j, k)) (KLoad, KLoad, k) sched.

(** Two first connections to an endpoint can leave a key in use that is not the
    one on disk: the endpoint changes its key at the next start. *)
Theorem host_key_race name s1 s2 :
  ∃ sched k, two_calls name s1 s2 sched (mkKeys ∅ ∅) = (KDone (Ok s1), KDone (Ok s2), k) ∧
    hk_cache k !! name = Some s1 ∧ hk_blobs k !! name = Some (marshal s2).
Proof.
  exists [true; false; true; false; true; false; false; true]. eexists. unfold two_calls. cbn. rewrite !lookup_empty. cbn. rewrite !lookup_empty. cbn.
  split; [reflexivity|]. cbn. by rewrite !lookup_insert_eq.
Qed.
End HostKeyProps.

(** ** Witnesses *)

(** The wire format of RFC 4251: a string is its length and its bytes. *)
Definition wire_string (s : string) : option (string * string) :=
  let n := Z.to_nat (be_get (str_take 4 s)) in
  if (String.length s <? 4)%nat || (String.length s <? 4 + n)%nat then None else Some (str_take n (str_drop 4 s), str_drop (4 + n) s).

Definition wire_uint32 (s : string) : option (Z * string) :=
  if (String.length s <? 4)%nat then None else Some (be_get (str_take 4 s), str_drop 4 s).

Definition whole {A} (x : option (A * string)) : option A := match x with Some (a, "") => Some a | _ => None end.

#[local] Instance wire_codec : SshCodec := {
  unmarshal_string s := whole (wire_string s);
  unmarshal_uint32 s := whole (wire_uint32 s);
  unmarshal_directTCPIP s :=
    '(dh, s) ← wire_string s; '(dp, s) ← wire_uint32 s; '(oh, s) ← wire_string s; op ← whole (wire_uint32 s); Some (dh, dp, oh, op)
}.

(** A rule that denies input with [rm -rf] in it. *)
Definition rm_matcher : Matcher := mkMatcher (λ req,
  match req with
  | Some q => match req_Meta q with
              | MetaSsh m => if req_Truncated q then mkDecision Unevaluable "" else mkDecision (ResultOf (Contains (ssh_Stdin m) "rm -rf")) ""
              | _ => mkDecision NoMatch ""
              end
  | None => mkDecision NoMatch ""
  end) true.

Definition rm_rule : CompiledRule := mkRule "no-rm" 0 false "" "" (Some rm_matcher) (mkOutcome "deny" "no rm" []).


Definition ssh_handle : ConnHandle unit := mkConn (test_endpoint "build" [rm_rule]) None "dev" "10.55.0.2" None.
Definition always (tr : list SshEffect) (r : SshRequest) : option bool := Some true.
Definition ssh_string (s : string) : string := be_put 4 (Z.of_nat (String.length s)) +:+ s.
Definition run_bash : SshRequest := mkSshReq "exec" true (ssh_string "bash -s").
Definition bash_meta : SshMeta := mkSshMeta VerbExec "bash -s" "" "" 0 "" "" false.
Notation ssh_gate := (Some (agent_gate ssh_handle "deploy" "key")).

(** A script in two reads is judged and sent on whole; one with [rm -rf] is
    refused, and nothing of it reaches the upstream. *)
Example ssh_scripts :
  let ok := run_channel ssh_gate always (λ _ _, true) (λ _ _, Ok tt) true (mkNewChannel "session" "") true [run_bash]
              [SChunk "echo "; SChunk "hi"; SErr true] (tt, []) in
  let bad := run_channel ssh_gate always (λ _ _, true) (λ _ _, Ok tt) true (mkNewChannel "session" "") true [run_bash]
              [SChunk "rm "; SChunk "-rf /"; SErr true] (tt, []) in
  written ok.2 = "echo hi" ∧ SentUp "exec" false (ssh_string "bash -s") ∈ ok.2 ∧
  written bad.2 = "" ∧ omap (λ e, match e with SentUp t _ _ => Some t | _ => None end) bad.2 = [] ∧ last bad.2 = Some CloseBoth.
Proof. vm_compute. split_and!; try reflexivity. repeat (first [left|right]). Qed.

(** No shells; the agent types while the request is judged. *)
Definition no_shell_rule : CompiledRule :=
  mkRule "no-shell" 0 false "" "" (Some (mkMatcher (λ req,
    mkDecision (match req with
                | Some q => match req_Meta q with MetaSsh m => ResultOf (String.eqb (ssh_Verb m) VerbShell) | _ => NoMatch end
                | None => NoMatch
                end) "") true)) (mkOutcome "deny" "no shells" []).
Definition no_shell_handle : ConnHandle unit := mkConn (test_endpoint "build" [no_shell_rule]) None "dev" "10.55.0.2" None.
Definition shell_session : list SshEffect :=
  (run_channel (Some (agent_gate no_shell_handle "deploy" "key")) always (λ _ _, true) (λ _ _, Ok tt) false
     (mkNewChannel "session" "") true [mkSshReq "shell" true ""] [] (tt, [])).2.
Definition typed (n : nat) : list SshEffect := take n shell_session ++ CopyUp "ls" :: drop n shell_session.

Lemma ssh_only_cleared_forwarded_witness :
  ∃ l1 req l2, typed 3 = l1 ++ Judged req (Some "no shells") :: l2 ∧
    ∃ k1 k2, l2 = k1 ++ CloseBoth :: k2 ∧ ∀ data, CopyUp data ∉ k2.
Proof.
  assert (pumpDir false shell_session (typed 3)) as Hp.
  { unfold typed, shell_session. vm_compute. repeat first [apply pumpDir_nil|apply pumpDir_step|apply pumpDir_copy]. }
  destruct (ssh_only_cleared_forwarded no_shell_handle "deploy" "key" always (λ _ _, true) (λ _ _, Ok tt) false
    (mkNewChannel "session" "") true [mkSshReq "shell" true ""] [] tt (typed 3) Hp) as (_ & _ & H).
  set (req := ssh_request no_shell_handle "deploy" "key" (mkSshMeta VerbShell "" "" "" 0 "" "" false)).
  assert (typed 3 = take 2 shell_session ++ Judged req (Some "no shells") :: drop 3 (typed 3)) as Ht by (vm_compute; reflexivity).
  exists (take 2 shell_session), req, (drop 3 (typed 3)). split; [exact Ht|].
  destruct (H _ _ _ _ Ht) as [_ [Hno|Hyes]]; [|exact Hyes].
  destruct (Hno "ls"). vm_compute. by left.
Defined.


(** One byte after the command makes the payload undecodable for the gateway. *)
Definition padded_bash : SshRequest := mkSshReq "exec" true (ssh_string "bash -s" +:+ "x").

Lemma undecodable_action_unjudged_witness :
  unmarshal_string (rq_Payload padded_bash) = None ∧
  ∃ ok, forwardAgentReqs ssh_gate always [padded_bash] (tt, []) = (tt, [SentUp "exec" true (rq_Payload padded_bash); ReplyAgent ok]).
Proof.
  split; [vm_compute; reflexivity|].
  exact (undecodable_action_unjudged ssh_handle "deploy" "key" always padded_bash (tt, []) (or_introl eq_refl) eq_refl).
Defined.

Lemma late_input_unjudged_witness :
  ∃ pre ev seg,
    (gateStdin ssh_gate always (λ _ _, true) run_bash bash_meta [SIdle; SChunk "rm -rf /"; SErr true] (tt, [])).1.2 =
      pre ++ [Judged (ssh_request ssh_handle "deploy" "key" bash_meta) None; Emit ev] ++ seg ∧ written seg = "rm -rf /".
Proof.
  destruct (late_input_unjudged ssh_handle "deploy" "key" always (λ _ _, true) run_bash bash_meta [SChunk "rm -rf /"; SErr true] (tt, [])
    (gateStdin ssh_gate always (λ _ _, true) run_bash bash_meta [SIdle; SChunk "rm -rf /"; SErr true] (tt, [])).1)
    as (pre & ev & seg & H & _ & Hs); [vm_compute; reflexivity|vm_compute; reflexivity|].
  exists pre, ev, seg. split; [exact H|]. rewrite Hs; [reflexivity|]. intros ? ?. reflexivity.
Defined.
